(* ===== verification/_CoqProject ===== *)
-Q . S2P
Prelude.v
JsString.v
JsValue.v
Primitives.v
Json.v
Forward.v
Time.v
Digest.v
Types.v
Cidr.v
Validate.v
Schema.v
Relay.v
Multihop.v
Adp3.v
Transit.v
Probe.v
Drivers.v
TargetPolicy.v
Endpoint.v
Topology.v
Planner.v
Printed.v
SnapshotRegistry.v
RelayPlan.v
MultihopPlan.v
PathContract.v
Iso.v
TransitPlan.v
Authority.v
Store.v
Idempotency.v
Forwarding.v
Slots.v
Operations.v
Retirements.v
Identity.v
Nodes.v
Profiles.v
Reads.v
PathTemplates.v
PathBindings.v
RelayDeployments.v
RelayLocks.v
RelayCoordinator.v
RelayFrame.v
Execution.v
Reconcile.v
CommandState.v
ForwardCommands.v
AccessCommands.v
CommandSafety.v
Revocation.v
ControlSafety.v
RelayProgress.v
Controller.v
ControllerSafety.v
Guarantees.v
TransitStaging.v
RelayGuarantees.v
CommandGuarantees.v
TransitCoordination.v
TransitDelivery.v
ProbeInstances.v
ProbePlans.v
ProbePermits.v
ProbeMoves.v
ProbeSafety.v
ProbeAuthority.v
ProbeControl.v
ProbeDelivery.v
ProbeGuarantees.v
Observations.v
ObservationText.v
Console.v
TunnelQueries.v
ReadGuarantees.v
