(* ===== verification/Prelude.v ===== *)
(** TuneX VNext: verification development.

    TuneX is a control plane for TCP and UDP forwards over managed Nodes.  A user
    declares a Forward (packages/core); the control plane (apps/control) stores its
    intent, reserves physical sockets, compiles what each Node has to run into
    Snapshots, delivers them over the ADP protocol (packages/contracts), and watches
    reports until an Operation is done or what it replaced has drained.

    ** Files

    Contracts and core (packages/core/src, packages/contracts/src):
    - [Prelude]: exceptions as values ([outcome]), guards, list and integer lemmas,
      hint databases.  [JsString], [JsValue]: JavaScript strings (UTF-16 code units)
      and dynamic values.
    - [Primitives] (primitives.ts): identifiers, ports, counters, IP and host names.
      [Forward] (forward.ts): the Forward parsers and [decideForwardChange].
    - [Json] (json.ts), [Time] (time.ts), [Digest] (digest.ts), [Cidr] and [Validate]
      (validate.ts), [Types] (types.ts): strict JSON, timestamps, canonical digests,
      ADP/2 messages.
    - [Schema], [Relay] (relay.ts), [Multihop] (multihop.ts), [Adp3] (adp3.ts),
      [Transit] (transit*.ts, adp3-transit.ts), [Probe] (probe-*.ts), [Drivers]
      (native-drivers.ts): the ADP/3 documents and their semantic checks.

    Control plane, pure (apps/control/src/modules):
    - [TargetPolicy], [Endpoint] (target-policy.ts, node-policy.ts,
      relay-endpoint-contract.ts), [Topology] (path-topology.ts), [Planner]
      (planner.ts), [SnapshotRegistry] (snapshot-assignments.ts), [RelayPlan]
      (relay-planner.ts, relay-plan.ts), [MultihopPlan] (multihop-plan.ts),
      [TransitPlan] (transit-preparation.ts), [PathContract] (path-template-contract.ts,
      path-binding-contract.ts).  [Printed]: what is printed and read back
      is unchanged, for the Snapshot compiler.  [Iso]: [Date.prototype.toISOString] and
      the calendar, of the language.

    Control plane, stateful:
    - [Store] (infrastructure/mysql.ts and the tables): the state [Db], a Record of
      finite maps, and the transaction monad [tx].  [Idempotency] (idempotency.ts),
      [Forwarding] (forwarding.ts).
    - The Runtime ledger (ledger.ts): [Slots] (physical slots), [Operations] (accept,
      claim, deny), [Retirements] (leases, retirements, completion, capacity).
    - [Identity] (identity.ts), [Nodes] (nodes.ts), [Profiles] (transport.ts,
      relay-endpoints.ts): accounts, machines and credentials, Profiles and endpoints.
    - The Relay coordinator (relay-coordinator.ts): [RelayDeployments] (plans, authority,
      what a Node is to run), [RelayCoordinator] (progress, completion, errors).  [Reads]:
      which transactions only read.  [RelayLocks]: the lock set of a Node.  [RelayFrame]:
      which tables a command leaves alone.  [RelayProgress] and [RelayGuarantees]: the
      contract [relay_move] and what follows from it.
    - [Authority] (infrastructure/authority.ts): the record outside the database of what
      was ever authorized.  [Controller] (controller.ts): sessions, publication, the
      worker and reports.  [ControllerSafety] and [Guarantees]: what holds along every run.
    - [PathTemplates] (path-templates.ts, native-path-references.ts) and [PathBindings]
      (path-bindings.ts): published paths and which Forward follows which.
    - The commands.  [Execution] (authorization-ports.ts, control.ts): the interfaces
      through which commands act on the Runtime, as classes with laws, and the instances
      of the application.  [Reconcile] (access-changes.ts, node-changes.ts,
      profile-grants.ts): what a change of access does to the Forwards.
      [ForwardCommands] (forward-commands.ts), [AccessCommands] (access-commands.ts,
      node-management.ts, transport-grants.ts): the commands.  [CommandState],
      [CommandSafety], [Revocation], [ControlSafety], [CommandGuarantees]: the invariant
      of the control state, what each command does, and concrete runs.
    - The offline Transit path: [TransitStaging] (transit-reservations.ts,
      transit-staging.ts), [TransitCoordination] (transit-coordination.ts),
      [TransitDelivery] (transit-delivery.ts, transit-negotiation.ts).
    - Probes.  [ProbeInstances] (probe-instances.ts, probe-machine-authorization.ts,
      mysql-probe-instances.ts, mysql-probe-machine.ts): which process of a Node may run
      Probes.  [ProbePlans] (forward-probe-plans.ts, mysql-probe-read.ts): what a Probe
      would rest on.  [ProbePermits] (probe-permits.ts, forward-probes.ts,
      probe-permit-state.ts, mysql-probe-permits.ts): one-use permits and results.
      [ProbeDelivery] (probe-claims.ts, probe-results.ts, probe-delivery.ts,
      probe-negotiation.ts, probe-instance-registry.ts): the endpoints of a machine.
      [ProbeMoves], [ProbeSafety], [ProbeAuthority], [ProbeControl], [ProbeGuarantees]:
      the relation every statement satisfies, what the commands return, what a permit
      rests on, all runs, and a concrete one.

    ** State and operations

    The controller acts on a [World], the tables beside the authority record: a failed
    transaction rolls the tables back and not the record.

    A handler is a definition of the same name in [tx]: it reads and writes tables in
    the order of the source and throws at the same guards.  A property of a run is a
    statement on the initial and the final [Db]; a property of the system is proved by
    induction on sequences of transactions ([rtc] of a step relation).

    ** What the theorems show

    Parsers accept exactly what a declarative predicate describes, or return values
    that satisfy it, and normalise to canonical forms that they accept again.
    Timestamps compare as exact instants.  Compiled plans satisfy the contract of the
    Agent: bindings, fences, generations, pins and lifetimes agree on every Node of a
    path.  Merging sources keeps assignments, logical identities and sockets unique.
    Intent is changed by compare-and-set over an append-only history; a request is
    executed once; reservations are exclusive and fenced.  Operations are claimed
    oldest first, end once, and release what they held only when it has drained.
    Owners keep their scopes, revocation is final, published Profile revisions are
    immutable.  A Transit stage holds exactly the slots of its plan and can be
    withdrawn; its coordination refines an abstract phase machine ([coord_move]),
    never leaves withdrawal, can always be driven to its seal, and previews are
    acknowledged at most once.  The Relay coordinator refines an abstract machine
    ([relay_move]), lets traffic in downstream first, and locks exactly the connected
    component of a Node.  Any sequence of commands keeps the control state consistent
    ([control_ok]): history, Operations, templates and bindings agree; an update is
    exactly a compare-and-set with one fresh Operation; every command happens once; and
    taking away a membership or a Node silences what rested on it in every later
    Snapshot and bounds what may still run.  Probe permits stay within their budget along
    every run, are issued and used only while everything they rest on is current, are
    used once, and have one result.  The controller forgets nothing that may still run
    ([accounted]), hands out only live Snapshots, keeps one session per Node, counts a
    report once, and recovery never overlaps what was authorized, even across rollbacks
    and restored backups.

    ** Parameters

    Code that is not in the repository is an argument of the definitions that use it:
    the hash ([Hashing]: canonicalize and SHA-256; [HashingText]: of JavaScript values), the Ajv validators (classes
    [Adp2Schemas], [Schema] with their laws: an accepted document has the declared
    shape), the collation of [localeCompare] ([Locale]), the certificate
    authority ([sign] of [Nodes]), the verifier of Transit reports.  [Date.now()],
    [randomUUID()], random tokens and the size of a JSON column ([octets]) are arguments;
    an operation that samples the clock more than once takes the samples as a function of
    their index, of which nothing is assumed.  Every law a theorem assumes is met by the instance
    its witness uses.

    ** Bounds and fuel

    Counters are integers with the source's bound [MAX_COUNTER] (2^53 - 1), checked
    where the source checks it; dates keep JavaScript's NaN.  [Json.parseJson] runs
    with fuel [2 * length + 1]: every recursive call consumes a character or moves from
    a value to its members, and [parseJson_sound] shows that the fuel is never the
    reason for its answer.

    ** Not modelled

    Pages and projections for display: the status of the
    Relay coordinator, the lists of templates and of their references.  HTTP routing, PKI, key files and the signature of the authority record, console
    read models and the web client: I/O around the modelled operations.  Row locks are modelled by their effect: committed
    transactions are serial.  src/legacy/v2 is the previous product, kept by the
    repository as a reference. *)

From Stdlib Require Export ZArith Lia Bool.
From stdpp Require Export base option list sorting gmap strings.

#[global] Set Default Goal Selector "!".
Local Open Scope Z_scope.

(** ** Exceptions

    A function that may [throw new Error("CODE: message")] returns an
    [outcome].  [code] is the part before the colon, which callers dispatch on;
    [message] the human-readable rest. *)

Declare Scope tunex_scope.
Delimit Scope tunex_scope with tunex.

Record exn := Exn { code : string; message : string }.

Inductive outcome (A : Type) : Type :=
  | Returns (a : A)
  | Throws (e : exn).
Arguments Returns {A} a.
Arguments Throws {A} e.

#[export] Instance outcome_ret : MRet outcome := fun A a => Returns a.

#[export] Instance outcome_bind : MBind outcome := fun A B f m =>
  match m with
  | Returns a => f a
  | Throws e => Throws e
  end.

#[export] Instance outcome_fmap : FMap outcome := fun A B f m =>
  match m with
  | Returns a => Returns (f a)
  | Throws e => Throws e
  end.

(** [if (b) throw new Error(`${c}: ${m}`)] *)
Definition throw_if (b : bool) (c m : string) : outcome unit :=
  if b then Throws (Exn c m) else Returns tt.

Definition is_ok {A} (m : outcome A) : bool :=
  match m with Returns _ => true | Throws _ => false end.

Lemma bind_Returns {A B} (m : outcome A) (f : A -> outcome B) b :
  m ≫= f = Returns b <-> exists a, m = Returns a /\ f a = Returns b.
Proof. destruct m; cbn; naive_solver. Qed.

Lemma fmap_Returns {A B} (m : outcome A) (f : A -> B) b :
  f <$> m = Returns b <-> exists a, m = Returns a /\ b = f a.
Proof. destruct m; cbn; naive_solver. Qed.

Lemma throw_if_Returns b c m : throw_if b c m = Returns tt <-> b = false.
Proof. destruct b; cbn; naive_solver. Qed.

(** Run [f] over a list, stopping at the first exception: a [for ... of] loop
    whose body has no effect but throwing. *)
Fixpoint each {A} (f : A -> outcome unit) (l : list A) : outcome unit :=
  match l with
  | [] => Returns tt
  | x :: r => f x ≫= fun _ => each f r
  end.

(** A [for ... of] loop that threads a state and may throw. *)
Fixpoint fold_each {A S} (f : S -> A -> outcome S) (l : list A) (s : S) : outcome S :=
  match l with
  | [] => Returns s
  | x :: r => f s x ≫= fun s' => fold_each f r s'
  end.

(** [list.map(f)] where [f] may throw. *)
Fixpoint map_each {A B} (f : A -> outcome B) (l : list A) : outcome (list B) :=
  match l with
  | [] => Returns []
  | x :: r => f x ≫= fun y => map_each f r ≫= fun ys => Returns (y :: ys)
  end.

Lemma each_Returns {A} (f : A -> outcome unit) l :
  each f l = Returns tt <-> Forall (fun x => f x = Returns tt) l.
Proof.
  induction l as [|x r IH]; cbn; [by rewrite Forall_nil|].
  rewrite Forall_cons, <- IH. destruct (f x) as [[]|]; cbn; naive_solver.
Qed.

Lemma map_each_Returns {A B} (f : A -> outcome B) l ys :
  map_each f l = Returns ys <-> Forall2 (fun x y => f x = Returns y) l ys.
Proof.
  revert ys; induction l as [|x r IH]; cbn; intros ys; split.
  - by intros [= <-].
  - by intros ->%Forall2_nil_inv_l.
  - intros (y & Hy & (ys' & H%IH & [= <-])%bind_Returns)%bind_Returns. by constructor.
  - intros (y & ys' & Hy & H%IH & ->)%Forall2_cons_inv_l.
    apply bind_Returns. exists y. split; [done|]. apply bind_Returns. eauto.
Qed.

(** ** Automation *)

Create HintDb tunex.

(** Turn boolean tests of the code into propositions, in hypotheses and goal. *)
Ltac propify :=
  repeat match goal with
  | H : (_ && _) = true |- _ => apply andb_prop in H; destruct H
  | H : (_ || _) = false |- _ => apply orb_false_elim in H; destruct H
  | H : negb _ = true |- _ => apply negb_true_iff in H
  | H : negb _ = false |- _ => apply negb_false_iff in H
  | H : bool_decide _ = true |- _ => apply bool_decide_eq_true in H
  | H : bool_decide _ = false |- _ => apply bool_decide_eq_false in H
  | H : (_ <=? _) = true |- _ => apply Z.leb_le in H
  | H : (_ <? _) = true |- _ => apply Z.ltb_lt in H
  | H : (_ =? _) = true |- _ => apply Z.eqb_eq in H
  | H : (_ <=? _) = false |- _ => apply Z.leb_gt in H
  | H : (_ <? _) = false |- _ => apply Z.ltb_ge in H
  | H : (_ =? _) = false |- _ => apply Z.eqb_neq in H
  | H : (_ <=? _)%nat = true |- _ => apply Nat.leb_le in H
  | H : (_ <? _)%nat = true |- _ => apply Nat.ltb_lt in H
  | H : (_ =? _)%nat = true |- _ => apply Nat.eqb_eq in H
  | H : (_ <=? _)%nat = false |- _ => apply Nat.leb_gt in H
  | H : (_ <? _)%nat = false |- _ => apply Nat.ltb_ge in H
  | H : (_ =? _)%nat = false |- _ => apply Nat.eqb_neq in H
  end.

(** Decompose a run that returned: every bind returned, every guard passed. *)
Ltac run_inv :=
  repeat match goal with
  | H : _ ≫= _ = Returns _ |- _ =>
      let a := fresh "a" in let Ha := fresh "Hrun" in
      apply bind_Returns in H; destruct H as (a & Ha & H)
  | H : throw_if _ _ _ = Returns ?u |- _ =>
      destruct u; apply throw_if_Returns in H
  | H : each _ _ = Returns ?u |- _ => destruct u; apply each_Returns in H
  | H : Throws _ = Returns _ |- _ => discriminate H
  | H : mret _ = Returns _ |- _ => injection H as H
  | H : Returns _ = Returns _ |- _ => injection H as H
  end.

(** ** Booleans over lists *)

Lemma forallb_Forall {A} (f : A -> bool) l :
  forallb f l = true <-> Forall (fun x => f x = true) l.
Proof.
  induction l as [|x r IH]; cbn; [by rewrite Forall_nil|].
  by rewrite Forall_cons, andb_true_iff, IH.
Qed.

Lemma existsb_false {A} (f : A -> bool) l :
  existsb f l = false <-> Forall (fun x => f x = false) l.
Proof.
  induction l as [|x r IH]; cbn; [by rewrite Forall_nil|].
  by rewrite Forall_cons, orb_false_iff, IH.
Qed.

Lemma forallb_impl {A} (f g : A -> bool) l :
  (forall x, f x = true -> g x = true) -> forallb f l = true -> forallb g l = true.
Proof. rewrite !forallb_Forall. intros H HF. by eapply Forall_impl. Qed.

(** Membership as a boolean: [array.includes(x)] and [set.has(x)]. *)
Definition includes {A} `{EqDecision A} (l : list A) (x : A) : bool :=
  existsb (fun y => bool_decide (y = x)) l.

Lemma includes_true {A} `{EqDecision A} (l : list A) x :
  includes l x = true <-> x ∈ l.
Proof.
  unfold includes. rewrite existsb_exists, list_elem_of_In. split.
  - intros (y & Hy & E%bool_decide_eq_true). by subst.
  - intros H. exists x. split; [done|]. by apply bool_decide_eq_true.
Qed.

Lemma includes_false {A} `{EqDecision A} (l : list A) x :
  includes l x = false <-> x ∉ l.
Proof. rewrite <- includes_true. by destruct (includes l x). Qed.

(** [new Set(l).size === l.length] *)
Fixpoint distinct {A} `{EqDecision A} (l : list A) : bool :=
  match l with
  | [] => true
  | x :: r => negb (includes r x) && distinct r
  end.

Lemma distinct_NoDup {A} `{EqDecision A} (l : list A) : distinct l = true <-> NoDup l.
Proof.
  induction l as [|x r IH]; cbn; [by split; [constructor|]|].
  rewrite NoDup_cons, andb_true_iff, negb_true_iff, includes_false. naive_solver.
Qed.

(** ** Sorting

    [Array.prototype.sort] is stable, so for a comparison that is a total preorder
    its result is the one insertion sort computes. *)

Fixpoint insert_by {A} (le : A -> A -> bool) (x : A) (l : list A) : list A :=
  match l with
  | [] => [x]
  | y :: r => if le x y then x :: l else y :: insert_by le x r
  end.

Definition sort_by {A} (le : A -> A -> bool) (l : list A) : list A :=
  foldr (insert_by le) [] l.

Section SortBy.
Context {A : Type} (le : A -> A -> bool).

Lemma insert_by_perm x l : insert_by le x l ≡ₚ x :: l.
Proof using.
  induction l as [|y r IH]; cbn; [done|]. destruct (le x y); [done|].
  rewrite IH. by constructor.
Qed.

Lemma sort_by_perm l : sort_by le l ≡ₚ l.
Proof using. induction l as [|x r IH]; cbn; [done|]. by rewrite insert_by_perm, IH. Qed.

Lemma insert_by_id x l : HdRel (fun a b => le a b = true) x l -> insert_by le x l = x :: l.
Proof using. destruct 1 as [|y r H]; cbn; [done|]. by rewrite H. Qed.

(** Sorting a sorted list changes nothing. *)
Lemma sort_by_id l : Sorted (fun a b => le a b = true) l -> sort_by le l = l.
Proof using.
  induction 1 as [|x r H IH Hd]; [done|].
  change (insert_by le x (sort_by le r) = x :: r). rewrite IH. by apply insert_by_id.
Qed.

Lemma insert_by_sorted x l :
  (forall a b, le a b = false -> le b a = true) ->
  Sorted (fun a b => le a b = true) l -> Sorted (fun a b => le a b = true) (insert_by le x l).
Proof using.
  intros Htot. induction 1 as [|y r H IH Hd]; cbn; [by repeat constructor|].
  destruct (le x y) eqn:E; [by repeat constructor|].
  constructor; [done|]. destruct r as [|z r]; cbn; [by constructor; apply Htot|].
  destruct (le x z); constructor; [by apply Htot|by inversion Hd].
Qed.

Lemma sort_by_sorted l :
  (forall a b, le a b = false -> le b a = true) -> Sorted (fun a b => le a b = true) (sort_by le l).
Proof using. intros Htot. induction l as [|x r IH]; cbn; [constructor|]. by apply insert_by_sorted. Qed.
(** The first entry of a sorted list is a least one ([ORDER BY ... LIMIT 1]). *)
Lemma sort_by_head l x :
  (forall a b, le a b = false -> le b a = true) -> (forall a b c, le a b = true -> le b c = true -> le a c = true) ->
  head (sort_by le l) = Some x -> x ∈ l /\ forall y, y ∈ l -> y <> x -> le x y = true.
Proof using.
  intros Htot Htr Hx.
  pose proof (sort_by_sorted l Htot) as HS. pose proof (sort_by_perm l) as HP.
  destruct (sort_by le l) as [|z r]; [done|]. cbn in Hx. injection Hx as ->.
  apply Sorted_StronglySorted in HS; [|intros a b c; apply Htr]. apply StronglySorted_inv in HS as [_ HF].
  rewrite Forall_forall in HF. split.
  - rewrite <- HP. left.
  - intros y Hy Hne. rewrite <- HP in Hy. apply elem_of_cons in Hy as [->|Hy]; [done|by apply HF].
Qed.

Lemma sort_by_head_None l : head (sort_by le l) = None <-> l = [].
Proof using.
  pose proof (sort_by_perm l) as HP. split.
  - destruct (sort_by le l); [|done]. intros _. symmetry in HP. by apply Permutation_nil_r in HP.
  - intros ->. done.
Qed.
End SortBy.

(** ** Loops over unique, ascending entries

    Many validators walk a list keeping the set of keys seen so far and the previous
    entry.  [fresh_from seen keys] says that such a walk never meets a key twice,
    [chain lt prev l] that every entry is above the one before it. *)

Definition fresh_from {K} (seen keys : list K) : Prop :=
  NoDup keys /\ (forall k, k ∈ keys -> k ∉ seen).

Lemma fresh_from_nil {K} (seen : list K) : fresh_from seen [].
Proof. split; [constructor|]. intros k H. by apply not_elem_of_nil in H. Qed.

Lemma fresh_from_cons {K} (seen : list K) k keys :
  fresh_from seen (k :: keys) <-> (k ∉ seen) /\ fresh_from (k :: seen) keys.
Proof. unfold fresh_from. rewrite NoDup_cons. set_solver. Qed.

Lemma fresh_from_start {K} (keys : list K) : fresh_from [] keys <-> NoDup keys.
Proof. unfold fresh_from. set_solver. Qed.

Fixpoint chain {A} (R : A -> A -> Prop) (prev : A) (l : list A) : Prop :=
  match l with
  | [] => True
  | x :: r => R prev x /\ chain R x r
  end.

(** The same walk when nothing precedes the first entry. *)
Definition chain_opt {A} (R : A -> A -> Prop) (prev : option A) (l : list A) : Prop :=
  match prev with
  | Some p => chain R p l
  | None => match l with [] => True | x :: r => chain R x r end
  end.

Lemma chain_opt_cons {A} (R : A -> A -> Prop) prev x (l : list A) :
  chain_opt R prev (x :: l) <->
  match prev with Some p => R p x | None => True end /\ chain_opt R (Some x) l.
Proof. destruct prev; cbn; naive_solver. Qed.

Lemma chain_StronglySorted {A} (R : A -> A -> Prop) `{!Transitive R} p l :
  chain R p l <-> StronglySorted R (p :: l).
Proof.
  revert p; induction l as [|x r IH]; intros p; cbn.
  - split; [|done]. intros _. repeat constructor.
  - rewrite IH. split.
    + intros [Hp HS]. constructor; [done|]. constructor; [done|].
      apply StronglySorted_inv in HS as [_ HF]. eapply Forall_impl; [exact HF|].
      intros y Hy. by etransitivity.
    + intros [HS HF]%StronglySorted_inv. by inversion HF.
Qed.

Lemma chain_opt_StronglySorted {A} (R : A -> A -> Prop) `{!Transitive R} l :
  chain_opt R None l <-> StronglySorted R l.
Proof. destruct l; cbn; [by split; [constructor|]|]. apply chain_StronglySorted, _. Qed.

(** A strictly ascending list repeats nothing. *)
Lemma StronglySorted_NoDup {A} (R : A -> A -> Prop) `{!Irreflexive R} l :
  StronglySorted R l -> NoDup l.
Proof.
  induction 1 as [|x r H IH HF]; constructor; [|done].
  intros Hx. rewrite Forall_forall in HF. by destruct (irreflexivity R x (HF x Hx)).
Qed.

(** A loop whose body is a guard [G] and a state update [nx] succeeds when the guard
    holds all along the walk; the walk splits along the conjuncts of the guard. *)
Fixpoint walk {S A} (G : S -> A -> Prop) (nx : S -> A -> S) (s : S) (l : list A) : Prop :=
  match l with
  | [] => True
  | x :: r => G s x /\ walk G nx (nx s x) r
  end.

Section Walk.
Context {S A : Type} (nx : S -> A -> S).

Lemma fold_each_walk (f : S -> A -> outcome S) G l s s' :
  (forall s x s', f s x = Returns s' <-> s' = nx s x /\ G s x) ->
  fold_each f l s = Returns s' <-> s' = fold_left nx l s /\ walk G nx s l.
Proof using.
  intros Hf. revert s; induction l as [|x r IH]; intros s; cbn; [naive_solver|].
  rewrite bind_Returns. setoid_rewrite Hf. setoid_rewrite IH. naive_solver.
Qed.

Lemma fold_each_seq {B} (f : S -> A -> outcome S) G l s (k : outcome B) r :
  (forall s x s', f s x = Returns s' <-> s' = nx s x /\ G s x) ->
  (fold_each f l s ≫= fun _ => k) = Returns r <-> walk G nx s l /\ k = Returns r.
Proof using.
  intros Hf. rewrite bind_Returns. setoid_rewrite (fold_each_walk f G); [|done]. naive_solver.
Qed.

Lemma walk_and (G H : S -> A -> Prop) l s :
  walk (fun s x => G s x /\ H s x) nx s l <-> walk G nx s l /\ walk H nx s l.
Proof using. revert s; induction l as [|x r IH]; intros s; cbn; [done|]. rewrite IH. tauto. Qed.

Lemma walk_Forall (P : A -> Prop) l s : walk (fun _ x => P x) nx s l <-> Forall P l.
Proof using.
  revert s; induction l as [|x r IH]; intros s; cbn; [by rewrite Forall_nil|].
  by rewrite Forall_cons, IH.
Qed.

Lemma walk_fresh {K} (seen : S -> list K) (key : A -> K) l s :
  (forall s x, seen (nx s x) = key x :: seen s) ->
  walk (fun s x => key x ∉ seen s) nx s l <-> fresh_from (seen s) (map key l).
Proof using.
  intros Hn. revert s; induction l as [|x r IH]; intros s; cbn.
  - split; [|done]. intros _. apply fresh_from_nil.
  - by rewrite fresh_from_cons, IH, Hn.
Qed.

Lemma walk_chain {V} (R : V -> V -> Prop) (prev : S -> V) (val : A -> V) l s :
  (forall s x, prev (nx s x) = val x) ->
  walk (fun s x => R (prev s) (val x)) nx s l <-> chain R (prev s) (map val l).
Proof using.
  intros Hn. revert s; induction l as [|x r IH]; intros s; cbn; [done|]. by rewrite IH, Hn.
Qed.

Lemma walk_chain_opt (R : A -> A -> Prop) (prev : S -> option A) l s :
  (forall s x, prev (nx s x) = Some x) ->
  walk (fun s x => match prev s with Some p => R p x | None => True end) nx s l <->
  chain_opt R (prev s) l.
Proof using.
  intros Hn. revert s; induction l as [|x r IH]; intros s.
  - cbn. destruct (prev s); done.
  - rewrite chain_opt_cons. cbn [walk]. by rewrite IH, Hn.
Qed.
End Walk.

(** Distinctness through an injective encoding of the keys. *)
Lemma NoDup_map_iff {A K L} (f : A -> K) (g : A -> L) l :
  (forall x y, f x = f y <-> g x = g y) -> NoDup (map f l) <-> NoDup (map g l).
Proof.
  intros H. induction l as [|x r IH]; cbn; [by split; constructor|]. rewrite !NoDup_cons, IH.
  rewrite !list_elem_of_In, !in_map_iff. by setoid_rewrite H.
Qed.

(** [forEach pair of consecutive entries, the second is above the first]:
    [list.some((x, i) => i > 0 && list[i - 1] >= x)] is false. *)
Fixpoint ascending {A} (ltb : A -> A -> bool) (l : list A) : bool :=
  match l with
  | x :: ((y :: _) as r) => ltb x y && ascending ltb r
  | _ => true
  end.

Lemma ascending_StronglySorted {A} (ltb : A -> A -> bool)
    `{!Transitive (fun a b => ltb a b = true)} l :
  ascending ltb l = true <-> StronglySorted (fun a b => ltb a b = true) l.
Proof.
  rewrite <- chain_opt_StronglySorted by done. induction l as [|x [|y r] IH]; try done.
  cbn [ascending]. rewrite andb_true_iff, IH. done.
Qed.

(** ** Guards

    [autorewrite with guards] turns [run = Returns r], for a run that is a sequence of
    guards, into the conjunction of what the guards let through. *)

Lemma guard_seq {B} b c m (k : outcome B) r :
  (throw_if b c m ≫= fun _ => k) = Returns r <-> b = false /\ k = Returns r.
Proof. destruct b; cbn; naive_solver. Qed.

Lemma is_Returns_tt (u : unit) : Returns u = Returns tt <-> True.
Proof. by destruct u. Qed.

Lemma bool_decide_true_iff (P : Prop) `{Decision P} : bool_decide P = true <-> P.
Proof. apply bool_decide_eq_true. Qed.

Lemma bool_decide_false_iff (P : Prop) `{Decision P} : bool_decide P = false <-> ~ P.
Proof. apply bool_decide_eq_false. Qed.

Lemma Returns_inj_iff {A} (x y : A) : Returns x = Returns y <-> y = x.
Proof. naive_solver. Qed.

Create Rewrite HintDb guards.
#[export] Hint Rewrite @guard_seq @throw_if_Returns @Returns_inj_iff orb_false_iff negb_false_iff negb_true_iff
  @includes_false @includes_true @bool_decide_true_iff @bool_decide_false_iff
  Z.leb_gt Z.ltb_ge Z.eqb_eq Z.eqb_neq @each_Returns : guards.

(** Split the state and the guards of a loop body. *)
Ltac solve_guards := autorewrite with guards; naive_solver.

Lemma seq_unit {B} (m : outcome unit) (k : outcome B) r :
  (m ≫= fun _ => k) = Returns r <-> m = Returns tt /\ k = Returns r.
Proof. destruct m as [[]|]; cbn; naive_solver. Qed.

Lemma StronglySorted_weaken {A} (R R' : A -> A -> Prop) l :
  (forall x y, R x y -> R' x y) -> StronglySorted R l -> StronglySorted R' l.
Proof. intros Hw. induction 1 as [|x r H IH HF]; constructor; [done|]. by eapply Forall_impl; [exact HF|auto]. Qed.
