(* ===== verification/JsString.v ===== *)
(** JavaScript strings and their number formatting, as far as the sources use
    them.

    A JavaScript string is a sequence of UTF-16 code units; here it is a list of
    integers ([jsstr]).  [js "..."] is the literal.  The file models
    [String.prototype.split], [Array.prototype.join], [lastIndexOf], the
    relational operators on strings (lexicographic on code units),
    [Number.prototype.toString] for non-negative integers in base 10 and 16, and
    [Number.parseInt], and proves the inverse laws between them that the
    components rely on. *)

From S2P Require Export Prelude.

Local Open Scope Z_scope.

Abbreviation jsstr := (list Z).

(** An ASCII literal of the source. *)
Definition js (s : string) : jsstr :=
  map (fun c => Z.of_N (Ascii.N_of_ascii c)) (String.list_ascii_of_string s).

#[global] Arguments js : simpl never.

Definition str_eqb (a b : jsstr) : bool := bool_decide (a = b).

(** ** Character classes of the regular expressions *)

Definition ch_in (lo hi c : Z) : bool := (lo <=? c) && (c <=? hi).
Definition is_digit : Z -> bool := ch_in 48 57.
Definition is_lower : Z -> bool := ch_in 97 122.
Definition is_upper : Z -> bool := ch_in 65 90.
Definition is_alnum (c : Z) : bool := is_digit c || is_lower c || is_upper c.
Definition is_hex (c : Z) : bool := is_digit c || ch_in 97 102 c || ch_in 65 70 c.

Definition ch_dot : Z := 46.
Definition ch_colon : Z := 58.
Definition ch_dash : Z := 45.
Definition ch_slash : Z := 47.

(** ** The order of [<] on strings *)

Fixpoint str_ltb (a b : jsstr) : bool :=
  match a, b with
  | _, [] => false
  | [], _ :: _ => true
  | x :: a', y :: b' => if x =? y then str_ltb a' b' else x <? y
  end.

Definition str_leb (a b : jsstr) : bool := negb (str_ltb b a).

Lemma str_ltb_irrefl a : str_ltb a a = false.
Proof. induction a as [|x a IH]; cbn; [done|]. by rewrite Z.eqb_refl. Qed.

Lemma str_ltb_trans a b c : str_ltb a b = true -> str_ltb b c = true -> str_ltb a c = true.
Proof.
  revert b c; induction a as [|x a IH]; intros [|y b] [|z c]; cbn; try done.
  destruct (Z.eqb_spec x y), (Z.eqb_spec y z), (Z.eqb_spec x z); subst;
    rewrite ?Z.ltb_lt; intros; try lia; eauto.
Qed.

Lemma str_ltb_total a b : str_ltb a b = false -> str_ltb b a = false -> a = b.
Proof.
  revert b; induction a as [|x a IH]; intros [|y b]; cbn; try done.
  destruct (Z.eqb_spec x y), (Z.eqb_spec y x); subst; rewrite ?Z.ltb_ge; intros; try lia.
  f_equal; auto.
Qed.

Lemma str_ltb_asym a b : str_ltb a b = true -> str_ltb b a = false.
Proof.
  intros H. destruct (str_ltb b a) eqn:E; [|done].
  pose proof (str_ltb_trans _ _ _ H E). by rewrite str_ltb_irrefl in *.
Qed.

#[export] Instance str_lt_strict : StrictOrder (fun a b => str_ltb a b = true).
Proof.
  split; [intros x|intros x y z; apply str_ltb_trans].
  unfold complement. rewrite str_ltb_irrefl. done.
Qed.

(** ** [split] and [join] *)

(** Put [x] in front of the first field. *)
Definition cons_head (x : Z) (fs : list jsstr) : list jsstr :=
  match fs with
  | [] => [[x]]
  | f :: r => (x :: f) :: r
  end.

(** [s.split(c)] for a one-character separator. *)
Fixpoint split (c : Z) (s : jsstr) : list jsstr :=
  match s with
  | [] => [[]]
  | x :: r => if x =? c then [] :: split c r else cons_head x (split c r)
  end.

(** [s.split(cc)] for a separator of two equal characters. *)
Fixpoint split2 (c : Z) (s : jsstr) : list jsstr :=
  match s with
  | [] => [[]]
  | x :: r =>
      match r with
      | y :: r' => if (x =? c) && (y =? c) then [] :: split2 c r' else cons_head x (split2 c r)
      | [] => [[x]]
      end
  end.

(** [fields.join(sep)] *)
Fixpoint join (sep : jsstr) (fs : list jsstr) : jsstr :=
  match fs with
  | [] => []
  | [f] => f
  | f :: r => f ++ sep ++ join sep r
  end.

Lemma join_cons2 sep f g r : join sep (f :: g :: r) = f ++ sep ++ join sep (g :: r).
Proof. done. Qed.

Definition lacks (c : Z) (s : jsstr) : Prop := Forall (fun x => x <> c) s.

Lemma split_nonempty c s : split c s <> [].
Proof. destruct s as [|x r]; cbn; [done|]. destruct (x =? c); [done|]. by destruct (split c r). Qed.

Lemma split_app c f r : lacks c f -> split c (f ++ r) =
  match split c r with [] => [f] | h :: t => (f ++ h) :: t end.
Proof.
  induction 1 as [|x f Hx Hf IH]; cbn.
  - destruct (split c r) eqn:E; [|done]. by apply split_nonempty in E.
  - apply Z.eqb_neq in Hx. rewrite Hx, IH. by destruct (split c r).
Qed.

Lemma split_lacks c f : lacks c f -> split c f = [f].
Proof. intros H. pose proof (split_app c f [] H) as E. rewrite app_nil_r in E. rewrite E. cbn. by rewrite app_nil_r. Qed.

Lemma split_sep c f r : lacks c f -> split c (f ++ c :: r) = f :: split c r.
Proof. intros H. rewrite split_app by done. cbn. rewrite Z.eqb_refl. by rewrite app_nil_r. Qed.

(** Splitting undoes joining fields that lack the separator. *)
Lemma split_join c fs : fs <> [] -> Forall (lacks c) fs -> split c (join [c] fs) = fs.
Proof.
  intros Hne H. induction H as [|f r Hf Hr IH]; [done|].
  destruct r as [|g r]; cbn; [by apply split_lacks|].
  rewrite split_sep by done. f_equal. by apply IH.
Qed.

(** Joining undoes splitting. *)
Lemma join_cons_head c x fs : fs <> [] -> join [c] (cons_head x fs) = x :: join [c] fs.
Proof. destruct fs as [|f [|g r]]; done. Qed.

Lemma join_split c s : join [c] (split c s) = s.
Proof.
  induction s as [|x r IH]; cbn; [done|].
  destruct (Z.eqb_spec x c) as [->|Hx].
  - destruct (split c r) as [|f fs] eqn:E; [by apply split_nonempty in E|].
    change (c :: join [c] (f :: fs) = c :: r). by f_equal.
  - rewrite join_cons_head by apply split_nonempty. by f_equal.
Qed.

Lemma split_fields_lack c s : Forall (lacks c) (split c s).
Proof.
  induction s as [|x r IH]; cbn; [repeat constructor|].
  destruct (Z.eqb_spec x c); [constructor; [constructor|done]|].
  destruct (split c r) as [|f fs]; cbn; [repeat constructor; done|].
  inversion IH; subst. constructor; [by constructor|done].
Qed.

Lemma split2_app c f r : lacks c f -> split2 c (f ++ r) =
  match split2 c r with [] => [f] | h :: t => (f ++ h) :: t end.
Proof.
  assert (Hne : forall s, split2 c s <> []).
  { intros [|x [|y s]]; cbn; try done. destruct (_ && _); [done|].
    by destruct (match s with [] => _ | _ => _ end). }
  induction 1 as [|x f Hx Hf IH].
  - cbn. destruct (split2 c r) eqn:E; [|done]. by apply Hne in E.
  - apply Z.eqb_neq in Hx. cbn [app split2]. destruct (f ++ r) as [|y s] eqn:E.
    + apply app_eq_nil in E as [-> ->]. done.
    + rewrite Hx. cbn [andb]. rewrite IH. by destruct (split2 c r).
Qed.

Lemma split2_sep c f r : lacks c f -> split2 c (f ++ c :: c :: r) = f :: split2 c r.
Proof. intros H. rewrite split2_app by done. cbn. rewrite Z.eqb_refl. cbn. by rewrite app_nil_r. Qed.

Lemma split2_single c y r : y <> c -> split2 c (c :: y :: r) = cons_head c (split2 c (y :: r)).
Proof.
  intros H%Z.eqb_neq.
  change (split2 c (c :: y :: r)) with
    (if (c =? c) && (y =? c) then [] :: split2 c r else cons_head c (split2 c (y :: r))).
  by rewrite H, andb_false_r.
Qed.

(** A nonempty field that lacks the separator character. *)
Definition field_ok (c : Z) (f : jsstr) : Prop := f <> [] /\ lacks c f.

Lemma split2_join_app c fs r :
  fs <> [] -> Forall (field_ok c) fs ->
  split2 c (join [c] fs ++ r) =
  match split2 c r with [] => [join [c] fs] | h :: t => (join [c] fs ++ h) :: t end.
Proof.
  intros Hne H. induction H as [|f fs [Hf0 Hf] Hfs IH]; [done|].
  destruct fs as [|g fs]; [by apply split2_app|]. rewrite !join_cons2.
  inversion Hfs as [|? ? [Hg0 Hg] _]; subst.
  assert (exists y t, join [c] (g :: fs) = y :: t /\ y <> c) as (y & t & Et & Hy).
  { destruct g as [|y g]; [done|]. inversion Hg; subst.
    destruct fs; [by exists y, g|]. by eexists y, _. }
  specialize (IH ltac:(done)). rewrite Et in IH |- *.
  rewrite <- !app_assoc, split2_app by done. cbn [app] in IH |- *.
  rewrite split2_single, IH by done. destruct (split2 c r); cbn; by rewrite <- ?app_assoc.
Qed.

(** ** Numbers and digits *)

Definition digit_char (d : Z) : Z := if d <? 10 then 48 + d else 87 + d.

Definition digit_val (c : Z) : Z :=
  if is_digit c then c - 48 else if ch_in 97 102 c then c - 87 else c - 55.

Fixpoint to_base_fuel (fuel : nat) (b n : Z) : jsstr :=
  match fuel with
  | O => []
  | S f => if n <? b then [digit_char n] else to_base_fuel f b (n / b) ++ [digit_char (n mod b)]
  end.

(** [n.toString(b)] for an integer [n >= 0]; one digit per halving is enough fuel. *)
Definition to_base (b n : Z) : jsstr := to_base_fuel (S (Z.to_nat (Z.log2 n))) b n.

(** [Number.parseInt(s, b)] for a string of digits of base [b]. *)
Definition of_base (b : Z) (s : jsstr) : Z := fold_left (fun acc c => acc * b + digit_val c) s 0.

(** [String(n)] for an integer of magnitude below 1e21. *)
Definition num_to_string (n : Z) : jsstr :=
  if n <? 0 then ch_dash :: to_base 10 (- n) else to_base 10 n.

#[global] Arguments to_base : simpl never.

Section Digits.
Context (b : Z) (Hb : 2 <= b <= 16).

Lemma to_base_fuel_enough f f' n :
  0 <= n -> n < 2 ^ Z.of_nat (S f) -> n < 2 ^ Z.of_nat (S f') ->
  to_base_fuel (S f) b n = to_base_fuel (S f') b n.
Proof using Hb.
  assert (Hstep : forall k m, b <= m -> m < 2 ^ Z.of_nat (S k) ->
    exists k', k = S k' /\ m / b < 2 ^ Z.of_nat (S k')).
  { intros k m H1 H2. destruct k as [|k]; [change (2 ^ _) with 2 in H2; lia|].
    exists k. split; [done|]. rewrite Nat2Z.inj_succ, Z.pow_succ_r in H2 by lia.
    apply Z.div_lt_upper_bound; nia. }
  revert f' n; induction f as [|f IH]; intros f' n H0 H1 H2;
    cbn [to_base_fuel]; (destruct (Z.ltb_spec n b); [done|]).
  - change (2 ^ _) with 2 in H1. lia.
  - destruct (Hstep _ _ ltac:(done) H1) as (k & [= <-] & Hk).
    destruct (Hstep _ _ ltac:(done) H2) as (k' & -> & Hk').
    f_equal. apply IH; [by apply Z.div_pos; lia|done..].
Qed.

Lemma to_base_unfold n :
  0 <= n -> to_base b n = if n <? b then [digit_char n] else to_base b (n / b) ++ [digit_char (n mod b)].
Proof using Hb.
  assert (Hlog : forall m, 0 <= m -> m < 2 ^ Z.of_nat (S (Z.to_nat (Z.log2 m)))).
  { intros m Hm. rewrite Nat2Z.inj_succ, Z2Nat.id by apply Z.log2_nonneg.
    destruct (Z.eq_dec m 0) as [->|]; [done|]. apply Z.log2_spec. lia. }
  intros H0. unfold to_base at 1. cbn [to_base_fuel]. destruct (Z.ltb_spec n b); [done|]. f_equal.
  assert (0 <= n / b) by (apply Z.div_pos; lia).
  pose proof (Hlog n H0) as Hn.
  destruct (Z.to_nat (Z.log2 n)) as [|k]; [change (2 ^ _) with 2 in Hn; lia|].
  apply to_base_fuel_enough; [done| |by apply Hlog].
  rewrite Nat2Z.inj_succ, Z.pow_succ_r in Hn by lia. apply Z.div_lt_upper_bound; nia.
Qed.

Lemma to_base_ind (P : Z -> jsstr -> Prop) :
  (forall n, 0 <= n < b -> P n [digit_char n]) ->
  (forall n, b <= n -> P (n / b) (to_base b (n / b)) ->
     P n (to_base b (n / b) ++ [digit_char (n mod b)])) ->
  forall n, 0 <= n -> P n (to_base b n).
Proof using Hb.
  intros H1 H2 m Hm. pose proof Hm as Hm'. revert Hm.
  apply (Z_lt_induction (fun n => 0 <= n -> P n (to_base b n))) with (x := m); [|lia]. clear m Hm'.
  intros n IH H0. rewrite to_base_unfold by done.
  destruct (Z.ltb_spec n b); [by apply H1|].
  apply H2; [done|]. apply IH; [|by apply Z.div_pos; lia].
  split; [by apply Z.div_pos; lia|]. apply Z.div_lt; lia.
Qed.

Lemma digit_val_char d : 0 <= d < b -> digit_val (digit_char d) = d.
Proof using Hb.
  intros. unfold digit_val, digit_char, is_digit, ch_in.
  destruct (Z.ltb_spec d 10).
  - replace ((48 <=? 48 + d) && (48 + d <=? 57)) with true; [lia|].
    symmetry. rewrite andb_true_iff, !Z.leb_le. lia.
  - replace ((48 <=? 87 + d) && (87 + d <=? 57)) with false.
    2:{ symmetry. rewrite andb_false_iff, !Z.leb_gt. lia. }
    replace ((97 <=? 87 + d) && (87 + d <=? 102)) with true; [lia|].
    symmetry. rewrite andb_true_iff, !Z.leb_le. lia.
Qed.

Lemma of_base_snoc s c : of_base b (s ++ [c]) = of_base b s * b + digit_val c.
Proof using. unfold of_base. by rewrite fold_left_app. Qed.

(** Parsing undoes printing. *)
Lemma of_base_to_base n : 0 <= n -> of_base b (to_base b n) = n.
Proof using Hb.
  revert n. apply (to_base_ind (fun n s => of_base b s = n)).
  - intros n Hn. by apply digit_val_char.
  - intros n Hn IH. rewrite of_base_snoc, IH, digit_val_char by (apply Z.mod_pos_bound; lia).
    rewrite Z.mul_comm, <- Z.div_mod; lia.
Qed.

Lemma to_base_nonempty n : 0 <= n -> to_base b n <> [].
Proof using Hb.
  revert n. apply (to_base_ind (fun _ s => s <> [])); [done|].
  intros n _ _ [_ E]%app_eq_nil. done.
Qed.

Lemma to_base_Forall (P : Z -> Prop) n :
  (forall d, 0 <= d < b -> P (digit_char d)) -> 0 <= n -> Forall P (to_base b n).
Proof using Hb.
  intros HP. revert n. apply (to_base_ind (fun _ s => Forall P s)).
  - intros. constructor; [by apply HP|constructor].
  - intros n _ IH. apply Forall_app. split; [done|].
    constructor; [|constructor]. apply HP, Z.mod_pos_bound. lia.
Qed.

(** No leading zero. *)
Lemma to_base_head n : 0 < n -> head (to_base b n) <> Some 48.
Proof using Hb.
  intros H0. assert (0 <= n) as Hn by lia. revert n Hn H0.
  apply (to_base_ind (fun n s => 0 < n -> head s <> Some 48)).
  - intros n Hn H0 [= E]. unfold digit_char in E. destruct (Z.ltb_spec n 10); lia.
  - intros n Hn IH _. assert (0 < n / b) as Hq by (apply Z.div_str_pos; lia).
    specialize (IH Hq). pose proof (to_base_nonempty (n / b) ltac:(lia)).
    by destruct (to_base b (n / b)).
Qed.

Lemma to_base_length n k : 0 <= n < b ^ Z.of_nat (S k) -> (length (to_base b n) <= S k)%nat.
Proof using Hb.
  intros [Hn Hk]. revert n Hn k Hk.
  apply (to_base_ind (fun n s => forall k, n < b ^ Z.of_nat (S k) -> (length s <= S k)%nat)).
  - intros n Hn k Hk. cbn. lia.
  - intros n Hn IH k Hk. rewrite length_app. cbn [length]. destruct k as [|k].
    + change (Z.of_nat 1) with 1 in Hk. lia.
    + specialize (IH k). rewrite Nat2Z.inj_succ, Z.pow_succ_r in Hk by lia.
      assert (n / b < b ^ Z.of_nat (S k)) as Hq%IH by (apply Z.div_lt_upper_bound; lia).
      clear -Hq. lia.
Qed.
End Digits.

Lemma to_base_10_digits n : 0 <= n -> forallb is_digit (to_base 10 n) = true.
Proof.
  intros. apply forallb_Forall, to_base_Forall; [lia| |done].
  intros d Hd. unfold digit_char, is_digit, ch_in.
  destruct (Z.ltb_spec d 10); rewrite andb_true_iff, !Z.leb_le; lia.
Qed.

Lemma to_base_16_digits n : 0 <= n -> forallb is_hex (to_base 16 n) = true.
Proof.
  intros. apply forallb_Forall, to_base_Forall; [lia| |done].
  intros d Hd. unfold digit_char, is_hex, is_digit, ch_in.
  destruct (Z.ltb_spec d 10); rewrite !orb_true_iff, !andb_true_iff, !Z.leb_le; lia.
Qed.

Lemma to_base_inj b n m : 2 <= b <= 16 -> 0 <= n -> 0 <= m -> to_base b n = to_base b m -> n = m.
Proof. intros Hb Hn Hm E. by rewrite <- (of_base_to_base b Hb n), <- (of_base_to_base b Hb m), E. Qed.

(** A decimal numeral without a redundant leading zero. *)
Definition canonical_decimal (s : jsstr) : bool :=
  match s with
  | [] => false
  | c :: r => forallb is_digit s && (negb (c =? 48) || bool_decide (r = []))
  end.

Lemma digit_char_val c : is_digit c = true -> digit_char (digit_val c) = c /\ 0 <= digit_val c < 10.
Proof.
  intros H. unfold digit_val. rewrite H. unfold is_digit, ch_in in H. propify.
  unfold digit_char. destruct (Z.ltb_spec (c - 48) 10); lia.
Qed.

Lemma of_base_10_nonneg s : forallb is_digit s = true -> 0 <= of_base 10 s.
Proof.
  induction s as [|c s IH] using rev_ind; [done|].
  rewrite forallb_app, of_base_snoc. cbn. rewrite andb_true_r. intros H. propify.
  pose proof (digit_char_val c ltac:(done)). specialize (IH ltac:(done)). lia.
Qed.

Lemma of_base_10_pos c s :
  is_digit c = true -> c <> 48 -> forallb is_digit s = true -> 0 < of_base 10 (c :: s).
Proof.
  intros Hc Hc0. induction s as [|d s IH] using rev_ind.
  - intros _. unfold of_base. cbn. unfold digit_val. rewrite Hc.
    unfold is_digit, ch_in in Hc. propify. lia.
  - rewrite forallb_app, app_comm_cons, of_base_snoc. cbn [forallb]. rewrite andb_true_r. intros H. propify.
    pose proof (digit_char_val d ltac:(done)). specialize (IH ltac:(done)). lia.
Qed.

(** Printing undoes parsing on canonical numerals. *)
Lemma to_base_of_base_10 s : canonical_decimal s = true -> to_base 10 (of_base 10 s) = s.
Proof.
  destruct s as [|c s]; [done|]. cbn [canonical_decimal]. intros H. propify.
  revert H H0. induction s as [|d s IH] using rev_ind; cbn [forallb]; intros Hd Hz; propify.
  - destruct (digit_char_val c ltac:(done)) as [E Hr]. unfold of_base. cbn [fold_left].
    replace (0 * 10 + digit_val c) with (digit_val c) by lia.
    rewrite to_base_unfold by lia. destruct (Z.ltb_spec (digit_val c) 10); [by rewrite E|lia].
  - rewrite forallb_app in H0. cbn [forallb] in H0. propify.
    assert (c <> 48).
    { destruct (Z.eqb_spec c 48); cbn in Hz; [|done]. apply bool_decide_eq_true, app_eq_nil in Hz as [_ ?]. done. }
    rewrite app_comm_cons, of_base_snoc.
    destruct (digit_char_val d ltac:(done)) as [E Hr].
    pose proof (of_base_10_pos c s ltac:(done) ltac:(done) ltac:(done)) as Hpos.
    rewrite to_base_unfold by lia.
    destruct (Z.ltb_spec (of_base 10 (c :: s) * 10 + digit_val d) 10); [lia|].
    rewrite Z.div_add_l, Z.div_small, Z.add_0_r by lia.
    rewrite Z.add_comm, Z.mod_add, Z.mod_small, E by lia.
    rewrite IH; [done|by cbn; rewrite H, H0|].
    replace (c =? 48) with false by (symmetry; by apply Z.eqb_neq). done.
Qed.

Lemma of_base_16_bound s : forallb is_hex s = true -> 0 <= of_base 16 s < 16 ^ Z.of_nat (length s).
Proof.
  induction s as [|c s IH] using rev_ind; [done|].
  rewrite forallb_app, of_base_snoc, length_app. cbn [forallb length]. rewrite andb_true_r. intros H. propify.
  specialize (IH ltac:(done)). rewrite Nat2Z.inj_add, Z.pow_add_r by lia.
  change (16 ^ Z.of_nat 1) with 16.
  assert (0 <= digit_val c < 16); [|lia].
  unfold is_hex, is_digit, ch_in in H0. unfold digit_val, is_digit, ch_in.
  destruct (Z.leb_spec 48 c), (Z.leb_spec c 57), (Z.leb_spec 97 c), (Z.leb_spec c 102),
    (Z.leb_spec 65 c), (Z.leb_spec c 70); cbn in *; lia.
Qed.

(** Every field is a piece of the string it was split from. *)
Lemma split_Forall (P : Z -> Prop) c s :
  P c -> Forall (Forall P) (split c s) -> Forall P s.
Proof.
  intros Hc. induction s as [|x r IH]; cbn; [constructor|].
  destruct (Z.eqb_spec x c) as [->|]; intros H.
  - inversion H; subst. auto.
  - destruct (split c r) as [|f fs] eqn:E; [by apply split_nonempty in E|].
    cbn in H. inversion H as [|? ? Hx Hfs]; subst. inversion Hx; subst.
    constructor; [done|]. apply IH. by constructor.
Qed.

(** ** Composite keys

    Keys of sets and maps are built as [`${a}/${b}`].  Splitting at the last slash
    shows that such a key determines its parts as soon as the last part has none. *)

Definition slash (a b : jsstr) : jsstr := a ++ ch_slash :: b.

Lemma slash_inj a a' b b' :
  lacks ch_slash b -> lacks ch_slash b' -> slash a b = slash a' b' -> a = a' /\ b = b'.
Proof.
  unfold slash. intros Hb Hb' E. apply (f_equal reverse) in E.
  rewrite !reverse_app, !reverse_cons, <- !(assoc_L (++)) in E. cbn [app] in E.
  assert (Hr : forall l, lacks ch_slash l -> lacks ch_slash (reverse l)).
  { intros l. unfold lacks. rewrite reverse_Permutation. done. }
  pose proof (f_equal (split ch_slash) E) as Es.
  rewrite !split_sep in Es by auto. injection Es as Eb _.
  rewrite Eb in E. apply app_inv_head in E. injection E as Ea.
  split; by apply (inj reverse).
Qed.

Lemma is_digit_lacks c s : is_digit c = false -> forallb is_digit s = true -> lacks c s.
Proof.
  intros Hc. rewrite forallb_Forall. intros HF. eapply Forall_impl; [exact HF|].
  cbn. intros x Hx ->. congruence.
Qed.

Lemma num_to_string_lacks_slash n : lacks ch_slash (num_to_string n).
Proof.
  unfold num_to_string. destruct (n <? 0) eqn:E; propify.
  - constructor; [done|]. apply is_digit_lacks; [done|]. apply to_base_10_digits. lia.
  - apply is_digit_lacks; [done|]. apply to_base_10_digits. lia.
Qed.

Lemma num_to_string_inj n m : num_to_string n = num_to_string m -> n = m.
Proof.
  unfold num_to_string.
  assert (Hd : forall k r, 0 <= k -> to_base 10 k <> 45 :: r).
  { intros k r Hk E. pose proof (to_base_10_digits k Hk) as D. rewrite E in D. done. }
  destruct (n <? 0) eqn:En, (m <? 0) eqn:Em; propify; intros E.
  - injection E as E. apply to_base_inj in E; lia.
  - symmetry in E. apply Hd in E; [done|lia].
  - apply Hd in E; [done|lia].
  - apply to_base_inj in E; lia.
Qed.

#[export] Instance str_lt_trans : Transitive (fun a b : jsstr => str_ltb a b = true).
Proof. intros a b c. apply str_ltb_trans. Qed.

#[export] Instance str_lt_irrefl : Irreflexive (fun a b : jsstr => str_ltb a b = true).
Proof. intros a H. by rewrite str_ltb_irrefl in H. Qed.

Lemma is_true_lacks c s : forallb (fun x => negb (x =? c)) s = true -> lacks c s.
Proof.
  rewrite forallb_Forall. intros HF. eapply Forall_impl; [exact HF|]. cbn. intros x Hx. by propify.
Qed.
