(* ===== verification/JsValue.v ===== *)
(** JavaScript values of type [unknown], as far as the parsers inspect them.

    Numbers are split by what [Number.isInteger], [Number.isFinite] and
    [Number.isSafeInteger] can tell apart; [-0] and [0] are one value, as they are
    for [===], [<] and [JSON.stringify].  An object is the list of its own
    enumerable properties in enumeration order ([Object.keys] order: canonical
    array indices ascending, then the other keys as inserted); [enum_order] puts a
    list of insertions into that order. *)

From S2P Require Export JsString.

Local Open Scope Z_scope.

Inductive jsnum : Type :=
  | NInt (z : Z)                       (** an integral double *)
  | NFrac (m : Z) (e : positive)       (** m / 2^e, finite and not integral *)
  | NNaN
  | NInf (negative : bool).

Inductive jsv : Type :=
  | Undefined
  | Null
  | Bool (b : bool)
  | Num (n : jsnum)
  | Str (s : jsstr)
  | Arr (elements : list jsv)
  | Obj (fields : list (jsstr * jsv)).

#[export] Instance jsnum_eq_dec : EqDecision jsnum.
Proof. solve_decision. Defined.

(** The nested recursion of [jsv], with a hypothesis for every element and field. *)
Section JsvInd.
Context (P : jsv -> Prop)
  (Hundef : P Undefined) (Hnull : P Null) (Hbool : forall b, P (Bool b))
  (Hnum : forall n, P (Num n)) (Hstr : forall s, P (Str s))
  (Harr : forall l, Forall P l -> P (Arr l))
  (Hobj : forall fs, Forall (fun kv => P kv.2) fs -> P (Obj fs)).

Fixpoint jsv_nested_ind (v : jsv) : P v :=
  match v with
  | Undefined => Hundef
  | Null => Hnull
  | Bool b => Hbool b
  | Num n => Hnum n
  | Str s => Hstr s
  | Arr l => Harr l ((fix go (l : list jsv) : Forall P l := match l with
      | [] => Forall_nil_2 _
      | x :: r => Forall_cons_2 _ _ _ (jsv_nested_ind x) (go r) end) l)
  | Obj fs => Hobj fs ((fix go (fs : list (jsstr * jsv)) : Forall (fun kv => P kv.2) fs := match fs with
      | [] => Forall_nil_2 _
      | kv :: r => Forall_cons_2 _ kv r (jsv_nested_ind kv.2) (go r) end) fs)
  end.
End JsvInd.

Fixpoint jsv_eqb (v w : jsv) {struct v} : bool :=
  match v, w with
  | Undefined, Undefined | Null, Null => true
  | Bool a, Bool b => Bool.eqb a b
  | Num a, Num b => bool_decide (a = b)
  | Str a, Str b => str_eqb a b
  | Arr l, Arr m =>
      (fix go l m := match l, m with
       | [], [] => true
       | x :: l', y :: m' => jsv_eqb x y && go l' m'
       | _, _ => false end) l m
  | Obj l, Obj m =>
      (fix go (l m : list (jsstr * jsv)) := match l, m with
       | [], [] => true
       | (k, x) :: l', (k', y) :: m' => str_eqb k k' && jsv_eqb x y && go l' m'
       | _, _ => false end) l m
  | _, _ => false
  end.

Lemma jsv_eqb_eq v w : jsv_eqb v w = true <-> v = w.
Proof.
  revert w. induction v as [| |b|n|s|l IH|fs IH] using jsv_nested_ind; intros w;
    destruct w as [| |b'|n'|s'|l'|fs']; cbn; try (by split).
  - rewrite Bool.eqb_true_iff. naive_solver.
  - rewrite bool_decide_eq_true. naive_solver.
  - unfold str_eqb. rewrite bool_decide_eq_true. naive_solver.
  - revert l'. induction IH as [|x l Hx _ IHl]; intros [|y l']; try (by split).
    rewrite andb_true_iff, Hx, IHl. naive_solver.
  - revert fs'. induction IH as [|[k x] fs Hx _ IHl]; intros [|[k' y] fs']; try (by split).
    rewrite !andb_true_iff, Hx, IHl. unfold str_eqb. rewrite bool_decide_eq_true. naive_solver.
Qed.

#[export] Instance jsv_eq_dec : EqDecision jsv.
Proof.
  refine (fun v w => match jsv_eqb v w as b return jsv_eqb v w = b -> _ with
    | true => fun E => left (proj1 (jsv_eqb_eq v w) E)
    | false => fun E => right _ end eq_refl).
  rewrite <- jsv_eqb_eq. by rewrite E.
Defined.

(** ** Objects *)

(** [obj[key]] for an own property, [undefined] when it is absent. *)
Fixpoint get (fs : list (jsstr * jsv)) (k : jsstr) : jsv :=
  match fs with
  | [] => Undefined
  | (k', v) :: r => if str_eqb k' k then v else get r k
  end.

(** [Object.hasOwn(obj, key)] *)
Definition hasOwn (fs : list (jsstr * jsv)) (k : jsstr) : bool := includes (map fst fs) k.

(** A property key that is a canonical array index (an integer below 2^32 - 1). *)
Definition is_array_index (k : jsstr) : bool :=
  negb (str_eqb k []) && forallb is_digit k &&
  str_eqb (to_base 10 (of_base 10 k)) k && (of_base 10 k <? 4294967295).

Definition index_leb {A} (a b : jsstr * A) : bool := of_base 10 a.1 <=? of_base 10 b.1.

(** Array indices in ascending order, then the rest as inserted. *)
Definition enum_order {A} (fs : list (jsstr * A)) : list (jsstr * A) :=
  sort_by index_leb (filter (fun kv => is_array_index kv.1 = true) fs)
  ++ filter (fun kv => is_array_index kv.1 = false) fs.

Definition Object_keys {A} (fs : list (jsstr * A)) : list jsstr := map fst fs.

Lemma enum_order_elem {A} (fs : list (jsstr * A)) kv : kv ∈ enum_order fs <-> kv ∈ fs.
Proof.
  unfold enum_order. rewrite elem_of_app, sort_by_perm, !list_elem_of_filter.
  destruct (is_array_index kv.1); naive_solver.
Qed.

Lemma filter_all {A} (P : A -> Prop) `{!forall x, Decision (P x)} l : Forall P l -> filter P l = l.
Proof. induction 1 as [|x r Hx _ IH]; [done|]. rewrite filter_cons, decide_True by done. by f_equal. Qed.

Lemma filter_none {A} (P : A -> Prop) `{!forall x, Decision (P x)} l : Forall (fun x => ~ P x) l -> filter P l = [].
Proof. induction 1 as [|x r Hx _ IH]; [done|]. by rewrite filter_cons, decide_False by done. Qed.

Lemma enum_order_idem {A} (fs : list (jsstr * A)) : enum_order (enum_order fs) = enum_order fs.
Proof.
  unfold enum_order at 1.
  set (S := sort_by index_leb (filter (fun kv => is_array_index kv.1 = true) fs)).
  set (R := filter (fun kv => is_array_index kv.1 = false) fs).
  assert (HS : Forall (fun kv => is_array_index kv.1 = true) S).
  { unfold S. rewrite sort_by_perm, Forall_forall. intros kv. rewrite list_elem_of_filter. naive_solver. }
  assert (HR : Forall (fun kv => is_array_index kv.1 = false) R).
  { unfold R. rewrite Forall_forall. intros kv. rewrite list_elem_of_filter. naive_solver. }
  change (enum_order fs) with (S ++ R). rewrite !filter_app.
  rewrite (filter_all _ S HS), (filter_all _ R HR), (filter_none _ R), (filter_none _ S).
  - rewrite app_nil_r. cbn [app]. f_equal. apply sort_by_id. apply sort_by_sorted.
    unfold index_leb. intros a b H. propify. apply Z.leb_le. lia.
  - eapply Forall_impl; [exact HS|]. cbn. congruence.
  - eapply Forall_impl; [exact HR|]. cbn. congruence.
Qed.

(** Keys that are not array indices keep their order. *)
Lemma enum_order_plain {A} (fs : list (jsstr * A)) :
  Forall (fun kv => is_array_index kv.1 = false) fs -> enum_order fs = fs.
Proof.
  intros H. unfold enum_order. rewrite filter_none, filter_all; [done|done|].
  eapply Forall_impl; [exact H|]. cbn. congruence.
Qed.

Lemma enum_order_perm {A} (fs : list (jsstr * A)) : enum_order fs ≡ₚ fs.
Proof.
  unfold enum_order. rewrite sort_by_perm. induction fs as [|kv r IH]; [done|].
  rewrite !filter_cons. destruct (is_array_index kv.1) eqn:E.
  - rewrite decide_True, decide_False by congruence. cbn. by rewrite IH.
  - rewrite decide_False, decide_True by congruence. by rewrite <- Permutation_middle, IH.
Qed.

Lemma get_hasOwn_false fs k : hasOwn fs k = false -> get fs k = Undefined.
Proof.
  unfold hasOwn. rewrite includes_false. induction fs as [|[k' v] r IH]; cbn; [done|].
  rewrite not_elem_of_cons. intros [H1 H2]. unfold str_eqb. rewrite bool_decide_eq_false_2 by congruence. auto.
Qed.

(** [typeof v === 'object' && v !== null && !Array.isArray(v)] with its fields. *)
Definition as_object (v : jsv) : option (list (jsstr * jsv)) :=
  match v with Obj fs => Some fs | _ => None end.

Definition as_array (v : jsv) : option (list jsv) :=
  match v with Arr l => Some l | _ => None end.

Definition as_string (v : jsv) : option jsstr :=
  match v with Str s => Some s | _ => None end.

Definition as_int (v : jsv) : option Z :=
  match v with Num (NInt z) => Some z | _ => None end.
