(* ===== verification/Primitives.v ===== *)
(** packages/core/src/primitives.ts: the scalar checks shared by the domain and
    the protocol, and the canonical text of IP addresses and target hosts.

    The regular expressions are written as predicates on code units.  The
    theorems: parsing undoes printing for both address families, so the canonical
    text of an address is a fixed point that denotes the same bytes, and two texts
    have one canonical form exactly when they denote the same address; a target
    host in canonical form is a fixed point and never the unspecified address. *)

From S2P Require Export JsValue.

Local Open Scope Z_scope.

Definition MAX_COUNTER : Z := 9007199254740991.

(** [/^[A-Za-z0-9][A-Za-z0-9._:-]*$/] *)
Definition id_first (c : Z) : bool := is_alnum c.
Definition id_rest (c : Z) : bool :=
  is_alnum c || (c =? ch_dot) || (c =? 95) || (c =? ch_colon) || (c =? ch_dash).

Definition is_id (s : jsstr) : bool :=
  (length s <=? 128)%nat && negb (existsb (fun c => (c =? 13) || (c =? 10)) s) &&
  match s with [] => false | c :: r => id_first c && forallb id_rest r end.

Definition isId (value : jsv) : bool :=
  match value with Str s => is_id s | _ => false end.

Definition is_counter (allowZero : bool) (z : Z) : bool :=
  (Z.abs z <=? MAX_COUNTER) && ((if allowZero then 0 else 1) <=? z).

Definition isCounter (value : jsv) (allowZero : bool) : bool :=
  match value with Num (NInt z) => is_counter allowZero z | _ => false end.

Definition is_port (z : Z) : bool := (1 <=? z) && (z <=? 65535).

Definition isPort (value : jsv) : bool :=
  match value with Num (NInt z) => is_port z | _ => false end.

(** ** IP addresses *)

(** [/^(0|[1-9][0-9]{0,2})$/] *)
Definition ipv4_field (f : jsstr) : bool :=
  match f with
  | [] => false
  | c :: r =>
      ((c =? 48) && bool_decide (r = [])) ||
      (ch_in 49 57 c && forallb is_digit r && (length r <=? 2)%nat)
  end.

Definition ipv4Bytes (value : jsstr) : option (list Z) :=
  let fields := split ch_dot value in
  if negb (length fields =? 4)%nat ||
     existsb (fun field => negb (ipv4_field field) || (255 <? of_base 10 field)) fields
  then None
  else Some (map (of_base 10) fields).

(** [/^[0-9a-fA-F]{1,4}$/] *)
Definition ipv6_field (f : jsstr) : bool :=
  (1 <=? length f)%nat && (length f <=? 4)%nat && forallb is_hex f.

Definition field_bytes (field : jsstr) : list Z :=
  let word := of_base 16 field in [Z.shiftr word 8; Z.land word 255].

(** [(hi << 8) | lo], in lower-case hexadecimal. *)
Definition hex_word (hi lo : Z) : jsstr := to_base 16 (Z.lor (Z.shiftl hi 8) lo).

(** [halves[i] ? halves[i].split(':') : []], an absent half included. *)
Definition half_fields (half : option jsstr) : list jsstr :=
  match half with
  | None | Some [] => []
  | Some h => split ch_colon h
  end.

(** The colon form of [ipBytes], after a dotted tail has been rewritten. *)
Definition ipv6_colon (input : jsstr) : option (list Z) :=
  let halves := split2 ch_colon input in
  if (2 <? length halves)%nat then None else
  let left := half_fields (halves !! 0%nat) in
  let right := half_fields (halves !! 1%nat) in
  let count := (length left + length right)%nat in
  if (if (length halves =? 1)%nat then negb (count =? 8)%nat else (8 <=? count)%nat) then None else
  if existsb (fun field => negb (ipv6_field field)) (left ++ right) then None else
  let words := left ++ replicate (8 - count) (js "0") ++ right in
  Some (flat_map field_bytes words).

(** [value.slice(0, i)] and [value.slice(i + 1)] at the last occurrence [i] of [c]. *)
Fixpoint split_last (c : Z) (s : jsstr) : option (jsstr * jsstr) :=
  match s with
  | [] => None
  | x :: r =>
      match split_last c r with
      | Some (a, b) => Some (x :: a, b)
      | None => if x =? c then Some ([], r) else None
      end
  end.

Definition ipBytes (value : jsstr) : option (list Z) :=
  match ipv4Bytes value with
  | Some v4 => Some v4
  | None =>
      if negb (includes value ch_colon) ||
         existsb (fun c => negb (is_hex c || (c =? ch_colon) || (c =? ch_dot))) value
      then None
      else if includes value ch_dot then
        match split_last ch_colon value with
        | None => None
        | Some (pre, last) =>
            match ipv4Bytes last with
            | Some [t0; t1; t2; t3] =>
                ipv6_colon (pre ++ [ch_colon] ++ hex_word t0 t1 ++ [ch_colon] ++ hex_word t2 t3)
            | _ => None
            end
        end
      else ipv6_colon value
  end.

Definition is_zero_word (words : list jsstr) (i : nat) : bool :=
  bool_decide (words !! i = Some (js "0")).

(** [while (words[i] === '0' && i < 8) i++] *)
Fixpoint zero_run_end (fuel : nat) (words : list jsstr) (i : nat) : nat :=
  match fuel with
  | O => i
  | S f => if is_zero_word words i && (i <? 8)%nat then zero_run_end f words (S i) else i
  end.

(** The [for] loop that finds the first longest run of at least two zero words;
    [None] is [bestStart = -1]. *)
Fixpoint best_zero_run (fuel : nat) (words : list jsstr) (i : nat)
    (bestStart : option nat) (bestLength : nat) : option nat * nat :=
  match fuel with
  | O => (bestStart, bestLength)
  | S f =>
      if (8 <=? i)%nat then (bestStart, bestLength)
      else if negb (is_zero_word words i) then best_zero_run f words (S i) bestStart bestLength
      else
        let stop := zero_run_end 8 words i in
        if (bestLength <? stop - i)%nat
        then best_zero_run f words stop (Some i) (stop - i)
        else best_zero_run f words stop bestStart bestLength
  end.

Definition dotted (bytes : list Z) : jsstr := join [ch_dot] (map (to_base 10) bytes).

Definition mapped_prefix (bytes : list Z) : bool :=
  forallb (fun byte => byte =? 0) (take 10 bytes) &&
  (nth 10 bytes 0 =? 255) && (nth 11 bytes 0 =? 255).

Definition ip_words (bytes : list Z) : list jsstr :=
  map (fun i => hex_word (nth (2 * i) bytes 0) (nth (2 * i + 1) bytes 0)) (seq 0 8).

(** The text of the bytes of an address. *)
Definition ip_text (bytes : list Z) : jsstr :=
  if (length bytes =? 4)%nat then dotted bytes else
  if mapped_prefix bytes then js "::ffff:" ++ dotted (drop 12 bytes) else
  let words := ip_words bytes in
  match best_zero_run 9 words 0 None 1 with
  | (None, _) => join [ch_colon] words
  | (Some start, len) =>
      join [ch_colon] (take start words) ++ js "::" ++ join [ch_colon] (drop (start + len) words)
  end.

Definition normalizeIp (value : jsstr) : option jsstr :=
  match ipBytes value with
  | None => None
  | Some bytes => Some (ip_text bytes)
  end.

(** ** Target hosts *)

Definition to_lower (c : Z) : Z := if is_upper c then c + 32 else c.

(** [host.replace(/\.$/, '')] *)
Fixpoint strip_root_dot (s : jsstr) : jsstr :=
  match s with
  | [] => []
  | [c] => if c =? ch_dot then [] else [c]
  | c :: r => c :: strip_root_dot r
  end.

Definition label_edge (c : Z) : bool := is_digit c || is_lower c.

(** [/^[a-z0-9](?:[a-z0-9-]*[a-z0-9])?$/] *)
Definition label_shape (l : jsstr) : bool :=
  match l with
  | [] => false
  | c :: _ =>
      label_edge c && forallb (fun c => label_edge c || (c =? ch_dash)) l &&
      match last l with Some e => label_edge e | None => false end
  end.

Definition label_ok (l : jsstr) : bool :=
  (1 <=? length l)%nat && (length l <=? 63)%nat && label_shape l.

Definition target_char (c : Z) : bool :=
  is_alnum c || (c =? ch_dot) || (c =? ch_colon) || (c =? ch_dash).

Definition all_zero (bytes : list Z) : bool := forallb (fun byte => byte =? 0) bytes.

(** The unspecified addresses [0.0.0.0], [::] and [::ffff:0.0.0.0]. *)
Definition unspecified (bytes : list Z) : bool :=
  all_zero bytes || ((length bytes =? 16)%nat && mapped_prefix bytes && all_zero (drop 12 bytes)).

Definition hostname (input : jsstr) : option jsstr :=
  let host := strip_root_dot (map to_lower input) in
  if (253 <? length host)%nat ||
     (negb (bool_decide (host = [])) && forallb (fun c => is_digit c || (c =? ch_dot)) host) then None
  else if existsb (fun label => negb (label_ok label)) (split ch_dot host) then None
  else Some host.

Definition normalize_target_host (input : jsstr) : option jsstr :=
  if bool_decide (input = []) || existsb (fun c => negb (target_char c)) input then None else
  match normalizeIp input with
  | Some ip =>
      match ipBytes ip with
      | Some bytes => if unspecified bytes then None else Some ip
      | None => None
      end
  | None => hostname input
  end.

Definition normalizeTargetHost (input : jsv) : option jsstr :=
  match input with Str s => normalize_target_host s | _ => None end.

Example normalizeIp_ex1 : normalizeIp (js "2001:DB8:0:0:1:0:0:1") = Some (js "2001:db8::1:0:0:1").
Proof. vm_compute. reflexivity. Qed.
Example normalizeIp_ex2 : normalizeIp (js "::FFFF:10.0.0.1") = Some (js "::ffff:10.0.0.1").
Proof. vm_compute. reflexivity. Qed.
Example normalizeIp_ex3 : normalizeIp (js "1:2:3:4:5:6:7.8.9.10") = Some (js "1:2:3:4:5:6:708:90a").
Proof. vm_compute. reflexivity. Qed.
Example host_ex : normalize_target_host (js "Example.COM.") = Some (js "example.com").
Proof. vm_compute. reflexivity. Qed.

(** ** Addresses: well-formed bytes *)

Definition is_byte (b : Z) : Prop := 0 <= b < 256.

(** A list of four or sixteen bytes. *)
Definition ip_wf (bytes : list Z) : Prop :=
  (length bytes = 4%nat \/ length bytes = 16%nat) /\ Forall is_byte bytes.

Lemma ipv4_field_canonical f : ipv4_field f = true -> canonical_decimal f = true.
Proof.
  destruct f as [|c r]; [done|]. unfold ipv4_field, canonical_decimal. cbn [forallb].
  rewrite orb_true_iff. intros [H|H]; propify; subst; [done|].
  unfold ch_in in H. propify. rewrite H1.
  replace (is_digit c) with true by (symmetry; unfold is_digit, ch_in; rewrite andb_true_iff, !Z.leb_le; lia).
  by replace (c =? 48) with false by (symmetry; rewrite Z.eqb_neq; lia).
Qed.

Lemma canonical_decimal_digits f : canonical_decimal f = true -> forallb is_digit f = true.
Proof. destruct f; [done|]. unfold canonical_decimal. intros H. by propify. Qed.

(** What a dotted text must be for [ipv4Bytes] to accept it. *)
Lemma ipv4Bytes_Some s bs :
  ipv4Bytes s = Some bs ->
  length bs = 4%nat /\ Forall is_byte bs /\ s = dotted bs /\
  Forall (fun c => is_digit c || (c =? ch_dot) = true) s.
Proof.
  unfold ipv4Bytes. case_match eqn:E; [done|]. intros [= <-].
  apply orb_false_elim in E as [E1 E2]. apply negb_false_iff, Nat.eqb_eq in E1.
  apply existsb_false in E2. rewrite length_map. split; [done|].
  assert (Hf : Forall (fun f => canonical_decimal f = true /\ of_base 10 f <= 255) (split ch_dot s)).
  { eapply Forall_impl; [exact E2|]. cbn. intros f H. propify. split; [|done]. by apply ipv4_field_canonical. }
  split_and!.
  - apply Forall_map. eapply Forall_impl; [exact Hf|]. intros f [H1 H2]. unfold is_byte.
    pose proof (of_base_10_nonneg f (canonical_decimal_digits f H1)). lia.
  - unfold dotted. rewrite map_map, <- (join_split ch_dot s) at 1. f_equal.
    symmetry. rewrite <- (map_id (split ch_dot s)) at 2. apply map_ext_Forall.
    eapply Forall_impl; [exact Hf|]. intros f [H _]. by apply to_base_of_base_10.
  - apply (split_Forall _ ch_dot); [done|]. eapply Forall_impl; [exact Hf|]. intros f [H _].
    apply canonical_decimal_digits, forallb_Forall in H.
    eapply Forall_impl; [exact H|]. cbn. by intros ? ->.
Qed.

Lemma to_base_10_byte n : is_byte n -> ipv4_field (to_base 10 n) = true.
Proof.
  intros H. assert (Hn : 0 <= n) by (unfold is_byte in H; lia).
  destruct (Z.eq_dec n 0) as [->|Hn0]; [done|].
  pose proof (to_base_10_digits n Hn) as Hd.
  pose proof (to_base_head 10 ltac:(lia) n ltac:(lia)) as Hh.
  pose proof (to_base_length 10 ltac:(lia) n 2 ltac:(unfold is_byte in H; cbn; lia)) as Hl.
  pose proof (to_base_nonempty 10 ltac:(lia) n Hn) as Hne.
  destruct (to_base 10 n) as [|c r]; [done|]. cbn in Hd, Hh, Hl |- *. propify.
  rewrite H1. unfold is_digit, ch_in in H0. propify.
  assert (c <> 48) by congruence.
  apply orb_true_iff. right. unfold ch_in.
  rewrite !andb_true_iff, !Z.leb_le, Nat.leb_le. repeat split; lia.
Qed.

Lemma to_base_10_lacks c n : is_digit c = false -> 0 <= n -> lacks c (to_base 10 n).
Proof.
  intros Hc Hn. pose proof (to_base_10_digits n Hn) as H. apply forallb_Forall in H.
  eapply Forall_impl; [exact H|]. cbn. intros x Hx ->. congruence.
Qed.

Lemma ipv4Bytes_dotted bs :
  length bs = 4%nat -> Forall is_byte bs -> ipv4Bytes (dotted bs) = Some bs.
Proof.
  intros Hl Hb. unfold ipv4Bytes, dotted.
  assert (Hn : Forall (fun n => 0 <= n) bs) by (eapply Forall_impl; [exact Hb|]; unfold is_byte; intros; lia).
  rewrite split_join.
  2:{ by destruct bs. }
  2:{ apply Forall_map. eapply Forall_impl; [exact Hn|]. intros n ?. by apply to_base_10_lacks. }
  assert (Hround : map (of_base 10) (map (to_base 10) bs) = bs).
  { rewrite map_map. rewrite <- (map_id bs) at 2. apply map_ext_Forall.
    eapply Forall_impl; [exact Hn|]. intros n ?. by apply of_base_to_base. }
  rewrite Hround, length_map, Hl. cbn [negb Nat.eqb orb].
  replace (existsb _ _) with false; [done|]. symmetry. apply existsb_false, Forall_map.
  eapply Forall_impl; [exact Hb|]. intros n Hnb. cbn.
  rewrite to_base_10_byte by done. cbn. unfold is_byte in Hnb.
  rewrite of_base_to_base by lia. apply Z.ltb_ge. lia.
Qed.

(** ** Words *)

Lemma word_bytes hi lo : is_byte hi -> is_byte lo ->
  let w := Z.lor (Z.shiftl hi 8) lo in
  0 <= w < 65536 /\ Z.shiftr w 8 = hi /\ Z.land w 255 = lo.
Proof.
  intros Hh Hl w. unfold is_byte in Hh, Hl.
  assert (E1 : Z.shiftr w 8 = hi).
  { unfold w. rewrite Z.shiftr_lor, Z.shiftr_shiftl_l, Z.shiftl_0_r by lia.
    rewrite (Z.shiftr_div_pow2 lo), Z.div_small by lia. apply Z.lor_0_r. }
  assert (E2 : w mod 256 = lo).
  { change 256 with (2 ^ 8). rewrite <- Z.land_ones by lia. unfold w.
    rewrite Z.land_lor_distr_l, !Z.land_ones, Z.shiftl_mul_pow2, Z.mod_mul by lia.
    rewrite Z.lor_0_l. apply Z.mod_small. lia. }
  assert (0 <= w) by (unfold w; rewrite Z.lor_nonneg, Z.shiftl_nonneg; lia).
  split_and!; [done| |done|].
  - rewrite Z.shiftr_div_pow2 in E1 by lia. change (2 ^ 8) with 256 in E1.
    pose proof (Z.div_mod w 256). lia.
  - change 255 with (Z.ones 8). by rewrite Z.land_ones by lia.
Qed.

Lemma field_bytes_hex hi lo : is_byte hi -> is_byte lo -> field_bytes (hex_word hi lo) = [hi; lo].
Proof.
  intros Hh Hl. destruct (word_bytes hi lo Hh Hl) as (Hw & E1 & E2).
  unfold field_bytes, hex_word. rewrite of_base_to_base by lia. by rewrite E1, E2.
Qed.

Lemma hex_word_field hi lo : is_byte hi -> is_byte lo -> ipv6_field (hex_word hi lo) = true.
Proof.
  intros Hh Hl. destruct (word_bytes hi lo Hh Hl) as (Hw & _ & _). unfold ipv6_field, hex_word.
  pose proof (to_base_16_digits _ (proj1 Hw)) as Hd. rewrite Hd.
  pose proof (to_base_length 16 ltac:(lia) _ 3 Hw) as Hlen.
  pose proof (to_base_nonempty 16 ltac:(lia) _ (proj1 Hw)) as Hne.
  destruct (to_base 16 _); [done|]. cbn [length] in Hlen |- *.
  rewrite !andb_true_iff, !Nat.leb_le. split_and!; [lia..|done].
Qed.

Lemma ipv6_field_ok f : ipv6_field f = true -> field_ok ch_colon f.
Proof.
  unfold ipv6_field. intros H. propify. split; [intros ->; cbn in *; lia|].
  apply forallb_Forall in H0. eapply Forall_impl; [exact H0|]. cbn. intros c Hc ->. done.
Qed.

Lemma field_bytes_wf f : ipv6_field f = true -> Forall is_byte (field_bytes f).
Proof.
  unfold ipv6_field. intros H. propify. unfold field_bytes.
  pose proof (of_base_16_bound f H0) as [Hlo Hhi].
  assert (of_base 16 f < 65536).
  { eapply Z.lt_le_trans; [exact Hhi|]. change 65536 with (16 ^ 4). apply Z.pow_le_mono_r; lia. }
  repeat constructor; unfold is_byte.
  - rewrite Z.shiftr_div_pow2 by lia. apply Z.div_pos; lia.
  - rewrite Z.shiftr_div_pow2 by lia. apply Z.div_lt_upper_bound; lia.
  - by apply Z.land_nonneg; lia.
  - change 255 with (Z.ones 8). rewrite Z.land_ones by lia. apply Z.mod_pos_bound. lia.
Qed.

(** ** The colon form *)

Abbreviation hex_fields fs := (Forall (fun f => ipv6_field f = true) fs).

Lemma hex_fields_ok fs : hex_fields fs -> Forall (field_ok ch_colon) fs.
Proof. intros H. eapply Forall_impl; [exact H|]. apply ipv6_field_ok. Qed.

Lemma half_fields_join fs : hex_fields fs -> half_fields (Some (join [ch_colon] fs)) = fs.
Proof.
  intros H%hex_fields_ok. destruct fs as [|f r]; [done|].
  assert (Hj : join [ch_colon] (f :: r) <> []).
  { inversion H as [|? ? [Hf _] _]; subst. destruct f; [done|]. by destruct r. }
  unfold half_fields. destruct (join _ _) eqn:E; [done|]. rewrite <- E.
  apply split_join; [done|]. eapply Forall_impl; [exact H|]. by intros ? [_ ?].
Qed.

Lemma split2_join fs : Forall (field_ok ch_colon) fs ->
  split2 ch_colon (join [ch_colon] fs) = [join [ch_colon] fs].
Proof.
  intros H. destruct fs as [|f r]; [done|].
  pose proof (split2_join_app ch_colon (f :: r) [] ltac:(done) H) as E.
  rewrite app_nil_r in E. rewrite E. cbn [split2]. by rewrite app_nil_r.
Qed.

Lemma split2_gap L R : Forall (field_ok ch_colon) L -> Forall (field_ok ch_colon) R ->
  split2 ch_colon (join [ch_colon] L ++ js "::" ++ join [ch_colon] R) =
  [join [ch_colon] L; join [ch_colon] R].
Proof.
  intros HL HR. change (js "::" ++ join [ch_colon] R) with (ch_colon :: ch_colon :: join [ch_colon] R).
  assert (E : split2 ch_colon (ch_colon :: ch_colon :: join [ch_colon] R) = [[]; join [ch_colon] R]).
  { change (?a :: ?b :: ?c) with ([] ++ a :: b :: c) at 1. rewrite split2_sep by constructor.
    by rewrite split2_join. }
  destruct L as [|f r]; [exact E|].
  rewrite split2_join_app, E by done. by rewrite app_nil_r.
Qed.

Lemma no_bad_field fs : hex_fields fs -> existsb (fun field => negb (ipv6_field field)) fs = false.
Proof. intros H. apply existsb_false. eapply Forall_impl; [exact H|]. cbn. by intros ? ->. Qed.

Lemma ipv6_colon_plain fs :
  length fs = 8%nat -> hex_fields fs ->
  ipv6_colon (join [ch_colon] fs) = Some (flat_map field_bytes fs).
Proof.
  intros Hl H. unfold ipv6_colon. rewrite split2_join by by apply hex_fields_ok.
  cbn [lookup list_lookup length Nat.ltb Nat.leb Nat.eqb]. rewrite half_fields_join by done.
  cbn [half_fields length]. rewrite Hl. cbn [Nat.add Nat.eqb negb].
  rewrite app_nil_r, no_bad_field by done. cbn [Nat.sub replicate app]. by rewrite app_nil_r.
Qed.

Lemma ipv6_colon_gap L R :
  hex_fields L -> hex_fields R -> (length L + length R < 8)%nat ->
  ipv6_colon (join [ch_colon] L ++ js "::" ++ join [ch_colon] R) =
  Some (flat_map field_bytes (L ++ replicate (8 - (length L + length R)) (js "0") ++ R)).
Proof.
  intros HL HR Hlen. unfold ipv6_colon. rewrite split2_gap by by apply hex_fields_ok.
  cbn [lookup list_lookup length].
  change (2 <? 2)%nat with false. change (2 =? 1)%nat with false. cbv beta iota.
  rewrite !half_fields_join, (proj2 (Nat.leb_gt _ _)) by (done || lia).
  rewrite no_bad_field; [done|]. by apply Forall_app.
Qed.

Lemma ipv6_colon_wf s bs : ipv6_colon s = Some bs -> length bs = 16%nat /\ Forall is_byte bs.
Proof.
  unfold ipv6_colon. cbv zeta.
  destruct (2 <? length (split2 ch_colon s))%nat; [done|].
  set (L := half_fields (split2 ch_colon s !! 0%nat)). set (R := half_fields (split2 ch_colon s !! 1%nat)).
  destruct (if (length (split2 ch_colon s) =? 1)%nat then _ else _) eqn:E1; [done|].
  destruct (existsb _ (L ++ R)) eqn:E2; [done|]. intros [= <-].
  assert (Hc : (length L + length R <= 8)%nat).
  { case_match; propify; lia. }
  set (fs := L ++ replicate (8 - (length L + length R)) (js "0") ++ R).
  assert (Hfs : hex_fields fs).
  { unfold fs. apply existsb_false, Forall_app in E2 as [EL ER].
    apply Forall_app. split; [|apply Forall_app; split].
    - eapply Forall_impl; [exact EL|]. cbn. intros ? Hx. by propify.
    - by apply Forall_replicate.
    - eapply Forall_impl; [exact ER|]. cbn. intros ? Hx. by propify. }
  assert (Hl : length fs = 8%nat).
  { unfold fs. rewrite !length_app, length_replicate. lia. }
  clearbody fs. clear -Hfs Hl. split.
  - replace 16%nat with (2 * 8)%nat by done. rewrite <- Hl. clear. induction fs; cbn; lia.
  - clear Hl. induction Hfs as [|f fs Hf _ IH]; [constructor|].
    cbn [flat_map]. apply Forall_app. split; [by apply field_bytes_wf|done].
Qed.

(** ** The run of zero words that is elided *)

Definition zeros_in (words : list jsstr) (s e : nat) : Prop :=
  forall j, (s <= j < e)%nat -> words !! j = Some (js "0").

Lemma zero_run_end_spec fuel words i :
  (i <= 8)%nat ->
  let e := zero_run_end fuel words i in (i <= e <= 8)%nat /\ zeros_in words i e.
Proof.
  revert i; induction fuel as [|f IH]; intros i Hi; cbn.
  - split; [lia|]. intros j Hj. lia.
  - case_match eqn:E; [|split; [lia|]; intros j Hj; lia].
    unfold is_zero_word in E. propify.
    destruct (IH (S i) ltac:(lia)) as [H1 H2]. split; [lia|].
    intros j Hj. destruct (decide (j = i)) as [->|]; [done|]. apply H2. lia.
Qed.

Lemma best_zero_run_spec fuel words i bs bl s l :
  (i <= 8)%nat ->
  (match bs with None => True | Some b => (2 <= bl)%nat /\ (b + bl <= 8)%nat /\ zeros_in words b (b + bl) end) ->
  (1 <= bl)%nat ->
  best_zero_run fuel words i bs bl = (Some s, l) ->
  (2 <= l)%nat /\ (s + l <= 8)%nat /\ zeros_in words s (s + l).
Proof.
  revert i bs bl; induction fuel as [|f IH]; intros i bs bl Hi Hinv Hbl; cbn [best_zero_run].
  - by intros [= -> ->].
  - destruct (8 <=? i)%nat eqn:E1; [by intros [= -> ->]|]. propify.
    destruct (negb (is_zero_word words i)) eqn:E2; [by apply IH; [lia|..]|].
    destruct (zero_run_end_spec 8 words i Hi) as [He Hz].
    set (e := zero_run_end 8 words i) in *.
    destruct (bl <? e - i)%nat eqn:E3; propify; (apply IH; [lia| |lia]); [|done].
    replace (i + (e - i))%nat with e by lia. split_and!; [lia..|done].
Qed.

Lemma zeros_gap words s l :
  (s + l <= length words)%nat -> zeros_in words s (s + l) ->
  words = take s words ++ replicate l (js "0") ++ drop (s + l) words.
Proof.
  intros Hl Hz. rewrite <- (take_drop s words) at 1. f_equal.
  rewrite <- (take_drop l (drop s words)), drop_drop at 1. f_equal.
  apply list_eq. intros j. destruct (decide (j < l)%nat).
  - rewrite lookup_take_lt, lookup_drop, lookup_replicate_2 by lia. apply Hz. lia.
  - rewrite !(proj2 (lookup_ge_None _ _)); [done|rewrite length_replicate; lia|].
    rewrite length_take, length_drop. lia.
Qed.

(** ** Parsing undoes printing *)

Lemma ip_words_spec bs : length bs = 16%nat -> Forall is_byte bs ->
  length (ip_words bs) = 8%nat /\ hex_fields (ip_words bs) /\ flat_map field_bytes (ip_words bs) = bs.
Proof.
  intros Hl Hb. do 16 (destruct bs as [|? bs]; [done|]). destruct bs; [|done].
  repeat match goal with H : Forall is_byte (_ :: _) |- _ => inversion H; clear H; subst end.
  split_and!; [done| |].
  - unfold ip_words. cbn [map seq]. repeat constructor; cbn [nth Nat.mul Nat.add]; by apply hex_word_field.
  - unfold ip_words. cbn [map seq flat_map nth Nat.mul Nat.add].
    rewrite !field_bytes_hex by done. done.
Qed.

Lemma join_Forall (P : Z -> Prop) sep fs : Forall P sep -> Forall (Forall P) fs -> Forall P (join sep fs).
Proof.
  intros Hs H. induction H as [|f r Hf Hr IH]; [constructor|].
  destruct r as [|g r]; [done|]. rewrite join_cons2. by rewrite !Forall_app.
Qed.

Definition colon_char (c : Z) : Prop := is_hex c || (c =? ch_colon) = true.

Lemma hex_fields_chars fs : hex_fields fs -> Forall (Forall colon_char) fs.
Proof.
  intros H. eapply Forall_impl; [exact H|]. unfold ipv6_field, colon_char. intros f Hf. propify.
  apply forallb_Forall in H1. eapply Forall_impl; [exact H1|]. cbn. by intros ? ->.
Qed.

Lemma ipv4Bytes_colon s : ch_colon ∈ s -> ipv4Bytes s = None.
Proof.
  intros H. destruct (ipv4Bytes s) eqn:E; [|done].
  apply ipv4Bytes_Some in E as (_ & _ & _ & E). rewrite Forall_forall in E. by apply E in H.
Qed.

Lemma ipBytes_colon s : ch_colon ∈ s -> Forall colon_char s -> ipBytes s = ipv6_colon s.
Proof.
  intros Hc Hs. unfold ipBytes. rewrite ipv4Bytes_colon by done.
  rewrite (proj2 (includes_true s ch_colon)) by done. cbn [negb orb].
  replace (existsb _ s) with false.
  2:{ symmetry. apply existsb_false. eapply Forall_impl; [exact Hs|]. unfold colon_char. cbn. by intros ? ->. }
  replace (includes s ch_dot) with false; [done|]. symmetry. apply includes_false. intros Hd.
  rewrite Forall_forall in Hs. by apply Hs in Hd.
Qed.

Lemma split_last_app c a b : lacks c b -> split_last c (a ++ c :: b) = Some (a, b).
Proof.
  intros Hb. assert (Hnone : split_last c b = None).
  { induction Hb as [|x b Hx Hb IH]; cbn; [done|]. rewrite IH. by apply Z.eqb_neq in Hx as ->. }
  induction a as [|x a IH]; cbn; [by rewrite Hnone, Z.eqb_refl|]. by rewrite IH.
Qed.

Lemma dotted_chars bs : Forall is_byte bs ->
  Forall (fun c => is_digit c || (c =? ch_dot) = true) (dotted bs).
Proof.
  intros H. apply join_Forall; [by repeat constructor|]. apply Forall_map.
  eapply Forall_impl; [exact H|]. intros n Hn. unfold is_byte in Hn.
  pose proof (to_base_10_digits n ltac:(lia)) as Hd. apply forallb_Forall in Hd.
  eapply Forall_impl; [exact Hd|]. cbn. by intros ? ->.
Qed.

Lemma ipBytes_mapped t : length t = 4%nat -> Forall is_byte t ->
  ipBytes (js "::ffff:" ++ dotted t) = Some (replicate 10 0 ++ [255; 255] ++ t).
Proof.
  intros Hl Hb. pose proof (dotted_chars t Hb) as Hc.
  assert (Hcolon : ch_colon ∈ js "::ffff:" ++ dotted t) by (cbn; left).
  assert (Hdot : ch_dot ∈ dotted t).
  { do 2 (destruct t as [|? t]; [done|]). unfold dotted. cbn [map]. rewrite join_cons2.
    apply elem_of_app. right. left. }
  unfold ipBytes. rewrite ipv4Bytes_colon by done.
  rewrite (proj2 (includes_true _ ch_colon)) by done. cbn [negb orb].
  replace (existsb _ _) with false.
  2:{ symmetry. rewrite existsb_app. apply orb_false_iff. split; [done|]. apply existsb_false.
      eapply Forall_impl; [exact Hc|]. cbn. unfold is_hex. intros c H.
      destruct (is_digit c); [done|]. cbn in H. rewrite H, !orb_true_r. done. }
  rewrite (proj2 (includes_true _ ch_dot)) by (apply elem_of_app; by right).
  change (js "::ffff:" ++ dotted t) with (js "::ffff" ++ ch_colon :: dotted t).
  rewrite split_last_app.
  2:{ eapply Forall_impl; [exact Hc|]. cbn. intros c H ->. done. }
  rewrite ipv4Bytes_dotted by done.
  do 4 (destruct t as [|? t]; [done|]). destruct t; [|done].
  repeat match goal with H : Forall is_byte (_ :: _) |- _ => inversion H; clear H; subst end.
  match goal with |- ipv6_colon (_ ++ _ ++ ?h1 ++ _ ++ ?h2) = _ =>
    change (js "::ffff" ++ [ch_colon] ++ h1 ++ [ch_colon] ++ h2) with
      (join [ch_colon] [] ++ js "::" ++ join [ch_colon] [js "ffff"; h1; h2]) end.
  rewrite ipv6_colon_gap; [| |repeat constructor; by apply hex_word_field|cbn; lia]; [|constructor].
  cbn [length Nat.add Nat.sub replicate app flat_map]. rewrite !field_bytes_hex by done. done.
Qed.

Lemma mapped_prefix_split bs : length bs = 16%nat -> mapped_prefix bs = true ->
  bs = replicate 10 0 ++ [255; 255] ++ drop 12 bs.
Proof.
  intros Hl. do 16 (destruct bs as [|? bs]; [done|]). destruct bs; [|done].
  unfold mapped_prefix. cbn. intros H. propify. by subst.
Qed.

Lemma elem_of_join_colon fs : (2 <= length fs)%nat -> ch_colon ∈ join [ch_colon] fs.
Proof. destruct fs as [|f [|g r]]; cbn; [lia..|]. intros _. apply elem_of_app. right. left. Qed.

(** Parsing the canonical text of an address gives the address back. *)
Lemma ipBytes_ip_text bs : ip_wf bs -> ipBytes (ip_text bs) = Some bs.
Proof.
  intros [[Hl|Hl] Hb]; unfold ip_text; rewrite Hl.
  { cbn [Nat.eqb]. unfold ipBytes. by rewrite ipv4Bytes_dotted. }
  change (16 =? 4)%nat with false. cbv beta iota.
  destruct (mapped_prefix bs) eqn:Em.
  { pose proof (mapped_prefix_split bs Hl Em) as E. rewrite E at 2.
    apply ipBytes_mapped; [by rewrite length_drop, Hl|by apply Forall_drop]. }
  destruct (ip_words_spec bs Hl Hb) as (Hwl & Hw & Hround). set (ws := ip_words bs) in *.
  destruct (best_zero_run 9 ws 0 None 1) as [[s|] l] eqn:Er.
  - destruct (best_zero_run_spec 9 ws 0 None 1 s l ltac:(lia) I ltac:(lia) Er) as (Hl2 & Hs & Hz).
    pose proof (zeros_gap ws s l ltac:(lia) Hz) as Ews.
    assert (HL : hex_fields (take s ws)) by by apply Forall_take.
    assert (HR : hex_fields (drop (s + l) ws)) by by apply Forall_drop.
    rewrite ipBytes_colon.
    + rewrite ipv6_colon_gap by (done || rewrite length_take, length_drop; lia).
      rewrite length_take, length_drop, Hwl.
      replace (8 - (s `min` 8 + (8 - (s + l))))%nat with l by lia. by rewrite <- Ews, Hround.
    + apply elem_of_app. right. left.
    + rewrite !Forall_app. split_and!; [|by repeat constructor|];
        (apply join_Forall; [by repeat constructor|by apply hex_fields_chars]).
  - rewrite ipBytes_colon; [by rewrite ipv6_colon_plain, Hround| |].
    + apply elem_of_join_colon. lia.
    + apply join_Forall; [by repeat constructor|by apply hex_fields_chars].
Qed.

Lemma ipBytes_wf s bs : ipBytes s = Some bs -> ip_wf bs.
Proof.
  unfold ipBytes. destruct (ipv4Bytes s) eqn:E.
  { intros [= ->]. apply ipv4Bytes_Some in E as (? & ? & _). split; auto. }
  repeat case_match; try done; intros [? ?]%ipv6_colon_wf; split; auto.
Qed.

Lemma normalizeIp_bytes s t : normalizeIp s = Some t -> exists bs, ipBytes s = Some bs /\ ipBytes t = Some bs /\ t = ip_text bs.
Proof.
  unfold normalizeIp. destruct (ipBytes s) as [bs|] eqn:E; [|done]. intros [= <-].
  exists bs. split_and!; [done| |done]. eapply ipBytes_ip_text, ipBytes_wf, E.
Qed.

Lemma normalizeIp_fix s t : normalizeIp s = Some t -> normalizeIp t = Some t.
Proof. intros (bs & _ & Hb & ->)%normalizeIp_bytes. unfold normalizeIp. by rewrite Hb. Qed.

(** The canonical text of an IP address: whatever text [normalizeIp] accepts,
    its result denotes the same bytes, is a fixed point of [normalizeIp], and two
    accepted texts get one canonical text exactly when they denote one address. *)
Theorem normalizeIp_canonical s t :
  normalizeIp s = Some t ->
  ipBytes t = ipBytes s /\ normalizeIp t = Some t /\
  (forall s' t', normalizeIp s' = Some t' -> (t = t' <-> ipBytes s = ipBytes s')).
Proof.
  intros H. destruct (normalizeIp_bytes s t H) as (bs & E1 & E2 & E3).
  split_and!; [congruence| |].
  - unfold normalizeIp. by rewrite E2, E3.
  - intros s' t' H'. destruct (normalizeIp_bytes s' t' H') as (bs' & E1' & E2' & E3').
    split; intros; subst; congruence.
Qed.

Lemma normalizeIp_canonical_witness :
  normalizeIp (js "2001:DB8:0:0:0:0:0:1") = Some (js "2001:db8::1") /\
  normalizeIp (js "2001:db8::1") = Some (js "2001:db8::1").
Proof.
  split; [vm_compute; reflexivity|].
  refine (proj1 (proj2 (normalizeIp_canonical (js "2001:DB8:0:0:0:0:0:1") _ _))). vm_compute. reflexivity.
Defined.

(** ** Host names *)

Lemma to_lower_idem c : to_lower (to_lower c) = to_lower c.
Proof.
  unfold to_lower, is_upper, ch_in.
  destruct (Z.leb_spec 65 c), (Z.leb_spec c 90); cbn;
    repeat match goal with |- context [Z.leb ?a ?b] => destruct (Z.leb_spec a b) end; cbn; lia.
Qed.

Lemma strip_root_dot_id s : last s <> Some ch_dot -> strip_root_dot s = s.
Proof.
  induction s as [|c [|d r] IH]; [done| |].
  - cbn. intros H. destruct (Z.eqb_spec c ch_dot); [congruence|done].
  - intros H. cbn [strip_root_dot]. f_equal. apply IH. done.
Qed.

Lemma strip_root_dot_Forall (P : Z -> Prop) s : Forall P s -> Forall P (strip_root_dot s).
Proof.
  induction 1 as [|c [|d r] Hc Hr IH]; [constructor| |by constructor].
  cbn. destruct (c =? ch_dot); repeat constructor; done.
Qed.

Lemma last_split_nonempty c s f :
  last (split c s) = Some f -> f <> [] -> last s = last f.
Proof.
  revert f. induction s as [|x r IH]; cbn; [by intros f [= <-]|]. intros f.
  pose proof (split_nonempty c r) as Hne.
  destruct (Z.eqb_spec x c) as [->|Hx].
  - destruct (split c r) as [|g gs] eqn:E; [done|]. cbn [last] in *. intros H Hf.
    rewrite <- (IH f H Hf). destruct r; [|done]. cbn in E. injection E as <- <-. by injection H as <-.
  - destruct (split c r) as [|g gs] eqn:E; [done|]. destruct gs as [|g' gs]; cbn [cons_head last] in *.
    + intros [= <-] _. destruct r as [|y r']; [by injection E as <-|].
      specialize (IH g eq_refl). destruct g as [|z g].
      { exfalso. cbn in E. pose proof (split_nonempty c r'). destruct (y =? c); [by injection E|].
        by destruct (split c r'). }
      exact (IH ltac:(done)).
    + intros H Hf. rewrite <- (IH f H Hf). destruct r; [by injection E|done].
Qed.

Definition host_char (c : Z) : bool := label_edge c || (c =? ch_dash) || (c =? ch_dot).

Lemma label_ok_chars l : label_ok l = true -> l <> [] /\ Forall (fun c => host_char c = true) l /\ last l <> Some ch_dot.
Proof.
  unfold label_ok, label_shape. destruct l as [|c r]; [done|]. intros H. propify.
  split; [done|]. split.
  - match goal with H : forallb _ _ = true |- _ => apply forallb_Forall in H; eapply Forall_impl; [exact H|] end.
    cbn. unfold host_char. by intros ? ->.
  - destruct (last (c :: r)) eqn:E; [|done]. intros [= ->]. done.
Qed.

Lemma hostname_Some s h : hostname s = Some h ->
  Forall (fun c => host_char c = true) h /\ last h <> Some ch_dot /\ h <> [] /\
  ~ Forall (fun c => is_digit c || (c =? ch_dot) = true) h /\ map to_lower h = h /\ hostname h = Some h.
Proof.
  unfold hostname. set (host := strip_root_dot (map to_lower s)).
  destruct (_ || _) eqn:E1; [done|]. destruct (existsb _ _) eqn:E2; [done|]. intros [= <-].
  assert (Hlow : map to_lower host = host).
  { rewrite <- (map_id host) at 2. apply map_ext_Forall. unfold host.
    apply strip_root_dot_Forall, Forall_map, Forall_forall. intros c _. apply to_lower_idem. }
  pose proof E1 as [_ E1b]%orb_false_elim. pose proof E2 as Hl%existsb_false.
  assert (Hlast : host <> [] /\ last host <> Some ch_dot).
  { destruct (last (split ch_dot host)) as [f|] eqn:Ef.
    2:{ apply last_None in Ef. by apply split_nonempty in Ef. }
    rewrite Forall_forall in Hl. pose proof (Hl f ltac:(by apply last_Some_elem_of)) as Hf. cbn in Hf. propify.
    apply label_ok_chars in Hf as (Hf0 & _ & Hfl).
    pose proof (last_split_nonempty ch_dot host f Ef Hf0) as Elast.
    split; [|by rewrite Elast]. intros Eh. rewrite Eh in Ef. cbn in Ef. congruence. }
  destruct Hlast as [Hne Hlast]. split_and!; try done.
  - apply (split_Forall _ ch_dot); [done|]. eapply Forall_impl; [exact Hl|]. cbn. intros f Hf. propify.
    by apply label_ok_chars.
  - intros Hd%forallb_Forall. rewrite Hd, bool_decide_eq_false_2 in E1b; done.
  - rewrite Hlow, strip_root_dot_id by done. by rewrite E1, E2.
Qed.

Lemma hostname_not_ip s h : hostname s = Some h -> ipBytes h = None.
Proof.
  intros (Hc & _ & _ & Hd & _ & _)%hostname_Some. unfold ipBytes.
  destruct (ipv4Bytes h) eqn:E4; [by apply ipv4Bytes_Some in E4 as (_ & _ & _ & ?)|].
  replace (includes h ch_colon) with false; [done|]. symmetry. apply includes_false. intros H.
  rewrite Forall_forall in Hc. by apply Hc in H.
Qed.

Lemma ip_text_not_empty bs : ip_wf bs -> ip_text bs <> [].
Proof. intros H E. pose proof (ipBytes_ip_text bs H) as E'. by rewrite E in E'. Qed.

Lemma ipBytes_chars s bs : ipBytes s = Some bs -> s <> [] /\ Forall (fun c => target_char c = true) s.
Proof.
  intros H. split; [by intros ->|]. revert H.
  assert (Himp : forall c, is_hex c || (c =? ch_colon) || (c =? ch_dot) = true -> target_char c = true).
  { intros c. unfold target_char, is_hex, is_alnum, is_lower, is_upper, ch_in. rewrite !orb_true_iff, !andb_true_iff, !Z.leb_le.
    intuition lia. }
  unfold ipBytes. destruct (ipv4Bytes s) eqn:E.
  { intros _. apply ipv4Bytes_Some in E as (_ & _ & _ & E). eapply Forall_impl; [exact E|].
    cbn. intros c Hc. apply Himp. unfold is_hex. destruct (is_digit c); [done|]. cbn in Hc. by rewrite Hc, !orb_true_r. }
  destruct (_ || _) eqn:E1; [done|]. intros _. apply orb_false_elim in E1 as [_ E1%existsb_false].
  eapply Forall_impl; [exact E1|]. cbn. intros c Hc. propify. auto.
Qed.

Lemma host_char_target h : Forall (fun c => host_char c = true) h -> existsb (fun c => negb (target_char c)) h = false.
Proof.
  intros H. apply existsb_false. eapply Forall_impl; [exact H|]. intros c Hc. apply negb_false_iff.
  unfold host_char, label_edge in Hc. unfold target_char, is_alnum.
  destruct (is_digit c), (is_lower c), (c =? ch_dash), (c =? ch_dot); cbn in *; rewrite ?orb_true_r; done.
Qed.

Lemma normalizeTargetHost_fix v h :
  normalizeTargetHost v = Some h ->
  normalize_target_host h = Some h /\ (forall bs, ipBytes h = Some bs -> unspecified bs = false).
Proof.
  destruct v as [| | | |s| |]; cbn; try done. unfold normalize_target_host.
  destruct (bool_decide (s = []) || _) eqn:E0; [done|].
  destruct (normalizeIp s) as [ip|] eqn:Eip.
  - destruct (normalizeIp_bytes s ip Eip) as (bs & _ & E2 & E3). rewrite E2.
    destruct (unspecified bs) eqn:Eu; [done|]. intros [= <-].
    destruct (ipBytes_chars ip bs E2) as [Hne Hch]. split; [|intros; congruence].
    rewrite bool_decide_eq_false_2 by done. cbn [orb].
    replace (existsb _ ip) with false.
    2:{ symmetry. apply existsb_false. eapply Forall_impl; [exact Hch|]. cbn. by intros ? ->. }
    unfold normalizeIp. by rewrite E2, <- E3, E2, Eu.
  - intros H. pose proof (hostname_not_ip s h H) as Hip. destruct (hostname_Some s h H) as (Hc & _ & Hne & _ & _ & Hfix).
    split; [|congruence].
    rewrite bool_decide_eq_false_2, host_char_target by done. cbn [orb]. unfold normalizeIp. by rewrite Hip.
Qed.

Lemma normalize_target_host_fix v h : normalizeTargetHost v = Some h -> normalize_target_host h = Some h.
Proof. intros H. apply (normalizeTargetHost_fix v h H). Qed.

(** A target host in canonical form: whatever [normalizeTargetHost] accepts, its
    result is a fixed point, and it is never an unspecified address
    ([0.0.0.0], [::] or [::ffff:0.0.0.0]). *)
Theorem normalizeTargetHost_canonical v h :
  normalizeTargetHost v = Some h ->
  normalizeTargetHost (Str h) = Some h /\ (forall bs, ipBytes h = Some bs -> unspecified bs = false).
Proof. apply normalizeTargetHost_fix. Qed.

Lemma normalizeTargetHost_canonical_witness :
  normalizeTargetHost (Str (js "Example.COM.")) = Some (js "example.com") /\
  normalizeTargetHost (Str (js "example.com")) = Some (js "example.com").
Proof.
  split; [vm_compute; reflexivity|].
  refine (proj1 (normalizeTargetHost_canonical (Str (js "Example.COM.")) _ _)). vm_compute. reflexivity.
Defined.
