(* ===== verification/Json.v ===== *)
(** packages/contracts/src/json.ts: the bounded JSON reader that keeps duplicate
    keys and inexact numbers from being lost, with [JSON.stringify] and the parts
    of [JSON.parse] it calls.

    [parseJson] works on the remaining input instead of a cursor.  The reader only
    ever builds null, booleans, safe integers, strings, arrays and objects: the
    type [json].  The recursion takes fuel; the length of the input is enough
    ([value_fuel]), so [parseJson] itself has no fuel argument. *)

From S2P Require Export JsValue Primitives.

Local Open Scope Z_scope.

Inductive json : Type :=
  | JNull
  | JBool (b : bool)
  | JInt (z : Z)
  | JStr (s : jsstr)
  | JArr (elements : list json)
  | JObj (fields : list (jsstr * json)).

(** ** Character codes *)
Definition ch_quote : Z := 34.
Definition ch_backslash : Z := 92.
Definition ch_comma : Z := 44.
Definition ch_lbrace : Z := 123.
Definition ch_rbrace : Z := 125.
Definition ch_lbracket : Z := 91.
Definition ch_rbracket : Z := 93.

(** The input after [c], when it starts with [c]. *)
Definition eat (c : Z) (s : jsstr) : option jsstr :=
  match s with
  | x :: r => if x =? c then Some r else None
  | [] => None
  end.

(** ** Unicode *)
Definition is_high (c : Z) : bool := ch_in 55296 56319 c.
Definition is_low (c : Z) : bool := ch_in 56320 57343 c.

(** No lone surrogate: the negation of the [/.../u] test of the sources. *)
Fixpoint utf16_ok (s : jsstr) : bool :=
  match s with
  | [] => true
  | x :: r =>
      if is_high x then match r with y :: r' => is_low y && utf16_ok r' | [] => false end
      else negb (is_low x) && utf16_ok r
  end.

(** [Buffer.byteLength(s, 'utf8')]; a lone surrogate is encoded as U+FFFD. *)
Fixpoint utf8_length (s : jsstr) : Z :=
  match s with
  | [] => 0
  | x :: r =>
      if x <? 128 then 1 + utf8_length r
      else if x <? 2048 then 2 + utf8_length r
      else if is_high x then
        match r with
        | y :: r' => if is_low y then 4 + utf8_length r' else 3 + utf8_length r
        | [] => 3
        end
      else 3 + utf8_length r
  end.

(** ** [JSON.parse] of a string literal (its body, between the quotes) *)

Definition unescape (c : Z) : option Z :=
  if c =? 34 then Some 34 else if c =? 92 then Some 92 else if c =? 47 then Some 47
  else if c =? 98 then Some 8 else if c =? 102 then Some 12 else if c =? 110 then Some 10
  else if c =? 114 then Some 13 else if c =? 116 then Some 9 else None.

Fixpoint decode_string (s : jsstr) : option jsstr :=
  match s with
  | [] => Some []
  | c :: r =>
      if c =? ch_backslash then
        match r with
        | [] => None
        | e :: r' =>
            if e =? 117 then
              match r' with
              | h1 :: h2 :: h3 :: h4 :: r'' =>
                  if forallb is_hex [h1; h2; h3; h4]
                  then cons (of_base 16 [h1; h2; h3; h4]) <$> decode_string r'' else None
              | _ => None
              end
            else match unescape e with
                 | Some d => cons d <$> decode_string r'
                 | None => None
                 end
        end
      else if (c <? 32) || (c =? ch_quote) then None
      else cons c <$> decode_string r
  end.

(** ** [JSON.stringify] *)

Definition hex4 (c : Z) : jsstr :=
  [digit_char (c / 4096); digit_char (c / 256 mod 16); digit_char (c / 16 mod 16); digit_char (c mod 16)].

Definition escape_unit (c : Z) : jsstr :=
  if c =? 34 then [ch_backslash; 34] else if c =? 92 then [ch_backslash; 92]
  else if c =? 8 then [ch_backslash; 98] else if c =? 12 then [ch_backslash; 102]
  else if c =? 10 then [ch_backslash; 110] else if c =? 13 then [ch_backslash; 114]
  else if c =? 9 then [ch_backslash; 116]
  else if (c <? 32) || is_high c || is_low c then [ch_backslash; 117] ++ hex4 c
  else [c].

Fixpoint escape (s : jsstr) : jsstr :=
  match s with
  | [] => []
  | x :: r =>
      match r with
      | y :: r' => if is_high x && is_low y then x :: y :: escape r' else escape_unit x ++ escape r
      | [] => escape_unit x
      end
  end.

Definition quote (s : jsstr) : jsstr := ch_quote :: escape s ++ [ch_quote].

Fixpoint stringify (v : json) : jsstr :=
  match v with
  | JNull => js "null"
  | JBool true => js "true"
  | JBool false => js "false"
  | JInt z => num_to_string z
  | JStr s => quote s
  | JArr l => ch_lbracket :: join [ch_comma] (map stringify l) ++ [ch_rbracket]
  | JObj fs =>
      ch_lbrace :: join [ch_comma] (map (fun '(k, v) => quote k ++ ch_colon :: stringify v) fs) ++ [ch_rbrace]
  end.

(** ** Number tokens *)

Fixpoint span_digits (s : jsstr) : jsstr * jsstr :=
  match s with
  | c :: r => if is_digit c then let '(d, t) := span_digits r in (c :: d, t) else ([], s)
  | [] => ([], [])
  end.

Record num_token := NumToken {
  nt_negative : bool;
  nt_int : jsstr;                 (** match[2] *)
  nt_frac : jsstr;                (** match[3] ?? '' *)
  nt_exp : option (bool * jsstr); (** match[4]: sign and digits *)
  nt_length : nat;                (** token.length *)
}.

(** The number alternative of the scalar regular expression, on the remaining
    input: an optional minus, [0] or a digit run without leading zero, an optional
    fraction and an optional exponent, each group only when its digits are there. *)
Definition scan_int (s : jsstr) : option (jsstr * jsstr) :=
  match eat 48 s with
  | Some r => Some ([48], r)
  | None =>
      match s with
      | c :: _ => if ch_in 49 57 c then Some (span_digits s) else None
      | [] => None
      end
  end.

Definition scan_frac (s : jsstr) : jsstr * jsstr :=
  match eat 46 s with
  | Some r => match span_digits r with ([], _) => ([], s) | (d, t) => (d, t) end
  | None => ([], s)
  end.

Definition scan_sign (s : jsstr) : bool * jsstr :=
  match eat 43 s with
  | Some r => (false, r)
  | None => match eat 45 s with Some r => (true, r) | None => (false, s) end
  end.

Definition scan_exp (s : jsstr) : option (bool * jsstr) * jsstr :=
  match s with
  | c :: r =>
      if (c =? 101) || (c =? 69) then
        let '(neg, r') := scan_sign r in
        match span_digits r' with ([], _) => (None, s) | (d, t) => (Some (neg, d), t) end
      else (None, s)
  | [] => (None, s)
  end.

Definition scan_number (s : jsstr) : option (num_token * jsstr) :=
  let '(neg, s1) := match eat 45 s with Some r => (true, r) | None => (false, s) end in
  match scan_int s1 with
  | None => None
  | Some (i, s2) =>
      let '(f, s3) := scan_frac s2 in
      let '(e, s4) := scan_exp s3 in
      Some (NumToken neg i f e (length s - length s4), s4)
  end.

(** The integer a token denotes when [safeIntegerToken] accepts it.  The scale is
    computed exactly; the doubles of the source only differ beyond 2^53, where both
    reject. *)
Definition safe_integer (t : num_token) : option Z :=
  if (128 <? nt_length t)%nat then None else
  let coefficient := of_base 10 (nt_int t ++ nt_frac t) in
  let signed c := if nt_negative t then - c else c in
  if coefficient =? 0 then Some 0 else
  let e := match nt_exp t with
           | None => 0 | Some (false, d) => of_base 10 d | Some (true, d) => - of_base 10 d end in
  let scale := e - Z.of_nat (length (nt_frac t)) in
  if 128 <? Z.abs scale then None else
  if 0 <=? scale then
    if 16 <? scale then None
    else if coefficient * 10 ^ scale <=? MAX_COUNTER then Some (signed (coefficient * 10 ^ scale)) else None
  else
    let divisor := 10 ^ (- scale) in
    if negb (coefficient mod divisor =? 0) then None
    else if coefficient / divisor <=? MAX_COUNTER then Some (signed (coefficient / divisor)) else None.

(** ** The reader *)

Definition is_ws (c : Z) : bool := (c =? 32) || (c =? 9) || (c =? 10) || (c =? 13).

Fixpoint whitespace (s : jsstr) : jsstr :=
  match s with
  | c :: r => if is_ws c then whitespace r else s
  | [] => []
  end.

(** The body of a string literal up to its closing quote, and what follows it. *)
Fixpoint scan_string (s : jsstr) : option (jsstr * jsstr) :=
  match s with
  | [] => None
  | c :: r =>
      if c =? ch_backslash then
        match r with
        | [] => None
        | d :: r' => match scan_string r' with Some (b, t) => Some (c :: d :: b, t) | None => None end
        end
      else if c =? ch_quote then Some ([], r)
      else match scan_string r with Some (b, t) => Some (c :: b, t) | None => None end
  end.

Definition invalid (m : string) : exn := Exn "INVALID_CONFIG" m.

(** [string()], after the opening quote. *)
Definition string_literal (s : jsstr) : outcome (jsstr * jsstr) :=
  match scan_string s with
  | None => Throws (invalid "Unterminated string")
  | Some (body, rest) =>
      match decode_string body with
      | None => Throws (Exn "SyntaxError" "")
      | Some r => if utf16_ok r then Returns (r, rest) else Throws (invalid "Invalid Unicode")
      end
  end.

Definition starts_with (p s : jsstr) : bool := str_eqb (take (length p) s) p.

(** The scalar tokens other than strings. *)
Definition scalar (s : jsstr) : outcome (json * jsstr) :=
  if starts_with (js "true") s then Returns (JBool true, drop 4 s)
  else if starts_with (js "false") s then Returns (JBool false, drop 5 s)
  else if starts_with (js "null") s then Returns (JNull, drop 4 s)
  else match scan_number s with
       | None => Throws (invalid "Invalid JSON token")
       | Some (t, rest) =>
           match safe_integer t with
           | Some z => Returns (JInt z, rest)
           | None => Throws (invalid "Expected an exact safe integer")
           end
       end.

Definition out_of_fuel : exn := Exn "FUEL" "".

Fixpoint value (fuel : nat) (depth : nat) (s : jsstr) : outcome (json * jsstr) :=
  match fuel with
  | O => Throws out_of_fuel
  | S n =>
      if (64 <? depth)%nat then Throws (Exn "RESOURCE_LIMIT" "JSON nesting too deep") else
      let s := whitespace s in
      match s with
      | [] => Throws (invalid "Invalid JSON token")
      | c :: r =>
          if c =? ch_quote then string_literal r ≫= fun '(x, rest) => Returns (JStr x, rest)
          else if c =? ch_lbrace then
            match eat ch_rbrace (whitespace r) with
            | Some rest => Returns (JObj [], rest)
            | None => members n depth (whitespace r) []
            end
          else if c =? ch_lbracket then
            match eat ch_rbracket (whitespace r) with
            | Some rest => Returns (JArr [], rest)
            | None => elements n depth (whitespace r) []
            end
          else scalar s
      end
  end
with members (fuel : nat) (depth : nat) (s : jsstr) (acc : list (jsstr * json)) : outcome (json * jsstr) :=
  match fuel with
  | O => Throws out_of_fuel
  | S n =>
      match eat ch_quote (whitespace s) with
      | None => Throws (invalid "Expected object key")
      | Some r =>
          string_literal r ≫= fun '(key, r1) =>
          if includes (map fst acc) key then Throws (Exn "INTEGRITY_FAILURE" "Duplicate JSON key") else
          match eat ch_colon (whitespace r1) with
          | None => Throws (invalid "Expected colon")
          | Some r2 =>
              value n (S depth) r2 ≫= fun '(v, r3) =>
              match eat ch_rbrace (whitespace r3), eat ch_comma (whitespace r3) with
              | Some rest, _ => Returns (JObj (enum_order (acc ++ [(key, v)])), rest)
              | None, Some r4 => members n depth r4 (acc ++ [(key, v)])
              | None, None => Throws (invalid "Expected object separator")
              end
          end
      end
  end
with elements (fuel : nat) (depth : nat) (s : jsstr) (acc : list json) : outcome (json * jsstr) :=
  match fuel with
  | O => Throws out_of_fuel
  | S n =>
      value n (S depth) s ≫= fun '(v, r1) =>
      match eat ch_rbracket (whitespace r1), eat ch_comma (whitespace r1) with
      | Some rest, _ => Returns (JArr (acc ++ [v]), rest)
      | None, Some r2 => elements n depth r2 (acc ++ [v])
      | None, None => Throws (invalid "Expected array separator")
      end
  end.

Definition parseJson (raw : jsstr) (maxBytes : Z) : outcome json :=
  _ ← throw_if (maxBytes <? utf8_length raw) "RESOURCE_LIMIT" "JSON body too large";
  '(result, rest) ← value (S (2 * length raw)) 0 raw;
  match whitespace rest with
  | [] => Returns result
  | _ => Throws (invalid "Trailing JSON data")
  end.

(** ** Strings: scanning and decoding undo escaping *)

Definition nonneg (s : jsstr) : Prop := Forall (fun c => 0 <= c) s.

(** Scanning passes over [e] without ending the literal. *)
Definition passes (e : jsstr) : Prop := forall t, scan_string (e ++ t) =
  match scan_string t with Some (b, u) => Some (e ++ b, u) | None => None end.

Lemma passes_app a b : passes a -> passes b -> passes (a ++ b).
Proof.
  intros Ha Hb t. rewrite <- app_assoc, Ha, Hb. destruct (scan_string t) as [[? ?]|]; [|done].
  by rewrite app_assoc.
Qed.

Lemma passes_nil : passes [].
Proof. intros t. cbn [app]. by destruct (scan_string t) as [[]|]. Qed.

Lemma passes_plain c : c <> 34 -> c <> 92 -> passes [c].
Proof.
  intros H1%Z.eqb_neq H2%Z.eqb_neq t. cbn. unfold ch_backslash, ch_quote. rewrite H1, H2.
  by destruct (scan_string t) as [[]|].
Qed.

Lemma passes_escaped d : passes [ch_backslash; d].
Proof. intros t. cbn. by destruct (scan_string t) as [[]|]. Qed.

Lemma passes_plains s : Forall (fun c => c <> 34 /\ c <> 92) s -> passes s.
Proof.
  induction 1 as [|c s [H1 H2] _ IH]; [apply passes_nil|].
  apply (passes_app [c]); [by apply passes_plain|done].
Qed.

Lemma hex_digit_char d : 0 <= d < 16 -> is_hex (digit_char d) = true.
Proof.
  intros H. unfold digit_char, is_hex, is_digit, ch_in.
  destruct (Z.ltb_spec d 10); rewrite !orb_true_iff, !andb_true_iff, !Z.leb_le; lia.
Qed.

Lemma is_hex_plain c : is_hex c = true -> c <> 34 /\ c <> 92.
Proof. intros H. split; intros ->; done. Qed.

Lemma hex4_spec c : 0 <= c < 65536 -> forallb is_hex (hex4 c) = true /\ of_base 16 (hex4 c) = c.
Proof.
  intros H. pose proof (Z.div_mod c 16 ltac:(lia)). pose proof (Z.div_mod (c / 16) 16 ltac:(lia)).
  pose proof (Z.div_mod (c / 16 / 16) 16 ltac:(lia)).
  assert (E1 : c / 256 = c / 16 / 16) by (rewrite Z.div_div by lia; done).
  assert (E2 : c / 4096 = c / 16 / 16 / 16) by (rewrite !Z.div_div by lia; done).
  pose proof (Z.mod_pos_bound c 16 ltac:(lia)). pose proof (Z.mod_pos_bound (c / 16) 16 ltac:(lia)).
  pose proof (Z.mod_pos_bound (c / 16 / 16) 16 ltac:(lia)).
  unfold hex4. rewrite E1, E2.
  assert (Hh : 0 <= c / 16 / 16 / 16 < 16) by lia.
  split.
  - cbn [forallb]. rewrite !hex_digit_char by lia. done.
  - unfold of_base. cbn [fold_left]. rewrite !(digit_val_char 16) by lia. lia.
Qed.

Lemma surrogate_range c : is_high c || is_low c = true -> 32 <= c < 65536.
Proof. unfold is_high, is_low, ch_in. rewrite orb_true_iff, !andb_true_iff, !Z.leb_le. lia. Qed.

Ltac escape_cases c :=
  unfold escape_unit;
  repeat match goal with
  | |- context [c =? ?k] => destruct (Z.eqb_spec c k); [subst c|]
  end.

Lemma escape_unit_passes c : 0 <= c -> passes (escape_unit c).
Proof.
  intros H0. escape_cases c; try apply passes_escaped.
  destruct ((c <? 32) || is_high c || is_low c) eqn:E.
  - assert (0 <= c < 65536).
    { rewrite <- orb_assoc, orb_true_iff in E. destruct E as [E|E%surrogate_range]; [apply Z.ltb_lt in E|]; lia. }
    apply passes_app; [apply passes_escaped|].
    apply passes_plains. pose proof (proj1 (hex4_spec c ltac:(done))) as Hh. apply forallb_Forall in Hh.
    eapply Forall_impl; [exact Hh|]. apply is_hex_plain.
  - by apply passes_plain.
Qed.

Lemma escape_unit_decodes c t :
  0 <= c -> decode_string (escape_unit c ++ t) = cons c <$> decode_string t.
Proof.
  intros H0. escape_cases c; try reflexivity.
  destruct ((c <? 32) || is_high c || is_low c) eqn:E.
  - assert (0 <= c < 65536) as Hc.
    { rewrite <- orb_assoc, orb_true_iff in E. destruct E as [E|E%surrogate_range]; [apply Z.ltb_lt in E|]; lia. }
    destruct (hex4_spec c Hc) as [Hh Ho]. unfold hex4 in *.
    cbn [app decode_string]. change (ch_backslash =? ch_backslash) with true. cbv iota.
    by rewrite Hh, Ho.
  - cbn [app decode_string]. unfold ch_backslash, ch_quote.
    destruct (Z.eqb_spec c 92); [done|]. destruct (Z.eqb_spec c 34); [done|].
    rewrite <- orb_assoc in E. apply orb_false_elim in E as [-> _]. done.
Qed.

(** Induction that follows [escape]: one unit at a time, or a surrogate pair. *)
Lemma escape_ind (P : jsstr -> jsstr -> Prop) :
  P [] [] ->
  (forall x r, P r (escape r) -> P (x :: r) (escape_unit x ++ escape r)) ->
  (forall x y r, is_high x = true -> is_low y = true -> P r (escape r) -> P (x :: y :: r) (x :: y :: escape r)) ->
  forall s, P s (escape s).
Proof.
  intros H0 H1 H2. assert (Hs : forall s, P s (escape s) /\ forall x, P (x :: s) (escape (x :: s))).
  { induction s as [|y r [IH1 IH2]].
    - split; [done|]. intros x. pose proof (H1 x [] H0) as H. cbn [escape] in *. by rewrite app_nil_r in H.
    - split; [apply IH2|]. intros x. cbn [escape]. destruct (is_high x && is_low y) eqn:E; propify.
      + by apply H2.
      + apply (H1 x (y :: r)). apply IH2. }
  apply Hs.
Qed.

Lemma surrogate_plain c : is_high c = true \/ is_low c = true -> c <> 34 /\ c <> 92 /\ 32 <= c.
Proof. intros H. pose proof (surrogate_range c ltac:(rewrite orb_true_iff; done)). split_and!; try lia; intros ->; by destruct H. Qed.

Lemma scan_escape s rest : nonneg s -> scan_string (escape s ++ ch_quote :: rest) = Some (escape s, rest).
Proof.
  intros Hs. assert (Hp : passes (escape s)).
  { revert Hs. apply (escape_ind (fun s e => nonneg s -> passes e)).
    - intros _. apply passes_nil.
    - intros x r IH H. inversion H; subst. apply passes_app; [by apply escape_unit_passes|auto].
    - intros x y r Hx Hy IH H. inversion H as [|? ? ? H']; subst. inversion H'; subst.
      destruct (surrogate_plain x ltac:(auto)) as (? & ? & _). destruct (surrogate_plain y ltac:(auto)) as (? & ? & _).
      apply (passes_app [x; y]); [by apply passes_plains; repeat constructor|auto]. }
  rewrite Hp. cbn. by rewrite app_nil_r.
Qed.

Lemma decode_escape s : nonneg s -> decode_string (escape s) = Some s.
Proof.
  apply (escape_ind (fun s e => nonneg s -> decode_string e = Some s)); [done| |].
  - intros x r IH H. inversion H; subst. rewrite escape_unit_decodes, IH by done. done.
  - intros x y r Hx Hy IH H. inversion H as [|? ? ? H']; subst. inversion H'; subst.
    destruct (surrogate_plain x ltac:(auto)) as (Hx1 & Hx2 & Hx3).
    destruct (surrogate_plain y ltac:(auto)) as (Hy1 & Hy2 & Hy3).
    cbn [decode_string]. unfold ch_backslash, ch_quote.
    rewrite (proj2 (Z.eqb_neq x 92)), (proj2 (Z.eqb_neq x 34)), (proj2 (Z.ltb_ge x 32)) by done.
    rewrite (proj2 (Z.eqb_neq y 92)), (proj2 (Z.eqb_neq y 34)), (proj2 (Z.ltb_ge y 32)) by done.
    cbn [orb]. by rewrite IH.
Qed.

(** A string the reader can return. *)
Definition str_ok (s : jsstr) : Prop := utf16_ok s = true /\ nonneg s.

Lemma string_literal_escape s rest :
  str_ok s -> string_literal (escape s ++ ch_quote :: rest) = Returns (s, rest).
Proof. intros [H1 H2]. unfold string_literal. by rewrite scan_escape, decode_escape, H1. Qed.

(** ** Values the reader can return *)

(** How deep arrays and objects nest: the recursion depth of [value]. *)
Fixpoint nest (v : json) : nat :=
  match v with
  | JArr l => foldr (fun w m => Nat.max (S (nest w)) m) 0%nat l
  | JObj fs => foldr (fun kv m => Nat.max (S (nest kv.2)) m) 0%nat fs
  | _ => 0%nat
  end.

(** Safe integers, well-formed strings, distinct keys in enumeration order. *)
Inductive json_ok : json -> Prop :=
  | ok_null : json_ok JNull
  | ok_bool b : json_ok (JBool b)
  | ok_int z : Z.abs z <= MAX_COUNTER -> json_ok (JInt z)
  | ok_str s : str_ok s -> json_ok (JStr s)
  | ok_arr l : Forall json_ok l -> json_ok (JArr l)
  | ok_obj fs :
      Forall (fun kv => str_ok kv.1 /\ json_ok kv.2) fs -> NoDup (map fst fs) -> enum_order fs = fs ->
      json_ok (JObj fs).

Section JsonInd.
Context (P : json -> Prop)
  (Hnull : P JNull) (Hbool : forall b, P (JBool b)) (Hint : forall z, P (JInt z)) (Hstr : forall s, P (JStr s))
  (Harr : forall l, Forall P l -> P (JArr l))
  (Hobj : forall fs, Forall (fun kv => P kv.2) fs -> P (JObj fs)).

Fixpoint json_nested_ind (v : json) : P v :=
  match v with
  | JNull => Hnull
  | JBool b => Hbool b
  | JInt z => Hint z
  | JStr s => Hstr s
  | JArr l => Harr l ((fix go (l : list json) : Forall P l := match l with
      | [] => Forall_nil_2 _
      | x :: r => Forall_cons_2 _ _ _ (json_nested_ind x) (go r) end) l)
  | JObj fs => Hobj fs ((fix go (fs : list (jsstr * json)) : Forall (fun kv => P kv.2) fs := match fs with
      | [] => Forall_nil_2 _
      | kv :: r => Forall_cons_2 _ kv r (json_nested_ind kv.2) (go r) end) fs)
  end.
End JsonInd.

(** What may follow a value inside a document. *)
Definition delimited (rest : jsstr) : Prop :=
  match rest with [] => True | c :: _ => c = ch_comma \/ c = ch_rbrace \/ c = ch_rbracket end.

Lemma span_digits_app d rest :
  forallb is_digit d = true -> match rest with [] => True | c :: _ => is_digit c = false end ->
  span_digits (d ++ rest) = (d, rest).
Proof.
  intros Hd Hr. induction d as [|c d IH]; cbn in *.
  - destruct rest as [|c r]; [done|]. cbn. by rewrite Hr.
  - propify. rewrite H. by rewrite IH.
Qed.

Lemma scan_int_numeral n rest :
  0 <= n -> delimited rest -> scan_int (to_base 10 n ++ rest) = Some (to_base 10 n, rest).
Proof.
  intros Hn Hr. destruct (Z.eq_dec n 0) as [->|]; [done|].
  pose proof (to_base_10_digits n Hn) as Hd. pose proof (to_base_head 10 ltac:(lia) n ltac:(lia)) as Hh.
  pose proof (to_base_nonempty 10 ltac:(lia) n Hn) as Hne.
  pose proof (span_digits_app _ rest Hd) as Hspan.
  destruct (to_base 10 n) as [|c d]; [done|]. cbn [app] in *.
  assert (Hc : ch_in 49 57 c = true /\ c <> 48).
  { cbn in Hd, Hh. propify. unfold is_digit, ch_in in *. propify. split; [|congruence].
    assert (c <> 48) by congruence. rewrite andb_true_iff, !Z.leb_le. lia. }
  destruct Hc as [Hc Hc0].
  unfold scan_int, eat. rewrite (proj2 (Z.eqb_neq c 48)), Hc, Hspan; [done| |done].
  destruct rest as [|x r]; [done|]. cbn in Hr. unfold ch_comma, ch_rbrace, ch_rbracket in Hr.
  destruct Hr as [->|[->| ->]]; done.
Qed.

Lemma scan_frac_delimited rest : delimited rest -> scan_frac rest = ([], rest).
Proof. destruct rest as [|c r]; [done|]. by intros [->|[->| ->]]. Qed.

Lemma scan_exp_delimited rest : delimited rest -> scan_exp rest = (None, rest).
Proof. destruct rest as [|c r]; [done|]. by intros [->|[->| ->]]. Qed.

(** A safe integer is read back from its decimal text. *)
Lemma scan_number_int z rest :
  Z.abs z <= MAX_COUNTER -> delimited rest ->
  exists t, scan_number (num_to_string z ++ rest) = Some (t, rest) /\ safe_integer t = Some z.
Proof.
  intros Hz Hr. unfold num_to_string.
  set (neg := z <? 0). set (d := to_base 10 (Z.abs z)).
  assert (E : (if neg then ch_dash :: to_base 10 (- z) else to_base 10 z) = (if neg then [ch_dash] else []) ++ d).
  { unfold neg, d. destruct (Z.ltb_spec z 0); cbn; do 2 f_equal; lia. }
  rewrite E, <- app_assoc. unfold scan_number.
  set (s := (if neg then [ch_dash] else []) ++ d ++ rest).
  assert (Es : match eat 45 s with Some r => (true, r) | None => (false, s) end = (neg, d ++ rest)).
  { unfold s. destruct neg; [done|]. cbn [app].
    pose proof (scan_int_numeral (Z.abs z) rest ltac:(lia) Hr) as Hs. fold d in Hs.
    destruct (d ++ rest) as [|c r]; [done|]. cbn. by destruct (Z.eqb_spec c 45) as [->|]. }
  rewrite Es. unfold d at 1. rewrite scan_int_numeral, scan_frac_delimited, scan_exp_delimited by (done || lia).
  eexists. split; [done|]. unfold safe_integer. cbn [nt_length nt_int nt_frac nt_exp nt_negative].
  pose proof (to_base_length 10 ltac:(lia) (Z.abs z) 15 ltac:(cbn; unfold MAX_COUNTER in Hz; lia)) as Hlen. fold d in Hlen.
  replace (128 <? length s - length rest)%nat with false.
  2:{ symmetry. apply Nat.ltb_ge. unfold s. rewrite !length_app. destruct neg; cbn [length]; lia. }
  rewrite app_nil_r, of_base_to_base by lia.
  destruct (Z.eqb_spec (Z.abs z) 0); [f_equal; lia|].
  change (0 - Z.of_nat (length [])) with 0. cbn [Z.abs Z.ltb Z.leb Z.compare].
  rewrite Z.pow_0_r, Z.mul_1_r, (proj2 (Z.leb_le _ _) Hz). f_equal.
  unfold neg. destruct (Z.ltb_spec z 0); lia.
Qed.

(** The first character of a printed value. *)
Lemma stringify_head v : exists c r, stringify v = c :: r /\ is_ws c = false /\ c <> ch_rbracket.
Proof.
  assert (Hnum : forall n, 0 <= n -> exists c r, to_base 10 n = c :: r /\ is_digit c = true).
  { intros n Hn. pose proof (to_base_10_digits n Hn) as Hd. pose proof (to_base_nonempty 10 ltac:(lia) n Hn).
    destruct (to_base 10 n) as [|c r]; [done|]. cbn in Hd. propify. eauto. }
  destruct v as [|[]|z|s|l|fs]; cbn [stringify]; try (by eexists _, _).
  unfold num_to_string. destruct (Z.ltb_spec z 0); [by eexists _, _|].
  destruct (Hnum z ltac:(lia)) as (c & r & -> & Hc). exists c, r. split; [done|].
  unfold is_digit, ch_in in Hc. propify. unfold ch_rbracket.
  split; [|lia]. unfold is_ws. rewrite !orb_false_iff, !Z.eqb_neq. lia.
Qed.

(** ** Reading undoes printing *)

Lemma whitespace_id c t : is_ws c = false -> whitespace (c :: t) = c :: t.
Proof. cbn. by intros ->. Qed.

Lemma value_scalar n d c r :
  (d <= 64)%nat -> is_ws c = false -> c <> ch_quote -> c <> ch_lbrace -> c <> ch_lbracket ->
  value (S n) d (c :: r) = scalar (c :: r).
Proof.
  intros Hd Hw H1 H2 H3. cbn [value].
  rewrite (proj2 (Nat.ltb_ge 64 d) Hd), whitespace_id, (proj2 (Z.eqb_neq c _) H1), (proj2 (Z.eqb_neq c _) H2), (proj2 (Z.eqb_neq c _) H3) by done.
  done.
Qed.

Lemma scalar_number z rest :
  Z.abs z <= MAX_COUNTER -> delimited rest -> scalar (num_to_string z ++ rest) = Returns (JInt z, rest).
Proof.
  intros Hz Hr. destruct (scan_number_int z rest Hz Hr) as (t & E1 & E2). unfold scalar.
  assert (Hno : forall p, starts_with p (num_to_string z ++ rest) = true ->
    match p with [] => True | c :: _ => c = ch_dash \/ is_digit c = true end).
  { intros [|c p]; [done|]. unfold starts_with, num_to_string. destruct (Z.ltb_spec z 0); cbn [app take length].
    - unfold str_eqb. intros [= <- _]%bool_decide_eq_true. by left.
    - pose proof (to_base_10_digits z ltac:(lia)) as Hd. pose proof (to_base_nonempty 10 ltac:(lia) z ltac:(lia)).
      destruct (to_base 10 z) as [|x q]; [done|]. cbn [app take]. unfold str_eqb.
      intros [= <- _]%bool_decide_eq_true. cbn in Hd. propify. by right. }
  assert (Hs : forall p, (match p with [] => True | c :: _ => c = ch_dash \/ is_digit c = true end -> False) ->
    starts_with p (num_to_string z ++ rest) = false).
  { intros p Hp. destruct (starts_with p _) eqn:E; [|done]. by apply Hno in E. }
  rewrite !Hs by (cbn; by intros [?|?]). by rewrite E1, E2.
Qed.

Definition field_text (kv : jsstr * json) : jsstr := quote kv.1 ++ ch_colon :: stringify kv.2.

Lemma stringify_obj fs : stringify (JObj fs) = ch_lbrace :: join [ch_comma] (map field_text fs) ++ [ch_rbrace].
Proof. cbn [stringify]. do 3 f_equal. apply map_ext. by intros []. Qed.

(** [value] reads [v] back from its text, whatever delimits it. *)
Definition reads (v : json) : Prop := forall fuel d rest,
  delimited rest -> (nest v + d <= 64)%nat -> (2 * length (stringify v ++ rest) < fuel)%nat ->
  value fuel d (stringify v ++ rest) = Returns (v, rest).

(** The punctuation the printer puts between tokens, as the reader meets it. *)
Lemma eat_same c r : c ∈ [ch_quote; ch_colon; ch_comma; ch_rbrace; ch_rbracket] -> eat c (whitespace (c :: r)) = Some r.
Proof. rewrite !elem_of_cons. intros [->|[->|[->|[->|[->|H]]]]]; [done..|]. by apply elem_of_nil in H. Qed.

Lemma eat_comma_brace r : eat ch_rbrace (whitespace (ch_comma :: r)) = None.
Proof. done. Qed.

Lemma eat_comma_bracket r : eat ch_rbracket (whitespace (ch_comma :: r)) = None.
Proof. done. Qed.

Lemma join_tail (x : jsstr) xs rest :
  join [ch_comma] (x :: xs) ++ rest = x ++ match xs with [] => rest | _ => ch_comma :: join [ch_comma] xs ++ rest end.
Proof. destruct xs as [|y ys]; [done|]. rewrite join_cons2, <- !app_assoc. done. Qed.

Lemma elements_reads l : Forall reads l -> l <> [] -> forall fuel d rest acc,
  (nest (JArr l) + d <= 64)%nat ->
  (2 * length (join [ch_comma] (map stringify l) ++ ch_rbracket :: rest) + 1 < fuel)%nat ->
  elements fuel d (join [ch_comma] (map stringify l) ++ ch_rbracket :: rest) acc = Returns (JArr (acc ++ l), rest).
Proof.
  induction 1 as [|v l Hv Hl IH]; [done|]. intros _ fuel d rest acc Hn Hf.
  destruct fuel as [|fuel]; [lia|]. cbn [map] in *. rewrite join_tail in *.
  cbn [elements nest foldr] in *. rewrite length_app in Hf.
  rewrite Hv; [|by destruct l; cbn; auto|lia|rewrite length_app; lia]. cbn [mbind outcome_bind].
  destruct l as [|w l]; cbn [map] in *.
  - done.
  - rewrite eat_comma_bracket, eat_same by set_solver.
    change (stringify w :: map stringify l) with (map stringify (w :: l)).
    rewrite IH; [by rewrite <- app_assoc|done|cbn [nest foldr] in *; lia|].
    cbn [length] in Hf. cbn [map]. lia.
Qed.

Lemma members_reads fs : Forall (fun kv => str_ok kv.1 /\ reads kv.2) fs -> fs <> [] -> forall fuel d rest acc,
  (nest (JObj fs) + d <= 64)%nat -> NoDup (map fst (acc ++ fs)) ->
  (2 * length (join [ch_comma] (map field_text fs) ++ ch_rbrace :: rest) + 1 < fuel)%nat ->
  members fuel d (join [ch_comma] (map field_text fs) ++ ch_rbrace :: rest) acc =
  Returns (JObj (enum_order (acc ++ fs)), rest).
Proof.
  induction 1 as [|[k v] fs [Hk Hv] Hfs IH]; [done|]. intros _ fuel d rest acc Hn Hdup Hf. cbn [fst snd] in *.
  destruct fuel as [|fuel]; [lia|]. cbn [map] in *. rewrite join_tail in *.
  rewrite length_app in Hf. unfold field_text at 1 in Hf. unfold field_text at 1. cbn [fst snd] in *.
  unfold quote in *. cbn [nest foldr snd] in Hn.
  set (more := match map field_text fs with [] => _ | _ => _ end) in *.
  assert (Hmore : delimited more) by (unfold more; destruct fs; cbn; auto).
  rewrite <- !app_assoc, <- app_comm_cons. cbn [members].
  rewrite eat_same by set_solver. rewrite <- app_assoc. cbn [app]. rewrite string_literal_escape by done. cbn [mbind outcome_bind].
  rewrite (proj2 (includes_false (map fst acc) k)).
  2:{ rewrite map_app in Hdup. cbn in Hdup. apply NoDup_app in Hdup as (_ & Hd & _). intros Hin. apply (Hd k Hin). left. }
  rewrite eat_same by set_solver.
  rewrite <- ?app_assoc, <- ?app_comm_cons. rewrite !length_app in Hf. cbn [length] in Hf. rewrite !length_app in Hf.
  rewrite Hv; [|done|lia|rewrite length_app; cbn [length] in *; lia]. cbn [mbind outcome_bind].
  destruct fs as [|kv fs].
  - done.
  - unfold more. cbn [map]. rewrite eat_comma_brace, eat_same by set_solver.
    change (field_text kv :: map field_text fs) with (map field_text (kv :: fs)).
    rewrite IH; [by rewrite <- app_assoc|done|cbn [nest foldr] in *; lia|by rewrite <- app_assoc|].
    unfold more in Hf. cbn [map length] in Hf |- *. lia.
Qed.

Lemma reads_int z : Z.abs z <= MAX_COUNTER -> reads (JInt z).
Proof.
  intros Hz [|fuel] d rest Hr Hd Hf; [lia|]. cbn [stringify nest] in *.
  destruct (stringify_head (JInt z)) as (c & r & E & Hw & _). cbn [stringify] in E.
  rewrite <- (scalar_number z rest) by done. rewrite E in *. cbn [app].
  assert (Hc : c = ch_dash \/ is_digit c = true).
  { unfold num_to_string in E. destruct (Z.ltb_spec z 0); [injection E as <- _; by left|].
    pose proof (to_base_10_digits z ltac:(lia)) as Hdd. rewrite E in Hdd. cbn in Hdd. propify. by right. }
  apply value_scalar; [lia|done|by intros ->; destruct Hc..].
Qed.

Lemma reads_str s : str_ok s -> reads (JStr s).
Proof.
  intros Hs [|fuel] d rest Hr Hd Hf; [lia|]. cbn [stringify nest value] in *. unfold quote. cbn [app].
  rewrite (proj2 (Nat.ltb_ge 64 d)), whitespace_id by (done || lia). cbv iota.
  rewrite Z.eqb_refl, <- app_assoc. cbn [app]. by rewrite string_literal_escape.
Qed.

Lemma reads_arr l : Forall reads l -> reads (JArr l).
Proof.
  intros Hl [|fuel] d rest Hr Hd Hf; [lia|]. cbn [stringify] in Hf |- *.
  rewrite <- app_comm_cons, <- app_assoc in Hf |- *. cbn [length app] in Hf |- *.
  cbn [value]. rewrite (proj2 (Nat.ltb_ge 64 d)), whitespace_id by (done || cbn [nest] in Hd; lia). cbv iota.
  change (ch_lbracket =? ch_quote) with false. change (ch_lbracket =? ch_lbrace) with false.
  rewrite Z.eqb_refl. cbv iota. destruct l as [|w l]; [done|].
  set (body := join [ch_comma] (map stringify (w :: l)) ++ ch_rbracket :: rest) in *.
  assert (Hbody : whitespace body = body /\ eat ch_rbracket body = None).
  { destruct (stringify_head w) as (c & r & E & Hw & Hc). unfold body. cbn [map]. rewrite join_tail, E. cbn [app].
    split; [by apply whitespace_id|]. cbn. by rewrite (proj2 (Z.eqb_neq c ch_rbracket)). }
  destruct Hbody as [-> ->]. unfold body. by rewrite elements_reads by (done || fold body; lia).
Qed.

Lemma reads_obj fs :
  Forall (fun kv => str_ok kv.1 /\ reads kv.2) fs -> NoDup (map fst fs) -> enum_order fs = fs -> reads (JObj fs).
Proof.
  intros Hfs Hdup Henum [|fuel] d rest Hr Hd Hf; [lia|]. rewrite stringify_obj in Hf |- *.
  rewrite <- app_comm_cons, <- app_assoc in Hf |- *. cbn [length app] in Hf |- *.
  cbn [value]. rewrite (proj2 (Nat.ltb_ge 64 d)), whitespace_id by (done || cbn [nest] in Hd; lia). cbv iota.
  change (ch_lbrace =? ch_quote) with false. rewrite Z.eqb_refl. cbv iota.
  destruct fs as [|[k w] fs]; [done|].
  set (body := join [ch_comma] (map field_text ((k, w) :: fs)) ++ ch_rbrace :: rest) in *.
  assert (Hbody : whitespace body = body /\ eat ch_rbrace body = None).
  { unfold body. cbn [map]. by rewrite join_tail. }
  destruct Hbody as [-> ->]. unfold body.
  rewrite members_reads by (done || fold body; lia). cbn [app]. congruence.
Qed.

Lemma stringify_reads v : json_ok v -> reads v.
Proof.
  induction v as [|b|z|s|l IH|fs IH] using json_nested_ind; inversion 1; subst.
  - intros [|fuel] d rest _ Hd Hf; [lia|]. by apply (value_scalar fuel d 110).
  - intros [|fuel] d rest _ Hd Hf; [lia|].
    destruct b; [by apply (value_scalar fuel d 116)|by apply (value_scalar fuel d 102)].
  - by apply reads_int.
  - by apply reads_str.
  - apply reads_arr. eapply Forall_impl; [|by intros x Hx; exact Hx].
    rewrite !Forall_forall in *. auto.
  - apply reads_obj; [|done..]. rewrite !Forall_forall in *. intros kv Hin.
    match goal with H : forall x, x ∈ _ -> str_ok _ /\ _ |- _ => destruct (H kv Hin) end. auto.
Qed.

(** ** What the reader returns, and that it always returns *)

Lemma whitespace_length s : (length (whitespace s) <= length s)%nat.
Proof. induction s as [|x s IH]; cbn; [lia|]. destruct (is_ws x); cbn; lia. Qed.

Lemma eat_length c s r : eat c s = Some r -> length s = S (length r).
Proof. destruct s as [|x s]; cbn; [done|]. destruct (x =? c); [|done]. by intros [= ->]. Qed.

Lemma eat_ws_length c s r : eat c (whitespace s) = Some r -> (length r < length s)%nat.
Proof. intros H%eat_length. pose proof (whitespace_length s). lia. Qed.

Lemma scan_string_length s b t : scan_string s = Some (b, t) -> (length t < length s)%nat.
Proof.
  revert b t. induction s as [s IH] using (induction_ltof1 _ (@length Z)). unfold ltof in IH.
  intros b t. destruct s as [|c r]; cbn; [done|].
  destruct (c =? ch_backslash).
  - destruct r as [|e r]; [done|]. destruct (scan_string r) as [[b' t']|] eqn:E; [|done].
    intros [= _ <-]. apply IH in E; cbn in *; lia.
  - destruct (c =? ch_quote); [intros [= _ <-]; cbn; lia|].
    destruct (scan_string r) as [[b' t']|] eqn:E; [|done].
    intros [= _ <-]. apply IH in E; cbn in *; lia.
Qed.

Lemma of_base_16_nonneg s : forallb is_hex s = true -> 0 <= of_base 16 s.
Proof. intros H. apply of_base_16_bound in H. lia. Qed.

Lemma decode_string_nonneg s r : decode_string s = Some r -> nonneg r.
Proof.
  revert r. induction s as [s IH] using (induction_ltof1 _ (@length Z)). unfold ltof in IH.
  intros r. destruct s as [|c s]; cbn [decode_string]; [intros [= <-]; constructor|].
  assert (Hstep : forall k t, 0 <= k -> (length t < length (c :: s))%nat ->
    cons k <$> decode_string t = Some r -> nonneg r).
  { intros k t Hk Hl E. destruct (decode_string t) eqn:Et; [|done]. injection E as <-.
    constructor; [done|]. by eapply IH. }
  destruct (c =? ch_backslash).
  - destruct s as [|e s]; [done|]. destruct (e =? 117).
    + do 4 (destruct s as [|? s]; [done|]). destruct (forallb is_hex _) eqn:Eh; [|done].
      apply Hstep; [by apply of_base_16_nonneg|cbn; lia].
    + destruct (unescape e) as [k|] eqn:Eu; [|done]. apply Hstep; [|cbn; lia].
      unfold unescape in Eu. repeat (case_match; [by injection Eu as <-|]). done.
  - destruct ((c <? 32) || (c =? ch_quote)) eqn:E; [done|]. apply Hstep; [propify; lia|cbn; lia].
Qed.

Lemma string_literal_ok s x t : string_literal s = Returns (x, t) -> str_ok x /\ (length t < length s)%nat.
Proof.
  unfold string_literal. destruct (scan_string s) as [[b u]|] eqn:E1; [|done].
  destruct (decode_string b) as [y|] eqn:E2; [|done]. destruct (utf16_ok y) eqn:E3; [|done].
  intros [= <- <-]. split; [split; [done|by eapply decode_string_nonneg]|by eapply scan_string_length].
Qed.

Lemma span_digits_spec s d t : span_digits s = (d, t) -> s = d ++ t /\ forallb is_digit d = true.
Proof.
  revert d t. induction s as [|c s IH]; cbn; intros d t; [by intros [= <- <-]|].
  destruct (is_digit c) eqn:E; [|by intros [= <- <-]].
  destruct (span_digits s) as [d' t'] eqn:Es. intros [= <- <-].
  destruct (IH _ _ eq_refl) as [-> Hd]. cbn. by rewrite E, Hd.
Qed.

Lemma scan_int_ok s i t : scan_int s = Some (i, t) -> (length t < length s)%nat /\ forallb is_digit i = true.
Proof.
  unfold scan_int. destruct (eat 48 s) as [r|] eqn:E.
  { intros [= <- <-]. apply eat_length in E. split; [lia|done]. }
  destruct s as [|c s]; [done|]. destruct (ch_in 49 57 c) eqn:Ec; [|done].
  assert (Hc : is_digit c = true) by (unfold is_digit, ch_in in *; propify; rewrite andb_true_iff, !Z.leb_le; lia).
  cbn [span_digits]. rewrite Hc. destruct (span_digits s) as [d u] eqn:Es. intros [= <- <-].
  apply span_digits_spec in Es as [-> Hd]. cbn [length forallb]. rewrite length_app, Hc, Hd. split; [lia|done].
Qed.

Lemma scan_frac_ok s f t : scan_frac s = (f, t) -> (length t <= length s)%nat /\ forallb is_digit f = true.
Proof.
  unfold scan_frac. destruct (eat 46 s) as [r|] eqn:E; [|by intros [= <- <-]].
  apply eat_length in E. destruct (span_digits r) as [d u] eqn:Es. apply span_digits_spec in Es as [-> Hd].
  rewrite length_app in E. destruct d as [|x d]; intros [= <- <-]; [done|]. split; [cbn in E; lia|done].
Qed.

Lemma scan_exp_length s e t : scan_exp s = (e, t) -> (length t <= length s)%nat.
Proof.
  unfold scan_exp. destruct s as [|c r]; [by intros [= <- <-]|].
  destruct (_ || _); [|by intros [= <- <-]].
  destruct (scan_sign r) as [neg r'] eqn:Er.
  assert (Hl : (length r' <= length r)%nat).
  { unfold scan_sign in Er. destruct (eat 43 r) eqn:E1; [apply eat_length in E1; injection Er as <- <-; lia|].
    destruct (eat 45 r) eqn:E2; [apply eat_length in E2|]; injection Er as <- <-; lia. }
  destruct (span_digits r') as [d u] eqn:Es. apply span_digits_spec in Es as [-> Hd].
  rewrite length_app in Hl. destruct d; intros [= <- <-]; cbn [length] in *; lia.
Qed.

Lemma scan_number_ok s t r :
  scan_number s = Some (t, r) -> (length r < length s)%nat /\ forallb is_digit (nt_int t ++ nt_frac t) = true.
Proof.
  unfold scan_number.
  set (p := match eat 45 s with Some r => (true, r) | None => (false, s) end).
  assert (Hp : (length p.2 <= length s)%nat).
  { unfold p. destruct (eat 45 s) eqn:E; cbn; [apply eat_length in E|]; lia. }
  destruct p as [neg s1]. cbn [snd] in Hp.
  destruct (scan_int s1) as [[i s2]|] eqn:E1; [|done]. destruct (scan_frac s2) as [f s3] eqn:E2.
  destruct (scan_exp s3) as [e s4] eqn:E3. intros [= <- <-].
  apply scan_int_ok in E1 as [? Hi]. apply scan_frac_ok in E2 as [? Hf]. apply scan_exp_length in E3.
  cbn. rewrite forallb_app, Hi, Hf. split; [lia|done].
Qed.

Lemma safe_integer_bound t z :
  forallb is_digit (nt_int t ++ nt_frac t) = true -> safe_integer t = Some z -> Z.abs z <= MAX_COUNTER.
Proof.
  intros Hd%of_base_10_nonneg. unfold safe_integer. cbv zeta.
  assert (Hs : forall c, 0 <= c -> c <= MAX_COUNTER -> Some (if nt_negative t then - c else c) = Some z -> Z.abs z <= MAX_COUNTER).
  { intros c H0 H1 [= <-]. destruct (nt_negative t); lia. }
  destruct (128 <? _)%nat; [done|]. destruct (_ =? 0); [intros [= <-]; done|].
  set (scale := _ - Z.of_nat _). destruct (128 <? Z.abs scale); [done|].
  destruct (Z.leb_spec 0 scale).
  - destruct (16 <? scale); [done|]. destruct (_ <=? MAX_COUNTER) eqn:E; [|done]. propify.
    apply Hs; [|done]. assert (0 <= 10 ^ scale) by (apply Z.pow_nonneg; lia). nia.
  - destruct (negb _); [done|]. destruct (_ <=? MAX_COUNTER) eqn:E; [|done]. propify.
    apply Hs; [|done]. apply Z.div_pos; [done|]. apply Z.pow_pos_nonneg; lia.
Qed.

Lemma scalar_ok s v r : scalar s = Returns (v, r) -> json_ok v /\ nest v = 0%nat /\ (length r < length s)%nat.
Proof.
  assert (Hpre : forall p, starts_with p s = true -> (length p <= length s)%nat).
  { intros p. unfold starts_with, str_eqb. intros E%bool_decide_eq_true. rewrite <- E, length_take. lia. }
  unfold scalar.
  destruct (starts_with (js "true") s) eqn:E1.
  { intros [= <- <-]. apply Hpre in E1. change (4 <= length s)%nat in E1. rewrite length_drop. split_and!; [constructor|done|lia]. }
  destruct (starts_with (js "false") s) eqn:E2.
  { intros [= <- <-]. apply Hpre in E2. change (5 <= length s)%nat in E2. rewrite length_drop. split_and!; [constructor|done|lia]. }
  destruct (starts_with (js "null") s) eqn:E3.
  { intros [= <- <-]. apply Hpre in E3. change (4 <= length s)%nat in E3. rewrite length_drop. split_and!; [constructor|done|lia]. }
  destruct (scan_number s) as [[t u]|] eqn:E4; [|done]. destruct (safe_integer t) as [z|] eqn:E5; [|done].
  intros [= <- <-]. apply scan_number_ok in E4 as [? ?]. split_and!; [constructor|done|done]. by eapply safe_integer_bound.
Qed.

(** The good outcomes of a reader started at depth [d] on [s]: it does not run out
    of fuel, and a result is a value of [json_ok] within the depth limit that
    consumed some input. *)
Definition good (d : nat) (s : jsstr) (o : outcome (json * jsstr)) : Prop :=
  o <> Throws out_of_fuel /\
  forall v r, o = Returns (v, r) -> json_ok v /\ (nest v + d <= 64)%nat /\ (length r < length s)%nat.

Lemma good_throws d s e : e <> out_of_fuel -> good d s (Throws e).
Proof. intros H. split; [congruence|done]. Qed.

Lemma good_bind {A} d s (m : outcome A) f :
  m <> Throws out_of_fuel -> (forall a, m = Returns a -> good d s (f a)) -> good d s (m ≫= f).
Proof. intros H1 H2. destruct m; cbn; [by apply H2|]. split; [congruence|done]. Qed.

Lemma good_shrink d s s' o : (length s' <= length s)%nat -> good d s' o -> good d s o.
Proof. intros Hl [H1 H2]. split; [done|]. intros v r E. destruct (H2 v r E) as (? & ? & ?). split_and!; [done..|lia]. Qed.

Lemma string_literal_no_fuel s : string_literal s <> Throws out_of_fuel.
Proof. unfold string_literal. repeat case_match; discriminate. Qed.

Lemma scalar_good d s : (d <= 64)%nat -> good d s (scalar s).
Proof.
  intros Hd. split; [unfold scalar; repeat case_match; discriminate|].
  intros v r (H1 & H2 & H3)%scalar_ok. split_and!; [done|lia|done].
Qed.

Lemma nest_arr_bound l k : Forall (fun v => (S (nest v) <= k)%nat) l -> (nest (JArr l) <= k)%nat.
Proof. induction 1; cbn [nest foldr] in *; lia. Qed.

Lemma nest_obj_bound fs k : Forall (fun kv : jsstr * json => (S (nest kv.2) <= k)%nat) fs -> (nest (JObj fs) <= k)%nat.
Proof. induction 1; cbn [nest foldr] in *; lia. Qed.

Lemma arr_good d s r l :
  (d <= 64)%nat -> (length r < length s)%nat ->
  Forall (fun v => json_ok v /\ (nest v + S d <= 64)%nat) l -> good d s (Returns (JArr l, r)).
Proof.
  intros Hd Hr Hl. split; [done|]. intros v t [= <- <-]. split_and!; [|  |done].
  - constructor. eapply Forall_impl; [exact Hl|]. by intros ? [? _].
  - assert (nest (JArr l) <= 64 - d)%nat; [|lia]. apply nest_arr_bound.
    eapply Forall_impl; [exact Hl|]. cbn. intros v [_ ?]. lia.
Qed.

Definition member_ok (d : nat) (kv : jsstr * json) : Prop :=
  str_ok kv.1 /\ json_ok kv.2 /\ (nest kv.2 + S d <= 64)%nat.

Lemma obj_good d s r fs :
  (d <= 64)%nat -> (length r < length s)%nat ->
  Forall (member_ok d) fs -> NoDup (map fst fs) -> good d s (Returns (JObj (enum_order fs), r)).
Proof.
  intros Hd Hr Hl Hdup. pose proof (enum_order_perm fs) as Hp. rewrite <- Hp in Hl.
  assert (Hdup' : NoDup (map fst (enum_order fs))) by (eapply NoDup_Permutation_proper; [apply fmap_Permutation, Hp|done]).
  split; [done|]. intros v t [= <- <-]. split_and!; [| |done].
  - constructor; [|done|apply enum_order_idem]. eapply Forall_impl; [exact Hl|]. by intros ? (? & ? & _).
  - assert (nest (JObj (enum_order fs)) <= 64 - d)%nat; [|lia]. apply nest_obj_bound.
    eapply Forall_impl; [exact Hl|]. intros v (_ & _ & ?). lia.
Qed.

Lemma reader_good n :
  (forall d s, (2 * length s < n)%nat -> good d s (value n d s)) /\
  (forall d s acc, (d <= 64)%nat -> (2 * length s + 1 < n)%nat -> Forall (member_ok d) acc -> NoDup (map fst acc) ->
     good d s (members n d s acc)) /\
  (forall d s acc, (d <= 64)%nat -> (2 * length s + 1 < n)%nat ->
     Forall (fun v => json_ok v /\ (nest v + S d <= 64)%nat) acc -> good d s (elements n d s acc)).
Proof.
  induction n as [|n (IHv & IHm & IHe)]; [split_and!; intros; lia|]. split_and!.
  - intros d s Hf. cbn [value]. destruct (64 <? d)%nat eqn:Ed; [by apply good_throws|]. propify.
    apply (good_shrink d s (whitespace s)); [apply whitespace_length|]. pose proof (whitespace_length s).
    destruct (whitespace s) as [|c r] eqn:Ew; [by apply good_throws|]. cbn [length] in *.
    pose proof (whitespace_length r).
    destruct (c =? ch_quote).
    { apply good_bind; [apply string_literal_no_fuel|]. intros [x t] [Hx Ht]%string_literal_ok.
      split; [done|]. intros v u [= <- <-]. cbn. split_and!; [by constructor|lia|lia]. }
    destruct (c =? ch_lbrace).
    { destruct (eat ch_rbrace (whitespace r)) eqn:E.
      - apply eat_ws_length in E. apply (obj_good d _ _ []); [done|cbn; lia|constructor..].
      - apply (good_shrink _ _ (whitespace r)); [cbn; lia|]. apply IHm; [done|lia|constructor..]. }
    destruct (c =? ch_lbracket); [|by apply scalar_good].
    destruct (eat ch_rbracket (whitespace r)) eqn:E.
    + apply eat_ws_length in E. apply arr_good; [done|cbn; lia|constructor].
    + apply (good_shrink _ _ (whitespace r)); [cbn; lia|]. apply IHe; [done|lia|constructor].
  - intros d s acc Hd Hf Hacc Hdup. cbn [members].
    destruct (eat ch_quote (whitespace s)) as [r|] eqn:E0; [|by apply good_throws]. apply eat_ws_length in E0.
    apply good_bind; [apply string_literal_no_fuel|]. intros [key r1] [Hkey Hr1]%string_literal_ok.
    destruct (includes (map fst acc) key) eqn:Edup; [by apply good_throws|]. apply includes_false in Edup.
    destruct (eat ch_colon (whitespace r1)) as [r2|] eqn:E1; [|by apply good_throws]. apply eat_ws_length in E1.
    destruct (IHv (S d) r2 ltac:(lia)) as [Hnf Hok].
    apply good_bind; [done|]. intros [v r3] (Hv & Hn & Hr3)%Hok.
    assert (Hacc' : Forall (member_ok d) (acc ++ [(key, v)])) by (apply Forall_app; split; [done|by apply Forall_singleton]).
    assert (Hdup' : NoDup (map fst (acc ++ [(key, v)]))).
    { rewrite map_app. cbn. apply NoDup_app. split_and!; [done| |apply NoDup_singleton].
      intros x Hx ->%list_elem_of_singleton. done. }
    destruct (eat ch_rbrace (whitespace r3)) eqn:E2; [apply eat_ws_length in E2; apply obj_good; [done|lia|done..]|].
    destruct (eat ch_comma (whitespace r3)) as [r4|] eqn:E3; [|by apply good_throws]. apply eat_ws_length in E3.
    apply (good_shrink _ _ r4); [lia|]. apply IHm; [done|lia|done..].
  - intros d s acc Hd Hf Hacc. cbn [elements]. destruct (IHv (S d) s ltac:(lia)) as [Hnf Hok].
    apply good_bind; [done|]. intros [v r1] (Hv & Hn & Hr1)%Hok.
    assert (Hacc' : Forall (fun v => json_ok v /\ (nest v + S d <= 64)%nat) (acc ++ [v]))
      by (apply Forall_app; split; [done|by apply Forall_singleton]).
    destruct (eat ch_rbracket (whitespace r1)) eqn:E2; [apply eat_ws_length in E2; apply arr_good; [done|lia|done]|].
    destruct (eat ch_comma (whitespace r1)) as [r2|] eqn:E3; [|by apply good_throws]. apply eat_ws_length in E3.
    apply (good_shrink _ _ r2); [lia|]. apply IHe; [done|lia|done].
Qed.

Lemma parseJson_no_fuel raw maxBytes : parseJson raw maxBytes <> Throws out_of_fuel.
Proof.
  unfold parseJson, throw_if. destruct (_ <? _); cbn [mbind outcome_bind]; [discriminate|].
  destruct (proj1 (reader_good (S (2 * length raw))) 0%nat raw ltac:(lia)) as [H _].
  destruct (value _ _ _) as [[v r]|e]; cbn; [|by intros [= ->]]. by destruct (whitespace r).
Qed.

Lemma nest_obj_field fs k v : (k, v) ∈ fs -> (S (nest v) <= nest (JObj fs))%nat.
Proof.
  intros Hin. cbn [nest]. induction fs as [|[k' w] r IH]; [by apply not_elem_of_nil in Hin|].
  apply elem_of_cons in Hin as [[= <- <-]|Hin]; cbn in *; [lia|]. specialize (IH Hin). lia.
Qed.

Lemma nest_arr_item l v : v ∈ l -> (S (nest v) <= nest (JArr l))%nat.
Proof. intros Hin. cbn [nest]. induction Hin; cbn in *; lia. Qed.

Lemma parseJson_print v maxBytes :
  json_ok v -> (nest v <= 64)%nat -> utf8_length (stringify v) <= maxBytes ->
  parseJson (stringify v) maxBytes = Returns v.
Proof.
  intros Hok Hn Hb. unfold parseJson, throw_if. rewrite (proj2 (Z.ltb_ge _ _) Hb). cbn [mbind outcome_bind].
  pose proof (stringify_reads v Hok (S (2 * length (stringify v))) 0%nat [] I ltac:(lia)) as H.
  rewrite app_nil_r in H. by rewrite H by lia.
Qed.

Lemma parseJson_accepts raw maxBytes v : parseJson raw maxBytes = Returns v ->
  json_ok v /\ (nest v <= 64)%nat /\ utf8_length raw <= maxBytes.
Proof.
  intros H. unfold parseJson in H. run_inv. propify.
  destruct a0 as [w rest].
  destruct (proj1 (reader_good (S (2 * length raw))) 0%nat raw ltac:(lia)) as [_ Hg].
  destruct (Hg w rest ltac:(done)) as (Hw & Hn & _).
  destruct (whitespace rest); [|done]. injection H as <-. split_and!; [done|lia|done].
Qed.



