(* ===== verification/Forward.v ===== *)
(** packages/core/src/forward.ts and types.ts: the canonical parser of Forward
    intent and the pure compare-and-set decision on it.

    [parseForwardSpec] takes an [unknown] value ([jsv]) and collects every issue, in
    the order of the source.  The theorems: what it returns is canonical (a
    well-formed spec that parses back to itself), every well-formed spec is
    accepted, and [decideForwardChange] is a compare-and-set that advances the
    revision by one exactly when the canonical spec changes. *)

From S2P Require Export Json.

Local Open Scope Z_scope.

(** ** types.ts *)

Inductive NetworkProtocol := tcp | udp.

#[export] Instance NetworkProtocol_eq_dec : EqDecision NetworkProtocol.
Proof. solve_decision. Defined.

Record ListenEndpoint := Listen { address : jsstr; listen_port : Z }.
Record TargetEndpoint := Target { host : jsstr; target_port : Z }.
Record TransportRef := Transport { profileId : jsstr; configRevision : Z }.

Record ForwardSpec := MkSpec {
  enabled : bool;
  protocols : list NetworkProtocol;
  ingress_nodeId : jsstr;
  ingress_listen : ListenEndpoint;
  target : TargetEndpoint;
  path_via : option (list jsstr);      (** path?: { via } *)
  transport : option TransportRef;
}.

Record Forward := MkForward { id : jsstr; scopeId : jsstr; revision : Z; spec : ForwardSpec }.
Record Node := MkNode { node_id : jsstr; node_scopeId : jsstr; node_revision : Z }.

Record Issue := MkIssue { issue_code : string; issue_path : jsstr; issue_message : string }.

Inductive Result (A : Type) := Ok (a : A) | Err (errors : list Issue).
Arguments Ok {A} a.
Arguments Err {A} errors.

(** ** Reading fields *)

Definition issue (path : jsstr) (m : string) : Issue := MkIssue "INVALID_CONFIG" path m.

(** [record(input, keys, path, errors)]: the own fields and the issues pushed. *)
Definition record (input : jsv) (keys : list jsstr) (path : jsstr) : list (jsstr * jsv) * list Issue :=
  match as_object input with
  | None => ([], [issue path "Expected an object"])
  | Some obj =>
      (obj, map (fun key => issue (path ++ js "." ++ key) "Unknown field")
                (filter (fun key => includes keys key = false) (Object_keys obj)))
  end.

Definition check (condition : bool) (path : jsstr) (m : string) : list Issue :=
  if condition then [] else [issue path m].

(** A checked field as the value the type assertions of the source assume. *)
Definition the_string (v : jsv) : jsstr := default [] (as_string v).
Definition the_int (v : jsv) : Z := default 0 (as_int v).
Definition the_bool (v : jsv) : bool := match v with Bool b => b | _ => false end.

Definition protocol_name (p : NetworkProtocol) : jsstr := match p with tcp => js "tcp" | udp => js "udp" end.

Definition is_protocol (v : jsv) : bool := jsv_eqb v (Str (js "tcp")) || jsv_eqb v (Str (js "udp")).

(** ** parseForwardSpec *)

Definition parse_via (spec : list (jsstr * jsv)) (nodeId : jsv) : option (list jsstr) * list Issue :=
  if hasOwn spec (js "path") then
    let '(path, e1) := record (get spec (js "path")) [js "via"] (js "spec.path") in
    let via := get path (js "via") in
    let ok := match as_array via with Some l => forallb isId l | None => false end in
    let e2 := check ok (js "spec.path.via") "Expected Node ID array" in
    if ok then
      let l := default [] (as_array via) in
      (Some (map the_string l),
       e1 ++ e2 ++ check (distinct l && negb (includes l nodeId)) (js "spec.path.via") "Repeated or cyclic Node path")
    else (None, e1 ++ e2)
  else (None, []).

Definition parse_transport (spec : list (jsstr * jsv)) : option TransportRef * list Issue :=
  if hasOwn spec (js "transport") then
    let '(ref, e1) := record (get spec (js "transport")) [js "profileId"; js "configRevision"] (js "spec.transport") in
    let e2 := check (isId (get ref (js "profileId"))) (js "spec.transport.profileId") "Invalid Profile ID" in
    let e3 := check (isCounter (get ref (js "configRevision")) false) (js "spec.transport.configRevision") "Invalid Profile revision" in
    (Some (Transport (the_string (get ref (js "profileId"))) (the_int (get ref (js "configRevision")))), e1 ++ e2 ++ e3)
  else (None, []).

Definition nonempty_via (via : option (list jsstr)) : option (list jsstr) :=
  match via with Some [] => None | _ => via end.

Definition parseForwardSpec (input : jsv) : Result ForwardSpec :=
  let '(spec, e0) := record input [js "enabled"; js "protocols"; js "ingress"; js "target"; js "path"; js "transport"] (js "spec") in
  let enabled := get spec (js "enabled") in
  let e1 := check (match enabled with Bool _ => true | _ => false end) (js "spec.enabled") "Expected a boolean" in
  let protocols := default [] (as_array (get spec (js "protocols"))) in
  let e2 := check ((1 <=? length protocols)%nat && (length protocols <=? 2)%nat && forallb is_protocol protocols && distinct protocols)
                  (js "spec.protocols") "Expected a nonempty unique TCP/UDP set" in
  let '(ingress, e3) := record (get spec (js "ingress")) [js "nodeId"; js "listen"] (js "spec.ingress") in
  let nodeId := get ingress (js "nodeId") in
  let e4 := check (isId nodeId) (js "spec.ingress.nodeId") "Invalid Node ID" in
  let '(listen, e5) := record (get ingress (js "listen")) [js "address"; js "port"] (js "spec.ingress.listen") in
  let address := match get listen (js "address") with Str s => normalizeIp s | _ => None end in
  let e6 := check (bool_decide (is_Some address)) (js "spec.ingress.listen.address") "Expected an IP literal" in
  let port := get listen (js "port") in
  let e7 := check (isPort port) (js "spec.ingress.listen.port") "Expected port 1..65535" in
  let '(target, e8) := record (get spec (js "target")) [js "host"; js "port"] (js "spec.target") in
  let host := normalizeTargetHost (get target (js "host")) in
  let e9 := check (bool_decide (is_Some host)) (js "spec.target.host") "Invalid target IP or ASCII hostname" in
  let target_port := get target (js "port") in
  let e10 := check (isPort target_port) (js "spec.target.port") "Expected port 1..65535" in
  let '(via, e11) := parse_via spec nodeId in
  let '(transport, e12) := parse_transport spec in
  let e13 := check (Bool.eqb (bool_decide (is_Some (nonempty_via via))) (bool_decide (is_Some transport)))
                   (js "spec.transport") "A nonempty path requires a locked Profile; direct forbids a Profile" in
  match e0 ++ e1 ++ e2 ++ e3 ++ e4 ++ e5 ++ e6 ++ e7 ++ e8 ++ e9 ++ e10 ++ e11 ++ e12 ++ e13 with
  | [] => Ok (MkSpec (the_bool enabled)
                (filter (fun p => includes protocols (Str (protocol_name p)) = true) [tcp; udp])
                (the_string nodeId) (Listen (default [] address) (the_int port))
                (Target (default [] host) (the_int target_port))
                (nonempty_via via) transport)
  | errors => Err errors
  end.

Definition parseNode (input : jsv) : Result Node :=
  let '(node, e0) := record input [js "id"; js "scopeId"; js "revision"] (js "node") in
  let e1 := check (isId (get node (js "id"))) (js "node.id") "Invalid Node ID" in
  let e2 := check (isId (get node (js "scopeId"))) (js "node.scopeId") "Invalid Scope ID" in
  let e3 := check (isCounter (get node (js "revision")) false) (js "node.revision") "Invalid revision" in
  match e0 ++ e1 ++ e2 ++ e3 with
  | [] => Ok (MkNode (the_string (get node (js "id"))) (the_string (get node (js "scopeId"))) (the_int (get node (js "revision"))))
  | errors => Err errors
  end.

Definition parseForward (input : jsv) : Result Forward :=
  let '(forward, e0) := record input [js "id"; js "scopeId"; js "revision"; js "spec"] (js "forward") in
  let e1 := check (isId (get forward (js "id"))) (js "forward.id") "Invalid Forward ID" in
  let e2 := check (isId (get forward (js "scopeId"))) (js "forward.scopeId") "Invalid Scope ID" in
  let e3 := check (isCounter (get forward (js "revision")) false) (js "forward.revision") "Invalid revision" in
  let spec := parseForwardSpec (get forward (js "spec")) in
  match e0 ++ e1 ++ e2 ++ e3 ++ match spec with Ok _ => [] | Err es => es end, spec with
  | [], Ok s => Ok (MkForward (the_string (get forward (js "id"))) (the_string (get forward (js "scopeId")))
                      (the_int (get forward (js "revision"))) s)
  | errors, _ => Err errors
  end.

(** ** The canonical values as JSON *)

Fixpoint to_jsv (v : json) : jsv :=
  match v with
  | JNull => Null
  | JBool b => Bool b
  | JInt z => Num (NInt z)
  | JStr s => Str s
  | JArr l => Arr (map to_jsv l)
  | JObj fs => Obj (map (fun '(k, v) => (k, to_jsv v)) fs)
  end.

Definition spec_fields (s : ForwardSpec) : list (jsstr * json) :=
  [(js "enabled", JBool (enabled s));
   (js "protocols", JArr (map (fun p => JStr (protocol_name p)) (protocols s)));
   (js "ingress", JObj [(js "nodeId", JStr (ingress_nodeId s));
      (js "listen", JObj [(js "address", JStr (address (ingress_listen s))); (js "port", JInt (listen_port (ingress_listen s)))])]);
   (js "target", JObj [(js "host", JStr (host (target s))); (js "port", JInt (target_port (target s)))])] ++
  match path_via s with
  | None => []
  | Some via => [(js "path", JObj [(js "via", JArr (map JStr via))])]
  end ++
  match transport s with
  | None => []
  | Some t => [(js "transport", JObj [(js "profileId", JStr (profileId t)); (js "configRevision", JInt (configRevision t))])]
  end.

Definition spec_json (s : ForwardSpec) : json := JObj (spec_fields s).

Definition forward_json (f : Forward) : json :=
  JObj [(js "id", JStr (id f)); (js "scopeId", JStr (scopeId f)); (js "revision", JInt (revision f)); (js "spec", spec_json (spec f))].

(** ** decideForwardChange *)

(** [{ ...spec, enabled: v }] *)
Definition with_enabled (s : ForwardSpec) (v : jsv) : jsv :=
  match to_jsv (spec_json s) with
  | Obj (_ :: fs) => Obj ((js "enabled", v) :: fs)
  | o => o
  end.

Definition conflict : Issue := MkIssue "REVISION_CONFLICT" (js "expectedRevision") "Expected revision does not match".
Definition exhausted : Issue := MkIssue "REVISION_EXHAUSTED" (js "revision") "Revision counter exhausted".
Definition unknown_kind : Issue := issue (js "change.kind") "Unknown change kind".

Definition decideForwardChange (current expectedRevision change : jsv) : Result Forward :=
  match parseForward current with
  | Err es => Err es
  | Ok parsed =>
      if negb (isCounter expectedRevision false) || negb (jsv_eqb (Num (NInt (revision parsed))) expectedRevision)
      then Err [conflict] else
      let kind := match change with Obj fs => get fs (js "kind") | _ => Undefined end in
      let '(command, errors) := record change
        (if jsv_eqb kind (Str (js "replace")) then [js "kind"; js "spec"] else [js "kind"; js "enabled"]) (js "change") in
      let k := get command (js "kind") in
      if negb (jsv_eqb k (Str (js "replace"))) && negb (jsv_eqb k (Str (js "set-enabled"))) then Err [unknown_kind] else
      match errors with
      | _ :: _ => Err errors
      | [] =>
          match parseForwardSpec (if jsv_eqb k (Str (js "replace")) then get command (js "spec")
                                  else with_enabled (spec parsed) (get command (js "enabled"))) with
          | Err es => Err es
          | Ok next =>
              if str_eqb (stringify (spec_json (spec parsed))) (stringify (spec_json next)) then Ok parsed
              else if revision parsed =? MAX_COUNTER then Err [exhausted]
              else Ok (MkForward (id parsed) (scopeId parsed) (revision parsed + 1) next)
          end
      end
  end.

(** ** Well-formed specs *)

Definition protocols_wf (ps : list NetworkProtocol) : Prop := ps = [tcp] \/ ps = [udp] \/ ps = [tcp; udp].

Definition via_wf (node : jsstr) (via : list jsstr) : Prop :=
  via <> [] /\ Forall (fun n => is_id n = true) via /\ NoDup via /\ node ∉ via.

Definition transport_wf (t : TransportRef) : Prop := is_id (profileId t) = true /\ is_counter false (configRevision t) = true.

Record spec_wf (s : ForwardSpec) : Prop := {
  wf_protocols : protocols_wf (protocols s);
  wf_node : is_id (ingress_nodeId s) = true;
  wf_address : normalizeIp (address (ingress_listen s)) = Some (address (ingress_listen s));
  wf_listen_port : is_port (listen_port (ingress_listen s)) = true;
  wf_host : normalize_target_host (host (target s)) = Some (host (target s));
  wf_target_port : is_port (target_port (target s)) = true;
  wf_via : forall via, path_via s = Some via -> via_wf (ingress_nodeId s) via;
  wf_transport : forall t, transport s = Some t -> transport_wf t;
  wf_locked : is_Some (path_via s) <-> is_Some (transport s);
}.

Record forward_wf (f : Forward) : Prop := {
  wf_id : is_id (id f) = true;
  wf_scope : is_id (scopeId f) = true;
  wf_revision : is_counter false (revision f) = true;
  wf_spec : spec_wf (spec f);
}.

(** ** Lemmas on the readers *)

Lemma check_nil c p m : check c p m = [] <-> c = true.
Proof. unfold check. destruct c; naive_solver. Qed.

Lemma isId_inv v : isId v = true -> exists s, v = Str s /\ is_id s = true.
Proof. destruct v; try done. cbn. eauto. Qed.

Lemma isPort_inv v : isPort v = true -> exists z, v = Num (NInt z) /\ is_port z = true.
Proof. destruct v as [| | |[]| | |]; try done. cbn. eauto. Qed.

Lemma isCounter_inv v z0 : isCounter v z0 = true -> exists z, v = Num (NInt z) /\ is_counter z0 z = true.
Proof. destruct v as [| | |[]| | |]; try done. cbn. eauto. Qed.

Lemma isIds_inv l : forallb isId l = true ->
  exists via, l = map Str via /\ map the_string l = via /\ Forall (fun n => is_id n = true) via.
Proof.
  induction l as [|v l IH]; cbn; [exists []; repeat split; constructor|]. intros H. propify.
  apply isId_inv in H as (s & -> & Hs). destruct (IH H0) as (via & -> & E & Hv).
  exists (s :: via). cbn. rewrite E. split_and!; [done|done|by constructor].
Qed.

Lemma NoDup_Str via : NoDup (map Str via) <-> NoDup via.
Proof. split; [apply NoDup_fmap_1|apply NoDup_fmap_2]. by intros x y [= ->]. Qed.

Lemma elem_of_Str x via : Str x ∈ map Str via <-> x ∈ via.
Proof. rewrite list_elem_of_fmap. naive_solver. Qed.

Lemma protocols_filter (l : list jsv) :
  (1 <= length l)%nat -> forallb is_protocol l = true ->
  protocols_wf (filter (fun p => includes l (Str (protocol_name p)) = true) [tcp; udp]).
Proof.
  intros Hl Hp. unfold protocols_wf. rewrite !filter_cons, filter_nil.
  destruct l as [|v l]; [cbn in Hl; lia|]. cbn [forallb] in Hp. propify.
  unfold is_protocol in H. apply orb_true_iff in H as [->%jsv_eqb_eq| ->%jsv_eqb_eq].
  - rewrite decide_True by (apply includes_true; left). case_decide; auto.
  - rewrite (decide_True (P := includes _ (Str (protocol_name udp)) = true)) by (apply includes_true; left).
    case_decide; auto.
Qed.

Lemma parse_via_nil spec nodeId via :
  parse_via spec nodeId = (via, []) ->
  forall l, nonempty_via via = Some l -> forall n, nodeId = Str n -> via_wf n l.
Proof.
  unfold parse_via. destruct (hasOwn _ _); [|by intros [= <-]].
  destruct (record _ _ _) as [path e1]. destruct (as_array (get path (js "via"))) as [l|] eqn:El; [|by intros [= <-]].
  destruct (forallb isId l) eqn:Ei; [|by intros [= <-]]. cbn [default].
  intros [= <- H]. apply app_eq_nil in H as [_ H]. apply check_nil in H. propify.
  destruct (isIds_inv l Ei) as (v & -> & -> & Hv). intros l E n ->.
  assert (v = l /\ l <> []) as [-> Hne] by (destruct v; cbn in E; [done|injection E as <-; done]).
  split_and!; [done|done| |].
  - by apply NoDup_Str, distinct_NoDup.
  - apply includes_false in H0. by rewrite elem_of_Str in H0.
Qed.

Lemma parse_transport_nil spec t : parse_transport spec = (t, []) -> forall r, t = Some r -> transport_wf r.
Proof.
  unfold parse_transport. destruct (hasOwn _ _); [|by intros [= <-]].
  destruct (record _ _ _) as [ref e1]. intros [= <- H] r [= <-].
  apply app_eq_nil in H as [_ H]. apply app_eq_nil in H as [H1 H2]. apply check_nil in H1, H2.
  apply isId_inv in H1 as (s & E1 & Hs). apply isCounter_inv in H2 as (z & E2 & Hz).
  split; cbn; [by rewrite E1|by rewrite E2].
Qed.

Lemma parseForwardSpec_wf v s : parseForwardSpec v = Ok s -> spec_wf s.
Proof.
  unfold parseForwardSpec.
  destruct (record v _ _) as [fs e0]. destruct (record (get fs (js "ingress")) _ _) as [ing e3].
  destruct (record (get ing (js "listen")) _ _) as [lis e5]. destruct (record (get fs (js "target")) _ _) as [tgt e8].
  destruct (parse_via fs _) as [via e11] eqn:Evia. destruct (parse_transport fs) as [tr e12] eqn:Etr.
  destruct (_ ++ _) eqn:E; [|done]. intros [= <-].
  repeat match goal with H : _ ++ _ = [] |- _ => apply app_eq_nil in H as [? H] end.
  repeat match goal with H : check _ _ _ = [] |- _ => apply check_nil in H end. subst.
  propify. repeat match goal with H : is_Some _ |- _ => destruct H as [? H] end.
  destruct (isId_inv _ ltac:(eassumption)) as (node & Enode & Hnode). rewrite Enode in *.
  repeat match goal with H : isPort _ = true |- _ => apply isPort_inv in H as (? & -> & ?) end.
  apply eqb_prop in E.
  constructor; cbn.
  - by apply protocols_filter.
  - done.
  - destruct (get lis (js "address")); try done. cbn in *.
    match goal with H : normalizeIp _ = Some _ |- _ => rewrite H; destruct (normalizeIp_bytes _ _ H) as (bs & _ & E2 & ->) end.
    cbn. unfold normalizeIp. by rewrite E2.
  - done.
  - match goal with H : normalizeTargetHost _ = Some _ |- _ => rewrite H; by apply normalize_target_host_fix in H end.
  - done.
  - intros l Hl. exact (parse_via_nil _ _ _ Evia l Hl node eq_refl).
  - exact (parse_transport_nil _ _ Etr).
  - rewrite <- (bool_decide_eq_true (is_Some (nonempty_via via))), <- (bool_decide_eq_true (is_Some tr)).
    by rewrite E.
Qed.

(** ** Every well-formed spec is accepted *)

Lemma get_eq fs k v : get ((k, v) :: fs) k = v.
Proof. cbn. unfold str_eqb. by rewrite bool_decide_eq_true_2. Qed.

Lemma get_ne fs k k' v : k' <> k -> get ((k', v) :: fs) k = get fs k.
Proof. intros H. cbn. unfold str_eqb. by rewrite bool_decide_eq_false_2. Qed.

Lemma record_known fs keys path :
  forallb (includes keys) (map fst fs) = true -> record (Obj fs) keys path = (fs, []).
Proof.
  intros H%forallb_Forall. unfold record, Object_keys. cbn [as_object].
  rewrite filter_none; [done|]. eapply Forall_impl; [exact H|]. cbn. congruence.
Qed.

(** Field access on object literals with concrete keys. *)
Ltac js_ne := let H := fresh in intros H; vm_compute in H; discriminate H.
Ltac js_get := repeat first [rewrite get_eq | rewrite get_ne by js_ne].
Ltac js_known := rewrite record_known by (vm_compute; reflexivity).

Lemma hasOwn_true fs k : k ∈ map fst fs -> hasOwn fs k = true.
Proof. apply includes_true. Qed.

Lemma as_ids via : forallb isId (map Str via) = forallb is_id via.
Proof. induction via as [|n via IH]; cbn; [done|]. by rewrite IH. Qed.

Lemma map_the_string via : map the_string (map Str via) = via.
Proof. rewrite map_map. cbn. apply map_id. Qed.

Lemma parse_via_ok fs via n rest :
  hasOwn fs (js "path") = true -> get fs (js "path") = Obj ((js "via", Arr (map Str via)) :: rest) -> rest = [] ->
  via_wf n via -> parse_via fs (Str n) = (Some via, []).
Proof.
  intros H1 H2 -> (Hne & Hid & Hdup & Hcyc). unfold parse_via. rewrite H1, H2. js_known. js_get. cbn [as_array].
  rewrite as_ids, (proj2 (forallb_Forall is_id via) Hid).
  cbv [from_option Datatypes.id check]. cbn [app].
  rewrite map_the_string, (proj2 (distinct_NoDup _) (proj2 (NoDup_Str via) Hdup)).
  by rewrite (proj2 (includes_false (map Str via) (Str n))) by by rewrite elem_of_Str.
Qed.

Lemma parse_transport_ok fs t :
  hasOwn fs (js "transport") = true ->
  get fs (js "transport") = Obj [(js "profileId", Str (profileId t)); (js "configRevision", Num (NInt (configRevision t)))] ->
  transport_wf t -> parse_transport fs = (Some t, []).
Proof.
  intros H1 H2 [Hp Hc]. unfold parse_transport. rewrite H1, H2. js_known. js_get. cbn. rewrite Hp, Hc. by destruct t.
Qed.

(** The fields of a spec after [enabled]. *)
Definition spec_rest (s : ForwardSpec) : list (jsstr * jsv) :=
  [(js "protocols", Arr (map (fun p => Str (protocol_name p)) (protocols s)));
   (js "ingress", Obj [(js "nodeId", Str (ingress_nodeId s));
      (js "listen", Obj [(js "address", Str (address (ingress_listen s))); (js "port", Num (NInt (listen_port (ingress_listen s))))])]);
   (js "target", Obj [(js "host", Str (host (target s))); (js "port", Num (NInt (target_port (target s))))])] ++
  match path_via s with
  | None => []
  | Some via => [(js "path", Obj [(js "via", Arr (map Str via))])]
  end ++
  match transport s with
  | None => []
  | Some t => [(js "transport", Obj [(js "profileId", Str (profileId t)); (js "configRevision", Num (NInt (configRevision t)))])]
  end.

Lemma spec_jsv_fields s : to_jsv (spec_json s) = Obj ((js "enabled", Bool (enabled s)) :: spec_rest s).
Proof.
  unfold spec_json, spec_fields, spec_rest. destruct (path_via s), (transport s); cbn; rewrite ?map_map; done.
Qed.

Definition set_enabled (s : ForwardSpec) (b : bool) : ForwardSpec :=
  MkSpec b (protocols s) (ingress_nodeId s) (ingress_listen s) (target s) (path_via s) (transport s).

Lemma protocols_parse ps : protocols_wf ps ->
  let l := map (fun p => Str (protocol_name p)) ps in
  (1 <=? length l)%nat && (length l <=? 2)%nat && forallb is_protocol l && distinct l = true /\
  filter (fun p => includes l (Str (protocol_name p)) = true) [tcp; udp] = ps.
Proof. intros [->|[->| ->]]; vm_compute; done. Qed.

Lemma spec_path_transport s fs :
  spec_wf s -> fs = spec_rest s -> forall v,
  parse_via ((js "enabled", v) :: fs) (Str (ingress_nodeId s)) = (path_via s, []) /\
  parse_transport ((js "enabled", v) :: fs) = (transport s, []) /\ nonempty_via (path_via s) = path_via s.
Proof.
  intros Hs -> v. pose proof (wf_locked s Hs) as Hl. pose proof (wf_via s Hs) as Hv. pose proof (wf_transport s Hs) as Ht.
  unfold spec_rest.
  destruct (path_via s) as [via|] eqn:Ep, (transport s) as [t|] eqn:Et.
  - specialize (Hv via eq_refl). split_and!.
    + eapply (parse_via_ok _ _ _ []); [apply hasOwn_true; cbn; set_solver|cbn [app]; by js_get|done|done].
    + apply parse_transport_ok; [apply hasOwn_true; cbn; set_solver|cbn [app]; by js_get|by apply Ht].
    + destruct via; [|done]. by destruct Hv.
  - destruct (proj1 Hl ltac:(eauto)) as [? ?]. done.
  - destruct (proj2 Hl ltac:(eauto)) as [? ?]. done.
  - split_and!; [| |done].
    + unfold parse_via. by replace (hasOwn _ _) with false by (vm_compute; reflexivity).
    + unfold parse_transport. by replace (hasOwn _ _) with false by (vm_compute; reflexivity).
Qed.

(** Parsing a well-formed spec with any value in place of [enabled]. *)
Lemma parse_with_enabled s v :
  spec_wf s ->
  parseForwardSpec (Obj ((js "enabled", v) :: spec_rest s)) =
  match v with
  | Bool b => Ok (set_enabled s b)
  | _ => Err [issue (js "spec.enabled") "Expected a boolean"]
  end.
Proof.
  intros Hs. unfold parseForwardSpec.
  destruct (spec_path_transport s _ Hs eq_refl v) as (Ev & Et & En).
  rewrite record_known.
  2:{ unfold spec_rest. destruct (path_via s), (transport s); vm_compute; reflexivity. }
  assert (Gp : get ((js "enabled", v) :: spec_rest s) (js "protocols") = Arr (map (fun p => Str (protocol_name p)) (protocols s)))
    by (unfold spec_rest; cbn [app]; by js_get).
  assert (Gi : get ((js "enabled", v) :: spec_rest s) (js "ingress") = Obj [(js "nodeId", Str (ingress_nodeId s));
      (js "listen", Obj [(js "address", Str (address (ingress_listen s))); (js "port", Num (NInt (listen_port (ingress_listen s))))])])
    by (unfold spec_rest; cbn [app]; by js_get).
  assert (Gt : get ((js "enabled", v) :: spec_rest s) (js "target") =
      Obj [(js "host", Str (host (target s))); (js "port", Num (NInt (target_port (target s))))])
    by (unfold spec_rest; cbn [app]; by js_get).
  rewrite Gp, Gi, Gt, get_eq. cbn [as_array]. cbv [from_option Datatypes.id].
  destruct (protocols_parse _ (wf_protocols s Hs)) as [Ep1 Ep2]. rewrite Ep1.
  js_known. js_get. js_known. js_get. js_known. js_get.
  rewrite (wf_address s Hs). cbn [normalizeTargetHost isId isPort]. rewrite (wf_host s Hs), (wf_node s Hs).
  rewrite (wf_listen_port s Hs), (wf_target_port s Hs), Ev, Et, En, Ep2.
  rewrite !(bool_decide_eq_true_2 (is_Some (Some _))) by eauto.
  replace (Bool.eqb _ _) with true.
  2:{ symmetry. apply eqb_true_iff. apply bool_decide_ext, (wf_locked s Hs). }
  cbn [check app the_string as_string the_int as_int].
  destruct v; try done. cbn. unfold set_enabled. by destruct s as [? ? ? [] [] ? ?].
Qed.

Lemma set_enabled_id s : set_enabled s (enabled s) = s.
Proof. by destruct s. Qed.

Lemma set_enabled_wf s b : spec_wf s -> spec_wf (set_enabled s b).
Proof. destruct 1. by constructor. Qed.

Lemma parse_spec_canonical s : spec_wf s -> parseForwardSpec (to_jsv (spec_json s)) = Ok s.
Proof. intros H. by rewrite spec_jsv_fields, parse_with_enabled, set_enabled_id. Qed.

Lemma parse_forward_canonical f : forward_wf f -> parseForward (to_jsv (forward_json f)) = Ok f.
Proof.
  intros [Hid Hsc Hrev Hspec]. unfold parseForward, forward_json. cbn [to_jsv map].
  js_known. js_get. fold (to_jsv (spec_json (spec f))). rewrite parse_spec_canonical by done.
  cbn. rewrite Hid, Hsc, Hrev. by destruct f.
Qed.

Lemma parseForward_wf v f : parseForward v = Ok f -> forward_wf f /\ parseForwardSpec (get (default [] (as_object v)) (js "spec")) = Ok (spec f).
Proof.
  unfold parseForward. destruct (record v _ _) as [fs e0] eqn:Er.
  destruct (parseForwardSpec (get fs (js "spec"))) as [s|es] eqn:Es.
  2:{ by destruct (_ ++ _). }
  destruct (_ ++ _) eqn:E; [|done]. intros [= <-].
  repeat match goal with H : _ ++ _ = [] |- _ => apply app_eq_nil in H as [? H] end.
  repeat match goal with H : check _ _ _ = [] |- _ => apply check_nil in H end.
  repeat match goal with H : isId _ = true |- _ => apply isId_inv in H as (? & -> & ?) end.
  match goal with H : isCounter _ _ = true |- _ => apply isCounter_inv in H as (? & -> & ?) end.
  split; [constructor; cbn; try done; by eapply parseForwardSpec_wf|].
  destruct v; cbn in Er |- *; by injection Er as <- _.
Qed.

(** The canonical parser: whatever [parseForwardSpec] accepts becomes a
    well-formed spec that parses back to itself, and conversely the JSON of every
    well-formed spec is accepted unchanged. *)
Theorem parseForwardSpec_canonical :
  (forall input s, parseForwardSpec input = Ok s -> spec_wf s) /\
  (forall s, spec_wf s -> parseForwardSpec (to_jsv (spec_json s)) = Ok s).
Proof. split; [apply parseForwardSpec_wf|apply parse_spec_canonical]. Qed.

(** ** [JSON.stringify] tells canonical specs apart *)

Lemma stringify_inj v w : json_ok v -> json_ok w -> (nest v <= 64)%nat -> (nest w <= 64)%nat ->
  stringify v = stringify w -> v = w.
Proof.
  intros Hv Hw Nv Nw E.
  pose proof (stringify_reads v Hv (S (2 * length (stringify v))) 0%nat [] I ltac:(lia)) as H1.
  pose proof (stringify_reads w Hw (S (2 * length (stringify w))) 0%nat [] I ltac:(lia)) as H2.
  rewrite app_nil_r in H1, H2. rewrite <- E in H2. rewrite H1 in H2 by lia. specialize (H2 ltac:(lia)). congruence.
Qed.

Lemma ascii_str_ok s : Forall (fun c => 0 <= c < 128) s -> str_ok s.
Proof.
  intros H. split.
  - induction H as [|c s Hc _ IH]; cbn [utf16_ok]; [done|].
    unfold is_high, is_low, ch_in.
    rewrite (proj2 (Z.leb_gt 55296 c)), (proj2 (Z.leb_gt 56320 c)) by lia. done.
  - eapply Forall_impl; [exact H|]. cbn. lia.
Qed.

Lemma literal_ok s : forallb (fun c => (0 <=? c) && (c <? 128)) s = true -> str_ok s.
Proof.
  rewrite forallb_Forall. intros H. apply ascii_str_ok. eapply Forall_impl; [exact H|].
  cbn. intros c Hc. propify. lia.
Qed.

Lemma is_id_ascii s : is_id s = true -> str_ok s.
Proof.
  unfold is_id. destruct s as [|c r]; [done|]. intros H. propify. apply ascii_str_ok. constructor.
  - unfold id_first, is_alnum, is_digit, is_lower, is_upper, ch_in in *. rewrite !orb_true_iff, !andb_true_iff, !Z.leb_le in *. lia.
  - match goal with H : forallb id_rest r = true |- _ => apply forallb_Forall in H; eapply Forall_impl; [exact H|] end.
    unfold id_rest, is_alnum, is_digit, is_lower, is_upper, ch_in, ch_dot, ch_colon, ch_dash. cbn. intros x.
    rewrite !orb_true_iff, !andb_true_iff, !Z.leb_le, !Z.eqb_eq. lia.
Qed.

Lemma target_chars_ascii s : Forall (fun c => target_char c = true) s -> str_ok s.
Proof.
  intros H. apply ascii_str_ok. eapply Forall_impl; [exact H|].
  unfold target_char, is_alnum, is_digit, is_lower, is_upper, ch_in, ch_dot, ch_colon, ch_dash. cbn. intros x.
  rewrite !orb_true_iff, !andb_true_iff, !Z.leb_le, !Z.eqb_eq. lia.
Qed.

Lemma normalizeIp_ascii s t : normalizeIp s = Some t -> str_ok t.
Proof. intros (bs & _ & E & _)%normalizeIp_bytes. apply target_chars_ascii, (ipBytes_chars _ _ E). Qed.

Lemma target_host_ascii s h : normalize_target_host s = Some h -> str_ok h.
Proof.
  unfold normalize_target_host. destruct (_ || _); [done|].
  destruct (normalizeIp s) eqn:E.
  - destruct (ipBytes _); [|done]. destruct (unspecified _); [done|]. intros [= <-]. by eapply normalizeIp_ascii.
  - intros (Hc & _)%hostname_Some. apply target_chars_ascii.
    pose proof (host_char_target h Hc) as Ht%existsb_false. eapply Forall_impl; [exact Ht|]. cbn. intros ? ?. by propify.
Qed.

(** Keys of an object literal: distinct, well-formed and not array indices. *)
Definition keys_plain (ks : list jsstr) : bool :=
  distinct ks && forallb (fun k => negb (is_array_index k) && utf16_ok k && forallb (Z.leb 0) k) ks.

Lemma json_ok_literal fs :
  keys_plain (map fst fs) = true -> Forall (fun kv => json_ok kv.2) fs -> json_ok (JObj fs).
Proof.
  unfold keys_plain. intros H Hv. propify. apply distinct_NoDup in H.
  apply forallb_Forall in H0. rewrite Forall_map in H0. cbn in H0.
  constructor; [|done|].
  - rewrite Forall_forall in *. intros kv Hin. split; [|by apply Hv]. specialize (H0 kv Hin). propify.
    split; [done|]. match goal with H : forallb _ _ = true |- _ => apply forallb_Forall in H; eapply Forall_impl; [exact H|] end.
    intros c. apply Z.leb_le.
  - apply enum_order_plain. eapply Forall_impl; [exact H0|]. cbn. intros kv Hk. by propify.
Qed.

Lemma is_port_safe z : is_port z = true -> Z.abs z <= MAX_COUNTER.
Proof. unfold is_port, MAX_COUNTER. intros H. propify. lia. Qed.

Lemma is_counter_safe b z : is_counter b z = true -> Z.abs z <= MAX_COUNTER.
Proof. unfold is_counter. intros H. by propify. Qed.

Ltac each_field := repeat apply Forall_cons_2; try apply Forall_nil_2; cbn [snd].
Ltac ok_literal := apply json_ok_literal; [vm_compute; reflexivity|]; each_field.

Lemma json_ok_strs {A} (f : A -> jsstr) l : Forall (fun x => str_ok (f x)) l -> json_ok (JArr (map (fun x => JStr (f x)) l)).
Proof. intros H. apply ok_arr, Forall_map. eapply Forall_impl; [exact H|]. intros. by apply ok_str. Qed.

Lemma protocol_name_ok p : str_ok (protocol_name p).
Proof. by destruct p; apply literal_ok; vm_compute. Qed.

Lemma spec_json_ok s : spec_wf s -> json_ok (spec_json s).
Proof.
  intros Hs. pose proof (wf_via s Hs) as Hv. pose proof (wf_transport s Hs) as Ht.
  unfold spec_json, spec_fields. apply json_ok_literal; [destruct (path_via s), (transport s); vm_compute; reflexivity|].
  apply Forall_app. split; [|apply Forall_app; split].
  - each_field.
    + constructor.
    + apply json_ok_strs, Forall_forall. intros p _. apply protocol_name_ok.
    + ok_literal; [by apply ok_str, is_id_ascii, wf_node|]. ok_literal.
      * by eapply ok_str, normalizeIp_ascii, wf_address.
      * by apply ok_int, is_port_safe, wf_listen_port.
    + ok_literal; [by eapply ok_str, target_host_ascii, wf_host|by apply ok_int, is_port_safe, wf_target_port].
  - destruct (path_via s) as [via|]; [|constructor]. destruct (Hv via eq_refl) as (_ & Hid & _).
    each_field. ok_literal. apply (json_ok_strs (fun x => x)).
    eapply Forall_impl; [exact Hid|]. apply is_id_ascii.
  - destruct (transport s) as [t|]; [|constructor]. destruct (Ht t eq_refl) as [Hp Hc].
    each_field. ok_literal; [by apply ok_str, is_id_ascii|by eapply ok_int, is_counter_safe].
Qed.

Lemma nest_strs {A} (f : A -> jsstr) l : (nest (JArr (map (fun x => JStr (f x)) l)) <= 1)%nat.
Proof. apply nest_arr_bound, Forall_map, Forall_forall. cbn. lia. Qed.

Lemma spec_json_nest s : (nest (spec_json s) <= 64)%nat.
Proof.
  unfold spec_json, spec_fields. apply nest_obj_bound.
  apply Forall_app. split; [|apply Forall_app; split].
  - each_field; try (cbn; lia). pose proof (nest_strs protocol_name (protocols s)). lia.
  - destruct (path_via s) as [via|]; each_field.
    assert (nest (JObj [(js "via", JArr (map JStr via))]) <= 2)%nat; [|lia].
    apply nest_obj_bound. each_field. apply le_n_S, (nest_strs (fun x => x)).
  - destruct (transport s); each_field. cbn. lia.
Qed.

Lemma spec_stringify_inj s s' :
  spec_wf s -> spec_wf s' -> stringify (spec_json s) = stringify (spec_json s') -> s = s'.
Proof.
  intros H H' E. apply stringify_inj in E; [|by apply spec_json_ok|by apply spec_json_ok|apply spec_json_nest|apply spec_json_nest].
  pose proof (parse_spec_canonical s H) as P. rewrite E, parse_spec_canonical in P by done. congruence.
Qed.

(** [decideForwardChange] is a compare-and-set: when it decides, the expected
    revision was the current one, identity and scope are kept, the result is
    well-formed (so its revision is a safe counter), and either nothing changed or
    the canonical spec differs and the revision is the next one. *)
Theorem decideForwardChange_cas current expected change next :
  decideForwardChange current expected change = Ok next ->
  exists cur, parseForward current = Ok cur /\ expected = Num (NInt (revision cur)) /\
    id next = id cur /\ scopeId next = scopeId cur /\ forward_wf next /\
    (next = cur \/ (spec next <> spec cur /\ revision next = revision cur + 1)).
Proof.
  unfold decideForwardChange. destruct (parseForward current) as [cur|] eqn:Ec; [|done].
  destruct (parseForward_wf _ _ Ec) as [Hcur _].
  destruct (negb _ || negb _) eqn:E1; [done|]. propify.
  match goal with H : jsv_eqb _ expected = true |- _ => apply jsv_eqb_eq in H as <- end.
  destruct (record change _ _) as [command errors]. destruct (negb _ && negb _); [done|].
  destruct errors; [|done]. destruct (parseForwardSpec _) as [n|] eqn:En; [|done].
  apply parseForwardSpec_wf in En.
  destruct (str_eqb _ _) eqn:Es.
  - intros [= <-]. exists cur. split_and!; auto.
  - destruct (revision cur =? MAX_COUNTER) eqn:Em; [done|]. intros [= <-]. propify.
    exists cur. split_and!; [done..| |right; split; [|done]].
    + destruct Hcur as [? ? Hrev ?]. constructor; cbn; try done.
      unfold is_counter in *. propify. rewrite andb_true_iff, !Z.leb_le. lia.
    + cbn. unfold str_eqb in Es. propify. intros ->. done.
Qed.

Lemma decideForwardChange_cas_witness :
  let s := MkSpec false [tcp] (js "n1") (Listen (js "0.0.0.0") 80) (Target (js "example.com") 8080) None None in
  let f := MkForward (js "f1") (js "s1") 4 s in
  exists cur, parseForward (to_jsv (forward_json f)) = Ok cur /\ Num (NInt 4) = Num (NInt (revision cur)) /\
    id (MkForward (js "f1") (js "s1") 5 (set_enabled s true)) = id cur /\
    scopeId (MkForward (js "f1") (js "s1") 5 (set_enabled s true)) = scopeId cur /\
    forward_wf (MkForward (js "f1") (js "s1") 5 (set_enabled s true)) /\
    (MkForward (js "f1") (js "s1") 5 (set_enabled s true) = cur \/
     (spec (MkForward (js "f1") (js "s1") 5 (set_enabled s true)) <> spec cur /\ 5 = revision cur + 1)).
Proof.
  intros s f.
  apply (decideForwardChange_cas (to_jsv (forward_json f)) (Num (NInt 4))
    (Obj [(js "kind", Str (js "set-enabled")); (js "enabled", Bool true)])).
  vm_compute. reflexivity.
Defined.

(** What the decision is on the canonical JSON of a well-formed Forward when the
    parsed command asks for the spec [n]. *)
Definition decided (f : Forward) (n : ForwardSpec) : Result Forward :=
  if bool_decide (stringify (spec_json (spec f)) = stringify (spec_json n)) then Ok f
  else if revision f =? MAX_COUNTER then Err [exhausted]
  else Ok (MkForward (id f) (scopeId f) (revision f + 1) n).

Lemma expected_ok f : forward_wf f ->
  negb (isCounter (Num (NInt (revision f))) false) || negb (jsv_eqb (Num (NInt (revision f))) (Num (NInt (revision f)))) = false.
Proof. intros [_ _ Hr _]. cbn. rewrite Hr, bool_decide_eq_true_2 by done. done. Qed.

Lemma decide_replace f n : forward_wf f -> spec_wf n ->
  decideForwardChange (to_jsv (forward_json f)) (Num (NInt (revision f)))
    (Obj [(js "kind", Str (js "replace")); (js "spec", to_jsv (spec_json n))]) = decided f n.
Proof.
  intros Hf Hn. unfold decideForwardChange. rewrite parse_forward_canonical, expected_ok by done.
  js_get. rewrite (proj2 (jsv_eqb_eq (Str (js "replace")) _)) by done. js_known. js_get.
  rewrite (proj2 (jsv_eqb_eq (Str (js "replace")) _)) by done. cbn [negb andb].
  by rewrite parse_spec_canonical.
Qed.

Lemma decide_set_enabled f b : forward_wf f ->
  decideForwardChange (to_jsv (forward_json f)) (Num (NInt (revision f)))
    (Obj [(js "kind", Str (js "set-enabled")); (js "enabled", Bool b)]) = decided f (set_enabled (spec f) b).
Proof.
  intros Hf. unfold decideForwardChange. rewrite parse_forward_canonical, expected_ok by done.
  assert (E : jsv_eqb (Str (js "set-enabled")) (Str (js "replace")) = false) by (vm_compute; reflexivity).
  js_get. rewrite E. js_known. js_get. rewrite E, (proj2 (jsv_eqb_eq (Str (js "set-enabled")) _)) by done.
  cbn [negb andb]. unfold with_enabled. rewrite spec_jsv_fields, parse_with_enabled by apply Hf. done.
Qed.


Definition example_spec : ForwardSpec :=
  MkSpec false [tcp] (js "n1") (Listen (js "0.0.0.0") 80) (Target (js "example.com") 8080) None None.

Lemma example_spec_wf : spec_wf example_spec.
Proof.
  constructor.
  - by left.
  - vm_compute; reflexivity.
  - vm_compute; reflexivity.
  - vm_compute; reflexivity.
  - vm_compute; reflexivity.
  - vm_compute; reflexivity.
  - discriminate.
  - discriminate.
  - split; intros [? ?]; discriminate.
Defined.

Definition example_forward : Forward := MkForward (js "f1") (js "s1") 4 example_spec.

Lemma example_forward_wf : forward_wf example_forward.
Proof. constructor; [vm_compute; reflexivity..|apply example_spec_wf]. Defined.

