(* ===== verification/Time.v ===== *)
(** packages/contracts/src/time.ts: UTC timestamps compared without losing
    fractional seconds.

    [Date.parse] of [YYYY-MM-DDTHH:MM:SSZ] follows the engine the program pins: the
    month is checked, the day only against 1..31 (a day past the end of its month
    carries into the next), 24:00:00 is the end of the day and a 60th second is
    rejected.  The theorems: the comparison is the comparison of the exact instants
    as rational numbers, so it is a total order on instants, and [withinLease] is
    the half-open bound it is meant to be. *)

From S2P Require Export Json.

Local Open Scope Z_scope.

Record Instant := MkInstant { seconds : Z; fraction : jsstr }.

(** ** Date.parse *)

(** Days from 1970-01-01 to the first of January of [y] (ECMAScript DayFromYear). *)
Definition day_from_year (y : Z) : Z :=
  365 * (y - 1970) + (y - 1969) / 4 - (y - 1901) / 100 + (y - 1601) / 400.

Definition leap_year (y : Z) : bool :=
  (y mod 4 =? 0) && (negb (y mod 100 =? 0) || (y mod 400 =? 0)).

(** Days before the month [m] (1..12) in a common year. *)
Definition days_before_month (m : Z) : Z :=
  nth (Z.to_nat (m - 1)) [0; 31; 59; 90; 120; 151; 181; 212; 243; 273; 304; 334] 0.

Definition make_day (y m d : Z) : Z :=
  day_from_year y + days_before_month m + (if leap_year y && (2 <? m) then 1 else 0) + d - 1.

(** Seconds since the epoch, [None] for [NaN]. *)
Definition Date_parse (y mo d h mi s : Z) : option Z :=
  if (1 <=? mo) && (mo <=? 12) && (1 <=? d) && (d <=? 31) &&
     (((h <=? 23) && (mi <=? 59) && (s <=? 59)) || ((h =? 24) && (mi =? 0) && (s =? 0)))
  then Some (((make_day y mo d * 24 + h) * 60 + mi) * 60 + s) else None.

(** ** instant *)

(** Read [n] digits. *)
Definition digits (n : nat) (s : jsstr) : option (Z * jsstr) :=
  let d := take n s in
  if (length d =? n)%nat && forallb is_digit d then Some (of_base 10 d, drop n s) else None.

(** [fraction.replace(/0+$/, '')] *)
Fixpoint strip_zeros (s : jsstr) : jsstr :=
  match s with
  | [] => []
  | c :: r => match strip_zeros r with [] => if c =? 48 then [] else [c] | t => c :: t end
  end.

(** The optional fraction and the final [Z]. *)
Definition fraction_z (s : jsstr) : option jsstr :=
  match eat ch_dot s with
  | Some r =>
      let '(d, t) := span_digits r in
      if bool_decide (d = []) then None else if bool_decide (t = [90]) then Some d else None
  | None => if bool_decide (s = [90]) then Some [] else None
  end.

Definition scan_instant (value : jsstr) : option (Z * Z * Z * Z * Z * Z * jsstr) :=
  '(y, s) ← digits 4 value; s ← eat ch_dash s;
  '(mo, s) ← digits 2 s; s ← eat ch_dash s;
  '(d, s) ← digits 2 s;
  s ← match eat 84 s with Some s => Some s | None => eat 116 s end;
  '(h, s) ← digits 2 s; s ← eat ch_colon s;
  '(mi, s) ← digits 2 s; s ← eat ch_colon s;
  '(sec, s) ← digits 2 s;
  f ← fraction_z s;
  Some (y, mo, d, h, mi, sec, f).

Definition instant (value : jsstr) : outcome Instant :=
  match scan_instant value with
  | Some (y, mo, d, h, mi, sec, f) =>
      match Date_parse y mo d h mi sec with
      | Some t => Returns (MkInstant t (strip_zeros f))
      | None => Throws (invalid "Unrepresentable UTC timestamp")
      end
  | None => Throws (invalid "Unrepresentable UTC timestamp")
  end.

(** ** Comparison *)

Definition padEnd (n : nat) (s : jsstr) : jsstr := s ++ replicate (n - length s) 48.

Definition compare (a b : Instant) : Z :=
  if negb (seconds a =? seconds b) then Z.sgn (seconds a - seconds b) else
  let len := Nat.max (length (fraction a)) (length (fraction b)) in
  let left := padEnd len (fraction a) in
  let right := padEnd len (fraction b) in
  if str_ltb left right then -1 else if str_ltb right left then 1 else 0.

Definition compareTimes (a b : jsstr) : outcome Z :=
  x ← instant a; y ← instant b; Returns (compare x y).

Definition validateTime (value : jsstr) : outcome unit := _ ← instant value; Returns tt.

Definition withinLease (issued valid : jsstr) (leaseSeconds : Z) : outcome bool :=
  start ← instant issued; stop ← instant valid;
  Returns ((compare start stop <? 0) &&
           (compare stop (MkInstant (seconds start + leaseSeconds) (fraction start)) <=? 0)).

(** ** The instant as a number *)

Definition instant_wf (a : Instant) : Prop := forallb is_digit (fraction a) = true.

(** The instant in units of [10^-n] seconds, for [n] at least its fraction digits. *)
Definition scaled (n : nat) (a : Instant) : Z :=
  seconds a * 10 ^ Z.of_nat n + of_base 10 (padEnd n (fraction a)).

Lemma of_base_10_app a b : of_base 10 (a ++ b) = of_base 10 a * 10 ^ Z.of_nat (length b) + of_base 10 b.
Proof.
  induction b as [|c b IH] using rev_ind; [rewrite app_nil_r; unfold of_base at 3; cbn; lia|].
  rewrite app_assoc, !of_base_snoc, IH, length_app, Nat2Z.inj_add, Z.pow_add_r by lia.
  change (10 ^ Z.of_nat (length [c])) with 10. ring.
Qed.

Lemma of_base_10_bound s : forallb is_digit s = true -> 0 <= of_base 10 s < 10 ^ Z.of_nat (length s).
Proof.
  induction s as [|c s IH] using rev_ind; [done|]. rewrite forallb_app. cbn [forallb]. intros H. propify.
  specialize (IH ltac:(done)). destruct (digit_char_val c ltac:(done)) as [_ Hc].
  rewrite of_base_snoc, length_app, Nat2Z.inj_add, Z.pow_add_r by lia.
  change (10 ^ Z.of_nat (length [c])) with 10. lia.
Qed.

(** On digit strings of one length, string order is numeric order. *)
Lemma str_ltb_digits a b :
  length a = length b -> forallb is_digit a = true -> forallb is_digit b = true ->
  str_ltb a b = (of_base 10 a <? of_base 10 b).
Proof.
  revert b. induction a as [|x a IH]; intros [|y b] Hl Ha Hb; try done.
  cbn [forallb] in Ha, Hb. propify. injection Hl as Hl. cbn [str_ltb].
  change (x :: a) with ([x] ++ a). change (y :: b) with ([y] ++ b). rewrite !of_base_10_app, <- Hl.
  pose proof (of_base_10_bound a ltac:(done)) as Ba. pose proof (of_base_10_bound b ltac:(done)) as Bb. rewrite <- Hl in Bb.
  destruct (digit_char_val x ltac:(done)) as [Ex Hx]. destruct (digit_char_val y ltac:(done)) as [Ey Hy].
  assert (E1 : forall c, of_base 10 [c] = digit_val c) by (intros; unfold of_base; cbn; lia). rewrite !E1.
  destruct (Z.eqb_spec x y) as [->|Hne].
  - rewrite IH by done. apply Bool.eq_iff_eq_true. rewrite !Z.ltb_lt. lia.
  - assert (Hv : digit_val x <> digit_val y) by congruence.
    assert (Hlt : x < y <-> digit_val x < digit_val y).
    { unfold digit_val. match goal with H : is_digit x = true |- _ => rewrite H end.
      match goal with H : is_digit y = true |- _ => rewrite H end. lia. }
    apply Bool.eq_iff_eq_true. rewrite !Z.ltb_lt, Hlt. nia.
Qed.

Lemma forallb_replicate_zero n : forallb is_digit (replicate n 48) = true.
Proof. induction n; [done|]. cbn. done. Qed.

Lemma padEnd_digits n s : forallb is_digit s = true -> forallb is_digit (padEnd n s) = true.
Proof. intros H. unfold padEnd. by rewrite forallb_app, H, forallb_replicate_zero. Qed.

Lemma padEnd_length n s : (length s <= n)%nat -> length (padEnd n s) = n.
Proof. intros. unfold padEnd. rewrite length_app, length_replicate. lia. Qed.

Lemma of_base_zeros n : of_base 10 (replicate n 48) = 0.
Proof. induction n as [|n IH]; [done|]. cbn [replicate]. change (48 :: ?l) with ([48] ++ l). rewrite of_base_10_app, IH. done. Qed.

(** Padding further scales the fraction. *)
Lemma scaled_mono n m a : (length (fraction a) <= n <= m)%nat -> scaled m a = scaled n a * 10 ^ Z.of_nat (m - n).
Proof.
  intros H. unfold scaled, padEnd. rewrite !of_base_10_app, !of_base_zeros, !length_replicate, !Z.add_0_r.
  rewrite Z.mul_add_distr_r, <- !Z.mul_assoc, <- !Z.pow_add_r by lia. repeat f_equal; lia.
Qed.

(** The comparison is the sign of the exact difference. *)
Lemma compare_scaled n a b :
  instant_wf a -> instant_wf b -> (length (fraction a) <= n)%nat -> (length (fraction b) <= n)%nat ->
  compare a b = Z.sgn (scaled n a - scaled n b).
Proof.
  intros Ha Hb La Lb. unfold compare.
  set (k := Nat.max (length (fraction a)) (length (fraction b))).
  assert (Hk : Z.sgn (scaled n a - scaled n b) = Z.sgn (scaled k a - scaled k b)).
  { rewrite (scaled_mono k n a), (scaled_mono k n b) by lia.
    rewrite <- Z.mul_sub_distr_r, Z.sgn_mul, (Z.sgn_pos (10 ^ _)) by (apply Z.pow_pos_nonneg; lia). lia. }
  rewrite Hk. unfold scaled.
  pose proof (of_base_10_bound _ (padEnd_digits k _ Ha)) as Ba. rewrite padEnd_length in Ba by lia.
  pose proof (of_base_10_bound _ (padEnd_digits k _ Hb)) as Bb. rewrite padEnd_length in Bb by lia.
  destruct (Z.eqb_spec (seconds a) (seconds b)) as [E|E]; cbn [negb].
  - rewrite !str_ltb_digits; try by apply padEnd_digits.
    2,3: rewrite !padEnd_length; lia.
    rewrite E. destruct (Z.ltb_spec (of_base 10 (padEnd k (fraction a))) (of_base 10 (padEnd k (fraction b)))).
    { rewrite Z.sgn_neg; lia. }
    destruct (Z.ltb_spec (of_base 10 (padEnd k (fraction b))) (of_base 10 (padEnd k (fraction a)))).
    { rewrite Z.sgn_pos; lia. }
    symmetry. apply Z.sgn_null_iff. lia.
  - set (P := 10 ^ Z.of_nat k) in *.
    destruct (Z.lt_total (seconds a) (seconds b)) as [H|[H|H]]; [|done|].
    + rewrite !Z.sgn_neg; [done|nia|lia].
    + rewrite !Z.sgn_pos; [done|nia|lia].
Qed.

(** ** Instants read from text *)

Lemma strip_zeros_app_zeros s n : strip_zeros (s ++ replicate n 48) = strip_zeros s.
Proof.
  induction s as [|c s IH]; cbn; [|by rewrite IH].
  induction n as [|n IH]; cbn; [done|]. by rewrite IH.
Qed.

Lemma strip_zeros_idem s : strip_zeros (strip_zeros s) = strip_zeros s.
Proof.
  induction s as [|c s IH]; cbn; [done|]. destruct (strip_zeros s) as [|x t] eqn:E.
  - destruct (c =? 48) eqn:Ec; [done|]. cbn. by rewrite Ec.
  - change (strip_zeros (c :: x :: t)) with
      (match strip_zeros (x :: t) with [] => if c =? 48 then [] else [c] | u => c :: u end).
    by rewrite IH.
Qed.

Lemma strip_zeros_digits s : forallb is_digit s = true -> forallb is_digit (strip_zeros s) = true.
Proof.
  induction s as [|c s IH]; cbn; [done|]. intros H. propify. specialize (IH ltac:(done)).
  destruct (strip_zeros s) as [|x t].
  - destruct (c =? 48); [done|]. cbn. by rewrite H.
  - cbn in IH |- *. by rewrite H, IH.
Qed.

Lemma fraction_z_digits s f : fraction_z s = Some f -> forallb is_digit f = true.
Proof.
  unfold fraction_z. destruct (eat ch_dot s) as [r|]; [|by repeat case_match; try done; intros [= <-]].
  destruct (span_digits r) as [d t] eqn:E. apply span_digits_spec in E as [_ E].
  repeat case_match; try done. by intros [= <-].
Qed.

(** A timestamp denotes an instant with a stripped fraction of digits. *)
Lemma instant_ok v x : instant v = Returns x -> instant_wf x /\ strip_zeros (fraction x) = fraction x.
Proof.
  unfold instant. destruct (scan_instant v) as [[[[[[[y mo] d] h] mi] sec] f]|] eqn:E; [|done].
  destruct (Date_parse _ _ _ _ _ _); [|done]. intros [= <-]. cbn. split; [|apply strip_zeros_idem].
  apply strip_zeros_digits. unfold scan_instant in E.
  repeat match goal with
  | H : (_ ≫= _) = Some _ |- _ => apply bind_Some in H as (? & ? & H)
  | p : (Z * jsstr)%type |- _ => destruct p
  end.
  injection E as _ _ _ _ _ _ <-. by eapply fraction_z_digits.
Qed.

Lemma compare_eq_0 a b :
  strip_zeros (fraction a) = fraction a -> strip_zeros (fraction b) = fraction b ->
  compare a b = 0 <-> a = b.
Proof.
  intros Sa Sb. unfold compare. split.
  - destruct (Z.eqb_spec (seconds a) (seconds b)) as [E|E]; cbn [negb]; [|rewrite Z.sgn_null_iff; lia].
    set (k := Nat.max _ _). destruct (str_ltb (padEnd k (fraction a)) _) eqn:E1; [done|].
    destruct (str_ltb (padEnd k (fraction b)) _) eqn:E2; [done|]. intros _.
    pose proof (str_ltb_total _ _ E1 E2) as Ep.
    apply (f_equal strip_zeros) in Ep. unfold padEnd in Ep. rewrite !strip_zeros_app_zeros, Sa, Sb in Ep.
    destruct a, b; cbn in *; congruence.
  - intros ->. by rewrite Z.eqb_refl, str_ltb_irrefl.
Qed.

(** Timestamps compare as exact instants: the result of [compareTimes] is the
    sign of the difference of the two instants counted in any unit fine enough for
    both fractions, and it is 0 only for one and the same instant. *)
Theorem compareTimes_exact a b r :
  compareTimes a b = Returns r ->
  exists x y, instant a = Returns x /\ instant b = Returns y /\
    (forall n, (length (fraction x) <= n)%nat -> (length (fraction y) <= n)%nat ->
       r = Z.sgn (scaled n x - scaled n y)) /\
    (r = 0 <-> x = y).
Proof.
  intros H. unfold compareTimes in H. run_inv. subst r. destruct (instant_ok _ _ Hrun), (instant_ok _ _ Hrun0).
  exists a0, a1. split_and!; [done|done| |by apply compare_eq_0].
  intros n Hx Hy. by apply compare_scaled.
Qed.

Lemma compareTimes_exact_witness :
  exists x y, instant (js "2026-01-01T00:00:00.5Z") = Returns x /\ instant (js "2026-01-01t00:00:00.500Z") = Returns y /\
    (forall n, (length (fraction x) <= n)%nat -> (length (fraction y) <= n)%nat -> 0 = Z.sgn (scaled n x - scaled n y)) /\
    (0 = 0 <-> x = y).
Proof. apply compareTimes_exact. vm_compute. reflexivity. Defined.

(** [withinLease] accepts exactly the validity periods that end strictly after
    they start and at most the lease after it, in exact time. *)
Theorem withinLease_exact issued valid lease x y n :
  instant issued = Returns x -> instant valid = Returns y ->
  (length (fraction x) <= n)%nat -> (length (fraction y) <= n)%nat ->
  withinLease issued valid lease =
  Returns (bool_decide (scaled n x < scaled n y /\ scaled n y <= scaled n x + lease * 10 ^ Z.of_nat n)).
Proof.
  intros Ex Ey Lx Ly. destruct (instant_ok _ _ Ex) as [Wx _]. destruct (instant_ok _ _ Ey) as [Wy _].
  unfold withinLease. rewrite Ex, Ey. cbn [mbind outcome_bind]. f_equal.
  rewrite (compare_scaled n x y), (compare_scaled n y (MkInstant _ _)) by done.
  assert (Es : scaled n (MkInstant (seconds x + lease) (fraction x)) = scaled n x + lease * 10 ^ Z.of_nat n).
  { unfold scaled. cbn [seconds fraction]. ring. }
  rewrite Es. apply Bool.eq_iff_eq_true. rewrite andb_true_iff, bool_decide_eq_true, Z.ltb_lt, Z.leb_le.
  lia.
Qed.

Lemma withinLease_exact_witness :
  withinLease (js "2026-01-01T00:00:00Z") (js "2026-01-01T00:05:00.0Z") 300 =
  Returns (bool_decide (scaled 0 (MkInstant 1767225600 []) < scaled 0 (MkInstant 1767225900 []) /\
    scaled 0 (MkInstant 1767225900 []) <= scaled 0 (MkInstant 1767225600 []) + 300 * 10 ^ Z.of_nat 0)).
Proof.
  apply (withinLease_exact _ _ _ (MkInstant 1767225600 []) (MkInstant 1767225900 []) 0);
    [vm_compute; reflexivity|vm_compute; reflexivity|cbn; lia|cbn; lia].
Defined.
