(* ===== verification/Digest.v ===== *)
(** Protocol digests (packages/contracts/src/digest.ts).

    [digest] canonicalises a JSON value (RFC 8785, the [canonicalize] package) and
    hashes the text (node:crypto).  Both libraries are parameters: the class
    [Hashing] holds them.  A value of the model is a finite tree, so the cycle test
    of [assertJson] never fires and is left out; what remains is the Unicode test on
    every key and every string. *)

From S2P Require Import Prelude.
From S2P Require Import JsString.
From S2P Require Import JsValue.
From S2P Require Import Json.

Local Open Scope Z_scope.

Class Hashing := {
  canonicalize : json -> option jsstr;
  sha256_hex : jsstr -> jsstr;
}.

Definition assert_text (s : jsstr) : outcome unit :=
  throw_if (negb (utf16_ok s)) "INVALID_CONFIG" "Invalid Unicode".

Fixpoint assertJson (v : json) : outcome unit :=
  match v with
  | JNull | JBool _ | JInt _ => Returns tt
  | JStr s => assert_text s
  | JArr vs => each assertJson vs
  | JObj fs => each (fun '(key, child) => _ ← assert_text key; assertJson child) fs
  end.

Definition digest `{Hashing} (v : json) : outcome jsstr :=
  _ ← assertJson v;
  match canonicalize v with
  | None => Throws (Exn "INVALID_CONFIG" "Cannot canonicalize value")
  | Some canonical => Returns (js "sha256:" ++ sha256_hex canonical)
  end.

(** [digest(v) !== expected] *)
Definition digest_differs `{Hashing} (v : json) (expected : jsstr) : outcome bool :=
  d ← digest v; Returns (negb (str_eqb d expected)).

Lemma assert_text_ok s : str_ok s -> assert_text s = Returns tt.
Proof. intros [H _]. unfold assert_text. by rewrite H. Qed.

(** Every value the wire reader lets through can be digested. *)
Lemma assertJson_ok v : json_ok v -> assertJson v = Returns tt.
Proof.
  induction v as [| | | s | vs IH | fs IH] using json_nested_ind; cbn; try done;
    inversion 1; subst.
  - by apply assert_text_ok.
  - apply each_Returns. rewrite Forall_forall in *. eauto.
  - apply each_Returns. rewrite Forall_forall in *. intros [k x] Hin.
    destruct (H1 _ Hin) as [Hk Hx]. cbn in Hk, Hx. rewrite assert_text_ok by done.
    exact (IH _ Hin Hx).
Qed.

(** The digest recorded beside a value is the value's digest. *)
Definition digests_to `{Hashing} (v : json) (d : jsstr) : Prop := digest v = Returns d.

Lemma digest_guard `{Hashing} v d c m :
  (b ← digest_differs v d; throw_if b c m) = Returns tt <-> digests_to v d.
Proof.
  unfold digest_differs, digests_to. destruct (digest v) as [d'|e]; cbn; [|done].
  rewrite throw_if_Returns, negb_false_iff. unfold str_eqb. rewrite bool_decide_eq_true.
  naive_solver.
Qed.

Lemma digest_guard_seq `{Hashing} {B} v d c m (k : outcome B) r :
  ((digest_differs v d ≫= fun b => throw_if b c m) ≫= fun _ => k) = Returns r <->
  digests_to v d /\ k = Returns r.
Proof.
  rewrite <- (digest_guard v d c m). destruct (digest_differs v d ≫= _) as [[]|]; cbn; naive_solver.
Qed.

#[export] Hint Rewrite @digest_guard_seq @digest_guard : guards.
