(* ===== verification/Types.v ===== *)
(** The ADP/2 message types (packages/contracts/src/types.ts): one record per
    interface, the string unions as inductive types with the text they have on the
    wire, and the JSON document of the types that are digested. *)

From S2P Require Import Prelude.
From S2P Require Import JsString.
From S2P Require Import Json.
From S2P Require Import Forward.

Local Open Scope Z_scope.

Record Policy := MkPolicy {
  pollIntervalSeconds : Z; leaseSeconds : Z; renewalLeadSeconds : Z; maxClockSkewSeconds : Z;
  observationFreshnessSeconds : Z; policy_drainTimeoutSeconds : Z; connectTimeoutSeconds : Z;
  udpIdleTimeoutSeconds : Z; maxTcpConnectionsPerAssignment : Z; maxUdpSessionsPerAssignment : Z;
  maxSnapshotBytes : Z; maxReportBytes : Z; maxAssignmentsPerNode : Z;
}.

Record HelloRequest := MkHelloRequest {
  hreq_nodeId : jsstr; hreq_bootId : jsstr; hreq_agentBuild : jsstr;
  hreq_capabilities : list jsstr; hreq_lastStoredSnapshotGeneration : Z;
}.

Record HelloResponse := MkHelloResponse {
  hres_nodeId : jsstr; hres_bootId : jsstr; hres_sessionEpoch : Z;
  hres_serverTime : jsstr; hres_policy : Policy;
}.

Record DirectConfig := MkDirectConfig {
  dc_target : TargetEndpoint; dc_egressPolicyRevision : Z;
  dc_allowedDestinationCidrs : list jsstr; dc_allowMetadataTargets : bool;
}.

Inductive Phase := prepared | active | draining.

#[export] Instance Phase_eq_dec : EqDecision Phase.
Proof. solve_decision. Defined.

(** The driver of an ADP/2 Assignment is always [native.direct.v1], schema version 1,
    and its role always [direct]: only the varying parts are fields. *)
Record Assignment := MkAssignment {
  asg_assignmentId : jsstr; asg_forwardId : jsstr; asg_forwardRevision : Z;
  asg_deploymentGeneration : Z; asg_bindingFence : Z;
  asg_protocol : NetworkProtocol; asg_phase : Phase; asg_listener : ListenEndpoint;
  asg_configDigest : jsstr; asg_config : DirectConfig;
  asg_drainTimeoutSeconds : Z;
}.

Record Tombstone := MkTombstone {
  tmb_assignmentId : jsstr; tmb_forwardId : jsstr; tmb_protocol : NetworkProtocol;
  tmb_port : Z; tmb_bindingFence : Z; tmb_retirementGeneration : Z;
}.

Record Snapshot := MkSnapshot {
  snap_nodeId : jsstr; snap_sessionEpoch : Z; snap_snapshotGeneration : Z;
  snap_issuedAt : jsstr; snap_validUntil : jsstr; snap_snapshotDigest : jsstr;
  snap_assignments : list Assignment; snap_tombstones : list Tombstone;
}.

Inductive Condition := c_pending | c_prepared | c_ready | c_degraded | c_error | c_draining | c_removed.

#[export] Instance Condition_eq_dec : EqDecision Condition.
Proof. solve_decision. Defined.

(** [Assignment['phase'] | 'absent'] *)
Inductive ObservedPhase := present (p : Phase) | absent.

#[export] Instance ObservedPhase_eq_dec : EqDecision ObservedPhase.
Proof. solve_decision. Defined.

Record Observation := MkObservation {
  obs_assignmentId : jsstr; obs_deploymentGeneration : Z; obs_bindingFence : Z;
  obs_phase : ObservedPhase; obs_condition : Condition;
  obs_errorCode : option jsstr; obs_retryable : bool;
}.

Inductive DrainCondition := d_draining | d_removed.

#[export] Instance DrainCondition_eq_dec : EqDecision DrainCondition.
Proof. solve_decision. Defined.

Record Drain := MkDrain {
  drain_assignmentId : jsstr; drain_deploymentGeneration : Z; drain_bindingFence : Z;
  drain_startedAt : jsstr; drain_deadline : jsstr; drain_remainingConnections : Z;
  drain_condition : DrainCondition;
}.

Record ReportRequest := MkReportRequest {
  rep_nodeId : jsstr; rep_bootId : jsstr; rep_sessionEpoch : Z; rep_reportSequence : Z;
  rep_observedAt : jsstr; rep_acceptedSnapshotGeneration : Z;
  rep_observations : list Observation; rep_drains : list Drain;
}.

Inductive AckStatus := accepted | duplicate.

Record ReportAck := MkReportAck {
  ack_nodeId : jsstr; ack_bootId : jsstr; ack_sessionEpoch : Z; ack_reportSequence : Z;
  ack_status : AckStatus;
}.

Record ErrorResponse := MkErrorResponse {
  err_code : jsstr; err_message : jsstr; err_retryable : bool;
  err_retryAfterSeconds : option Z; err_requestId : jsstr;
}.

(** [keyof Messages] and the type each name stands for. *)
Inductive MessageName :=
  | HelloRequest_ | HelloResponse_ | Snapshot_ | ReportRequest_ | ReportAck_ | ErrorResponse_.

Definition Messages (name : MessageName) : Type :=
  match name with
  | HelloRequest_ => HelloRequest
  | HelloResponse_ => HelloResponse
  | Snapshot_ => Snapshot
  | ReportRequest_ => ReportRequest
  | ReportAck_ => ReportAck
  | ErrorResponse_ => ErrorResponse
  end.

Definition DEFAULT_POLICY : Policy := {|
  pollIntervalSeconds := 10; leaseSeconds := 300; renewalLeadSeconds := 120; maxClockSkewSeconds := 5;
  observationFreshnessSeconds := 30; policy_drainTimeoutSeconds := 30; connectTimeoutSeconds := 10;
  udpIdleTimeoutSeconds := 60; maxTcpConnectionsPerAssignment := 1024; maxUdpSessionsPerAssignment := 4096;
  maxSnapshotBytes := 4194304; maxReportBytes := 1048576; maxAssignmentsPerNode := 1000;
|}.

(** [Object.entries(policy)] *)
Definition policy_entries (p : Policy) : list (jsstr * Z) :=
  [(js "pollIntervalSeconds", pollIntervalSeconds p);
   (js "leaseSeconds", leaseSeconds p);
   (js "renewalLeadSeconds", renewalLeadSeconds p);
   (js "maxClockSkewSeconds", maxClockSkewSeconds p);
   (js "observationFreshnessSeconds", observationFreshnessSeconds p);
   (js "drainTimeoutSeconds", policy_drainTimeoutSeconds p);
   (js "connectTimeoutSeconds", connectTimeoutSeconds p);
   (js "udpIdleTimeoutSeconds", udpIdleTimeoutSeconds p);
   (js "maxTcpConnectionsPerAssignment", maxTcpConnectionsPerAssignment p);
   (js "maxUdpSessionsPerAssignment", maxUdpSessionsPerAssignment p);
   (js "maxSnapshotBytes", maxSnapshotBytes p);
   (js "maxReportBytes", maxReportBytes p);
   (js "maxAssignmentsPerNode", maxAssignmentsPerNode p)].

(** ** JSON documents *)

Definition phase_name (p : Phase) : jsstr :=
  match p with prepared => js "prepared" | active => js "active" | draining => js "draining" end.

Definition strs_json (l : list jsstr) : json := JArr (map JStr l).

Definition target_json (t : TargetEndpoint) : json :=
  JObj [(js "host", JStr (host t)); (js "port", JInt (target_port t))].

Definition listen_json (l : ListenEndpoint) : json :=
  JObj [(js "address", JStr (address l)); (js "port", JInt (listen_port l))].

Definition direct_config_json (c : DirectConfig) : json :=
  JObj [(js "target", target_json (dc_target c));
        (js "egressPolicyRevision", JInt (dc_egressPolicyRevision c));
        (js "allowedDestinationCidrs", strs_json (dc_allowedDestinationCidrs c));
        (js "allowMetadataTargets", JBool (dc_allowMetadataTargets c))].

Definition assignment_json (a : Assignment) : json :=
  JObj [(js "assignmentId", JStr (asg_assignmentId a));
        (js "forwardId", JStr (asg_forwardId a));
        (js "forwardRevision", JInt (asg_forwardRevision a));
        (js "deploymentGeneration", JInt (asg_deploymentGeneration a));
        (js "bindingFence", JInt (asg_bindingFence a));
        (js "role", JStr (js "direct"));
        (js "protocol", JStr (protocol_name (asg_protocol a)));
        (js "phase", JStr (phase_name (asg_phase a)));
        (js "listener", listen_json (asg_listener a));
        (js "driver", JObj [(js "id", JStr (js "native.direct.v1"));
                            (js "schemaVersion", JInt 1);
                            (js "configDigest", JStr (asg_configDigest a));
                            (js "config", direct_config_json (asg_config a))]);
        (js "drainTimeoutSeconds", JInt (asg_drainTimeoutSeconds a))].

Definition tombstone_json (t : Tombstone) : json :=
  JObj [(js "assignmentId", JStr (tmb_assignmentId t));
        (js "forwardId", JStr (tmb_forwardId t));
        (js "protocol", JStr (protocol_name (tmb_protocol t)));
        (js "port", JInt (tmb_port t));
        (js "bindingFence", JInt (tmb_bindingFence t));
        (js "retirementGeneration", JInt (tmb_retirementGeneration t))].

(** The Snapshot without its own digest. *)
Definition snapshot_body_json (s : Snapshot) : json :=
  JObj [(js "protocolVersion", JInt 2);
        (js "nodeId", JStr (snap_nodeId s));
        (js "sessionEpoch", JInt (snap_sessionEpoch s));
        (js "snapshotGeneration", JInt (snap_snapshotGeneration s));
        (js "complete", JBool true);
        (js "issuedAt", JStr (snap_issuedAt s));
        (js "validUntil", JStr (snap_validUntil s));
        (js "assignments", JArr (map assignment_json (snap_assignments s)));
        (js "tombstones", JArr (map tombstone_json (snap_tombstones s)))].
