(* ===== verification/Cidr.v ===== *)
(** CIDR networks (packages/contracts/src/validate.ts, [validCidr]).

    The code checks byte by byte that the bits below the prefix are clear; the
    theorem reads the address as one big-endian number and says that it is a multiple
    of the block size. *)

From S2P Require Import Prelude.
From S2P Require Import JsString.
From S2P Require Import Primitives.

Local Open Scope Z_scope.

(** [bytes.every((byte, i) => (byte & (255 >> clamp(prefix - i * 8))) === 0)], from
    index [i] on. *)
Fixpoint host_bits_clear (prefix i : Z) (bytes : list Z) : bool :=
  match bytes with
  | [] => true
  | byte :: r =>
      let bits := Z.max 0 (Z.min 8 (prefix - i * 8)) in
      (Z.land byte (Z.shiftr 255 bits) =? 0) && host_bits_clear prefix (i + 1) r
  end.

Definition validCidr (value : jsstr) : bool :=
  match split ch_slash value with
  | [addr; len] =>
      if negb (canonical_decimal len) then false else
      match ipBytes addr with
      | None => false
      | Some bytes =>
          let prefix := of_base 10 len in
          if prefix >? Z.of_nat (length bytes) * 8 then false
          else host_bits_clear prefix 0 bytes
      end
  | _ => false
  end.

(** ** Addresses as numbers *)

Definition be (bytes : list Z) : Z := fold_left (fun acc b => acc * 256 + b) bytes 0.

Definition width (bytes : list Z) : Z := 8 * Z.of_nat (length bytes).

Lemma fold_be acc bytes :
  fold_left (fun a b => a * 256 + b) bytes acc = acc * 2 ^ width bytes + be bytes.
Proof.
  unfold be, width. revert acc. induction bytes as [|b r IH]; intros acc.
  - cbn. lia.
  - cbn [fold_left]. rewrite (IH (acc * 256 + b)), (IH (0 * 256 + b)). cbn [length].
    replace (8 * Z.of_nat (S (length r))) with (8 + 8 * Z.of_nat (length r)) by lia.
    rewrite Z.pow_add_r by lia. change (2 ^ 8) with 256. ring.
Qed.

Lemma be_cons b r : be (b :: r) = b * 2 ^ width r + be r.
Proof. unfold be at 1. cbn [fold_left]. rewrite fold_be. by replace (0 * 256 + b) with b by ring. Qed.

Lemma width_cons b r : width (b :: r) = 8 + width r.
Proof. unfold width. cbn [length]. lia. Qed.

Lemma width_nonneg bytes : 0 <= width bytes.
Proof. unfold width. lia. Qed.

Lemma be_bound bytes : Forall is_byte bytes -> 0 <= be bytes < 2 ^ width bytes.
Proof.
  induction 1 as [|b r Hb HF IH]; [by vm_compute|].
  pose proof (width_nonneg r). rewrite be_cons, width_cons, Z.pow_add_r by lia.
  change (2 ^ 8) with 256. unfold is_byte in Hb. set (P := 2 ^ width r) in *.
  assert (0 <= b * P) by (apply Z.mul_nonneg_nonneg; lia).
  assert (0 <= (255 - b) * P) by (apply Z.mul_nonneg_nonneg; lia). lia.
Qed.

(** The mask [255 >> bits] keeps the remainder modulo [2 ^ (8 - bits)]. *)
Lemma mask_mod b bits : 0 <= bits <= 8 -> Z.land b (Z.shiftr 255 bits) = b mod 2 ^ (8 - bits).
Proof.
  intros H. rewrite <- Z.land_ones by lia. f_equal.
  assert (bits = 0 \/ bits = 1 \/ bits = 2 \/ bits = 3 \/ bits = 4 \/ bits = 5 \/
          bits = 6 \/ bits = 7 \/ bits = 8) as Hc by lia.
  by repeat destruct Hc as [->|Hc]; subst.
Qed.

(** A number with [m] low bits and a high part is a multiple of [2 ^ (m + c)] when
    the low bits are clear and so are [c] bits of the high part. *)
Lemma divide_high m c b y : 0 <= m -> 0 <= c -> 0 <= y < 2 ^ m ->
  (2 ^ (m + c) | b * 2 ^ m + y) <-> b mod 2 ^ c = 0 /\ y = 0.
Proof.
  intros Hm Hc Hy. rewrite Z.pow_add_r by lia.
  assert (0 < 2 ^ m) by lia. assert (0 < 2 ^ c) by lia. split.
  - intros [k E]. assert (y = 2 ^ m * (k * 2 ^ c - b)) as Ey by nia.
    assert (k * 2 ^ c - b = 0) by nia. split; [|nia].
    replace b with (k * 2 ^ c) by lia. apply Z_mod_mult.
  - intros [Hb ->]. apply Z.mod_divide in Hb as [k ->]; [|lia]. exists k. ring.
Qed.

Lemma divide_low m p b y : 0 <= p <= m ->
  (2 ^ p | b * 2 ^ m + y) <-> (2 ^ p | y).
Proof.
  intros H. assert (D : (2 ^ p | b * 2 ^ m)).
  { apply Z.divide_mul_r. exists (2 ^ (m - p)). rewrite <- Z.pow_add_r by lia. f_equal. lia. }
  split; intros Hd.
  - replace y with (b * 2 ^ m + y - b * 2 ^ m) by ring. by apply Z.divide_sub_r.
  - by apply Z.divide_add_r.
Qed.

Lemma host_bits_shift prefix i bytes :
  host_bits_clear prefix (i + 1) bytes = host_bits_clear (prefix - 8) i bytes.
Proof.
  revert i; induction bytes as [|b r IH]; intros i; [done|]. cbn [host_bits_clear].
  rewrite IH. by replace (prefix - (i + 1) * 8) with (prefix - 8 - i * 8) by ring.
Qed.

Lemma host_bits_clear_spec bytes prefix : Forall is_byte bytes -> prefix <= width bytes ->
  host_bits_clear prefix 0 bytes = true <-> (2 ^ (width bytes - Z.max 0 prefix) | be bytes).
Proof.
  intros HF. revert prefix. induction HF as [|b r Hb HF IH]; intros prefix Hp.
  - change (width []) with 0 in *. rewrite Z.max_l by lia.
    split; [intros _; apply Z.divide_1_l|done].
  - cbn [host_bits_clear]. rewrite host_bits_shift, andb_true_iff, Z.eqb_eq.
    rewrite width_cons in *. rewrite be_cons, mask_mod, Z.mul_0_l, Z.sub_0_r by lia.
    pose proof (be_bound r HF) as Hr. pose proof (width_nonneg r).
    rewrite IH by lia. destruct (Z.le_gt_cases 8 prefix).
    + rewrite !Z.max_r by lia. rewrite Z.min_l by lia. cbn [Z.sub Z.add].
      replace (8 - 8) with 0 by ring. rewrite Z.mod_1_r.
      replace (8 + width r - prefix) with (width r - (prefix - 8)) by ring.
      rewrite divide_low by lia. naive_solver.
    + rewrite (Z.max_l 0 (prefix - 8)), Z.sub_0_r by lia.
      replace (8 + width r - Z.max 0 prefix)
        with (width r + (8 - Z.max 0 (Z.min 8 prefix))) by lia.
      rewrite divide_high by lia. split; intros [Hm Hd]; (split; [done|]).
      * destruct Hd as [k Hk]. set (P := 2 ^ width r) in *.
        assert (k < 1) by (apply (Z.mul_lt_mono_pos_r P); lia).
        assert (-1 < k) by (apply (Z.mul_lt_mono_pos_r P); lia). assert (k = 0) as -> by lia. lia.
      * rewrite Hd. apply Z.divide_0_r.
Qed.

Lemma canonical_decimal_all_digits s : canonical_decimal s = true -> forallb is_digit s = true.
Proof. destruct s; [done|]. unfold canonical_decimal. by intros [? _]%andb_prop. Qed.

Lemma canonical_decimal_nonneg s : canonical_decimal s = true -> 0 <= of_base 10 s.
Proof. intros H. by apply of_base_10_nonneg, canonical_decimal_all_digits. Qed.

Lemma canonical_decimal_lacks_slash s : canonical_decimal s = true -> lacks ch_slash s.
Proof. intros H. apply is_digit_lacks; [done|]. by apply canonical_decimal_all_digits. Qed.

Lemma validCidr_parts (value : jsstr) : validCidr value = true ->
  exists addr len bytes,
    value = slash addr len /\ lacks ch_slash addr /\ canonical_decimal len = true /\
    ipBytes addr = Some bytes /\ of_base 10 len <= width bytes /\
    (2 ^ (width bytes - of_base 10 len) | be bytes).
Proof.
  unfold validCidr. pose proof (join_split ch_slash value) as Hj.
  pose proof (split_fields_lack ch_slash value) as Hl.
  destruct (split ch_slash value) as [|addr [|len [|]]]; try done.
  destruct (canonical_decimal len) eqn:Ec; [|done]. cbn [negb].
  destruct (ipBytes addr) as [bytes|] eqn:Eb; [|done].
  destruct (_ >? _) eqn:E; [done|]. intros H. exists addr, len, bytes.
  assert (of_base 10 len <= width bytes) by (unfold width; lia).
  split; [by rewrite <- Hj|]. split; [by inversion Hl|]. do 3 (split; [done|]).
  apply host_bits_clear_spec in H; [|by apply ipBytes_wf in Eb as [_ ?]|done].
  by rewrite Z.max_r in H by (apply canonical_decimal_nonneg; done).
Qed.

(** [validCidr] accepts exactly the canonical texts [address/length] whose address
    parses, whose length is at most the address width, and whose address, read as a
    big-endian number, is a multiple of the block size: no bit below the prefix is
    set. *)
Theorem validCidr_network (value : jsstr) :
  validCidr value = true <->
  exists addr len bytes,
    value = slash addr len /\ lacks ch_slash addr /\ canonical_decimal len = true /\
    ipBytes addr = Some bytes /\ of_base 10 len <= width bytes /\
    (2 ^ (width bytes - of_base 10 len) | be bytes).
Proof.
  split.
  - apply validCidr_parts.
  - intros (addr & len & bytes & -> & Ha & Hl & Hb & Hp & Hd).
    unfold validCidr, slash. rewrite split_sep by done.
    rewrite split_lacks by (apply canonical_decimal_lacks_slash; done).
    rewrite Hl, Hb. cbn [negb]. unfold width in *.
    destruct (_ >? _) eqn:E; [lia|]. apply host_bits_clear_spec; unfold width; [|lia|].
    + by apply ipBytes_wf in Hb as [_ ?].
    + by rewrite Z.max_r by (apply canonical_decimal_nonneg; done).
Qed.
