(* ===== verification/Validate.v ===== *)
(** Validation of ADP/2 messages (packages/contracts/src/validate.ts).

    [validateSnapshot], [validatePolicy] and the report checks of [parseMessage] are
    the whole functions, in the order in which the code tests and throws.  The
    structural validators that Ajv compiles from the JSON schemas are a parameter
    (class [Adp2Schemas]): a validator either rejects the parsed JSON or yields the
    typed message it denotes. *)

From S2P Require Import Prelude.
From S2P Require Import JsString.
From S2P Require Import JsValue.
From S2P Require Import Primitives.
From S2P Require Import Json.
From S2P Require Import Forward.
From S2P Require Import Time.
From S2P Require Import Digest.
From S2P Require Import Types.
From S2P Require Import Cidr.

Local Open Scope Z_scope.

(** ** Policy *)

Definition ends_with (suffix s : jsstr) : bool :=
  str_eqb (drop (length s - length suffix) s) suffix.

Definition max_seconds : Z := MAX_COUNTER / 1000.

Definition validatePolicy (policy : Policy) : outcome unit :=
  _ ← throw_if ((renewalLeadSeconds policy <=? pollIntervalSeconds policy) ||
                (leaseSeconds policy <=? renewalLeadSeconds policy) ||
                (renewalLeadSeconds policy <=?
                   2 * pollIntervalSeconds policy + maxClockSkewSeconds policy))
        "INVALID_CONFIG" "Invalid renewal timing";
  each (fun '(key, value) =>
          throw_if (ends_with (js "Seconds") key && (max_seconds <? value))
            "INVALID_CONFIG" "Duration overflows milliseconds")
       (policy_entries policy).

(** ** Snapshots *)

Definition canonical_host (h : jsstr) : bool := bool_decide (normalize_target_host h = Some h).
Definition canonical_ip (a : jsstr) : bool := bool_decide (normalizeIp a = Some a).

Definition logical_key (forwardId : jsstr) (protocol : NetworkProtocol) (role : jsstr) : jsstr :=
  slash (slash forwardId (protocol_name protocol)) role.

Definition slot_key (protocol : NetworkProtocol) (port : Z) : jsstr :=
  slash (protocol_name protocol) (num_to_string port).

Definition retired_key (protocol : NetworkProtocol) (port fence : Z) : jsstr :=
  slash (slot_key protocol port) (num_to_string fence).

(** The body of the loop over the assignments; the state is the set of logical keys,
    the set of physical slots and the previous id. *)
Definition check_assignment `{Hashing} (st : list jsstr * list jsstr * jsstr) (a : Assignment)
    : outcome (list jsstr * list jsstr * jsstr) :=
  let '(logical, physical, previous) := st in
  let logicalKey := logical_key (asg_forwardId a) (asg_protocol a) (js "direct") in
  let key := slot_key (asg_protocol a) (listen_port (asg_listener a)) in
  let config := asg_config a in
  _ ← throw_if (str_leb (asg_assignmentId a) previous || includes logical logicalKey)
        "RESOURCE_CONFLICT" "Assignments must be unique and sorted";
  _ ← throw_if (includes physical key) "RESOURCE_CONFLICT" "Conflicting physical slot";
  _ ← throw_if (negb (canonical_host (host (dc_target config))))
        "INVALID_CONFIG" "Noncanonical target host";
  _ ← throw_if (existsb (fun cidr => negb (validCidr cidr)) (dc_allowedDestinationCidrs config))
        "INVALID_CONFIG" "Invalid CIDR network";
  _ ← (b ← digest_differs (direct_config_json config) (asg_configDigest a);
       throw_if b "INTEGRITY_FAILURE" "Driver config digest mismatch");
  Returns (logicalKey :: logical, key :: physical, asg_assignmentId a).

(** [a || b] on numbers. *)
Definition js_or (a b : Z) : Z := if a =? 0 then b else a.

(** [a < b ? -1 : a > b ? 1 : 0] on strings. *)
Definition cmp_str (a b : jsstr) : Z := if str_ltb a b then -1 else if str_ltb b a then 1 else 0.

(** The order of retirements: protocol, port, generation, assignment. *)
Definition retirement := (NetworkProtocol * Z * Z * jsstr)%type.

Definition retirement_order (p t : retirement) : Z :=
  let '(pp, pport, pgen, pid) := p in
  let '(tp, tport, tgen, tid) := t in
  if str_ltb (protocol_name pp) (protocol_name tp) then -1
  else if str_ltb (protocol_name tp) (protocol_name pp) then 1
  else js_or (pport - tport) (js_or (pgen - tgen) (cmp_str pid tid)).

Definition tombstone_rank (t : Tombstone) : retirement :=
  (tmb_protocol t, tmb_port t, tmb_retirementGeneration t, tmb_assignmentId t).

Definition check_tombstone (s : Snapshot) (st : list jsstr * option Tombstone) (t : Tombstone)
    : outcome (list jsstr * option Tombstone) :=
  let '(retired, previousTombstone) := st in
  let key := retired_key (tmb_protocol t) (tmb_port t) (tmb_bindingFence t) in
  _ ← throw_if (includes retired key ||
                (snap_snapshotGeneration s <? tmb_retirementGeneration t))
        "INVALID_CONFIG" "Invalid retirement high-water";
  _ ← match previousTombstone with
      | None => Returns tt
      | Some p => throw_if (0 <=? retirement_order (tombstone_rank p) (tombstone_rank t))
                    "INVALID_CONFIG" "Tombstones must be unique and sorted"
      end;
  _ ← throw_if (existsb (fun a => bool_decide (asg_protocol a = tmb_protocol t) &&
                                  (listen_port (asg_listener a) =? tmb_port t) &&
                                  (asg_bindingFence a <=? tmb_bindingFence t))
                        (snap_assignments s))
        "FENCING_REJECTED" "Assignment resurrects retired slot";
  Returns (key :: retired, Some t).

Definition validateSnapshot `{Hashing} (s : Snapshot) : outcome unit :=
  order ← compareTimes (snap_issuedAt s) (snap_validUntil s);
  _ ← throw_if (0 <=? order) "INVALID_CONFIG" "Invalid snapshot time range";
  _ ← (b ← digest_differs (snapshot_body_json s) (snap_snapshotDigest s);
       throw_if b "INTEGRITY_FAILURE" "Snapshot digest mismatch");
  _ ← fold_each check_assignment (snap_assignments s) ([], [], []);
  _ ← fold_each (check_tombstone s) (snap_tombstones s) ([], None);
  Returns tt.

(** ** Reports *)

Definition run_key (assignmentId : jsstr) (deploymentGeneration bindingFence : Z) : jsstr :=
  slash (slash assignmentId (num_to_string deploymentGeneration)) (num_to_string bindingFence).

Definition requiredPhase (c : Condition) : option ObservedPhase :=
  match c with
  | c_ready => Some (present active)
  | c_prepared => Some (present prepared)
  | c_removed => Some absent
  | c_draining => Some (present draining)
  | _ => None
  end.

Definition check_observation (seen : list jsstr) (obs : Observation) : outcome (list jsstr) :=
  let key := run_key (obs_assignmentId obs) (obs_deploymentGeneration obs) (obs_bindingFence obs) in
  _ ← throw_if (includes seen key) "INVALID_CONFIG" "Duplicate observation";
  _ ← throw_if (match requiredPhase (obs_condition obs) with
                | None => false
                | Some p => negb (bool_decide (p = obs_phase obs))
                end) "INVALID_CONFIG" "Phase and condition disagree";
  Returns (key :: seen).

Definition check_drain (drains : list jsstr) (d : Drain) : outcome (list jsstr) :=
  let key := run_key (drain_assignmentId d) (drain_deploymentGeneration d) (drain_bindingFence d) in
  _ ← throw_if (includes drains key) "INVALID_CONFIG" "Duplicate drain report";
  order ← compareTimes (drain_startedAt d) (drain_deadline d);
  _ ← throw_if ((0 <? order) ||
                (bool_decide (drain_condition d = d_removed) &&
                 negb (drain_remainingConnections d =? 0)))
        "INVALID_CONFIG" "Invalid drain report";
  Returns (key :: drains).

Definition validateReport (report : ReportRequest) : outcome unit :=
  _ ← validateTime (rep_observedAt report);
  _ ← throw_if ((rep_acceptedSnapshotGeneration report =? 0) &&
                ((0 <? length (rep_observations report))%nat || (0 <? length (rep_drains report))%nat))
        "INVALID_CONFIG" "Unaccepted snapshot cannot have observations";
  _ ← fold_each check_observation (rep_observations report) [];
  _ ← fold_each check_drain (rep_drains report) [];
  Returns tt.

(** ** Messages *)

Class Adp2Schemas := adp2_schema : forall name : MessageName, json -> option (Messages name).

Definition message_bytes (name : MessageName) : Z :=
  match name with ReportRequest_ => 1048576 | _ => 4194304 end.

Definition message_name (name : MessageName) : string :=
  match name with
  | HelloRequest_ => "HelloRequest" | HelloResponse_ => "HelloResponse" | Snapshot_ => "Snapshot"
  | ReportRequest_ => "ReportRequest" | ReportAck_ => "ReportAck" | ErrorResponse_ => "ErrorResponse"
  end.

Definition semantic_checks `{Hashing} (name : MessageName) : Messages name -> outcome unit :=
  match name return Messages name -> outcome unit with
  | HelloResponse_ => fun hello =>
      _ ← validateTime (hres_serverTime hello); validatePolicy (hres_policy hello)
  | Snapshot_ => validateSnapshot
  | ReportRequest_ => validateReport
  | _ => fun _ => Returns tt
  end.

Definition parseMessage `{Hashing, Adp2Schemas} (name : MessageName) (raw : jsstr)
    : outcome (Messages name) :=
  value ← parseJson raw (message_bytes name);
  match adp2_schema name value with
  | None => Throws (Exn "INVALID_CONFIG" ("Invalid " ++ message_name name ++ " structure"))
  | Some message => _ ← semantic_checks name message; Returns message
  end.

Definition validateStructure `{Adp2Schemas} (name : MessageName) (raw : jsstr) : bool :=
  match parseJson raw (message_bytes name) with
  | Returns value => match adp2_schema name value with Some _ => true | None => false end
  | Throws _ => false
  end.

(** ** Keys determine what they are built from *)

Lemma protocol_lacks_slash p : lacks ch_slash (protocol_name p).
Proof. destruct p; repeat constructor; done. Qed.

Lemma protocol_name_inj p q : protocol_name p = protocol_name q -> p = q.
Proof. by destruct p, q. Qed.

Lemma slot_key_inj p n p' n' : slot_key p n = slot_key p' n' <-> (p, n) = (p', n').
Proof.
  split; [|by intros [= -> ->]]. unfold slot_key. intros E.
  apply slash_inj in E as [Ep En]; try apply num_to_string_lacks_slash.
  apply protocol_name_inj in Ep. apply num_to_string_inj in En. by subst.
Qed.

Lemma retired_key_inj p n f p' n' f' :
  retired_key p n f = retired_key p' n' f' <-> (p, n, f) = (p', n', f').
Proof.
  split; [|by intros [= -> -> ->]]. unfold retired_key. intros E.
  apply slash_inj in E as [Es Ef]; try apply num_to_string_lacks_slash.
  apply slot_key_inj in Es as [= -> ->]. apply num_to_string_inj in Ef. by subst.
Qed.

Lemma logical_key_inj f p r f' p' r' : lacks ch_slash r -> lacks ch_slash r' ->
  logical_key f p r = logical_key f' p' r' <-> (f, p, r) = (f', p', r').
Proof.
  intros Hr Hr'. split; [|by intros [= -> -> ->]]. unfold logical_key. intros E.
  apply slash_inj in E as [E ->]; [|done..].
  apply slash_inj in E as [-> E]; try apply protocol_lacks_slash.
  apply protocol_name_inj in E. by subst.
Qed.

Lemma run_key_inj a d f a' d' f' :
  run_key a d f = run_key a' d' f' <-> (a, d, f) = (a', d', f').
Proof.
  split; [|by intros [= -> -> ->]]. unfold run_key. intros E.
  apply slash_inj in E as [E Ef]; try apply num_to_string_lacks_slash.
  apply slash_inj in E as [-> Ed]; try apply num_to_string_lacks_slash.
  apply num_to_string_inj in Ed, Ef. by subst.
Qed.

(** ** The retirement order is lexicographic *)

Definition protocol_rank (p : NetworkProtocol) : Z := match p with tcp => 0 | udp => 1 end.

Definition retirement_lt (p t : retirement) : Prop :=
  let '(pp, pport, pgen, pid) := p in
  let '(tp, tport, tgen, tid) := t in
  protocol_rank pp < protocol_rank tp \/ protocol_rank pp = protocol_rank tp /\
  (pport < tport \/ pport = tport /\
  (pgen < tgen \/ pgen = tgen /\ str_ltb pid tid = true)).

Lemma cmp_str_neg a b : cmp_str a b < 0 <-> str_ltb a b = true.
Proof. unfold cmp_str. destruct (str_ltb a b), (str_ltb b a); split; done || lia. Qed.

Lemma js_or_neg a b : js_or a b < 0 <-> a < 0 \/ a = 0 /\ b < 0.
Proof. unfold js_or. destruct (a =? 0) eqn:E; propify; lia. Qed.

Lemma protocol_order p q :
  str_ltb (protocol_name p) (protocol_name q) = (protocol_rank p <? protocol_rank q).
Proof. by destruct p, q; vm_compute. Qed.

Lemma retirement_order_neg p t : retirement_order p t < 0 <-> retirement_lt p t.
Proof.
  destruct p as [[[pp pport] pgen] pid], t as [[[tp tport] tgen] tid].
  unfold retirement_order, retirement_lt. rewrite <- cmp_str_neg.
  rewrite !protocol_order. destruct (_ <? _) eqn:E; [propify; lia|].
  destruct (protocol_rank tp <? _) eqn:E'; propify; [lia|]. rewrite !js_or_neg. lia.
Qed.

#[export] Instance retirement_lt_trans : Transitive retirement_lt.
Proof.
  intros [[[? ?] ?] a] [[[? ?] ?] b] [[[? ?] ?] c]. unfold retirement_lt.
  pose proof (str_ltb_trans a b c). naive_solver lia.
Qed.

#[export] Instance retirement_lt_irrefl : Irreflexive retirement_lt.
Proof.
  intros [[[? ?] ?] a] H. unfold retirement_lt in H. rewrite str_ltb_irrefl in H. naive_solver lia.
Qed.

(** ** What a valid Snapshot is *)

Definition before (a b : jsstr) : Prop := exists z, compareTimes a b = Returns z /\ z < 0.

Definition str_lt (a b : jsstr) : Prop := str_ltb a b = true.

#[export] Instance str_lt_transitive : Transitive str_lt := str_lt_trans.

(** Ids in strictly ascending order, none of them empty. *)
Definition ids_ordered (ids : list jsstr) : Prop := StronglySorted str_lt ids /\ [] ∉ ids.

Lemma chain_ids ids : chain str_lt [] ids <-> ids_ordered ids.
Proof.
  rewrite chain_StronglySorted by apply _. unfold ids_ordered. split.
  - intros [HS HF]%StronglySorted_inv. split; [done|]. intros Hin.
    rewrite Forall_forall in HF. by specialize (HF _ Hin).
  - intros [HS Hn]. constructor; [done|]. apply Forall_forall. intros [|c x] Hx; [|done].
    by destruct (Hn Hx).
Qed.

Record assignment_valid `{Hashing} (a : Assignment) : Prop := {
  av_host : normalize_target_host (host (dc_target (asg_config a))) =
            Some (host (dc_target (asg_config a)));
  av_cidrs : Forall (fun c => validCidr c = true) (dc_allowedDestinationCidrs (asg_config a));
  av_digest : digests_to (direct_config_json (asg_config a)) (asg_configDigest a);
}.

Record snapshot_valid `{Hashing} (s : Snapshot) : Prop := {
  sv_time : before (snap_issuedAt s) (snap_validUntil s);
  sv_digest : digests_to (snapshot_body_json s) (snap_snapshotDigest s);
  sv_ids : ids_ordered (map asg_assignmentId (snap_assignments s));
  sv_logical : NoDup (map (fun a => (asg_forwardId a, asg_protocol a)) (snap_assignments s));
  sv_physical :
    NoDup (map (fun a => (asg_protocol a, listen_port (asg_listener a))) (snap_assignments s));
  sv_assignments : Forall assignment_valid (snap_assignments s);
  sv_retired :
    NoDup (map (fun t => (tmb_protocol t, tmb_port t, tmb_bindingFence t)) (snap_tombstones s));
  sv_horizon : Forall (fun t => tmb_retirementGeneration t <= snap_snapshotGeneration s) (snap_tombstones s);
  sv_ordered : StronglySorted retirement_lt (map tombstone_rank (snap_tombstones s));
  sv_fenced : forall a t, a ∈ snap_assignments s -> t ∈ snap_tombstones s ->
    asg_protocol a = tmb_protocol t -> listen_port (asg_listener a) = tmb_port t ->
    tmb_bindingFence t < asg_bindingFence a;
}.

Lemma str_leb_false a b : str_leb a b = false <-> str_lt b a.
Proof. unfold str_leb. by rewrite negb_false_iff. Qed.

Lemma cidrs_guard l :
  existsb (fun cidr => negb (validCidr cidr)) l = false <-> Forall (fun c => validCidr c = true) l.
Proof. rewrite existsb_false. apply Forall_iff. intros x. apply negb_false_iff. Qed.

Lemma canonical_host_true h : canonical_host h = true <-> normalize_target_host h = Some h.
Proof. apply bool_decide_eq_true. Qed.

Lemma canonical_ip_true a : canonical_ip a = true <-> normalizeIp a = Some a.
Proof. apply bool_decide_eq_true. Qed.

#[export] Hint Rewrite str_leb_false cidrs_guard canonical_host_true canonical_ip_true : guards.

Lemma assignment_valid_iff `{Hashing} a : assignment_valid a <->
  normalize_target_host (host (dc_target (asg_config a))) = Some (host (dc_target (asg_config a))) /\
  Forall (fun c => validCidr c = true) (dc_allowedDestinationCidrs (asg_config a)) /\
  digests_to (direct_config_json (asg_config a)) (asg_configDigest a).
Proof. split; [by intros []|by intros (? & ? & ?)]. Qed.

Lemma check_assignment_step `{Hashing} st a st' :
  check_assignment st a = Returns st' <->
  st' = (logical_key (asg_forwardId a) (asg_protocol a) (js "direct") :: st.1.1,
         slot_key (asg_protocol a) (listen_port (asg_listener a)) :: st.1.2, asg_assignmentId a) /\
  (str_lt st.2 (asg_assignmentId a) /\
   (logical_key (asg_forwardId a) (asg_protocol a) (js "direct") ∉ st.1.1) /\
   (slot_key (asg_protocol a) (listen_port (asg_listener a)) ∉ st.1.2) /\ assignment_valid a).
Proof.
  destruct st as [[L P] prev]. unfold check_assignment. cbn [fst snd].
  autorewrite with guards.
  rewrite assignment_valid_iff. tauto.
Qed.

Definition next_assignment (st : list jsstr * list jsstr * jsstr) (a : Assignment)
    : list jsstr * list jsstr * jsstr :=
  (logical_key (asg_forwardId a) (asg_protocol a) (js "direct") :: st.1.1,
   slot_key (asg_protocol a) (listen_port (asg_listener a)) :: st.1.2, asg_assignmentId a).

Lemma check_assignments `{Hashing} l {B} (k : outcome B) r :
  (fold_each check_assignment l ([], [], []) ≫= fun _ => k) = Returns r <->
  (ids_ordered (map asg_assignmentId l) /\
   NoDup (map (fun a => (asg_forwardId a, asg_protocol a)) l) /\
   NoDup (map (fun a => (asg_protocol a, listen_port (asg_listener a))) l) /\
   Forall assignment_valid l) /\ k = Returns r.
Proof.
  rewrite (fold_each_seq next_assignment _ _ _ _ _ _ check_assignment_step), !walk_and, walk_Forall.
  rewrite (walk_chain _ str_lt snd asg_assignmentId) by done. rewrite chain_ids.
  rewrite (walk_fresh _ (fun st => st.1.1)
             (fun a => logical_key (asg_forwardId a) (asg_protocol a) (js "direct"))) by done.
  rewrite (walk_fresh _ (fun st => st.1.2)
             (fun a => slot_key (asg_protocol a) (listen_port (asg_listener a)))) by done.
  cbn [fst snd]. rewrite !fresh_from_start.
  rewrite (NoDup_map_iff _ (fun a => (asg_forwardId a, asg_protocol a))).
  2: { intros x y. rewrite logical_key_inj by (repeat constructor; done). split; congruence. }
  rewrite (NoDup_map_iff (fun a => slot_key _ _) (fun a => (asg_protocol a, listen_port (asg_listener a)))).
  2: { intros x y. apply slot_key_inj. }
  done.
Qed.

Definition slot_fenced (s : Snapshot) (t : Tombstone) : Prop := forall a, a ∈ snap_assignments s ->
  asg_protocol a = tmb_protocol t -> listen_port (asg_listener a) = tmb_port t ->
  tmb_bindingFence t < asg_bindingFence a.

Lemma fence_guard s t :
  existsb (fun a => bool_decide (asg_protocol a = tmb_protocol t) &&
                    (listen_port (asg_listener a) =? tmb_port t) &&
                    (asg_bindingFence a <=? tmb_bindingFence t)) (snap_assignments s) = false <->
  slot_fenced s t.
Proof.
  rewrite existsb_false, Forall_forall. unfold slot_fenced. apply forall_proper; intros a.
  rewrite !andb_false_iff, bool_decide_eq_false, Z.eqb_neq, Z.leb_gt.
  destruct (decide (asg_protocol a = tmb_protocol t)); naive_solver lia.
Qed.

Definition next_tombstone (st : list jsstr * option Tombstone) (t : Tombstone)
    : list jsstr * option Tombstone :=
  (retired_key (tmb_protocol t) (tmb_port t) (tmb_bindingFence t) :: st.1, Some t).

Definition tombstone_lt (p t : Tombstone) : Prop := retirement_lt (tombstone_rank p) (tombstone_rank t).

#[export] Instance tombstone_lt_trans : Transitive tombstone_lt.
Proof. intros p q r. unfold tombstone_lt. by etransitivity. Qed.

Lemma check_tombstone_step s st t st' :
  check_tombstone s st t = Returns st' <->
  st' = next_tombstone st t /\
  ((retired_key (tmb_protocol t) (tmb_port t) (tmb_bindingFence t) ∉ st.1) /\
   tmb_retirementGeneration t <= snap_snapshotGeneration s /\
   match st.2 with Some p => tombstone_lt p t | None => True end /\ slot_fenced s t).
Proof.
  destruct st as [R [p|]]; unfold check_tombstone, next_tombstone, tombstone_lt; cbn [fst snd];
    change (Returns tt) with (throw_if false "" ""); autorewrite with guards;
    rewrite fence_guard, <- ?retirement_order_neg; intuition.
Qed.

Lemma StronglySorted_map {A B} (R : B -> B -> Prop) (f : A -> B) l :
  StronglySorted (fun x y => R (f x) (f y)) l <-> StronglySorted R (map f l).
Proof.
  induction l as [|x r IH]; cbn; [by split; constructor|]. split; intros [HS HF]%StronglySorted_inv;
    (constructor; [tauto|]); by rewrite ?Forall_map in *.
Qed.

Lemma check_tombstones s {B} (k : outcome B) r :
  (fold_each (check_tombstone s) (snap_tombstones s) ([], None) ≫= fun _ => k) = Returns r <->
  (NoDup (map (fun t => (tmb_protocol t, tmb_port t, tmb_bindingFence t)) (snap_tombstones s)) /\
   Forall (fun t => tmb_retirementGeneration t <= snap_snapshotGeneration s) (snap_tombstones s) /\
   StronglySorted retirement_lt (map tombstone_rank (snap_tombstones s)) /\
   Forall (slot_fenced s) (snap_tombstones s)) /\ k = Returns r.
Proof.
  rewrite (fold_each_seq next_tombstone _ _ _ _ _ _ (check_tombstone_step s)), !walk_and, !walk_Forall.
  rewrite (walk_chain_opt _ tombstone_lt snd) by done. cbn [snd].
  rewrite chain_opt_StronglySorted by apply _. rewrite <- StronglySorted_map.
  rewrite (walk_fresh _ fst
     (fun t => retired_key (tmb_protocol t) (tmb_port t) (tmb_bindingFence t))) by done.
  cbn [fst]. rewrite fresh_from_start.
  rewrite (NoDup_map_iff _ (fun t => (tmb_protocol t, tmb_port t, tmb_bindingFence t))); [done|].
  intros x y. apply retired_key_inj.
Qed.

Lemma before_guard a b c m {B} (k : outcome B) r :
  (compareTimes a b ≫= fun o => throw_if (0 <=? o) c m ≫= fun _ => k) = Returns r <->
  before a b /\ k = Returns r.
Proof.
  unfold before. rewrite bind_Returns. setoid_rewrite guard_seq. setoid_rewrite Z.leb_gt. naive_solver.
Qed.

#[export] Hint Rewrite @before_guard : guards.

Lemma validateSnapshot_valid `{Hashing} s : validateSnapshot s = Returns tt <-> snapshot_valid s.
Proof.
  unfold validateSnapshot. rewrite before_guard, digest_guard_seq, check_assignments, check_tombstones.
  split.
  - intros (? & ? & (? & ? & ? & ?) & (? & ? & ? & HF) & _). rewrite Forall_forall in HF.
    split; try done. intros a t Ha Ht. exact (HF t Ht a Ha).
  - intros []. split_and!; try done. apply Forall_forall. intros t Ht a Ha. eauto.
Qed.

(** [validateSnapshot] accepts exactly the valid Snapshots: a non-empty validity
    period, the recorded digests, assignments in strictly ascending id order with no
    two on the same Forward and protocol or the same physical slot, canonical targets
    and networks, tombstones strictly ordered, within the generation and without
    repeated fence, and no assignment on a retired slot whose fence is not above the
    retired one. *)
Theorem validateSnapshot_spec `{Hashing} (s : Snapshot) :
  validateSnapshot s = Returns tt <-> snapshot_valid s.
Proof. apply validateSnapshot_valid. Qed.

(** ** Policies *)

(** [validatePolicy] accepts exactly the policies whose renewal starts strictly
    inside the lease and more than two polls and the clock skew before its end, and
    all of whose durations are representable in milliseconds; the default policy is
    one of them. *)
Theorem validatePolicy_spec (p : Policy) :
  (validatePolicy p = Returns tt <->
   pollIntervalSeconds p < renewalLeadSeconds p < leaseSeconds p /\
   2 * pollIntervalSeconds p + maxClockSkewSeconds p < renewalLeadSeconds p /\
   Forall (fun d => d * 1000 <= MAX_COUNTER)
     [pollIntervalSeconds p; leaseSeconds p; renewalLeadSeconds p; maxClockSkewSeconds p;
      observationFreshnessSeconds p; policy_drainTimeoutSeconds p; connectTimeoutSeconds p;
      udpIdleTimeoutSeconds p]) /\
  validatePolicy DEFAULT_POLICY = Returns tt.
Proof.
  split; [|by vm_compute]. unfold validatePolicy. rewrite guard_seq, each_Returns.
  unfold policy_entries. rewrite !Forall_cons, !Forall_nil.
  repeat match goal with
  | |- context [ends_with ?x ?y] =>
      let b := eval vm_compute in (ends_with x y) in change (ends_with x y) with b
  end.
  rewrite !throw_if_Returns, !orb_false_iff, !Z.leb_gt. cbn [andb]. rewrite !Z.ltb_ge.
  change max_seconds with 9007199254740. unfold MAX_COUNTER. intuition lia.
Qed.

(** ** Reports *)

Record report_valid (r : ReportRequest) : Prop := {
  rv_time : exists i, instant (rep_observedAt r) = Returns i;
  rv_unaccepted : rep_acceptedSnapshotGeneration r = 0 ->
    rep_observations r = [] /\ rep_drains r = [];
  rv_observations :
    NoDup (map (fun o => (obs_assignmentId o, obs_deploymentGeneration o, obs_bindingFence o))
             (rep_observations r));
  rv_phases : Forall (fun o => forall p, requiredPhase (obs_condition o) = Some p -> obs_phase o = p)
                (rep_observations r);
  rv_drains :
    NoDup (map (fun d => (drain_assignmentId d, drain_deploymentGeneration d, drain_bindingFence d))
             (rep_drains r));
  rv_deadlines : Forall (fun d => exists z, compareTimes (drain_startedAt d) (drain_deadline d) = Returns z /\
                                            z <= 0) (rep_drains r);
  rv_removed : Forall (fun d => drain_condition d = d_removed -> drain_remainingConnections d = 0)
                 (rep_drains r);
}.

Definition phase_agrees (o : Observation) : Prop :=
  forall p, requiredPhase (obs_condition o) = Some p -> obs_phase o = p.

Lemma check_observation_step seen o seen' :
  check_observation seen o = Returns seen' <->
  seen' = run_key (obs_assignmentId o) (obs_deploymentGeneration o) (obs_bindingFence o) :: seen /\
  ((run_key (obs_assignmentId o) (obs_deploymentGeneration o) (obs_bindingFence o) ∉ seen) /\ phase_agrees o).
Proof.
  unfold check_observation, phase_agrees. autorewrite with guards.
  destruct (requiredPhase _); autorewrite with guards; naive_solver.
Qed.

Definition drain_ok (d : Drain) : Prop :=
  (exists z, compareTimes (drain_startedAt d) (drain_deadline d) = Returns z /\ z <= 0) /\
  (drain_condition d = d_removed -> drain_remainingConnections d = 0).

Lemma check_drain_step seen d seen' :
  check_drain seen d = Returns seen' <->
  seen' = run_key (drain_assignmentId d) (drain_deploymentGeneration d) (drain_bindingFence d) :: seen /\
  ((run_key (drain_assignmentId d) (drain_deploymentGeneration d) (drain_bindingFence d) ∉ seen) /\
   drain_ok d).
Proof.
  unfold check_drain, drain_ok. rewrite guard_seq, includes_false, bind_Returns.
  setoid_rewrite guard_seq. setoid_rewrite orb_false_iff. setoid_rewrite andb_false_iff.
  setoid_rewrite bool_decide_eq_false. setoid_rewrite negb_false_iff.
  setoid_rewrite Z.eqb_eq. setoid_rewrite Z.ltb_ge. setoid_rewrite Returns_inj_iff.
  destruct (decide (drain_condition d = d_removed)); naive_solver.
Qed.

Lemma validateTime_seq t {B} (k : outcome B) r :
  (validateTime t ≫= fun _ => k) = Returns r <-> (exists i, instant t = Returns i) /\ k = Returns r.
Proof. unfold validateTime. destruct (instant t); cbn; naive_solver. Qed.

Lemma unaccepted_guard g (os : list Observation) (ds : list Drain) :
  (g =? 0) && ((0 <? length os)%nat || (0 <? length ds)%nat) = false <-> (g = 0 -> os = [] /\ ds = []).
Proof. destruct (g =? 0) eqn:E, os, ds; propify; cbn; naive_solver. Qed.

Lemma validateReport_valid r : validateReport r = Returns tt <-> report_valid r.
Proof.
  unfold validateReport. rewrite validateTime_seq, guard_seq, unaccepted_guard.
  rewrite (fold_each_seq (fun s o => run_key (obs_assignmentId o) _ _ :: s) _ _ _ _ _ _ check_observation_step).
  rewrite (fold_each_seq (fun s d => run_key (drain_assignmentId d) _ _ :: s) _ _ _ _ _ _ check_drain_step).
  rewrite !walk_and, !walk_Forall.
  rewrite (walk_fresh _ (fun s => s)
    (fun o => run_key (obs_assignmentId o) (obs_deploymentGeneration o) (obs_bindingFence o))) by done.
  rewrite (walk_fresh _ (fun s => s)
    (fun d => run_key (drain_assignmentId d) (drain_deploymentGeneration d) (drain_bindingFence d))) by done.
  rewrite !fresh_from_start.
  rewrite (NoDup_map_iff (fun o => run_key _ _ _)
    (fun o => (obs_assignmentId o, obs_deploymentGeneration o, obs_bindingFence o)))
    by (intros; apply run_key_inj).
  rewrite (NoDup_map_iff (fun d => run_key _ _ _)
    (fun d => (drain_assignmentId d, drain_deploymentGeneration d, drain_bindingFence d)))
    by (intros; apply run_key_inj).
  unfold drain_ok. rewrite Forall_and. split; [by intros (? & ? & (? & ?) & (? & ? & ?) & _)|by intros []].
Qed.

(** ** Messages *)

Definition policy_valid (p : Policy) : Prop := validatePolicy p = Returns tt.

Definition message_valid `{Hashing} (name : MessageName) : Messages name -> Prop :=
  match name return Messages name -> Prop with
  | HelloResponse_ => fun hello =>
      (exists i, instant (hres_serverTime hello) = Returns i) /\ policy_valid (hres_policy hello)
  | Snapshot_ => snapshot_valid
  | ReportRequest_ => report_valid
  | _ => fun _ => True
  end.

Lemma semantic_checks_valid `{Hashing} name m :
  semantic_checks name m = Returns tt <-> message_valid name m.
Proof.
  destruct name; cbn [semantic_checks message_valid]; try done.
  - apply validateTime_seq.
  - apply validateSnapshot_valid.
  - apply validateReport_valid.
Qed.

(** The wire boundary: [parseMessage] returns a message exactly when the text is
    within its size limit and one well-formed JSON document, the schema accepts the
    document as that message, and the message satisfies the semantic rules of its
    type (snapshot, report or policy); such a text also passes [validateStructure]. *)
Theorem parseMessage_spec `{Hashing, Adp2Schemas} (name : MessageName) (raw : jsstr) (m : Messages name) :
  (parseMessage name raw = Returns m <->
   exists v, utf8_length raw <= message_bytes name /\ parseJson raw (message_bytes name) = Returns v /\
             json_ok v /\ adp2_schema name v = Some m /\ message_valid name m) /\
  (parseMessage name raw = Returns m -> validateStructure name raw = true).
Proof.
  assert (Hspec : parseMessage name raw = Returns m <->
    exists v, parseJson raw (message_bytes name) = Returns v /\ adp2_schema name v = Some m /\
              message_valid name m).
  { unfold parseMessage. rewrite bind_Returns. apply exist_proper; intros v.
    destruct (adp2_schema name v) as [m'|]; [|naive_solver].
    rewrite bind_Returns. split.
    - intros (Hv & [] & Hs%semantic_checks_valid & [= ->]). naive_solver.
    - intros (Hv & [= ->] & Hs%semantic_checks_valid). naive_solver. }
  split; rewrite Hspec.
  - apply exist_proper; intros v. split; [|naive_solver].
    intros (Hv & ? & ?). apply parseJson_accepts in Hv as Hv'. naive_solver.
  - intros (v & Hv & Hs & _). unfold validateStructure. by rewrite Hv, Hs.
Qed.
