(* ===== verification/Schema.v ===== *)
(** Structural validation, the boundary to Ajv.

    The contracts compile JSON schemas with Ajv and cast an accepted value to its
    TypeScript type.  [Schema A] is that step, a parameter: it rejects a JSON value or
    yields the typed value it denotes.  [Documented A] gives the JSON document of a
    typed value.  [SchemaLaws A] states what the code relies on: validation does not
    change its input, so the document of [x], when accepted, denotes [x], and the
    document of an accepted value is made of the parts of the value that was read. *)

From S2P Require Import Prelude.
From S2P Require Import JsString.
From S2P Require Import Json.

Local Open Scope Z_scope.

Class Schema (A : Type) := decode : json -> option A.

Class Documented (A : Type) := document : A -> json.

(** What [parseJson] guarantees of a value. *)
Definition readable (v : json) : Prop := json_ok v /\ (nest v <= 64)%nat.

Class SchemaReadable (A : Type) `{Schema A, Documented A} : Prop :=
  decode_readable : forall v (x : A), readable v -> decode v = Some x -> readable (document x).

Class SchemaLaws (A : Type) `{Schema A, Documented A} : Prop := {
  decode_document : forall x y : A, decode (document x) = Some y -> y = x;
  #[global] schema_readable :: SchemaReadable A;
}.

(** [const value = parseJson(raw, max); if (!validate(value)) throw ...; value as A] *)
Definition read_as (A : Type) `{Schema A} (raw : jsstr) (max : Z) (m : string) : outcome A :=
  value ← parseJson raw max;
  match decode value with
  | None => Throws (Exn "INVALID_CONFIG" m)
  | Some x => Returns x
  end.

Lemma parse_readable raw max v : parseJson raw max = Returns v -> readable v.
Proof. intros (? & ? & _)%parseJson_accepts. by split. Qed.

Lemma parse_printed v max w : readable v -> parseJson (stringify v) max = Returns w -> w = v.
Proof.
  intros [Hok Hn] H. pose proof (parseJson_accepts _ _ _ H) as (_ & _ & Hs).
  rewrite parseJson_print in H by done. congruence.
Qed.

Lemma read_as_readable {A : Type} `{SchemaReadable A} raw max m (x : A) :
  read_as A raw max m = Returns x -> readable (document x).
Proof.
  unfold read_as. intros (v & Hv & Hx)%bind_Returns.
  destruct (decode v) as [y|] eqn:E; [|done]. injection Hx as ->.
  eapply decode_readable; [|done]. by eapply parse_readable.
Qed.

(** Reading back the document of a value yields the value. *)
Lemma read_as_document {A : Type} `{SchemaLaws A} (x : A) max m y :
  readable (document x) -> read_as A (stringify (document x)) max m = Returns y -> y = x.
Proof.
  unfold read_as. intros Hr (v & Hv & Hy)%bind_Returns.
  apply parse_printed in Hv as ->; [|done].
  destruct (decode (document x)) as [z|] eqn:E; [|done]. injection Hy as <-.
  by apply decode_document in E.
Qed.

(** ** Parts of readable documents *)

Lemma readable_field fs k v : readable (JObj fs) -> (k, v) ∈ fs -> readable v.
Proof.
  intros [Hok Hn] Hin. inversion Hok as [| | | | |? HF _ _]; subst. rewrite Forall_forall in HF.
  split; [by apply (HF (k, v) Hin)|]. apply nest_obj_field in Hin. lia.
Qed.

Lemma readable_item l v : readable (JArr l) -> v ∈ l -> readable v.
Proof.
  intros [Hok Hn] Hin. inversion Hok as [| | | |? HF|]; subst. rewrite Forall_forall in HF.
  split; [by apply HF|]. apply nest_arr_item in Hin. lia.
Qed.

(** The [n]-th field of a readable object literal is readable. *)
Lemma readable_nth n fs k v : readable (JObj fs) -> fs !! n = Some (k, v) -> readable v.
Proof. intros H Hn. eapply readable_field; [done|]. by eapply list_elem_of_lookup_2. Qed.

(** ** Schemas that accept one document, for concrete runs *)

#[export] Instance json_eq_dec : EqDecision json.
Proof.
  refine (fix go (v w : json) {struct v} : Decision (v = w) :=
    match v, w with
    | JNull, JNull => left _
    | JBool a, JBool b => cast_if (decide (a = b))
    | JInt a, JInt b => cast_if (decide (a = b))
    | JStr a, JStr b => cast_if (decide (a = b))
    | JArr l, JArr l' => cast_if (@list_eq_dec json go l l')
    | JObj l, JObj l' => cast_if (@list_eq_dec (jsstr * json) (@prod_eq_dec jsstr _ json go) l l')
    | _, _ => right _
    end); congruence.
Defined.

Definition accept_only {A} `{Documented A} (x : A) : Schema A :=
  fun v => if decide (v = document x) then Some x else None.

Lemma accept_only_readable {A} `{Documented A} (x : A) : @SchemaReadable A (accept_only x) _.
Proof.
  intros v y Hv. unfold decode, accept_only. destruct (decide _) as [->|]; [|done]. by intros [= <-].
Qed.

Lemma accept_only_laws {A} `{Documented A} (x : A) :
  (forall y, document y = document x -> y = x) -> @SchemaLaws A (accept_only x) _.
Proof.
  intros Hinj. split; [|apply accept_only_readable]. unfold decode, accept_only.
  intros y z. destruct (decide _) as [E|]; [|done]. intros [= <-]. symmetry. by apply Hinj.
Qed.

Lemma map_inj_on {A B} (f : A -> B) l l' : (forall x y, f x = f y -> x = y) -> map f l = map f l' -> l = l'.
Proof.
  intros Hf. revert l'. induction l as [|x r IH]; intros [|y r']; cbn; try done.
  intros [= Hx Hr]. f_equal; [by apply Hf|by apply IH].
Qed.

(** The [n]-th field of an object document. *)
Definition field_at (n : nat) (v : json) : json :=
  match v with
  | JObj fs => match fs !! n with Some kv => kv.2 | None => JNull end
  | _ => JNull
  end.

Lemma field_at_eq n v w : v = w -> field_at n v = field_at n w.
Proof. by intros ->. Qed.
