(* ===== verification/Relay.v ===== *)
(** The Relay contract (packages/contracts/src/relay.ts): the wire messages between two
    Relay Nodes and the ADP/3 Assignment and Tombstone that carry a Relay Forward. *)

From S2P Require Import Prelude.
From S2P Require Import JsString.
From S2P Require Import Primitives.
From S2P Require Import Json.
From S2P Require Import Forward.
From S2P Require Import Digest.
From S2P Require Import Types.
From S2P Require Import Cidr.
From S2P Require Import Validate.
From S2P Require Import Schema.

Local Open Scope Z_scope.

(** [driver], [wireVersion] and [security] have one value each. *)
Record RelayProfileConfig := MkRelayProfileConfig {
  rp_protocols : list NetworkProtocol;
  rp_handshakeTimeoutSeconds : Z; rp_idleTimeoutSeconds : Z; rp_maxFrameBytes : Z;
  rp_maxUdpDatagramBytes : Z; rp_maxConnectionsPerNode : Z;
}.

Record RelayBinding := MkRelayBinding {
  rb_scopeId : jsstr; rb_forwardId : jsstr; rb_forwardRevision : Z; rb_deploymentGeneration : Z;
  rb_ingressNodeId : jsstr; rb_egressNodeId : jsstr;
  rb_ingressAssignmentId : jsstr; rb_egressAssignmentId : jsstr;
  rb_ingressSessionEpoch : Z; rb_egressSessionEpoch : Z; rb_ingressFence : Z; rb_egressFence : Z;
  rb_profileId : jsstr; rb_profileRevision : Z; rb_profileDigest : jsstr;
}.

Inductive RelayAction := act_probe | act_tcp | act_udp.

Record RelayOpen := MkRelayOpen {
  ro_action : RelayAction; ro_requestId : jsstr; ro_binding : RelayBinding;
}.

Record RelayAccept := MkRelayAccept { rac_requestId : jsstr; rac_bindingDigest : jsstr }.

Inductive RelayRejectCode :=
  | AUTHENTICATION_FAILED | AUTHORIZATION_DENIED | STALE_DEPLOYMENT | DOWNSTREAM_NOT_ACTIVE
  | UNSUPPORTED_CAPABILITY | RESOURCE_LIMIT | TARGET_REJECTED | TARGET_UNAVAILABLE.

Record RelayReject := MkRelayReject {
  rrj_requestId : jsstr; rrj_code : RelayRejectCode; rrj_retryable : bool;
}.

Inductive RelayName := ProfileConfig_ | Open_ | Accept_ | Reject_.

Definition RelayMessages (name : RelayName) : Type :=
  match name with
  | ProfileConfig_ => RelayProfileConfig
  | Open_ => RelayOpen
  | Accept_ => RelayAccept
  | Reject_ => RelayReject
  end.

Record RelayResource := MkRelayResource {
  res_address : jsstr; res_port : Z; res_protocol : NetworkProtocol;
}.

Inductive RelayRole := relay_ingress | relay_egress.

#[export] Instance RelayRole_eq_dec : EqDecision RelayRole.
Proof. solve_decision. Defined.

Record RelayConfig := MkRelayConfig {
  rc_role : RelayRole; rc_binding : RelayBinding; rc_profile : RelayProfileConfig;
  rc_peerFingerprints : list jsstr;
  rc_peerEndpoint : option TargetEndpoint; rc_target : option TargetEndpoint;
  rc_egressPolicyRevision : Z; rc_allowedDestinationCidrs : list jsstr; rc_allowMetadataTargets : bool;
}.

Record RelayAssignment := MkRelayAssignment {
  ra_nodeId : jsstr; ra_sessionEpoch : Z; ra_assignmentId : jsstr; ra_forwardId : jsstr;
  ra_forwardRevision : Z; ra_deploymentGeneration : Z; ra_bindingFence : Z;
  ra_role : RelayRole; ra_protocol : NetworkProtocol; ra_phase : Phase; ra_resource : RelayResource;
  ra_configDigest : jsstr; ra_config : RelayConfig; ra_drainTimeoutSeconds : Z;
}.

Record RelayTombstone := MkRelayTombstone {
  rt_nodeId : jsstr; rt_role : RelayRole; rt_assignmentId : jsstr; rt_forwardId : jsstr;
  rt_protocol : NetworkProtocol; rt_physicalProtocol : NetworkProtocol; rt_port : Z;
  rt_bindingFence : Z; rt_retirementGeneration : Z;
}.

(** ** JSON documents *)

Definition protocols_json (ps : list NetworkProtocol) : json :=
  JArr (map (fun p => JStr (protocol_name p)) ps).

Definition relay_profile_json (p : RelayProfileConfig) : json :=
  JObj [(js "driver", JStr (js "native.relay.v1"));
        (js "wireVersion", JInt 1);
        (js "security", JStr (js "mutual-tls13"));
        (js "protocols", protocols_json (rp_protocols p));
        (js "handshakeTimeoutSeconds", JInt (rp_handshakeTimeoutSeconds p));
        (js "idleTimeoutSeconds", JInt (rp_idleTimeoutSeconds p));
        (js "maxFrameBytes", JInt (rp_maxFrameBytes p));
        (js "maxUdpDatagramBytes", JInt (rp_maxUdpDatagramBytes p));
        (js "maxConnectionsPerNode", JInt (rp_maxConnectionsPerNode p))].

#[export] Instance RelayProfileConfig_doc : Documented RelayProfileConfig := relay_profile_json.

Definition relay_binding_json (b : RelayBinding) : json :=
  JObj [(js "scopeId", JStr (rb_scopeId b));
        (js "forwardId", JStr (rb_forwardId b));
        (js "forwardRevision", JInt (rb_forwardRevision b));
        (js "deploymentGeneration", JInt (rb_deploymentGeneration b));
        (js "ingressNodeId", JStr (rb_ingressNodeId b));
        (js "egressNodeId", JStr (rb_egressNodeId b));
        (js "ingressAssignmentId", JStr (rb_ingressAssignmentId b));
        (js "egressAssignmentId", JStr (rb_egressAssignmentId b));
        (js "ingressSessionEpoch", JInt (rb_ingressSessionEpoch b));
        (js "egressSessionEpoch", JInt (rb_egressSessionEpoch b));
        (js "ingressFence", JInt (rb_ingressFence b));
        (js "egressFence", JInt (rb_egressFence b));
        (js "profileId", JStr (rb_profileId b));
        (js "profileRevision", JInt (rb_profileRevision b));
        (js "profileDigest", JStr (rb_profileDigest b))].

Definition relay_action_name (a : RelayAction) : jsstr :=
  match a with act_probe => js "probe" | act_tcp => js "tcp" | act_udp => js "udp" end.

Definition relay_open_json (o : RelayOpen) : json :=
  JObj [(js "wireVersion", JInt 1);
        (js "type", JStr (js "open"));
        (js "action", JStr (relay_action_name (ro_action o)));
        (js "requestId", JStr (ro_requestId o));
        (js "binding", relay_binding_json (ro_binding o))].

#[export] Instance RelayOpen_doc : Documented RelayOpen := relay_open_json.

Definition relay_role_name (r : RelayRole) : jsstr :=
  match r with relay_ingress => js "relay-ingress" | relay_egress => js "relay-egress" end.

Definition optional (k : string) (v : option json) : list (jsstr * json) :=
  match v with Some v => [(js k, v)] | None => [] end.

Definition relay_config_json (c : RelayConfig) : json :=
  JObj ([(js "role", JStr (relay_role_name (rc_role c)));
         (js "binding", relay_binding_json (rc_binding c));
         (js "profile", relay_profile_json (rc_profile c));
         (js "peerFingerprints", strs_json (rc_peerFingerprints c))] ++
        optional "peerEndpoint" (target_json <$> rc_peerEndpoint c) ++
        optional "target" (target_json <$> rc_target c) ++
        [(js "egressPolicyRevision", JInt (rc_egressPolicyRevision c));
         (js "allowedDestinationCidrs", strs_json (rc_allowedDestinationCidrs c));
         (js "allowMetadataTargets", JBool (rc_allowMetadataTargets c))]).

Definition resource_json (r : RelayResource) : json :=
  JObj [(js "address", JStr (res_address r)); (js "port", JInt (res_port r));
        (js "protocol", JStr (protocol_name (res_protocol r)))].

Definition driver_json (id : string) (configDigest : jsstr) (config : json) : json :=
  JObj [(js "id", JStr (js id)); (js "schemaVersion", JInt 1);
        (js "configDigest", JStr configDigest); (js "config", config)].

(** The fields an ADP/3 Assignment of any role has, in the order of the interface. *)
Definition assignment_fields (assignmentId forwardId : jsstr)
    (forwardRevision deploymentGeneration bindingFence : Z) (role : jsstr) (protocol : NetworkProtocol)
    (phase : Phase) (resource : RelayResource) (driver : json) (drainTimeoutSeconds : Z)
    : list (jsstr * json) :=
  [(js "assignmentId", JStr assignmentId); (js "forwardId", JStr forwardId);
   (js "forwardRevision", JInt forwardRevision);
   (js "deploymentGeneration", JInt deploymentGeneration);
   (js "bindingFence", JInt bindingFence); (js "role", JStr role);
   (js "protocol", JStr (protocol_name protocol)); (js "phase", JStr (phase_name phase));
   (js "resource", resource_json resource); (js "driver", driver);
   (js "drainTimeoutSeconds", JInt drainTimeoutSeconds)].

(** As the Runtime prints it: the Assignment, then the Node and its session. *)
Definition relay_assignment_json (a : RelayAssignment) : json :=
  JObj (assignment_fields (ra_assignmentId a) (ra_forwardId a) (ra_forwardRevision a)
          (ra_deploymentGeneration a) (ra_bindingFence a) (relay_role_name (ra_role a))
          (ra_protocol a) (ra_phase a) (ra_resource a)
          (driver_json "native.relay.v1" (ra_configDigest a) (relay_config_json (ra_config a)))
          (ra_drainTimeoutSeconds a) ++
        [(js "protocolVersion", JInt 3); (js "nodeId", JStr (ra_nodeId a));
         (js "sessionEpoch", JInt (ra_sessionEpoch a))]).

#[export] Instance RelayAssignment_doc : Documented RelayAssignment := relay_assignment_json.

(** ** Parsing *)

Definition protocol_ltb (p q : NetworkProtocol) : bool := str_ltb (protocol_name p) (protocol_name q).

Definition check_profile (c : RelayProfileConfig) : outcome unit :=
  throw_if ((rp_maxFrameBytes c <? rp_maxUdpDatagramBytes c) ||
            negb (ascending protocol_ltb (rp_protocols c)))
    "INVALID_CONFIG" "Canonical bounded Relay Profile required".

Definition check_open (o : RelayOpen) : outcome unit :=
  let b := ro_binding o in
  throw_if (str_eqb (rb_ingressNodeId b) (rb_egressNodeId b) ||
            str_eqb (rb_ingressAssignmentId b) (rb_egressAssignmentId b))
    "INVALID_CONFIG" "Distinct Relay Nodes and Assignments required".

Definition relay_checks (name : RelayName) : RelayMessages name -> outcome unit :=
  match name return RelayMessages name -> outcome unit with
  | ProfileConfig_ => check_profile
  | Open_ => check_open
  | _ => fun _ => Returns tt
  end.

Definition parseRelayMessage (name : RelayName) `{Schema (RelayMessages name)} (raw : jsstr) (maxBytes : Z)
    : outcome (RelayMessages name) :=
  value ← read_as (RelayMessages name) raw (Z.min maxBytes 4096) "Relay contract rejected";
  _ ← relay_checks name value;
  Returns value.

Section RelayAssignment.
Context `{Hashing, Schema RelayProfileConfig, Schema RelayOpen, Schema RelayAssignment, Schema RelayTombstone}.

Definition check_relay_assignment (a : RelayAssignment) : outcome unit :=
  let c := ra_config a in
  let b := rc_binding c in
  let ingress := bool_decide (ra_role a = relay_ingress) in
  _ ← parseRelayMessage ProfileConfig_ (stringify (relay_profile_json (rc_profile c))) 4096;
  _ ← parseRelayMessage Open_ (stringify (relay_open_json (MkRelayOpen act_probe (js "contract-validation") b))) 4096;
  _ ← throw_if (negb (bool_decide (ra_role a = rc_role c)) ||
        negb (str_eqb (ra_nodeId a) (if ingress then rb_ingressNodeId b else rb_egressNodeId b)) ||
        negb (ra_sessionEpoch a =? (if ingress then rb_ingressSessionEpoch b else rb_egressSessionEpoch b)) ||
        negb (str_eqb (ra_assignmentId a)
                (if ingress then rb_ingressAssignmentId b else rb_egressAssignmentId b)) ||
        negb (ra_bindingFence a =? (if ingress then rb_ingressFence b else rb_egressFence b)) ||
        negb (str_eqb (ra_forwardId a) (rb_forwardId b)) ||
        negb (ra_forwardRevision a =? rb_forwardRevision b) ||
        negb (ra_deploymentGeneration a =? rb_deploymentGeneration b))
      "AUTHORIZATION_DENIED" "Relay deployment binding differs";
  _ ← throw_if (negb (bool_decide (res_protocol (ra_resource a) =
                                   if ingress then ra_protocol a else tcp)) ||
                negb (canonical_ip (res_address (ra_resource a))))
      "RESOURCE_CONFLICT" "Relay physical resource differs";
  _ ← throw_if (negb (includes (rp_protocols (rc_profile c)) (ra_protocol a)))
        "INTEGRITY_FAILURE" "Relay config/Profile digest differs";
  _ ← (d ← digest_differs (relay_profile_json (rc_profile c)) (rb_profileDigest b);
       throw_if d "INTEGRITY_FAILURE" "Relay config/Profile digest differs");
  _ ← (d ← digest_differs (relay_config_json c) (ra_configDigest a);
       throw_if d "INTEGRITY_FAILURE" "Relay config/Profile digest differs");
  match (if ingress then (rc_peerEndpoint c, rc_target c) else (rc_target c, rc_peerEndpoint c)) with
  | (Some target, None) =>
      throw_if (negb (canonical_host (host target)) ||
                existsb (fun cidr => negb (validCidr cidr)) (rc_allowedDestinationCidrs c) ||
                negb (distinct (rc_allowedDestinationCidrs c)) ||
                negb (ascending str_ltb (rc_allowedDestinationCidrs c)) ||
                negb (ascending str_ltb (rc_peerFingerprints c)))
        "INVALID_CONFIG" "Canonical Relay endpoint/policy required"
  | _ => Throws (Exn "INVALID_CONFIG" "Exactly the endpoint for this Relay role is required")
  end.

Definition check_relay_tombstone (t : RelayTombstone) : outcome unit :=
  throw_if (negb (bool_decide (rt_physicalProtocol t =
                               if bool_decide (rt_role t = relay_egress) then tcp else rt_protocol t)))
    "RESOURCE_CONFLICT" "Relay retirement physical resource differs".

(** [parseRelayAssignment('Assignment', raw, maxBytes)] *)
Definition parseRelayAssignment (raw : jsstr) (maxBytes : Z) : outcome RelayAssignment :=
  a ← read_as RelayAssignment raw (Z.min maxBytes 16384) "ADP/3 Relay resource contract rejected";
  _ ← check_relay_assignment a;
  Returns a.

(** [parseRelayAssignment('Tombstone', raw, maxBytes)] *)
Definition parseRelayTombstone (raw : jsstr) (maxBytes : Z) : outcome RelayTombstone :=
  t ← read_as RelayTombstone raw (Z.min maxBytes 16384) "ADP/3 Relay resource contract rejected";
  _ ← check_relay_tombstone t;
  Returns t.
End RelayAssignment.

(** ** What a valid Relay Assignment is *)

Definition profile_valid (p : RelayProfileConfig) : Prop :=
  rp_maxUdpDatagramBytes p <= rp_maxFrameBytes p /\
  StronglySorted (fun p q => protocol_ltb p q = true) (rp_protocols p).

Definition binding_distinct (b : RelayBinding) : Prop :=
  rb_ingressNodeId b <> rb_egressNodeId b /\ rb_ingressAssignmentId b <> rb_egressAssignmentId b.

(** The end of a binding that a role stands for: Node, session, Assignment, fence. *)
Definition binding_end (r : RelayRole) (b : RelayBinding) : jsstr * Z * jsstr * Z :=
  match r with
  | relay_ingress => (rb_ingressNodeId b, rb_ingressSessionEpoch b, rb_ingressAssignmentId b, rb_ingressFence b)
  | relay_egress => (rb_egressNodeId b, rb_egressSessionEpoch b, rb_egressAssignmentId b, rb_egressFence b)
  end.

(** The endpoint a role dials, and the one it must not have. *)
Definition role_endpoints (r : RelayRole) (c : RelayConfig) : option TargetEndpoint * option TargetEndpoint :=
  match r with
  | relay_ingress => (rc_peerEndpoint c, rc_target c)
  | relay_egress => (rc_target c, rc_peerEndpoint c)
  end.

Record relay_valid `{Hashing} (a : RelayAssignment) : Prop := {
  rl_profile : profile_valid (rc_profile (ra_config a));
  rl_distinct : binding_distinct (rc_binding (ra_config a));
  rl_role : rc_role (ra_config a) = ra_role a;
  rl_end : binding_end (ra_role a) (rc_binding (ra_config a)) =
           (ra_nodeId a, ra_sessionEpoch a, ra_assignmentId a, ra_bindingFence a);
  rl_forward : (rb_forwardId (rc_binding (ra_config a)), rb_forwardRevision (rc_binding (ra_config a)),
                rb_deploymentGeneration (rc_binding (ra_config a))) =
               (ra_forwardId a, ra_forwardRevision a, ra_deploymentGeneration a);
  rl_resource : res_protocol (ra_resource a) =
                match ra_role a with relay_ingress => ra_protocol a | relay_egress => tcp end;
  rl_address : normalizeIp (res_address (ra_resource a)) = Some (res_address (ra_resource a));
  rl_protocol : ra_protocol a ∈ rp_protocols (rc_profile (ra_config a));
  rl_profile_digest : digests_to (relay_profile_json (rc_profile (ra_config a)))
                        (rb_profileDigest (rc_binding (ra_config a)));
  rl_config_digest : digests_to (relay_config_json (ra_config a)) (ra_configDigest a);
  rl_endpoint : exists e, role_endpoints (ra_role a) (ra_config a) = (Some e, None) /\
                          normalize_target_host (host e) = Some (host e);
  rl_cidrs : Forall (fun c => validCidr c = true) (rc_allowedDestinationCidrs (ra_config a));
  rl_cidrs_sorted : StronglySorted str_lt (rc_allowedDestinationCidrs (ra_config a));
  rl_peers_sorted : StronglySorted str_lt (rc_peerFingerprints (ra_config a));
}.

#[export] Instance protocol_lt_trans : Transitive (fun p q => protocol_ltb p q = true).
Proof. intros p q r. apply str_ltb_trans. Qed.

Lemma str_eqb_true a b : str_eqb a b = true <-> a = b.
Proof. apply bool_decide_eq_true. Qed.

Lemma str_eqb_false a b : str_eqb a b = false <-> a <> b.
Proof. apply bool_decide_eq_false. Qed.

Lemma ascending_str l : ascending str_ltb l = true <-> StronglySorted str_lt l.
Proof. apply (ascending_StronglySorted str_ltb). Qed.

#[export] Hint Rewrite str_eqb_true str_eqb_false ascending_str : guards.

Lemma check_profile_valid p : check_profile p = Returns tt <-> profile_valid p.
Proof.
  unfold check_profile, profile_valid. autorewrite with guards.
  by rewrite (ascending_StronglySorted protocol_ltb).
Qed.

Lemma check_open_valid o : check_open o = Returns tt <-> binding_distinct (ro_binding o).
Proof. unfold check_open, binding_distinct. by autorewrite with guards. Qed.

Lemma check_relay_tombstone_valid t : check_relay_tombstone t = Returns tt <->
  rt_physicalProtocol t = match rt_role t with relay_ingress => rt_protocol t | relay_egress => tcp end.
Proof. unfold check_relay_tombstone. autorewrite with guards. by destruct (rt_role t). Qed.

(** A message read back from the document of [x] is [x], and its checks passed. *)
Lemma parseRelayMessage_back name `{SchemaLaws (RelayMessages name)} x max y :
  readable (document x) -> parseRelayMessage name (stringify (document x)) max = Returns y ->
  relay_checks name x = Returns tt.
Proof.
  unfold parseRelayMessage. intros Hr (z & Hz & ([] & Hc & _)%bind_Returns)%bind_Returns.
  apply (read_as_document (A := RelayMessages name)) in Hz; [|done]. by subst.
Qed.

Lemma probe_open_readable b :
  readable (relay_binding_json b) -> readable (relay_open_json (MkRelayOpen act_probe (js "contract-validation") b)).
Proof.
  intros [Hok Hn]. split.
  - ok_literal; [by constructor|..|exact Hok]; by apply ok_str, literal_ok; vm_compute.
  - unfold relay_open_json. apply nest_obj_bound. each_field; cbn; lia.
Qed.

Section Valid.
Context `{Hashing, Schema RelayProfileConfig, Schema RelayOpen}.
Context `{!SchemaLaws RelayProfileConfig, !SchemaLaws RelayOpen}.

Lemma relay_assignment_readable a : readable (relay_assignment_json a) ->
  readable (relay_profile_json (rc_profile (ra_config a))) /\
  readable (relay_binding_json (rc_binding (ra_config a))).
Proof using.
  intros Hr. eapply (readable_nth 9) in Hr; [|reflexivity].
  eapply (readable_nth 3) in Hr; [|reflexivity].
  split; [eapply (readable_nth 2)|eapply (readable_nth 1)]; (exact Hr || reflexivity).
Qed.

Lemma check_relay_assignment_valid a :
  readable (document a) -> check_relay_assignment a = Returns tt -> relay_valid a.
Proof using All.
  intros [Hp Hb]%relay_assignment_readable. unfold check_relay_assignment.
  intros (p & Hprofile & (o & Hopen & Hrest)%bind_Returns)%bind_Returns.
  apply (parseRelayMessage_back ProfileConfig_) in Hprofile; [|done].
  apply (parseRelayMessage_back Open_) in Hopen; [|by apply probe_open_readable].
  apply check_profile_valid in Hprofile. apply check_open_valid in Hopen.
  autorewrite with guards in Hrest.
  destruct Hrest as (Hbind & [Hres Haddr] & Hproto & Hd1 & Hd2 & Hend).
  destruct Hbind as (((((((Hrole & Hnode) & Hses) & Hasg) & Hfence) & Hf1) & Hf2) & Hf3).
  destruct (ra_role a) eqn:Er;
    [change (bool_decide (relay_ingress = relay_ingress)) with true in *
    |change (bool_decide (relay_egress = relay_ingress)) with false in *]; cbv iota in *;
    [destruct (rc_peerEndpoint (ra_config a)) as [e|] eqn:Ep, (rc_target (ra_config a)) eqn:Et
    |destruct (rc_target (ra_config a)) as [e|] eqn:Et, (rc_peerEndpoint (ra_config a)) eqn:Ep];
    try done;
    autorewrite with guards in Hend; destruct Hend as ((((? & ?) & _) & ?) & ?);
    (split; rewrite ?Er; try done; unfold binding_end, role_endpoints; [congruence..|]);
    exists e; by rewrite Ep, Et.
Qed.
End Valid.

(** Whatever [parseRelayAssignment] returns is a coherent end of one Relay
    deployment: its role, Node, session, Assignment and fence are those of that end of
    the binding, which names the same Forward, revision and generation; the two ends
    are distinct; an egress listens on TCP; the Profile and the configuration have the
    recorded digests; there is exactly the endpoint the role dials, in canonical form;
    networks and peer fingerprints are strictly sorted. *)
Theorem parseRelayAssignment_valid `{Hashing, Schema RelayProfileConfig, Schema RelayOpen, Schema RelayAssignment}
    `{!SchemaLaws RelayProfileConfig, !SchemaLaws RelayOpen, !SchemaLaws RelayAssignment}
    (raw : jsstr) (maxBytes : Z) (a : RelayAssignment) :
  parseRelayAssignment raw maxBytes = Returns a -> relay_valid a.
Proof.
  unfold parseRelayAssignment. intros (b & Hb & ([] & Hc & [= ->])%bind_Returns)%bind_Returns.
  apply check_relay_assignment_valid; [|done]. by eapply (read_as_readable (A := RelayAssignment)).
Qed.

(** ** A concrete deployment *)

Lemma protocols_json_inj l l' : protocols_json l = protocols_json l' -> l = l'.
Proof.
  intros [= E]. revert E. apply map_inj_on. intros p q [= E]. by apply protocol_name_inj.
Qed.

Lemma strs_json_inj l l' : strs_json l = strs_json l' -> l = l'.
Proof. intros [= E]. revert E. apply map_inj_on. congruence. Qed.

Lemma relay_profile_json_inj p q : relay_profile_json p = relay_profile_json q -> p = q.
Proof.
  destruct p, q. unfold relay_profile_json. cbn [rp_protocols]. intros E. injection E.
  intros. f_equal; try done. apply protocols_json_inj. unfold protocols_json. congruence.
Qed.

Lemma relay_binding_json_inj b c : relay_binding_json b = relay_binding_json c -> b = c.
Proof. destruct b, c. intros E. injection E. intros. by f_equal. Qed.

Lemma relay_open_json_inj o p : relay_open_json o = relay_open_json p -> o = p.
Proof.
  destruct o as [x ? ?], p as [y ? ?]. intros E. f_equal.
  - apply (field_at_eq 2) in E. by destruct x, y.
  - apply (field_at_eq 3) in E. by injection E.
  - apply (field_at_eq 4) in E. by apply relay_binding_json_inj.
Qed.

Lemma target_json_inj t u : target_json t = target_json u -> t = u.
Proof. destruct t, u. intros E. injection E. intros. by f_equal. Qed.


Lemma relay_config_json_inj c d : relay_config_json c = relay_config_json d -> c = d.
Proof.
  destruct c as [r b p fs pe ta er cs am], d as [r' b' p' fs' pe' ta' er' cs' am']. intros E.
  pose proof (field_at_eq 0 _ _ E) as E0. pose proof (field_at_eq 1 _ _ E) as E1.
  pose proof (field_at_eq 2 _ _ E) as E2. pose proof (field_at_eq 3 _ _ E) as E3.
  apply relay_binding_json_inj in E1. apply relay_profile_json_inj in E2. apply strs_json_inj in E3.
  cbn in E1, E2, E3. subst.
  assert (r = r') as -> by (by destruct r, r').
  pose proof (field_at_eq 4 _ _ E) as E4. pose proof (field_at_eq 5 _ _ E) as E5.
  pose proof (field_at_eq 6 _ _ E) as E6. pose proof (field_at_eq 7 _ _ E) as E7.
  pose proof (field_at_eq 8 _ _ E) as E8.
  unfold relay_config_json in E.
  destruct pe as [t|], pe' as [t'|], ta as [u|], ta' as [u'|]; try discriminate E;
    clear E; cbn in E4, E5, E6, E7, E8;
    repeat match goal with
    | H : target_json _ = target_json _ |- _ => apply target_json_inj in H
    | H : strs_json _ = strs_json _ |- _ => apply strs_json_inj in H
    end; congruence.
Qed.

Lemma relay_assignment_json_inj a b : relay_assignment_json a = relay_assignment_json b -> a = b.
Proof.
  destruct a as [? ? ? ? ? ? ? r p ph [? ? q] ? ? ?], b as [? ? ? ? ? ? ? r' p' ph' [? ? q'] ? ? ?]. intros E.
  pose proof (field_at_eq 5 _ _ E) as E5. pose proof (field_at_eq 6 _ _ E) as E6.
  pose proof (field_at_eq 7 _ _ E) as E7. pose proof (field_at_eq 2 _ _ (field_at_eq 8 _ _ E)) as E8.
  pose proof (field_at_eq 3 _ _ (field_at_eq 9 _ _ E)) as E9. apply relay_config_json_inj in E9.
  cbn in E9. subst. assert (r = r') as -> by (by destruct r, r').
  injection E6 as ->%protocol_name_inj. injection E8 as ->%protocol_name_inj.
  assert (ph = ph') as -> by (by destruct ph, ph').
  pose proof (field_at_eq 2 _ _ (field_at_eq 9 _ _ E)) as Ed.
  pose proof (field_at_eq 0 _ _ (field_at_eq 8 _ _ E)) as Ea.
  pose proof (field_at_eq 1 _ _ (field_at_eq 8 _ _ E)) as Ep.
  pose proof (field_at_eq 0 _ _ E). pose proof (field_at_eq 1 _ _ E). pose proof (field_at_eq 2 _ _ E).
  pose proof (field_at_eq 3 _ _ E). pose proof (field_at_eq 4 _ _ E). pose proof (field_at_eq 10 _ _ E).
  pose proof (field_at_eq 12 _ _ E). pose proof (field_at_eq 13 _ _ E). clear E.
  cbn in *. congruence.
Qed.

Definition example_hashing : Hashing :=
  {| canonicalize := fun v => Some (stringify v); sha256_hex := fun _ => js "00" |}.

Definition example_profile : RelayProfileConfig := MkRelayProfileConfig [tcp; udp] 10 60 16384 1500 256.

Definition example_binding : RelayBinding :=
  MkRelayBinding (js "s1") (js "f1") 1 1 (js "n1") (js "n2") (js "a1") (js "a2") 1 1 3 4
    (js "p1") 1 (js "sha256:00").

Definition example_open : RelayOpen := MkRelayOpen act_probe (js "contract-validation") example_binding.

Definition example_relay_config : RelayConfig :=
  MkRelayConfig relay_ingress example_binding example_profile [js "fp"]
    (Some (Target (js "relay.example") 8443)) None 1 [js "10.0.0.0/8"] false.

Definition example_relay : RelayAssignment :=
  MkRelayAssignment (js "n1") 1 (js "a1") (js "f1") 1 1 3 relay_ingress tcp active
    (MkRelayResource (js "0.0.0.0") 8080 tcp) (js "sha256:00") example_relay_config 30.

Lemma example_profile_laws : @SchemaLaws RelayProfileConfig (accept_only example_profile) _.
Proof. apply accept_only_laws. intros p. apply relay_profile_json_inj. Qed.

Lemma example_open_laws : @SchemaLaws RelayOpen (accept_only example_open) _.
Proof. apply accept_only_laws. intros p. apply relay_open_json_inj. Qed.

Lemma example_relay_laws : @SchemaLaws RelayAssignment (accept_only example_relay) _.
Proof. apply accept_only_laws. intros p. apply relay_assignment_json_inj. Qed.

Lemma parseRelayAssignment_valid_witness :
  @relay_valid example_hashing example_relay.
Proof.
  refine (@parseRelayAssignment_valid example_hashing (accept_only example_profile)
    (accept_only example_open) (accept_only example_relay)
    example_profile_laws example_open_laws example_relay_laws
    (stringify (relay_assignment_json example_relay)) 16384 example_relay _).
  vm_compute. reflexivity.
Defined.
