(* ===== verification/Multihop.v ===== *)
(** Multi-hop paths (packages/contracts/src/multihop.ts): the configuration every Node of
    a path carries, which names the whole path and the Node's position in it. *)

From S2P Require Import Prelude.
From S2P Require Import JsString.
From S2P Require Import Primitives.
From S2P Require Import Json.
From S2P Require Import Forward.
From S2P Require Import Digest.
From S2P Require Import Types.
From S2P Require Import Cidr.
From S2P Require Import Validate.
From S2P Require Import Schema.
From S2P Require Import Relay.

Local Open Scope Z_scope.

Definition MULTIHOP_CAPABILITY : jsstr := js "adp.execution.1".

Record HopNode := MkHopNode {
  hn_nodeId : jsstr; hn_assignmentId : jsstr; hn_sessionEpoch : Z; hn_bindingFence : Z;
  hn_peerFingerprint : jsstr; hn_listenAddress : jsstr; hn_host : jsstr; hn_port : Z;
}.

(** [hopIndex] is a natural number: the schema bounds it below by zero. *)
Record HopConfig := MkHopConfig {
  hc_scopeId : jsstr; hc_forwardId : jsstr; hc_forwardRevision : Z; hc_deploymentGeneration : Z;
  hc_profileId : jsstr; hc_profileRevision : Z; hc_profileDigest : jsstr; hc_pathDigest : jsstr;
  hc_protocol : NetworkProtocol; hc_hopIndex : nat; hc_path : list HopNode; hc_profile : RelayProfileConfig;
  hc_target : TargetEndpoint; hc_egressPolicyRevision : Z;
  hc_allowedDestinationCidrs : list jsstr; hc_allowMetadataTargets : bool;
}.

Definition hop_node_json (n : HopNode) : json :=
  JObj [(js "nodeId", JStr (hn_nodeId n)); (js "assignmentId", JStr (hn_assignmentId n));
        (js "sessionEpoch", JInt (hn_sessionEpoch n)); (js "bindingFence", JInt (hn_bindingFence n));
        (js "peerFingerprint", JStr (hn_peerFingerprint n));
        (js "listenAddress", JStr (hn_listenAddress n));
        (js "host", JStr (hn_host n)); (js "port", JInt (hn_port n))].

Definition hop_config_json (h : HopConfig) : json :=
  JObj [(js "scopeId", JStr (hc_scopeId h)); (js "forwardId", JStr (hc_forwardId h));
        (js "forwardRevision", JInt (hc_forwardRevision h));
        (js "deploymentGeneration", JInt (hc_deploymentGeneration h));
        (js "profileId", JStr (hc_profileId h)); (js "profileRevision", JInt (hc_profileRevision h));
        (js "profileDigest", JStr (hc_profileDigest h)); (js "pathDigest", JStr (hc_pathDigest h));
        (js "protocol", JStr (protocol_name (hc_protocol h)));
        (js "hopIndex", JInt (Z.of_nat (hc_hopIndex h)));
        (js "path", JArr (map hop_node_json (hc_path h)));
        (js "profile", relay_profile_json (hc_profile h));
        (js "target", target_json (hc_target h));
        (js "egressPolicyRevision", JInt (hc_egressPolicyRevision h));
        (js "allowedDestinationCidrs", strs_json (hc_allowedDestinationCidrs h));
        (js "allowMetadataTargets", JBool (hc_allowMetadataTargets h))].

(** [MultihopConfig] *)
Definition multihop_config_json (h : HopConfig) : json := JObj [(js "hop", hop_config_json h)].

(** What the path digest covers: everything the Nodes of one path must agree on, and
    not the position of one of them. *)
Definition hop_path_json (h : HopConfig) : json :=
  JObj [(js "scopeId", JStr (hc_scopeId h)); (js "forwardId", JStr (hc_forwardId h));
        (js "forwardRevision", JInt (hc_forwardRevision h));
        (js "deploymentGeneration", JInt (hc_deploymentGeneration h));
        (js "profileId", JStr (hc_profileId h)); (js "profileRevision", JInt (hc_profileRevision h));
        (js "profileDigest", JStr (hc_profileDigest h));
        (js "protocol", JStr (protocol_name (hc_protocol h)));
        (js "path", JArr (map hop_node_json (hc_path h)));
        (js "target", target_json (hc_target h))].

Section Multihop.
Context `{Hashing, Schema RelayProfileConfig}.

Definition hopPathDigest (h : HopConfig) : outcome jsstr := digest (hop_path_json h).

Definition binding_differs : string := "Multi-hop path/Profile binding differs".

Definition validateHopConfig (h : HopConfig) : outcome unit :=
  _ ← parseRelayMessage ProfileConfig_ (stringify (relay_profile_json (hc_profile h))) 4096;
  _ ← throw_if ((length (hc_path h) <? 3)%nat || (8 <? length (hc_path h))%nat ||
                (length (hc_path h) <=? hc_hopIndex h)%nat ||
                negb (distinct (map hn_nodeId (hc_path h))) ||
                negb (distinct (map hn_assignmentId (hc_path h))) ||
                negb (distinct (map hn_peerFingerprint (hc_path h))))
        "INTEGRITY_FAILURE" binding_differs;
  _ ← (d ← digest_differs (relay_profile_json (hc_profile h)) (hc_profileDigest h);
       throw_if d "INTEGRITY_FAILURE" binding_differs);
  _ ← throw_if (negb (includes (rp_protocols (hc_profile h)) (hc_protocol h)))
        "INTEGRITY_FAILURE" binding_differs;
  _ ← (d ← digest_differs (hop_path_json h) (hc_pathDigest h);
       throw_if d "INTEGRITY_FAILURE" binding_differs);
  throw_if (negb (canonical_host (host (hc_target h))) ||
            existsb (fun n => negb (canonical_ip (hn_listenAddress n)) || negb (canonical_host (hn_host n)))
              (hc_path h) ||
            (existsb (fun cidr => negb (validCidr cidr)) (hc_allowedDestinationCidrs h) ||
             negb (ascending str_ltb (hc_allowedDestinationCidrs h))))
    "INVALID_CONFIG" "Canonical multi-hop endpoints/policy required".
End Multihop.

(** ** What a valid path is *)

Record hop_valid `{Hashing} (h : HopConfig) : Prop := {
  hv_profile : profile_valid (hc_profile h);
  hv_length : (3 <= length (hc_path h) <= 8)%nat;
  hv_index : (hc_hopIndex h < length (hc_path h))%nat;
  hv_nodes : NoDup (map hn_nodeId (hc_path h));
  hv_assignments : NoDup (map hn_assignmentId (hc_path h));
  hv_peers : NoDup (map hn_peerFingerprint (hc_path h));
  hv_protocol : hc_protocol h ∈ rp_protocols (hc_profile h);
  hv_profile_digest : digests_to (relay_profile_json (hc_profile h)) (hc_profileDigest h);
  hv_path_digest : hopPathDigest h = Returns (hc_pathDigest h);
  hv_target : normalize_target_host (host (hc_target h)) = Some (host (hc_target h));
  hv_hops : Forall (fun n => normalizeIp (hn_listenAddress n) = Some (hn_listenAddress n) /\
                             normalize_target_host (hn_host n) = Some (hn_host n)) (hc_path h);
  hv_cidrs : Forall (fun c => validCidr c = true) (hc_allowedDestinationCidrs h);
  hv_cidrs_sorted : StronglySorted str_lt (hc_allowedDestinationCidrs h);
}.

Lemma distinct_iff {A} `{EqDecision A} (l : list A) : distinct l = true <-> NoDup l.
Proof. apply distinct_NoDup. Qed.

#[export] Hint Rewrite @distinct_iff Nat.ltb_ge Nat.leb_gt : guards.

Lemma hops_guard l :
  existsb (fun n => negb (canonical_ip (hn_listenAddress n)) || negb (canonical_host (hn_host n))) l = false <->
  Forall (fun n => normalizeIp (hn_listenAddress n) = Some (hn_listenAddress n) /\
                   normalize_target_host (hn_host n) = Some (hn_host n)) l.
Proof. rewrite existsb_false. apply Forall_iff. intros n. by autorewrite with guards. Qed.

#[export] Hint Rewrite hops_guard : guards.

Lemma validateHopConfig_valid `{Hashing, Schema RelayProfileConfig} `{!SchemaLaws RelayProfileConfig} h :
  readable (relay_profile_json (hc_profile h)) -> validateHopConfig h = Returns tt -> hop_valid h.
Proof.
  intros Hr. unfold validateHopConfig. intros (p & Hp & Hrest)%bind_Returns.
  apply (parseRelayMessage_back ProfileConfig_), check_profile_valid in Hp; [|done].
  autorewrite with guards in Hrest. split; tauto.
Qed.
