(* ===== verification/Adp3.v ===== *)
(** The ADP/3 Runtime messages (packages/contracts/src/adp3.ts): Snapshots that mix Direct,
    Relay and multi-hop Assignments on one Node. *)

From S2P Require Import Prelude.
From S2P Require Import JsString.
From S2P Require Import Primitives.
From S2P Require Import Json.
From S2P Require Import Forward.
From S2P Require Import Time.
From S2P Require Import Digest.
From S2P Require Import Types.
From S2P Require Import Cidr.
From S2P Require Import Validate.
From S2P Require Import Schema.
From S2P Require Import Relay.
From S2P Require Import Multihop.

Local Open Scope Z_scope.

Inductive RuntimeRole :=
  | direct | relay (r : RelayRole) | multihop_ingress | multihop_transit | multihop_egress.

#[export] Instance RuntimeRole_eq_dec : EqDecision RuntimeRole.
Proof. solve_decision. Defined.

(** The driver id and the configuration it carries: the schema ties the two. *)
Inductive RuntimeDriver :=
  | DirectDriver (c : DirectConfig)
  | RelayDriver (c : RelayConfig)
  | MultihopDriver (h : HopConfig).

Record RuntimeAssignment := MkRuntimeAssignment {
  rua_assignmentId : jsstr; rua_forwardId : jsstr; rua_forwardRevision : Z;
  rua_deploymentGeneration : Z; rua_bindingFence : Z; rua_role : RuntimeRole;
  rua_protocol : NetworkProtocol; rua_phase : Phase; rua_resource : RelayResource;
  rua_configDigest : jsstr; rua_driver : RuntimeDriver; rua_drainTimeoutSeconds : Z;
}.

Record RuntimeTombstone := MkRuntimeTombstone {
  rut_assignmentId : jsstr; rut_forwardId : jsstr; rut_role : RuntimeRole;
  rut_protocol : NetworkProtocol; rut_physicalProtocol : NetworkProtocol;
  rut_port : Z; rut_bindingFence : Z; rut_retirementGeneration : Z;
}.

Record RuntimeSnapshot := MkRuntimeSnapshot {
  rus_executionExtension : bool; rus_nodeId : jsstr; rus_sessionEpoch : Z; rus_snapshotGeneration : Z;
  rus_issuedAt : jsstr; rus_validUntil : jsstr; rus_snapshotDigest : jsstr;
  rus_assignments : list RuntimeAssignment; rus_tombstones : list RuntimeTombstone;
}.

(** ** JSON documents *)

Definition role_name (r : RuntimeRole) : jsstr :=
  match r with
  | direct => js "direct"
  | relay r => relay_role_name r
  | multihop_ingress => js "multihop-ingress"
  | multihop_transit => js "multihop-transit"
  | multihop_egress => js "multihop-egress"
  end.

Definition config_json (d : RuntimeDriver) : json :=
  match d with
  | DirectDriver c => direct_config_json c
  | RelayDriver c => relay_config_json c
  | MultihopDriver h => multihop_config_json h
  end.

Definition driver_id (d : RuntimeDriver) : string :=
  match d with
  | DirectDriver _ => "native.direct.v1"
  | RelayDriver _ => "native.relay.v1"
  | MultihopDriver _ => "native.multihop.v1"
  end.

Definition runtime_fields (a : RuntimeAssignment) : list (jsstr * json) :=
  assignment_fields (rua_assignmentId a) (rua_forwardId a) (rua_forwardRevision a)
    (rua_deploymentGeneration a) (rua_bindingFence a) (role_name (rua_role a))
    (rua_protocol a) (rua_phase a) (rua_resource a)
    (driver_json (driver_id (rua_driver a)) (rua_configDigest a) (config_json (rua_driver a)))
    (rua_drainTimeoutSeconds a).

Definition runtime_tombstone_json (t : RuntimeTombstone) : json :=
  JObj [(js "assignmentId", JStr (rut_assignmentId t)); (js "forwardId", JStr (rut_forwardId t));
        (js "role", JStr (role_name (rut_role t)));
        (js "protocol", JStr (protocol_name (rut_protocol t)));
        (js "physicalProtocol", JStr (protocol_name (rut_physicalProtocol t)));
        (js "port", JInt (rut_port t)); (js "bindingFence", JInt (rut_bindingFence t));
        (js "retirementGeneration", JInt (rut_retirementGeneration t))].

Definition runtime_body_fields (s : RuntimeSnapshot) : list (jsstr * json) :=
  [(js "protocolVersion", JInt 3)] ++
  (if rus_executionExtension s then [(js "executionExtension", JInt 1)] else []) ++
  [(js "nodeId", JStr (rus_nodeId s)); (js "sessionEpoch", JInt (rus_sessionEpoch s));
   (js "snapshotGeneration", JInt (rus_snapshotGeneration s)); (js "complete", JBool true);
   (js "issuedAt", JStr (rus_issuedAt s)); (js "validUntil", JStr (rus_validUntil s));
   (js "assignments", JArr (map (fun a => JObj (runtime_fields a)) (rus_assignments s)));
   (js "tombstones", JArr (map runtime_tombstone_json (rus_tombstones s)))].

(** The Snapshot without its digest, and with it. *)
Definition runtime_body_json (s : RuntimeSnapshot) : json := JObj (runtime_body_fields s).

Definition runtime_snapshot_json (s : RuntimeSnapshot) : json :=
  JObj (runtime_body_fields s ++ [(js "snapshotDigest", JStr (rus_snapshotDigest s))]).

#[export] Instance RuntimeSnapshot_doc : Documented RuntimeSnapshot := runtime_snapshot_json.

(** [{...a, protocolVersion: 3, nodeId, sessionEpoch}] *)
Definition relay_document (s : RuntimeSnapshot) (a : RuntimeAssignment) : json :=
  JObj (runtime_fields a ++
        [(js "protocolVersion", JInt 3); (js "nodeId", JStr (rus_nodeId s));
         (js "sessionEpoch", JInt (rus_sessionEpoch s))]).

(** ** Validation *)

Section Validate.
Context `{Hashing, Schema RelayProfileConfig, Schema RelayOpen, Schema RelayAssignment}.

(** [hopIndex === 0 ? ingress : hopIndex === path.length - 1 ? egress : transit] *)
Definition hop_role (h : HopConfig) : RuntimeRole :=
  if (hc_hopIndex h =? 0)%nat then multihop_ingress
  else if (hc_hopIndex h =? length (hc_path h) - 1)%nat then multihop_egress
  else multihop_transit.

Definition hop_resource_protocol (h : HopConfig) : NetworkProtocol :=
  if (hc_hopIndex h =? 0)%nat then hc_protocol h else tcp.

Definition validateMultihopAssignment (s : RuntimeSnapshot) (a : RuntimeAssignment) (h : HopConfig)
    : outcome unit :=
  _ ← validateHopConfig h;
  match hc_path h !! hc_hopIndex h with
  | None => Throws (Exn "TypeError" "Cannot read properties of undefined")
  | Some n =>
      _ ← throw_if (negb (rus_executionExtension s) ||
                    negb (bool_decide (rua_role a = hop_role h)) ||
                    negb (str_eqb (hn_nodeId n) (rus_nodeId s)) ||
                    negb (hn_sessionEpoch n =? rus_sessionEpoch s) ||
                    negb (str_eqb (hn_assignmentId n) (rua_assignmentId a)) ||
                    negb (hn_bindingFence n =? rua_bindingFence a) ||
                    negb (str_eqb (rua_forwardId a) (hc_forwardId h)) ||
                    negb (rua_forwardRevision a =? hc_forwardRevision h) ||
                    negb (rua_deploymentGeneration a =? hc_deploymentGeneration h) ||
                    negb (bool_decide (rua_protocol a = hc_protocol h)) ||
                    negb (res_port (rua_resource a) =? hn_port n) ||
                    negb (str_eqb (res_address (rua_resource a)) (hn_listenAddress n)) ||
                    negb (bool_decide (res_protocol (rua_resource a) = hop_resource_protocol h)))
            "AUTHORIZATION_DENIED" "Multi-hop execution binding differs";
      (d ← digest_differs (multihop_config_json h) (rua_configDigest a);
       throw_if d "AUTHORIZATION_DENIED" "Multi-hop execution binding differs")
  end.

(** The branch on role and driver inside the loop over the assignments. *)
Definition check_driver (s : RuntimeSnapshot) (a : RuntimeAssignment) : outcome unit :=
  match rua_role a, rua_driver a with
  | direct, DirectDriver c =>
      _ ← throw_if (negb (bool_decide (res_protocol (rua_resource a) = rua_protocol a)))
            "RESOURCE_CONFLICT" "Direct driver/resource differs";
      _ ← throw_if (negb (canonical_ip (res_address (rua_resource a))) ||
                    negb (canonical_host (host (dc_target c))) ||
                    existsb (fun cidr => negb (validCidr cidr)) (dc_allowedDestinationCidrs c))
            "INVALID_CONFIG" "Direct config differs";
      (d ← digest_differs (direct_config_json c) (rua_configDigest a);
       throw_if d "INVALID_CONFIG" "Direct config differs")
  | direct, _ => Throws (Exn "RESOURCE_CONFLICT" "Direct driver/resource differs")
  | _, MultihopDriver h => validateMultihopAssignment s a h
  | _, DirectDriver _ => Throws (Exn "UNSUPPORTED_CAPABILITY" "Relay driver required")
  | _, RelayDriver _ => _ ← parseRelayAssignment (stringify (relay_document s a)) 16384; Returns tt
  end.

Definition runtime_logical (a : RuntimeAssignment) : jsstr :=
  logical_key (rua_forwardId a) (rua_protocol a) (role_name (rua_role a)).

Definition runtime_slot (a : RuntimeAssignment) : jsstr :=
  slot_key (res_protocol (rua_resource a)) (res_port (rua_resource a)).

Definition check_runtime_assignment (s : RuntimeSnapshot) (st : list jsstr * list jsstr * jsstr)
    (a : RuntimeAssignment) : outcome (list jsstr * list jsstr * jsstr) :=
  let '(logical, physical, previous) := st in
  _ ← throw_if (str_leb (rua_assignmentId a) previous || includes logical (runtime_logical a) ||
                includes physical (runtime_slot a))
        "RESOURCE_CONFLICT" "Duplicate or unsorted assignment/resource";
  _ ← check_driver s a;
  Returns (runtime_logical a :: logical, runtime_slot a :: physical, rua_assignmentId a).

(** The physical protocol a role listens on. *)
Definition role_physical (r : RuntimeRole) (p : NetworkProtocol) : NetworkProtocol :=
  match r with relay relay_egress | multihop_transit | multihop_egress => tcp | _ => p end.

Definition runtime_rank (t : RuntimeTombstone) : retirement :=
  (rut_physicalProtocol t, rut_port t, rut_retirementGeneration t, rut_assignmentId t).

Definition runtime_retired (t : RuntimeTombstone) : jsstr :=
  retired_key (rut_physicalProtocol t) (rut_port t) (rut_bindingFence t).

Definition check_runtime_tombstone (s : RuntimeSnapshot) (st : list jsstr * option RuntimeTombstone)
    (t : RuntimeTombstone) : outcome (list jsstr * option RuntimeTombstone) :=
  let '(retired, prior) := st in
  _ ← throw_if (negb (bool_decide (rut_physicalProtocol t = role_physical (rut_role t) (rut_protocol t))))
        "RESOURCE_CONFLICT" "Tombstone physical resource differs";
  _ ← throw_if (includes retired (runtime_retired t) ||
                (rus_snapshotGeneration s <? rut_retirementGeneration t))
        "INVALID_CONFIG" "Retirement high-water differs";
  _ ← match prior with
      | None => Returns tt
      | Some p => throw_if (0 <=? retirement_order (runtime_rank p) (runtime_rank t))
                    "INVALID_CONFIG" "Tombstones must be sorted"
      end;
  _ ← throw_if (existsb (fun a => bool_decide (res_protocol (rua_resource a) = rut_physicalProtocol t) &&
                                  (res_port (rua_resource a) =? rut_port t) &&
                                  (rua_bindingFence a <=? rut_bindingFence t))
                        (rus_assignments s))
        "FENCING_REJECTED" "Retired resource resurrected";
  Returns (runtime_retired t :: retired, Some t).

Definition validateRuntimeSnapshot (s : RuntimeSnapshot) : outcome unit :=
  order ← compareTimes (rus_issuedAt s) (rus_validUntil s);
  _ ← throw_if (0 <=? order) "INVALID_CONFIG" "Snapshot time range";
  _ ← (d ← digest_differs (runtime_body_json s) (rus_snapshotDigest s);
       throw_if d "INTEGRITY_FAILURE" "Snapshot digest differs");
  _ ← fold_each (check_runtime_assignment s) (rus_assignments s) ([], [], []);
  _ ← fold_each (check_runtime_tombstone s) (rus_tombstones s) ([], None);
  Returns tt.
End Validate.

(** [RuntimeMessages]: the ADP/2 types at protocol version 3, and the Runtime Snapshot. *)
Definition RuntimeMessages (name : MessageName) : Type :=
  match name with Snapshot_ => RuntimeSnapshot | _ => Messages name end.

(** The validators compiled from the runtime and the execution schema. *)
Class Adp3Schemas := {
  adp3_schema : forall name : MessageName, json -> option (RuntimeMessages name);
  execution_schema : json -> option RuntimeSnapshot;
}.

(** [{...value, protocolVersion: 2}] *)
Fixpoint set_key (k : jsstr) (w : json) (fs : list (jsstr * json)) : list (jsstr * json) :=
  match fs with
  | [] => [(k, w)]
  | (k', v) :: r => if str_eqb k k' then (k, w) :: r else (k', v) :: set_key k w r
  end.

Definition at_version_2 (v : json) : json :=
  match v with
  | JObj fs => JObj (set_key (js "protocolVersion") (JInt 2) fs)
  | _ => JObj [(js "protocolVersion", JInt 2)]
  end.

Definition has_extension (v : json) : bool :=
  match v with JObj fs => includes (map fst fs) (js "executionExtension") | _ => false end.

Section Parse.
Context `{Hashing, Schema RelayProfileConfig, Schema RelayOpen, Schema RelayAssignment}.
Context `{Adp2Schemas, Adp3Schemas}.

Definition structure (name : MessageName) (v : json) : option (RuntimeMessages name) :=
  match name return option (RuntimeMessages name) with
  | Snapshot_ => if has_extension v then execution_schema v else adp3_schema Snapshot_ v
  | n => adp3_schema n v
  end.

Definition runtime_checks (name : MessageName) (raw : jsstr) (value : json)
    : RuntimeMessages name -> outcome unit :=
  match name return RuntimeMessages name -> outcome unit with
  | Snapshot_ => validateRuntimeSnapshot
  | ErrorResponse_ => fun _ => _ ← parseMessage ErrorResponse_ raw; Returns tt
  | n => fun _ => _ ← parseMessage n (stringify (at_version_2 value)); Returns tt
  end.

Definition parseRuntimeMessage (name : MessageName) (raw : jsstr) (maxBytes : Z)
    : outcome (RuntimeMessages name) :=
  value ← parseJson raw (Z.min maxBytes (message_bytes name));
  match structure name value with
  | None => Throws (Exn "INVALID_CONFIG" "ADP/3 structure rejected")
  | Some message => _ ← runtime_checks name raw value message; Returns message
  end.
End Parse.

(** ** What a valid Runtime Snapshot is *)

(** The Relay Assignment a Runtime Assignment with the Relay driver stands for. *)
Definition relay_view (s : RuntimeSnapshot) (a : RuntimeAssignment) (r : RelayRole) (c : RelayConfig)
    : RelayAssignment :=
  MkRelayAssignment (rus_nodeId s) (rus_sessionEpoch s) (rua_assignmentId a) (rua_forwardId a)
    (rua_forwardRevision a) (rua_deploymentGeneration a) (rua_bindingFence a) r (rua_protocol a)
    (rua_phase a) (rua_resource a) (rua_configDigest a) c (rua_drainTimeoutSeconds a).

(** The Node at the Assignment's position of the path is this Node, at this session,
    with this Assignment, fence and listener. *)
Record hop_bound `{Hashing} (s : RuntimeSnapshot) (a : RuntimeAssignment) (h : HopConfig) : Prop := {
  hb_extension : rus_executionExtension s = true;
  hb_role : rua_role a = hop_role h;
  hb_node : exists n, hc_path h !! hc_hopIndex h = Some n /\
    (hn_nodeId n, hn_sessionEpoch n) = (rus_nodeId s, rus_sessionEpoch s) /\
    (hn_assignmentId n, hn_bindingFence n) = (rua_assignmentId a, rua_bindingFence a) /\
    rua_resource a = MkRelayResource (hn_listenAddress n) (hn_port n) (hop_resource_protocol h);
  hb_forward : (rua_forwardId a, rua_forwardRevision a, rua_deploymentGeneration a, rua_protocol a) =
               (hc_forwardId h, hc_forwardRevision h, hc_deploymentGeneration h, hc_protocol h);
  hb_digest : digests_to (multihop_config_json h) (rua_configDigest a);
}.

Record direct_bound `{Hashing} (a : RuntimeAssignment) (c : DirectConfig) : Prop := {
  db_protocol : res_protocol (rua_resource a) = rua_protocol a;
  db_address : normalizeIp (res_address (rua_resource a)) = Some (res_address (rua_resource a));
  db_target : normalize_target_host (host (dc_target c)) = Some (host (dc_target c));
  db_cidrs : Forall (fun x => validCidr x = true) (dc_allowedDestinationCidrs c);
  db_digest : digests_to (direct_config_json c) (rua_configDigest a);
}.

(** Role and driver match, and the configuration is bound to the Assignment. *)
Definition driver_valid `{Hashing} (s : RuntimeSnapshot) (a : RuntimeAssignment) : Prop :=
  match rua_role a, rua_driver a with
  | direct, DirectDriver c => direct_bound a c
  | relay r, RelayDriver c => relay_valid (relay_view s a r c)
  | (multihop_ingress | multihop_transit | multihop_egress), MultihopDriver h =>
      hop_valid h /\ hop_bound s a h
  | _, _ => False
  end.

Record runtime_valid `{Hashing} (s : RuntimeSnapshot) : Prop := {
  ruv_time : before (rus_issuedAt s) (rus_validUntil s);
  ruv_digest : digests_to (runtime_body_json s) (rus_snapshotDigest s);
  ruv_ids : ids_ordered (map rua_assignmentId (rus_assignments s));
  ruv_logical : NoDup (map (fun a => (rua_forwardId a, rua_protocol a, rua_role a)) (rus_assignments s));
  ruv_physical : NoDup (map (fun a => (res_protocol (rua_resource a), res_port (rua_resource a)))
                          (rus_assignments s));
  ruv_drivers : Forall (driver_valid s) (rus_assignments s);
  ruv_tombstones : Forall (fun t => rut_physicalProtocol t = role_physical (rut_role t) (rut_protocol t) /\
                                    rut_retirementGeneration t <= rus_snapshotGeneration s) (rus_tombstones s);
  ruv_retired : NoDup (map (fun t => (rut_physicalProtocol t, rut_port t, rut_bindingFence t)) (rus_tombstones s));
  ruv_ordered : StronglySorted retirement_lt (map runtime_rank (rus_tombstones s));
  ruv_fenced : forall a t, a ∈ rus_assignments s -> t ∈ rus_tombstones s ->
    res_protocol (rua_resource a) = rut_physicalProtocol t -> res_port (rua_resource a) = rut_port t ->
    rut_bindingFence t < rua_bindingFence a;
}.

(** ** The loops *)

Lemma role_name_lacks_slash r : lacks ch_slash (role_name r).
Proof. destruct r as [|[]| | |]; apply is_true_lacks; by vm_compute. Qed.

Lemma role_name_inj r q : role_name r = role_name q -> r = q.
Proof. by destruct r as [|[]| | |], q as [|[]| | |]. Qed.

Definition next_runtime (st : list jsstr * list jsstr * jsstr) (a : RuntimeAssignment)
    : list jsstr * list jsstr * jsstr :=
  (runtime_logical a :: st.1.1, runtime_slot a :: st.1.2, rua_assignmentId a).

Definition next_retired (st : list jsstr * option RuntimeTombstone) (t : RuntimeTombstone)
    : list jsstr * option RuntimeTombstone := (runtime_retired t :: st.1, Some t).

Definition runtime_fenced (s : RuntimeSnapshot) (t : RuntimeTombstone) : Prop :=
  forall a, a ∈ rus_assignments s ->
  res_protocol (rua_resource a) = rut_physicalProtocol t -> res_port (rua_resource a) = rut_port t ->
  rut_bindingFence t < rua_bindingFence a.

Lemma runtime_fence_guard s t :
  existsb (fun a => bool_decide (res_protocol (rua_resource a) = rut_physicalProtocol t) &&
                    (res_port (rua_resource a) =? rut_port t) &&
                    (rua_bindingFence a <=? rut_bindingFence t)) (rus_assignments s) = false <->
  runtime_fenced s t.
Proof.
  rewrite existsb_false, Forall_forall. unfold runtime_fenced. apply forall_proper; intros a.
  rewrite !andb_false_iff, bool_decide_eq_false, Z.eqb_neq, Z.leb_gt.
  destruct (decide (res_protocol (rua_resource a) = rut_physicalProtocol t)); naive_solver lia.
Qed.

Definition runtime_tombstone_lt (p t : RuntimeTombstone) : Prop :=
  retirement_lt (runtime_rank p) (runtime_rank t).

#[export] Instance runtime_tombstone_lt_trans : Transitive runtime_tombstone_lt.
Proof. intros p q r. unfold runtime_tombstone_lt. by etransitivity. Qed.

Lemma check_runtime_tombstone_step s st t st' :
  check_runtime_tombstone s st t = Returns st' <->
  st' = next_retired st t /\
  ((rut_physicalProtocol t = role_physical (rut_role t) (rut_protocol t) /\
    rut_retirementGeneration t <= rus_snapshotGeneration s) /\
   (runtime_retired t ∉ st.1) /\
   match st.2 with Some p => runtime_tombstone_lt p t | None => True end /\ runtime_fenced s t).
Proof.
  destruct st as [R prior]; unfold check_runtime_tombstone, next_retired, runtime_tombstone_lt.
  rewrite !guard_seq, seq_unit, !guard_seq, runtime_fence_guard. cbn [fst snd].
  destruct prior as [p|]; autorewrite with guards; rewrite <- ?retirement_order_neg; naive_solver.
Qed.

Lemma check_runtime_tombstones s {B} (k : outcome B) r :
  (fold_each (check_runtime_tombstone s) (rus_tombstones s) ([], None) ≫= fun _ => k) = Returns r <->
  (Forall (fun t => rut_physicalProtocol t = role_physical (rut_role t) (rut_protocol t) /\
                    rut_retirementGeneration t <= rus_snapshotGeneration s) (rus_tombstones s) /\
   NoDup (map (fun t => (rut_physicalProtocol t, rut_port t, rut_bindingFence t)) (rus_tombstones s)) /\
   StronglySorted retirement_lt (map runtime_rank (rus_tombstones s)) /\
   Forall (runtime_fenced s) (rus_tombstones s)) /\ k = Returns r.
Proof.
  rewrite (fold_each_seq next_retired _ _ _ _ _ _ (check_runtime_tombstone_step s)).
  rewrite walk_and, walk_Forall, walk_and, walk_and, walk_Forall.
  rewrite (walk_chain_opt _ runtime_tombstone_lt snd) by done. cbn [snd].
  rewrite chain_opt_StronglySorted by apply _. rewrite <- StronglySorted_map.
  rewrite (walk_fresh _ fst runtime_retired) by done. cbn [fst]. rewrite fresh_from_start.
  rewrite (NoDup_map_iff _ (fun t => (rut_physicalProtocol t, rut_port t, rut_bindingFence t))); [done|].
  intros x y. apply retired_key_inj.
Qed.

Section Loop.
Context `{Hashing, Schema RelayProfileConfig, Schema RelayOpen, Schema RelayAssignment}.

Lemma check_runtime_assignment_step s st a st' :
  check_runtime_assignment s st a = Returns st' <->
  st' = next_runtime st a /\
  (str_lt st.2 (rua_assignmentId a) /\ (runtime_logical a ∉ st.1.1) /\ (runtime_slot a ∉ st.1.2) /\
   check_driver s a = Returns tt).
Proof using.
  destruct st as [[L P] prev]. unfold check_runtime_assignment, next_runtime. cbn [fst snd].
  rewrite guard_seq, seq_unit. autorewrite with guards. tauto.
Qed.

Lemma check_runtime_assignments s l {B} (k : outcome B) r :
  (fold_each (check_runtime_assignment s) l ([], [], []) ≫= fun _ => k) = Returns r <->
  (ids_ordered (map rua_assignmentId l) /\
   NoDup (map (fun a => (rua_forwardId a, rua_protocol a, rua_role a)) l) /\
   NoDup (map (fun a => (res_protocol (rua_resource a), res_port (rua_resource a))) l) /\
   Forall (fun a => check_driver s a = Returns tt) l) /\ k = Returns r.
Proof using.
  rewrite (fold_each_seq next_runtime _ _ _ _ _ _ (check_runtime_assignment_step s)), !walk_and, walk_Forall.
  rewrite (walk_chain _ str_lt snd rua_assignmentId) by done. rewrite chain_ids.
  rewrite (walk_fresh _ (fun st => st.1.1) runtime_logical) by done.
  rewrite (walk_fresh _ (fun st => st.1.2) runtime_slot) by done.
  cbn [fst snd]. rewrite !fresh_from_start.
  rewrite (NoDup_map_iff runtime_logical (fun a => (rua_forwardId a, rua_protocol a, rua_role a))).
  2: { intros x y. unfold runtime_logical. rewrite logical_key_inj by apply role_name_lacks_slash.
       pose proof (role_name_inj (rua_role x) (rua_role y)). split; [|congruence]. intros [= ? ? ?]. f_equal; auto. congruence. }
  rewrite (NoDup_map_iff runtime_slot (fun a => (res_protocol (rua_resource a), res_port (rua_resource a)))); [done|].
  intros x y. apply slot_key_inj.
Qed.
End Loop.

(** ** The drivers *)

(** The schema's [role] is an enumeration: the role of an accepted document is the one
    it states. *)
Class RelayRoleLaw `{Schema RelayAssignment} : Prop :=
  relay_role_read : forall fs (ra : RelayAssignment), decode (JObj fs) = Some ra ->
    (js "role", JStr (relay_role_name (ra_role ra))) ∈ fs.

Lemma json_ok_fields fs : json_ok (JObj fs) -> Forall (fun kv => json_ok kv.2) fs.
Proof. inversion 1 as [| | | | |? HF _ _]; subst. eapply Forall_impl; [exact HF|]. by intros ? []. Qed.

Lemma nest_fields fs k : (nest (JObj fs) <= S k)%nat -> Forall (fun kv => (S (nest kv.2) <= S k)%nat) fs.
Proof. intros Hn. apply Forall_forall. intros [key v] Hin. apply nest_obj_field in Hin. cbn. lia. Qed.

Lemma relay_document_readable s a :
  readable (JObj (runtime_fields a)) -> readable (JStr (rus_nodeId s)) -> readable (JInt (rus_sessionEpoch s)) ->
  readable (relay_document s a).
Proof.
  intros [Hok Hn] [Hnode _] [Hses _]. split.
  - apply json_ok_literal; [by vm_compute|]. apply Forall_app. split; [by apply json_ok_fields|].
    each_field; [by apply ok_int|done|done].
  - apply nest_obj_bound, Forall_app. split; [by apply nest_fields|]. each_field; cbn; lia.
Qed.

Section Drivers.
Context `{Hashing, Schema RelayProfileConfig, Schema RelayOpen, Schema RelayAssignment}.
Context `{!SchemaLaws RelayProfileConfig, !SchemaLaws RelayOpen, !SchemaLaws RelayAssignment, !RelayRoleLaw}.

(** Only a Relay role passes the Relay schema. *)
Lemma relay_document_role s a raw max ra : raw = stringify (relay_document s a) ->
  readable (relay_document s a) -> read_as RelayAssignment raw max "ADP/3 Relay resource contract rejected" = Returns ra ->
  rua_role a = relay (ra_role ra).
Proof using All.
  intros -> Hr (v & Hv & Hd)%bind_Returns. apply parse_printed in Hv as ->; [|done].
  destruct (decode _) as [y|] eqn:E; [|done]. injection Hd as ->.
  apply relay_role_read in E. unfold runtime_fields, assignment_fields in E. cbn [app] in E.
  apply role_name_inj.
  repeat (apply elem_of_cons in E as [E|E]; [first [by injection E | by vm_compute in E]|]).
  by apply not_elem_of_nil in E.
Qed.

Lemma check_direct_valid a c s : rua_role a = direct -> rua_driver a = DirectDriver c ->
  check_driver s a = Returns tt <-> direct_bound a c.
Proof using.
  intros Hr Hd. unfold check_driver. rewrite Hr, Hd. autorewrite with guards.
  split; [intros (? & ((? & ?) & ?) & ?); by split|by intros []].
Qed.

Lemma check_relay_valid s a c r : rua_role a = relay r -> rua_driver a = RelayDriver c ->
  readable (relay_document s a) -> check_driver s a = Returns tt -> relay_valid (relay_view s a r c).
Proof using All.
  intros Hr Hd Hread. unfold check_driver. rewrite Hr, Hd.
  assert (Hdoc : relay_document s a = document (relay_view s a r c)).
  { unfold relay_document, runtime_fields. by rewrite Hr, Hd. }
  rewrite Hdoc in Hread |- *. intros (ra & Hra & _)%bind_Returns. unfold parseRelayAssignment in Hra.
  apply bind_Returns in Hra as (rb & Hrb & ([] & Hc & [= ->])%bind_Returns).
  apply read_as_document in Hrb; [|done]. subst. by apply check_relay_assignment_valid.
Qed.

Lemma check_hop_valid s a h : readable (relay_profile_json (hc_profile h)) ->
  validateMultihopAssignment s a h = Returns tt -> hop_valid h /\ hop_bound s a h.
Proof using All.
  intros Hread. unfold validateMultihopAssignment. rewrite seq_unit. intros [Hh Hb].
  apply validateHopConfig_valid in Hh; [|done]. split; [done|].
  destruct (hc_path h !! hc_hopIndex h) as [n|] eqn:E; [|done].
  autorewrite with guards in Hb. destruct Hb as [Hb Hd]. destruct_and! Hb.
  split; try done; [|congruence]. exists n. split_and!; [done|congruence|congruence|].
  destruct (rua_resource a). cbn in *. congruence.
Qed.

Lemma check_driver_valid s a :
  readable (JObj (runtime_fields a)) -> readable (JStr (rus_nodeId s)) -> readable (JInt (rus_sessionEpoch s)) ->
  check_driver s a = Returns tt -> driver_valid s a.
Proof using All.
  intros Hf Hn Hs Hc. pose proof (relay_document_readable s a Hf Hn Hs) as Hdoc. unfold driver_valid.
  destruct (rua_driver a) as [c|c|h] eqn:Ed.
  - destruct (rua_role a) eqn:Er; [by apply (check_direct_valid a c s)|..];
      unfold check_driver in Hc; by rewrite Er, Ed in Hc.
  - destruct (rua_role a) as [|r| | |] eqn:Er; [|by apply check_relay_valid|..];
      unfold check_driver in Hc; rewrite Er, Ed in Hc; [done|..];
      apply bind_Returns in Hc as (ra & (rb & Hrb & _)%bind_Returns & _);
      pose proof (relay_document_role s a _ _ _ eq_refl Hdoc Hrb); congruence.
  - assert (Hp : readable (relay_profile_json (hc_profile h))).
    { eapply (readable_nth 9) in Hf; [|reflexivity]. eapply (readable_nth 3) in Hf; [|reflexivity].
      rewrite Ed in Hf. eapply (readable_nth 0) in Hf; [|reflexivity].
      by eapply (readable_nth 11) in Hf; [|reflexivity]. }
    unfold check_driver in Hc. rewrite Ed in Hc.
    destruct (rua_role a) eqn:Er; try done; apply check_hop_valid in Hc as [Hh Hb]; try done.
    exfalso. pose proof (hb_role _ _ _ Hb) as E. rewrite Er in E. unfold hop_role in E.
    by repeat destruct (_ =? _)%nat.
Qed.

Lemma runtime_snapshot_parts s : readable (runtime_snapshot_json s) ->
  readable (JStr (rus_nodeId s)) /\ readable (JInt (rus_sessionEpoch s)) /\
  forall a, a ∈ rus_assignments s -> readable (JObj (runtime_fields a)).
Proof using.
  unfold runtime_snapshot_json, runtime_body_fields. intros Hr.
  assert (Hl : forall k v, (k, v) ∈ [(js "nodeId", JStr (rus_nodeId s));
      (js "sessionEpoch", JInt (rus_sessionEpoch s));
      (js "assignments", JArr (map (fun a => JObj (runtime_fields a)) (rus_assignments s)))] -> readable v).
  { intros k v Hin. apply (readable_field _ k _ Hr).
    repeat (rewrite elem_of_app || rewrite elem_of_cons). rewrite !elem_of_cons in Hin. tauto. }
  split_and!; [eapply (Hl (js "nodeId")); left|eapply (Hl (js "sessionEpoch")); right; left|]. intros a Ha.
  eapply (readable_item (map _ _)); [eapply (Hl (js "assignments")); right; right; left|].
  rewrite list_elem_of_In, in_map_iff. exists a. by rewrite <- list_elem_of_In.
Qed.

Lemma validateRuntimeSnapshot_valid s :
  readable (runtime_snapshot_json s) -> validateRuntimeSnapshot s = Returns tt -> runtime_valid s.
Proof using All.
  intros (Hn & Hs & Ha)%runtime_snapshot_parts. unfold validateRuntimeSnapshot.
  rewrite before_guard, digest_guard_seq, check_runtime_assignments, check_runtime_tombstones.
  intros (? & ? & (? & ? & ? & Hd) & (? & ? & ? & HF) & _).
  rewrite Forall_forall in HF. rewrite Forall_forall in Hd. split; try done.
  - apply Forall_forall. intros a Hin. apply check_driver_valid; auto.
  - intros a t Hin Ht. exact (HF t Ht a Hin).
Qed.
End Drivers.

(** The document of an accepted Snapshot is made of the parts of the value read. *)
Class Adp3SnapshotLaw `{Adp3Schemas} : Prop :=
  adp3_snapshot_readable : forall v (s : RuntimeSnapshot),
    readable v -> structure Snapshot_ v = Some s -> readable (runtime_snapshot_json s).

Section ParseLaws.
Context `{Hashing, Schema RelayProfileConfig, Schema RelayOpen, Schema RelayAssignment, Adp2Schemas, Adp3Schemas}.
Context `{!SchemaLaws RelayProfileConfig, !SchemaLaws RelayOpen, !SchemaLaws RelayAssignment, !RelayRoleLaw,
          !Adp3SnapshotLaw}.

Lemma parse_snapshot_valid raw max s :
  parseRuntimeMessage Snapshot_ raw max = Returns s -> runtime_valid s.
Proof using All.
  unfold parseRuntimeMessage. intros (v & Hv & H')%bind_Returns.
  destruct (structure Snapshot_ v) as [s'|] eqn:E; [|done].
  apply seq_unit in H' as [Hc [= ->]]. apply validateRuntimeSnapshot_valid; [|done].
  eapply adp3_snapshot_readable; [|exact E]. by eapply parse_readable.
Qed.

(** C19. A Node never receives conflicting instructions: in every Runtime Snapshot that
    [parseRuntimeMessage] returns the Assignments are strictly sorted, no two share a
    Forward, protocol and role or a physical socket, each carries the driver of its
    role with a configuration bound to this Node, session, fence and Forward, the
    tombstones are strictly sorted with distinct fences within the generation, and no
    Assignment reuses a retired socket with a fence that is not above the retired
    one. *)
Theorem parseRuntimeMessage_snapshot (raw : jsstr) (max : Z) (s : RuntimeSnapshot) :
  parseRuntimeMessage Snapshot_ raw max = Returns s -> runtime_valid s.
Proof using All. apply parse_snapshot_valid. Qed.
End ParseLaws.

(** ** A concrete Snapshot *)

Definition example_runtime_relay : RuntimeAssignment :=
  MkRuntimeAssignment (js "a1") (js "f1") 1 1 3 (relay relay_ingress) tcp active
    (MkRelayResource (js "0.0.0.0") 8080 tcp) (js "sha256:00") (RelayDriver example_relay_config) 30.

Definition example_runtime_direct : RuntimeAssignment :=
  MkRuntimeAssignment (js "a2") (js "f2") 1 1 7 direct udp active
    (MkRelayResource (js "0.0.0.0") 53 udp) (js "sha256:00")
    (DirectDriver (MkDirectConfig (Target (js "192.0.2.1") 53) 1 [js "192.0.2.0/24"] false)) 30.

Definition example_runtime_snapshot : RuntimeSnapshot :=
  MkRuntimeSnapshot false (js "n1") 1 9 (js "2026-01-01T00:00:00Z") (js "2026-01-01T00:05:00Z") (js "sha256:00")
    [example_runtime_relay; example_runtime_direct]
    [MkRuntimeTombstone (js "a0") (js "f0") direct udp udp 53 6 8].

Definition example_adp2 : Adp2Schemas := fun _ _ => None.

Definition example_adp3 : Adp3Schemas := {|
  adp3_schema := fun name => match name return json -> option (RuntimeMessages name) with
                             | Snapshot_ => accept_only example_runtime_snapshot
                             | _ => fun _ => None
                             end;
  execution_schema := fun _ => None |}.

Lemma example_adp3_law : @Adp3SnapshotLaw example_adp3.
Proof.
  intros v s Hv. cbn [structure example_adp3 adp3_schema execution_schema].
  destruct (has_extension v); [done|]. unfold accept_only. destruct (decide _) as [->|]; [|done].
  by intros [= <-].
Qed.

Lemma example_role_law : @RelayRoleLaw (accept_only example_relay).
Proof.
  intros fs ra. unfold decode, accept_only. destruct (decide _) as [E|]; [|done]. intros [= <-].
  injection E as ->. do 5 right. left.
Qed.

Lemma parseRuntimeMessage_snapshot_witness : @runtime_valid example_hashing example_runtime_snapshot.
Proof.
  refine (@parseRuntimeMessage_snapshot example_hashing (accept_only example_profile) (accept_only example_open)
    (accept_only example_relay) example_adp2 example_adp3
    example_profile_laws example_open_laws example_relay_laws example_role_law example_adp3_law
    (stringify (runtime_snapshot_json example_runtime_snapshot)) 4194304 example_runtime_snapshot _).
  vm_compute. reflexivity.
Defined.
