(* ===== verification/Transit.v ===== *)
(** Transit hops (packages/contracts/src/transit.ts, adp3-transit.ts, transit-negotiation.ts and
    transit-delivery.ts): proposed hops, the offline Snapshot that carries them, the
    capability handshake and the transport-only delivery of previews. *)

From S2P Require Import Prelude.
From S2P Require Import JsString.
From S2P Require Import Primitives.
From S2P Require Import Json.
From S2P Require Import Forward.
From S2P Require Import Time.
From S2P Require Import Digest.
From S2P Require Import Types.
From S2P Require Import Cidr.
From S2P Require Import Validate.
From S2P Require Import Schema.
From S2P Require Import Relay.
From S2P Require Import Multihop.

Local Open Scope Z_scope.

Record TransitNeighbor := MkTransitNeighbor {
  tn_nodeId : jsstr; tn_assignmentId : jsstr; tn_sessionEpoch : Z; tn_bindingFence : Z;
  tn_peerFingerprint : jsstr;
}.

(** Constant members ([contractVersion], [role], [driver], [security], the listener's
    protocol) are left out. *)
Record TransitIntent := MkTransitIntent {
  ti_scopeId : jsstr; ti_forwardId : jsstr; ti_forwardRevision : Z;
  ti_deploymentGeneration : Z; ti_profileId : jsstr; ti_profileRevision : Z;
  ti_profileDigest : jsstr; ti_pathDigest : jsstr;
  ti_nodeId : jsstr; ti_assignmentId : jsstr; ti_sessionEpoch : Z; ti_bindingFence : Z;
  ti_protocol : NetworkProtocol; ti_hopIndex : Z; ti_hopCount : Z;
  ti_listener : ListenEndpoint;
  ti_upstream : TransitNeighbor;
  ti_downstream : TransitNeighbor; ti_downstream_endpoint : TargetEndpoint;
  ti_issuedAt : jsstr; ti_authorizationUntil : jsstr;
  ti_egressPolicyRevision : Z; ti_allowedDestinationCidrs : list jsstr;
  ti_allowMetadataTargets : bool; ti_maxConnections : Z;
}.

Definition neighbor_fields (n : TransitNeighbor) : list (jsstr * json) :=
  [(js "nodeId", JStr (tn_nodeId n)); (js "assignmentId", JStr (tn_assignmentId n));
   (js "sessionEpoch", JInt (tn_sessionEpoch n)); (js "bindingFence", JInt (tn_bindingFence n));
   (js "peerFingerprint", JStr (tn_peerFingerprint n))].

Definition transit_intent_json (v : TransitIntent) : json :=
  JObj [(js "contractVersion", JInt 1); (js "role", JStr (js "relay-transit"));
        (js "driver", JStr (js "native.transit.v1")); (js "security", JStr (js "mutual-tls13"));
        (js "scopeId", JStr (ti_scopeId v)); (js "forwardId", JStr (ti_forwardId v));
        (js "forwardRevision", JInt (ti_forwardRevision v));
        (js "deploymentGeneration", JInt (ti_deploymentGeneration v));
        (js "profileId", JStr (ti_profileId v)); (js "profileRevision", JInt (ti_profileRevision v));
        (js "profileDigest", JStr (ti_profileDigest v)); (js "pathDigest", JStr (ti_pathDigest v));
        (js "nodeId", JStr (ti_nodeId v)); (js "assignmentId", JStr (ti_assignmentId v));
        (js "sessionEpoch", JInt (ti_sessionEpoch v)); (js "bindingFence", JInt (ti_bindingFence v));
        (js "protocol", JStr (protocol_name (ti_protocol v)));
        (js "hopIndex", JInt (ti_hopIndex v)); (js "hopCount", JInt (ti_hopCount v));
        (js "listener", JObj [(js "address", JStr (address (ti_listener v)));
                              (js "port", JInt (listen_port (ti_listener v)));
                              (js "protocol", JStr (js "tcp"))]);
        (js "upstream", JObj (neighbor_fields (ti_upstream v)));
        (js "downstream", JObj (neighbor_fields (ti_downstream v) ++
                                [(js "endpoint", target_json (ti_downstream_endpoint v))]));
        (js "issuedAt", JStr (ti_issuedAt v)); (js "authorizationUntil", JStr (ti_authorizationUntil v));
        (js "egressPolicyRevision", JInt (ti_egressPolicyRevision v));
        (js "allowedDestinationCidrs", strs_json (ti_allowedDestinationCidrs v));
        (js "allowMetadataTargets", JBool (ti_allowMetadataTargets v));
        (js "maxConnections", JInt (ti_maxConnections v))].

#[export] Instance TransitIntent_doc : Documented TransitIntent := transit_intent_json.

Definition check_intent (v : TransitIntent) : outcome unit :=
  let nodes := [tn_nodeId (ti_upstream v); ti_nodeId v; tn_nodeId (ti_downstream v)] in
  let assignments := [tn_assignmentId (ti_upstream v); ti_assignmentId v; tn_assignmentId (ti_downstream v)] in
  _ ← throw_if (ti_hopCount v - 1 <=? ti_hopIndex v)
        "INVALID_CONFIG" "Transit position cannot be an endpoint";
  _ ← throw_if (negb (distinct nodes) || negb (distinct assignments) ||
                str_eqb (tn_peerFingerprint (ti_upstream v)) (tn_peerFingerprint (ti_downstream v)))
        "AUTHORIZATION_DENIED" "Transit must bind two distinct neighboring identities";
  order ← compareTimes (ti_issuedAt v) (ti_authorizationUntil v);
  _ ← throw_if (0 <=? order) "INVALID_CONFIG" "Transit authorization time range";
  _ ← throw_if (negb (canonical_ip (address (ti_listener v))) ||
                negb (canonical_host (host (ti_downstream_endpoint v))))
        "INVALID_CONFIG" "Noncanonical Transit endpoint";
  throw_if (existsb (fun cidr => negb (validCidr cidr)) (ti_allowedDestinationCidrs v) ||
            negb (ascending str_ltb (ti_allowedDestinationCidrs v)))
    "INVALID_CONFIG" "Canonical sorted destination CIDRs required".

Definition parseTransitIntent `{Schema TransitIntent} (raw : jsstr) : outcome TransitIntent :=
  v ← read_as TransitIntent raw 16384 "Transit contract rejected";
  _ ← check_intent v;
  Returns v.

(** ** The offline Snapshot *)

Definition TRANSIT_ADP_CAPABILITIES : list jsstr :=
  [js "adp.multihop.1"; js "transit.wire.1"; js "native.transit.v1"].

(** Role, driver id and physical protocol have one value each. *)
Record TransitAdpAssignment := MkTransitAdpAssignment {
  ta_nodeId : jsstr; ta_sessionEpoch : Z; ta_assignmentId : jsstr; ta_forwardId : jsstr;
  ta_forwardRevision : Z; ta_deploymentGeneration : Z; ta_bindingFence : Z;
  ta_protocol : NetworkProtocol; ta_phase : Phase; ta_resource : ListenEndpoint;
  ta_configDigest : jsstr; ta_intent : TransitIntent; ta_drainTimeoutSeconds : Z;
}.

Record TransitAdpTombstone := MkTransitAdpTombstone {
  tt_assignmentId : jsstr; tt_forwardId : jsstr; tt_protocol : NetworkProtocol;
  tt_port : Z; tt_bindingFence : Z; tt_retirementGeneration : Z;
}.

Record TransitAdpSnapshot := MkTransitAdpSnapshot {
  ts_nodeId : jsstr; ts_sessionEpoch : Z; ts_snapshotGeneration : Z;
  ts_issuedAt : jsstr; ts_validUntil : jsstr; ts_snapshotDigest : jsstr;
  ts_assignments : list TransitAdpAssignment; ts_tombstones : list TransitAdpTombstone;
}.

Definition intent_config_json (v : TransitIntent) : json := JObj [(js "intent", transit_intent_json v)].

Definition transit_assignment_json (a : TransitAdpAssignment) : json :=
  JObj [(js "protocolVersion", JInt 3); (js "extensionVersion", JInt 1);
        (js "nodeId", JStr (ta_nodeId a)); (js "sessionEpoch", JInt (ta_sessionEpoch a));
        (js "assignmentId", JStr (ta_assignmentId a)); (js "forwardId", JStr (ta_forwardId a));
        (js "forwardRevision", JInt (ta_forwardRevision a));
        (js "deploymentGeneration", JInt (ta_deploymentGeneration a));
        (js "bindingFence", JInt (ta_bindingFence a)); (js "role", JStr (js "relay-transit"));
        (js "protocol", JStr (protocol_name (ta_protocol a))); (js "phase", JStr (phase_name (ta_phase a)));
        (js "resource", JObj [(js "address", JStr (address (ta_resource a)));
                              (js "port", JInt (listen_port (ta_resource a)));
                              (js "protocol", JStr (js "tcp"))]);
        (js "driver", driver_json "native.transit.v1" (ta_configDigest a) (intent_config_json (ta_intent a)));
        (js "drainTimeoutSeconds", JInt (ta_drainTimeoutSeconds a))].

#[export] Instance TransitAdpAssignment_doc : Documented TransitAdpAssignment := transit_assignment_json.

Definition transit_tombstone_json (t : TransitAdpTombstone) : json :=
  JObj [(js "assignmentId", JStr (tt_assignmentId t)); (js "forwardId", JStr (tt_forwardId t));
        (js "role", JStr (js "relay-transit")); (js "protocol", JStr (protocol_name (tt_protocol t)));
        (js "physicalProtocol", JStr (js "tcp")); (js "port", JInt (tt_port t));
        (js "bindingFence", JInt (tt_bindingFence t));
        (js "retirementGeneration", JInt (tt_retirementGeneration t))].

Definition transit_body_fields (s : TransitAdpSnapshot) : list (jsstr * json) :=
  [(js "protocolVersion", JInt 3); (js "extensionVersion", JInt 1);
   (js "kind", JStr (js "transit-snapshot"));
   (js "requiredCapabilities", strs_json TRANSIT_ADP_CAPABILITIES);
   (js "nodeId", JStr (ts_nodeId s)); (js "sessionEpoch", JInt (ts_sessionEpoch s));
   (js "snapshotGeneration", JInt (ts_snapshotGeneration s)); (js "complete", JBool true);
   (js "issuedAt", JStr (ts_issuedAt s)); (js "validUntil", JStr (ts_validUntil s));
   (js "assignments", JArr (map transit_assignment_json (ts_assignments s)));
   (js "tombstones", JArr (map transit_tombstone_json (ts_tombstones s)))].

Definition transit_body_json (s : TransitAdpSnapshot) : json := JObj (transit_body_fields s).

Definition transit_snapshot_json (s : TransitAdpSnapshot) : json :=
  JObj (transit_body_fields s ++ [(js "snapshotDigest", JStr (ts_snapshotDigest s))]).

#[export] Instance TransitAdpSnapshot_doc : Documented TransitAdpSnapshot := transit_snapshot_json.

Definition requireTransitAdpCapabilities (advertised : list jsstr) : outcome unit :=
  throw_if (existsb (fun c => negb (includes advertised c)) TRANSIT_ADP_CAPABILITIES)
    "UNSUPPORTED_CAPABILITY" "Versioned Transit ADP/3 capabilities not advertised".

(** [String.prototype.localeCompare]: the collation of the host. *)
Class Locale := localeCompare : jsstr -> jsstr -> Z.

Definition tombstoneOrder `{Locale} (a b : TransitAdpTombstone) : Z :=
  js_or (localeCompare (js "tcp") (js "tcp"))
    (js_or (tt_port a - tt_port b)
      (js_or (tt_retirementGeneration a - tt_retirementGeneration b)
        (localeCompare (tt_assignmentId a) (tt_assignmentId b)))).

Section TransitSnapshot.
Context `{Hashing, Schema TransitIntent, Locale}.

Definition validateAssignment (a : TransitAdpAssignment) : outcome unit :=
  intent ← parseTransitIntent (stringify (transit_intent_json (ta_intent a)));
  _ ← (d ← digest_differs (intent_config_json (ta_intent a)) (ta_configDigest a);
       throw_if d "INTEGRITY_FAILURE" "Transit driver config digest differs");
  _ ← throw_if (negb (str_eqb (ta_nodeId a) (ti_nodeId intent)) ||
                negb (ta_sessionEpoch a =? ti_sessionEpoch intent) ||
                negb (str_eqb (ta_assignmentId a) (ti_assignmentId intent)) ||
                negb (str_eqb (ta_forwardId a) (ti_forwardId intent)) ||
                negb (ta_forwardRevision a =? ti_forwardRevision intent) ||
                negb (ta_deploymentGeneration a =? ti_deploymentGeneration intent) ||
                negb (ta_bindingFence a =? ti_bindingFence intent) ||
                negb (bool_decide (ta_protocol a = ti_protocol intent)))
        "AUTHORIZATION_DENIED" "Transit Assignment/Intent binding differs";
  throw_if (negb (str_eqb (address (ta_resource a)) (address (ti_listener intent))) ||
            negb (listen_port (ta_resource a) =? listen_port (ti_listener intent)) ||
            negb (canonical_ip (address (ta_resource a))))
    "RESOURCE_CONFLICT" "Transit physical TLS listener differs".

Definition parseTransitAdpAssignment `{Schema TransitAdpAssignment} (raw : jsstr)
    : outcome TransitAdpAssignment :=
  a ← read_as TransitAdpAssignment raw 16384 "Versioned Transit Assignment structure rejected";
  _ ← validateAssignment a;
  Returns a.

Definition transit_logical (a : TransitAdpAssignment) : jsstr :=
  slash (ta_forwardId a) (protocol_name (ta_protocol a)).

Definition transit_slot (port : Z) : jsstr := slot_key tcp port.

(** The lease of the Snapshot lies inside the authorization of the hop. *)
Definition lease_exceeds (s : TransitAdpSnapshot) (a : TransitAdpAssignment) : outcome bool :=
  if negb (str_eqb (ta_nodeId a) (ts_nodeId s)) || negb (ta_sessionEpoch a =? ts_sessionEpoch s)
  then Returns true
  else
    i ← compareTimes (ts_issuedAt s) (ti_issuedAt (ta_intent a));
    if i <? 0 then Returns true else
    u ← compareTimes (ts_validUntil s) (ti_authorizationUntil (ta_intent a));
    Returns (0 <? u).

Definition check_transit_assignment (s : TransitAdpSnapshot) (st : list jsstr * list jsstr * jsstr)
    (a : TransitAdpAssignment) : outcome (list jsstr * list jsstr * jsstr) :=
  let '(logical, physical, previous) := st in
  _ ← validateAssignment a;
  _ ← (b ← lease_exceeds s a;
       throw_if b "AUTHORIZATION_DENIED" "Transit Snapshot Node/Session/lease differs");
  _ ← throw_if (str_leb (ta_assignmentId a) previous || includes logical (transit_logical a) ||
                includes physical (transit_slot (listen_port (ta_resource a))))
        "RESOURCE_CONFLICT" "Duplicate, unsorted or overlapping Transit resource";
  Returns (transit_logical a :: logical, transit_slot (listen_port (ta_resource a)) :: physical,
           ta_assignmentId a).

Definition transit_retired (t : TransitAdpTombstone) : jsstr :=
  retired_key tcp (tt_port t) (tt_bindingFence t).

Definition check_transit_tombstone (s : TransitAdpSnapshot) (st : list jsstr * option TransitAdpTombstone)
    (t : TransitAdpTombstone) : outcome (list jsstr * option TransitAdpTombstone) :=
  let '(retired, prior) := st in
  _ ← throw_if (includes retired (transit_retired t) ||
                (ts_snapshotGeneration s <? tt_retirementGeneration t) ||
                match prior with Some p => 0 <=? tombstoneOrder p t | None => false end)
        "INVALID_CONFIG" "Transit retirement order or high-water differs";
  _ ← throw_if (existsb (fun a => (listen_port (ta_resource a) =? tt_port t) &&
                                  (ta_bindingFence a <=? tt_bindingFence t)) (ts_assignments s))
        "FENCING_REJECTED" "Transit retirement fence resurrected";
  Returns (transit_retired t :: retired, Some t).

Definition parseTransitAdpSnapshot `{Schema TransitAdpSnapshot} (raw : jsstr) : outcome TransitAdpSnapshot :=
  s ← read_as TransitAdpSnapshot raw 4194304 "Versioned Transit Snapshot structure rejected";
  order ← compareTimes (ts_issuedAt s) (ts_validUntil s);
  _ ← throw_if (0 <=? order) "INVALID_CONFIG" "Transit Snapshot time range";
  _ ← (d ← digest_differs (transit_body_json s) (ts_snapshotDigest s);
       throw_if d "INTEGRITY_FAILURE" "Transit Snapshot digest differs");
  _ ← fold_each (check_transit_assignment s) (ts_assignments s) ([], [], []);
  _ ← fold_each (check_transit_tombstone s) (ts_tombstones s) ([], None);
  Returns s.
End TransitSnapshot.

(** ** The capability handshake *)

(** Constant members are left out; [state] and [executionEnabled] are what
    [checkTransitNegotiation] inspects. *)
Record TransitNegotiationRequest := MkTransitNegotiationRequest {
  tnq_nodeId : jsstr; tnq_bootId : jsstr; tnq_sessionEpoch : Z; tnq_lastStoredTransitGeneration : Z;
}.

Record TransitNegotiationResponse := MkTransitNegotiationResponse {
  tnr_nodeId : jsstr; tnr_bootId : jsstr; tnr_sessionEpoch : Z; tnr_serverTime : jsstr;
  tnr_state : jsstr; tnr_executionEnabled : bool;
}.

(** [parseTransitNegotiation('Request', raw)] and [('Response', raw)] *)
Definition parseTransitNegotiation (M : Type) `{Schema M} (raw : jsstr) : outcome M :=
  read_as M raw 8192 "Unsupported Transit negotiation shape or capabilities".

Definition checkTransitNegotiation (request : TransitNegotiationRequest)
    (response : TransitNegotiationResponse) : outcome unit :=
  throw_if (negb (str_eqb (tnr_nodeId response) (tnq_nodeId request)) ||
            negb (str_eqb (tnr_bootId response) (tnq_bootId request)) ||
            negb (tnr_sessionEpoch response =? tnq_sessionEpoch request) ||
            tnr_executionEnabled response ||
            negb (str_eqb (tnr_state response) (js "contract-only")))
    "AUTHORIZATION_DENIED" "Transit handshake session or execution boundary differs".

(** ** Transport-only delivery *)

Inductive PreviewAction := pa_prepare | pa_activate | pa_withdraw.

#[export] Instance PreviewAction_eq_dec : EqDecision PreviewAction.
Proof. solve_decision. Defined.

Definition preview_action_name (a : PreviewAction) : jsstr :=
  match a with pa_prepare => js "prepare" | pa_activate => js "activate" | pa_withdraw => js "withdraw" end.

Record TransitPreviewCommand := MkTransitPreviewCommand {
  tpc_nodeId : jsstr; tpc_bootId : jsstr; tpc_sessionEpoch : Z; tpc_forwardId : jsstr;
  tpc_deploymentGeneration : Z; tpc_coordinationRevision : Z; tpc_previewAction : PreviewAction;
  tpc_commandDigest : jsstr; tpc_issuedAt : jsstr; tpc_validUntil : jsstr; tpc_envelopeDigest : jsstr;
}.

Record TransitDeliveryReport := MkTransitDeliveryReport {
  tdr_nodeId : jsstr; tdr_bootId : jsstr; tdr_sessionEpoch : Z; tdr_commandDigest : jsstr;
  tdr_envelopeDigest : jsstr; tdr_reportSequence : Z; tdr_observedAt : jsstr;
}.

Record TransitDeliveryAck := MkTransitDeliveryAck {
  tda_nodeId : jsstr; tda_bootId : jsstr; tda_sessionEpoch : Z; tda_commandDigest : jsstr;
  tda_envelopeDigest : jsstr; tda_reportSequence : Z; tda_status : AckStatus;
}.

Inductive DeliveryName := Command_ | Report_ | Ack_.

Definition TransitDeliveryMessage (name : DeliveryName) : Type :=
  match name with
  | Command_ => TransitPreviewCommand
  | Report_ => TransitDeliveryReport
  | Ack_ => TransitDeliveryAck
  end.

(** The command without its envelope digest. *)
Definition preview_body_json (c : TransitPreviewCommand) : json :=
  JObj [(js "protocolVersion", JInt 3); (js "extensionVersion", JInt 1);
        (js "kind", JStr (js "transit-command-preview-v1")); (js "executionEnabled", JBool false);
        (js "nodeId", JStr (tpc_nodeId c)); (js "bootId", JStr (tpc_bootId c));
        (js "sessionEpoch", JInt (tpc_sessionEpoch c)); (js "forwardId", JStr (tpc_forwardId c));
        (js "deploymentGeneration", JInt (tpc_deploymentGeneration c));
        (js "coordinationRevision", JInt (tpc_coordinationRevision c));
        (js "previewAction", JStr (preview_action_name (tpc_previewAction c)));
        (js "commandDigest", JStr (tpc_commandDigest c));
        (js "issuedAt", JStr (tpc_issuedAt c)); (js "validUntil", JStr (tpc_validUntil c))].

Definition delivery_checks `{Hashing} (name : DeliveryName) : TransitDeliveryMessage name -> outcome unit :=
  match name return TransitDeliveryMessage name -> outcome unit with
  | Command_ => fun c =>
      _ ← (d ← digest_differs (preview_body_json c) (tpc_envelopeDigest c);
           throw_if d "INTEGRITY_FAILURE" "Transit preview digest differs");
      order ← compareTimes (tpc_issuedAt c) (tpc_validUntil c);
      throw_if (0 <=? order) "INVALID_CONFIG" "Transit preview time range"
  | _ => fun _ => Returns tt
  end.

Definition parseTransitDelivery `{Hashing} (name : DeliveryName) `{Schema (TransitDeliveryMessage name)}
    (raw : jsstr) : outcome (TransitDeliveryMessage name) :=
  value ← read_as (TransitDeliveryMessage name) raw 8192 "Strict Transit transport-only envelope rejected";
  _ ← delivery_checks name value;
  Returns value.

(** ** What a valid hop is *)

Record intent_valid (v : TransitIntent) : Prop := {
  iv_inner : ti_hopIndex v < ti_hopCount v - 1;
  iv_nodes : NoDup [tn_nodeId (ti_upstream v); ti_nodeId v; tn_nodeId (ti_downstream v)];
  iv_assignments :
    NoDup [tn_assignmentId (ti_upstream v); ti_assignmentId v; tn_assignmentId (ti_downstream v)];
  iv_peers : tn_peerFingerprint (ti_upstream v) <> tn_peerFingerprint (ti_downstream v);
  iv_time : before (ti_issuedAt v) (ti_authorizationUntil v);
  iv_listener : normalizeIp (address (ti_listener v)) = Some (address (ti_listener v));
  iv_endpoint : normalize_target_host (host (ti_downstream_endpoint v)) = Some (host (ti_downstream_endpoint v));
  iv_cidrs : Forall (fun c => validCidr c = true) (ti_allowedDestinationCidrs v);
  iv_cidrs_sorted : StronglySorted str_lt (ti_allowedDestinationCidrs v);
}.

Lemma check_intent_valid v : check_intent v = Returns tt <-> intent_valid v.
Proof.
  unfold check_intent. autorewrite with guards.
  split; [intros (? & ((? & ?) & ?) & ? & (? & ?) & ? & ?); by split|intros []; tauto].
Qed.

(** The Assignment and the hop it carries name the same thing. *)
Record transit_bound `{Hashing} (a : TransitAdpAssignment) : Prop := {
  tb_intent : intent_valid (ta_intent a);
  tb_digest : digests_to (intent_config_json (ta_intent a)) (ta_configDigest a);
  tb_node : (ta_nodeId a, ta_sessionEpoch a) = (ti_nodeId (ta_intent a), ti_sessionEpoch (ta_intent a));
  tb_assignment : (ta_assignmentId a, ta_bindingFence a) =
                  (ti_assignmentId (ta_intent a), ti_bindingFence (ta_intent a));
  tb_forward : (ta_forwardId a, ta_forwardRevision a, ta_deploymentGeneration a, ta_protocol a) =
               (ti_forwardId (ta_intent a), ti_forwardRevision (ta_intent a),
                ti_deploymentGeneration (ta_intent a), ti_protocol (ta_intent a));
  tb_listener : ta_resource a = ti_listener (ta_intent a);
}.

(** The Snapshot is issued to this Node and session, not before the hop's own
    authorization and not beyond it. *)
Record lease_within (s : TransitAdpSnapshot) (a : TransitAdpAssignment) : Prop := {
  lw_node : (ta_nodeId a, ta_sessionEpoch a) = (ts_nodeId s, ts_sessionEpoch s);
  lw_issued : exists z, compareTimes (ts_issuedAt s) (ti_issuedAt (ta_intent a)) = Returns z /\ 0 <= z;
  lw_until : exists z, compareTimes (ts_validUntil s) (ti_authorizationUntil (ta_intent a)) = Returns z /\ z <= 0;
}.

Record transit_valid `{Hashing, Locale} (s : TransitAdpSnapshot) : Prop := {
  tv_time : before (ts_issuedAt s) (ts_validUntil s);
  tv_digest : digests_to (transit_body_json s) (ts_snapshotDigest s);
  tv_ids : ids_ordered (map ta_assignmentId (ts_assignments s));
  tv_logical : NoDup (map (fun a => (ta_forwardId a, ta_protocol a)) (ts_assignments s));
  tv_ports : NoDup (map (fun a => listen_port (ta_resource a)) (ts_assignments s));
  tv_bound : Forall transit_bound (ts_assignments s);
  tv_lease : Forall (lease_within s) (ts_assignments s);
  tv_horizon : Forall (fun t => tt_retirementGeneration t <= ts_snapshotGeneration s) (ts_tombstones s);
  tv_retired : NoDup (map (fun t => (tt_port t, tt_bindingFence t)) (ts_tombstones s));
  tv_ordered : chain_opt (fun p t => tombstoneOrder p t < 0) None (ts_tombstones s);
  tv_fenced : forall a t, a ∈ ts_assignments s -> t ∈ ts_tombstones s ->
    listen_port (ta_resource a) = tt_port t -> tt_bindingFence t < ta_bindingFence a;
}.

Lemma lease_guard s a c m : (lease_exceeds s a ≫= fun b => throw_if b c m) = Returns tt <-> lease_within s a.
Proof.
  unfold lease_exceeds. destruct (_ || _) eqn:E.
  - split; [done|]. intros [[= Hn Hs] _ _]. rewrite Hn, Hs in E. unfold str_eqb in E.
    by rewrite bool_decide_eq_true_2, Z.eqb_refl in E.
  - autorewrite with guards in E. destruct E as [Hn Hs]. split.
    + intros (b & (i & Hi & Hb)%bind_Returns & Ht)%bind_Returns. apply throw_if_Returns in Ht as ->.
      destruct (i <? 0) eqn:Ei; [done|]. apply bind_Returns in Hb as (u & Hu & [= Hlt]).
      propify. split; [congruence|by exists i|by exists u].
    + intros [_ (i & Hi & Hi0) (u & Hu & Hu0)]. rewrite Hi. cbn.
      destruct (i <? 0) eqn:Ei; propify; [lia|]. rewrite Hu. cbn. apply throw_if_Returns, Z.ltb_ge. lia.
Qed.

Lemma transit_logical_inj a b :
  transit_logical a = transit_logical b <-> (ta_forwardId a, ta_protocol a) = (ta_forwardId b, ta_protocol b).
Proof.
  unfold transit_logical. split; [|by intros [= -> ->]]. intros E.
  apply slash_inj in E as [-> E]; [|apply protocol_lacks_slash..]. apply protocol_name_inj in E. by rewrite E.
Qed.

Section TransitLoops.
Context `{Hashing, Schema TransitIntent, Locale}.

Definition next_transit (st : list jsstr * list jsstr * jsstr) (a : TransitAdpAssignment)
    : list jsstr * list jsstr * jsstr :=
  (transit_logical a :: st.1.1, transit_slot (listen_port (ta_resource a)) :: st.1.2, ta_assignmentId a).

Lemma check_transit_assignment_step s st a st' :
  check_transit_assignment s st a = Returns st' <->
  st' = next_transit st a /\
  (str_lt st.2 (ta_assignmentId a) /\ (transit_logical a ∉ st.1.1) /\
   (transit_slot (listen_port (ta_resource a)) ∉ st.1.2) /\
   validateAssignment a = Returns tt /\ lease_within s a).
Proof using.
  destruct st as [[L P] prev]. unfold check_transit_assignment, next_transit. cbn [fst snd].
  rewrite !seq_unit, lease_guard. autorewrite with guards. tauto.
Qed.

Lemma check_transit_assignments s l {B} (k : outcome B) r :
  (fold_each (check_transit_assignment s) l ([], [], []) ≫= fun _ => k) = Returns r <->
  (ids_ordered (map ta_assignmentId l) /\ NoDup (map (fun a => (ta_forwardId a, ta_protocol a)) l) /\
   NoDup (map (fun a => listen_port (ta_resource a)) l) /\
   Forall (fun a => validateAssignment a = Returns tt) l /\ Forall (lease_within s) l) /\ k = Returns r.
Proof using.
  rewrite (fold_each_seq next_transit _ _ _ _ _ _ (check_transit_assignment_step s)), !walk_and, !walk_Forall.
  rewrite (walk_chain _ str_lt snd ta_assignmentId) by done. rewrite chain_ids.
  rewrite (walk_fresh _ (fun st => st.1.1) transit_logical) by done.
  rewrite (walk_fresh _ (fun st => st.1.2) (fun a => transit_slot (listen_port (ta_resource a)))) by done.
  cbn [fst snd]. rewrite !fresh_from_start.
  rewrite (NoDup_map_iff transit_logical (fun a => (ta_forwardId a, ta_protocol a))) by apply transit_logical_inj.
  rewrite (NoDup_map_iff (fun a => transit_slot _) (fun a => listen_port (ta_resource a))); [done|].
  intros x y. unfold transit_slot. rewrite slot_key_inj. split; congruence.
Qed.

Definition next_transit_retired (st : list jsstr * option TransitAdpTombstone) (t : TransitAdpTombstone)
    : list jsstr * option TransitAdpTombstone := (transit_retired t :: st.1, Some t).

Definition transit_fenced (s : TransitAdpSnapshot) (t : TransitAdpTombstone) : Prop :=
  forall a, a ∈ ts_assignments s -> listen_port (ta_resource a) = tt_port t ->
  tt_bindingFence t < ta_bindingFence a.

Lemma transit_fence_guard s t :
  existsb (fun a => (listen_port (ta_resource a) =? tt_port t) &&
                    (ta_bindingFence a <=? tt_bindingFence t)) (ts_assignments s) = false <->
  transit_fenced s t.
Proof using.
  rewrite existsb_false, Forall_forall. unfold transit_fenced. apply forall_proper; intros a.
  rewrite !andb_false_iff, Z.eqb_neq, Z.leb_gt. naive_solver lia.
Qed.

Lemma check_transit_tombstone_step s st t st' :
  check_transit_tombstone s st t = Returns st' <->
  st' = next_transit_retired st t /\
  ((transit_retired t ∉ st.1) /\ tt_retirementGeneration t <= ts_snapshotGeneration s /\
   match st.2 with Some p => tombstoneOrder p t < 0 | None => True end /\ transit_fenced s t).
Proof using.
  destruct st as [R prior]; unfold check_transit_tombstone, next_transit_retired.
  rewrite !guard_seq, transit_fence_guard. cbn [fst snd].
  destruct prior as [p|]; autorewrite with guards; naive_solver.
Qed.

Lemma check_transit_tombstones s {B} (k : outcome B) r :
  (fold_each (check_transit_tombstone s) (ts_tombstones s) ([], None) ≫= fun _ => k) = Returns r <->
  (NoDup (map (fun t => (tt_port t, tt_bindingFence t)) (ts_tombstones s)) /\
   Forall (fun t => tt_retirementGeneration t <= ts_snapshotGeneration s) (ts_tombstones s) /\
   chain_opt (fun p t => tombstoneOrder p t < 0) None (ts_tombstones s) /\
   Forall (transit_fenced s) (ts_tombstones s)) /\ k = Returns r.
Proof using.
  rewrite (fold_each_seq next_transit_retired _ _ _ _ _ _ (check_transit_tombstone_step s)), !walk_and, !walk_Forall.
  rewrite (walk_chain_opt _ (fun p t => tombstoneOrder p t < 0) snd) by done. cbn [snd].
  rewrite (walk_fresh _ fst transit_retired) by done. cbn [fst]. rewrite fresh_from_start.
  rewrite (NoDup_map_iff transit_retired (fun t => (tt_port t, tt_bindingFence t))); [done|].
  intros x y. unfold transit_retired. rewrite retired_key_inj. split; congruence.
Qed.
End TransitLoops.

Section TransitValid.
Context `{Hashing, Schema TransitIntent, Locale} `{!SchemaLaws TransitIntent}.

Lemma validateAssignment_bound a :
  readable (transit_intent_json (ta_intent a)) -> validateAssignment a = Returns tt -> transit_bound a.
Proof using All.
  intros Hr. unfold validateAssignment. intros (v & Hv & Hrest)%bind_Returns.
  unfold parseTransitIntent in Hv. apply bind_Returns in Hv as (w & Hw & Hv).
  apply seq_unit in Hv as [Hc [= ->]]. apply (read_as_document (A := TransitIntent)) in Hw; [|done]. subst.
  apply check_intent_valid in Hc. autorewrite with guards in Hrest.
  destruct Hrest as (Hd & Hb & ((Ha & Hp) & _)). destruct_and! Hb.
  split; try done; try congruence. destruct (ta_resource a), (ti_listener (ta_intent a)). cbn in *. congruence.
Qed.

Lemma transit_assignment_parts s a : readable (transit_snapshot_json s) -> a ∈ ts_assignments s ->
  readable (transit_intent_json (ta_intent a)).
Proof using.
  intros Hr Ha. eapply (readable_nth 10) in Hr; [|reflexivity].
  eapply (readable_item _ (transit_assignment_json a)) in Hr.
  2: { rewrite list_elem_of_In, in_map_iff. exists a. by rewrite <- list_elem_of_In. }
  eapply (readable_nth 13) in Hr; [|reflexivity]. eapply (readable_nth 3) in Hr; [|reflexivity].
  by eapply (readable_nth 0) in Hr; [|reflexivity].
Qed.

(** Every offline Transit Snapshot that [parseTransitAdpSnapshot] returns assigns
    each TCP port at most once, binds every Assignment to the hop it carries (strictly
    inside a path, between two distinct neighbours), never outlives the authorization
    of a hop, and never reuses a retired port without a higher fence. *)
Theorem parseTransitAdpSnapshot_valid `{Schema TransitAdpSnapshot} `{!SchemaReadable TransitAdpSnapshot}
    (raw : jsstr) (s : TransitAdpSnapshot) :
  parseTransitAdpSnapshot raw = Returns s -> transit_valid s.
Proof using All.
  unfold parseTransitAdpSnapshot. intros (s' & Hs & Hrest)%bind_Returns.
  pose proof (read_as_readable _ _ _ _ Hs) as Hr.
  rewrite before_guard, digest_guard_seq, check_transit_assignments, check_transit_tombstones in Hrest.
  destruct Hrest as (? & ? & (? & ? & ? & Hv & ?) & (? & ? & ? & HF) & [= ->]).
  rewrite Forall_forall in HF. rewrite Forall_forall in Hv. split; try done.
  - apply Forall_forall. intros a Ha. apply validateAssignment_bound; [|by apply Hv].
    by apply (transit_assignment_parts s).
  - intros a t Hin Ht. exact (HF t Ht a Hin).
Qed.
End TransitValid.

(** ** A concrete hop *)

Lemma neighbor_fields_inj m n l l' : neighbor_fields m ++ l = neighbor_fields n ++ l' -> m = n.
Proof. destruct m, n. cbn. intros E. injection E. intros. by f_equal. Qed.

Lemma transit_intent_json_inj v w : transit_intent_json v = transit_intent_json w -> v = w.
Proof.
  destruct v as [? ? ? ? ? ? ? ? ? ? ? ? p ? ? [? ?] up down ep ? ? ? cs ? ?],
           w as [? ? ? ? ? ? ? ? ? ? ? ? p' ? ? [? ?] up' down' ep' ? ? ? cs' ? ?]. intros E.
  assert (up = up') as ->.
  { pose proof (field_at_eq 20 _ _ E) as F. cbn -[neighbor_fields] in F.
    apply (neighbor_fields_inj up up' [] []). rewrite !app_nil_r. congruence. }
  assert (down = down') as ->.
  { pose proof (field_at_eq 21 _ _ E) as F. cbn -[neighbor_fields target_json app] in F.
    eapply neighbor_fields_inj. assert (G : forall x y, JObj x = JObj y -> x = y) by congruence. exact (G _ _ F). }
  assert (ep = ep') as -> by apply target_json_inj, (field_at_eq 5 _ _ (field_at_eq 21 _ _ E)).
  assert (cs = cs') as -> by apply strs_json_inj, (field_at_eq 25 _ _ E).
  assert (p = p') as ->.
  { apply protocol_name_inj. pose proof (field_at_eq 16 _ _ E) as F. by injection F. }
  injection E. intros. f_equal; try done. by f_equal.
Qed.

Definition example_intent : TransitIntent :=
  MkTransitIntent (js "s1") (js "f1") 1 1 (js "p1") 1 (js "sha256:00") (js "sha256:00")
    (js "n2") (js "a2") 1 5 tcp 1 3 (Listen (js "0.0.0.0") 8443)
    (MkTransitNeighbor (js "n1") (js "a1") 1 4 (js "fp1"))
    (MkTransitNeighbor (js "n3") (js "a3") 1 6 (js "fp3")) (Target (js "n3.example") 8443)
    (js "2026-01-01T00:00:00Z") (js "2026-01-01T00:05:00Z") 1 [js "10.0.0.0/8"] false 100.

Definition example_transit : TransitAdpSnapshot :=
  MkTransitAdpSnapshot (js "n2") 1 3 (js "2026-01-01T00:01:00Z") (js "2026-01-01T00:04:00Z") (js "sha256:00")
    [MkTransitAdpAssignment (js "n2") 1 (js "a2") (js "f1") 1 1 5 tcp prepared (Listen (js "0.0.0.0") 8443)
       (js "sha256:00") example_intent 30]
    [MkTransitAdpTombstone (js "a0") (js "f0") tcp 8443 4 2].

Lemma example_intent_laws : @SchemaLaws TransitIntent (accept_only example_intent) _.
Proof. apply accept_only_laws. intros v. apply transit_intent_json_inj. Qed.

Lemma parseTransitAdpSnapshot_valid_witness :
  @transit_valid example_hashing (fun a b => cmp_str a b) example_transit.
Proof.
  refine (@parseTransitAdpSnapshot_valid example_hashing (accept_only example_intent) (fun a b => cmp_str a b)
    example_intent_laws (accept_only example_transit) (accept_only_readable example_transit)
    (stringify (transit_snapshot_json example_transit)) example_transit _).
  vm_compute. reflexivity.
Defined.
