(* ===== verification/Probe.v ===== *)
(** The Probe contracts (packages/contracts/src/probe-claim.ts, probe-delivery.ts, probe-instance.ts,
    probe-negotiation.ts and probe-result.ts): a bounded TCP-connect measurement that an
    Agent requests, claims and reports.

    Times are compared with [Date.parse], which yields a number of milliseconds or
    [NaN]; every comparison with [NaN] is false.  [jsnum_opt] keeps that case. *)

From S2P Require Import Prelude.
From S2P Require Import JsString.
From S2P Require Import Primitives.
From S2P Require Import Json.
From S2P Require Import Time.
From S2P Require Import Digest.
From S2P Require Import Validate.
From S2P Require Import Schema.
From S2P Require Import Relay.
From S2P Require Import Multihop.

Local Open Scope Z_scope.

(** ** Date.parse, in milliseconds *)

(** A number or [NaN]. *)
Definition jsnum_opt : Type := option Z.

(** [Date.parse(text)] for texts of the schema's shape
    [YYYY-MM-DDThh:mm:ss.mmmZ]. *)
Definition Date_ms (text : jsstr) : jsnum_opt :=
  if negb (length text =? 24)%nat then None else
  '(y, mo, d, h, mi, sec, f) ← scan_instant text;
  t ← Date_parse y mo d h mi sec;
  if (h =? 24) && negb (of_base 10 f =? 0) then None else Some (t * 1000 + of_base 10 f).

Definition n_lt (a b : jsnum_opt) : bool :=
  match a, b with Some x, Some y => x <? y | _, _ => false end.
Definition n_le (a b : jsnum_opt) : bool :=
  match a, b with Some x, Some y => x <=? y | _, _ => false end.
Definition n_sub (a b : jsnum_opt) : jsnum_opt :=
  match a, b with Some x, Some y => Some (x - y) | _, _ => None end.

(** ** Messages *)

Record ProbeClaimBinding := MkProbeClaimBinding {
  pb_nodeId : jsstr; pb_bootId : jsstr; pb_sessionEpoch : Z; pb_snapshotGeneration : Z;
  pb_assignmentId : jsstr; pb_forwardId : jsstr; pb_forwardRevision : Z; pb_deploymentGeneration : Z;
  pb_bindingFence : Z; pb_configDigest : jsstr; pb_egressPolicyRevision : Z;
}.

(** The members that identify the Agent process and its Probe instance. *)
Record Machine := MkMachine {
  pm_nodeId : jsstr; pm_bootId : jsstr; pm_sessionEpoch : Z; pm_instanceId : jsstr;
  pm_instanceGeneration : Z;
}.

Record ProbeClaimRequest := MkProbeClaimRequest { pcq_machine : Machine; pcq_permitId : jsstr }.

Record ProbeClaimResponse := MkProbeClaimResponse {
  pcr_machine : Machine; pcr_permitId : jsstr; pcr_binding : ProbeClaimBinding; pcr_timeoutMs : Z;
  pcr_issuedAt : jsstr; pcr_expiresAt : jsstr; pcr_consumedAt : jsstr; pcr_serverTime : jsstr;
}.

Record ProbePollRequest := MkProbePollRequest { ppq_machine : Machine; ppq_requestId : jsstr }.

Record ProbeOffer := MkProbeOffer {
  po_permitId : jsstr; po_binding : ProbeClaimBinding; po_timeoutMs : Z;
  po_issuedAt : jsstr; po_expiresAt : jsstr;
}.

Record ProbePollResponse := MkProbePollResponse {
  ppr_machine : Machine; ppr_requestId : jsstr; ppr_observedAt : jsstr; ppr_serverTime : jsstr;
  ppr_offer : option ProbeOffer;
}.

Record ProbeStatusRequest := MkProbeStatusRequest {
  psq_machine : Machine; psq_requestId : jsstr; psq_permitId : jsstr;
}.

Record ProbeStatusResponse := MkProbeStatusResponse {
  psr_machine : Machine; psr_requestId : jsstr; psr_offer : ProbeOffer;
  psr_consumedAt : jsstr; psr_checkedAt : jsstr; psr_serverTime : jsstr;
}.

Inductive InstanceAction := inspect | register | revoke.

#[export] Instance InstanceAction_eq_dec : EqDecision InstanceAction.
Proof. solve_decision. Defined.

Inductive InstanceState := is_absent | is_registered | is_stale | is_revoked | is_quarantined.

#[export] Instance InstanceState_eq_dec : EqDecision InstanceState.
Proof. solve_decision. Defined.

Record ProbeInstanceRequest := MkProbeInstanceRequest {
  piq_action : InstanceAction; piq_nodeId : jsstr; piq_bootId : jsstr; piq_sessionEpoch : Z;
  piq_instanceId : jsstr; piq_expectedGeneration : Z;
}.

Record ProbeInstanceResponse := MkProbeInstanceResponse {
  pir_request : ProbeInstanceRequest; pir_generation : Z; pir_state : InstanceState;
  pir_currentInstanceId : option jsstr; pir_registeredAt : option jsstr; pir_expiresAt : option jsstr;
  pir_serverTime : jsstr;
}.

Record ProbeNegotiationRequest := MkProbeNegotiationRequest {
  pnq_nodeId : jsstr; pnq_bootId : jsstr; pnq_sessionEpoch : Z; pnq_instanceId : jsstr;
}.

Record ProbeNegotiationResponse := MkProbeNegotiationResponse {
  pnr_request : ProbeNegotiationRequest; pnr_serverTime : jsstr;
}.

Inductive ProbeStatus := connected | unreachable.
Inductive ProbeCode := tcp_connected | tcp_connect_failed.

#[export] Instance ProbeStatus_eq_dec : EqDecision ProbeStatus.
Proof. solve_decision. Defined.
#[export] Instance ProbeCode_eq_dec : EqDecision ProbeCode.
Proof. solve_decision. Defined.

Record ProbeResultRequest := MkProbeResultRequest {
  prq_machine : Machine; prq_permitId : jsstr; prq_requestId : jsstr; prq_binding : ProbeClaimBinding;
  prq_timeoutMs : Z; prq_issuedAt : jsstr; prq_expiresAt : jsstr; prq_consumedAt : jsstr;
  prq_measuredAt : jsstr; prq_validUntil : jsstr; prq_elapsedMs : Z;
  prq_status : ProbeStatus; prq_code : ProbeCode;
}.

Record ProbeResultResponse := MkProbeResultResponse {
  prr_machine : Machine; prr_permitId : jsstr; prr_requestId : jsstr; prr_resultDigest : jsstr;
  prr_acceptedAt : jsstr; prr_serverTime : jsstr; prr_duplicate : bool;
}.

(** ** Checks *)

Definition machine_ids (m : Machine) : bool := is_id (pm_nodeId m) && is_id (pm_bootId m).

(** [b.nodeId === m.nodeId && b.bootId === m.bootId && b.sessionEpoch === m.sessionEpoch] *)
Definition binding_of (m : Machine) (b : ProbeClaimBinding) : bool :=
  str_eqb (pb_nodeId b) (pm_nodeId m) && str_eqb (pb_bootId b) (pm_bootId m) &&
  (pb_sessionEpoch b =? pm_sessionEpoch m).

Definition binding_ids (b : ProbeClaimBinding) : bool :=
  is_id (pb_nodeId b) && is_id (pb_bootId b) && is_id (pb_assignmentId b) && is_id (pb_forwardId b).

Definition ms (z : Z) : jsnum_opt := Some z.

Definition claim_request_valid (q : ProbeClaimRequest) : bool :=
  machine_ids (pcq_machine q) && is_id (pcq_permitId q).

Definition claim_response_valid (r : ProbeClaimResponse) : bool :=
  if negb (machine_ids (pcr_machine r) && is_id (pcr_permitId r)) then false else
  if negb (binding_ids (pcr_binding r)) || negb (binding_of (pcr_machine r) (pcr_binding r)) then false else
  let issued := Date_ms (pcr_issuedAt r) in
  let expires := Date_ms (pcr_expiresAt r) in
  let consumed := Date_ms (pcr_consumedAt r) in
  let server := Date_ms (pcr_serverTime r) in
  n_le (ms 0) issued && n_lt issued expires && n_le (n_sub expires issued) (ms 2000) &&
  n_le issued consumed && n_le consumed server && n_lt server expires.

Definition offerValid (m : Machine) (o : ProbeOffer) (observed : jsnum_opt) : bool :=
  let b := po_binding o in
  let issued := Date_ms (po_issuedAt o) in
  let expires := Date_ms (po_expiresAt o) in
  is_id (po_permitId o) && binding_ids b && binding_of m b &&
  n_le (ms 0) issued && n_le issued observed && n_lt observed expires && n_lt issued expires &&
  n_le (n_sub expires issued) (ms 2000).

(** [observed < 0 || server < observed || server - observed > 250] *)
Definition observation_stale (observed server : jsnum_opt) : bool :=
  n_lt observed (ms 0) || n_lt server observed || n_lt (ms 250) (n_sub server observed).

Definition poll_response_valid (r : ProbePollResponse) : bool :=
  let observed := Date_ms (ppr_observedAt r) in
  let server := Date_ms (ppr_serverTime r) in
  if negb (machine_ids (ppr_machine r)) then false else
  if observation_stale observed server then false else
  match ppr_offer r with
  | None => true
  | Some o => offerValid (ppr_machine r) o observed && n_lt server (Date_ms (po_expiresAt o))
  end.

Definition status_request_valid (q : ProbeStatusRequest) : bool :=
  machine_ids (psq_machine q) && is_id (psq_permitId q).

Definition status_response_valid (r : ProbeStatusResponse) : bool :=
  let observed := Date_ms (psr_checkedAt r) in
  let server := Date_ms (psr_serverTime r) in
  let o := psr_offer r in
  if negb (machine_ids (psr_machine r)) || negb (is_id (po_permitId o)) then false else
  if observation_stale observed server then false else
  let consumed := Date_ms (psr_consumedAt r) in
  offerValid (psr_machine r) o observed && n_le (Date_ms (po_issuedAt o)) consumed &&
  n_le consumed observed && n_lt server (Date_ms (po_expiresAt o)).

Definition instance_request_valid (q : ProbeInstanceRequest) : bool :=
  is_id (piq_nodeId q) && is_id (piq_bootId q) &&
  negb (bool_decide (piq_action q = inspect) && negb (piq_expectedGeneration q =? 0)).

Definition is_null {A} (o : option A) : bool := match o with None => true | Some _ => false end.

Definition instance_response_valid (r : ProbeInstanceResponse) : bool :=
  let q := pir_request r in
  let absent := bool_decide (pir_state r = is_absent) in
  if negb (instance_request_valid q) then false else
  if negb (Bool.eqb absent (pir_generation r =? 0)) || negb (Bool.eqb absent (is_null (pir_currentInstanceId r))) ||
     negb (Bool.eqb absent (is_null (pir_registeredAt r))) || negb (Bool.eqb absent (is_null (pir_expiresAt r)))
  then false else
  let duration := n_sub (Date_ms (default [] (pir_expiresAt r))) (Date_ms (default [] (pir_registeredAt r))) in
  if negb absent && negb (n_lt (ms 0) duration && n_le duration (ms 30000)) then false else
  if bool_decide (piq_action q = register) &&
     (negb (bool_decide (pir_state r = is_registered)) ||
      negb (pir_generation r =? piq_expectedGeneration q + 1) ||
      negb (bool_decide (pir_currentInstanceId r = Some (piq_instanceId q)))) then false else
  if bool_decide (piq_action q = revoke) &&
     (negb (includes [is_revoked; is_quarantined] (pir_state r)) ||
      negb (pir_generation r =? piq_expectedGeneration q) ||
      negb (bool_decide (pir_currentInstanceId r = Some (piq_instanceId q)))) then false
  else true.

(** The conditions under which [parseProbeResult] throws on a result. *)
Definition result_differs (q : ProbeResultRequest) : bool :=
  let b := prq_binding q in
  let issued := Date_ms (prq_issuedAt q) in
  let expires := Date_ms (prq_expiresAt q) in
  let consumed := Date_ms (prq_consumedAt q) in
  let measured := Date_ms (prq_measuredAt q) in
  let until := Date_ms (prq_validUntil q) in
  negb (binding_ids b) || negb (binding_of (prq_machine q) b) ||
  n_lt issued (ms 0) || n_lt consumed issued || n_lt measured consumed || n_le until measured ||
  n_lt expires until || n_lt (ms 2000) (n_sub expires issued) || (prq_timeoutMs q <? prq_elapsedMs q) ||
  negb (Bool.eqb (bool_decide (prq_status q = connected)) (bool_decide (prq_code q = tcp_connected))).

Definition ack_time_differs (r : ProbeResultResponse) : bool :=
  n_lt (Date_ms (prr_acceptedAt r)) (ms 0) ||
  n_lt (Date_ms (prr_serverTime r)) (Date_ms (prr_acceptedAt r)).

(** ** Parsing *)

(** [if (!validators[name](value) || !valid(value)) throw ...] *)
Definition read_valid (A : Type) `{Schema A} (valid : A -> bool) (raw : jsstr) (m : string) : outcome A :=
  value ← read_as A raw 4096 m;
  _ ← throw_if (negb (valid value)) "INVALID_CONFIG" m;
  Returns value.

Definition claim_error : string := "Unsupported Probe claim receipt".
Definition delivery_error : string := "Unsupported Probe delivery observation".
Definition instance_error : string := "Unsupported Probe instance contract".
Definition negotiation_error : string := "Unsupported Probe negotiation contract".
Definition result_error : string := "Unsupported Probe result".

Definition parseProbeClaimRequest `{Schema ProbeClaimRequest} (raw : jsstr) : outcome ProbeClaimRequest :=
  read_valid ProbeClaimRequest claim_request_valid raw claim_error.
Definition parseProbeClaimResponse `{Schema ProbeClaimResponse} (raw : jsstr) : outcome ProbeClaimResponse :=
  read_valid ProbeClaimResponse claim_response_valid raw claim_error.

Definition parsePollRequest `{Schema ProbePollRequest} (raw : jsstr) : outcome ProbePollRequest :=
  read_valid ProbePollRequest (fun q => machine_ids (ppq_machine q)) raw delivery_error.
Definition parsePollResponse `{Schema ProbePollResponse} (raw : jsstr) : outcome ProbePollResponse :=
  read_valid ProbePollResponse poll_response_valid raw delivery_error.
Definition parseStatusRequest `{Schema ProbeStatusRequest} (raw : jsstr) : outcome ProbeStatusRequest :=
  read_valid ProbeStatusRequest status_request_valid raw delivery_error.
Definition parseStatusResponse `{Schema ProbeStatusResponse} (raw : jsstr) : outcome ProbeStatusResponse :=
  read_valid ProbeStatusResponse status_response_valid raw delivery_error.

Definition parseProbeInstanceRequest `{Schema ProbeInstanceRequest} (raw : jsstr) : outcome ProbeInstanceRequest :=
  read_valid ProbeInstanceRequest instance_request_valid raw instance_error.
Definition parseProbeInstanceResponse `{Schema ProbeInstanceResponse} (raw : jsstr) : outcome ProbeInstanceResponse :=
  read_valid ProbeInstanceResponse instance_response_valid raw instance_error.

Definition negotiation_ids (q : ProbeNegotiationRequest) : bool := is_id (pnq_nodeId q) && is_id (pnq_bootId q).

Definition parseNegotiationRequest `{Schema ProbeNegotiationRequest} (raw : jsstr) : outcome ProbeNegotiationRequest :=
  read_valid ProbeNegotiationRequest negotiation_ids raw negotiation_error.
Definition parseNegotiationResponse `{Schema ProbeNegotiationResponse} (raw : jsstr) : outcome ProbeNegotiationResponse :=
  read_valid ProbeNegotiationResponse (fun r => negotiation_ids (pnr_request r)) raw negotiation_error.

Definition parseProbeResultRequest `{Schema ProbeResultRequest} (raw : jsstr) : outcome ProbeResultRequest :=
  value ← read_valid ProbeResultRequest (fun q => machine_ids (prq_machine q) && is_id (prq_permitId q)) raw result_error;
  _ ← throw_if (result_differs value) "INVALID_CONFIG" "Probe result binding, time or status differs";
  Returns value.
Definition parseProbeResultResponse `{Schema ProbeResultResponse} (raw : jsstr) : outcome ProbeResultResponse :=
  value ← read_valid ProbeResultResponse (fun r => machine_ids (prr_machine r) && is_id (prr_permitId r)) raw result_error;
  _ ← throw_if (ack_time_differs value) "INVALID_CONFIG" "Probe result acknowledgement time differs";
  Returns value.

(** ** JSON documents *)

Definition probe_header (kind : string) : list (jsstr * json) :=
  [(js "protocolVersion", JInt 3); (js "probeVersion", JInt 1); (js "kind", JStr (js kind))].

Definition machine_fields (m : Machine) : list (jsstr * json) :=
  [(js "nodeId", JStr (pm_nodeId m)); (js "bootId", JStr (pm_bootId m));
   (js "sessionEpoch", JInt (pm_sessionEpoch m)); (js "instanceId", JStr (pm_instanceId m));
   (js "instanceGeneration", JInt (pm_instanceGeneration m))].

Definition probe_binding_json (b : ProbeClaimBinding) : json :=
  JObj [(js "nodeId", JStr (pb_nodeId b)); (js "bootId", JStr (pb_bootId b));
        (js "sessionEpoch", JInt (pb_sessionEpoch b));
        (js "snapshotGeneration", JInt (pb_snapshotGeneration b));
        (js "assignmentId", JStr (pb_assignmentId b)); (js "forwardId", JStr (pb_forwardId b));
        (js "forwardRevision", JInt (pb_forwardRevision b));
        (js "deploymentGeneration", JInt (pb_deploymentGeneration b));
        (js "bindingFence", JInt (pb_bindingFence b)); (js "configDigest", JStr (pb_configDigest b));
        (js "egressPolicyRevision", JInt (pb_egressPolicyRevision b))].

#[export] Instance ProbeClaimRequest_doc : Documented ProbeClaimRequest := fun q =>
  JObj (probe_header "probe-claim" ++ machine_fields (pcq_machine q) ++
        [(js "permitId", JStr (pcq_permitId q))]).

#[export] Instance ProbeClaimResponse_doc : Documented ProbeClaimResponse := fun r =>
  JObj (probe_header "probe-claim-ack" ++ machine_fields (pcr_machine r) ++
        [(js "permitId", JStr (pcr_permitId r)); (js "binding", probe_binding_json (pcr_binding r));
         (js "timeoutMs", JInt (pcr_timeoutMs r)); (js "issuedAt", JStr (pcr_issuedAt r));
         (js "expiresAt", JStr (pcr_expiresAt r)); (js "consumedAt", JStr (pcr_consumedAt r));
         (js "serverTime", JStr (pcr_serverTime r)); (js "state", JStr (js "consumed"));
         (js "executionEnabled", JBool false)]).

Definition offer_fields (o : ProbeOffer) : list (jsstr * json) :=
  [(js "permitId", JStr (po_permitId o)); (js "binding", probe_binding_json (po_binding o));
   (js "timeoutMs", JInt (po_timeoutMs o)); (js "issuedAt", JStr (po_issuedAt o));
   (js "expiresAt", JStr (po_expiresAt o))].

Definition or_null {A} (f : A -> json) (o : option A) : json :=
  match o with Some x => f x | None => JNull end.

#[export] Instance ProbePollRequest_doc : Documented ProbePollRequest := fun q =>
  JObj (probe_header "probe-poll" ++ machine_fields (ppq_machine q) ++
        [(js "requestId", JStr (ppq_requestId q))]).

#[export] Instance ProbePollResponse_doc : Documented ProbePollResponse := fun r =>
  JObj (probe_header "probe-poll-ack" ++ machine_fields (ppr_machine r) ++
        [(js "requestId", JStr (ppr_requestId r)); (js "observedAt", JStr (ppr_observedAt r));
         (js "serverTime", JStr (ppr_serverTime r)); (js "executionEnabled", JBool false);
         (js "offer", or_null (fun o => JObj (offer_fields o)) (ppr_offer r))]).

#[export] Instance ProbeStatusRequest_doc : Documented ProbeStatusRequest := fun q =>
  JObj (probe_header "probe-status" ++ machine_fields (psq_machine q) ++
        [(js "requestId", JStr (psq_requestId q)); (js "permitId", JStr (psq_permitId q))]).

#[export] Instance ProbeStatusResponse_doc : Documented ProbeStatusResponse := fun r =>
  JObj (probe_header "probe-status-ack" ++ machine_fields (psr_machine r) ++
        (js "requestId", JStr (psr_requestId r)) :: offer_fields (psr_offer r) ++
        [(js "consumedAt", JStr (psr_consumedAt r)); (js "checkedAt", JStr (psr_checkedAt r));
         (js "serverTime", JStr (psr_serverTime r)); (js "state", JStr (js "consumed"));
         (js "executionEnabled", JBool false)]).

Definition instance_action_name (a : InstanceAction) : jsstr :=
  match a with inspect => js "inspect" | register => js "register" | revoke => js "revoke" end.

Definition instance_state_name (s : InstanceState) : jsstr :=
  match s with
  | is_absent => js "absent" | is_registered => js "registered" | is_stale => js "stale"
  | is_revoked => js "revoked" | is_quarantined => js "quarantined"
  end.

Definition instance_fields (q : ProbeInstanceRequest) : list (jsstr * json) :=
  [(js "action", JStr (instance_action_name (piq_action q))); (js "nodeId", JStr (piq_nodeId q));
   (js "bootId", JStr (piq_bootId q)); (js "sessionEpoch", JInt (piq_sessionEpoch q));
   (js "instanceId", JStr (piq_instanceId q)); (js "expectedGeneration", JInt (piq_expectedGeneration q))].

#[export] Instance ProbeInstanceRequest_doc : Documented ProbeInstanceRequest := fun q =>
  JObj (probe_header "probe-instance" ++ instance_fields q).

#[export] Instance ProbeInstanceResponse_doc : Documented ProbeInstanceResponse := fun r =>
  JObj (probe_header "probe-instance-ack" ++ instance_fields (pir_request r) ++
        [(js "generation", JInt (pir_generation r));
         (js "state", JStr (instance_state_name (pir_state r)));
         (js "currentInstanceId", or_null JStr (pir_currentInstanceId r));
         (js "registeredAt", or_null JStr (pir_registeredAt r));
         (js "expiresAt", or_null JStr (pir_expiresAt r));
         (js "serverTime", JStr (pir_serverTime r)); (js "executionEnabled", JBool false)]).

Definition negotiation_fields (q : ProbeNegotiationRequest) : list (jsstr * json) :=
  [(js "nodeId", JStr (pnq_nodeId q)); (js "bootId", JStr (pnq_bootId q));
   (js "sessionEpoch", JInt (pnq_sessionEpoch q)); (js "instanceId", JStr (pnq_instanceId q));
   (js "capability", JStr (js "probe.tcp-connect.v1")); (js "point", JStr (js "agent-direct-egress"));
   (js "maxTimeoutMs", JInt 2000); (js "maxAttempts", JInt 1); (js "applicationPayloadBytes", JInt 0)].

#[export] Instance ProbeNegotiationRequest_doc : Documented ProbeNegotiationRequest := fun q =>
  JObj (probe_header "probe-hello" ++ negotiation_fields q).

#[export] Instance ProbeNegotiationResponse_doc : Documented ProbeNegotiationResponse := fun r =>
  JObj (probe_header "probe-hello-ack" ++ negotiation_fields (pnr_request r) ++
        [(js "serverTime", JStr (pnr_serverTime r)); (js "state", JStr (js "contract-only"));
         (js "executionEnabled", JBool false)]).

(** [ProbeResultBody]: the result without its [requestId], so that a retry under a new
    request id has the same digest. *)
Definition probe_result_body_fields (q : ProbeResultRequest) : list (jsstr * json) :=
  probe_header "probe-result" ++ machine_fields (prq_machine q) ++
  [(js "permitId", JStr (prq_permitId q)); (js "binding", probe_binding_json (prq_binding q));
   (js "timeoutMs", JInt (prq_timeoutMs q)); (js "issuedAt", JStr (prq_issuedAt q));
   (js "expiresAt", JStr (prq_expiresAt q)); (js "consumedAt", JStr (prq_consumedAt q));
   (js "measuredAt", JStr (prq_measuredAt q)); (js "validUntil", JStr (prq_validUntil q));
   (js "elapsedMs", JInt (prq_elapsedMs q)); (js "point", JStr (js "agent-direct-egress"));
   (js "status", JStr (match prq_status q with connected => js "connected" | unreachable => js "unreachable" end));
   (js "code", JStr (match prq_code q with tcp_connected => js "tcp-connected" | tcp_connect_failed => js "tcp-connect-failed" end));
   (js "applicationHealth", JStr (js "unknown")); (js "source", JStr (js "agent-reported"));
   (js "applicationPayloadBytes", JInt 0)].

#[export] Instance ProbeResultRequest_doc : Documented ProbeResultRequest := fun q =>
  JObj (probe_result_body_fields q ++ [(js "requestId", JStr (prq_requestId q))]).

#[export] Instance ProbeResultResponse_doc : Documented ProbeResultResponse := fun r =>
  JObj (probe_header "probe-result-ack" ++ machine_fields (prr_machine r) ++
        [(js "permitId", JStr (prr_permitId r)); (js "requestId", JStr (prr_requestId r));
         (js "resultDigest", JStr (prr_resultDigest r)); (js "acceptedAt", JStr (prr_acceptedAt r));
         (js "serverTime", JStr (prr_serverTime r)); (js "duplicate", JBool (prr_duplicate r));
         (js "health", JStr (js "unknown")); (js "executionEnabled", JBool false)]).

(** ** Answers belong to their requests *)

Definition same_machine (a b : Machine) : bool :=
  str_eqb (pm_nodeId a) (pm_nodeId b) && str_eqb (pm_bootId a) (pm_bootId b) &&
  (pm_sessionEpoch a =? pm_sessionEpoch b) && str_eqb (pm_instanceId a) (pm_instanceId b) &&
  (pm_instanceGeneration a =? pm_instanceGeneration b).

Definition checkProbeClaim `{Schema ProbeClaimRequest, Schema ProbeClaimResponse}
    (request : ProbeClaimRequest) (response : ProbeClaimResponse) : outcome unit :=
  req ← parseProbeClaimRequest (stringify (document request));
  ack ← parseProbeClaimResponse (stringify (document response));
  throw_if (negb (same_machine (pcq_machine req) (pcr_machine ack)) ||
            negb (str_eqb (pcq_permitId req) (pcr_permitId ack)))
    "AUTHORIZATION_DENIED" "Probe claim response differs".

Definition echo (m m' : Machine) (requestId requestId' : jsstr) : outcome unit :=
  throw_if (negb (same_machine m m') || negb (str_eqb requestId requestId'))
    "AUTHORIZATION_DENIED" "Probe delivery response differs".

Definition checkProbePoll `{Schema ProbePollRequest, Schema ProbePollResponse}
    (request : ProbePollRequest) (response : ProbePollResponse) : outcome unit :=
  req ← parsePollRequest (stringify (document request));
  ack ← parsePollResponse (stringify (document response));
  echo (ppq_machine req) (ppr_machine ack) (ppq_requestId req) (ppr_requestId ack).

Definition checkProbeStatus `{Schema ProbeStatusRequest, Schema ProbeStatusResponse}
    (request : ProbeStatusRequest) (response : ProbeStatusResponse) : outcome unit :=
  req ← parseStatusRequest (stringify (document request));
  ack ← parseStatusResponse (stringify (document response));
  _ ← echo (psq_machine req) (psr_machine ack) (psq_requestId req) (psr_requestId ack);
  throw_if (negb (str_eqb (psq_permitId req) (po_permitId (psr_offer ack))))
    "AUTHORIZATION_DENIED" "Probe status permit differs".

Definition checkProbeInstance `{Schema ProbeInstanceRequest, Schema ProbeInstanceResponse}
    (request : ProbeInstanceRequest) (response : ProbeInstanceResponse) : outcome unit :=
  req ← parseProbeInstanceRequest (stringify (document request));
  ack ← parseProbeInstanceResponse (stringify (document response));
  let q := pir_request ack in
  throw_if (negb (str_eqb (piq_nodeId req) (piq_nodeId q)) || negb (str_eqb (piq_bootId req) (piq_bootId q)) ||
            negb (piq_sessionEpoch req =? piq_sessionEpoch q) ||
            negb (bool_decide (piq_action req = piq_action q)) ||
            negb (str_eqb (piq_instanceId req) (piq_instanceId q)) ||
            negb (piq_expectedGeneration req =? piq_expectedGeneration q))
    "AUTHORIZATION_DENIED" "Probe instance response differs".

Definition checkProbeNegotiation `{Schema ProbeNegotiationRequest, Schema ProbeNegotiationResponse}
    (request : ProbeNegotiationRequest) (response : ProbeNegotiationResponse) : outcome unit :=
  req ← parseNegotiationRequest (stringify (document request));
  ack ← parseNegotiationResponse (stringify (document response));
  let q := pnr_request ack in
  throw_if (negb (str_eqb (pnq_nodeId req) (pnq_nodeId q)) || negb (str_eqb (pnq_bootId req) (pnq_bootId q)) ||
            negb (pnq_sessionEpoch req =? pnq_sessionEpoch q) || negb (str_eqb (pnq_instanceId req) (pnq_instanceId q)))
    "AUTHORIZATION_DENIED" "Probe negotiation identity differs".

(** The body is digested without re-reading: the parsed request minus its id. *)
Definition probeResultDigest `{Hashing, Schema ProbeResultRequest} (input : ProbeResultRequest) : outcome jsstr :=
  q ← parseProbeResultRequest (stringify (document input));
  digest (JObj (probe_result_body_fields q)).

Definition checkProbeResult `{Hashing, Schema ProbeResultRequest, Schema ProbeResultResponse}
    (input : ProbeResultRequest) (output : ProbeResultResponse) : outcome unit :=
  req ← parseProbeResultRequest (stringify (document input));
  ack ← parseProbeResultResponse (stringify (document output));
  _ ← throw_if (negb (same_machine (prq_machine req) (prr_machine ack)) ||
                negb (str_eqb (prq_permitId req) (prr_permitId ack)) ||
                negb (str_eqb (prq_requestId req) (prr_requestId ack)))
        "AUTHORIZATION_DENIED" "Probe result acknowledgement differs";
  d ← probeResultDigest req;
  throw_if (negb (str_eqb d (prr_resultDigest ack)) ||
            n_lt (Date_ms (prr_acceptedAt ack)) (Date_ms (prq_measuredAt req)) ||
            n_le (Date_ms (prq_validUntil req)) (Date_ms (prr_acceptedAt ack)) ||
            n_le (Date_ms (prq_validUntil req)) (Date_ms (prr_serverTime ack)))
    "AUTHORIZATION_DENIED" "Probe result acknowledgement differs".

(** ** Time windows *)

(** Split on whether each time is a number; only numbers compare. *)
Ltac times :=
  repeat match goal with
  | H : context [Date_ms ?t] |- _ => let x := fresh "x" in destruct (Date_ms t) as [x|] in *
  end; cbn [n_lt n_le n_sub ms andb orb] in *; rewrite ?andb_false_r, ?orb_true_r in *;
  try discriminate; propify.

Definition binding_matches (m : Machine) (b : ProbeClaimBinding) : Prop :=
  (pb_nodeId b, pb_bootId b, pb_sessionEpoch b) = (pm_nodeId m, pm_bootId m, pm_sessionEpoch m).

Lemma binding_of_true m b : binding_of m b = true <-> binding_matches m b.
Proof.
  unfold binding_of, binding_matches. rewrite !andb_true_iff. autorewrite with guards.
  split; [intros [[-> ->] ->]; done|intros [= -> -> ->]; done].
Qed.

Lemma read_valid_inv A `{Schema A} valid raw m (x : A) :
  read_valid A valid raw m = Returns x -> read_as A raw 4096 m = Returns x /\ valid x = true.
Proof.
  unfold read_valid. intros (y & Hy & Hv)%bind_Returns. apply guard_seq in Hv as [Hv [= ->]]. by propify.
Qed.

(** The members of a receipt that bound when it may be used. *)
Record claim_window (r : ProbeClaimResponse) : Prop := {
  cw_binding : binding_matches (pcr_machine r) (pcr_binding r);
  cw_times : exists issued expires consumed server,
    Date_ms (pcr_issuedAt r) = Some issued /\ Date_ms (pcr_expiresAt r) = Some expires /\
    Date_ms (pcr_consumedAt r) = Some consumed /\ Date_ms (pcr_serverTime r) = Some server /\
    0 <= issued <= consumed /\ consumed <= server < expires /\ expires <= issued + 2000;
}.

Lemma claim_response_window r : claim_response_valid r = true -> claim_window r.
Proof.
  unfold claim_response_valid. destruct (negb _); [done|].
  destruct (_ || _) eqn:E; [done|]. propify. rewrite binding_of_true in *. intros Hw. split; [done|].
  times. do 4 eexists. split_and!; (reflexivity || lia).
Qed.

(** A claim receipt is usable for at most two seconds: whatever
    [parseProbeClaim] returns as a response binds the process that claimed, was
    consumed after it was issued, and was answered before it expires, at most 2000
    milliseconds after it was issued. *)
Theorem parseProbeClaim_window `{Schema ProbeClaimResponse} (raw : jsstr) (r : ProbeClaimResponse) :
  parseProbeClaimResponse raw = Returns r -> claim_window r.
Proof. intros [_ Hv]%read_valid_inv. by apply claim_response_window. Qed.

Record result_window (q : ProbeResultRequest) : Prop := {
  rw_binding : binding_matches (prq_machine q) (prq_binding q);
  rw_times : forall issued expires consumed measured until,
    Date_ms (prq_issuedAt q) = Some issued -> Date_ms (prq_expiresAt q) = Some expires ->
    Date_ms (prq_consumedAt q) = Some consumed -> Date_ms (prq_measuredAt q) = Some measured ->
    Date_ms (prq_validUntil q) = Some until ->
    0 <= issued <= consumed /\ consumed <= measured < until /\ until <= expires <= issued + 2000;
  rw_elapsed : prq_elapsedMs q <= prq_timeoutMs q;
  rw_code : prq_status q = connected <-> prq_code q = tcp_connected;
}.

Lemma result_differs_window q : result_differs q = false -> result_window q.
Proof.
  unfold result_differs. intros H. propify. rewrite binding_of_true in *. split; [done| |lia|].
  - intros issued expires consumed measured until E1 E2 E3 E4 E5. rewrite E1, E2, E3, E4, E5 in *.
    cbn [n_lt n_le n_sub ms] in *. propify. lia.
  - apply eqb_prop in H0. destruct (prq_status q), (prq_code q); cbn in H0; try done.
Qed.

(** What [parseProbeResult] guarantees of a result whose times are all
    representable: it binds the reporting process, it was consumed, measured and is
    valid in this order inside the two seconds of the permit, the measurement respects
    its timeout, and status and code agree. *)
Theorem parseProbeResult_window `{Schema ProbeResultRequest} (raw : jsstr) (q : ProbeResultRequest) :
  parseProbeResultRequest raw = Returns q -> result_window q.
Proof.
  unfold parseProbeResultRequest. intros (x & Hx & Hg)%bind_Returns.
  apply guard_seq in Hg as [Hd [= ->]]. by apply result_differs_window.
Qed.

(** ** Registration of a Probe instance *)

Record instance_consistent (r : ProbeInstanceResponse) : Prop := {
  ic_absent : pir_state r = is_absent <-> pir_generation r = 0;
  ic_current : pir_state r = is_absent <-> pir_currentInstanceId r = None;
  ic_lease : pir_state r <> is_absent -> exists from until registered expires,
    pir_registeredAt r = Some from /\ pir_expiresAt r = Some until /\
    Date_ms from = Some registered /\ Date_ms until = Some expires /\
    registered < expires <= registered + 30000;
  ic_register : piq_action (pir_request r) = register ->
    pir_state r = is_registered /\ pir_generation r = piq_expectedGeneration (pir_request r) + 1 /\
    pir_currentInstanceId r = Some (piq_instanceId (pir_request r));
  ic_revoke : piq_action (pir_request r) = revoke ->
    (pir_state r = is_revoked \/ pir_state r = is_quarantined) /\
    pir_generation r = piq_expectedGeneration (pir_request r) /\
    pir_currentInstanceId r = Some (piq_instanceId (pir_request r));
}.

Lemma absent_iff {A} s (o : option A) :
  Bool.eqb (bool_decide (s = is_absent)) (is_null o) = true -> s = is_absent <-> o = None.
Proof. intros H%eqb_prop. destruct o; cbn in H; propify; naive_solver. Qed.

Lemma instance_response_consistent r : instance_response_valid r = true -> instance_consistent r.
Proof.
  unfold instance_response_valid. destruct (negb (instance_request_valid _)); [done|].
  destruct (_ || _ || _ || _) eqn:E; [done|]. propify.
  destruct (negb _ && _) eqn:Ed; [done|].
  destruct (bool_decide (piq_action _ = register) && _) eqn:Er; [done|].
  destruct (bool_decide (piq_action _ = revoke) && _) eqn:Ev; [done|]. intros _.
  repeat match goal with H : Bool.eqb _ (is_null _) = true |- _ => apply absent_iff in H end.
  split; [|done|..].
  - apply eqb_prop in H. destruct (pir_generation r =? 0) eqn:Eg; propify; naive_solver.
  - intros Hs. rewrite (bool_decide_eq_false_2 _ Hs) in Ed. cbn [negb andb] in Ed.
    assert (pir_registeredAt r <> None) by tauto. assert (pir_expiresAt r <> None) by tauto.
    destruct (pir_registeredAt r) as [f|], (pir_expiresAt r) as [u|]; try done.
    cbn [default from_option Datatypes.id] in Ed. exists f, u. apply negb_false_iff in Ed. times.
    do 2 eexists. split_and!; (reflexivity || lia).
  - intros Ha. rewrite (bool_decide_eq_true_2 _ Ha) in Er. cbn [andb] in Er. by propify.
  - intros Ha. rewrite (bool_decide_eq_true_2 _ Ha) in Ev. cbn [andb] in Ev. propify.
    match goal with H : includes _ _ = true |- _ => apply includes_true in H; rename H into Hi end.
    split; [|done]. set_solver.
Qed.

(** A registry answer that [parseProbeInstance] returns is a consistent compare-and-set:
    no instance is recorded exactly at generation zero, a registration moves the
    expected generation by one to the requesting instance, a revocation keeps it, and a
    recorded instance has a lease of at most thirty seconds. *)
Theorem parseProbeInstance_consistent `{Schema ProbeInstanceResponse} (raw : jsstr) (r : ProbeInstanceResponse) :
  parseProbeInstanceResponse raw = Returns r -> instance_consistent r.
Proof. intros [_ Hv]%read_valid_inv. by apply instance_response_consistent. Qed.

(** ** Concrete exchanges *)

Definition example_machine : Machine := MkMachine (js "n1") (js "b1") 4 (js "i1") 2.

Definition example_probe_binding : ProbeClaimBinding :=
  MkProbeClaimBinding (js "n1") (js "b1") 4 9 (js "a1") (js "f1") 3 1 7 (js "sha256:00") 1.

Definition example_claim : ProbeClaimResponse :=
  MkProbeClaimResponse example_machine (js "permit1") example_probe_binding 1000
    (js "2026-01-01T00:00:00.000Z") (js "2026-01-01T00:00:02.000Z")
    (js "2026-01-01T00:00:00.500Z") (js "2026-01-01T00:00:00.600Z").

Lemma parseProbeClaim_window_witness : claim_window example_claim.
Proof.
  refine (@parseProbeClaim_window (accept_only example_claim) (stringify (document example_claim)) example_claim _).
  vm_compute. reflexivity.
Defined.

Definition example_result : ProbeResultRequest :=
  MkProbeResultRequest example_machine (js "permit1") (js "r1") example_probe_binding 1000
    (js "2026-01-01T00:00:00.000Z") (js "2026-01-01T00:00:02.000Z") (js "2026-01-01T00:00:00.500Z")
    (js "2026-01-01T00:00:00.700Z") (js "2026-01-01T00:00:02.000Z") 120 connected tcp_connected.

Lemma parseProbeResult_window_witness : result_window example_result.
Proof.
  refine (@parseProbeResult_window (accept_only example_result) (stringify (document example_result)) example_result _).
  vm_compute. reflexivity.
Defined.

Definition example_registration : ProbeInstanceResponse :=
  MkProbeInstanceResponse (MkProbeInstanceRequest register (js "n1") (js "b1") 4 (js "i1") 1) 2 is_registered
    (Some (js "i1")) (Some (js "2026-01-01T00:00:00.000Z")) (Some (js "2026-01-01T00:00:30.000Z"))
    (js "2026-01-01T00:00:00.000Z").

Lemma parseProbeInstance_consistent_witness : instance_consistent example_registration.
Proof.
  refine (@parseProbeInstance_consistent (accept_only example_registration)
            (stringify (document example_registration)) example_registration _).
  vm_compute. reflexivity.
Defined.

(** A result that claims to expire at a leap second. *)
Definition leap_result : ProbeResultRequest :=
  MkProbeResultRequest example_machine (js "permit1") (js "r1") example_probe_binding 1000
    (js "2026-06-30T23:00:00.000Z") (js "2026-06-30T23:59:60.000Z") (js "2026-06-30T23:00:00.000Z")
    (js "2026-06-30T23:00:00.000Z") (js "2026-06-30T23:59:59.000Z") 0 connected tcp_connected.


