(* ===== verification/Drivers.v ===== *)
(** The catalogue of built-in drivers (packages/contracts/src/native-drivers.ts): a closed
    declaration, checked when the module loads. *)

From S2P Require Import Prelude.
From S2P Require Import JsString.
From S2P Require Import Json.
From S2P Require Import Schema.
From S2P Require Import Relay.
From S2P Require Import Multihop.

Local Open Scope Z_scope.

Definition ids : list jsstr := [js "native.direct.v1"; js "native.relay.v1"; js "native.multihop.v1"].

Definition fields : list jsstr :=
  map js ["id"; "descriptorRevision"; "assignmentSchemaVersion"; "schemaId"; "platforms"; "roles"; "phases";
          "businessProtocols"; "carrierByProtocol"; "advertisedCapabilities"; "requiredCapabilities";
          "agentFlags"; "controlGate"; "security"; "privileges"; "limitSources"; "prepare"; "drain";
          "probe"; "usage"].

(** [value.key]: [null] stands for a missing property, which no test accepts. *)
Definition prop (v : json) (k : string) : json :=
  match v with
  | JObj fs => match list_find (fun kv => kv.1 = js k) fs with Some (_, kv) => kv.2 | None => JNull end
  | _ => JNull
  end.

Definition closed (v : json) (keys : list jsstr) : bool :=
  match v with
  | JObj fs => (length fs =? length keys)%nat && forallb (fun kv => includes keys kv.1) fs
  | _ => false
  end.

(** [v.replace(/^--/, '')] *)
Definition strip_dashes (s : jsstr) : jsstr :=
  match s with
  | a :: b :: r => if (a =? ch_dash) && (b =? ch_dash) then r else s
  | _ => s
  end.

(** One to 128 letters, digits, dots, underscores, colons or dashes. *)
Definition token_char (c : Z) : bool :=
  is_alnum c || (c =? ch_dot) || (c =? 95) || (c =? ch_colon) || (c =? ch_dash).

Definition token (s : jsstr) : bool :=
  (1 <=? length s)%nat && (length s <=? 128)%nat && forallb token_char s.

Definition the_str (v : json) : option jsstr := match v with JStr s => Some s | _ => None end.

Definition string_ok (allowed : option (list jsstr)) (v : json) : bool :=
  match the_str v with
  | None => false
  | Some s => token (strip_dashes s) && match allowed with None => true | Some l => includes l s end
  end.

Definition strings (v : json) (allowed : option (list jsstr)) (empty : bool) : bool :=
  match v with
  | JArr l => ((if empty then 0 else 1) <=? length l)%nat && (length l <=? 16)%nat &&
              distinct l && forallb (string_ok allowed) l
  | _ => false
  end.

(** [String(v)]: an array prints its elements joined by commas, an object without a
    prototype cannot be converted. *)
Fixpoint to_string (v : json) : outcome jsstr :=
  match v with
  | JNull => Returns (js "null")
  | JBool b => Returns (if b then js "true" else js "false")
  | JInt n => Returns (num_to_string n)
  | JStr s => Returns s
  | JArr l =>
      (fun parts => join [44] parts) <$>
      map_each (fun w => match w with JNull => Returns [] | _ => to_string w end) l
  | JObj _ => Throws (Exn "TypeError" "Cannot convert object to primitive value")
  end.

(** [allowed.includes(String(v))] *)
Definition one_of (allowed : list string) (v : json) : outcome bool :=
  s ← to_string v; Returns (includes (map js allowed) s).

Definition has_string (v : json) (s : jsstr) : bool :=
  match v with JArr l => includes l (JStr s) | _ => false end.

(** [item.list.includes(item.id as string)] *)
Definition has_value (v w : json) : bool :=
  match v, w with JArr l, JStr _ => includes l w | _, _ => false end.

Definition is_str (v : json) (s : string) : bool := bool_decide (v = JStr (js s)).
Definition is_num (v : json) (n : Z) : bool := bool_decide (v = JInt n).
Definition is_false (v : json) : bool := bool_decide (v = JBool false).

Definition allowed (l : list string) : option (list jsstr) := Some (map js l).

Definition rejected : exn := Exn "INVALID_CONFIG" "Closed native driver descriptor required".

(** [if (!test) throw rejected], where evaluating the test may throw itself. *)
Definition demand (test : outcome bool) : outcome unit :=
  test ≫= fun b : bool => if b then Returns tt else Throws rejected.

Definition check_descriptor (seen : list json) (item : json) : outcome (list json) :=
  let p := prop item in
  let carrier := prop (p "carrierByProtocol") in
  let privileges := prop (p "privileges") in
  _ ← demand (Returns (closed item fields));
  _ ← demand (s ← to_string (p "id"); Returns (includes ids s));
  _ ← demand (Returns (negb (includes seen (p "id")) && is_num (p "descriptorRevision") 1 &&
                       is_num (p "assignmentSchemaVersion") 1));
  _ ← demand (one_of ["urn:tunex:adp:3:runtime"; "urn:tunex:adp:3:relay"; "urn:tunex:adp:3:execution:1"]
                (p "schemaId"));
  _ ← demand (Returns (strings (p "platforms") (allowed ["linux"; "windows"]) false &&
        strings (p "roles") (allowed ["direct"; "relay-ingress"; "relay-egress"; "multihop-ingress";
                                      "multihop-transit"; "multihop-egress"]) false &&
        strings (p "phases") (allowed ["active"; "prepared"; "draining"]) false &&
        strings (p "businessProtocols") (allowed ["tcp"; "udp"]) false &&
        closed (p "carrierByProtocol") [js "tcp"; js "udp"] && is_str (carrier "tcp") "tcp"));
  _ ← demand (one_of ["tcp"; "udp"] (carrier "udp"));
  _ ← demand (Returns (strings (p "advertisedCapabilities") None false &&
        has_value (p "advertisedCapabilities") (p "id") &&
        strings (p "requiredCapabilities") None false &&
        has_string (p "requiredCapabilities") (js "adp.3") && has_value (p "requiredCapabilities") (p "id") &&
        strings (p "agentFlags") (allowed ["--relay"; "--multihop"]) true));
  _ ← demand (one_of ["none"; "multihop"] (p "controlGate"));
  _ ← demand (one_of ["not-added-by-driver"; "mutual-tls13"] (p "security"));
  _ ← demand (Returns (closed (p "privileges") [js "networkAdmin"; js "rootForUnprivilegedPorts"; js "lowPorts"] &&
        is_false (privileges "networkAdmin") && is_false (privileges "rootForUnprivilegedPorts") &&
        is_str (privileges "lowPorts") "os-policy" && strings (p "limitSources") None false));
  _ ← demand (one_of ["active-only"; "tail-to-head"] (p "prepare"));
  _ ← demand (Returns (is_str (p "drain") "bounded-authorization-clipped"));
  _ ← demand (one_of ["direct-egress-tcp-opt-in"; "unsupported"] (p "probe"));
  _ ← demand (Returns (is_str (p "usage") "not-reported"));
  Returns (p "id" :: seen).

Definition parseNativeDriverCatalog (raw : jsstr) : outcome json :=
  value ← parseJson raw 32768;
  match prop value "drivers" with
  | JArr drivers =>
      _ ← throw_if (negb (closed value [js "version"; js "drivers"]) || negb (is_num (prop value "version") 1) ||
                    negb (length drivers =? 3)%nat)
            "INVALID_CONFIG" "Native driver catalog v1 required";
      _ ← fold_each check_descriptor drivers [];
      Returns value
  | _ => Throws (Exn "INVALID_CONFIG" "Native driver catalog v1 required")
  end.

(** ** What the catalogue guarantees *)

Lemma demand_ok {B} (b : bool) (k : outcome B) r :
  (demand (Returns b) ≫= fun _ => k) = Returns r <-> b = true /\ k = Returns r.
Proof. destruct b; cbn; naive_solver. Qed.

Lemma demand_seq {B} (t : outcome bool) (k : outcome B) r :
  (demand t ≫= fun _ => k) = Returns r <-> t = Returns true /\ k = Returns r.
Proof. destruct t as [[]|]; cbn; naive_solver. Qed.

(** The strings of a list of strings. *)
Definition lists (v : json) (l : list jsstr) : Prop := v = JArr (map JStr l).

Record descriptor_ok (item : json) : Prop := {
  do_id : exists id, prop item "id" = JStr id /\ id ∈ ids;
  do_advertised : exists id l, prop item "id" = JStr id /\ lists (prop item "advertisedCapabilities") l /\ id ∈ l;
  do_required : exists id l, prop item "id" = JStr id /\ lists (prop item "requiredCapabilities") l /\
    id ∈ l /\ js "adp.3" ∈ l;
  do_platforms : exists l, lists (prop item "platforms") l /\ l <> [] /\ NoDup l /\ l ⊆ map js ["linux"; "windows"];
  do_protocols : exists l, lists (prop item "businessProtocols") l /\ l <> [] /\ NoDup l /\ l ⊆ map js ["tcp"; "udp"];
  do_unprivileged : prop (prop item "privileges") "networkAdmin" = JBool false /\
    prop (prop item "privileges") "rootForUnprivilegedPorts" = JBool false;
}.

Lemma strings_lists v al e : strings v al e = true ->
  exists l, lists v l /\ NoDup l /\ (e = false -> l <> []) /\
    match al with Some a => l ⊆ a | None => True end.
Proof.
  destruct v as [| | | |vs|]; try done. unfold strings. intros H. propify.
  match goal with H : forallb _ _ = true |- _ => apply forallb_Forall in H; rename H into HF end.
  match goal with H : distinct _ = true |- _ => apply distinct_NoDup in H; rename H into HN end.
  assert (Hl : exists l, vs = map JStr l).
  { clear -HF. induction HF as [|v r Hv _ [l ->]]; [by exists []|]. destruct v; try done. by exists (s :: l). }
  destruct Hl as [l ->]. exists l. split; [done|]. split_and!.
  - apply (NoDup_map_iff JStr (fun s => s)) in HN; [by rewrite map_id in HN|]. intros x y. split; congruence.
  - intros -> ->. cbn in *. lia.
  - destruct al as [a|]; [|done]. intros x Hx. rewrite Forall_map in HF. rewrite Forall_forall in HF.
    specialize (HF x Hx). unfold string_ok in HF. cbn in HF. propify. by apply includes_true.
Qed.

Lemma has_string_lists v l s : lists v l -> has_string v s = true -> s ∈ l.
Proof.
  intros -> H%includes_true. rewrite list_elem_of_In, in_map_iff in H. destruct H as (x & [= ->] & Hx).
  by apply list_elem_of_In.
Qed.

Lemma check_descriptor_ok seen item seen' : check_descriptor seen item = Returns seen' ->
  seen' = prop item "id" :: seen /\ (prop item "id" ∉ seen) /\ descriptor_ok item.
Proof.
  unfold check_descriptor. repeat (rewrite demand_ok || rewrite demand_seq).
  intros (_ & Hid & H3 & _ & H5 & _ & H7 & _ & _ & H10 & _ & _ & _ & _ & [= <-]).
  rewrite !andb_true_iff in H3. rewrite !andb_true_iff in H5.
  rewrite !andb_true_iff in H7. rewrite !andb_true_iff in H10.
  destruct H3 as [[Hseen _] _], H5 as [[[[[Hplat _] _] Hprot] _] _],
    H7 as [[[[[Hadv Hadv'] Hreq] Hadp] Hreq'] _], H10 as [[[[_ Hna] Hroot] _] _].
  destruct (prop item "id") as [| | |id| |] eqn:Eid;
    try (destruct (prop item "advertisedCapabilities"); done).
  assert (Hin : includes ids id = true) by (cbn [to_string mbind outcome_bind] in Hid; congruence).
  apply includes_true in Hin. apply strings_lists in Hplat as (pl & Hpl & ? & Hpn & ?), Hprot as (pr & Hpr & ? & Hrn & ?),
    Hadv as (ad & Had & _), Hreq as (rq & Hrq & _).
  split; [done|]. split; [by apply includes_false, negb_true_iff|]. split.
  - by exists id.
  - exists id, ad. split_and!; [done|done|]. apply (has_string_lists _ _ _ Had).
    by destruct (prop item "advertisedCapabilities").
  - exists id, rq. split_and!; [done|done|..]; apply (has_string_lists _ _ _ Hrq); [|done].
    by destruct (prop item "requiredCapabilities").
  - exists pl. split_and!; auto.
  - exists pr. split_and!; auto.
  - by apply bool_decide_eq_true in Hna, Hroot.
Qed.

Lemma check_descriptors l seen seen' : fold_each check_descriptor l seen = Returns seen' ->
  fresh_from seen (map (fun item => prop item "id") l) /\ Forall descriptor_ok l.
Proof.
  revert seen; induction l as [|item r IH]; intros seen; cbn [fold_each].
  - intros _. split; [apply fresh_from_nil|constructor].
  - intros (s1 & (-> & Hn & Hok)%check_descriptor_ok & Hr)%bind_Returns.
    apply IH in Hr as [Hf HF]. split; [|by constructor]. cbn [map]. by apply fresh_from_cons.
Qed.

Lemma three_of_three (l : list jsstr) : NoDup l -> length l = 3%nat -> l ⊆ ids -> l ≡ₚ ids.
Proof.
  intros HN Hl Hs. apply submseteq_length_Permutation; [by apply NoDup_submseteq|].
  by rewrite Hl.
Qed.

(** The catalogue [parseNativeDriverCatalog] returns is version 1 and declares each of
    the three built-in drivers exactly once, each with capabilities that include its own
    id (and ADP/3), only known platforms and protocols, and no privileges. *)
Theorem parseNativeDriverCatalog_complete (raw : jsstr) (v : json) :
  parseNativeDriverCatalog raw = Returns v ->
  exists drivers, prop v "version" = JInt 1 /\ prop v "drivers" = JArr drivers /\
    Forall descriptor_ok drivers /\
    exists names, map (fun item => prop item "id") drivers = map JStr names /\ names ≡ₚ ids.
Proof.
  unfold parseNativeDriverCatalog. intros (w & Hw & H)%bind_Returns.
  destruct (prop w "drivers") as [| | | |ds|] eqn:Ed; try done.
  apply guard_seq in H as [Hg (seen & Hf & [= ->])%bind_Returns]. propify.
  apply check_descriptors in Hf as [HN HF]. apply fresh_from_start in HN.
  exists ds. split; [by apply bool_decide_eq_true in H1|]. split_and!; [done|done|].
  assert (Hnames : exists names, map (fun item => prop item "id") ds = map JStr names /\ names ⊆ ids).
  { clear -HF. induction HF as [|d r [(id & Hid & Hin) _ _ _ _ _] _ (l & El & Hl)].
    - exists []. split; [done|]. intros x Hx. by apply not_elem_of_nil in Hx.
    - exists (id :: l). cbn [map]. rewrite Hid, El. split; [done|].
      intros x [->|Hx]%elem_of_cons; [done|by apply Hl]. }
  destruct Hnames as (names & En & Hsub). exists names. split; [done|]. apply three_of_three; [| |done].
  - rewrite En in HN. apply (NoDup_map_iff JStr (fun s => s)) in HN; [by rewrite map_id in HN|].
    intros x y. split; congruence.
  - apply (f_equal length) in En. rewrite !length_map in En. congruence.
Qed.

(** ** The catalogue that ships with the contracts (data/native-drivers-v1.json) *)

Definition text (l : list string) : json := JArr (map (fun s => JStr (js s)) l).

Definition direct_descriptor : json :=
  JObj [(js "id", JStr (js "native.direct.v1"));
         (js "descriptorRevision", JInt 1);
         (js "assignmentSchemaVersion", JInt 1);
         (js "schemaId", JStr (js "urn:tunex:adp:3:runtime"));
         (js "platforms", text ["linux"; "windows"]);
         (js "roles", text ["direct"]);
         (js "phases", text ["active"]);
         (js "businessProtocols", text ["tcp"; "udp"]);
         (js "carrierByProtocol", JObj [(js "tcp", JStr (js "tcp"));
             (js "udp", JStr (js "udp"))]);
         (js "advertisedCapabilities", text ["native.direct.v1"; "tcp"; "udp"]);
         (js "requiredCapabilities", text ["adp.3"; "native.direct.v1"]);
         (js "agentFlags", text []);
         (js "controlGate", JStr (js "none"));
         (js "security", JStr (js "not-added-by-driver"));
         (js "privileges", JObj [(js "networkAdmin", JBool false);
             (js "rootForUnprivilegedPorts", JBool false);
             (js "lowPorts", JStr (js "os-policy"))]);
         (js "limitSources", text ["ADP3.Policy"; "NodePolicy"]);
         (js "prepare", JStr (js "active-only"));
         (js "drain", JStr (js "bounded-authorization-clipped"));
         (js "probe", JStr (js "direct-egress-tcp-opt-in"));
         (js "usage", JStr (js "not-reported"))].

Definition relay_descriptor : json :=
  JObj [(js "id", JStr (js "native.relay.v1"));
         (js "descriptorRevision", JInt 1);
         (js "assignmentSchemaVersion", JInt 1);
         (js "schemaId", JStr (js "urn:tunex:adp:3:relay"));
         (js "platforms", text ["linux"; "windows"]);
         (js "roles", text ["relay-ingress"; "relay-egress"]);
         (js "phases", text ["prepared"; "active"; "draining"]);
         (js "businessProtocols", text ["tcp"; "udp"]);
         (js "carrierByProtocol", JObj [(js "tcp", JStr (js "tcp"));
             (js "udp", JStr (js "tcp"))]);
         (js "advertisedCapabilities", text ["native.relay.v1"; "relay.wire.1"]);
         (js "requiredCapabilities", text ["adp.3"; "native.direct.v1"; "native.relay.v1"; "relay.wire.1"]);
         (js "agentFlags", text ["--relay"]);
         (js "controlGate", JStr (js "none"));
         (js "security", JStr (js "mutual-tls13"));
         (js "privileges", JObj [(js "networkAdmin", JBool false);
             (js "rootForUnprivilegedPorts", JBool false);
             (js "lowPorts", JStr (js "os-policy"))]);
         (js "limitSources", text ["ADP3.Policy"; "NodePolicy"; "RelayProfileConfig"; "relay-session-ceiling-4096"]);
         (js "prepare", JStr (js "tail-to-head"));
         (js "drain", JStr (js "bounded-authorization-clipped"));
         (js "probe", JStr (js "unsupported"));
         (js "usage", JStr (js "not-reported"))].

Definition multihop_descriptor : json :=
  JObj [(js "id", JStr (js "native.multihop.v1"));
         (js "descriptorRevision", JInt 1);
         (js "assignmentSchemaVersion", JInt 1);
         (js "schemaId", JStr (js "urn:tunex:adp:3:execution:1"));
         (js "platforms", text ["linux"; "windows"]);
         (js "roles", text ["multihop-ingress"; "multihop-transit"; "multihop-egress"]);
         (js "phases", text ["prepared"; "active"; "draining"]);
         (js "businessProtocols", text ["tcp"; "udp"]);
         (js "carrierByProtocol", JObj [(js "tcp", JStr (js "tcp"));
             (js "udp", JStr (js "tcp"))]);
         (js "advertisedCapabilities", text ["adp.execution.1"; "native.multihop.v1"; "multihop.wire.1"]);
         (js "requiredCapabilities", text ["adp.3"; "native.direct.v1"; "native.relay.v1"; "relay.wire.1"; "adp.execution.1"; "native.multihop.v1"; "multihop.wire.1"]);
         (js "agentFlags", text ["--relay"; "--multihop"]);
         (js "controlGate", JStr (js "multihop"));
         (js "security", JStr (js "mutual-tls13"));
         (js "privileges", JObj [(js "networkAdmin", JBool false);
             (js "rootForUnprivilegedPorts", JBool false);
             (js "lowPorts", JStr (js "os-policy"))]);
         (js "limitSources", text ["ADP3.Policy"; "NodePolicy"; "RelayProfileConfig"; "relay-session-ceiling-4096"; "path-nodes-3-to-8"]);
         (js "prepare", JStr (js "tail-to-head"));
         (js "drain", JStr (js "bounded-authorization-clipped"));
         (js "probe", JStr (js "unsupported"));
         (js "usage", JStr (js "not-reported"))].

Definition NATIVE_DRIVER_CATALOG : json :=
  JObj [(js "version", JInt 1); (js "drivers", JArr [direct_descriptor; relay_descriptor; multihop_descriptor])].

Lemma parseNativeDriverCatalog_complete_witness :
  parseNativeDriverCatalog (stringify NATIVE_DRIVER_CATALOG) = Returns NATIVE_DRIVER_CATALOG /\
  exists drivers, prop NATIVE_DRIVER_CATALOG "version" = JInt 1 /\
    prop NATIVE_DRIVER_CATALOG "drivers" = JArr drivers /\ Forall descriptor_ok drivers /\
    exists names, map (fun item => prop item "id") drivers = map JStr names /\ names ≡ₚ ids.
Proof.
  assert (H : parseNativeDriverCatalog (stringify NATIVE_DRIVER_CATALOG) = Returns NATIVE_DRIVER_CATALOG)
    by (vm_compute; reflexivity).
  split; [exact H|]. exact (parseNativeDriverCatalog_complete _ _ H).
Defined.
