(* ===== verification/TargetPolicy.v ===== *)
(** Destination policy (apps/control/src/modules/target-policy.ts), Node policy
    (apps/control/src/modules/node-policy.ts) and Relay endpoints
    (apps/control/src/modules/relay-endpoint-contract.ts). *)

From S2P Require Import Prelude.
From S2P Require Import JsString.
From S2P Require Import JsValue.
From S2P Require Import Primitives.
From S2P Require Import Json.
From S2P Require Import Forward.
From S2P Require Import Cidr.

Local Open Scope Z_scope.

(** [AuthorizedNodeFacts] (modules/node-management-ports.ts). *)
Record AuthorizedNodeFacts := MkNodeFacts {
  nf_nodeId : jsstr; nf_scopeId : jsstr; nf_capabilities : list jsstr;
  nf_allowedListenerAddresses : list jsstr; nf_allowedPorts : list Z;
  nf_egressPolicyRevision : Z; nf_allowedDestinationCidrs : list jsstr;
  nf_allowMetadataTargets : bool;
}.

(** An IPv4-mapped IPv6 address is its IPv4 address. *)
Definition unmap (bytes : list Z) : list Z :=
  if (length bytes =? 16)%nat && mapped_prefix bytes then drop 12 bytes else bytes.

(** [address.every((byte, i) => (byte & mask) === (bytes[i] & mask))], from index [i];
    [bits] is [None] when the length is not a number, and then every mask is zero. *)
Fixpoint prefix_matches (bits : option Z) (i : Z) (address bytes : list Z) : bool :=
  match address, bytes with
  | byte :: r, b :: t =>
      let used := match bits with Some n => Z.max 0 (Z.min 8 (n - i * 8)) | None => 0 end in
      let mask := if used =? 0 then 0 else Z.shiftl 255 (8 - used) in
      (Z.land byte mask =? Z.land b mask) && prefix_matches bits (i + 1) r t
  | _, _ => true
  end.

(** [Number(length)] for the part after the slash, a numeral or missing: the policies
    hold validated networks. *)
Definition cidr_bits (parts : list jsstr) : option Z :=
  match parts with
  | _ :: len :: _ => if forallb is_digit len then Some (of_base 10 len) else None
  | _ => None
  end.

Definition contains (cidr : jsstr) (bytes : list Z) : bool :=
  let parts := split ch_slash cidr in
  match ipBytes (default [] (head parts)) with
  | None => false
  | Some addr =>
      if negb (length addr =? length bytes)%nat then false
      else prefix_matches (cidr_bits parts) 0 addr bytes
  end.

Definition metadata : list jsstr :=
  [js "169.254.0.0/16"; js "100.100.100.200/32"; js "fd00:ec2::254/128"; js "fe80::/10"].

(** Multicast, reserved and broadcast addresses. *)
Definition not_unicast (bytes : list Z) : bool :=
  ((length bytes =? 4)%nat && (224 <=? default 0 (head bytes))) ||
  ((length bytes =? 16)%nat && (default 0 (head bytes) =? 255)).

Definition targetAllowed (h : jsstr) (facts : AuthorizedNodeFacts) : bool :=
  match ipBytes h with
  | None => true
  | Some literal =>
      let bytes := unmap literal in
      if all_zero bytes then false else
      if negb (nf_allowMetadataTargets facts) && existsb (fun cidr => contains cidr bytes) metadata then false else
      if not_unicast bytes then false else
      existsb (fun cidr => contains cidr bytes) (nf_allowedDestinationCidrs facts)
  end.

(** ** Networks as ranges of numbers *)

(** The address [bytes] lies in the network: same width, same leading bits. *)
Definition in_network (cidr : jsstr) (bytes : list Z) : Prop :=
  exists addr len net, cidr = slash addr len /\ canonical_decimal len = true /\ ipBytes addr = Some net /\
    width net = width bytes /\ of_base 10 len <= width bytes /\
    be net / 2 ^ (width bytes - of_base 10 len) = be bytes / 2 ^ (width bytes - of_base 10 len).

Definition byte_mask (used : Z) : Z := if used =? 0 then 0 else Z.shiftl 255 (8 - used).

(** Checked for the 256 bytes and the nine masks. *)
Lemma byte_mask_keeps x used : is_byte x -> 0 <= used <= 8 ->
  Z.land x (byte_mask used) = x / 2 ^ (8 - used) * 2 ^ (8 - used).
Proof.
  intros Hx Hu.
  assert (C : forallb (fun u => forallb (fun x => Z.land x (byte_mask u) =? x / 2 ^ (8 - u) * 2 ^ (8 - u))
                                  (seqZ 0 256)) (seqZ 0 9) = true) by (by vm_compute).
  rewrite forallb_Forall, Forall_forall in C. specialize (C used ltac:(apply elem_of_seqZ; lia)).
  rewrite forallb_Forall, Forall_forall in C. apply Z.eqb_eq, C, elem_of_seqZ. unfold is_byte in Hx. lia.
Qed.

Lemma byte_mask_eq a b used : is_byte a -> is_byte b -> 0 <= used <= 8 ->
  Z.land a (byte_mask used) = Z.land b (byte_mask used) <-> a / 2 ^ (8 - used) = b / 2 ^ (8 - used).
Proof.
  intros Ha Hb Hu. rewrite !byte_mask_keeps by done.
  assert (0 < 2 ^ (8 - used)) by (apply Z.pow_pos_nonneg; lia). split; [|by intros ->].
  intros E. apply Z.mul_cancel_r in E; lia.
Qed.

(** The leading part of [a * 2 ^ m + x], for [x] below [2 ^ m]. *)
Lemma div_high a m x k : 0 <= m -> 0 <= k -> 0 <= x < 2 ^ m -> (a * 2 ^ m + x) / 2 ^ (m + k) = a / 2 ^ k.
Proof.
  intros Hm Hk Hx. rewrite Z.pow_add_r by lia. rewrite <- Z.div_div by lia. f_equal.
  rewrite Z.div_add_l by lia. rewrite (Z.div_small x) by lia. lia.
Qed.

Lemma div_low a b m x y q : 0 <= q <= m -> 0 <= x < 2 ^ m -> 0 <= y < 2 ^ m ->
  (a * 2 ^ m + x) / 2 ^ (m - q) = (b * 2 ^ m + y) / 2 ^ (m - q) <->
  a = b /\ x / 2 ^ (m - q) = y / 2 ^ (m - q).
Proof.
  intros Hq Hx Hy. assert (E : 2 ^ m = 2 ^ q * 2 ^ (m - q)).
  { rewrite <- Z.pow_add_r by lia. f_equal. lia. }
  rewrite E in *. assert (0 < 2 ^ (m - q)) by (apply Z.pow_pos_nonneg; lia).
  assert (0 < 2 ^ q) by (apply Z.pow_pos_nonneg; lia).
  rewrite !Z.mul_assoc, !Z.div_add_l by lia.
  assert (0 <= x / 2 ^ (m - q) < 2 ^ q) by (split; [apply Z.div_pos|apply Z.div_lt_upper_bound]; lia).
  assert (0 <= y / 2 ^ (m - q) < 2 ^ q) by (split; [apply Z.div_pos|apply Z.div_lt_upper_bound]; lia).
  split; [|by intros [-> ->]]. intros Es. assert (a = b) as -> by nia. lia.
Qed.

Lemma prefix_matches_shift n i address bytes :
  prefix_matches (Some n) (i + 1) address bytes = prefix_matches (Some (n - 8)) i address bytes.
Proof.
  revert i bytes; induction address as [|a r IH]; intros i [|b t]; try done. cbn [prefix_matches].
  rewrite IH. by replace (n - (i + 1) * 8) with (n - 8 - i * 8) by ring.
Qed.

Lemma prefix_matches_spec address bytes n : Forall is_byte address -> Forall is_byte bytes ->
  length address = length bytes -> n <= width bytes ->
  prefix_matches (Some n) 0 address bytes = true <->
  be address / 2 ^ (width bytes - Z.max 0 n) = be bytes / 2 ^ (width bytes - Z.max 0 n).
Proof.
  intros HA. revert n bytes. induction HA as [|a r Ha HA IH]; intros n [|b t] HB Hl Hn; try done.
  inversion HB as [|? ? Hb HB']; subst. cbn [prefix_matches]. cbn in Hl.
  rewrite prefix_matches_shift, andb_true_iff, Z.eqb_eq. fold (byte_mask (Z.max 0 (Z.min 8 (n - 0 * 8)))).
  rewrite byte_mask_eq, Z.mul_0_l, Z.sub_0_r by (done || lia).
  assert (Hw : width r = width t) by (unfold width; lia).
  pose proof (be_bound r HA) as Hr. pose proof (be_bound t HB') as Ht. pose proof (width_nonneg t).
  rewrite !be_cons, Hw in *. rewrite width_cons in *. rewrite IH by (done || lia).
  destruct (Z.le_gt_cases 8 n).
  - rewrite (Z.max_r 0 (Z.min 8 n)), Z.min_l, !Z.max_r by lia. replace (8 - 8) with 0 by ring.
    rewrite !Z.div_1_r. replace (8 + width t - n) with (width t - (n - 8)) by ring.
    by rewrite div_low by lia.
  - rewrite (Z.max_l 0 (n - 8)), Z.sub_0_r, !(Z.div_small _ (2 ^ width t)) by lia.
    replace (8 + width t - Z.max 0 n) with (width t + (8 - Z.max 0 (Z.min 8 n))) by lia.
    rewrite !div_high by lia. naive_solver.
Qed.

Lemma width_eq_length (a b : list Z) : width a = width b <-> length a = length b.
Proof. unfold width. lia. Qed.

Lemma contains_spec cidr bytes : validCidr cidr = true -> Forall is_byte bytes ->
  contains cidr bytes = true <-> in_network cidr bytes.
Proof.
  intros (addr & len & net & -> & Ha & Hc & Hn & Hp & _)%validCidr_parts HB.
  pose proof (ipBytes_wf _ _ Hn) as [_ HN].
  assert (Hs : split ch_slash (slash addr len) = [addr; len]).
  { unfold slash. rewrite split_sep by done. by rewrite split_lacks by (apply canonical_decimal_lacks_slash; done). }
  unfold contains. rewrite Hs. cbn [head default from_option Datatypes.id]. rewrite Hn.
  cbn [cidr_bits]. rewrite canonical_decimal_all_digits by done.
  pose proof (canonical_decimal_nonneg len Hc).
  destruct (length net =? length bytes)%nat eqn:El; cbn [negb]; propify.
  - assert (Hw : width net = width bytes) by (by apply width_eq_length).
    rewrite prefix_matches_spec, Z.max_r by (done || lia). split.
    + intros E. exists addr, len, net. split_and!; (done || lia).
    + intros (addr' & len' & net' & E & Hc' & Hn' & _ & _ & Hd).
      apply slash_inj in E as [<- <-]; try by apply canonical_decimal_lacks_slash. congruence.
  - split; [done|]. intros (addr' & len' & net' & E & Hc' & Hn' & Hw & _).
    apply slash_inj in E as [<- <-]; try by apply canonical_decimal_lacks_slash.
    apply width_eq_length in Hw. congruence.
Qed.

Lemma unmap_bytes bytes : Forall is_byte bytes -> Forall is_byte (unmap bytes).
Proof. intros H. unfold unmap. destruct (_ && _); [by apply Forall_drop|done]. Qed.

Lemma existsb_Exists {A} (f : A -> bool) l : existsb f l = true <-> Exists (fun x => f x = true) l.
Proof. rewrite existsb_exists, Exists_exists. setoid_rewrite list_elem_of_In. done. Qed.

Lemma existsb_networks l bytes : Forall (fun c => validCidr c = true) l -> Forall is_byte bytes ->
  existsb (fun cidr => contains cidr bytes) l = true <-> Exists (fun c => in_network c bytes) l.
Proof.
  intros HL HB. rewrite existsb_Exists, !Exists_exists. rewrite Forall_forall in HL.
  split; intros (c & Hc & H); exists c; (split; [done|]); by apply contains_spec; auto.
Qed.

Lemma metadata_valid : Forall (fun c => validCidr c = true) metadata.
Proof. by apply forallb_Forall; vm_compute. Qed.

(** What a destination policy admits: a literal target is allowed exactly when its
    address (an IPv4-mapped one taken as IPv4) is not the unspecified one, is unicast,
    lies in none of the metadata networks unless these are permitted, and lies in one
    of the allowed networks, where lying in a network means agreeing with it on the
    leading bits of the address read as a number. *)
Theorem targetAllowed_spec (h : jsstr) (facts : AuthorizedNodeFacts) (literal : list Z) :
  ipBytes h = Some literal -> Forall (fun c => validCidr c = true) (nf_allowedDestinationCidrs facts) ->
  targetAllowed h facts = true <->
  all_zero (unmap literal) = false /\ not_unicast (unmap literal) = false /\
  (nf_allowMetadataTargets facts = true \/ ~ Exists (fun c => in_network c (unmap literal)) metadata) /\
  Exists (fun c => in_network c (unmap literal)) (nf_allowedDestinationCidrs facts).
Proof.
  intros Hl Hv. apply ipBytes_wf in Hl as Hw. destruct Hw as [_ HB%unmap_bytes].
  unfold targetAllowed. rewrite Hl. rewrite <- !existsb_networks by (done || apply metadata_valid).
  destruct (all_zero _), (not_unicast _), (nf_allowMetadataTargets facts), (existsb _ metadata); cbn;
    naive_solver.
Qed.

Lemma targetAllowed_spec_witness :
  targetAllowed (js "10.1.2.3") (MkNodeFacts (js "n") (js "s") [] [] [] 1 [js "10.0.0.0/8"] false) = true <->
  all_zero (unmap [10; 1; 2; 3]) = false /\ not_unicast (unmap [10; 1; 2; 3]) = false /\
  (false = true \/ ~ Exists (fun c => in_network c (unmap [10; 1; 2; 3])) metadata) /\
  Exists (fun c => in_network c (unmap [10; 1; 2; 3])) [js "10.0.0.0/8"].
Proof.
  apply (targetAllowed_spec (js "10.1.2.3") (MkNodeFacts (js "n") (js "s") [] [] [] 1 [js "10.0.0.0/8"] false)).
  - vm_compute. reflexivity.
  - repeat constructor.
Defined.
