(* ===== verification/Endpoint.v ===== *)
(** Operator input about Nodes: the Node policy (apps/control/src/modules/node-policy.ts) and the
    Relay endpoint (apps/control/src/modules/relay-endpoint-contract.ts). *)

From S2P Require Import Prelude.
From S2P Require Import JsString.
From S2P Require Import JsValue.
From S2P Require Import Primitives.
From S2P Require Import Json.
From S2P Require Import Forward.
From S2P Require Import Cidr.
From S2P Require Import TargetPolicy.

Local Open Scope Z_scope.

(** [Object.keys(input).sort().join(',')] *)
Definition sorted_keys (fs : list (jsstr * jsv)) : jsstr := join [44] (sort_by str_leb (Object_keys fs)).

(** [typeof a === 'string' && f(a)] *)
Definition str_and (f : jsstr -> bool) (v : jsv) : bool :=
  match v with Str s => f s | _ => false end.

Definition is_canonical_ip (s : jsstr) : bool := bool_decide (normalizeIp s = Some s).

(** A non-empty array of at most [max] distinct items that all pass. *)
Definition bounded_set (max : Z) (item : jsv -> bool) (v : jsv) : bool :=
  match as_array v with
  | None => false
  | Some l => negb (length l =? 0)%nat && (Z.of_nat (length l) <=? max) && forallb item l && distinct l
  end.

Definition policy_keys : jsstr :=
  join [44] (sort_by str_leb [js "allowedDestinationCidrs"; js "allowedListenerAddresses"; js "allowedPorts";
                              js "allowMetadataTargets"; js "egressPolicyRevision"]).

Definition validateNodePolicy (policy : jsv) : outcome unit :=
  match as_object policy with
  | None => Throws (invalid "Invalid Node policy")
  | Some fs =>
      throw_if (negb (str_eqb (sorted_keys fs) policy_keys) ||
                negb (bounded_set 256 (str_and is_canonical_ip) (get fs (js "allowedListenerAddresses"))) ||
                negb (bounded_set 65535 isPort (get fs (js "allowedPorts"))) ||
                negb (isCounter (get fs (js "egressPolicyRevision")) false) ||
                negb (bounded_set 256 (str_and validCidr) (get fs (js "allowedDestinationCidrs"))) ||
                negb (match get fs (js "allowMetadataTargets") with Bool _ => true | _ => false end))
        "INVALID_CONFIG" "Invalid Node policy"
  end.

Inductive NodeManagementCommand := Policy_ (expectedRevision : Z) (policy : jsv) | Revoke.

Definition snapshotNodeCommand (input : jsv) : outcome NodeManagementCommand :=
  match as_object input with
  | None => Throws (invalid "Valid Node management command required")
  | Some fs =>
      let kind := get fs (js "kind") in
      if jsv_eqb kind (Str (js "revoke")) && str_eqb (join [44] (Object_keys fs)) (js "kind") then Returns Revoke else
      _ ← throw_if (negb (jsv_eqb kind (Str (js "policy"))) ||
                    negb (str_eqb (sorted_keys fs) (js "expectedRevision,kind,policy")) ||
                    negb (isCounter (get fs (js "expectedRevision")) false))
            "INVALID_CONFIG" "Valid Node policy command required";
      _ ← validateNodePolicy (get fs (js "policy"));
      Returns (Policy_ (the_int (get fs (js "expectedRevision"))) (get fs (js "policy")))
  end.

Record RelayEndpoint := MkRelayEndpoint {
  re_listenAddress : jsstr; re_advertisedHost : jsstr; re_allowedTcpPorts : list Z;
}.

(** [bytes && (every zero || multicast)] of the advertised host. *)
Definition not_dialable (h : option jsstr) : bool :=
  match h with
  | None => false
  | Some h => match ipBytes h with None => false | Some bytes => all_zero bytes || not_unicast bytes end
  end.

Definition parseRelayEndpoint (input : jsv) : outcome RelayEndpoint :=
  match as_object input with
  | None => Throws (invalid "Explicit Relay endpoint fields required")
  | Some fs =>
      _ ← throw_if (negb (str_eqb (sorted_keys fs) (js "advertisedHost,allowedTcpPorts,listenAddress")))
            "INVALID_CONFIG" "Explicit Relay endpoint fields required";
      let addr := as_string (get fs (js "listenAddress")) ≫= normalizeIp in
      let hst := as_string (get fs (js "advertisedHost")) ≫= normalize_target_host in
      _ ← throw_if (not_dialable hst) "INVALID_CONFIG" "Relay endpoint must identify a unicast host";
      match addr, hst, bounded_set 256 isPort (get fs (js "allowedTcpPorts")) with
      | Some a, Some h, true =>
          Returns (MkRelayEndpoint a h
            (sort_by Z.leb (map the_int (default [] (as_array (get fs (js "allowedTcpPorts")))))))
      | _, _, _ => Throws (invalid "Canonical IP listener, reachable host and bounded unique TCP ports required")
      end
  end.

(** ** What is accepted *)

Record policy_ok (fs : list (jsstr * jsv)) (facts : AuthorizedNodeFacts) : Prop := {
  pk_listeners : get fs (js "allowedListenerAddresses") = Arr (map Str (nf_allowedListenerAddresses facts)) /\
    NoDup (nf_allowedListenerAddresses facts) /\ nf_allowedListenerAddresses facts <> [] /\
    Forall (fun a => normalizeIp a = Some a) (nf_allowedListenerAddresses facts);
  pk_ports : get fs (js "allowedPorts") = Arr (map (fun p => Num (NInt p)) (nf_allowedPorts facts)) /\
    NoDup (nf_allowedPorts facts) /\ nf_allowedPorts facts <> [] /\
    Forall (fun p => 1 <= p <= 65535) (nf_allowedPorts facts);
  pk_revision : get fs (js "egressPolicyRevision") = Num (NInt (nf_egressPolicyRevision facts)) /\
    1 <= nf_egressPolicyRevision facts <= MAX_COUNTER;
  pk_cidrs : get fs (js "allowedDestinationCidrs") = Arr (map Str (nf_allowedDestinationCidrs facts)) /\
    NoDup (nf_allowedDestinationCidrs facts) /\ nf_allowedDestinationCidrs facts <> [] /\
    Forall (fun c => validCidr c = true) (nf_allowedDestinationCidrs facts);
  pk_metadata : get fs (js "allowMetadataTargets") = Bool (nf_allowMetadataTargets facts);
}.

Lemma bounded_set_strs max f v : bounded_set max (str_and f) v = true ->
  exists l, v = Arr (map Str l) /\ NoDup l /\ l <> [] /\ Forall (fun s => f s = true) l.
Proof.
  destruct v as [| | | | |vs|]; try done. unfold bounded_set. cbn [as_array]. intros H. propify.
  assert (exists l, vs = map Str l /\ Forall (fun s => f s = true) l) as (l & -> & HF).
  { match goal with H : forallb _ _ = true |- _ => apply forallb_Forall in H; clear -H; rename H into HF end.
    induction HF as [|v r Hv _ (l & -> & Hl)]; [by exists []|]. destruct v as [| | | |s| |]; try done.
    exists (s :: l). split; [done|]. by constructor. }
  exists l. split_and!; [done| | |done].
  - apply NoDup_Str. by apply distinct_NoDup.
  - intros ->. done.
Qed.

Lemma bounded_set_ports max v : bounded_set max isPort v = true ->
  exists l, v = Arr (map (fun p => Num (NInt p)) l) /\ NoDup l /\ l <> [] /\ Z.of_nat (length l) <= max /\
            Forall (fun p => 1 <= p <= 65535) l.
Proof.
  destruct v as [| | | | |vs|]; try done. unfold bounded_set. cbn [as_array]. intros H. propify.
  assert (exists l, vs = map (fun p => Num (NInt p)) l /\ Forall (fun p => 1 <= p <= 65535) l) as (l & -> & HF).
  { match goal with H : forallb _ _ = true |- _ => apply forallb_Forall in H; clear -H; rename H into HF end.
    induction HF as [|v r (z & -> & Hz)%isPort_inv _ (l & -> & Hl)]; [by exists []|].
    exists (z :: l). split; [done|]. constructor; [|done]. unfold is_port in Hz. propify. lia. }
  rewrite length_map in *. exists l. split_and!; [done| | |done|done].
  - apply distinct_NoDup, (NoDup_map_iff _ (fun p => p)) in H0; [by rewrite map_id in H0|].
    intros x y; split; congruence.
  - intros ->. done.
Qed.



(** ** Relay endpoints *)

Record endpoint_ok (e : RelayEndpoint) : Prop := {
  eo_listener : normalizeIp (re_listenAddress e) = Some (re_listenAddress e);
  eo_host : normalize_target_host (re_advertisedHost e) = Some (re_advertisedHost e);
  eo_unicast : forall bytes, ipBytes (re_advertisedHost e) = Some bytes ->
    all_zero bytes = false /\ not_unicast bytes = false;
  eo_ports : StronglySorted Z.lt (re_allowedTcpPorts e) /\ Forall (fun p => 1 <= p <= 65535) (re_allowedTcpPorts e) /\
    (1 <= length (re_allowedTcpPorts e) <= 256)%nat;
}.

Definition endpoint_jsv (e : RelayEndpoint) : jsv :=
  Obj [(js "listenAddress", Str (re_listenAddress e)); (js "advertisedHost", Str (re_advertisedHost e));
       (js "allowedTcpPorts", Arr (map (fun p => Num (NInt p)) (re_allowedTcpPorts e)))].

Lemma bounded_ports l : NoDup l -> Forall (fun p => 1 <= p <= 65535) l -> (1 <= length l <= 256)%nat ->
  bounded_set 256 isPort (Arr (map (fun p => Num (NInt p)) l)) = true.
Proof.
  intros HN HF Hl. unfold bounded_set. cbn [as_array]. rewrite length_map, !andb_true_iff.
  split_and!; [apply negb_true_iff, Nat.eqb_neq; lia|apply Z.leb_le; lia|..].
  - apply forallb_Forall, Forall_map. eapply Forall_impl; [exact HF|]. cbn. unfold is_port. lia.
  - apply distinct_NoDup, (NoDup_map_iff _ (fun p => p)); [intros x y; split; congruence|]. by rewrite map_id.
Qed.

Lemma map_the_int l : map the_int (map (fun p => Num (NInt p)) l) = l.
Proof. induction l as [|p r IH]; cbn; [done|]. by rewrite IH. Qed.

Lemma sorted_leb_lt l : Sorted (fun a b => (a <=? b) = true) l -> NoDup l -> StronglySorted Z.lt l.
Proof.
  intros HS HN. apply Sorted_StronglySorted in HS; [|intros a b c Hab Hbc; propify; apply Z.leb_le; lia].
  induction HS as [|x r HS IH HF]; [constructor|]. apply NoDup_cons in HN as [Hx HN]. constructor; [auto|].
  rewrite Forall_forall in HF |- *. intros y Hy. specialize (HF y Hy). propify.
  assert (x <> y) by (intros ->; done). lia.
Qed.

Lemma parseRelayEndpoint_ok input e : parseRelayEndpoint input = Returns e -> endpoint_ok e.
Proof.
  unfold parseRelayEndpoint. destruct (as_object input) as [fs|]; [|done].
  rewrite !guard_seq. intros (_ & Hu & H).
  destruct (as_string _ ≫= normalizeIp) as [a|] eqn:Ea; [|done].
  destruct (as_string _ ≫= normalize_target_host) as [h|] eqn:Eh; [|done].
  destruct (bounded_set 256 isPort _) eqn:Ep; [|done]. injection H as <-.
  apply bounded_set_ports in Ep as (l & El & HN & Hne & Hl & HF).
  rewrite El. cbn [as_array default from_option Datatypes.id]. rewrite map_the_int.
  apply bind_Some in Ea as (sa & _ & Ha). apply bind_Some in Eh as (sh & _ & Hh).
  pose proof (sort_by_perm Z.leb l) as HP. split; cbn.
  - by eapply normalizeIp_fix.
  - by apply (normalize_target_host_fix (Str sh)).
  - intros bytes Hb. unfold not_dialable in Hu. rewrite Hb in Hu. by propify.
  - split_and!.
    + apply sorted_leb_lt; [|by rewrite HP]. apply sort_by_sorted. intros x y Hxy. propify. apply Z.leb_le. lia.
    + by rewrite HP.
    + rewrite HP. destruct l; [done|]. cbn. lia.
    + rewrite HP. lia.
Qed.

(** Relay endpoints have one canonical form: what [parseRelayEndpoint] returns has a
    canonical listener, a canonical host that is not an unspecified, multicast or
    reserved address, and between one and 256 ports in strictly ascending order, and
    reading it again returns it unchanged. *)
Theorem parseRelayEndpoint_canonical (input : jsv) (e : RelayEndpoint) :
  parseRelayEndpoint input = Returns e -> endpoint_ok e /\ parseRelayEndpoint (endpoint_jsv e) = Returns e.
Proof.
  intros H%parseRelayEndpoint_ok. split; [done|]. destruct H as [Hl Hh Hu (HS & HF & Hn)].
  destruct e as [a h ps]. cbn in Hl, Hh, Hu, HS, HF, Hn. unfold parseRelayEndpoint, endpoint_jsv. cbn [as_object].
  rewrite !guard_seq. cbn [re_listenAddress re_advertisedHost re_allowedTcpPorts].
  split; [by vm_compute|]. js_get. cbn [as_string mbind option_bind].
  rewrite Hl, Hh. split.
  - unfold not_dialable. destruct (ipBytes h) as [bytes|] eqn:Eb; [|done]. by destruct (Hu bytes eq_refl) as [-> ->].
  - assert (NoDup ps) by (eapply (StronglySorted_NoDup Z.lt); exact HS). rewrite bounded_ports by done.
    cbn [as_array default from_option Datatypes.id]. rewrite map_the_int.
    do 2 f_equal. apply sort_by_id. apply StronglySorted_Sorted. eapply StronglySorted_weaken; [|exact HS].
    intros x y ?. apply Z.leb_le. lia.
Qed.

Lemma parseRelayEndpoint_canonical_witness :
  endpoint_ok (MkRelayEndpoint (js "::1") (js "relay.example") [443; 8443]) /\
  parseRelayEndpoint (endpoint_jsv (MkRelayEndpoint (js "::1") (js "relay.example") [443; 8443])) =
  Returns (MkRelayEndpoint (js "::1") (js "relay.example") [443; 8443]).
Proof.
  apply (parseRelayEndpoint_canonical
    (Obj [(js "allowedTcpPorts", Arr [Num (NInt 8443); Num (NInt 443)]);
          (js "advertisedHost", Str (js "Relay.Example.")); (js "listenAddress", Str (js "0:0::1"))])).
  vm_compute. reflexivity.
Defined.
