(* ===== verification/Topology.v ===== *)
(** The planned path of a Forward (apps/control/src/modules/runtime/path-topology.ts). *)

From S2P Require Import Prelude.
From S2P Require Import JsString.
From S2P Require Import JsValue.
From S2P Require Import Json.
From S2P Require Import Forward.

Local Open Scope Z_scope.

Definition MAX_PLANNED_PATH_NODES : nat := 8.

Inductive PathRole := p_direct | p_ingress | p_transit | p_egress.

#[export] Instance PathRole_eq_dec : EqDecision PathRole.
Proof. solve_decision. Defined.

Record PathNode := MkPathNode {
  pn_nodeId : jsstr; pn_index : nat; pn_role : PathRole;
  pn_upstreamNodeId : option jsstr; pn_downstreamNodeId : option jsstr;
}.

Record PathHop := MkPathHop { ph_index : nat; ph_upstreamNodeId : jsstr; ph_downstreamNodeId : jsstr }.

Record PathTopology := MkPathTopology {
  pt_forwardId : jsstr; pt_scopeId : jsstr; pt_forwardRevision : Z; pt_protocols : list NetworkProtocol;
  pt_nodes : list PathNode; pt_hops : list PathHop; pt_activationOrder : list jsstr;
}.

(** [parseForward(input)] of a typed Forward. *)
Definition reparse (f : Forward) : Result Forward := parseForward (to_jsv (forward_json f)).

(** [[spec.ingress.nodeId, ...(spec.path?.via ?? [])]] *)
Definition sequence (s : ForwardSpec) : list jsstr := ingress_nodeId s :: default [] (path_via s).

Definition path_role (len index : nat) : PathRole :=
  if (len =? 1)%nat then p_direct else
  if (index =? 0)%nat then p_ingress else
  if (index =? len - 1)%nat then p_egress else p_transit.

Definition path_node (seq : list jsstr) (index : nat) (nodeId : jsstr) : PathNode :=
  {| pn_nodeId := nodeId; pn_index := index; pn_role := path_role (length seq) index;
     pn_upstreamNodeId := if (0 <? index)%nat then seq !! (index - 1)%nat else None;
     pn_downstreamNodeId := if (index <? length seq - 1)%nat then seq !! (index + 1)%nat else None |}.

Definition path_hop (seq : list jsstr) (index : nat) (downstreamNodeId : jsstr) : PathHop :=
  MkPathHop index (default [] (seq !! index)) downstreamNodeId.

Definition compilePathTopology (input : Forward) : outcome PathTopology :=
  match reparse input with
  | Err _ => Throws (Exn "INVALID_CONFIG" "Invalid Forward path")
  | Ok f =>
      let seq := sequence (spec f) in
      _ ← throw_if (MAX_PLANNED_PATH_NODES <? length seq)%nat
            "RESOURCE_LIMIT" "Forward path exceeds the bounded Node count";
      _ ← throw_if (negb (distinct seq)) "INVALID_CONFIG" "Repeated or cyclic Node in Forward path";
      Returns {|
        pt_forwardId := id f; pt_scopeId := scopeId f; pt_forwardRevision := revision f;
        pt_protocols := protocols (spec f);
        pt_nodes := imap (path_node seq) seq;
        pt_hops := imap (path_hop seq) (drop 1 seq);
        pt_activationOrder := reverse seq |}
  end.

Definition requireTwoNodeRelayTopology (input : Forward) : outcome PathTopology :=
  plan ← compilePathTopology input;
  match pt_nodes plan with
  | [a; b] =>
      if bool_decide (pn_role a = p_ingress) && bool_decide (pn_role b = p_egress) then Returns plan
      else Throws (Exn "UNSUPPORTED_CAPABILITY" "Current native Relay supports exactly two Nodes; Transit is not executable")
  | _ => Throws (Exn "UNSUPPORTED_CAPABILITY" "Current native Relay supports exactly two Nodes; Transit is not executable")
  end.

(** ** What the plan is *)

(** [x] comes before [y] in [l]. *)
Definition precedes (l : list jsstr) (x y : jsstr) : Prop :=
  exists i j, (i < j)%nat /\ l !! i = Some x /\ l !! j = Some y.

Record topology_ok (f : Forward) (t : PathTopology) : Prop := {
  to_identity : (pt_forwardId t, pt_scopeId t, pt_forwardRevision t, pt_protocols t) =
                (id f, scopeId f, revision f, protocols (spec f));
  to_nodes : map pn_nodeId (pt_nodes t) = sequence (spec f);
  to_distinct : NoDup (map pn_nodeId (pt_nodes t));
  to_roles : forall i n, pt_nodes t !! i = Some n -> pn_index n = i /\ pn_role n = path_role (length (pt_nodes t)) i;
  to_neighbours : forall i m n, pt_nodes t !! i = Some m -> pt_nodes t !! (S i) = Some n ->
    pn_downstreamNodeId m = Some (pn_nodeId n) /\ pn_upstreamNodeId n = Some (pn_nodeId m) /\
    pt_hops t !! i = Some (MkPathHop i (pn_nodeId m) (pn_nodeId n));
  to_hops : length (pt_hops t) = (length (pt_nodes t) - 1)%nat;
  to_order : forall h, h ∈ pt_hops t ->
    precedes (pt_activationOrder t) (ph_downstreamNodeId h) (ph_upstreamNodeId h);
  to_complete : pt_activationOrder t ≡ₚ sequence (spec f);
}.

Lemma reparse_wf f : forward_wf f -> reparse f = Ok f.
Proof. apply parse_forward_canonical. Qed.

Lemma sequence_distinct s : spec_wf s -> NoDup (sequence s).
Proof.
  intros Hs. unfold sequence. destruct (path_via s) as [via|] eqn:E; cbn.
  - destruct (wf_via s Hs via E) as (_ & _ & HN & Hi). by constructor.
  - repeat constructor. apply not_elem_of_nil.
Qed.

Lemma imap_nodes seq l k : map pn_nodeId (imap (fun i => path_node seq (k + i)) l) = l.
Proof.
  revert k; induction l as [|x r IH]; intros k; [done|]. cbn. f_equal.
  rewrite <- (IH (S k)) at 2. f_equal. apply imap_ext. intros i y _. cbn. by rewrite Nat.add_succ_r.
Qed.

Lemma reverse_precedes (l : list jsstr) i x y : l !! i = Some x -> l !! (S i) = Some y -> precedes (reverse l) y x.
Proof.
  intros Hx Hy. pose proof (lookup_lt_Some _ _ _ Hy). exists (length l - S (S i))%nat, (length l - S i)%nat.
  split; [lia|]. split; (rewrite reverse_lookup by lia).
  - replace (length l - S (length l - S (S i)))%nat with (S i) by lia. done.
  - replace (length l - S (length l - S i))%nat with i by lia. done.
Qed.

Lemma compiled_topology f t : forward_wf f -> compilePathTopology f = Returns t ->
  (length (sequence (spec f)) <= MAX_PLANNED_PATH_NODES)%nat /\ topology_ok f t.
Proof.
  intros Hf. unfold compilePathTopology. rewrite reparse_wf by done. autorewrite with guards.
  intros (Hl & HN & ->). rewrite Nat.ltb_ge in Hl. apply distinct_NoDup in HN. split; [done|].
  set (seq := sequence (spec f)) in *.
  assert (Hnodes : map pn_nodeId (imap (path_node seq) seq) = seq) by apply (imap_nodes seq seq 0).
  assert (Hhop : forall i u d, seq !! i = Some u -> seq !! (S i) = Some d ->
                 imap (path_hop seq) (drop 1 seq) !! i = Some (MkPathHop i u d)).
  { intros i u d Hu Hd. rewrite list_lookup_imap, lookup_drop. change (1 + i)%nat with (S i).
    rewrite Hd. cbn [fmap option_fmap option_map]. unfold path_hop. by rewrite Hu. }
  split; cbn [pt_nodes pt_hops pt_activationOrder pt_forwardId pt_scopeId pt_forwardRevision pt_protocols].
  - done.
  - done.
  - by rewrite Hnodes.
  - intros i n. rewrite list_lookup_imap, length_imap. intros (x & Hx & ->)%fmap_Some. done.
  - intros i m n. rewrite (list_lookup_imap (path_node seq) seq i), (list_lookup_imap (path_node seq) seq (S i)).
    intros (x & Hx & ->)%fmap_Some (y & Hy & ->)%fmap_Some.
    pose proof (lookup_lt_Some _ _ _ Hy).
    cbn [path_node pn_nodeId pn_downstreamNodeId pn_upstreamNodeId]. split_and!; [| |by apply Hhop].
    + destruct (Nat.ltb_spec i (length seq - 1)); [|lia]. by rewrite Nat.add_1_r.
    + cbn [Nat.ltb Nat.leb]. by rewrite Nat.sub_succ, Nat.sub_0_r.
  - by rewrite !length_imap, length_drop.
  - intros h (i & Hi)%list_elem_of_lookup_1. rewrite list_lookup_imap, lookup_drop in Hi.
    apply fmap_Some in Hi as (d & Hd & ->). change (1 + i)%nat with (S i) in Hd.
    cbn [path_hop ph_downstreamNodeId ph_upstreamNodeId].
    assert (i < length seq)%nat as [u Hu]%lookup_lt_is_Some by (apply lookup_lt_Some in Hd; lia).
    rewrite Hu. cbn [default]. by eapply reverse_precedes.
  - apply reverse_Permutation.
Qed.

(** The plan of a well-formed Forward: [compilePathTopology] succeeds exactly when the
    path has at most eight Nodes, and then lists each Node of the path once in intent
    order with its role and its neighbours, one hop per consecutive pair, and an
    activation order in which the downstream end of every hop comes before its
    upstream end. *)
Theorem compilePathTopology_ok (f : Forward) : forward_wf f ->
  ((exists t, compilePathTopology f = Returns t) <-> (length (sequence (spec f)) <= MAX_PLANNED_PATH_NODES)%nat) /\
  forall t, compilePathTopology f = Returns t -> topology_ok f t.
Proof.
  intros Hf. split; [|intros t Ht; by eapply compiled_topology]. split.
  - intros [t Ht]. by eapply compiled_topology.
  - intros Hl. unfold compilePathTopology. rewrite reparse_wf by done. eexists. autorewrite with guards.
    split; [by apply Nat.ltb_ge|]. split; [|reflexivity]. apply distinct_NoDup, sequence_distinct, wf_spec, Hf.
Qed.


(** The example Forward runs on two Nodes, so its plan exists. *)
Lemma compilePathTopology_ok_witness : exists t, compilePathTopology example_forward = Returns t /\ topology_ok example_forward t.
Proof.
  destruct (compilePathTopology_ok example_forward example_forward_wf) as [He Hok].
  destruct (proj2 He ltac:(vm_compute; lia)) as [t Ht]. exists t. auto.
Defined.
