(* ===== verification/Planner.v ===== *)
(** The Direct compiler and the Snapshot compiler
    (apps/control/src/modules/runtime/planner.ts). *)

From S2P Require Import Prelude.
From S2P Require Import JsString.
From S2P Require Import JsValue.
From S2P Require Import Primitives.
From S2P Require Import Json.
From S2P Require Import Forward.
From S2P Require Import Time.
From S2P Require Import Digest.
From S2P Require Import Types.
From S2P Require Import Cidr.
From S2P Require Import Validate.
From S2P Require Import Schema.
From S2P Require Import Relay.
From S2P Require Import Multihop.
From S2P Require Import Adp3.
From S2P Require Import TargetPolicy.
From S2P Require Import Topology.

Local Open Scope Z_scope.

Record ReservedSlot := MkReservedSlot {
  slot_nodeId : jsstr; slot_forwardId : jsstr; slot_protocol : NetworkProtocol;
  slot_port : Z; slot_bindingFence : Z; slot_deploymentGeneration : Z;
}.

(** [[...new Set(l)]]: the distinct items in the order of their first occurrence. *)
Definition new_Set {A} `{EqDecision A} (l : list A) : list A :=
  fold_left (fun seen x => if includes seen x then seen else seen ++ [x]) l [].

(** [JSON] of the object whose digest names the Assignment. *)
Definition direct_identity (nodeId forwardId : jsstr) (protocol : NetworkProtocol) : json :=
  JObj [(js "nodeId", JStr nodeId); (js "forwardId", JStr forwardId);
        (js "protocol", JStr (protocol_name protocol)); (js "role", JStr (js "direct"))].

Definition direct_config (s : ForwardSpec) (facts : AuthorizedNodeFacts) : DirectConfig :=
  {| dc_target := target s; dc_egressPolicyRevision := nf_egressPolicyRevision facts;
     dc_allowedDestinationCidrs := sort_by str_leb (new_Set (nf_allowedDestinationCidrs facts));
     dc_allowMetadataTargets := nf_allowMetadataTargets facts |}.

(** The reservations of one protocol of the Forward's listener. *)
Definition slot_matches (f : Forward) (facts : AuthorizedNodeFacts) (s : ForwardSpec)
    (protocol : NetworkProtocol) (slot : ReservedSlot) : bool :=
  str_eqb (slot_nodeId slot) (nf_nodeId facts) && str_eqb (slot_forwardId slot) (id f) &&
  bool_decide (slot_protocol slot = protocol) && (slot_port slot =? listen_port (ingress_listen s)).

Definition matching_slots (f : Forward) (facts : AuthorizedNodeFacts) (s : ForwardSpec)
    (reservations : list ReservedSlot) (protocol : NetworkProtocol) : list ReservedSlot :=
  List.filter (slot_matches f facts s protocol) reservations.

Definition by_assignmentId (a b : RuntimeAssignment) : bool :=
  str_leb (rua_assignmentId a) (rua_assignmentId b).

Section Direct.
Context `{Hashing}.

(** The body of [spec.protocols.map(protocol => ...)]. *)
Definition direct_assignment (f : Forward) (facts : AuthorizedNodeFacts) (s : ForwardSpec)
    (reservations : list ReservedSlot) (phase : Phase) (drainTimeoutSeconds : Z) (protocol : NetworkProtocol)
    : outcome RuntimeAssignment :=
  match matching_slots f facts s reservations protocol with
  | [slot] =>
      _ ← throw_if (negb (is_counter false (slot_bindingFence slot)) ||
                    negb (is_counter false (slot_deploymentGeneration slot)) ||
                    negb (is_port (slot_port slot)))
            "RESOURCE_CONFLICT" "Missing or ambiguous reservation";
      identity ← digest (direct_identity (nf_nodeId facts) (id f) protocol);
      configDigest ← digest (direct_config_json (direct_config s facts));
      Returns {|
        rua_assignmentId := js "a:" ++ drop 7 identity; rua_forwardId := id f;
        rua_forwardRevision := revision f; rua_deploymentGeneration := slot_deploymentGeneration slot;
        rua_bindingFence := slot_bindingFence slot; rua_role := direct; rua_protocol := protocol;
        rua_phase := phase;
        rua_resource := MkRelayResource (address (ingress_listen s)) (listen_port (ingress_listen s)) protocol;
        rua_configDigest := configDigest; rua_driver := DirectDriver (direct_config s facts);
        rua_drainTimeoutSeconds := drainTimeoutSeconds |}
  | _ => Throws (Exn "RESOURCE_CONFLICT" "Missing or ambiguous reservation")
  end.

(** [phase] is one of the three phases and [drainTimeoutSeconds] an integer by typing;
    the range test remains. *)
Definition compileDirect (f : Forward) (facts : AuthorizedNodeFacts) (reservations : list ReservedSlot)
    (phase : Phase) (drainTimeoutSeconds : Z) : outcome (list RuntimeAssignment) :=
  _ ← throw_if ((drainTimeoutSeconds <? 0) || (300 <? drainTimeoutSeconds))
        "INVALID_CONFIG" "Invalid execution phase/drain timeout";
  match reparse f with
  | Err _ => Throws (Exn "INVALID_CONFIG" "Invalid Forward")
  | Ok parsed =>
      let s := spec parsed in
      let caps := nf_capabilities facts in
      _ ← throw_if (negb (length (default [] (path_via s)) =? 0)%nat || bool_decide (is_Some (transport s)))
            "UNSUPPORTED_CAPABILITY" "Relay is not implemented";
      _ ← throw_if (negb (str_eqb (nf_nodeId facts) (ingress_nodeId s)) || negb (str_eqb (nf_scopeId facts) (scopeId f)))
            "AUTHORIZATION_DENIED" "Node scope mismatch";
      _ ← throw_if (negb (includes (nf_allowedListenerAddresses facts) (address (ingress_listen s))) ||
                    negb (includes (nf_allowedPorts facts) (listen_port (ingress_listen s))))
            "AUTHORIZATION_DENIED" "Listener is not allowed";
      _ ← throw_if (negb (includes caps (js "adp.3")) || negb (includes caps (js "native.direct.v1")) ||
                    existsb (fun p => negb (includes caps (protocol_name p))) (protocols s))
            "UNSUPPORTED_CAPABILITY" "Unsupported driver or protocol";
      _ ← throw_if (negb (is_counter false (nf_egressPolicyRevision facts)) ||
                    (length (nf_allowedDestinationCidrs facts) =? 0)%nat ||
                    existsb (fun cidr => negb (validCidr cidr)) (nf_allowedDestinationCidrs facts))
            "AUTHORIZATION_DENIED" "Invalid destination policy";
      _ ← throw_if (negb (enabled s)) "INVALID_CONFIG" "Disabled intent has no new active deployment";
      assignments ← map_each (direct_assignment f facts s reservations phase drainTimeoutSeconds) (protocols s);
      Returns (sort_by by_assignmentId assignments)
  end.
End Direct.

(** ** The Snapshot compiler *)

Record SnapshotInput := MkSnapshotInput {
  si_nodeId : jsstr; si_sessionEpoch : Z; si_snapshotGeneration : Z;
  si_issuedAt : jsstr; si_validUntil : jsstr; si_assignments : list RuntimeAssignment;
  si_tombstones : list RuntimeTombstone; si_policy : option Policy;
}.

Definition policy_json (p : Policy) : json := JObj (map (fun '(k, v) => (k, JInt v)) (policy_entries p)).

Definition policy_probe (input : SnapshotInput) (policy : Policy) : json :=
  JObj [(js "protocolVersion", JInt 3); (js "nodeId", JStr (si_nodeId input));
        (js "bootId", JStr (js "policy-validation")); (js "sessionEpoch", JInt (si_sessionEpoch input));
        (js "serverTime", JStr (si_issuedAt input)); (js "policy", policy_json policy)].

(** [order <= 0] *)
Definition tombstone_leb (a b : RuntimeTombstone) : bool :=
  retirement_order (runtime_rank a) (runtime_rank b) <=? 0.

Definition is_multihop_role (r : RuntimeRole) : bool :=
  match r with multihop_ingress | multihop_transit | multihop_egress => true | _ => false end.

Definition is_multihop_driver (d : RuntimeDriver) : bool :=
  match d with MultihopDriver _ => true | _ => false end.

(** The Snapshot that is printed; its digest is still to be computed. *)
Definition snapshot_of (input : SnapshotInput) (snapshotDigest : jsstr) : RuntimeSnapshot :=
  let assignments := sort_by by_assignmentId (si_assignments input) in
  let tombstones := sort_by tombstone_leb (si_tombstones input) in
  {| rus_executionExtension := existsb (fun a => is_multihop_driver (rua_driver a)) assignments ||
                               existsb (fun t => is_multihop_role (rut_role t)) tombstones;
     rus_nodeId := si_nodeId input; rus_sessionEpoch := si_sessionEpoch input;
     rus_snapshotGeneration := si_snapshotGeneration input; rus_issuedAt := si_issuedAt input;
     rus_validUntil := si_validUntil input; rus_snapshotDigest := snapshotDigest;
     rus_assignments := assignments; rus_tombstones := tombstones |}.

Section Compile.
Context `{Hashing, Schema RelayProfileConfig, Schema RelayOpen, Schema RelayAssignment, Adp2Schemas, Adp3Schemas}.

Definition compileSnapshot (input : SnapshotInput) : outcome RuntimeSnapshot :=
  let policy := default DEFAULT_POLICY (si_policy input) in
  _ ← parseRuntimeMessage HelloResponse_ (stringify (policy_probe input policy)) 4194304;
  ok ← withinLease (si_issuedAt input) (si_validUntil input) (leaseSeconds policy);
  _ ← throw_if (negb ok) "INVALID_CONFIG" "Lease exceeds policy";
  _ ← throw_if (maxAssignmentsPerNode policy <? Z.of_nat (length (si_assignments input)))
        "RESOURCE_LIMIT" "Assignment limit exceeded";
  d ← digest (runtime_body_json (snapshot_of input []));
  let raw := stringify (runtime_snapshot_json (snapshot_of input d)) in
  _ ← throw_if (maxSnapshotBytes policy <? utf8_length raw) "RESOURCE_LIMIT" "Complete snapshot too large";
  parseRuntimeMessage Snapshot_ raw 4194304.
End Compile.

(** ** What a Direct plan is *)

(** Everything [compileDirect] requires before it looks at reservations. *)
Record direct_authorized (f : Forward) (facts : AuthorizedNodeFacts) : Prop := {
  da_direct : path_via (spec f) = None /\ transport (spec f) = None;
  da_node : nf_nodeId facts = ingress_nodeId (spec f);
  da_scope : nf_scopeId facts = scopeId f;
  da_address : address (ingress_listen (spec f)) ∈ nf_allowedListenerAddresses facts;
  da_port : listen_port (ingress_listen (spec f)) ∈ nf_allowedPorts facts;
  da_driver : js "adp.3" ∈ nf_capabilities facts /\ js "native.direct.v1" ∈ nf_capabilities facts;
  da_protocols : forall p, p ∈ protocols (spec f) -> protocol_name p ∈ nf_capabilities facts;
  da_revision : is_counter false (nf_egressPolicyRevision facts) = true;
  da_cidrs : nf_allowedDestinationCidrs facts <> [] /\
             Forall (fun c => validCidr c = true) (nf_allowedDestinationCidrs facts);
  da_enabled : enabled (spec f) = true;
}.

(** The slot is the Forward's only reservation of this protocol on its listener. *)
Definition only_slot (f : Forward) (reservations : list ReservedSlot) (p : NetworkProtocol) (slot : ReservedSlot) : Prop :=
  slot_nodeId slot = ingress_nodeId (spec f) /\ slot_forwardId slot = id f /\ slot_protocol slot = p /\
  slot_port slot = listen_port (ingress_listen (spec f)) /\
  exists l r, reservations = l ++ slot :: r /\
    forall other, other ∈ l ++ r ->
      (slot_nodeId other, slot_forwardId other, slot_protocol other, slot_port other) <>
      (slot_nodeId slot, slot_forwardId slot, slot_protocol slot, slot_port slot).

Record planned_direct `{Hashing} (f : Forward) (facts : AuthorizedNodeFacts) (reservations : list ReservedSlot)
    (phase : Phase) (drain : Z) (p : NetworkProtocol) (a : RuntimeAssignment) : Prop := {
  pd_slot : exists slot, only_slot f reservations p slot /\
    1 <= slot_bindingFence slot <= MAX_COUNTER /\ 1 <= slot_deploymentGeneration slot <= MAX_COUNTER /\
    (rua_bindingFence a, rua_deploymentGeneration a) = (slot_bindingFence slot, slot_deploymentGeneration slot);
  pd_id : exists d, digests_to (direct_identity (ingress_nodeId (spec f)) (id f) p) d /\
    rua_assignmentId a = js "a:" ++ drop 7 d;
  pd_forward : (rua_forwardId a, rua_forwardRevision a) = (id f, revision f);
  pd_run : (rua_role a, rua_protocol a, rua_phase a, rua_drainTimeoutSeconds a) = (direct, p, phase, drain);
  pd_resource : rua_resource a = MkRelayResource (address (ingress_listen (spec f)))
                                   (listen_port (ingress_listen (spec f))) p;
  pd_driver : rua_driver a = DirectDriver (direct_config (spec f) facts);
  pd_config : digests_to (direct_config_json (direct_config (spec f) facts)) (rua_configDigest a);
}.

Lemma is_counter_bounds z : is_counter false z = true <-> 1 <= z <= MAX_COUNTER.
Proof. unfold is_counter. rewrite andb_true_iff. cbn. rewrite !Z.leb_le. lia. Qed.

Lemma slot_matches_true f facts s p slot : slot_matches f facts s p slot = true <->
  slot_nodeId slot = nf_nodeId facts /\ slot_forwardId slot = id f /\ slot_protocol slot = p /\
  slot_port slot = listen_port (ingress_listen s).
Proof. unfold slot_matches, str_eqb. rewrite !andb_true_iff, !bool_decide_eq_true, Z.eqb_eq. tauto. Qed.

Lemma filter_singleton {A} (f : A -> bool) l x : List.filter f l = [x] <->
  exists a b, l = a ++ x :: b /\ f x = true /\ Forall (fun y => f y = false) (a ++ b).
Proof.
  assert (Hnil : forall l, List.filter f l = [] <-> Forall (fun y => f y = false) l).
  { induction l0 as [|y r IH]; cbn; [by rewrite Forall_nil|]. rewrite Forall_cons.
    destruct (f y); naive_solver. }
  induction l as [|y r IH]; cbn.
  { split; [done|]. intros (a & b & E & _). by destruct a. }
  split.
  - destruct (f y) eqn:E.
    + intros [= -> Hr%Hnil]. by exists [], r.
    + intros (a & b & -> & Hx & HF)%IH. exists (y :: a), b. split_and!; [done|done|by constructor].
  - intros ([|z a] & b & [= -> ->] & Hx & HF).
    + rewrite Hx. f_equal. by apply Hnil.
    + cbn in HF. inversion HF as [|? ? Hz HF']; subst. rewrite Hz. apply IH. eauto.
Qed.

Lemma matching_slots_only f facts reservations p slot :
  nf_nodeId facts = ingress_nodeId (spec f) ->
  matching_slots f facts (spec f) reservations p = [slot] <-> only_slot f reservations p slot.
Proof.
  intros Hn. unfold matching_slots, only_slot. rewrite filter_singleton. split.
  - intros (l & r & -> & Hs & HF). apply slot_matches_true in Hs as (Hi & Hf & Hp & Hq).
    split_and!; try congruence. exists l, r. split; [done|]. intros other Ho E.
    rewrite Forall_forall in HF. specialize (HF _ Ho). apply not_true_iff_false in HF. apply HF.
    apply slot_matches_true. injection E as ? ? ? ?. split_and!; congruence.
  - intros (Hi & Hf & Hp & Hq & l & r & -> & HF). exists l, r. split_and!; [done| |].
    + apply slot_matches_true. split_and!; congruence.
    + apply Forall_forall. intros other Ho. apply not_true_iff_false. intros E.
      apply slot_matches_true in E as (? & ? & ? & ?). apply (HF _ Ho). congruence.
Qed.

Section DirectSpec.
Context `{Hashing}.

Lemma direct_assignment_spec f facts reservations phase drain p a :
  nf_nodeId facts = ingress_nodeId (spec f) -> is_port (listen_port (ingress_listen (spec f))) = true ->
  direct_assignment f facts (spec f) reservations phase drain p = Returns a <->
  planned_direct f facts reservations phase drain p a.
Proof using.
  intros Hn Hport. unfold direct_assignment. split.
  - destruct (matching_slots _ _ _ _ _) as [|slot [|]] eqn:E; try done.
    apply (matching_slots_only f facts) in E; [|done]. autorewrite with guards.
    intros [((Hb%is_counter_bounds & Hg%is_counter_bounds) & _) Hr].
    apply bind_Returns in Hr as (d & Hd & (c & Hc & [= <-])%bind_Returns). rewrite Hn in Hd. by split; eauto 7.
  - destruct a as [aid fid frev gen fence role proto ph resource cd driver dr].
    intros [(slot & Ho & Hb & Hg & E) (d & Hd & Hid) Hf Hrun Hres Hdrv Hc].
    cbn in E, Hid, Hf, Hrun, Hres, Hdrv, Hc. pose proof Ho as Hs.
    apply (matching_slots_only f facts) in Hs as ->; [|done]. destruct Ho as (_ & _ & _ & Hq & _).
    apply guard_seq. split.
    { autorewrite with guards. rewrite Hq. by split_and!; [apply is_counter_bounds| apply is_counter_bounds|]. }
    rewrite Hn. unfold digests_to in Hd, Hc. rewrite Hd, Hc. cbn. congruence.
Qed.

Lemma direct_authorized_iff f facts : forward_wf f ->
  direct_authorized f facts <->
  ((length (default [] (path_via (spec f))) = 0%nat /\ ~ is_Some (transport (spec f))) /\
   (nf_nodeId facts = ingress_nodeId (spec f) /\ nf_scopeId facts = scopeId f) /\
   (address (ingress_listen (spec f)) ∈ nf_allowedListenerAddresses facts /\
    listen_port (ingress_listen (spec f)) ∈ nf_allowedPorts facts) /\
   ((js "adp.3" ∈ nf_capabilities facts /\ js "native.direct.v1" ∈ nf_capabilities facts) /\
    Forall (fun p => protocol_name p ∈ nf_capabilities facts) (protocols (spec f))) /\
   ((is_counter false (nf_egressPolicyRevision facts) = true /\ length (nf_allowedDestinationCidrs facts) <> 0%nat) /\
    Forall (fun c => validCidr c = true) (nf_allowedDestinationCidrs facts)) /\
   enabled (spec f) = true).
Proof using.
  intros Hf. pose proof (wf_locked _ (wf_spec _ Hf)) as Hl. rewrite length_zero_iff_nil, Forall_forall. split.
  - intros [[Hv Ht] ? ? ? ? ? ? ? [Hc ?] ?]. rewrite Hv, Ht. rewrite length_zero_iff_nil. split_and!; try tauto.
    by intros [? ?].
  - intros ((_ & Ht) & (? & ?) & (? & ?) & (? & ?) & ((? & Hc) & ?) & ?).
    split; try done; [|split; [|done]; intros E; by rewrite E in Hc].
    destruct (transport (spec f)); [by destruct Ht; eauto|]. split; [|done].
    destruct (path_via (spec f)); [|done]. by destruct (proj1 Hl (mk_is_Some _ _ eq_refl)).
Qed.

(** The Direct compiler is exact: for a well-formed Forward it returns a plan when
    and only when the drain timeout is within its bound, the Node's facts authorize
    the listener, the driver, the protocols and the destination policy, and every
    protocol has exactly one reservation; the plan is then one Direct Assignment per
    protocol, with that reservation's fence and generation, the deterministic id and
    the digested configuration, in the order of the ids. *)
Theorem compileDirect_spec (f : Forward) (facts : AuthorizedNodeFacts) (reservations : list ReservedSlot)
    (phase : Phase) (drain : Z) (plan : list RuntimeAssignment) : forward_wf f ->
  compileDirect f facts reservations phase drain = Returns plan <->
  0 <= drain <= 300 /\ direct_authorized f facts /\
  exists assignments, Forall2 (planned_direct f facts reservations phase drain) (protocols (spec f)) assignments /\
    plan = sort_by by_assignmentId assignments.
Proof using.
  intros Hf. unfold compileDirect. rewrite guard_seq, (reparse_wf f Hf). cbn zeta.
  rewrite !guard_seq, (direct_authorized_iff f facts Hf).
  assert (Hcaps : forall caps ps, existsb (fun p => negb (includes caps (protocol_name p))) ps = false <->
                                  Forall (fun p => protocol_name p ∈ caps) ps).
  { intros caps ps. rewrite existsb_false. apply Forall_iff. intros p. by autorewrite with guards. }
  autorewrite with guards. rewrite Hcaps, Nat.eqb_eq, Nat.eqb_neq, bind_Returns.
  assert (Hmap : nf_nodeId facts = ingress_nodeId (spec f) -> forall l,
    map_each (direct_assignment f facts (spec f) reservations phase drain) (protocols (spec f)) = Returns l <->
    Forall2 (planned_direct f facts reservations phase drain) (protocols (spec f)) l).
  { intros Hn l. rewrite map_each_Returns. pose proof (wf_listen_port _ (wf_spec _ Hf)).
    split; intros HF; (eapply Forall2_impl; [exact HF|]); intros p a; by apply direct_assignment_spec. }
  split.
  - intros (? & ? & (Hn & ?) & ? & ? & ? & ? & l & Hl & [= <-]). split; [lia|]. split; [tauto|].
    exists l. split; [|done]. by apply Hmap.
  - intros (? & (? & (Hn & ?) & ? & ? & ? & ?) & l & Hl & ->). split_and!; try tauto; try lia.
    exists l. split; [|done]. by apply Hmap.
Qed.
End DirectSpec.

(** Every Assignment of a Direct plan passes the Runtime checks of any Snapshot. *)
Lemma new_Set_elem {A} `{EqDecision A} (l : list A) x : x ∈ new_Set l <-> x ∈ l.
Proof.
  assert (Hgo : forall l seen, x ∈ fold_left (fun seen x => if includes seen x then seen else seen ++ [x]) l seen <->
                               x ∈ seen \/ x ∈ l).
  { clear l. induction l as [|y r IH]; intros seen; cbn; [by rewrite elem_of_nil; naive_solver|].
    rewrite IH, elem_of_cons. destruct (includes seen y) eqn:E.
    - apply includes_true in E. naive_solver.
    - rewrite elem_of_app, list_elem_of_singleton. naive_solver. }
  unfold new_Set. rewrite Hgo, elem_of_nil. naive_solver.
Qed.

Lemma new_Set_NoDup {A} `{EqDecision A} (l : list A) : NoDup (new_Set l).
Proof.
  unfold new_Set. assert (Hgo : forall seen, NoDup seen ->
    NoDup (fold_left (fun seen x => if includes seen x then seen else seen ++ [x]) l seen)).
  { induction l as [|y r IH]; intros seen Hs; cbn; [done|]. apply IH. destruct (includes seen y) eqn:E; [done|].
    apply includes_false in E. apply NoDup_app. split_and!; [done| |apply NoDup_singleton].
    intros z Hz ->%list_elem_of_singleton. done. }
  apply Hgo. constructor.
Qed.

Lemma planned_direct_valid `{Hashing} f facts reservations phase drain p a s :
  forward_wf f -> direct_authorized f facts -> planned_direct f facts reservations phase drain p a -> driver_valid s a.
Proof.
  intros Hf Ha Hp. unfold driver_valid. pose proof (pd_run _ _ _ _ _ _ _ Hp) as Hrun. injection Hrun as -> Hpr _ _.
  rewrite (pd_driver _ _ _ _ _ _ _ Hp). pose proof (wf_spec _ Hf) as Hs.
  split; rewrite ?(pd_resource _ _ _ _ _ _ _ Hp); cbn [res_protocol res_address].
  - done.
  - apply Hs.
  - apply Hs.
  - cbn [direct_config dc_allowedDestinationCidrs]. apply Forall_forall. intros c. rewrite sort_by_perm, new_Set_elem.
    pose proof (da_cidrs _ _ Ha) as [_ HF]. rewrite Forall_forall in HF. apply HF.
  - apply Hp.
Qed.

(** Validation does not change its input: the document of a Snapshot, when accepted,
    denotes that Snapshot. *)
Class Adp3DocumentLaw `{Adp3Schemas} : Prop :=
  adp3_document : forall x y : RuntimeSnapshot, structure Snapshot_ (runtime_snapshot_json x) = Some y -> y = x.

Section CompileSpec.
Context `{Hashing, Schema RelayProfileConfig, Schema RelayOpen, Schema RelayAssignment, Adp2Schemas, Adp3Schemas}.
Context `{!SchemaLaws RelayProfileConfig, !SchemaLaws RelayOpen, !SchemaLaws RelayAssignment, !RelayRoleLaw,
          !Adp3SnapshotLaw, !Adp3DocumentLaw}.

(** C35. The Snapshot compiler adds nothing and loses nothing: what [compileSnapshot]
    returns is the sorted input with its digest, it satisfies every Runtime invariant
    of an ADP/3 Snapshot, its validity lies within the lease of the policy, and it
    respects the policy's limits on Assignments and bytes. *)
Theorem compileSnapshot_spec (input : SnapshotInput) (s : RuntimeSnapshot) :
  let policy := default DEFAULT_POLICY (si_policy input) in
  (forall d, digests_to (runtime_body_json (snapshot_of input [])) d ->
             readable (runtime_snapshot_json (snapshot_of input d))) ->
  compileSnapshot input = Returns s ->
  s = snapshot_of input (rus_snapshotDigest s) /\ runtime_valid s /\
  withinLease (rus_issuedAt s) (rus_validUntil s) (leaseSeconds policy) = Returns true /\
  rus_assignments s ≡ₚ si_assignments input /\ rus_tombstones s ≡ₚ si_tombstones input /\
  Z.of_nat (length (rus_assignments s)) <= maxAssignmentsPerNode policy /\
  utf8_length (stringify (runtime_snapshot_json s)) <= maxSnapshotBytes policy.
Proof using All.
  intros policy Hr. unfold compileSnapshot. fold policy.
  intros (hello & _ & (ok & Hok & Hrest)%bind_Returns)%bind_Returns.
  rewrite !guard_seq in Hrest. destruct Hrest as (->%negb_false_iff & Hlen%Z.ltb_ge & Hrest).
  apply bind_Returns in Hrest as (d & Hd & Hrest). rewrite guard_seq in Hrest.
  destruct Hrest as [Hbytes%Z.ltb_ge Hparse]. specialize (Hr d Hd).
  assert (s = snapshot_of input d) as ->.
  { unfold parseRuntimeMessage in Hparse. apply bind_Returns in Hparse as (v & Hv & Hs).
    apply parse_printed in Hv as ->; [|done].
    destruct (structure Snapshot_ _) as [s'|] eqn:E; [|done]. apply adp3_document in E as ->.
    apply seq_unit in Hs as [_ Hs]. congruence. }
  apply parse_snapshot_valid in Hparse.
  split_and!; try done; cbn [snapshot_of rus_assignments rus_tombstones]; try apply sort_by_perm.
  by rewrite sort_by_perm.
Qed.
End CompileSpec.

(** ** Concrete plans *)

Definition direct_forward : Forward :=
  MkForward (js "f1") (js "s1") 4
    (MkSpec true [tcp; udp] (js "n1") (Listen (js "0.0.0.0") 80) (Target (js "example.com") 8080) None None).

Lemma direct_forward_wf : forward_wf direct_forward.
Proof.
  constructor; [vm_compute; reflexivity..|]. constructor.
  - by right; right.
  - vm_compute; reflexivity.
  - vm_compute; reflexivity.
  - vm_compute; reflexivity.
  - vm_compute; reflexivity.
  - vm_compute; reflexivity.
  - discriminate.
  - discriminate.
  - split; intros [? ?]; discriminate.
Defined.

Definition example_facts : AuthorizedNodeFacts :=
  MkNodeFacts (js "n1") (js "s1") [js "adp.3"; js "native.direct.v1"; js "tcp"; js "udp"] [js "0.0.0.0"] [80; 443] 2
    [js "192.0.2.0/24"; js "10.0.0.0/8"; js "192.0.2.0/24"] false.

Definition example_slots : list ReservedSlot :=
  [MkReservedSlot (js "n1") (js "f1") tcp 80 3 1; MkReservedSlot (js "n1") (js "f1") udp 80 5 1].

Lemma compileDirect_spec_witness : exists plan,
  @compileDirect example_hashing direct_forward example_facts example_slots active 30 = Returns plan /\
  direct_authorized direct_forward example_facts.
Proof.
  destruct (@compileDirect example_hashing direct_forward example_facts example_slots active 30) as [plan|e] eqn:E;
    [|vm_compute in E; discriminate].
  exists plan. split; [done|].
  pose proof (proj1 (@compileDirect_spec example_hashing direct_forward example_facts example_slots active 30 plan
    direct_forward_wf) E) as (_ & Ha & _). exact Ha.
Defined.

Lemma direct_config_json_inj c d : direct_config_json c = direct_config_json d -> c = d.
Proof.
  destruct c as [t r l m], d as [t' r' l' m']. intros E.
  pose proof (field_at_eq 0 _ _ E) as E0. pose proof (field_at_eq 1 _ _ E) as E1.
  pose proof (field_at_eq 2 _ _ E) as E2. pose proof (field_at_eq 3 _ _ E) as E3.
  apply target_json_inj in E0. apply strs_json_inj in E2. cbn in E0, E1, E2, E3. congruence.
Qed.

Lemma resource_json_inj r s : resource_json r = resource_json s -> r = s.
Proof.
  destruct r as [a p q], s as [a' p' q']. intros E. pose proof (field_at_eq 2 _ _ E) as E2.
  injection E2 as ->%protocol_name_inj. pose proof (field_at_eq 0 _ _ E) as E0.
  pose proof (field_at_eq 1 _ _ E) as E1. cbn in E0, E1. congruence.
Qed.

(** The document of a Direct Assignment determines it. *)
Lemma direct_fields_inj a b c : rua_driver b = DirectDriver c ->
  JObj (runtime_fields a) = JObj (runtime_fields b) -> a = b.
Proof.
  destruct a as [? ? ? ? ? r p ph res ? drv ?], b as [? ? ? ? ? r' p' ph' res' ? drv' ?].
  cbn [rua_driver]. intros -> E.
  pose proof (field_at_eq 5 _ _ E) as E5. injection E5 as ->%role_name_inj.
  pose proof (field_at_eq 6 _ _ E) as E6. injection E6 as ->%protocol_name_inj.
  pose proof (field_at_eq 7 _ _ E) as E7. assert (ph = ph') as -> by (by destruct ph, ph').
  pose proof (field_at_eq 8 _ _ E) as E8. apply resource_json_inj in E8. cbn in E8. subst.
  pose proof (field_at_eq 9 _ _ E) as E9. pose proof (field_at_eq 0 _ _ E9) as Ei.
  pose proof (field_at_eq 2 _ _ E9) as Ed. pose proof (field_at_eq 3 _ _ E9) as Ec.
  destruct drv as [c'|c'|h]; [|discriminate Ei..]. apply direct_config_json_inj in Ec. cbn in Ec, Ed. subst.
  pose proof (field_at_eq 0 _ _ E). pose proof (field_at_eq 1 _ _ E). pose proof (field_at_eq 2 _ _ E).
  pose proof (field_at_eq 3 _ _ E). pose proof (field_at_eq 4 _ _ E). pose proof (field_at_eq 10 _ _ E).
  clear E E9 Ei E7. cbn in *. congruence.
Qed.

Definition example_input : SnapshotInput :=
  MkSnapshotInput (js "n1") 1 9 (js "2026-01-01T00:00:00Z") (js "2026-01-01T00:05:00Z") [example_runtime_direct] [] None.

Definition example_compiled : RuntimeSnapshot := snapshot_of example_input (js "sha256:00").

Definition example_hello : HelloResponse :=
  MkHelloResponse (js "n1") (js "policy-validation") 1 (js "2026-01-01T00:00:00Z") DEFAULT_POLICY.

Definition planner_adp2 : Adp2Schemas := fun name => match name return json -> option (Messages name) with
  | HelloResponse_ => fun _ => Some example_hello | _ => fun _ => None end.

Definition planner_adp3 : Adp3Schemas := {|
  adp3_schema := fun name => match name return json -> option (RuntimeMessages name) with
                             | Snapshot_ => accept_only example_compiled
                             | HelloResponse_ => fun _ => Some example_hello
                             | _ => fun _ => None
                             end;
  execution_schema := fun _ => None |}.

Lemma planner_snapshot_law : @Adp3SnapshotLaw planner_adp3.
Proof.
  intros v s Hv. cbn [structure planner_adp3 adp3_schema execution_schema].
  destruct (has_extension v); [done|]. unfold accept_only. destruct (decide _) as [->|]; [|done].
  by intros [= <-].
Qed.

Lemma example_compiled_inj x : runtime_snapshot_json x = runtime_snapshot_json example_compiled -> x = example_compiled.
Proof.
  destruct x as [ext n se ge iss va di asg tmb]. intros E. destruct ext; [discriminate (field_at_eq 1 _ _ E)|].
  pose proof (field_at_eq 7 _ _ E) as E7. pose proof (field_at_eq 8 _ _ E) as E8.
  destruct tmb; [|discriminate E8]. destruct asg as [|a [|]]; [discriminate E7| |discriminate E7].
  assert (a = example_runtime_direct) as ->.
  { eapply direct_fields_inj; [reflexivity|]. cbn in E7. cbn. congruence. }
  pose proof (field_at_eq 1 _ _ E). pose proof (field_at_eq 2 _ _ E). pose proof (field_at_eq 3 _ _ E).
  pose proof (field_at_eq 5 _ _ E). pose proof (field_at_eq 6 _ _ E). pose proof (field_at_eq 9 _ _ E).
  clear E E7 E8. unfold example_compiled, snapshot_of. cbn in *. congruence.
Qed.

Lemma planner_document_law : @Adp3DocumentLaw planner_adp3.
Proof.
  intros x y. cbn [structure planner_adp3 adp3_schema execution_schema].
  destruct (has_extension _); [done|]. unfold accept_only. destruct (decide _) as [E|]; [|done]. intros [= <-].
  symmetry. by apply example_compiled_inj.
Qed.

Lemma compileSnapshot_spec_witness : @runtime_valid example_hashing example_compiled.
Proof.
  pose proof (@compileSnapshot_spec example_hashing (accept_only example_profile) (accept_only example_open)
    (accept_only example_relay) planner_adp2 planner_adp3
    example_profile_laws example_open_laws example_relay_laws example_role_law planner_snapshot_law
    planner_document_law example_input example_compiled) as Hspec.
  apply Hspec.
  - intros d Hd. vm_compute in Hd. injection Hd as <-.
    apply (parse_readable (stringify (runtime_snapshot_json example_compiled)) 4194304). vm_compute. reflexivity.
  - vm_compute. reflexivity.
Defined.
