(* ===== verification/Printed.v ===== *)
(** Reading back what the control plane itself prints.

    The Snapshot compiler prints a document with [JSON.stringify] and parses the text again.
    Whatever the parse accepts is the document that was printed: an integer that is not safe, a
    lone surrogate or too deep a nesting is refused, and nothing else can differ. *)

From S2P Require Import Prelude.
From S2P Require Import JsString.
From S2P Require Import Primitives.
From S2P Require Import Json.
From S2P Require Import Forward.
From S2P Require Import Time.
From S2P Require Import Digest.
From S2P Require Import Types.
From S2P Require Import Validate.
From S2P Require Import Schema.
From S2P Require Import Relay.
From S2P Require Import Multihop.
From S2P Require Import Adp3.
From S2P Require Import Planner.

Local Open Scope Z_scope.

(** ** Documents of the code *)

(** The strings are strings of code units. *)
Inductive json_text : json -> Prop :=
  | tx_null : json_text JNull
  | tx_bool b : json_text (JBool b)
  | tx_int z : json_text (JInt z)
  | tx_str s : nonneg s -> json_text (JStr s)
  | tx_arr l : Forall json_text l -> json_text (JArr l)
  | tx_obj fs : Forall (fun kv => json_text kv.2) fs -> json_text (JObj fs).

(** The keys are those of an object literal: distinct, none of them an array index. *)
Inductive json_shape : json -> Prop :=
  | sh_null : json_shape JNull
  | sh_bool b : json_shape (JBool b)
  | sh_int z : json_shape (JInt z)
  | sh_str s : json_shape (JStr s)
  | sh_arr l : Forall json_shape l -> json_shape (JArr l)
  | sh_obj fs : Forall (fun kv => str_ok kv.1) fs -> NoDup (map fst fs) -> enum_order fs = fs ->
      Forall (fun kv => json_shape kv.2) fs -> json_shape (JObj fs).

(** ** The reader on printed text *)

Lemma safe_integer_numeral t z : nt_int t = to_base 10 (Z.abs z) -> nt_frac t = [] -> nt_exp t = None -> MAX_COUNTER < Z.abs z ->
  safe_integer t = None.
Proof.
  intros Ei Ef Ee Hz. unfold safe_integer. destruct (128 <? nt_length t)%nat; [done|]. rewrite Ei, Ef, Ee, app_nil_r, of_base_to_base by lia.
  unfold MAX_COUNTER in *. destruct (Z.eqb_spec (Z.abs z) 0); [lia|]. cbn [length Z.of_nat Z.abs Z.sub Z.ltb Z.leb Z.compare Z.opp Z.add].
  rewrite Z.pow_0_r, Z.mul_1_r. destruct (Z.leb_spec (Z.abs z) 9007199254740991); [lia|done].
Qed.

Lemma scan_number_unsafe z rest : MAX_COUNTER < Z.abs z -> delimited rest ->
  exists t, scan_number (num_to_string z ++ rest) = Some (t, rest) /\ safe_integer t = None.
Proof.
  intros Hz Hr. unfold scan_number. set (s := num_to_string z ++ rest).
  assert (Es : match eat 45 s with Some r => (true, r) | None => (false, s) end = (z <? 0, to_base 10 (Z.abs z) ++ rest)).
  { unfold s, num_to_string. destruct (Z.ltb_spec z 0); cbn [app]; [cbn; do 4 f_equal; lia|]. rewrite Z.abs_eq by lia.
    pose proof (scan_int_numeral z rest ltac:(lia) Hr) as Hs. destruct (to_base 10 z ++ rest) as [|c r]; [done|]. cbn. by destruct (Z.eqb_spec c 45) as [->|]. }
  rewrite Es, scan_int_numeral, scan_frac_delimited, scan_exp_delimited by (done || lia).
  eexists. split; [done|]. by apply (safe_integer_numeral _ z).
Qed.

(** Whatever [value] reads from the text of [v], it reads [v]. *)
Definition reads_only (v : json) : Prop := forall fuel d rest w r,
  delimited rest -> value fuel d (stringify v ++ rest) = Returns (w, r) -> w = v /\ r = rest.

Lemma value_fuel fuel d s w r : value fuel d s = Returns (w, r) -> exists n, fuel = S n /\ (d <= 64)%nat.
Proof. destruct fuel as [|n]; [done|]. cbn [value]. destruct (64 <? d)%nat eqn:E; [done|]. apply Nat.ltb_ge in E. eauto. Qed.

Lemma scalar_not_text z rest p : match p with [] => False | c :: _ => c <> ch_dash /\ is_digit c = false end ->
  starts_with p (num_to_string z ++ rest) = false.
Proof.
  destruct p as [|c p]; [done|]. intros [Hc Hd]. unfold starts_with, num_to_string, str_eqb. apply bool_decide_eq_false.
  destruct (Z.ltb_spec z 0); cbn [app take length]; [congruence|].
  pose proof (to_base_10_digits z ltac:(lia)) as Hdd. pose proof (to_base_nonempty 10 ltac:(lia) z ltac:(lia)).
  destruct (to_base 10 z) as [|x q]; [done|]. cbn [app take]. intros [= -> _]. cbn in Hdd. propify. congruence.
Qed.

Lemma reads_only_int z : reads_only (JInt z).
Proof.
  intros fuel d rest w r Hr Hv. destruct (value_fuel _ _ _ _ _ Hv) as (n & -> & Hd). cbn [stringify] in Hv.
  destruct (stringify_head (JInt z)) as (c & t & E & Hw & _). cbn [stringify] in E.
  assert (Hc : c = ch_dash \/ is_digit c = true).
  { unfold num_to_string in E. destruct (Z.ltb_spec z 0); [injection E as <- _; by left|].
    pose proof (to_base_10_digits z ltac:(lia)) as Hdd. rewrite E in Hdd. cbn in Hdd. propify. by right. }
  assert (Hs : value (S n) d (num_to_string z ++ rest) = scalar (num_to_string z ++ rest)).
  { rewrite E. cbn [app]. apply value_scalar; [lia|done|by intros ->; destruct Hc..]. }
  rewrite Hs in Hv. destruct (Z.le_gt_cases (Z.abs z) MAX_COUNTER) as [Hz|Hz].
  - rewrite scalar_number in Hv by done. by injection Hv as <- <-.
  - destruct (scan_number_unsafe z rest Hz Hr) as (t' & E1 & E2). unfold scalar in Hv. rewrite !scalar_not_text, E1, E2 in Hv by done. done.
Qed.

Lemma string_literal_escape_only s rest x t : nonneg s -> string_literal (escape s ++ ch_quote :: rest) = Returns (x, t) -> x = s /\ t = rest.
Proof. intros Hs. unfold string_literal. rewrite scan_escape, decode_escape by done. destruct (utf16_ok s); [|done]. by intros [= <- <-]. Qed.

Lemma reads_only_str s : nonneg s -> reads_only (JStr s).
Proof.
  intros Hs fuel d rest w r Hr Hv. destruct (value_fuel _ _ _ _ _ Hv) as (n & -> & Hd). cbn [stringify value] in Hv. unfold quote in Hv. cbn [app] in Hv.
  rewrite (proj2 (Nat.ltb_ge 64 d)), whitespace_id in Hv by (done || lia). cbv iota in Hv. rewrite Z.eqb_refl, <- app_assoc in Hv. cbn [app] in Hv.
  destruct (string_literal _) as [[x t]|] eqn:E; [|done]. apply string_literal_escape_only in E as [-> ->]; [|done]. by injection Hv as <- <-.
Qed.

Lemma elements_reads_only l : Forall reads_only l -> l <> [] -> forall fuel d rest acc w r,
  elements fuel d (join [ch_comma] (map stringify l) ++ ch_rbracket :: rest) acc = Returns (w, r) -> w = JArr (acc ++ l) /\ r = rest.
Proof.
  induction 1 as [|v l Hv Hl IH]; [done|]. intros _ [|fuel] d rest acc w r Hr; [done|]. cbn [map] in Hr. rewrite join_tail in Hr. cbn [elements] in Hr.
  destruct (value fuel (S d) _) as [[x t]|] eqn:E; [|done]. cbn [mbind outcome_bind] in Hr.
  apply Hv in E as [-> ->]; [|by destruct l; cbn; auto]. destruct l as [|u l]; cbn [map] in Hr; [by injection Hr as <- <-|].
  rewrite eat_comma_bracket, eat_same in Hr by set_solver. change (stringify u :: map stringify l) with (map stringify (u :: l)) in Hr.
  apply IH in Hr as [-> ->]; [|done]. by rewrite <- app_assoc.
Qed.

Lemma members_reads_only fs : Forall (fun kv => nonneg kv.1 /\ reads_only kv.2) fs -> fs <> [] -> forall fuel d rest acc w r,
  members fuel d (join [ch_comma] (map field_text fs) ++ ch_rbrace :: rest) acc = Returns (w, r) -> w = JObj (enum_order (acc ++ fs)) /\ r = rest.
Proof.
  induction 1 as [|[k v] fs [Hk Hv] Hfs IH]; [done|]. intros _ [|fuel] d rest acc w r Hr; [done|]. cbn [map] in Hr. rewrite join_tail in Hr.
  unfold field_text at 1 in Hr. cbn [fst snd] in *. unfold quote in Hr. rewrite <- !app_assoc, <- app_comm_cons in Hr. cbn [members] in Hr.
  rewrite eat_same in Hr by set_solver. rewrite <- app_assoc in Hr. cbn [app] in Hr.
  destruct (string_literal _) as [[x t]|] eqn:E; [|done]. apply string_literal_escape_only in E as [-> ->]; [|done]. cbn [mbind outcome_bind] in Hr.
  destruct (includes _ _); [done|]. rewrite eat_same in Hr by set_solver. destruct (value fuel (S d) _) as [[x t]|] eqn:E; [|done].
  cbn [mbind outcome_bind] in Hr. apply Hv in E as [-> ->]; [|by destruct fs; cbn; auto]. destruct fs as [|kv fs]; cbn [map] in Hr; [by injection Hr as <- <-|].
  rewrite eat_comma_brace, eat_same in Hr by set_solver. change (field_text kv :: map field_text fs) with (map field_text (kv :: fs)) in Hr.
  apply IH in Hr as [-> ->]; [|done]. by rewrite <- app_assoc.
Qed.

Lemma printed_reads_only v : json_shape v -> json_text v -> reads_only v.
Proof.
  induction v as [|b|z|s|l IH|fs IH] using json_nested_ind; intros Hs Ht.
  - intros fuel d rest w r _ Hv. destruct (value_fuel _ _ _ _ _ Hv) as (n & -> & Hd). cbn [stringify] in Hv.
    change (value (S n) d (110 :: js "ull" ++ rest) = Returns (w, r)) in Hv. rewrite value_scalar in Hv by done. by injection Hv as <- <-.
  - intros fuel d rest w r _ Hv. destruct (value_fuel _ _ _ _ _ Hv) as (n & -> & Hd).
    destruct b; [change (value (S n) d (116 :: js "rue" ++ rest) = Returns (w, r)) in Hv|change (value (S n) d (102 :: js "alse" ++ rest) = Returns (w, r)) in Hv];
      rewrite value_scalar in Hv by done; by injection Hv as <- <-.
  - apply reads_only_int.
  - inversion Ht. by apply reads_only_str.
  - inversion Hs as [| | | |? Hs'|]; inversion Ht as [| | | |? Ht'|]; subst. assert (Hl : Forall reads_only l) by (rewrite !Forall_forall in *; auto).
    intros fuel d rest w r Hr Hv. destruct (value_fuel _ _ _ _ _ Hv) as (n & -> & Hd). cbn [stringify] in Hv. rewrite <- app_comm_cons, <- app_assoc in Hv. cbn [app] in Hv.
    cbn [value] in Hv. rewrite (proj2 (Nat.ltb_ge 64 d)), whitespace_id in Hv by done. cbv iota in Hv.
    change (ch_lbracket =? ch_quote) with false in Hv. change (ch_lbracket =? ch_lbrace) with false in Hv. rewrite Z.eqb_refl in Hv. cbv iota in Hv.
    destruct l as [|u l]; [cbn in Hv; by injection Hv as <- <-|]. set (body := join [ch_comma] (map stringify (u :: l)) ++ ch_rbracket :: rest) in *.
    assert (Hbody : whitespace body = body /\ eat ch_rbracket body = None).
    { destruct (stringify_head u) as (c & t & E & Hw & Hc). unfold body. cbn [map]. rewrite join_tail, E. cbn [app].
      split; [by apply whitespace_id|]. cbn. by rewrite (proj2 (Z.eqb_neq c ch_rbracket)). }
    destruct Hbody as [E1 E2]. rewrite E1, E2 in Hv. by apply elements_reads_only in Hv.
  - inversion Hs as [| | | | |? Hk Hdup Henum Hs']; inversion Ht as [| | | | |? Ht']; subst.
    assert (Hl : Forall (fun kv => nonneg kv.1 /\ reads_only kv.2) fs).
    { rewrite !Forall_forall in *. intros kv Hin. split; [by apply Hk|auto]. }
    intros fuel d rest w r Hr Hv. destruct (value_fuel _ _ _ _ _ Hv) as (n & -> & Hd). rewrite stringify_obj in Hv. rewrite <- app_comm_cons, <- app_assoc in Hv. cbn [app] in Hv.
    cbn [value] in Hv. rewrite (proj2 (Nat.ltb_ge 64 d)), whitespace_id in Hv by done. cbv iota in Hv.
    change (ch_lbrace =? ch_quote) with false in Hv. rewrite Z.eqb_refl in Hv. cbv iota in Hv.
    destruct fs as [|kv fs]; [cbn in Hv; by injection Hv as <- <-|]. set (body := join [ch_comma] (map field_text (kv :: fs)) ++ ch_rbrace :: rest) in *.
    assert (Hbody : whitespace body = body /\ eat ch_rbrace body = None) by (unfold body; cbn [map]; by rewrite join_tail).
    destruct Hbody as [E1 E2]. rewrite E1, E2 in Hv. apply members_reads_only in Hv as [-> ->]; [|done..]. cbn [app]. by rewrite Henum.
Qed.

Lemma parse_printed_only v max w : json_shape v -> json_text v -> parseJson (stringify v) max = Returns w -> w = v.
Proof.
  intros Hs Ht H. unfold parseJson in H. apply seq_unit in H as [_ H]. apply bind_Returns in H as ([x rest] & Hv & H).
  rewrite <- (app_nil_r (stringify v)) in Hv at 2. apply (printed_reads_only v Hs Ht) in Hv as [-> ->]; [|done]. cbn in H. congruence.
Qed.

(** ** The Snapshot compiler *)

(** [canonicalize] is a function of JavaScript values, and a hexadecimal text is a string of
    code units. *)
Class HashingText `{Hashing} : Prop := {
  canonical_text : forall v c, canonicalize v = Some c -> json_text v;
  hash_text : forall c, nonneg (sha256_hex c);
}.

Lemma forallb_Forall_nonneg s : forallb (Z.leb 0) s = true -> nonneg s.
Proof. intros Hs. unfold nonneg. rewrite Forall_forall. rewrite forallb_forall in Hs. intros c Hc. apply Z.leb_le, Hs. by apply list_elem_of_In. Qed.

(** The keys of an object literal, checked by computation. *)
Definition keys_ok (ks : list jsstr) : bool := forallb (fun k => utf16_ok k && forallb (Z.leb 0) k) ks && bool_decide (NoDup ks).

Lemma shape_literal fs : keys_ok (map fst fs) = true -> enum_order fs = fs -> Forall (fun kv => json_shape kv.2) fs -> json_shape (JObj fs).
Proof.
  unfold keys_ok. intros [Hk Hd%bool_decide_eq_true]%andb_true_iff He Hv. constructor; [|done..]. rewrite Forall_forall. intros kv Hin.
  rewrite forallb_forall in Hk. assert (Hi : In kv.1 (map fst fs)) by (apply in_map; by apply list_elem_of_In).
  apply Hk, andb_true_iff in Hi as [H1 H2]. split; [done|by apply forallb_Forall_nonneg].
Qed.

Lemma shape_map {A} (f : A -> json) l : (forall x, json_shape (f x)) -> json_shape (JArr (map f l)).
Proof. intros Hf. constructor. rewrite Forall_forall. intros v (x & -> & _)%list_elem_of_fmap. apply Hf. Qed.

Lemma shape_strs l : json_shape (strs_json l).
Proof. apply shape_map. constructor. Qed.

Ltac shape :=
  cbn [app optional fmap option_fmap option_map];
  first [ apply shape_strs
        | apply shape_map; intros ?; shape
        | apply shape_literal; [vm_compute; reflexivity|vm_compute; reflexivity|]; repeat (apply Forall_cons_2; [cbn [snd]; shape|]); apply Forall_nil_2
        | solve [constructor]
        | solve [auto with shape]
        | idtac ].

Create HintDb shape.

Lemma shape_target t : json_shape (target_json t).
Proof. unfold target_json. shape. Qed.
#[local] Hint Resolve shape_target : shape.

Lemma shape_direct c : json_shape (direct_config_json c).
Proof. unfold direct_config_json. shape. Qed.

Lemma shape_profile p : json_shape (relay_profile_json p).
Proof. unfold relay_profile_json. shape. Qed.
#[local] Hint Resolve shape_profile : shape.

Lemma shape_binding b : json_shape (relay_binding_json b).
Proof. unfold relay_binding_json. shape. Qed.
#[local] Hint Resolve shape_binding : shape.

Lemma shape_relay c : json_shape (relay_config_json c).
Proof. unfold relay_config_json. destruct (rc_peerEndpoint c), (rc_target c); shape. Qed.

Lemma shape_hop h : json_shape (multihop_config_json h).
Proof.
  assert (Hn : forall n, json_shape (hop_node_json n)) by (intros n; unfold hop_node_json; shape).
  assert (Hh : json_shape (hop_config_json h)).
  { unfold hop_config_json. apply shape_literal; [vm_compute; reflexivity..|]. repeat (apply Forall_cons_2; [cbn [snd]; first [by apply shape_map|shape]|]). apply Forall_nil_2. }
  unfold multihop_config_json. apply shape_literal; [vm_compute; reflexivity..|]. apply Forall_cons_2; [done|apply Forall_nil_2].
Qed.

Lemma shape_runtime a : json_shape (JObj (runtime_fields a)).
Proof.
  assert (Hd : json_shape (driver_json (driver_id (rua_driver a)) (rua_configDigest a) (config_json (rua_driver a)))).
  { unfold driver_json. apply shape_literal; [vm_compute; reflexivity..|]. repeat (apply Forall_cons_2; [cbn [snd]|]); [constructor..| |apply Forall_nil_2].
    destruct (rua_driver a); [apply shape_direct|apply shape_relay|apply shape_hop]. }
  assert (Hr : json_shape (resource_json (rua_resource a))) by (unfold resource_json; shape).
  unfold runtime_fields, assignment_fields. apply shape_literal; [vm_compute; reflexivity..|]. repeat (apply Forall_cons_2; [cbn [snd]; first [done|constructor]|]). apply Forall_nil_2.
Qed.

Lemma shape_tombstone t : json_shape (runtime_tombstone_json t).
Proof. unfold runtime_tombstone_json. shape. Qed.

Lemma shape_snapshot s : json_shape (runtime_snapshot_json s).
Proof.
  unfold runtime_snapshot_json, runtime_body_fields.
  destruct (rus_executionExtension s); cbn [app]; (apply shape_literal; [vm_compute; reflexivity..|]);
    repeat (apply Forall_cons_2; [cbn [snd]; first [apply shape_map; intros ?; first [apply shape_runtime|apply shape_tombstone]|constructor]|]); apply Forall_nil_2.
Qed.

Section Compiled.
Context `{Hashing, !HashingText, Schema RelayProfileConfig, Schema RelayOpen, Schema RelayAssignment, Adp2Schemas, Adp3Schemas, !Adp3DocumentLaw}.

Lemma digest_nonneg v d : digest v = Returns d -> json_text v /\ nonneg d.
Proof using All.
  unfold digest. intros (u & _ & Hd)%bind_Returns. destruct (canonicalize v) as [c|] eqn:E; [|done]. injection Hd as <-.
  split; [by eapply canonical_text|]. apply (Forall_app_2 _ (js "sha256:")); [by apply forallb_Forall_nonneg|apply hash_text].
Qed.

(** What [compileSnapshot] returns is its sorted input with its digest, whatever the input. *)
Lemma compileSnapshot_Returns input s : compileSnapshot input = Returns s ->
  s = snapshot_of input (rus_snapshotDigest s) /\
  withinLease (si_issuedAt input) (si_validUntil input) (leaseSeconds (default DEFAULT_POLICY (si_policy input))) = Returns true.
Proof using All.
  unfold compileSnapshot. intros (hello & _ & (ok & Hok & Hr)%bind_Returns)%bind_Returns. rewrite !guard_seq in Hr. destruct Hr as (->%negb_false_iff & _ & Hr).
  split; [|exact Hok]. apply bind_Returns in Hr as (d & Hd & Hr). rewrite guard_seq in Hr. destruct Hr as [_ Hp].
  destruct (digest_nonneg _ _ Hd) as [Ht Hn]. unfold parseRuntimeMessage in Hp. apply bind_Returns in Hp as (v & Hv & Hs).
  apply parse_printed_only in Hv as ->; [|apply shape_snapshot|].
  - destruct (structure Snapshot_ _) as [s'|] eqn:E; [|done]. apply adp3_document in E as ->. apply seq_unit in Hs as [_ Hs]. by injection Hs as <-.
  - inversion Ht as [| | | | |? Hb]. constructor. apply Forall_app. split; [exact Hb|]. apply Forall_cons_2; [by constructor|apply Forall_nil_2].
Qed.
End Compiled.
