(* ===== verification/SnapshotRegistry.v ===== *)
(** The registry of Snapshot assignment sources
    (apps/control/src/modules/runtime/snapshot-assignments.ts).

    The constructor checks the declarations of the sources and gives every pair of a
    native driver and a role to at most one of them; [merge] joins the Direct
    Assignments of a Node with what the sources contribute.  A source is a component
    of its own: its [collect] is a field of the record, a function that may throw.
    The tests on the dynamic shape of a declaration that its type already guarantees
    ([Array.isArray], [typeof ... === 'function']) always pass and are left out. *)

From S2P Require Import Prelude.
From S2P Require Import JsString.
From S2P Require Import JsValue.
From S2P Require Import Primitives.
From S2P Require Import Json.
From S2P Require Import Forward.
From S2P Require Import Types.
From S2P Require Import Validate.
From S2P Require Import Relay.
From S2P Require Import Multihop.
From S2P Require Import Adp3.
From S2P Require Import Planner.

Local Open Scope Z_scope.

Record SnapshotAssignmentContext := MkContext { ctx_nodeId : jsstr; ctx_includeAccepted : bool }.
Record SnapshotContribution := MkContribution { con_nodeId : jsstr; con_assignments : list RuntimeAssignment }.
Record AssignmentDriverDeclaration := MkDeclaration { add_id : jsstr; add_schemaVersion : Z; add_roles : list jsstr }.

Record SnapshotAssignmentSource (Tx : Type) := MkSource {
  src_id : jsstr; src_drivers : list AssignmentDriverDeclaration;
  src_collect : Tx -> SnapshotAssignmentContext -> outcome SnapshotContribution;
}.
Arguments MkSource {Tx}. Arguments src_id {Tx}. Arguments src_drivers {Tx}. Arguments src_collect {Tx}.

Record RegisteredSource (Tx : Type) := MkRegistered {
  reg_id : jsstr; reg_bindings : list jsstr;
  reg_collect : Tx -> SnapshotAssignmentContext -> outcome SnapshotContribution;
}.
Arguments MkRegistered {Tx}. Arguments reg_id {Tx}. Arguments reg_bindings {Tx}. Arguments reg_collect {Tx}.

(** [nativeRoles] *)
Definition nativeRoles (driver : jsstr) : option (list jsstr) :=
  if str_eqb driver (js "native.relay.v1") then Some [js "relay-ingress"; js "relay-egress"] else
  if str_eqb driver (js "native.multihop.v1")
  then Some [js "multihop-ingress"; js "multihop-transit"; js "multihop-egress"] else None.

(** [`${driver.id}/${schemaVersion}/${role}`] *)
Definition binding_key (driver : jsstr) (schemaVersion : Z) (role : jsstr) : jsstr :=
  slash (slash driver (num_to_string schemaVersion)) role.

(** The loop over [driver.roles]; the state is [owned] and [bindings]. *)
Definition claim_role (d : AssignmentDriverDeclaration) (roles : list jsstr) (st : list jsstr * list jsstr) (role : jsstr)
    : outcome (list jsstr * list jsstr) :=
  let '(owned, bindings) := st in
  let binding := binding_key (add_id d) (add_schemaVersion d) role in
  _ ← throw_if (negb (includes roles role)) "Error" "Unsupported Snapshot assignment role declaration";
  _ ← throw_if (includes owned binding) "Error" "Duplicate Snapshot assignment driver/role ownership";
  Returns (binding :: owned, bindings ++ [binding]).

(** The loop over [source.drivers]; the state is [owned], [drivers] and [bindings]. *)
Definition claim_driver (st : list jsstr * list jsstr * list jsstr) (d : AssignmentDriverDeclaration)
    : outcome (list jsstr * list jsstr * list jsstr) :=
  let '(owned, drivers, bindings) := st in
  match nativeRoles (add_id d) with
  | None => Throws (Exn "Error" "Unsupported Snapshot assignment driver declaration")
  | Some roles =>
      _ ← throw_if (negb (add_schemaVersion d =? 1) || (length (add_roles d) =? 0)%nat)
            "Error" "Unsupported Snapshot assignment driver declaration";
      _ ← throw_if (includes drivers (add_id d)) "Error" "Duplicate Snapshot assignment driver declaration";
      '(owned', bindings') ← fold_each (claim_role d roles) (add_roles d) (owned, bindings);
      Returns (owned', add_id d :: drivers, bindings')
  end.

Section Registry.
Context {Tx : Type}.

(** One source of the constructor's [map]; the state is [ids], [owned] and the sources
    registered so far. *)
Definition register (st : list jsstr * list jsstr * list (RegisteredSource Tx)) (source : SnapshotAssignmentSource Tx)
    : outcome (list jsstr * list jsstr * list (RegisteredSource Tx)) :=
  let '(ids, owned, registered) := st in
  _ ← throw_if (negb (is_id (src_id source)) || (length (src_drivers source) =? 0)%nat)
        "Error" "Invalid Snapshot assignment source declaration";
  _ ← throw_if (includes ids (src_id source)) "Error" "Duplicate Snapshot assignment source ID";
  '(owned', _, bindings) ← fold_each claim_driver (src_drivers source) (owned, [], []);
  Returns (src_id source :: ids, owned', registered ++ [MkRegistered (src_id source) bindings (src_collect source)]).

Definition new_SnapshotAssignmentRegistry (sources : list (SnapshotAssignmentSource Tx))
    : outcome (list (RegisteredSource Tx)) :=
  '(_, _, registered) ← fold_each register sources ([], [], []);
  Returns (sort_by (fun a b => str_leb (reg_id a) (reg_id b)) registered).

(** The result and the three sets of [merge]. *)
Record Merged := MkMerged {
  mg_result : list RuntimeAssignment; mg_ids : list jsstr; mg_logical : list jsstr; mg_physical : list jsstr;
}.

Definition assignment_binding (a : RuntimeAssignment) : jsstr :=
  binding_key (js (driver_id (rua_driver a))) 1 (role_name (rua_role a)).

(** The closure [append]: without [bindings] only Direct Assignments pass. *)
Definition append (bindings : option (list jsstr)) (st : Merged) (a : RuntimeAssignment) : outcome Merged :=
  _ ← throw_if (negb (is_id (rua_assignmentId a)) || negb (is_id (rua_forwardId a)) ||
                match bindings with
                | Some owned => negb (includes owned (assignment_binding a))
                | None => negb (bool_decide (rua_role a = direct)) ||
                          negb (bool_decide (driver_id (rua_driver a) = "native.direct.v1"))
                end)
        "INTEGRITY_FAILURE" "Assignment differs from its registered source ownership";
  _ ← throw_if (includes (mg_ids st) (rua_assignmentId a) || includes (mg_logical st) (runtime_logical a) ||
                includes (mg_physical st) (runtime_slot a))
        "RESOURCE_CONFLICT" "Duplicate Snapshot assignment or physical resource";
  Returns (MkMerged (mg_result st ++ [a]) (rua_assignmentId a :: mg_ids st)
                    (runtime_logical a :: mg_logical st) (runtime_slot a :: mg_physical st)).

(** The body of [for (const source of this.sources)]. *)
Definition collect_source (tx : Tx) (context : SnapshotAssignmentContext) (st : Merged) (source : RegisteredSource Tx)
    : outcome Merged :=
  contribution ← reg_collect source tx context;
  _ ← throw_if (negb (str_eqb (con_nodeId contribution) (ctx_nodeId context)))
        "INTEGRITY_FAILURE" "Snapshot contribution belongs to another Node or has invalid shape";
  fold_each (append (Some (reg_bindings source))) (con_assignments contribution) st.

Definition merge (sources : list (RegisteredSource Tx)) (tx : Tx) (input : SnapshotAssignmentContext)
    (direct : list RuntimeAssignment) : outcome (list RuntimeAssignment) :=
  _ ← throw_if (negb (is_id (ctx_nodeId input))) "INTEGRITY_FAILURE" "Valid Snapshot assignment context required";
  st ← fold_each (append None) direct (MkMerged [] [] [] []);
  st ← fold_each (collect_source tx input) sources st;
  Returns (sort_by by_assignmentId (mg_result st)).
End Registry.

(** ** What the constructor guarantees *)

(** Ownership keys are those of the native drivers and roles. *)
Definition native_binding (b : jsstr) : Prop :=
  exists driver roles role, nativeRoles driver = Some roles /\ role ∈ roles /\ b = binding_key driver 1 role.

Record registry_ok {Tx} (sources : list (SnapshotAssignmentSource Tx)) (reg : list (RegisteredSource Tx)) : Prop := {
  rg_sources : map (fun r => (reg_id r, reg_collect r)) reg ≡ₚ map (fun s => (src_id s, src_collect s)) sources;
  rg_sorted : StronglySorted str_lt (map reg_id reg);
  rg_native : Forall (fun r => Forall native_binding (reg_bindings r)) reg;
  rg_owned : NoDup (concat (map reg_bindings reg));
}.

Lemma claim_roles d roles l st st' : nativeRoles (add_id d) = Some roles -> add_schemaVersion d = 1 ->
  fold_each (claim_role d roles) l st = Returns st' ->
  exists new, Forall native_binding new /\ st'.1 = rev new ++ st.1 /\ st'.2 = st.2 ++ new /\ fresh_from st.1 new.
Proof.
  intros Hr Hv. revert st. induction l as [|role r IH]; intros st; cbn.
  - intros [= <-]. exists []. rewrite app_nil_r. split_and!; [constructor|done|done|apply fresh_from_nil].
  - destruct st as [owned bindings]. intros (st1 & Hc & Hrest)%bind_Returns.
    unfold claim_role in Hc. autorewrite with guards in Hc. destruct Hc as (Hin & Hfresh & ->).
    apply IH in Hrest as (new & HF & Ho & Hb & Hn). exists (binding_key (add_id d) (add_schemaVersion d) role :: new).
    cbn in *. rewrite Ho, Hb, <- !app_assoc. split_and!; [|done|done|by apply fresh_from_cons].
    constructor; [|done]. rewrite Hv. unfold native_binding. eauto 6.
Qed.

Lemma fresh_from_app {K} (seen a b : list K) :
  fresh_from seen (a ++ b) <-> fresh_from seen a /\ fresh_from (rev a ++ seen) b.
Proof.
  unfold fresh_from. rewrite NoDup_app. setoid_rewrite elem_of_app. setoid_rewrite <- Permutation_rev. naive_solver.
Qed.

Lemma claim_drivers l st st' : fold_each claim_driver l st = Returns st' ->
  exists new, Forall native_binding new /\ st'.1.1 = rev new ++ st.1.1 /\ st'.2 = st.2 ++ new /\ fresh_from st.1.1 new.
Proof.
  revert st. induction l as [|d r IH]; intros st; cbn.
  - intros [= <-]. exists []. rewrite app_nil_r. split_and!; [constructor|done|done|apply fresh_from_nil].
  - destruct st as [[owned drivers] bindings]. intros (st1 & Hc & Hrest)%bind_Returns.
    apply IH in Hrest as (new & HF & Ho & Hb & Hn). unfold claim_driver in Hc.
    destruct (nativeRoles (add_id d)) as [roles|] eqn:E; [|done]. rewrite !guard_seq in Hc.
    destruct Hc as (Hv & _ & Hc). autorewrite with guards in Hv. destruct Hv as [Hv _].
    apply bind_Returns in Hc as ([o b] & Hc & [= <-]). apply (claim_roles d roles) in Hc as (new1 & HF1 & Ho1 & Hb1 & Hn1);
      [|done|done]. cbn in *. subst. exists (new1 ++ new). rewrite rev_app_distr, <- !app_assoc.
    split_and!; [by apply Forall_app|done|by rewrite Hb, app_assoc|]. apply fresh_from_app. by split.
Qed.

(** Sorting by a key that does not repeat gives strictly ascending keys. *)
Lemma str_leb_true a b : str_leb a b = true <-> str_lt a b \/ a = b.
Proof.
  unfold str_leb, str_lt. rewrite negb_true_iff. split.
  - intros H. destruct (str_ltb a b) eqn:E; [by left|]. right. by apply str_ltb_total.
  - intros [H| ->]; [by apply str_ltb_asym|apply str_ltb_irrefl].
Qed.

Lemma sort_by_strict {A} (key : A -> jsstr) l :
  NoDup (map key l) -> StronglySorted str_lt (map key (sort_by (fun a b => str_leb (key a) (key b)) l)).
Proof.
  set (le := fun a b => str_leb (key a) (key b)). intros HN.
  assert (HN' : NoDup (map key (sort_by le l))) by (by rewrite (sort_by_perm le l)).
  assert (HS : StronglySorted (fun a b => le a b = true) (sort_by le l)).
  { apply Sorted_StronglySorted.
    - intros a b c. unfold le. rewrite !str_leb_true. intros [H1|E1] [H2|E2]; rewrite ?E1, <- ?E2; auto.
      left. by etransitivity.
    - apply sort_by_sorted. unfold le. intros a b H%str_leb_false. apply str_leb_true. by left. }
  revert HN'. induction HS as [|x r HS IH HF]; cbn; [constructor|]. intros [Hx Hr]%NoDup_cons.
  constructor; [by apply IH|]. apply Forall_map, Forall_forall. intros y Hy. rewrite Forall_forall in HF.
  specialize (HF y Hy). apply str_leb_true in HF as [?|E]; [done|]. destruct Hx. rewrite E.
  apply list_elem_of_fmap. eauto.
Qed.

Section RegistrySpec.
Context {Tx : Type}.

Lemma registered (sources : list (SnapshotAssignmentSource Tx)) st st' :
  fold_each register sources st = Returns st' ->
  exists new, map (fun r => (reg_id r, reg_collect r)) new = map (fun s => (src_id s, src_collect s)) sources /\
    st'.2 = st.2 ++ new /\ Forall (fun r => Forall native_binding (reg_bindings r)) new /\
    fresh_from st.1.1 (map reg_id new) /\ fresh_from st.1.2 (concat (map reg_bindings new)).
Proof using.
  revert st. induction sources as [|s r IH]; intros st; cbn.
  - intros [= <-]. exists []. rewrite app_nil_r. split_and!; [done|done|constructor|apply fresh_from_nil..].
  - destruct st as [[ids owned] reg]. intros (st1 & Hc & Hrest)%bind_Returns.
    apply IH in Hrest as (new & Hm & Hs & HF & Hi & Ho). unfold register in Hc. rewrite !guard_seq in Hc.
    destruct Hc as (_ & Hfresh%includes_false & Hc). apply bind_Returns in Hc as ([[o d] b] & Hc & [= <-]).
    apply claim_drivers in Hc as (nb & HF1 & Ho1 & Hb1 & Hn1). cbn in *. subst.
    exists (MkRegistered (src_id s) nb (src_collect s) :: new). cbn. rewrite Hs, <- app_assoc, Hm.
    split_and!; [done|done|by constructor|by apply fresh_from_cons|]. apply fresh_from_app. by split.
Qed.

Lemma registry_built (sources : list (SnapshotAssignmentSource Tx)) (reg : list (RegisteredSource Tx)) :
  new_SnapshotAssignmentRegistry sources = Returns reg -> registry_ok sources reg.
Proof using.
  unfold new_SnapshotAssignmentRegistry. intros ([[i o] l] & Hf & [= <-])%bind_Returns.
  apply registered in Hf as (new & Hm & E & HF & Hi & Ho). cbn in E, Hi, Ho. subst.
  apply fresh_from_start in Hi, Ho.
  pose proof (sort_by_perm (fun a b : RegisteredSource Tx => str_leb (reg_id a) (reg_id b)) new) as HP. split.
  - rewrite HP. by rewrite Hm.
  - by apply (sort_by_strict reg_id).
  - by rewrite HP.
  - revert Ho. rewrite <- !flat_map_concat_map. apply NoDup_Permutation_proper, Permutation_flat_map. by symmetry.
Qed.

(** A registry has one owner per driver and role: when the constructor accepts the
    declarations, the registered sources are the declared ones in strictly ascending
    order of their ids, every ownership key is that of a native driver at schema
    version 1 with one of its roles, and no key belongs to two sources or to one source
    twice. *)
Theorem registry_owners (sources : list (SnapshotAssignmentSource Tx)) (reg : list (RegisteredSource Tx)) :
  new_SnapshotAssignmentRegistry sources = Returns reg -> registry_ok sources reg.
Proof using. apply registry_built. Qed.
End RegistrySpec.

(** ** What [merge] guarantees *)

(** Role and driver belong together. *)
Definition role_matches (a : RuntimeAssignment) : Prop :=
  match rua_role a, rua_driver a with
  | direct, DirectDriver _ | relay _, RelayDriver _ => True
  | (multihop_ingress | multihop_transit | multihop_egress), MultihopDriver _ => True
  | _, _ => False
  end.

Definition ids_ok (a : RuntimeAssignment) : Prop := is_id (rua_assignmentId a) = true /\ is_id (rua_forwardId a) = true.

(** [a] may be appended with these ownership keys. *)
Definition owned_by (bindings : option (list jsstr)) (a : RuntimeAssignment) : Prop :=
  ids_ok a /\ match bindings with
              | Some owned => assignment_binding a ∈ owned
              | None => rua_role a = direct /\ driver_id (rua_driver a) = "native.direct.v1"
              end.

(** What a source contributes for this Node. *)
Definition contributes {Tx} (tx : Tx) (context : SnapshotAssignmentContext) (source : RegisteredSource Tx)
    (l : list RuntimeAssignment) : Prop :=
  reg_collect source tx context = Returns (MkContribution (ctx_nodeId context) l) /\
  Forall (owned_by (Some (reg_bindings source))) l.

(** No id, no Forward/protocol/role and no physical socket occurs twice. *)
Definition conflict_free (l : list RuntimeAssignment) : Prop :=
  NoDup (map rua_assignmentId l) /\
  NoDup (map (fun a => (rua_forwardId a, rua_protocol a, rua_role a)) l) /\
  NoDup (map (fun a => (res_protocol (rua_resource a), res_port (rua_resource a))) l).

Definition next_merged (st : Merged) (a : RuntimeAssignment) : Merged :=
  MkMerged (mg_result st ++ [a]) (rua_assignmentId a :: mg_ids st)
           (runtime_logical a :: mg_logical st) (runtime_slot a :: mg_physical st).

Definition fresh_merged (st : Merged) (a : RuntimeAssignment) : Prop :=
  (rua_assignmentId a ∉ mg_ids st) /\ (runtime_logical a ∉ mg_logical st) /\ (runtime_slot a ∉ mg_physical st).

Lemma append_step bindings st a st' : append bindings st a = Returns st' <->
  st' = next_merged st a /\ (owned_by bindings a /\ fresh_merged st a).
Proof.
  unfold append, owned_by, ids_ok, fresh_merged. destruct bindings; autorewrite with guards; tauto.
Qed.

Lemma appends bindings l st st' : fold_each (append bindings) l st = Returns st' <->
  st' = fold_left next_merged l st /\ Forall (owned_by bindings) l /\ walk fresh_merged next_merged st l.
Proof.
  rewrite (fold_each_walk next_merged _ (fun st a => owned_by bindings a /\ fresh_merged st a))
    by apply append_step. by rewrite walk_and, walk_Forall.
Qed.

Lemma walk_app {S A} (G : S -> A -> Prop) nx l l' s :
  walk G nx s (l ++ l') <-> walk G nx s l /\ walk G nx (fold_left nx l s) l'.
Proof. revert s; induction l as [|x r IH]; intros s; cbn; [naive_solver|]. rewrite IH. tauto. Qed.

Lemma collected {Tx} (tx : Tx) context sources st st' :
  fold_each (collect_source tx context) sources st = Returns st' <->
  exists cs, Forall2 (contributes tx context) sources cs /\
    st' = fold_left next_merged (concat cs) st /\ walk fresh_merged next_merged st (concat cs).
Proof.
  revert st. induction sources as [|s r IH]; intros st; cbn.
  - split; [intros [= <-]; by exists []|]. intros (cs & ->%Forall2_nil_inv_l & -> & _). done.
  - rewrite bind_Returns. setoid_rewrite IH. unfold collect_source at 1. split.
    + intros (st1 & (con & Hc & Hg)%bind_Returns & cs & HF & -> & Hw). rewrite guard_seq, appends in Hg.
      destruct Hg as (Hn & -> & Ho & Hw1). apply negb_false_iff, bool_decide_eq_true in Hn.
      exists (con_assignments con :: cs). cbn. rewrite fold_left_app, walk_app. split_and!; try done.
      constructor; [|done]. split; [|done]. destruct con; cbn in *. congruence.
    + intros (cs' & (c & cs & [Hc Ho] & HF & ->)%Forall2_cons_inv_l & -> & Hw). cbn in *.
      rewrite walk_app in Hw. destruct Hw as [Hw1 Hw2]. exists (fold_left next_merged c st). rewrite Hc.
      cbn [mbind outcome_bind con_nodeId con_assignments]. rewrite guard_seq, appends.
      split_and!; try done; [apply negb_false_iff; by apply bool_decide_eq_true|].
      exists cs. by rewrite fold_left_app.
Qed.

Lemma merged_result l st : mg_result (fold_left next_merged l st) = mg_result st ++ l.
Proof.
  revert st; induction l as [|a r IH]; intros st; cbn; [by rewrite app_nil_r|].
  rewrite IH. cbn. by rewrite <- app_assoc.
Qed.

Lemma runtime_logical_inj x y : runtime_logical x = runtime_logical y <->
  (rua_forwardId x, rua_protocol x, rua_role x) = (rua_forwardId y, rua_protocol y, rua_role y).
Proof.
  unfold runtime_logical. rewrite logical_key_inj by apply role_name_lacks_slash.
  pose proof (role_name_inj (rua_role x) (rua_role y)). split; [|congruence]. intros [= ? ? ?]. f_equal; auto. congruence.
Qed.

Lemma merged_fresh l : walk fresh_merged next_merged (MkMerged [] [] [] []) l <-> conflict_free l.
Proof.
  unfold fresh_merged, conflict_free. rewrite !walk_and.
  rewrite (walk_fresh _ mg_ids rua_assignmentId), (walk_fresh _ mg_logical runtime_logical),
    (walk_fresh _ mg_physical runtime_slot) by done. cbn. rewrite !fresh_from_start.
  rewrite (NoDup_map_iff runtime_logical (fun a => (rua_forwardId a, rua_protocol a, rua_role a))) by apply runtime_logical_inj.
  rewrite (NoDup_map_iff runtime_slot (fun a => (res_protocol (rua_resource a), res_port (rua_resource a)))); [done|].
  intros x y. apply slot_key_inj.
Qed.

Lemma binding_key_inj d v r d' v' r' : lacks ch_slash r -> lacks ch_slash r' ->
  binding_key d v r = binding_key d' v' r' -> d = d' /\ r = r'.
Proof.
  intros Hr Hr' E. apply slash_inj in E as [E ->]; [|done..].
  apply slash_inj in E as [-> _]; [done|apply num_to_string_lacks_slash..].
Qed.

Lemma native_roles_lack driver roles role : nativeRoles driver = Some roles -> role ∈ roles -> lacks ch_slash role.
Proof.
  unfold nativeRoles. destruct (str_eqb _ _); [|destruct (str_eqb _ _); [|done]]; intros [= <-] Hin;
    rewrite !elem_of_cons, elem_of_nil in Hin; destruct_or! Hin; try done; subst; repeat constructor; done.
Qed.

(** An Assignment under a native ownership key has the role and driver of the key. *)
Lemma native_role_matches a : native_binding (assignment_binding a) -> role_matches a.
Proof.
  intros (driver & roles & role & Hn & Hin & E). pose proof (native_roles_lack _ _ _ Hn Hin) as Hl.
  apply binding_key_inj in E as [Ed Er]; [|apply role_name_lacks_slash|done]. subst. unfold role_matches.
  assert (Hroles : includes roles (role_name (rua_role a)) = true) by (by apply includes_true).
  destruct (rua_driver a); [discriminate Hn| |]; injection Hn as <-;
    destruct (rua_role a) as [|[]| | |]; try done; vm_compute in Hroles; done.
Qed.

Lemma owned_matches owned a : Forall native_binding owned -> owned_by (Some owned) a -> role_matches a.
Proof. rewrite Forall_forall. intros HF [_ Ho]. by apply native_role_matches, HF. Qed.

Lemma direct_matches a : owned_by None a -> role_matches a.
Proof. intros [_ [Hr Hd]]. unfold role_matches. rewrite Hr. by destruct (rua_driver a). Qed.

Section MergeSpec.
Context {Tx : Type}.

Lemma merge_iff (reg : list (RegisteredSource Tx)) tx input direct result :
  merge reg tx input direct = Returns result <->
  is_id (ctx_nodeId input) = true /\ Forall (owned_by None) direct /\
  exists cs, Forall2 (contributes tx input) reg cs /\ conflict_free (direct ++ concat cs) /\
    result = sort_by by_assignmentId (direct ++ concat cs).
Proof using.
  unfold merge. rewrite guard_seq, negb_false_iff, bind_Returns. setoid_rewrite appends.
  setoid_rewrite bind_Returns. setoid_rewrite collected. setoid_rewrite <- merged_fresh. setoid_rewrite walk_app. split.
  - intros (? & st & (-> & Ho & Hw) & st' & (cs & HF & -> & Hw') & [= <-]). split_and!; [done|done|].
    exists cs. split_and!; try done. by rewrite !merged_result.
  - intros (? & Ho & cs & HF & [Hw Hw'] & ->). split; [done|]. eexists. split; [done|]. eexists. split; [eauto|].
    by rewrite !merged_result.
Qed.

(** Merging Assignments is exact and free of conflicts.  With a registry the
    constructor accepted, [merge] succeeds exactly when the context names a Node, the
    Direct Assignments are Direct, every source answers for this Node with
    Assignments it owns, and no id, no Forward/protocol/role and no physical socket
    occurs twice; the result is then all of them, strictly ascending by id, each with
    a driver that fits its role. *)
Theorem merge_spec (sources : list (SnapshotAssignmentSource Tx)) (reg : list (RegisteredSource Tx)) (tx : Tx)
    (input : SnapshotAssignmentContext) (direct : list RuntimeAssignment) :
  new_SnapshotAssignmentRegistry sources = Returns reg ->
  ((exists result, merge reg tx input direct = Returns result) <->
   is_id (ctx_nodeId input) = true /\ Forall (owned_by None) direct /\
   exists cs, Forall2 (contributes tx input) reg cs /\ conflict_free (direct ++ concat cs)) /\
  (forall result, merge reg tx input direct = Returns result ->
   exists cs, Forall2 (contributes tx input) reg cs /\ result ≡ₚ direct ++ concat cs /\ conflict_free result /\
     StronglySorted str_lt (map rua_assignmentId result) /\ Forall role_matches result).
Proof using.
  intros Hreg%registry_built. setoid_rewrite merge_iff. split; [naive_solver|].
  intros result (_ & Ho & cs & HF & Hc & ->). exists cs.
  pose proof (sort_by_perm by_assignmentId (direct ++ concat cs)) as HP. split_and!; try done.
  - destruct Hc as (? & ? & ?). unfold conflict_free. by rewrite HP.
  - apply (sort_by_strict rua_assignmentId), Hc.
  - rewrite HP. apply Forall_app. split; [eapply Forall_impl; [exact Ho|]; intros; by apply direct_matches|].
    apply Forall_concat. pose proof (rg_native _ _ Hreg) as Hn. clear -HF Hn.
    induction HF as [|s c r cs [_ Hs] _ IH]; constructor.
    + inversion Hn. eapply Forall_impl; [exact Hs|]. intros. by eapply owned_matches.
    + apply IH. by inversion Hn.
Qed.
End MergeSpec.

(** ** A concrete registry *)

Definition example_sources : list (SnapshotAssignmentSource unit) :=
  [MkSource (js "relay") [MkDeclaration (js "native.relay.v1") 1 [js "relay-ingress"; js "relay-egress"]]
     (fun _ context => Returns (MkContribution (ctx_nodeId context) [example_runtime_relay]));
   MkSource (js "multihop") [MkDeclaration (js "native.multihop.v1") 1 [js "multihop-transit"]]
     (fun _ context => Returns (MkContribution (ctx_nodeId context) []))].

Lemma registry_owners_witness : exists reg, registry_ok example_sources reg /\ map reg_id reg = [js "multihop"; js "relay"].
Proof.
  destruct (new_SnapshotAssignmentRegistry example_sources) as [reg|e] eqn:E; [|discriminate E].
  exists reg. split; [exact (registry_owners example_sources reg E)|]. injection E as <-. reflexivity.
Defined.

Lemma merge_spec_witness : exists reg result, merge reg tt (MkContext (js "n1") true) [example_runtime_direct] = Returns result /\
  map rua_assignmentId result = [js "a1"; js "a2"] /\ Forall role_matches result.
Proof.
  destruct (new_SnapshotAssignmentRegistry example_sources) as [reg|e] eqn:E; [|discriminate E].
  destruct (merge reg tt (MkContext (js "n1") true) [example_runtime_direct]) as [result|e] eqn:M.
  2: { exfalso. injection E as <-. vm_compute in M. discriminate M. }
  exists reg, result. split; [exact M|]. split.
  - injection E as <-. vm_compute in M. injection M as <-. reflexivity.
  - destruct (proj2 (merge_spec example_sources reg tt (MkContext (js "n1") true) [example_runtime_direct] E) result M)
      as (cs & _ & _ & _ & _ & HF). exact HF.
Defined.
