(* ===== verification/RelayPlan.v ===== *)
(** The two-Node Relay planner (apps/control/src/modules/runtime/relay-planner.ts and
    relay-plan.ts): from an enabled Relay Forward, the facts of its two Nodes, the locked
    Profile, the egress endpoint and the exclusive reservations it compiles one
    prepared Assignment per Node and protocol.

    The documents that are digested or validated are printed in the field order of
    their interface; canonicalisation and validation do not depend on it. *)

From S2P Require Import Prelude.
From S2P Require Import JsString.
From S2P Require Import JsValue.
From S2P Require Import Primitives.
From S2P Require Import Json.
From S2P Require Import Forward.
From S2P Require Import Time.
From S2P Require Import Digest.
From S2P Require Import Types.
From S2P Require Import Cidr.
From S2P Require Import Validate.
From S2P Require Import Schema.
From S2P Require Import Relay.
From S2P Require Import Multihop.
From S2P Require Import Adp3.
From S2P Require Import Probe.
From S2P Require Import TargetPolicy.
From S2P Require Import Endpoint.
From S2P Require Import Topology.
From S2P Require Import Planner.

Local Open Scope Z_scope.

Record ResolvedProfile := MkResolvedProfile {
  rpf_profileId : jsstr; rpf_revision : Z; rpf_config : RelayProfileConfig; rpf_configDigest : jsstr;
}.

Record ResolvedEndpoint := MkResolvedEndpoint { rse_nodeId : jsstr; rse_revision : Z; rse_config : RelayEndpoint }.

(** [RelayResource] of relay-planner.ts *)
Record PlanResource := MkPlanResource {
  prs_nodeId : jsstr; prs_role : PathRole; prs_forwardProtocol : NetworkProtocol;
  prs_physicalProtocol : NetworkProtocol; prs_address : jsstr; prs_port : Z;
}.

#[export] Instance PlanResource_eq_dec : EqDecision PlanResource.
Proof. solve_decision. Defined.

(** The stored endpoint as the untyped value that [parseRelayEndpoint] reads again. *)
Definition endpoint_jsv (e : RelayEndpoint) : jsv :=
  Obj [(js "listenAddress", Str (re_listenAddress e)); (js "advertisedHost", Str (re_advertisedHost e));
       (js "allowedTcpPorts", Arr (map (fun p => Num (NInt p)) (re_allowedTcpPorts e)))].

Definition find_facts (nodes : list AuthorizedNodeFacts) (nodeId : jsstr) : option AuthorizedNodeFacts :=
  find (fun n => str_eqb (nf_nodeId n) nodeId) nodes.

Definition relay_capabilities (s : ForwardSpec) : list jsstr :=
  [js "native.relay.v1"; js "adp.3"; js "relay.wire.1"] ++ map protocol_name (protocols s).

(** [`${nodeId}/${physicalProtocol}/${port}`] *)
Definition resource_key (r : PlanResource) : jsstr :=
  slash (slash (prs_nodeId r) (protocol_name (prs_physicalProtocol r))) (num_to_string (prs_port r)).

(** The body of the loop over the protocols. *)
Definition relay_resources (s : ForwardSpec) (ingress egress : AuthorizedNodeFacts) (endpoint : RelayEndpoint)
    (egressPorts : NetworkProtocol -> option Z) (resources : list PlanResource) (p : NetworkProtocol)
    : outcome (list PlanResource) :=
  match egressPorts p with
  | Some port =>
      _ ← throw_if (negb (is_port port) || negb (includes (re_allowedTcpPorts endpoint) port))
            "RESOURCE_CONFLICT" "Authorized TLS port required";
      Returns (resources ++
        [MkPlanResource (nf_nodeId ingress) p_ingress p p (address (ingress_listen s)) (listen_port (ingress_listen s));
         MkPlanResource (nf_nodeId egress) p_egress p tcp (re_listenAddress endpoint) port])
  | None => Throws (Exn "RESOURCE_CONFLICT" "Authorized TLS port required")
  end.

Section Resources.
Context `{Hashing, Schema RelayProfileConfig}.

Definition compileRelayResources (forward : Forward) (nodes : list AuthorizedNodeFacts) (profile : ResolvedProfile)
    (endpoint : ResolvedEndpoint) (egressPorts : NetworkProtocol -> option Z) : outcome (list PlanResource) :=
  config ← parseRelayMessage ProfileConfig_ (stringify (relay_profile_json (rpf_config profile))) 4096;
  _ ← throw_if (negb (is_counter false (rpf_revision profile))) "INTEGRITY_FAILURE" "Locked Profile integrity differs";
  _ ← (d ← digest_differs (relay_profile_json config) (rpf_configDigest profile);
       throw_if d "INTEGRITY_FAILURE" "Locked Profile integrity differs");
  _ ← parseRelayEndpoint (endpoint_jsv (rse_config endpoint));
  match reparse forward with
  | Err _ => Throws (Exn "INVALID_CONFIG" "Forward is invalid")
  | Ok parsed =>
      let s := spec parsed in
      topology ← requireTwoNodeRelayTopology parsed;
      match transport s, pt_nodes topology with
      | Some t, [first; second] =>
          match find_facts nodes (pn_nodeId first), find_facts nodes (pn_nodeId second) with
          | Some ingress, Some egress =>
              _ ← throw_if (negb (length nodes =? 2)%nat || negb (str_eqb (nf_scopeId ingress) (scopeId forward)) ||
                            negb (str_eqb (nf_scopeId egress) (scopeId forward)))
                    "AUTHORIZATION_DENIED" "Exact same-scope Nodes required";
              _ ← throw_if (negb (str_eqb (rpf_profileId profile) (profileId t)) ||
                            negb (rpf_revision profile =? configRevision t) ||
                            negb (str_eqb (rse_nodeId endpoint) (nf_nodeId egress)) ||
                            negb (is_counter false (rse_revision endpoint)))
                    "AUTHORIZATION_DENIED" "Locked Profile and egress endpoint required";
              _ ← each (fun node => throw_if (existsb (fun c => negb (includes (nf_capabilities node) c)) (relay_capabilities s))
                                      "UNSUPPORTED_CAPABILITY" "Exact ADP/Relay wire capability required") nodes;
              _ ← throw_if (existsb (fun p => negb (includes (rp_protocols config) p)) (protocols s) ||
                            negb (includes (nf_allowedListenerAddresses ingress) (address (ingress_listen s))) ||
                            negb (includes (nf_allowedPorts ingress) (listen_port (ingress_listen s))) ||
                            negb (targetAllowed (host (target s)) egress) ||
                            negb (targetAllowed (re_advertisedHost (rse_config endpoint)) ingress))
                    "AUTHORIZATION_DENIED" "Relay listener or dial policy denied";
              resources ← fold_each (relay_resources s ingress egress (rse_config endpoint) egressPorts) (protocols s) [];
              _ ← throw_if (negb (distinct (map resource_key resources)))
                    "RESOURCE_CONFLICT" "Internal TLS sockets require distinct physical resources";
              Returns resources
          | _, _ => Throws (Exn "AUTHORIZATION_DENIED" "Exact same-scope Nodes required")
          end
      | _, _ => Throws (Exn "UNSUPPORTED_CAPABILITY" "Locked Relay Transport required")
      end
  end.
End Resources.

(** ** The plan *)

Record PeerCredential := MkPeerCredential { pc_fingerprint : jsstr; pc_validUntil : Z }.

Record RelayNodeExecutionFacts := MkExecutionFacts {
  xf_facts : AuthorizedNodeFacts; xf_sessionEpoch : Z; xf_credentialUntil : Z; xf_peers : list PeerCredential;
}.

Record ReservedRelayResource := MkReservedRelay {
  rr_resource : PlanResource; rr_forwardId : jsstr; rr_deploymentGeneration : Z; rr_bindingFence : Z;
}.

Record PlannedNode := MkPlannedNode { pnd_nodeId : jsstr; pnd_sessionEpoch : Z; pnd_assignments : list RuntimeAssignment }.

Record RelayPreparedPlan := MkPreparedPlan {
  rpp_path : option (list jsstr); rpp_endpointRevisions : option (list (jsstr * Z));
  rpp_forwardId : jsstr; rpp_forwardRevision : Z; rpp_deploymentGeneration : Z; rpp_endpointRevision : Z;
  rpp_authorizationUntil : Z; rpp_nodes : list PlannedNode; rpp_planDigest : jsstr;
}.

Record RelayPlanInput := MkRelayPlanInput {
  rpi_forward : Forward; rpi_nodes : list RelayNodeExecutionFacts; rpi_profile : ResolvedProfile;
  rpi_endpoint : ResolvedEndpoint; rpi_reservations : list ReservedRelayResource;
  rpi_issuedAt : jsstr; rpi_drainTimeoutSeconds : Z;
}.

(** [Date.parse(text)] of a UTC instant: the engine keeps three fractional digits. *)
Definition Date_text (text : jsstr) : jsnum_opt :=
  '(y, mo, d, h, mi, sec, f) ← scan_instant text;
  t ← Date_parse y mo d h mi sec;
  let ms := of_base 10 (take 3 (padEnd 3 f)) in
  if (h =? 24) && negb (ms =? 0) then None else Some (t * 1000 + ms).

Definition is_safe_integer (z : Z) : bool := Z.abs z <=? MAX_COUNTER.

(** [/^sha256:[0-9a-f]{64}$/] *)
Definition is_lower_hex (c : Z) : bool := is_digit c || ch_in 97 102 c.
Definition is_fingerprint (s : jsstr) : bool :=
  str_eqb (take 7 s) (js "sha256:") && (length s =? 71)%nat && forallb is_lower_hex (drop 7 s).

Definition find_node (nodes : list RelayNodeExecutionFacts) (nodeId : jsstr) : option RelayNodeExecutionFacts :=
  find (fun n => str_eqb (nf_nodeId (xf_facts n)) nodeId) nodes.

Definition node_id_of (n : RelayNodeExecutionFacts) : jsstr := nf_nodeId (xf_facts n).

(** The loop that checks the authority of both Nodes and takes its earliest end. *)
Definition check_authority (now : jsnum_opt) (until : Z) (node : RelayNodeExecutionFacts) : outcome Z :=
  _ ← throw_if (negb (is_counter false (xf_sessionEpoch node)) || negb (is_safe_integer (xf_credentialUntil node)) ||
                n_le (Some (xf_credentialUntil node)) now || (length (xf_peers node) <? 1)%nat || (2 <? length (xf_peers node))%nat)
        "AUTHORIZATION_DENIED" "Current session and bounded peer authority required";
  _ ← throw_if (negb (distinct (map pc_fingerprint (xf_peers node))) ||
                existsb (fun peer => negb (is_fingerprint (pc_fingerprint peer)) ||
                                     negb (is_safe_integer (pc_validUntil peer)) ||
                                     n_le (Some (pc_validUntil peer)) now) (xf_peers node))
        "AUTHORIZATION_DENIED" "Valid unique peer credentials required";
  Returns (fold_left Z.min (xf_credentialUntil node :: map pc_validUntil (xf_peers node)) until).

Definition egress_slots (p : NetworkProtocol) (reservations : list ReservedRelayResource) : list ReservedRelayResource :=
  List.filter (fun slot => bool_decide (prs_role (rr_resource slot) = p_egress) &&
                           bool_decide (prs_forwardProtocol (rr_resource slot) = p)) reservations.

(** The loop that fills [ports]. *)
Definition egress_port (reservations : list ReservedRelayResource) (p : NetworkProtocol) : outcome (NetworkProtocol * Z) :=
  match egress_slots p reservations with
  | [slot] => Returns (p, prs_port (rr_resource slot))
  | _ => Throws (Exn "RESOURCE_CONFLICT" "Missing or ambiguous internal TLS resource")
  end.

Definition port_of (ports : list (NetworkProtocol * Z)) (p : NetworkProtocol) : option Z :=
  snd <$> find (fun '(q, _) => bool_decide (q = p)) ports.

Definition exact_slots (forwardId : jsstr) (reservations : list ReservedRelayResource) (r : PlanResource)
    : list ReservedRelayResource :=
  List.filter (fun slot => bool_decide (rr_resource slot = r) && str_eqb (rr_forwardId slot) forwardId) reservations.

(** One step of [resources.map]: the reservation of a resource; [generation] is shared. *)
Definition reserve (forwardId : jsstr) (reservations : list ReservedRelayResource)
    (st : option Z * list ReservedRelayResource) (r : PlanResource) : outcome (option Z * list ReservedRelayResource) :=
  match exact_slots forwardId reservations r with
  | [slot] =>
      _ ← throw_if (negb (is_counter false (rr_bindingFence slot)) || negb (is_counter false (rr_deploymentGeneration slot)))
            "RESOURCE_CONFLICT" "Valid exclusive Relay reservation required";
      let generation := default (rr_deploymentGeneration slot) st.1 in
      _ ← throw_if (negb (rr_deploymentGeneration slot =? generation))
            "INTEGRITY_FAILURE" "Relay deployment generation differs across Nodes";
      Returns (Some generation, st.2 ++ [slot])
  | _ => Throws (Exn "RESOURCE_CONFLICT" "Valid exclusive Relay reservation required")
  end.

Definition find_slot (reservations : list ReservedRelayResource) (role : PathRole) (p : NetworkProtocol)
    : option ReservedRelayResource :=
  find (fun slot => bool_decide (prs_role (rr_resource slot) = role) &&
                    bool_decide (prs_forwardProtocol (rr_resource slot) = p)) reservations.

Definition identity_json (nodeId forwardId : jsstr) (p : NetworkProtocol) (role : jsstr) : json :=
  JObj [(js "nodeId", JStr nodeId); (js "forwardId", JStr forwardId);
        (js "protocol", JStr (protocol_name p)); (js "role", JStr role)].

(** [{...assignment, protocolVersion: 3, nodeId, sessionEpoch}] *)
Definition node_document (nodeId : jsstr) (sessionEpoch : Z) (a : RuntimeAssignment) : json :=
  JObj (runtime_fields a ++ [(js "protocolVersion", JInt 3); (js "nodeId", JStr nodeId);
                             (js "sessionEpoch", JInt sessionEpoch)]).

Definition planned_node_json (n : PlannedNode) : json :=
  JObj [(js "nodeId", JStr (pnd_nodeId n)); (js "sessionEpoch", JInt (pnd_sessionEpoch n));
        (js "assignments", JArr (map (fun a => JObj (runtime_fields a)) (pnd_assignments n)))].

(** The plan without its digest. *)
Definition plan_body_json (p : RelayPreparedPlan) : json :=
  JObj ([(js "forwardId", JStr (rpp_forwardId p)); (js "forwardRevision", JInt (rpp_forwardRevision p));
         (js "deploymentGeneration", JInt (rpp_deploymentGeneration p));
         (js "endpointRevision", JInt (rpp_endpointRevision p))] ++
        optional "endpointRevisions" ((fun l => JObj (enum_order (map (fun '(k, v) => (k, JInt v)) l))) <$> rpp_endpointRevisions p) ++
        optional "path" (strs_json <$> rpp_path p) ++
        [(js "authorizationUntil", JInt (rpp_authorizationUntil p));
         (js "nodes", JArr (map planned_node_json (rpp_nodes p)))]).

Definition with_digest (p : RelayPreparedPlan) (d : jsstr) : RelayPreparedPlan :=
  {| rpp_path := rpp_path p; rpp_endpointRevisions := rpp_endpointRevisions p; rpp_forwardId := rpp_forwardId p;
     rpp_forwardRevision := rpp_forwardRevision p; rpp_deploymentGeneration := rpp_deploymentGeneration p;
     rpp_endpointRevision := rpp_endpointRevision p; rpp_authorizationUntil := rpp_authorizationUntil p;
     rpp_nodes := rpp_nodes p; rpp_planDigest := d |}.

Definition by_nodeId (a b : PlannedNode) : bool := str_leb (pnd_nodeId a) (pnd_nodeId b).

Section Plan.
Context `{Hashing, Schema RelayProfileConfig, Schema RelayOpen, Schema RelayAssignment}.

Definition assignmentID (nodeId forwardId : jsstr) (p : NetworkProtocol) (role : jsstr) : outcome jsstr :=
  d ← digest (identity_json nodeId forwardId p role); Returns (js "a:" ++ drop 7 d).

Definition relay_config (role : RelayRole) (binding : RelayBinding) (profile : RelayProfileConfig)
    (node peer : RelayNodeExecutionFacts) (advertisedHost : jsstr) (egressPort : Z) (tgt : TargetEndpoint) : RelayConfig :=
  {| rc_role := role; rc_binding := binding; rc_profile := profile;
     rc_peerFingerprints := sort_by str_leb (map pc_fingerprint (xf_peers peer));
     rc_peerEndpoint := match role with relay_ingress => Some (Target advertisedHost egressPort) | relay_egress => None end;
     rc_target := match role with relay_ingress => None | relay_egress => Some tgt end;
     rc_egressPolicyRevision := nf_egressPolicyRevision (xf_facts node);
     rc_allowedDestinationCidrs := sort_by str_leb (new_Set (nf_allowedDestinationCidrs (xf_facts node)));
     rc_allowMetadataTargets := nf_allowMetadataTargets (xf_facts node) |}.

(** The body of the inner loop: the Assignment of one end, checked against the contract. *)
Definition relay_end (input : RelayPlanInput) (forward : Forward) (generation : Z) (p : NetworkProtocol)
    (profile : RelayProfileConfig) (binding : RelayBinding) (egressPort : Z) (role : RelayRole)
    (node peer : RelayNodeExecutionFacts) (slot : ReservedRelayResource) : outcome RuntimeAssignment :=
  let config := relay_config role binding profile node peer (re_advertisedHost (rse_config (rpi_endpoint input))) egressPort
                  (target (spec forward)) in
  configDigest ← digest (relay_config_json config);
  let assignment := {|
    rua_assignmentId := match role with relay_ingress => rb_ingressAssignmentId binding
                                      | relay_egress => rb_egressAssignmentId binding end;
    rua_forwardId := id forward; rua_forwardRevision := revision forward; rua_deploymentGeneration := generation;
    rua_bindingFence := rr_bindingFence slot; rua_role := relay role; rua_protocol := p; rua_phase := prepared;
    rua_resource := MkRelayResource (prs_address (rr_resource slot)) (prs_port (rr_resource slot))
                                    (prs_physicalProtocol (rr_resource slot));
    rua_configDigest := configDigest; rua_driver := RelayDriver config;
    rua_drainTimeoutSeconds := rpi_drainTimeoutSeconds input |} in
  _ ← parseRelayAssignment (stringify (node_document (node_id_of node) (xf_sessionEpoch node) assignment)) 16384;
  Returns assignment.

(** The body of the loop over the protocols: the ingress and the egress Assignment. *)
Definition relay_pair (input : RelayPlanInput) (forward : Forward) (generation : Z) (profile : RelayProfileConfig)
    (ingress egress : RelayNodeExecutionFacts) (reservations : list ReservedRelayResource) (p : NetworkProtocol)
    : outcome (RuntimeAssignment * RuntimeAssignment) :=
  match find_slot reservations p_ingress p, find_slot reservations p_egress p with
  | Some ingressSlot, Some egressSlot =>
      ingressId ← assignmentID (node_id_of ingress) (id forward) p (js "relay-ingress");
      egressId ← assignmentID (node_id_of egress) (id forward) p (js "relay-egress");
      let binding := {|
        rb_scopeId := scopeId forward; rb_forwardId := id forward; rb_forwardRevision := revision forward;
        rb_deploymentGeneration := generation; rb_ingressNodeId := node_id_of ingress; rb_egressNodeId := node_id_of egress;
        rb_ingressAssignmentId := ingressId; rb_egressAssignmentId := egressId;
        rb_ingressSessionEpoch := xf_sessionEpoch ingress; rb_egressSessionEpoch := xf_sessionEpoch egress;
        rb_ingressFence := rr_bindingFence ingressSlot; rb_egressFence := rr_bindingFence egressSlot;
        rb_profileId := rpf_profileId (rpi_profile input); rb_profileRevision := rpf_revision (rpi_profile input);
        rb_profileDigest := rpf_configDigest (rpi_profile input) |} in
      let port := prs_port (rr_resource egressSlot) in
      ai ← relay_end input forward generation p profile binding port relay_ingress ingress egress ingressSlot;
      ae ← relay_end input forward generation p profile binding port relay_egress egress ingress egressSlot;
      Returns (ai, ae)
  | _, _ => Throws (Exn "TypeError" "Cannot read properties of undefined")
  end.

Definition compileRelayPlan (input : RelayPlanInput) : outcome RelayPreparedPlan :=
  match reparse (rpi_forward input) with
  | Err _ => Throws (Exn "INVALID_CONFIG" "Invalid Forward")
  | Ok forward =>
      let s := spec forward in
      topology ← requireTwoNodeRelayTopology forward;
      _ ← throw_if (negb (enabled s) || negb (bool_decide (is_Some (transport s))))
            "UNSUPPORTED_CAPABILITY" "Enabled two-Node Relay intent required";
      _ ← validateTime (rpi_issuedAt input);
      let now := Date_text (rpi_issuedAt input) in
      _ ← throw_if ((rpi_drainTimeoutSeconds input <? 0) || (300 <? rpi_drainTimeoutSeconds input))
            "INVALID_CONFIG" "Bounded drain timeout required";
      match pn_nodeId <$> pt_nodes topology !! 0%nat, pn_nodeId <$> pt_nodes topology !! 1%nat with
      | Some first, Some second =>
          match find_node (rpi_nodes input) first, find_node (rpi_nodes input) second with
          | Some ingress, Some egress =>
              _ ← throw_if (negb (length (rpi_nodes input) =? 2)%nat || str_eqb (node_id_of ingress) (node_id_of egress))
                    "AUTHORIZATION_DENIED" "Exact two Node facts required";
              authorizationUntil ← fold_each (check_authority now) [ingress; egress] MAX_COUNTER;
              profile ← parseRelayMessage ProfileConfig_ (stringify (relay_profile_json (rpf_config (rpi_profile input)))) 4096;
              ports ← map_each (egress_port (rpi_reservations input)) (protocols s);
              resources ← compileRelayResources forward (map xf_facts (rpi_nodes input)) (rpi_profile input)
                            (rpi_endpoint input) (port_of ports);
              _ ← throw_if (negb (length (rpi_reservations input) =? length resources)%nat)
                    "RESOURCE_CONFLICT" "Exact reserved Relay resource set required";
              '(gen, reservations) ← fold_each (reserve (id forward) (rpi_reservations input)) resources (None, []);
              let generation := default 0 gen in
              pairs ← map_each (relay_pair input forward generation profile ingress egress reservations) (protocols s);
              let plans := [MkPlannedNode (node_id_of ingress) (xf_sessionEpoch ingress) (sort_by by_assignmentId (map fst pairs));
                            MkPlannedNode (node_id_of egress) (xf_sessionEpoch egress) (sort_by by_assignmentId (map snd pairs))] in
              let body := MkPreparedPlan None None (id forward) (revision forward) generation
                            (rse_revision (rpi_endpoint input)) authorizationUntil (sort_by by_nodeId plans) [] in
              planDigest ← digest (plan_body_json body);
              Returns (with_digest body planDigest)
          | _, _ => Throws (Exn "AUTHORIZATION_DENIED" "Exact two Node facts required")
          end
      | _, _ => Throws (Exn "TypeError" "Cannot read properties of undefined")
      end
  end.

(** [list.some(f)] where [f] may throw. *)
Fixpoint some_each {A} (f : A -> outcome bool) (l : list A) : outcome bool :=
  match l with
  | [] => Returns false
  | x :: r => f x ≫= fun b : bool => if b then Returns true else some_each f r
  end.

Definition pins_changed (facts : list RelayNodeExecutionFacts) (a : RuntimeAssignment) : outcome bool :=
  match rua_driver a with
  | RelayDriver config =>
      let peerId := if bool_decide (rua_role a = relay relay_ingress)
                    then rb_egressNodeId (rc_binding config) else rb_ingressNodeId (rc_binding config) in
      match find_node facts peerId with
      | None => Returns true
      | Some peer =>
          pinned ← digest (strs_json (rc_peerFingerprints config));
          current ← digest (strs_json (sort_by str_leb (map pc_fingerprint (xf_peers peer))));
          Returns (negb (str_eqb pinned current))
      end
  | _ => Throws (Exn "TypeError" "Cannot read properties of undefined")
  end.

Definition relayPeerPinsChanged (plan : RelayPreparedPlan) (facts : list RelayNodeExecutionFacts) : outcome bool :=
  some_each (fun node => some_each (pins_changed facts) (pnd_assignments node)) (rpp_nodes plan).
End Plan.

(** ** What a Relay plan is *)

Lemma two_node_topology f t : forward_wf f -> requireTwoNodeRelayTopology f = Returns t ->
  exists first second, sequence (spec f) = [first; second] /\ map pn_nodeId (pt_nodes t) = [first; second] /\ first <> second.
Proof.
  intros Hf. unfold requireTwoNodeRelayTopology. intros (plan & Hp & Ht)%bind_Returns.
  apply compiled_topology in Hp as [_ Hok]; [|done].
  pose proof (to_nodes _ _ Hok) as Hn. pose proof (to_distinct _ _ Hok) as Hd.
  destruct (pt_nodes plan) as [|a [|b [|]]] eqn:E; try done. destruct (_ && _); [|done]. injection Ht as <-.
  rewrite E. cbn in *. exists (pn_nodeId a), (pn_nodeId b). split_and!; [done|done|].
  apply NoDup_cons in Hd as [Hd _]. rewrite list_elem_of_singleton in Hd. done.
Qed.

Definition ingress_resource (s : ForwardSpec) (nodeId : jsstr) (p : NetworkProtocol) : PlanResource :=
  MkPlanResource nodeId p_ingress p p (address (ingress_listen s)) (listen_port (ingress_listen s)).

Definition egress_resource (e : RelayEndpoint) (nodeId : jsstr) (p : NetworkProtocol) (port : Z) : PlanResource :=
  MkPlanResource nodeId p_egress p tcp (re_listenAddress e) port.

(** What the compiled resources are: per protocol the ingress listener and a TLS port of
    the egress endpoint, all on different physical sockets, within both Nodes' policy. *)
Record resources_ok (f : Forward) (nodes : list AuthorizedNodeFacts) (endpoint : ResolvedEndpoint)
    (ports : NetworkProtocol -> option Z) (first second : jsstr) (resources : list PlanResource) : Prop := {
  rk_facts : exists ingress egress, find_facts nodes first = Some ingress /\ find_facts nodes second = Some egress /\
    nf_scopeId ingress = scopeId f /\ nf_scopeId egress = scopeId f /\
    address (ingress_listen (spec f)) ∈ nf_allowedListenerAddresses ingress /\
    listen_port (ingress_listen (spec f)) ∈ nf_allowedPorts ingress /\
    targetAllowed (host (target (spec f))) egress = true /\
    targetAllowed (re_advertisedHost (rse_config endpoint)) ingress = true;
  rk_capable : forall n c, n ∈ nodes -> c ∈ relay_capabilities (spec f) -> c ∈ nf_capabilities n;
  rk_ports : forall p, p ∈ protocols (spec f) -> exists port, ports p = Some port /\
    1 <= port <= 65535 /\ port ∈ re_allowedTcpPorts (rse_config endpoint);
  rk_list : forall r, r ∈ resources <-> exists p, p ∈ protocols (spec f) /\
    (r = ingress_resource (spec f) first p \/
     exists port, ports p = Some port /\ r = egress_resource (rse_config endpoint) second p port);
  rk_sockets : NoDup (map (fun r => (prs_nodeId r, prs_physicalProtocol r, prs_port r)) resources);
}.

Lemma relay_resources_loop s ingress egress e ports l acc resources :
  fold_each (relay_resources s ingress egress e ports) l acc = Returns resources ->
  (forall p, p ∈ l -> exists port, ports p = Some port /\ 1 <= port <= 65535 /\ port ∈ re_allowedTcpPorts e) /\
  forall r, r ∈ resources <-> r ∈ acc \/ exists p, p ∈ l /\
    (r = ingress_resource s (nf_nodeId ingress) p \/
     exists port, ports p = Some port /\ r = egress_resource e (nf_nodeId egress) p port).
Proof.
  revert acc. induction l as [|p l IH]; intros acc; cbn.
  - intros [= <-]. split; [by intros p ?%elem_of_nil|]. intros r. setoid_rewrite elem_of_nil. naive_solver.
  - intros (acc' & Hp & Hrest)%bind_Returns. apply IH in Hrest as [Hports Hlist]. unfold relay_resources in Hp.
    destruct (ports p) as [port|] eqn:E; [|done]. autorewrite with guards in Hp. destruct Hp as ((Hport & Hin) & ->).
    unfold is_port in Hport. apply andb_prop in Hport as [H1%Z.leb_le H2%Z.leb_le]. split.
    + intros q [->|Hq]%elem_of_cons; [eauto|by apply Hports].
    + intros r. rewrite Hlist, elem_of_app, !elem_of_cons, elem_of_nil. setoid_rewrite elem_of_cons.
      unfold ingress_resource, egress_resource. split.
      * intros [[?|[->|[->|[]]]]|(q & Hq & Hr)]; [by left|right; exists p; eauto|right; exists p; eauto 6|right; exists q; auto].
      * intros [?|(q & [->|Hq] & Hr)]; [auto| |right; exists q; auto].
        left. right. destruct Hr as [->|(port' & Ep & ->)]; [auto|]. right. left. congruence.
Qed.

Lemma resource_key_inj r s : resource_key r = resource_key s <->
  (prs_nodeId r, prs_physicalProtocol r, prs_port r) = (prs_nodeId s, prs_physicalProtocol s, prs_port s).
Proof.
  unfold resource_key. split; [|by intros [= -> -> ->]]. intros E.
  apply slash_inj in E as [E Ep]; try apply num_to_string_lacks_slash.
  apply slash_inj in E as [-> Eq]; try apply protocol_lacks_slash.
  apply num_to_string_inj in Ep. apply protocol_name_inj in Eq. congruence.
Qed.

Lemma find_facts_id nodes n facts : find_facts nodes n = Some facts -> nf_nodeId facts = n.
Proof. intros [_ H]%find_some. by apply bool_decide_eq_true in H. Qed.

Section PlanSpec.
Context `{Hashing, Schema RelayProfileConfig, Schema RelayOpen, Schema RelayAssignment}.

Lemma compiled_resources f nodes profile endpoint ports resources : forward_wf f ->
  compileRelayResources f nodes profile endpoint ports = Returns resources ->
  exists first second, sequence (spec f) = [first; second] /\
    resources_ok f nodes endpoint ports first second resources.
Proof using.
  intros Hf. unfold compileRelayResources. intros (config & _ & Hr)%bind_Returns.
  rewrite guard_seq, digest_guard_seq in Hr. destruct Hr as (_ & _ & (ep & _ & Hr)%bind_Returns).
  rewrite (reparse_wf f Hf) in Hr. apply bind_Returns in Hr as (t & Ht & Hr).
  apply two_node_topology in Ht as (first & second & Hseq & Hn & Hd); [|done]. exists first, second. split; [done|].
  destruct (transport (spec f)) as [tr|]; [|done]. destruct (pt_nodes t) as [|a [|b [|]]]; try done.
  cbn in Hn. injection Hn as <- <-.
  destruct (find_facts nodes (pn_nodeId a)) as [ingress|] eqn:Ei; [|done].
  destruct (find_facts nodes (pn_nodeId b)) as [egress|] eqn:Ee; [|done].
  rewrite !guard_seq, seq_unit, guard_seq, each_Returns in Hr.
  destruct Hr as (Hscope & _ & Hcaps & Hpol & (rs & Hloop & Hr)%bind_Returns).
  apply relay_resources_loop in Hloop as [Hports Hlist].
  rewrite (find_facts_id _ _ _ Ei), (find_facts_id _ _ _ Ee) in Hlist.
  autorewrite with guards in Hscope, Hpol, Hr. destruct Hr as [HN ->]. destruct_and! Hscope. destruct_and! Hpol. split.
  - exists ingress, egress. split_and!; done.
  - intros n c Hn Hc. rewrite Forall_forall in Hcaps. specialize (Hcaps n Hn). rewrite throw_if_Returns, existsb_false, Forall_forall in Hcaps.
    specialize (Hcaps c Hc). by autorewrite with guards in Hcaps.
  - done.
  - intros r. rewrite Hlist, elem_of_nil. naive_solver.
  - revert HN. apply NoDup_map_iff. intros x y. symmetry. apply resource_key_inj.
Qed.

(** Relay resources are authorized and exclusive: for a well-formed Forward,
    whatever [compileRelayResources] returns are exactly the public listener on the
    first Node and an allowed TLS port of the endpoint on the second Node for every
    protocol; both Nodes are in the Forward's scope and have every capability, the
    listener is allowed on the first, the target is allowed from the second and the
    endpoint's host from the first, and no two resources share a physical socket. *)
Theorem compileRelayResources_ok (f : Forward) (nodes : list AuthorizedNodeFacts) (profile : ResolvedProfile)
    (endpoint : ResolvedEndpoint) (ports : NetworkProtocol -> option Z) (resources : list PlanResource) :
  forward_wf f -> compileRelayResources f nodes profile endpoint ports = Returns resources ->
  exists first second, sequence (spec f) = [first; second] /\ resources_ok f nodes endpoint ports first second resources.
Proof using. apply compiled_resources. Qed.

(** Both ends of one protocol: exclusive slots of one generation, and configurations
    that name the same binding and pin each other. *)
Record relay_pair_ok (input : RelayPlanInput) (generation : Z) (ingress egress : RelayNodeExecutionFacts)
    (p : NetworkProtocol) (pair : RuntimeAssignment * RuntimeAssignment) : Prop := {
  ro_slots : exists si se port, si ∈ rpi_reservations input /\ se ∈ rpi_reservations input /\
    rr_resource si = ingress_resource (spec (rpi_forward input)) (node_id_of ingress) p /\
    rr_resource se = egress_resource (rse_config (rpi_endpoint input)) (node_id_of egress) p port /\
    (rr_forwardId si, rr_deploymentGeneration si) = (id (rpi_forward input), generation) /\
    (rr_forwardId se, rr_deploymentGeneration se) = (id (rpi_forward input), generation) /\
    (rua_bindingFence pair.1, rua_bindingFence pair.2) = (rr_bindingFence si, rr_bindingFence se) /\
    rua_resource pair.1 = MkRelayResource (prs_address (rr_resource si)) (prs_port (rr_resource si)) p /\
    rua_resource pair.2 = MkRelayResource (prs_address (rr_resource se)) port tcp;
  ro_ends : exists b ci ce, rua_driver pair.1 = RelayDriver ci /\ rua_driver pair.2 = RelayDriver ce /\
    rc_binding ci = b /\ rc_binding ce = b /\
    binding_end relay_ingress b = (node_id_of ingress, xf_sessionEpoch ingress, rua_assignmentId pair.1, rua_bindingFence pair.1) /\
    binding_end relay_egress b = (node_id_of egress, xf_sessionEpoch egress, rua_assignmentId pair.2, rua_bindingFence pair.2) /\
    rc_peerFingerprints ci = sort_by str_leb (map pc_fingerprint (xf_peers egress)) /\
    rc_peerFingerprints ce = sort_by str_leb (map pc_fingerprint (xf_peers ingress)) /\
    rc_peerEndpoint ci = Some (Target (re_advertisedHost (rse_config (rpi_endpoint input))) (res_port (rua_resource pair.2))) /\
    rc_target ce = Some (target (spec (rpi_forward input))) /\
    digests_to (relay_config_json ci) (rua_configDigest pair.1) /\ digests_to (relay_config_json ce) (rua_configDigest pair.2);
  ro_run : (rua_role pair.1, rua_role pair.2) = (relay relay_ingress, relay relay_egress) /\
    (rua_protocol pair.1, rua_protocol pair.2) = (p, p) /\ (rua_phase pair.1, rua_phase pair.2) = (prepared, prepared) /\
    (rua_deploymentGeneration pair.1, rua_deploymentGeneration pair.2) = (generation, generation);
  ro_contract :
    is_ok (parseRelayAssignment (stringify (node_document (node_id_of ingress) (xf_sessionEpoch ingress) pair.1)) 16384) = true /\
    is_ok (parseRelayAssignment (stringify (node_document (node_id_of egress) (xf_sessionEpoch egress) pair.2)) 16384) = true;
}.

Definition authority_until (now : jsnum_opt) (until : Z) (node : RelayNodeExecutionFacts) : Prop :=
  1 <= xf_sessionEpoch node <= MAX_COUNTER /\ until <= xf_credentialUntil node <= MAX_COUNTER /\
  (forall n, now = Some n -> n < xf_credentialUntil node) /\
  (1 <= length (xf_peers node) <= 2)%nat /\ NoDup (map pc_fingerprint (xf_peers node)) /\
  Forall (fun peer => is_fingerprint (pc_fingerprint peer) = true /\ until <= pc_validUntil peer) (xf_peers node).

Record relay_plan_ok (input : RelayPlanInput) (plan : RelayPreparedPlan) (ingress egress : RelayNodeExecutionFacts) : Prop := {
  rp_sequence : sequence (spec (rpi_forward input)) = [node_id_of ingress; node_id_of egress];
  rp_facts : ingress ∈ rpi_nodes input /\ egress ∈ rpi_nodes input /\ NoDup (map node_id_of (rpi_nodes input));
  rp_identity : (rpp_forwardId plan, rpp_forwardRevision plan, rpp_endpointRevision plan) =
    (id (rpi_forward input), revision (rpi_forward input), rse_revision (rpi_endpoint input));
  rp_ends : exists pairs,
    Forall2 (relay_pair_ok input (rpp_deploymentGeneration plan) ingress egress) (protocols (spec (rpi_forward input))) pairs /\
    rpp_nodes plan ≡ₚ
      [MkPlannedNode (node_id_of ingress) (xf_sessionEpoch ingress) (sort_by by_assignmentId (map fst pairs));
       MkPlannedNode (node_id_of egress) (xf_sessionEpoch egress) (sort_by by_assignmentId (map snd pairs))];
  rp_authority : Forall (authority_until (Date_text (rpi_issuedAt input)) (rpp_authorizationUntil plan)) [ingress; egress];
  rp_current : forall now, Date_text (rpi_issuedAt input) = Some now -> now < rpp_authorizationUntil plan;
  rp_digest : digests_to (plan_body_json plan) (rpp_planDigest plan);
}.

Lemma earliest l z : fold_left Z.min l z <= z /\ (forall x, x ∈ l -> fold_left Z.min l z <= x) /\
  (forall n, n < z -> (forall x, x ∈ l -> n < x) -> n < fold_left Z.min l z).
Proof using.
  revert z. induction l as [|x l IH]; intros z; cbn.
  - split_and!; [lia|by intros x ?%elem_of_nil|done].
  - destruct (IH (Z.min z x)) as (A & B & C). split_and!; [lia| |].
    + intros y [->|Hy]%elem_of_cons; [lia|by apply B].
    + intros n Hn Hx. apply C; [|intros; apply Hx; by right]. specialize (Hx x ltac:(left)). lia.
Qed.

Lemma check_authority_ok now until0 node until : check_authority now until0 node = Returns until ->
  until <= until0 /\ authority_until now until node /\ (forall n, now = Some n -> n < until0 -> n < until).
Proof using.
  unfold check_authority. rewrite !guard_seq, Returns_inj_iff. intros (Hg1 & Hg2 & ->).
  autorewrite with guards in Hg1. destruct Hg1 as ((((Hs & Hsafe) & Hnow) & Hlo) & Hhi).
  autorewrite with guards in Hg2. destruct Hg2 as [HN HP]. rewrite existsb_false, Forall_forall in HP.
  destruct (earliest (xf_credentialUntil node :: map pc_validUntil (xf_peers node)) until0) as (A & B & C).
  assert (Hpeer : forall peer, peer ∈ xf_peers node -> is_fingerprint (pc_fingerprint peer) = true /\
    n_le (Some (pc_validUntil peer)) now = false /\
    pc_validUntil peer ∈ xf_credentialUntil node :: map pc_validUntil (xf_peers node)).
  { intros peer Hin. specialize (HP peer Hin). autorewrite with guards in HP. split_and!; try tauto.
    right. apply list_elem_of_fmap. eauto. }
  split_and!; [done| |].
  - unfold authority_until. apply is_counter_bounds in Hs. unfold is_safe_integer in Hsafe. propify.
    split_and!; try lia; [|intros n ->; cbn in Hnow; propify; lia|done|].
    + apply B. left.
    + apply Forall_forall. intros peer Hin. destruct (Hpeer peer Hin) as (? & _ & ?). split; [done|by apply B].
  - intros n -> Hn. apply C; [done|]. intros x [->|Hx]%elem_of_cons; [cbn in Hnow; by propify|].
    apply list_elem_of_fmap in Hx as (peer & -> & Hin). destruct (Hpeer peer Hin) as (_ & Hv & _). cbn in Hv. by propify.
Qed.

Lemma authority_until_weaken now u u' node : u' <= u -> authority_until now u node -> authority_until now u' node.
Proof using.
  unfold authority_until. intros Hu (? & ? & ? & ? & ? & HF). split_and!; try lia; try done.
  eapply Forall_impl; [exact HF|]. cbn. intros peer [? ?]. split; [done|lia].
Qed.

Lemma check_authorities now l until0 until : fold_each (check_authority now) l until0 = Returns until ->
  until <= until0 /\ Forall (authority_until now until) l /\ (forall n, now = Some n -> n < until0 -> n < until).
Proof using.
  revert until0. induction l as [|node r IH]; intros until0; cbn.
  - intros [= <-]. split_and!; [lia|constructor|done].
  - intros (u & (Hle & Ha & Hn)%check_authority_ok & (Hle' & HF & Hn')%IH)%bind_Returns.
    split_and!; [lia| |naive_solver]. constructor; [|done]. by eapply authority_until_weaken.
Qed.

(** Each resource has its one reservation, all of one generation. *)
Lemma reserved forwardId reservations resources st st' :
  fold_each (reserve forwardId reservations) resources st = Returns st' ->
  exists slots, st'.2 = st.2 ++ slots /\
    Forall2 (fun r slot => rr_resource slot = r /\ rr_forwardId slot = forwardId /\ slot ∈ reservations /\
                           st'.1 = Some (rr_deploymentGeneration slot)) resources slots /\
    (forall g, st.1 = Some g -> st'.1 = Some g).
Proof using.
  revert st. induction resources as [|r l IH]; intros [gen acc]; cbn.
  - intros [= <-]. exists []. rewrite app_nil_r. split_and!; [done|constructor|done].
  - intros (st1 & Hr & (slots & Es & HF & Hg)%IH)%bind_Returns. unfold reserve in Hr.
    destruct (exact_slots _ _ _) as [|slot [|]] eqn:E; try done. rewrite !guard_seq, Returns_inj_iff in Hr.
    destruct Hr as (_ & Hgen & ->). cbn in *. apply negb_false_iff, Z.eqb_eq in Hgen.
    exists (slot :: slots). rewrite Es, <- app_assoc. split_and!; [done| |].
    + constructor; [|done]. unfold exact_slots in E. apply filter_singleton in E as (a & b & -> & Hs & _).
      unfold str_eqb in Hs. propify. split_and!; try done; [apply elem_of_app; right; left|].
      rewrite Hgen at 1. by apply Hg.
    + intros g ->. by apply Hg.
Qed.

Lemma find_slot_some reservations role p slot : find_slot reservations role p = Some slot ->
  slot ∈ reservations /\ prs_role (rr_resource slot) = role /\ prs_forwardProtocol (rr_resource slot) = p.
Proof using. unfold find_slot. intros [Hin Hb]%find_some. propify. split_and!; [by apply list_elem_of_In|done|done]. Qed.

Lemma relay_end_ok input f generation p profile binding port role node peer slot a :
  relay_end input f generation p profile binding port role node peer slot = Returns a ->
  let config := relay_config role binding profile node peer (re_advertisedHost (rse_config (rpi_endpoint input))) port (target (spec f)) in
  digests_to (relay_config_json config) (rua_configDigest a) /\
  a = MkRuntimeAssignment (match role with relay_ingress => rb_ingressAssignmentId binding | relay_egress => rb_egressAssignmentId binding end)
        (id f) (revision f) generation (rr_bindingFence slot) (relay role) p prepared
        (MkRelayResource (prs_address (rr_resource slot)) (prs_port (rr_resource slot)) (prs_physicalProtocol (rr_resource slot)))
        (rua_configDigest a) (RelayDriver config) (rpi_drainTimeoutSeconds input) /\
  is_ok (parseRelayAssignment (stringify (node_document (node_id_of node) (xf_sessionEpoch node) a)) 16384) = true.
Proof using.
  unfold relay_end. intros (d & Hd & (ra & Hra & Ha)%bind_Returns)%bind_Returns. apply Returns_inj_iff in Ha as ->.
  cbn zeta. split_and!; [exact Hd|reflexivity|]. by rewrite Hra.
Qed.

Lemma relay_pair_correct input generation profile ingress egress slots ports resources p pair :
  let f := rpi_forward input in
  resources_ok f (map xf_facts (rpi_nodes input)) (rpi_endpoint input) ports (node_id_of ingress) (node_id_of egress) resources ->
  Forall2 (fun r slot => rr_resource slot = r /\ rr_forwardId slot = id f /\ slot ∈ rpi_reservations input /\
                         Some generation = Some (rr_deploymentGeneration slot)) resources slots ->
  relay_pair input f generation profile ingress egress slots p = Returns pair ->
  relay_pair_ok input generation ingress egress p pair.
Proof using.
  intros f Hres HF. unfold relay_pair. subst f.
  destruct (find_slot slots p_ingress p) as [si|] eqn:Ei; [|done].
  destruct (find_slot slots p_egress p) as [se|] eqn:Ee; [|done].
  intros (ii & Hii & (ie & Hie & (ai & Hai & (ae & Hae & Hpair)%bind_Returns)%bind_Returns)%bind_Returns)%bind_Returns.
  apply Returns_inj_iff in Hpair as ->.
  apply relay_end_ok in Hai as (Hdi & Eai & Hci). apply relay_end_ok in Hae as (Hde & Eae & Hce).
  assert (Hslot : forall slot, slot ∈ slots -> rr_resource slot ∈ resources /\ rr_forwardId slot = id (rpi_forward input) /\
                               slot ∈ rpi_reservations input /\ rr_deploymentGeneration slot = generation).
  { intros slot Hin. apply list_elem_of_lookup_1 in Hin as [i Hi].
    destruct (Forall2_lookup_r _ _ _ _ _ HF Hi) as (r & Hr & Er & Ef & Ein & [= Eg]).
    split_and!; [|done|done|done]. rewrite Er. by eapply list_elem_of_lookup_2. }
  apply find_slot_some in Ei as (Hini & Eri & Epi). apply find_slot_some in Ee as (Hine & Ere & Epe).
  destruct (Hslot si Hini) as (Hri & Hfi & Hmi & Hgi). destruct (Hslot se Hine) as (Hre & Hfe & Hme & Hge).
  apply (rk_list _ _ _ _ _ _ _ Hres) in Hri as (q & _ & [E|(port & _ & E)]); rewrite E in Eri, Epi; [|done].
  cbn in Epi. subst q.
  apply (rk_list _ _ _ _ _ _ _ Hres) in Hre as (q & _ & [E'|(port & _ & E')]); rewrite E' in Ere, Epe; [done|].
  cbn in Epe. subst q. rewrite Eai, Eae. split; cbn [fst snd rua_bindingFence rua_resource rua_driver rua_assignmentId
    rua_configDigest rua_role rua_protocol rua_phase rua_deploymentGeneration res_port].
  - exists si, se, port. rewrite E, E'. split_and!; try done; congruence.
  - eexists _, _, _. split_and!; try reflexivity; [exact Hdi|exact Hde].
  - done.
  - by rewrite <- Eai, <- Eae.
Qed.

Lemma find_node_id nodes n node : find_node nodes n = Some node -> node ∈ nodes /\ node_id_of node = n.
Proof using.
  intros [Hin Hb]%find_some. apply bool_decide_eq_true in Hb. split; [by apply list_elem_of_In|done].
Qed.

Lemma two_nodes_NoDup nodes x y : length nodes = 2%nat -> x ∈ nodes -> y ∈ nodes -> node_id_of x <> node_id_of y ->
  NoDup (map node_id_of nodes).
Proof using.
  destruct nodes as [|a [|b [|]]]; try done. rewrite !elem_of_cons, !elem_of_nil. intros _ Hx Hy Hn.
  apply NoDup_cons. split; [|apply NoDup_singleton]. intros E%list_elem_of_singleton. naive_solver.
Qed.

Lemma compiled_plan input plan : forward_wf (rpi_forward input) -> compileRelayPlan input = Returns plan ->
  exists ingress egress, relay_plan_ok input plan ingress egress.
Proof using.
  intros Hf. unfold compileRelayPlan. rewrite (reparse_wf _ Hf). intros (t & Ht & Hr)%bind_Returns.
  apply two_node_topology in Ht as (first & second & Hseq & Hn & Hd); [|done].
  rewrite guard_seq, seq_unit, guard_seq in Hr. destruct Hr as (_ & _ & _ & Hr).
  destruct (pt_nodes t) as [|a [|b [|]]]; try done. cbn in Hn. injection Hn as <- <-. cbn [lookup list_lookup fmap option_fmap option_map] in Hr.
  destruct (find_node _ (pn_nodeId a)) as [ingress|] eqn:Ei; [|done].
  destruct (find_node _ (pn_nodeId b)) as [egress|] eqn:Ee; [|done].
  apply find_node_id in Ei as [Hini Hii]. apply find_node_id in Ee as [Hine Hie]. rewrite <- Hii, <- Hie in Hseq.
  rewrite guard_seq in Hr. destruct Hr as (Hlen & (until & Hu & Hr)%bind_Returns).
  autorewrite with guards in Hlen. destruct Hlen as [Hlen%Nat.eqb_eq Hne].
  apply check_authorities in Hu as (_ & Hauth & Hnow).
  apply bind_Returns in Hr as (profile & _ & (ports & _ & (resources & Hres & Hr)%bind_Returns)%bind_Returns).
  apply compiled_resources in Hres as (f1 & s1 & Hseq' & Hres); [|done].
  rewrite Hseq in Hseq'. injection Hseq' as <- <-. rewrite guard_seq in Hr.
  destruct Hr as (_ & ([gen slots] & Hsl & Hr)%bind_Returns). apply reserved in Hsl as (slots' & Es & HF & _).
  cbn in Es, HF. subst slots'. apply bind_Returns in Hr as (pairs & Hpairs & Hr).
  apply bind_Returns in Hr as (d & Hdig & Hplan). apply Returns_inj_iff in Hplan as ->.
  exists ingress, egress. split; cbn [with_digest rpp_forwardId rpp_forwardRevision rpp_endpointRevision rpp_authorizationUntil].
  - done.
  - split_and!; [done|done|]. by apply (two_nodes_NoDup _ ingress egress).
  - done.
  - exists pairs. split; [|cbn [rpp_nodes]; apply sort_by_perm]. apply map_each_Returns in Hpairs.
    eapply Forall2_impl; [exact Hpairs|]. intros p pair Hp. eapply relay_pair_correct; [exact Hres| |exact Hp].
    eapply Forall2_impl; [exact HF|]. cbn. intros r slot (? & ? & ? & ->). done.
  - done.
  - intros now En. apply (Hnow now En). apply Forall_cons in Hauth as ((_ & ? & Hc & _) & _). specialize (Hc now En). lia.
  - exact Hdig.
Qed.

(** The two ends of a Relay agree: when [compileRelayPlan] returns a plan for a
    well-formed Forward, the plan has one prepared Assignment per protocol on each of
    the two Nodes of the path; both carry the same binding, which names the two Nodes,
    their sessions, Assignments and fences; each end pins exactly the current peer
    credentials of the other, the ingress dials the port reserved on the egress, the
    fences come from exclusive reservations of one generation, every Assignment was
    accepted by the Relay contract, and the plan's authority is current and ends no
    later than any credential it rests on. *)
Theorem compileRelayPlan_ok (input : RelayPlanInput) (plan : RelayPreparedPlan) :
  forward_wf (rpi_forward input) -> compileRelayPlan input = Returns plan ->
  exists ingress egress, relay_plan_ok input plan ingress egress.
Proof using. apply compiled_plan. Qed.


Lemma some_each_true {A} (f : A -> outcome bool) l : some_each f l = Returns true -> exists x, x ∈ l /\ f x = Returns true.
Proof using.
  induction l as [|x r IH]; cbn; [done|]. destruct (f x) as [[]|] eqn:E; cbn; [|intros (y & Hy & Hf)%IH|done].
  - intros _. exists x. split; [left|done].
  - exists y. split; [by right|done].
Qed.

(** The pins of a Relay Assignment are those of the peer its binding names. *)
Definition pins_current (facts : list RelayNodeExecutionFacts) (a : RuntimeAssignment) : Prop :=
  exists c peer, rua_driver a = RelayDriver c /\
    find_node facts (if bool_decide (rua_role a = relay relay_ingress) then rb_egressNodeId (rc_binding c)
                     else rb_ingressNodeId (rc_binding c)) = Some peer /\
    rc_peerFingerprints c = sort_by str_leb (map pc_fingerprint (xf_peers peer)).

Lemma pins_current_unchanged facts a : pins_current facts a -> pins_changed facts a <> Returns true.
Proof using.
  intros (c & peer & Hd & Hp & Hf). unfold pins_changed. rewrite Hd. cbn zeta. rewrite Hp, Hf.
  destruct (digest _) as [d|]; cbn; [|done]. unfold str_eqb. by rewrite bool_decide_eq_true_2.
Qed.

Lemma find_node_own nodes node : NoDup (map node_id_of nodes) -> node ∈ nodes -> find_node nodes (node_id_of node) = Some node.
Proof using.
  intros HN Hin. unfold find_node. induction nodes as [|n r IH]; [by apply elem_of_nil in Hin|]. cbn.
  fold (node_id_of n). cbn in HN. apply NoDup_cons in HN as [Hn HN]. apply elem_of_cons in Hin as [->|Hin].
  - unfold str_eqb. by rewrite bool_decide_eq_true_2.
  - unfold str_eqb. rewrite bool_decide_eq_false_2; [by apply IH|]. intros E. destruct Hn. rewrite E.
    apply list_elem_of_fmap. eauto.
Qed.

(** A fresh plan is not stale: against the Node facts it was compiled from,
    [relayPeerPinsChanged] never reports a change. *)
Theorem relayPeerPinsChanged_fresh (input : RelayPlanInput) (plan : RelayPreparedPlan) :
  forward_wf (rpi_forward input) ->
  compileRelayPlan input = Returns plan -> relayPeerPinsChanged plan (rpi_nodes input) <> Returns true.
Proof using.
  intros Hf (ingress & egress & Hok)%compiled_plan; [|done]. unfold relayPeerPinsChanged.
  intros (node & Hnode & (a & Ha & Hc)%some_each_true)%some_each_true. revert Hc. apply pins_current_unchanged.
  destruct (rp_facts _ _ _ _ Hok) as (Hini & Hine & HN).
  destruct (rp_ends _ _ _ _ Hok) as (pairs & HF & HP). rewrite HP in Hnode.
  assert (Hpair : forall pair, pair ∈ pairs -> pins_current (rpi_nodes input) pair.1 /\ pins_current (rpi_nodes input) pair.2).
  { intros pair Hin. apply list_elem_of_lookup_1 in Hin as [i Hi].
    destruct (Forall2_lookup_r _ _ _ _ _ HF Hi) as (p & _ & Hp).
    destruct (ro_ends _ _ _ _ _ _ Hp) as (b & ci & ce & Hdi & Hde & Ebi & Ebe & Hbi & Hbe & Hfi & Hfe & _).
    destruct (ro_run _ _ _ _ _ _ Hp) as [[= Hri Hre] _]. injection Hbi as Hn1 _ _ _. injection Hbe as Hn2 _ _ _. split.
    - exists ci, egress. rewrite Hri, Ebi, Hn2. split_and!; [done| |done]. by apply find_node_own.
    - exists ce, ingress. rewrite Hre, Ebe, Hn1. split_and!; [done| |done]. by apply find_node_own. }
  rewrite !elem_of_cons, elem_of_nil in Hnode.
  destruct Hnode as [->|[->|[]]]; cbn [pnd_assignments] in Ha; rewrite sort_by_perm in Ha;
    apply list_elem_of_fmap in Ha as (pair & -> & Hin); by apply Hpair.
Qed.
End PlanSpec.

(** ** A concrete plan *)

(** A small polynomial hash, so that different documents have different digests. *)
Definition checksum_hashing : Hashing :=
  {| canonicalize := fun v => Some (stringify v);
     sha256_hex := fun s => num_to_string (fold_left (fun h c => (h * 257 + c) mod 1000000007) s 7) |}.

Definition returned {A} (d : A) (m : outcome A) : A := match m with Returns a => a | Throws _ => d end.

Definition sum_of (v : json) : jsstr := returned [] (@digest checksum_hashing v).

Definition relay_forward : Forward :=
  MkForward (js "f1") (js "s1") 4
    (MkSpec true [tcp] (js "n1") (Listen (js "0.0.0.0") 8080) (Target (js "192.0.2.9") 80) (Some [js "n2"])
            (Some (Transport (js "p1") 1))).

Lemma relay_forward_wf : forward_wf relay_forward.
Proof.
  constructor; [vm_compute; reflexivity..|]. constructor.
  - by left.
  - vm_compute; reflexivity.
  - vm_compute; reflexivity.
  - vm_compute; reflexivity.
  - vm_compute; reflexivity.
  - vm_compute; reflexivity.
  - intros via [= <-]. split_and!; [done|repeat constructor|apply NoDup_singleton|].
    intros E%list_elem_of_singleton. discriminate.
  - intros t [= <-]. split; reflexivity.
  - split; intros [? ?]; eauto.
Defined.

Definition relay_facts (n : jsstr) : AuthorizedNodeFacts :=
  MkNodeFacts n (js "s1") [js "adp.3"; js "native.relay.v1"; js "relay.wire.1"; js "tcp"] [js "0.0.0.0"] [8080] 1
    [js "192.0.2.0/24"] false.

Definition pin (c : Z) : jsstr := js "sha256:" ++ replicate 64 c.

Definition relay_ingress_facts : RelayNodeExecutionFacts :=
  MkExecutionFacts (relay_facts (js "n1")) 5 1800000000000 [MkPeerCredential (pin 97) 1800000000000].
Definition relay_egress_facts : RelayNodeExecutionFacts :=
  MkExecutionFacts (relay_facts (js "n2")) 6 1800000000000 [MkPeerCredential (pin 98) 1790000000000].

Definition relay_input : RelayPlanInput := {|
  rpi_forward := relay_forward; rpi_nodes := [relay_ingress_facts; relay_egress_facts];
  rpi_profile := MkResolvedProfile (js "p1") 1 example_profile (sum_of (relay_profile_json example_profile));
  rpi_endpoint := MkResolvedEndpoint (js "n2") 2 (MkRelayEndpoint (js "0.0.0.0") (js "192.0.2.7") [8443]);
  rpi_reservations := [MkReservedRelay (MkPlanResource (js "n1") p_ingress tcp tcp (js "0.0.0.0") 8080) (js "f1") 3 10;
                       MkReservedRelay (MkPlanResource (js "n2") p_egress tcp tcp (js "0.0.0.0") 8443) (js "f1") 3 11];
  rpi_issuedAt := js "2026-01-01T00:00:00.000Z"; rpi_drainTimeoutSeconds := 30 |}.

Definition planned_binding : RelayBinding :=
  let a n role := js "a:" ++ drop 7 (sum_of (identity_json n (js "f1") tcp role)) in
  MkRelayBinding (js "s1") (js "f1") 4 3 (js "n1") (js "n2") (a (js "n1") (js "relay-ingress")) (a (js "n2") (js "relay-egress"))
    5 6 10 11 (js "p1") 1 (sum_of (relay_profile_json example_profile)).

Definition planned_relay (role : RelayRole) (node peer : RelayNodeExecutionFacts) (assignmentId : jsstr) (fence port : Z)
    : RelayAssignment :=
  let c := relay_config role planned_binding example_profile node peer (js "192.0.2.7") 8443 (Target (js "192.0.2.9") 80) in
  MkRelayAssignment (node_id_of node) (xf_sessionEpoch node) assignmentId (js "f1") 4 3 fence role tcp prepared
    (MkRelayResource (js "0.0.0.0") port tcp) (sum_of (relay_config_json c)) c 30.

(** A schema that accepts the documents of a list of values. *)
Definition accept_any {A} `{Documented A} (l : list A) : Schema A := fun v => find (fun x => bool_decide (document x = v)) l.

Definition planned_relays : Schema RelayAssignment :=
  accept_any [planned_relay relay_ingress relay_ingress_facts relay_egress_facts (rb_ingressAssignmentId planned_binding) 10 8080;
              planned_relay relay_egress relay_egress_facts relay_ingress_facts (rb_egressAssignmentId planned_binding) 11 8443].

Definition planned_opens : Schema RelayOpen :=
  accept_only (MkRelayOpen act_probe (js "contract-validation") planned_binding).

Lemma relay_plan_returns : exists plan,
  @compileRelayPlan checksum_hashing (accept_only example_profile) planned_opens planned_relays relay_input = Returns plan.
Proof. eexists. vm_compute. reflexivity. Qed.

Lemma compileRelayPlan_ok_witness : exists plan ingress egress,
  @relay_plan_ok checksum_hashing (accept_only example_profile) planned_opens planned_relays relay_input plan ingress egress.
Proof.
  destruct relay_plan_returns as [plan E]. exists plan.
  exact (@compileRelayPlan_ok checksum_hashing (accept_only example_profile) planned_opens planned_relays relay_input plan
    relay_forward_wf E).
Defined.

Lemma relayPeerPinsChanged_fresh_witness : exists plan,
  @relayPeerPinsChanged checksum_hashing plan (rpi_nodes relay_input) <> Returns true.
Proof.
  destruct relay_plan_returns as [plan E]. exists plan.
  exact (@relayPeerPinsChanged_fresh checksum_hashing (accept_only example_profile) planned_opens planned_relays relay_input plan
    relay_forward_wf E).
Defined.

Lemma compileRelayResources_ok_witness : exists first second resources,
  sequence (spec relay_forward) = [first; second] /\
  resources_ok relay_forward (map xf_facts (rpi_nodes relay_input)) (rpi_endpoint relay_input) (fun _ => Some 8443) first second resources.
Proof.
  destruct (@compileRelayResources checksum_hashing (accept_only example_profile) relay_forward
    (map xf_facts (rpi_nodes relay_input)) (rpi_profile relay_input) (rpi_endpoint relay_input) (fun _ => Some 8443))
    as [rs|e] eqn:E; [|vm_compute in E; discriminate E].
  destruct (@compileRelayResources_ok checksum_hashing (accept_only example_profile) relay_forward
    (map xf_facts (rpi_nodes relay_input)) (rpi_profile relay_input) (rpi_endpoint relay_input) (fun _ => Some 8443) rs
    relay_forward_wf E) as (a & b & Hs & Hok). exists a, b, rs. split; [exact Hs|exact Hok].
Defined.
