(* ===== verification/MultihopPlan.v ===== *)
(** The multi-hop planner (apps/control/src/modules/runtime/multihop-plan.ts): from a Forward
    with at least two further Nodes it compiles the physical resources of every hop and
    one prepared Assignment per hop and protocol, all of which carry the same path. *)

From S2P Require Import Prelude.
From S2P Require Import JsString.
From S2P Require Import JsValue.
From S2P Require Import Primitives.
From S2P Require Import Json.
From S2P Require Import Forward.
From S2P Require Import Time.
From S2P Require Import Digest.
From S2P Require Import Types.
From S2P Require Import Cidr.
From S2P Require Import Validate.
From S2P Require Import Schema.
From S2P Require Import Relay.
From S2P Require Import Multihop.
From S2P Require Import Adp3.
From S2P Require Import Probe.
From S2P Require Import TargetPolicy.
From S2P Require Import Endpoint.
From S2P Require Import Topology.
From S2P Require Import Planner.
From S2P Require Import RelayPlan.

Local Open Scope Z_scope.

Record MultihopPlanInput := MkMultihopInput {
  mpi_forward : Forward; mpi_nodes : list RelayNodeExecutionFacts; mpi_profile : ResolvedProfile;
  mpi_endpoints : list ResolvedEndpoint; mpi_ports : jsstr -> NetworkProtocol -> option Z;
}.

Definition find_endpoint (endpoints : list ResolvedEndpoint) (nodeId : jsstr) : option ResolvedEndpoint :=
  find (fun e => str_eqb (rse_nodeId e) nodeId) endpoints.

Definition multihop_capabilities (s : ForwardSpec) : list jsstr :=
  [js "adp.3"; MULTIHOP_CAPABILITY; js "native.multihop.v1"; js "multihop.wire.1"] ++ map protocol_name (protocols s).

(** The resource of one hop and protocol. *)
Definition hop_port_resource (input : MultihopPlanInput) (f : Forward) (hop : PathNode) (endpoint : option ResolvedEndpoint)
    (resources : list PlanResource) (p : NetworkProtocol) : outcome (list PlanResource) :=
  let first := (pn_index hop =? 0)%nat in
  match (if first then Some (listen_port (ingress_listen (spec f))) else mpi_ports input (pn_nodeId hop) p) with
  | None => Throws (Exn "RESOURCE_CONFLICT" "Authorized multi-hop physical port required")
  | Some port =>
      _ ← throw_if ((port =? 0) ||
                    (negb first && negb (match endpoint with
                                         | Some e => includes (re_allowedTcpPorts (rse_config e)) port
                                         | None => false end)))
            "RESOURCE_CONFLICT" "Authorized multi-hop physical port required";
      Returns (resources ++
        [MkPlanResource (pn_nodeId hop) (pn_role hop) p (if first then p else tcp)
           (if first then address (ingress_listen (spec f))
            else match endpoint with Some e => re_listenAddress (rse_config e) | None => [] end) port])
  end.

(** The body of the loop over the hops. *)
Definition hop_resources (input : MultihopPlanInput) (f : Forward) (nodes : list PathNode)
    (resources : list PlanResource) (hop : PathNode) : outcome (list PlanResource) :=
  let s := spec f in
  let endpoint := find_endpoint (mpi_endpoints input) (pn_nodeId hop) in
  match find_node (mpi_nodes input) (pn_nodeId hop) with
  | None => Throws (Exn "UNSUPPORTED_CAPABILITY" "Every Node must explicitly support multi-hop execution")
  | Some node =>
      let facts := xf_facts node in
      _ ← throw_if (negb (str_eqb (nf_scopeId facts) (scopeId f)) || negb (is_counter false (xf_sessionEpoch node)) ||
                    existsb (fun c => negb (includes (nf_capabilities facts) c)) (multihop_capabilities s))
            "UNSUPPORTED_CAPABILITY" "Every Node must explicitly support multi-hop execution";
      _ ← throw_if ((pn_index hop =? 0)%nat &&
                    (negb (includes (nf_allowedListenerAddresses facts) (address (ingress_listen s))) ||
                     negb (includes (nf_allowedPorts facts) (listen_port (ingress_listen s)))))
            "AUTHORIZATION_DENIED" "Multi-hop ingress listener denied";
      _ ← throw_if (match nodes !! (pn_index hop + 1)%nat with
                    | Some next => match find_endpoint (mpi_endpoints input) (pn_nodeId next) with
                                   | None => true
                                   | Some e => negb (targetAllowed (re_advertisedHost (rse_config e)) facts)
                                   end
                    | None => negb (targetAllowed (host (target s)) facts)
                    end)
            "AUTHORIZATION_DENIED" "Multi-hop destination policy denied";
      _ ← (if (0 <? pn_index hop)%nat then
             match endpoint with
             | None => Throws (Exn "INVALID_CONFIG" "Missing multi-hop endpoint")
             | Some e => _ ← parseRelayEndpoint (endpoint_jsv (rse_config e)); Returns tt
             end
           else Returns tt);
      fold_each (hop_port_resource input f hop endpoint) (protocols s) resources
  end.

Section Resources.
Context `{Hashing, Schema RelayProfileConfig}.

Definition compileMultihopResources (input : MultihopPlanInput) : outcome (list PlanResource) :=
  match reparse (mpi_forward input) with
  | Err _ => Throws (Exn "INVALID_CONFIG" "Locked multi-hop Forward required")
  | Ok f =>
      match transport (spec f) with
      | None => Throws (Exn "INVALID_CONFIG" "Locked multi-hop Forward required")
      | Some t =>
          topology ← compilePathTopology f;
          profile ← parseRelayMessage ProfileConfig_ (stringify (relay_profile_json (rpf_config (mpi_profile input)))) 4096;
          let n := length (pt_nodes topology) in
          _ ← throw_if ((n <? 3)%nat || negb (length (mpi_nodes input) =? n)%nat ||
                        negb (length (mpi_endpoints input) =? n - 1)%nat ||
                        negb (length (new_Set (map node_id_of (mpi_nodes input))) =? n)%nat ||
                        negb (length (new_Set (map rse_nodeId (mpi_endpoints input))) =? n - 1)%nat)
                "AUTHORIZATION_DENIED" "Exact multi-hop Node and endpoint facts required";
          _ ← throw_if (negb (str_eqb (rpf_profileId (mpi_profile input)) (profileId t)) ||
                        negb (rpf_revision (mpi_profile input) =? configRevision t))
                "INTEGRITY_FAILURE" "Locked multi-hop Profile differs";
          _ ← (d ← digest_differs (relay_profile_json profile) (rpf_configDigest (mpi_profile input));
               throw_if d "INTEGRITY_FAILURE" "Locked multi-hop Profile differs");
          _ ← throw_if (existsb (fun p => negb (includes (rp_protocols profile) p)) (protocols (spec f)))
                "INTEGRITY_FAILURE" "Locked multi-hop Profile differs";
          resources ← fold_each (hop_resources input f (pt_nodes topology)) (pt_nodes topology) [];
          _ ← throw_if (negb (distinct (map resource_key resources)))
                "RESOURCE_CONFLICT" "Multi-hop physical resource collision";
          Returns resources
      end
  end.
End Resources.

(** ** The plan *)

Record MultihopCompileInput := MkMultihopCompile {
  mci_plan : MultihopPlanInput; mci_reservations : list ReservedRelayResource;
  mci_drainTimeoutSeconds : Z; mci_issuedAt : jsstr;
}.

(** The current peer credential that lives longest. *)
Definition longer_lived (a b : PeerCredential) : bool :=
  js_or (pc_validUntil b - pc_validUntil a) (cmp_str (pc_fingerprint a) (pc_fingerprint b)) <=? 0.

Definition current_peer (now : Z) (node : RelayNodeExecutionFacts) : option PeerCredential :=
  head (sort_by longer_lived (List.filter (fun p => now <? pc_validUntil p) (xf_peers node))).

(** The loop that fills [pins] and lowers [authorizationUntil]. *)
Definition pin_peer (now : Z) (st : list (jsstr * jsstr) * Z) (node : RelayNodeExecutionFacts)
    : outcome (list (jsstr * jsstr) * Z) :=
  match current_peer now node with
  | None => Throws (Exn "AUTHORIZATION_DENIED" "Current bounded multi-hop credentials required")
  | Some peer =>
      _ ← throw_if (negb (is_safe_integer (xf_credentialUntil node)) || (xf_credentialUntil node <=? now) ||
                    (2 <? length (xf_peers node))%nat || negb (distinct (map pc_fingerprint (xf_peers node))) ||
                    existsb (fun p => negb (is_fingerprint (pc_fingerprint p)) || negb (is_safe_integer (pc_validUntil p)))
                      (xf_peers node))
            "AUTHORIZATION_DENIED" "Current bounded multi-hop credentials required";
      Returns ((node_id_of node, pc_fingerprint peer) :: st.1,
               Z.min (Z.min st.2 (xf_credentialUntil node)) (pc_validUntil peer))
  end.

(** [map.get(key)] of a map built by insertions, the latest first. *)
Definition map_get (m : list (jsstr * jsstr)) (k : jsstr) : option jsstr :=
  snd <$> find (fun kv => str_eqb kv.1 k) m.

Definition find_resource (resources : list PlanResource) (nodeId : jsstr) (p : NetworkProtocol) : option PlanResource :=
  find (fun r => str_eqb (prs_nodeId r) nodeId && bool_decide (prs_forwardProtocol r = p)) resources.

Definition path_role_name (r : PathRole) : jsstr :=
  match r with p_direct => js "direct" | p_ingress => js "ingress" | p_transit => js "transit" | p_egress => js "egress" end.

Definition multihop_role (r : PathRole) : option RuntimeRole :=
  match r with
  | p_direct => None | p_ingress => Some multihop_ingress | p_transit => Some multihop_transit | p_egress => Some multihop_egress
  end.

(** [`multihop-${hop.role}`] *)
Definition multihop_role_name (r : PathRole) : jsstr := js "multihop-" ++ path_role_name r.

Section Plan.
Context `{Hashing, Schema RelayProfileConfig}.

(** One step of [topology.nodes.map(hop => ...)]; [generation] is shared by all hops and
    protocols, zero until the first slot sets it. *)
Definition hop_node (input : MultihopCompileInput) (f : Forward) (resources : list PlanResource) (pins : list (jsstr * jsstr))
    (plans : list (jsstr * Z)) (p : NetworkProtocol) (st : Z * list HopNode) (hop : PathNode)
    : outcome (Z * list HopNode) :=
  match find_resource resources (pn_nodeId hop) p with
  | None => Throws (Exn "TypeError" "Cannot read properties of undefined")
  | Some r =>
      match exact_slots (id f) (mci_reservations input) r with
      | [slot] =>
          _ ← throw_if (negb (is_counter false (rr_bindingFence slot)) || negb (is_counter false (rr_deploymentGeneration slot)))
                "RESOURCE_CONFLICT" "Exact fenced multi-hop resource required";
          let generation := js_or st.1 (rr_deploymentGeneration slot) in
          _ ← throw_if (negb (generation =? rr_deploymentGeneration slot))
                "INTEGRITY_FAILURE" "Mixed multi-hop deployment generations";
          d ← digest (identity_json (pn_nodeId hop) (id f) p (multihop_role_name (pn_role hop)));
          match plans !! pn_index hop, map_get pins (pn_nodeId hop) with
          | Some plan, Some fingerprint =>
              Returns (generation, st.2 ++ [{|
                hn_nodeId := pn_nodeId hop; hn_assignmentId := js "a:" ++ drop 7 d; hn_sessionEpoch := plan.2;
                hn_bindingFence := rr_bindingFence slot; hn_peerFingerprint := fingerprint; hn_listenAddress := prs_address r;
                hn_host := match find_endpoint (mpi_endpoints (mci_plan input)) (pn_nodeId hop) with
                           | Some e => re_advertisedHost (rse_config e)
                           | None => default (js "localhost") (normalize_target_host (prs_address r))
                           end;
                hn_port := prs_port r |}])
          | _, _ => Throws (Exn "TypeError" "Cannot read properties of undefined")
          end
      | _ => Throws (Exn "RESOURCE_CONFLICT" "Exact fenced multi-hop resource required")
      end
  end.

(** [base] with the path digest filled in. *)
Definition hop_config (input : MultihopCompileInput) (f : Forward) (profile : RelayProfileConfig) (generation : Z)
    (path : list HopNode) (p : NetworkProtocol) (index : nat) (node : RelayNodeExecutionFacts) (pathDigest : jsstr) : HopConfig :=
  {| hc_scopeId := scopeId f; hc_forwardId := id f; hc_forwardRevision := revision f; hc_deploymentGeneration := generation;
     hc_profileId := rpf_profileId (mpi_profile (mci_plan input)); hc_profileRevision := rpf_revision (mpi_profile (mci_plan input));
     hc_profileDigest := rpf_configDigest (mpi_profile (mci_plan input)); hc_pathDigest := pathDigest;
     hc_protocol := p; hc_hopIndex := index; hc_path := path; hc_profile := profile; hc_target := target (spec f);
     hc_egressPolicyRevision := nf_egressPolicyRevision (xf_facts node);
     hc_allowedDestinationCidrs := sort_by str_leb (new_Set (nf_allowedDestinationCidrs (xf_facts node)));
     hc_allowMetadataTargets := nf_allowMetadataTargets (xf_facts node) |}.

(** The Assignment of one hop.  A path of three Nodes or more has no Direct role, so
    [multihop-direct] never arises. *)
Definition hop_assignment (input : MultihopCompileInput) (f : Forward) (profile : RelayProfileConfig) (generation : Z)
    (path : list HopNode) (p : NetworkProtocol) (hop : PathNode) : outcome RuntimeAssignment :=
  match find_node (mpi_nodes (mci_plan input)) (pn_nodeId hop), path !! pn_index hop, multihop_role (pn_role hop) with
  | Some node, Some local, Some role =>
      d ← hopPathDigest (hop_config input f profile generation path p (pn_index hop) node []);
      let h := hop_config input f profile generation path p (pn_index hop) node d in
      _ ← validateHopConfig h;
      configDigest ← digest (multihop_config_json h);
      Returns {|
        rua_assignmentId := hn_assignmentId local; rua_forwardId := id f; rua_forwardRevision := revision f;
        rua_deploymentGeneration := generation; rua_bindingFence := hn_bindingFence local; rua_role := role;
        rua_protocol := p; rua_phase := prepared;
        rua_resource := MkRelayResource (hn_listenAddress local) (hn_port local) (if (pn_index hop =? 0)%nat then p else tcp);
        rua_configDigest := configDigest; rua_driver := MultihopDriver h;
        rua_drainTimeoutSeconds := mci_drainTimeoutSeconds input |}
  | _, _, _ => Throws (Exn "TypeError" "Cannot read properties of undefined")
  end.

(** The body of the loop over the protocols: [generation] and, per protocol, the
    Assignments of the hops in path order. *)
Definition protocol_path (input : MultihopCompileInput) (f : Forward) (profile : RelayProfileConfig) (topology : PathTopology)
    (resources : list PlanResource) (pins : list (jsstr * jsstr)) (plans : list (jsstr * Z))
    (st : Z * list (list RuntimeAssignment)) (p : NetworkProtocol) : outcome (Z * list (list RuntimeAssignment)) :=
  '(generation, path) ← fold_each (hop_node input f resources pins plans p) (pt_nodes topology) (st.1, []);
  assignments ← map_each (hop_assignment input f profile generation path p) (pt_nodes topology);
  Returns (generation, st.2 ++ [assignments]).

(** The Assignments pushed to the plan of the [i]-th Node, then sorted. *)
Definition assignments_at (rows : list (list RuntimeAssignment)) (i : nat) : list RuntimeAssignment :=
  sort_by by_assignmentId (omap (fun row => row !! i) rows).

Definition compileMultihopPlan (input : MultihopCompileInput) : outcome RelayPreparedPlan :=
  let plan := mci_plan input in
  let f := mpi_forward plan in
  resources ← compileMultihopResources plan;
  topology ← compilePathTopology f;
  let now := Date_text (mci_issuedAt input) in
  profile ← parseRelayMessage ProfileConfig_ (stringify (relay_profile_json (rpf_config (mpi_profile plan)))) 4096;
  match now with
  | None => Throws (Exn "INVALID_CONFIG" "Complete multi-hop reservations and bounded lifetime required")
  | Some now =>
      _ ← throw_if (negb (is_safe_integer now) || (mci_drainTimeoutSeconds input <? 0) || (300 <? mci_drainTimeoutSeconds input) ||
                    negb (length (mci_reservations input) =? length resources)%nat)
            "INVALID_CONFIG" "Complete multi-hop reservations and bounded lifetime required";
      '(pins, authorizationUntil) ← fold_each (pin_peer now) (mpi_nodes plan) ([], MAX_COUNTER);
      plans ← map_each (fun n => match find_node (mpi_nodes plan) (pn_nodeId n) with
                                 | Some node => Returns (pn_nodeId n, xf_sessionEpoch node)
                                 | None => Throws (Exn "TypeError" "Cannot read properties of undefined")
                                 end) (pt_nodes topology);
      '(generation, rows) ← fold_each (protocol_path input f profile topology resources pins plans) (protocols (spec f)) (0, []);
      let body := MkPreparedPlan (Some (map pn_nodeId (pt_nodes topology)))
                    (Some (map (fun e => (rse_nodeId e, rse_revision e)) (mpi_endpoints plan)))
                    (id f) (revision f) generation 0 authorizationUntil
                    (imap (fun i n => MkPlannedNode n.1 n.2 (assignments_at rows i)) plans) [] in
      planDigest ← digest (plan_body_json body);
      Returns (with_digest body planDigest)
  end.
End Plan.

(** ** What a multi-hop plan is *)

(** The hop of a Node: its one reservation of this generation, its session and its pin. *)
Definition hop_reserved (input : MultihopCompileInput) (f : Forward) (pins : list (jsstr * jsstr)) (plans : list (jsstr * Z))
    (p : NetworkProtocol) (generation : Z) (hop : PathNode) (n : HopNode) : Prop :=
  hn_nodeId n = pn_nodeId hop /\
  (exists slot, slot ∈ mci_reservations input /\ rr_forwardId slot = id f /\ 1 <= generation /\
     rr_deploymentGeneration slot = generation /\
     prs_nodeId (rr_resource slot) = pn_nodeId hop /\ prs_forwardProtocol (rr_resource slot) = p /\
     (hn_bindingFence n, hn_listenAddress n, hn_port n) =
     (rr_bindingFence slot, prs_address (rr_resource slot), prs_port (rr_resource slot))) /\
  snd <$> plans !! pn_index hop = Some (hn_sessionEpoch n) /\ map_get pins (pn_nodeId hop) = Some (hn_peerFingerprint n).

(** The Assignment of the [i]-th Node of a path: it carries the whole path and its own
    position, and it passes every check of a Snapshot of its Node and session. *)
Record hop_at `{Hashing} (path : list HopNode) (p : NetworkProtocol) (i : nat) (n : HopNode) (a : RuntimeAssignment) : Prop := {
  ha_config : exists h, rua_driver a = MultihopDriver h /\ hc_path h = path /\ hc_hopIndex h = i /\ hop_valid h /\
    forall s, rus_executionExtension s = true -> rus_nodeId s = hn_nodeId n -> rus_sessionEpoch s = hn_sessionEpoch n ->
      hop_bound s a h;
  ha_run : (rua_protocol a, rua_phase a) = (p, prepared);
}.

Lemma exact_slots_one forwardId reservations r slot : exact_slots forwardId reservations r = [slot] ->
  slot ∈ reservations /\ rr_resource slot = r /\ rr_forwardId slot = forwardId.
Proof.
  unfold exact_slots. intros (a & b & -> & Hs & _)%filter_singleton. unfold str_eqb in Hs. propify.
  split_and!; [apply elem_of_app; right; left|done|done].
Qed.

Lemma find_resource_some resources nodeId p r : find_resource resources nodeId p = Some r ->
  prs_nodeId r = nodeId /\ prs_forwardProtocol r = p.
Proof. unfold find_resource, str_eqb. intros [_ Hb]%find_some. by propify. Qed.

Section PlanSpec.
Context `{Hashing, Schema RelayProfileConfig}.

Lemma hop_nodes input f resources pins plans p hops st st' :
  fold_each (hop_node input f resources pins plans p) hops st = Returns st' -> 0 <= st.1 ->
  exists new, st'.2 = st.2 ++ new /\ Forall2 (hop_reserved input f pins plans p st'.1) hops new /\
    0 <= st'.1 /\ (st.1 <> 0 -> st'.1 = st.1).
Proof using.
  revert st. induction hops as [|hop r IH]; intros st; cbn.
  - intros [= <-] ?. exists []. rewrite app_nil_r. split_and!; [done|constructor|done|done].
  - intros (st1 & Hh & Hrest)%bind_Returns Hst. unfold hop_node in Hh.
    destruct (find_resource _ _ _) as [rs|] eqn:Er; [|done]. destruct (exact_slots _ _ _) as [|slot [|]] eqn:Es; try done.
    rewrite !guard_seq in Hh. destruct Hh as (Hc & Hg & (d & _ & Hh)%bind_Returns).
    destruct (plans !! pn_index hop) as [pl|] eqn:Epl; [|done]. destruct (map_get _ _) as [fp|] eqn:Efp; [|done].
    apply Returns_inj_iff in Hh as ->. autorewrite with guards in Hc, Hg. destruct Hc as [_ Hgen%is_counter_bounds].
    assert (js_or st.1 (rr_deploymentGeneration slot) <> 0) by lia.
    apply IH in Hrest as (new & E2 & HF & Hle & Hkeep); [|cbn; lia]. cbn in E2, HF, Hkeep. rewrite Hkeep in HF by done.
    eexists (_ :: new). rewrite E2, <- app_assoc. split_and!; [reflexivity| |done|].
    + rewrite Hkeep by done. constructor; [|done]. unfold hop_reserved. cbn [hn_nodeId hn_bindingFence hn_listenAddress hn_port hn_sessionEpoch hn_peerFingerprint].
      apply exact_slots_one in Es as (Hin & <- & Hf). apply find_resource_some in Er as [Hn Hp].
      split_and!; [done| |by rewrite Epl|done]. exists slot. split_and!; congruence || lia.
    + intros Hne. rewrite Hkeep by done. unfold js_or. by rewrite (proj2 (Z.eqb_neq _ _) Hne).
Qed.

Context `{!SchemaLaws RelayProfileConfig}.

Lemma multihop_role_hop n i h role : (3 <= n)%nat -> length (hc_path h) = n -> hc_hopIndex h = i ->
  multihop_role (path_role n i) = Some role -> hop_role h = role.
Proof using.
  intros Hn Hl Hi. unfold path_role, hop_role. rewrite Hl, Hi. destruct (Nat.eqb_spec n 1); [lia|].
  destruct (i =? 0)%nat; [by intros [= <-]|]. destruct (i =? n - 1)%nat; by intros [= <-].
Qed.

Lemma hop_assignment_ok input f profile generation path p hop a n :
  (3 <= length path)%nat -> pn_role hop = path_role (length path) (pn_index hop) ->
  path !! pn_index hop = Some n -> readable (relay_profile_json profile) ->
  hop_assignment input f profile generation path p hop = Returns a -> hop_at path p (pn_index hop) n a.
Proof using All.
  intros Hlen Hrole Hn Hread. unfold hop_assignment. rewrite Hn, Hrole.
  destruct (find_node _ _) as [node|]; [|done]. destruct (multihop_role _) as [role|] eqn:Er; [|done].
  intros (d & Hd & Hr)%bind_Returns. rewrite seq_unit in Hr. destruct Hr as (Hv & (c & Hc & Ha)%bind_Returns).
  apply Returns_inj_iff in Ha as ->. set (h := hop_config input f profile generation path p (pn_index hop) node d) in *.
  apply validateHopConfig_valid in Hv; [|done]. split; [|done].
  exists h. cbn [rua_driver]. split_and!; [done|done|done|done|]. intros s He Hs Hse. split; cbn; try done.
  - symmetry. by apply (multihop_role_hop (length path) (pn_index hop)).
  - exists n. by rewrite Hs, Hse.
Qed.

Lemma protocol_paths input f profile topology resources pins plans ps st st' :
  pt_nodes topology <> [] -> 0 <= st.1 ->
  fold_each (protocol_path input f profile topology resources pins plans) ps st = Returns st' ->
  exists new, st'.2 = st.2 ++ new /\ (st.1 <> 0 -> st'.1 = st.1) /\
    Forall2 (fun p row => exists path,
      Forall2 (hop_reserved input f pins plans p st'.1) (pt_nodes topology) path /\
      Forall2 (fun hop a => hop_assignment input f profile st'.1 path p hop = Returns a) (pt_nodes topology) row) ps new.
Proof using.
  intros Hne. revert st. induction ps as [|p ps IH]; intros st Hst; cbn.
  - intros [= <-]. exists []. rewrite app_nil_r. split_and!; [done|done|constructor].
  - intros (st1 & Hp & Hrest)%bind_Returns. unfold protocol_path in Hp.
    apply bind_Returns in Hp as ([g path] & Hh & (row & Hrow & Hp)%bind_Returns). apply Returns_inj_iff in Hp as ->.
    apply hop_nodes in Hh as (new & E & HF & Hg & Hk); [|done]. cbn in E, HF, Hg, Hk. subst new.
    apply IH in Hrest as (rows & E2 & Hk2 & HF2); [|done]. cbn in E2, Hk2.
    assert (Hg0 : g <> 0).
    { destruct HF as [|hop n ? ? Hn]; [done|]. destruct Hn as (_ & (slot & _ & _ & ? & _) & _). lia. }
    exists (row :: rows). rewrite E2, <- app_assoc. split_and!; [done| |].
    + intros Hs. rewrite Hk2 by done. by apply Hk.
    + constructor; [|done]. rewrite Hk2 by done. exists path. split; [done|]. by apply map_each_Returns.
Qed.

(** The pin of a Node is one of its own credentials and outlives the plan. *)
Definition pinned (input : MultihopCompileInput) (now until : Z) (nodeId fingerprint : jsstr) : Prop :=
  exists node peer, node ∈ mpi_nodes (mci_plan input) /\ node_id_of node = nodeId /\ peer ∈ xf_peers node /\
    pc_fingerprint peer = fingerprint /\ now < pc_validUntil peer /\ until <= pc_validUntil peer /\ until <= xf_credentialUntil node.

Lemma current_peer_some now node peer : current_peer now node = Some peer -> peer ∈ xf_peers node /\ now < pc_validUntil peer.
Proof using.
  unfold current_peer. intros Hh. assert (Hin : peer ∈ sort_by longer_lived (List.filter (fun p => now <? pc_validUntil p) (xf_peers node))).
  { destruct (sort_by _ _); [done|]. injection Hh as ->. left. }
  rewrite sort_by_perm, list_elem_of_In in Hin. apply filter_In in Hin as [Hin Hb]. propify. by rewrite list_elem_of_In.
Qed.

Lemma pin_peers input now nodes st st' : (forall n, n ∈ nodes -> n ∈ mpi_nodes (mci_plan input)) ->
  fold_each (pin_peer now) nodes st = Returns st' ->
  Forall (fun kv => pinned input now st.2 kv.1 kv.2) st.1 -> now < st.2 ->
  Forall (fun kv => pinned input now st'.2 kv.1 kv.2) st'.1 /\ now < st'.2 /\ st'.2 <= st.2 /\
  Forall (fun n => st'.2 <= xf_credentialUntil n) nodes.
Proof using.
  revert st. induction nodes as [|n r IH]; intros st Hall; cbn.
  - intros [= <-] ? ?. split_and!; [done|done|lia|constructor].
  - intros (st1 & Hp & Hrest)%bind_Returns HF Hnow. unfold pin_peer in Hp.
    destruct (current_peer now n) as [peer|] eqn:Ep; [|done]. apply current_peer_some in Ep as [Hin Hcur].
    rewrite guard_seq, Returns_inj_iff in Hp. destruct Hp as [Hg ->]. autorewrite with guards in Hg.
    apply IH in Hrest as (HF' & Hn' & Hle & Hc); cbn [fst snd] in *; [|intros; apply Hall; by right| |lia].
    + split_and!; [done|done|lia|]. constructor; [lia|done].
    + constructor.
      * exists n, peer. cbn. split_and!; try done; try lia. apply Hall. left.
      * eapply Forall_impl; [exact HF|]. intros kv (x & pr & ? & ? & ? & ? & ? & ? & ?). exists x, pr. split_and!; try done; lia.
Qed.

Lemma pin_current now nodes st st' : fold_each (pin_peer now) nodes st = Returns st' ->
  Forall (fun n => now < xf_credentialUntil n <= MAX_COUNTER) nodes.
Proof using.
  revert st. induction nodes as [|n r IH]; intros st; cbn; [constructor|].
  intros (st1 & Hp & Hrest)%bind_Returns. constructor; [|by eapply IH]. unfold pin_peer in Hp.
  destruct (current_peer now n); [|done]. rewrite guard_seq in Hp. destruct Hp as [Hg _].
  autorewrite with guards in Hg. destruct Hg as ((((Hs & ?) & _) & _) & _). unfold is_safe_integer in Hs. propify. lia.
Qed.

Lemma map_get_in m k v : map_get m k = Some v -> (k, v) ∈ m.
Proof using.
  unfold map_get. intros ([k' v'] & [Hin Hk]%find_some & ->)%fmap_Some. unfold str_eqb in Hk. cbn in Hk. propify. subst.
  by apply list_elem_of_In.
Qed.

(** One protocol of the plan: a path through all Nodes, in order, on reserved resources
    of the plan's generation, with a pin per Node; and on every Node an Assignment that
    carries exactly this path. *)
Definition protocol_planned (input : MultihopCompileInput) (plan : RelayPreparedPlan) (now : Z) (p : NetworkProtocol) : Prop :=
  exists path, map hn_nodeId path = sequence (spec (mpi_forward (mci_plan input))) /\
    Forall (fun n => pinned input now (rpp_authorizationUntil plan) (hn_nodeId n) (hn_peerFingerprint n)) path /\
    Forall (fun n => exists slot, slot ∈ mci_reservations input /\ rr_forwardId slot = id (mpi_forward (mci_plan input)) /\
      rr_deploymentGeneration slot = rpp_deploymentGeneration plan /\
      (prs_nodeId (rr_resource slot), prs_forwardProtocol (rr_resource slot)) = (hn_nodeId n, p) /\
      (hn_bindingFence n, hn_port n) = (rr_bindingFence slot, prs_port (rr_resource slot))) path /\
    forall i n, path !! i = Some n -> exists node a, rpp_nodes plan !! i = Some node /\
      (pnd_nodeId node, pnd_sessionEpoch node) = (hn_nodeId n, hn_sessionEpoch n) /\
      a ∈ pnd_assignments node /\ hop_at path p i n a.

Record multihop_plan_ok (input : MultihopCompileInput) (plan : RelayPreparedPlan) (now : Z) : Prop := {
  mo_identity : (rpp_forwardId plan, rpp_forwardRevision plan) =
                (id (mpi_forward (mci_plan input)), revision (mpi_forward (mci_plan input)));
  mo_path : rpp_path plan = Some (sequence (spec (mpi_forward (mci_plan input))));
  mo_length : (3 <= length (sequence (spec (mpi_forward (mci_plan input)))) <= 8)%nat;
  mo_nodes : map pnd_nodeId (rpp_nodes plan) = sequence (spec (mpi_forward (mci_plan input)));
  mo_protocols : Forall (protocol_planned input plan now) (protocols (spec (mpi_forward (mci_plan input))));
  mo_authority : now < rpp_authorizationUntil plan /\
    Forall (fun n => rpp_authorizationUntil plan <= xf_credentialUntil n) (mpi_nodes (mci_plan input));
  mo_digest : digests_to (plan_body_json plan) (rpp_planDigest plan);
}.

Lemma multihop_length plan resources topology : forward_wf (mpi_forward plan) ->
  compileMultihopResources plan = Returns resources -> compilePathTopology (mpi_forward plan) = Returns topology ->
  (3 <= length (pt_nodes topology))%nat /\ length (mpi_nodes plan) = length (pt_nodes topology).
Proof using.
  intros Hf. unfold compileMultihopResources. rewrite (reparse_wf _ Hf). destruct (transport _) as [tr|]; [|done].
  intros (t & Ht & Hr)%bind_Returns Ht'. rewrite Ht in Ht'. injection Ht' as ->.
  apply bind_Returns in Hr as (profile & _ & Hr). rewrite guard_seq in Hr. destruct Hr as [Hg _].
  autorewrite with guards in Hg. rewrite !Nat.eqb_eq in Hg. lia.
Qed.

Lemma planned_rows input f plan now profile topology pins plans row p :
  f = mpi_forward (mci_plan input) -> topology_ok f topology -> (3 <= length (pt_nodes topology))%nat ->
  readable (relay_profile_json profile) ->
  Forall (fun kv => pinned input now (rpp_authorizationUntil plan) kv.1 kv.2) pins ->
  map fst plans = map pn_nodeId (pt_nodes topology) ->
  (forall i n, plans !! i = Some n -> exists node, rpp_nodes plan !! i = Some node /\ pnd_nodeId node = n.1 /\
     pnd_sessionEpoch node = n.2 /\ forall a, row !! i = Some a -> a ∈ pnd_assignments node) ->
  (exists path, Forall2 (hop_reserved input f pins plans p (rpp_deploymentGeneration plan)) (pt_nodes topology) path /\
     Forall2 (fun hop a => hop_assignment input f profile (rpp_deploymentGeneration plan) path p hop = Returns a) (pt_nodes topology) row) ->
  protocol_planned input plan now p.
Proof using All.
  intros -> Htop Hlen Hread Hpins Hplans Hnodes (path & Hres & Hrow). exists path.
  assert (Hids : map hn_nodeId path = map pn_nodeId (pt_nodes topology)).
  { clear -Hres. induction Hres as [|hop n ? ? Hn _ IH]; [done|]. cbn. f_equal; [apply Hn|done]. }
  pose proof (Forall2_length _ _ _ Hres) as Hlp. split_and!.
  - rewrite Hids. apply Htop.
  - apply Forall_forall. intros n [i Hi]%list_elem_of_lookup_1.
    destruct (Forall2_lookup_r _ _ _ _ _ Hres Hi) as (hop & _ & Hid & _ & _ & Hpin).
    apply map_get_in in Hpin. rewrite Forall_forall in Hpins. rewrite Hid. exact (Hpins _ Hpin).
  - apply Forall_forall. intros n [i Hi]%list_elem_of_lookup_1.
    destruct (Forall2_lookup_r _ _ _ _ _ Hres Hi) as (hop & _ & Hid & (slot & ? & ? & _ & ? & ? & ? & Eslot) & _).
    exists slot. injection Eslot as ? ? ?. split_and!; try done; congruence.
  - intros i n Hi. destruct (Forall2_lookup_r _ _ _ _ _ Hres Hi) as (hop & Hhop & Hid & _ & Hsess & _).
    destruct (to_roles _ _ Htop i hop Hhop) as [Hix Hrole]. rewrite Hix in Hsess.
    apply fmap_Some in Hsess as (pl & Hpl & Hses). destruct (Hnodes i pl Hpl) as (node & Hn & Hni & Hns & Hin).
    destruct (Forall2_lookup_l _ _ _ _ _ Hrow Hhop) as (a & Ha & Hasg). exists node, a.
    assert (Hpid : pl.1 = pn_nodeId hop).
    { assert (map fst plans !! i = map pn_nodeId (pt_nodes topology) !! i) as E by (by rewrite Hplans).
      rewrite !list_lookup_fmap, Hpl, Hhop in E. by injection E. }
    split_and!; [done|congruence|by apply Hin|]. rewrite <- Hix.
    apply (hop_assignment_ok input (mpi_forward (mci_plan input)) profile (rpp_deploymentGeneration plan)); try done.
    + by rewrite <- Hlp.
    + by rewrite <- Hlp, Hix.
    + by rewrite Hix.
Qed.

Lemma session_plans nodes hops plans :
  map_each (fun n => match find_node nodes (pn_nodeId n) with
                     | Some node => Returns (pn_nodeId n, xf_sessionEpoch node)
                     | None => Throws (Exn "TypeError" "Cannot read properties of undefined")
                     end) hops = Returns plans -> map fst plans = map pn_nodeId hops.
Proof using.
  rewrite map_each_Returns. induction 1 as [|n pl ? ? Hn _ IH]; [done|]. cbn. f_equal; [|done].
  destruct (find_node _ _); [|done]. by injection Hn as <-.
Qed.

Lemma assignments_at_in rows row i a : row ∈ rows -> row !! i = Some a -> a ∈ assignments_at rows i.
Proof using.
  intros Hr Ha. unfold assignments_at. rewrite sort_by_perm. apply list_elem_of_omap. eauto.
Qed.

(** C20. Every Node of a multi-hop plan holds the same path.  When [compileMultihopPlan]
    returns a plan for a well-formed Forward, the plan covers the three to eight Nodes
    of the intent in order; for every protocol there is one path through all of them,
    on exclusive reservations of one generation and with a pin per Node that is a
    current credential of that Node, and each Node has a prepared Assignment that
    carries exactly this path and its position in it and that satisfies all checks a
    Snapshot of the Node and session makes of it; the plan's authority is current and
    ends no later than the credentials of its Nodes. *)
Theorem compileMultihopPlan_ok (input : MultihopCompileInput) (plan : RelayPreparedPlan) :
  forward_wf (mpi_forward (mci_plan input)) -> compileMultihopPlan input = Returns plan ->
  exists now, Date_text (mci_issuedAt input) = Some now /\ multihop_plan_ok input plan now.
Proof using All.
  intros Hf. unfold compileMultihopPlan. intros (resources & Hres & (topology & Ht & Hr)%bind_Returns)%bind_Returns.
  destruct (multihop_length _ _ _ Hf Hres Ht) as [Hlen Hnum].
  apply compiled_topology in Ht as [Hmax Htop]; [|done].
  apply bind_Returns in Hr as (profile & Hprof & Hr).
  assert (Hread : readable (relay_profile_json profile)).
  { unfold parseRelayMessage in Hprof. apply bind_Returns in Hprof as (x & Hx & (u & _ & [= ->])%bind_Returns).
    by apply read_as_readable in Hx. }
  destruct (Date_text (mci_issuedAt input)) as [now|]; [|done]. exists now. split; [done|].
  rewrite guard_seq in Hr. destruct Hr as (_ & ([pins until] & Hpins & Hr)%bind_Returns).
  apply bind_Returns in Hr as (plans & Hplans & ([generation rows] & Hrows & (d & Hd & Hplan)%bind_Returns)%bind_Returns).
  apply Returns_inj_iff in Hplan as ->. apply session_plans in Hplans.
  assert (Hnow : now < MAX_COUNTER).
  { apply pin_current in Hpins. destruct Hpins as [|n ? ? _]; [cbn in Hnum; lia|lia]. }
  apply (pin_peers input) in Hpins as (Hpinned & Hu & _ & Hcred); [|done|constructor|done]. cbn [fst snd] in *.
  apply protocol_paths in Hrows as (rows' & E & _ & Hrows); [|by intros En; rewrite En in Hlen; cbn in Hlen; lia|done].
  cbn [fst snd] in *. cbn in E; subst rows.
  assert (Hids : map pn_nodeId (pt_nodes topology) = sequence (spec (mpi_forward (mci_plan input)))) by apply Htop.
  split; cbn [with_digest rpp_forwardId rpp_forwardRevision rpp_path rpp_nodes rpp_authorizationUntil].
  - done.
  - by rewrite Hids.
  - rewrite <- Hids, length_map. rewrite <- Hids, length_map in Hmax. split; [done|exact Hmax].
  - rewrite <- Hids, <- Hplans. apply list_eq. intros i. rewrite !list_lookup_fmap, list_lookup_imap.
    by destruct (plans !! i).
  - apply Forall_forall. intros p [k Hk]%list_elem_of_lookup_1.
    destruct (Forall2_lookup_l _ _ _ _ _ Hrows Hk) as (row & Hrow & Hp).
    eapply (planned_rows input _ _ now profile topology pins plans row); try done.
    intros i n Hn. eexists. cbn [with_digest rpp_nodes]. rewrite list_lookup_imap, Hn. split; [done|].
    cbn. split_and!; [done|done|]. intros a Ha. eapply assignments_at_in; [|exact Ha]. by eapply list_elem_of_lookup_2.
  - done.
  - exact Hd.
Qed.
End PlanSpec.

(** ** A concrete path of three Nodes *)

Definition multihop_forward : Forward :=
  MkForward (js "f1") (js "s1") 4
    (MkSpec true [tcp] (js "n1") (Listen (js "0.0.0.0") 8080) (Target (js "192.0.2.9") 80) (Some [js "n2"; js "n3"])
            (Some (Transport (js "p1") 1))).

Lemma multihop_forward_wf : forward_wf multihop_forward.
Proof.
  constructor; [vm_compute; reflexivity..|]. constructor.
  - by left.
  - vm_compute; reflexivity.
  - vm_compute; reflexivity.
  - vm_compute; reflexivity.
  - vm_compute; reflexivity.
  - vm_compute; reflexivity.
  - intros via [= <-]. split_and!; [done|repeat constructor| |].
    + apply distinct_NoDup. vm_compute. reflexivity.
    + apply includes_false. vm_compute. reflexivity.
  - intros t [= <-]. split; reflexivity.
  - split; intros [? ?]; eauto.
Defined.

Definition multihop_facts (n : jsstr) (epoch c : Z) : RelayNodeExecutionFacts :=
  MkExecutionFacts (MkNodeFacts n (js "s1") [js "adp.3"; js "adp.execution.1"; js "native.multihop.v1"; js "multihop.wire.1"; js "tcp"]
    [js "0.0.0.0"] [8080] 1 [js "192.0.2.0/24"] false) epoch 1800000000000 [MkPeerCredential (pin c) 1790000000000].

Definition multihop_endpoint (n : jsstr) : ResolvedEndpoint :=
  MkResolvedEndpoint n 2 (MkRelayEndpoint (js "0.0.0.0") (js "192.0.2.7") [8443]).

Definition multihop_slot (n : jsstr) (role : PathRole) (port fence : Z) : ReservedRelayResource :=
  MkReservedRelay (MkPlanResource n role tcp tcp (js "0.0.0.0") port) (js "f1") 3 fence.

Definition multihop_input : MultihopCompileInput := {|
  mci_plan := {|
    mpi_forward := multihop_forward;
    mpi_nodes := [multihop_facts (js "n1") 5 97; multihop_facts (js "n2") 6 98; multihop_facts (js "n3") 7 99];
    mpi_profile := MkResolvedProfile (js "p1") 1 example_profile (sum_of (relay_profile_json example_profile));
    mpi_endpoints := [multihop_endpoint (js "n2"); multihop_endpoint (js "n3")];
    mpi_ports := fun _ _ => Some 8443 |};
  mci_reservations := [multihop_slot (js "n1") p_ingress 8080 10; multihop_slot (js "n2") p_transit 8443 11;
                       multihop_slot (js "n3") p_egress 8443 12];
  mci_drainTimeoutSeconds := 30; mci_issuedAt := js "2026-01-01T00:00:00.000Z" |}.

Lemma multihop_plan_returns : exists plan,
  @compileMultihopPlan checksum_hashing (accept_only example_profile) multihop_input = Returns plan.
Proof. eexists. vm_compute. reflexivity. Qed.

Lemma compileMultihopPlan_ok_witness : exists plan now,
  @multihop_plan_ok checksum_hashing multihop_input plan now.
Proof.
  destruct multihop_plan_returns as [plan E]. exists plan.
  destruct (@compileMultihopPlan_ok checksum_hashing (accept_only example_profile) example_profile_laws multihop_input plan
    multihop_forward_wf E) as (now & _ & Hok).
  exists now. exact Hok.
Defined.
