(* ===== verification/PathContract.v ===== *)
(** Native path templates as data (apps/control/src/modules/path-template-contract.ts and
    path-binding-contract.ts): the parsers of a template and of a selection, and the
    expansion of a template into the specification of a Forward. *)

From S2P Require Import Prelude.
From S2P Require Import JsString.
From S2P Require Import JsValue.
From S2P Require Import Primitives.
From S2P Require Import Json.
From S2P Require Import Forward.
From S2P Require Import Types.
From S2P Require Import Endpoint.
From S2P Require Import RelayPlan.

Local Open Scope Z_scope.

Record TemplateEndpoint := MkTemplateEndpoint { tep_nodeId : jsstr; tep_revision : Z }.

(** [version] is always 1. *)
Record PathTemplateConfig := MkTemplate {
  tpl_protocols : list NetworkProtocol; tpl_nodes : list jsstr; tpl_endpoints : list TemplateEndpoint; tpl_transport : TransportRef;
}.

(** Every object of the model is a plain one. *)
Definition closed_object (input : jsv) (fields : list jsstr) : outcome (list (jsstr * jsv)) :=
  match as_object input with
  | None => Throws (invalid "Closed PathTemplate fields required")
  | Some fs => _ ← throw_if (negb (str_eqb (sorted_keys fs) (join [44] (sort_by str_leb fields)))) "INVALID_CONFIG" "Closed PathTemplate fields required";
               Returns fs
  end.

Definition template_protocols (v : jsv) : bool :=
  match as_array v with
  | None => false
  | Some l => negb (length l =? 0)%nat && (length l <=? 2)%nat && forallb is_protocol l && distinct l
  end.

Definition template_nodes (v : jsv) : bool :=
  match as_array v with
  | None => false
  | Some l => (2 <=? length l)%nat && (length l <=? 8)%nat && forallb isId l && distinct l
  end.

(** The body of [value.endpoints.map]: [(nodes[index + 1], input)] *)
Definition template_endpoint (ni : jsv * jsv) : outcome TemplateEndpoint :=
  fs ← closed_object ni.2 [js "nodeId"; js "revision"];
  _ ← throw_if (negb (jsv_eqb (get fs (js "nodeId")) ni.1) || negb (isCounter (get fs (js "revision")) false))
        "INVALID_CONFIG" "Exact ordered downstream Endpoint revisions required";
  Returns (MkTemplateEndpoint (the_string (get fs (js "nodeId"))) (the_int (get fs (js "revision")))).

Definition parsePathTemplate (input : jsv) : outcome PathTemplateConfig :=
  value ← closed_object input [js "version"; js "protocols"; js "nodes"; js "endpoints"; js "transport"];
  let protocols := default [] (as_array (get value (js "protocols"))) in
  let nodes := default [] (as_array (get value (js "nodes"))) in
  let inputs := default [] (as_array (get value (js "endpoints"))) in
  _ ← throw_if (negb (jsv_eqb (get value (js "version")) (Num (NInt 1))) || negb (template_protocols (get value (js "protocols"))) ||
                negb (template_nodes (get value (js "nodes"))) ||
                negb match as_array (get value (js "endpoints")) with Some l => (length l =? length nodes - 1)%nat | None => false end)
        "INVALID_CONFIG" "A native template requires two to eight distinct ordered Nodes and bounded protocols";
  endpoints ← map_each template_endpoint (zip (tail nodes) inputs);
  profile ← closed_object (get value (js "transport")) [js "profileId"; js "configRevision"];
  _ ← throw_if (negb (isId (get profile (js "profileId"))) || negb (isCounter (get profile (js "configRevision")) false))
        "INVALID_CONFIG" "Locked native Transport Profile required";
  Returns (MkTemplate (filter (fun p => includes protocols (Str (protocol_name p)) = true) [tcp; udp]) (map the_string nodes) endpoints
             (Transport (the_string (get profile (js "profileId"))) (the_int (get profile (js "configRevision"))))).

Definition pathRequirements (c : PathTemplateConfig) : list jsstr :=
  [js "adp.3"; js "native.relay.v1"; js "relay.wire.1"] ++
  (if (2 <? length (tpl_nodes c))%nat then [js "adp.execution.1"; js "native.multihop.v1"; js "multihop.wire.1"] else []) ++
  map protocol_name (tpl_protocols c).

(** The value the parser returns, as JSON. *)
Definition template_json (c : PathTemplateConfig) : json :=
  JObj [(js "version", JInt 1); (js "protocols", JArr (map (fun p => JStr (protocol_name p)) (tpl_protocols c)));
        (js "nodes", JArr (map JStr (tpl_nodes c)));
        (js "endpoints", JArr (map (fun e => JObj [(js "nodeId", JStr (tep_nodeId e)); (js "revision", JInt (tep_revision e))]) (tpl_endpoints c)));
        (js "transport", JObj [(js "profileId", JStr (profileId (tpl_transport c))); (js "configRevision", JInt (configRevision (tpl_transport c)))])].

(** ** Selections *)

Record PathSelection := MkSelection { sel_templateId : jsstr; sel_revision : Z; sel_configDigest : jsstr }.

#[export] Instance PathSelection_eq_dec : EqDecision PathSelection.
Proof. solve_decision. Defined.

Definition parsePathSelection (input : jsv) : outcome PathSelection :=
  match as_object input with
  | None => Throws (invalid "Exact closed PathTemplate selection required")
  | Some fs =>
      _ ← throw_if (negb (str_eqb (sorted_keys fs) (js "configDigest,revision,templateId"))) "INVALID_CONFIG" "Exact closed PathTemplate selection required";
      _ ← throw_if (negb (isId (get fs (js "templateId"))) || negb (isCounter (get fs (js "revision")) false) || (64 <? the_int (get fs (js "revision"))) ||
                    negb (str_and is_fingerprint (get fs (js "configDigest")))) "INVALID_CONFIG" "Exact PathTemplate ID, revision and digest required";
      Returns (MkSelection (the_string (get fs (js "templateId"))) (the_int (get fs (js "revision"))) (the_string (get fs (js "configDigest"))))
  end.

Definition selection_json (s : PathSelection) : json :=
  JObj [(js "templateId", JStr (sel_templateId s)); (js "revision", JInt (sel_revision s)); (js "configDigest", JStr (sel_configDigest s))].

(** ** Expansion *)

(** [{ ...spec, path: { via }, transport }] *)
Definition with_path (s : ForwardSpec) (via : list jsstr) (t : TransportRef) : ForwardSpec :=
  MkSpec (enabled s) (protocols s) (ingress_nodeId s) (ingress_listen s) (target s) (Some via) (Some t).

Definition expandable (s : ForwardSpec) (c : PathTemplateConfig) : bool :=
  bool_decide (head (tpl_nodes c) = Some (ingress_nodeId s)) && (length (protocols s) =? length (tpl_protocols c))%nat &&
  forallb (includes (tpl_protocols c)) (protocols s).

Definition expandPath (s : ForwardSpec) (c : PathTemplateConfig) : outcome ForwardSpec :=
  _ ← throw_if (negb (expandable s c)) "UNSUPPORTED_CAPABILITY" "Path switching requires the same ingress Node and business protocol set";
  match parseForwardSpec (to_jsv (spec_json (with_path s (tail (tpl_nodes c)) (tpl_transport c)))) with
  | Ok next => Returns next
  | Err _ => Throws (Exn "INTEGRITY_FAILURE" "Invalid expanded native path")
  end.

(** ** What is accepted *)

Record template_wf (c : PathTemplateConfig) : Prop := {
  tw_protocols : protocols_wf (tpl_protocols c);
  tw_nodes : (2 <= length (tpl_nodes c) <= 8)%nat /\ Forall (fun n => is_id n = true) (tpl_nodes c) /\ NoDup (tpl_nodes c);
  tw_endpoints : map tep_nodeId (tpl_endpoints c) = tail (tpl_nodes c) /\ Forall (fun e => is_counter false (tep_revision e) = true) (tpl_endpoints c);
  tw_transport : transport_wf (tpl_transport c);
}.

Record selection_wf (s : PathSelection) : Prop := {
  sw_id : is_id (sel_templateId s) = true;
  sw_revision : 1 <= sel_revision s <= 64;
  sw_digest : is_fingerprint (sel_configDigest s) = true;
}.

Lemma closed_object_Returns input fields fs : closed_object input fields = Returns fs -> input = Obj fs.
Proof.
  unfold closed_object. destruct input; cbn; try done. intros Hr. run_inv. by subst.
Qed.

Lemma the_string_list l : map the_string (map Str l) = l.
Proof. induction l as [|s r IH]; cbn; [done|]. by rewrite IH. Qed.

Lemma template_nodes_inv v : template_nodes v = true ->
  exists l, v = Arr (map Str l) /\ (2 <= length l <= 8)%nat /\ Forall (fun n => is_id n = true) l /\ NoDup l.
Proof.
  unfold template_nodes. destruct v as [| | | | |vs|]; try done. cbn [as_array]. intros H. propify.
  destruct (isIds_inv vs ltac:(done)) as (l & -> & _ & HF). rewrite length_map in *. exists l. split_and!; try done.
  by apply NoDup_Str, distinct_NoDup.
Qed.

Lemma template_endpoint_Returns n v e : template_endpoint (Str n, v) = Returns e -> tep_nodeId e = n /\ is_counter false (tep_revision e) = true.
Proof.
  unfold template_endpoint. cbn. intros Hr. run_inv. subst. cbn. propify.
  apply jsv_eqb_eq in H as ->. apply isCounter_inv in H0 as (z & -> & Hz). done.
Qed.

Lemma template_endpoints_Returns ns vs es : length vs = length ns ->
  map_each template_endpoint (zip (map Str ns) vs) = Returns es ->
  map tep_nodeId es = ns /\ Forall (fun e => is_counter false (tep_revision e) = true) es.
Proof.
  intros Hl Hr%map_each_Returns. revert vs es Hl Hr. induction ns as [|n ns IH]; intros [|v vs] es Hl Hr; try done.
  - inversion Hr; subst. by split.
  - inversion Hr as [|? ? ? ? He Hrest]; subst. apply template_endpoint_Returns in He as [<- Hz].
    apply IH in Hrest as [<- HF]; [|cbn in *; lia]. split; [done|]. by constructor.
Qed.

Lemma parsePathTemplate_wf input c : parsePathTemplate input = Returns c -> template_wf c.
Proof.
  unfold parsePathTemplate. intros Hr. run_inv. subst. propify.
  match goal with Hn : template_nodes _ = true |- _ => apply template_nodes_inv in Hn as (ns & En & Hlen & HF & HN) end.
  destruct (get a (js "endpoints")) as [| | | | |es|] eqn:Ee; try done. rewrite En in *. cbn [as_array default from_option Datatypes.id] in *.
  rewrite length_map in *. propify.
  match goal with Hm : map_each _ _ = _ |- _ => replace (tail (map Str ns)) with (map Str (tail ns)) in Hm by (by destruct ns);
    apply template_endpoints_Returns in Hm as [Hen Hec]; [|destruct ns; cbn in *; lia] end.
  split; cbn.
  - match goal with Hp : template_protocols _ = true |- _ => rename Hp into Hps end. unfold template_protocols in Hps.
    destruct (get a (js "protocols")) as [| | | | |ps|]; try done. cbn in *. propify.
    apply protocols_filter; try done. destruct ps; [done|]. cbn. lia.
  - by rewrite the_string_list.
  - by rewrite the_string_list.
  - match goal with Hp : isId _ = true, Hc : isCounter (get _ (js "configRevision")) _ = true |- _ =>
      apply isId_inv in Hp as (p & -> & Hp); apply isCounter_inv in Hc as (z & -> & Hz) end. done.
Qed.

Lemma template_protocols_wf ps : protocols_wf ps -> template_protocols (Arr (map (fun p => Str (protocol_name p)) ps)) = true.
Proof. intros [->|[->| ->]]; vm_compute; done. Qed.

Lemma template_nodes_wf l : (2 <= length l <= 8)%nat -> Forall (fun n => is_id n = true) l -> NoDup l -> template_nodes (Arr (map Str l)) = true.
Proof.
  intros Hl HF HN. unfold template_nodes. cbn [as_array]. rewrite length_map, !andb_true_iff, !Nat.leb_le. split_and!; try lia.
  - apply forallb_Forall, Forall_map. eapply Forall_impl; [exact HF|]. done.
  - by apply distinct_NoDup, NoDup_Str.
Qed.

Definition endpoint_input (e : TemplateEndpoint) : jsv := Obj [(js "nodeId", Str (tep_nodeId e)); (js "revision", Num (NInt (tep_revision e)))].

Lemma template_endpoint_canonical e : is_counter false (tep_revision e) = true ->
  template_endpoint (Str (tep_nodeId e), endpoint_input e) = Returns e.
Proof.
  intros Hc. unfold template_endpoint, closed_object, endpoint_input. cbn [as_object fst snd].
  replace (str_eqb (sorted_keys _) _) with true by (vm_compute; done). cbn [negb throw_if]. unfold mbind, outcome_bind. js_get.
  rewrite (proj2 (jsv_eqb_eq _ _)) by done. cbn [isCounter]. rewrite Hc. cbn. by destruct e.
Qed.

Lemma template_endpoints_canonical es : Forall (fun e => is_counter false (tep_revision e) = true) es ->
  map_each template_endpoint (zip (map Str (map tep_nodeId es)) (map endpoint_input es)) = Returns es.
Proof.
  intros HF. apply map_each_Returns. induction HF as [|e es He _ IH]; cbn; constructor; [by apply template_endpoint_canonical|done].
Qed.

Lemma template_jsv c : to_jsv (template_json c) =
  Obj [(js "version", Num (NInt 1)); (js "protocols", Arr (map (fun p => Str (protocol_name p)) (tpl_protocols c)));
       (js "nodes", Arr (map Str (tpl_nodes c))); (js "endpoints", Arr (map endpoint_input (tpl_endpoints c)));
       (js "transport", Obj [(js "profileId", Str (profileId (tpl_transport c))); (js "configRevision", Num (NInt (configRevision (tpl_transport c))))])].
Proof. unfold template_json. cbn. by rewrite !map_map. Qed.

Lemma parse_template_canonical c : template_wf c -> parsePathTemplate (to_jsv (template_json c)) = Returns c.
Proof.
  intros [Hp (Hl & HF & HN) [He Hc] [Ht1 Ht2]]. rewrite template_jsv. unfold parsePathTemplate, closed_object. cbn [as_object].
  replace (str_eqb (sorted_keys _) _) with true by (vm_compute; done). cbn [negb throw_if]. unfold mbind, outcome_bind. js_get.
  cbn [as_array default from_option Datatypes.id]. rewrite !length_map.
  rewrite (template_protocols_wf _ Hp), (template_nodes_wf _ Hl HF HN).
  replace (length (tpl_endpoints c) =? length (tpl_nodes c) - 1)%nat with true.
  2:{ symmetry. apply Nat.eqb_eq. rewrite <- (length_map tep_nodeId), He. by destruct (tpl_nodes c); cbn; lia. }
  rewrite (proj2 (jsv_eqb_eq _ _)) by done. cbn [negb orb throw_if].
  replace (tail (map Str (tpl_nodes c))) with (map Str (map tep_nodeId (tpl_endpoints c))) by (rewrite He; by destruct (tpl_nodes c)).
  rewrite (template_endpoints_canonical _ Hc). cbn [as_object].
  replace (str_eqb (sorted_keys _) _) with true by (vm_compute; done). cbn [negb throw_if]. js_get. cbn [isId isCounter].
  rewrite Ht1, Ht2. cbn [negb orb throw_if]. rewrite the_string_list. destruct (protocols_parse _ Hp) as [_ ->]. by destruct c as [? ? ? []].
Qed.

(** ** Expansion *)

Lemma with_path_wf s c : spec_wf s -> template_wf c -> expandable s c = true -> spec_wf (with_path s (tail (tpl_nodes c)) (tpl_transport c)).
Proof.
  intros [] [Hp (Hl & HF & HN) _ Ht] He. unfold expandable in He. propify.
  destruct (tpl_nodes c) as [|n ns]; [done|]. cbn in *. injection H as ->.
  apply NoDup_cons in HN as [Hn HN]. apply Forall_cons in HF as [_ HF].
  split; cbn; try done.
  - intros via [= <-]. split_and!; try done. by destruct ns; cbn in *; [lia|].
  - by intros t [= <-].
Qed.

(** What a template changes of a Forward: its path, and nothing of its business intent. *)
Lemma expandPath_run s c : spec_wf s -> template_wf c ->
  expandPath s c = if expandable s c then Returns (with_path s (tail (tpl_nodes c)) (tpl_transport c))
                   else Throws (Exn "UNSUPPORTED_CAPABILITY" "Path switching requires the same ingress Node and business protocol set").
Proof.
  intros Hs Hc. unfold expandPath. destruct (expandable s c) eqn:E; cbn [negb throw_if]; [|done].
  unfold mbind, outcome_bind. by rewrite parse_spec_canonical by by apply with_path_wf.
Qed.

Lemma expandPath_wf s c next : expandPath s c = Returns next -> spec_wf next.
Proof.
  unfold expandPath. intros Hr. run_inv. destruct (parseForwardSpec _) eqn:E; [|done]. injection Hr as <-. by eapply parseForwardSpec_wf.
Qed.

Lemma protocols_same ps qs : protocols_wf ps -> protocols_wf qs -> length ps = length qs -> forallb (includes qs) ps = true -> ps = qs.
Proof. intros [->|[->| ->]] [->|[->| ->]]; by vm_compute. Qed.

(** Path templates are canonical and expand to exactly what they say.  Whatever
    [parsePathTemplate] accepts is a well-formed template (two to eight distinct Nodes, the
    endpoints of the downstream ones in order, a locked Profile) that parses back to
    itself.  On a well-formed specification [expandPath] never fails for another reason
    than a different ingress Node or protocol set; the result is well formed, runs through
    exactly the Nodes of the template, keeps the rest of the business intent, and
    expanding it again changes nothing. *)
Theorem expandPath_exact (input : jsv) (c : PathTemplateConfig) (s : ForwardSpec) : parsePathTemplate input = Returns c -> spec_wf s ->
  (template_wf c /\ parsePathTemplate (to_jsv (template_json c)) = Returns c) /\
  (forall e, expandPath s c = Throws e -> code e = "UNSUPPORTED_CAPABILITY"%string /\
     (head (tpl_nodes c) <> Some (ingress_nodeId s) \/ protocols s <> tpl_protocols c)) /\
  (forall next, expandPath s c = Returns next -> spec_wf next /\
     ingress_nodeId next :: default [] (path_via next) = tpl_nodes c /\ transport next = Some (tpl_transport c) /\ protocols next = tpl_protocols c /\
     (enabled next, ingress_listen next, target next) = (enabled s, ingress_listen s, target s) /\
     expandPath next c = Returns next).
Proof.
  intros Hc%parsePathTemplate_wf Hs. split; [by split; [|apply parse_template_canonical]|]. rewrite expandPath_run by done. split.
  - intros e. destruct (expandable s c) eqn:E; [done|]. intros [= <-]. split; [done|].
    destruct (decide (head (tpl_nodes c) = Some (ingress_nodeId s))) as [Hh|]; [right|by left]. intros Hp. revert E.
    unfold expandable. rewrite bool_decide_eq_true_2 by done. rewrite Hp, Nat.eqb_refl. cbn [andb].
    by destruct (tw_protocols c Hc) as [->|[->| ->]].
  - intros next. destruct (expandable s c) eqn:E; [|done]. intros [= <-]. pose proof (with_path_wf s c Hs Hc E) as Hw.
    assert (E' : expandable (with_path s (tail (tpl_nodes c)) (tpl_transport c)) c = true) by exact E.
    split_and!; try done; [| |by rewrite expandPath_run, E' by done].
    + unfold expandable in E. propify. cbn. destruct (tpl_nodes c); [done|]. cbn in *. by injection H as ->.
    + unfold expandable in E. propify. cbn. apply protocols_same; [apply Hs|apply Hc|done|done].
Qed.

Definition example_template : PathTemplateConfig :=
  MkTemplate [tcp] [js "n1"; js "n2"] [MkTemplateEndpoint (js "n2") 3] (Transport (js "p1") 1).

Lemma expandPath_exact_witness : parsePathTemplate (to_jsv (template_json example_template)) = Returns example_template /\
  exists next, expandPath example_spec example_template = Returns next /\ ingress_nodeId next :: default [] (path_via next) = [js "n1"; js "n2"].
Proof.
  assert (E : parsePathTemplate (to_jsv (template_json example_template)) = Returns example_template) by (vm_compute; reflexivity).
  split; [exact E|]. eexists. split; [vm_compute; reflexivity|].
  refine (proj1 (proj2 (proj2 (proj2 (expandPath_exact _ _ _ E example_spec_wf)) _ _))). vm_compute. reflexivity.
Defined.

Lemma parsePathSelection_wf input s : parsePathSelection input = Returns s -> selection_wf s.
Proof.
  unfold parsePathSelection. destruct (as_object input) as [fs|]; [|done]. intros Hr. run_inv. subst. propify.
  match goal with Hi : isId _ = true, Hc : isCounter _ _ = true, Hd : str_and _ _ = true |- _ =>
    apply isId_inv in Hi as (i & -> & Hi); apply isCounter_inv in Hc as (z & Hz & Hc); rewrite Hz in *;
    destruct (get fs (js "configDigest")) as [| | | |d| |]; try done end.
  unfold is_counter in *. cbn in *. propify. split; cbn; [done|lia|done].
Qed.

Lemma parse_selection_canonical s : selection_wf s -> parsePathSelection (to_jsv (selection_json s)) = Returns s.
Proof.
  intros [Hi Hr Hd]. unfold parsePathSelection, selection_json. cbn [to_jsv as_object map].
  replace (str_eqb (sorted_keys _) _) with true by (vm_compute; done). cbn [negb throw_if]. unfold mbind, outcome_bind. js_get.
  cbn [isId isCounter str_and the_int as_int default from_option Datatypes.id]. rewrite Hi, Hd.
  replace (is_counter false (sel_revision s)) with true by (symmetry; unfold is_counter, MAX_COUNTER; rewrite andb_true_iff, !Z.leb_le; lia).
  rewrite (proj2 (Z.ltb_ge 64 _)) by lia. cbn. by destruct s.
Qed.
