(* ===== verification/Iso.v ===== *)
(** [new Date(ms).toISOString()] of the language's library, with its inverse [Date.parse]. *)

From S2P Require Import Prelude.
From S2P Require Import JsString.
From S2P Require Import Time.
From S2P Require Import RelayPlan.

Local Open Scope Z_scope.

(** [lia] with quotients and remainders *)
Ltac div_lia := Z.to_euclidean_division_equations; lia.

(** The largest year that begins on or before the day: the average length of a year gives
    it up to one. *)
Definition year_of (days : Z) : Z :=
  let y := 1970 + 400 * days / 146097 in
  if days <? day_from_year y then y - 1 else if day_from_year (y + 1) <=? days then y + 1 else y.

(** Days before the month [m] of the year. *)
Definition month_start (leap : bool) (m : Z) : Z := days_before_month m + (if leap && (2 <? m) then 1 else 0).

(** The last month that starts on or before the day of the year. *)
Definition month_of (leap : bool) (doy : Z) : Z :=
  Z.of_nat (length (List.filter (fun m => month_start leap m <=? doy) [1; 2; 3; 4; 5; 6; 7; 8; 9; 10; 11; 12])).

Definition civil (days : Z) : Z * Z * Z :=
  let y := year_of days in
  let doy := days - day_from_year y in
  let m := month_of (leap_year y) doy in
  (y, m, doy - month_start (leap_year y) m + 1).

Definition padStart (n : nat) (s : jsstr) : jsstr := replicate (n - length s) 48 ++ s.

Definition year_text (y : Z) : jsstr :=
  if (0 <=? y) && (y <=? 9999) then padStart 4 (to_base 10 y)
  else (if y <? 0 then [45] else [43]) ++ padStart 6 (to_base 10 (Z.abs y)).

Definition two (n : Z) : jsstr := padStart 2 (to_base 10 n).

Definition iso_text (ms : Z) : jsstr :=
  let '(y, m, d) := civil (ms / 86400000) in
  let t := ms mod 86400000 in
  year_text y ++ ch_dash :: two m ++ ch_dash :: two d ++ 84 :: two (t / 3600000) ++ ch_colon ::
  two (t / 60000 mod 60) ++ ch_colon :: two (t / 1000 mod 60) ++ ch_dot :: padStart 3 (to_base 10 (t mod 1000)) ++ [90].

Definition toISOString (ms : Z) : outcome jsstr :=
  _ ← throw_if (8640000000000000 <? Z.abs ms) "RangeError" "Invalid time value"; Returns (iso_text ms).

(** ** The calendar *)

Lemma div_step n k y : 0 < n -> (y + 1 - (k * n + 1)) / n = (y - (k * n + 1)) / n + (if y mod n =? 0 then 1 else 0).
Proof.
  intros Hn. pose proof (Z.div_mod y n ltac:(lia)) as E. pose proof (Z.mod_pos_bound y n Hn) as B.
  set (q := y / n) in *. set (r := y mod n) in *.
  assert (E1 : (y + 1 - (k * n + 1)) / n = q - k) by (symmetry; apply Z.div_unique with r; nia).
  destruct (Z.eqb_spec r 0) as [R|R].
  - assert (E2 : (y - (k * n + 1)) / n = q - k - 1) by (symmetry; apply Z.div_unique with (n - 1); nia). lia.
  - assert (E2 : (y - (k * n + 1)) / n = q - k) by (symmetry; apply Z.div_unique with (r - 1); nia). lia.
Qed.

Lemma year_length y : day_from_year (y + 1) = day_from_year y + (if leap_year y then 366 else 365).
Proof.
  assert (H4 : (y + 1 - 1969) / 4 = (y - 1969) / 4 + (if y mod 4 =? 0 then 1 else 0)) by by apply (div_step 4 492).
  assert (H100 : (y + 1 - 1901) / 100 = (y - 1901) / 100 + (if y mod 100 =? 0 then 1 else 0)) by by apply (div_step 100 19).
  assert (H400 : (y + 1 - 1601) / 400 = (y - 1601) / 400 + (if y mod 400 =? 0 then 1 else 0)) by by apply (div_step 400 4).
  assert (A : y mod 100 = 0 -> y mod 4 = 0) by div_lia. assert (B : y mod 400 = 0 -> y mod 100 = 0) by div_lia.
  unfold day_from_year, leap_year. rewrite H4, H100, H400.
  destruct (Z.eqb_spec (y mod 4) 0), (Z.eqb_spec (y mod 100) 0), (Z.eqb_spec (y mod 400) 0); cbn [andb orb negb]; try tauto; lia.
Qed.

Lemma year_of_spec days : day_from_year (year_of days) <= days < day_from_year (year_of days + 1).
Proof.
  unfold year_of. set (y := 1970 + 400 * days / 146097).
  assert (Hlo : day_from_year (y - 1) <= days) by (unfold day_from_year, y; div_lia).
  assert (Hhi : days < day_from_year (y + 1 + 1)) by (unfold day_from_year, y; div_lia).
  destruct (Z.ltb_spec days (day_from_year y)); [rewrite Z.sub_add; lia|].
  destruct (Z.leb_spec (day_from_year (y + 1)) days); lia.
Qed.

Definition month_ok (leap : bool) (doy : Z) : bool :=
  let m := month_of leap doy in
  let d := doy - month_start leap m + 1 in
  (1 <=? m) && (m <=? 12) && (1 <=? d) && (d <=? 31).

Lemma months_ok : forallb (fun n => month_ok false (Z.of_nat n)) (seq 0 365) && forallb (fun n => month_ok true (Z.of_nat n)) (seq 0 366) = true.
Proof. vm_compute. reflexivity. Qed.

Lemma month_of_spec (leap : bool) (doy : Z) : 0 <= doy < (if leap then 366 else 365) -> month_ok leap doy = true.
Proof.
  intros Hd. pose proof months_ok as H. apply andb_prop in H as [Hc Hl]. rewrite <- (Z2Nat.id doy) by lia.
  destruct leap; [eapply forallb_forall in Hl; [exact Hl|]|eapply forallb_forall in Hc; [exact Hc|]]; apply in_seq; lia.
Qed.

Lemma month_day leap doy : 0 <= doy < (if leap : bool then 366 else 365) ->
  1 <= month_of leap doy <= 12 /\ 1 <= doy - month_start leap (month_of leap doy) + 1 <= 31.
Proof. intros H%month_of_spec. unfold month_ok in H. cbn zeta in H. propify. lia. Qed.

Definition civil_spec (days : Z) '(y, m, d) : Prop :=
  make_day y m d = days /\ 1 <= m <= 12 /\ 1 <= d <= 31 /\ day_from_year y <= days < day_from_year (y + 1).

Lemma make_day_month y m doy : make_day y m (doy - month_start (leap_year y) m + 1) = day_from_year y + doy.
Proof. unfold make_day, month_start. lia. Qed.

Lemma civil_correct days : civil_spec days (civil days).
Proof.
  unfold civil. cbn zeta. pose proof (year_of_spec days) as Hy. pose proof Hy as Hlen. rewrite year_length in Hlen.
  destruct (month_day (leap_year (year_of days)) (days - day_from_year (year_of days)) ltac:(lia)) as [Hm Hd].
  unfold civil_spec. rewrite make_day_month. split; [lia|]. split; [exact Hm|]. split; [exact Hd|exact Hy].
Qed.

(** ** The text *)

Lemma digits_pad n v rest : 0 <= v < 10 ^ Z.of_nat n -> (0 < n)%nat -> digits n (padStart n (to_base 10 v) ++ rest) = Some (v, rest).
Proof.
  intros Hv Hn.
  assert (Hlen : (length (to_base 10 v) <= n)%nat) by (destruct n as [|k]; [lia|]; by apply to_base_length).
  assert (Hpad : length (padStart n (to_base 10 v)) = n) by (unfold padStart; rewrite length_app, length_replicate; lia).
  unfold digits. rewrite take_app_length', drop_app_length' by done. rewrite Hpad, Nat.eqb_refl.
  assert (Hdig : forallb is_digit (padStart n (to_base 10 v)) = true).
  { unfold padStart. rewrite forallb_app, forallb_replicate_zero. apply to_base_10_digits. lia. }
  rewrite Hdig. cbn. unfold padStart. rewrite of_base_10_app.
  assert (Hz : forall k, of_base 10 (replicate k 48) = 0).
  { clear. induction k as [|k IH]; [done|]. replace (S k) with (k + 1)%nat by lia. rewrite replicate_add. cbn. by rewrite of_base_snoc, IH. }
  rewrite Hz, Z.mul_0_l, of_base_to_base by lia. done.
Qed.

(** The range of the four-digit years, in milliseconds. *)
Definition in_calendar (ms : Z) : Prop := -62167219200000 <= ms < 253402300800000.

Lemma eat_head c s : eat c (c :: s) = Some s.
Proof. unfold eat. cbn. by rewrite Z.eqb_refl. Qed.

Lemma fraction_z_ms v : 0 <= v < 1000 -> fraction_z (ch_dot :: padStart 3 (to_base 10 v) ++ [90]) = Some (padStart 3 (to_base 10 v)).
Proof.
  intros Hv. unfold fraction_z. rewrite eat_head.
  assert (Hlen : (length (to_base 10 v) <= 3)%nat) by by apply (to_base_length 10 ltac:(lia) v 2).
  assert (Hdig : forallb is_digit (padStart 3 (to_base 10 v)) = true).
  { unfold padStart. rewrite forallb_app, forallb_replicate_zero. apply to_base_10_digits. lia. }
  assert (Hne : padStart 3 (to_base 10 v) <> []).
  { intros E. apply (f_equal length) in E. unfold padStart in E. rewrite length_app, length_replicate in E. cbn in E. lia. }
  assert (Hspan : forall s, forallb is_digit s = true -> span_digits (s ++ [90]) = (s, [90])).
  { clear. induction s as [|c s IH]; [done|]. cbn [forallb app]. intros H. propify. cbn [span_digits]. rewrite H. by rewrite IH. }
  rewrite Hspan by done. rewrite bool_decide_eq_false_2 by done. by rewrite bool_decide_eq_true_2.
Qed.

(** [Date.parse] reads back the text of every instant of a four-digit year. *)
Lemma Date_text_iso ms : in_calendar ms -> toISOString ms = Returns (iso_text ms) /\ Date_text (iso_text ms) = Some ms.
Proof.
  intros Hms. unfold in_calendar in Hms. split.
  - unfold toISOString. replace (8640000000000000 <? Z.abs ms) with false by (symmetry; apply Z.ltb_ge; lia). done.
  - unfold iso_text. set (days := ms / 86400000). set (t := ms mod 86400000).
    assert (Ht : ms = days * 86400000 + t /\ 0 <= t < 86400000) by (unfold days, t; div_lia).
    pose proof (civil_correct days) as Hc. unfold civil_spec in Hc. destruct (civil days) as [[y m] d]. destruct Hc as (Hday & Hm & Hd & Hy).
    assert (Hyear : 0 <= y <= 9999) by (unfold day_from_year in Hy; div_lia).
    assert (Hh : 0 <= t / 3600000 <= 23 /\ 0 <= t / 60000 mod 60 <= 59 /\ 0 <= t / 1000 mod 60 <= 59 /\ 0 <= t mod 1000 < 1000 /\
      t = ((t / 3600000 * 60 + t / 60000 mod 60) * 60 + t / 1000 mod 60) * 1000 + t mod 1000) by div_lia.
    unfold Date_text, scan_instant, year_text, two.
    replace ((0 <=? y) && (y <=? 9999)) with true by (symmetry; apply andb_true_intro; split; apply Z.leb_le; lia).
    rewrite digits_pad by lia. cbn [mbind option_bind]. rewrite eat_head. cbn [mbind option_bind].
    rewrite digits_pad by lia. cbn [mbind option_bind]. rewrite eat_head. cbn [mbind option_bind].
    rewrite digits_pad by lia. cbn [mbind option_bind]. rewrite eat_head. cbn [mbind option_bind].
    rewrite digits_pad by lia. cbn [mbind option_bind]. rewrite eat_head. cbn [mbind option_bind].
    rewrite digits_pad by lia. cbn [mbind option_bind]. rewrite eat_head. cbn [mbind option_bind].
    rewrite digits_pad by lia. cbn [mbind option_bind]. rewrite fraction_z_ms by lia. cbn [mbind option_bind].
    unfold Date_parse.
    replace ((1 <=? m) && (m <=? 12) && (1 <=? d) && (d <=? 31) && _) with true by (symmetry; repeat (apply andb_true_intro; split); try (apply Z.leb_le; lia); apply orb_true_intro; left; repeat (apply andb_true_intro; split); apply Z.leb_le; lia).
    cbn [mbind option_bind].
    replace (t / 3600000 =? 24) with false by (symmetry; apply Z.eqb_neq; lia). cbn [andb].
    pose proof (digits_pad 3 (t mod 1000) [] ltac:(cbn; lia) ltac:(lia)) as Hf. rewrite app_nil_r in Hf. unfold digits in Hf.
    assert (Hlen : length (padStart 3 (to_base 10 (t mod 1000))) = 3%nat).
    { unfold padStart. rewrite length_app, length_replicate. assert ((length (to_base 10 (t mod 1000)) <= 3)%nat) by (apply (to_base_length 10 ltac:(lia) (t mod 1000) 2); cbn; lia). lia. }
    unfold padEnd. rewrite Hlen. cbn [Nat.sub replicate]. rewrite app_nil_r.
    destruct (_ && _) in Hf; [|done]. injection Hf as Hf _. rewrite Hf, Hday. f_equal. lia.
Qed.
