(* ===== verification/TransitPlan.v ===== *)
(** The offline Transit planner (apps/control/src/modules/runtime/transit-preparation.ts): from a
    Forward over three to eight Nodes it compiles the physical resources of every hop and
    a plan that binds every hop to its neighbours' identities.  The plan is not executable. *)

From S2P Require Import Prelude.
From S2P Require Import JsString.
From S2P Require Import JsValue.
From S2P Require Import Primitives.
From S2P Require Import Json.
From S2P Require Import Forward.
From S2P Require Import Time.
From S2P Require Import Digest.
From S2P Require Import Types.
From S2P Require Import Cidr.
From S2P Require Import Validate.
From S2P Require Import Schema.
From S2P Require Import Relay.
From S2P Require Import Adp3.
From S2P Require Import Transit.
From S2P Require Import Probe.
From S2P Require Import TargetPolicy.
From S2P Require Import Endpoint.
From S2P Require Import Topology.
From S2P Require Import Planner.
From S2P Require Import RelayPlan.
From S2P Require Import MultihopPlan.
From S2P Require Import Iso.

Local Open Scope Z_scope.

(** [TransitResource] and [ReservedTransitResource] have the members of [PlanResource] and
    [ReservedRelayResource]. *)

(** [Record<string, Partial<Record<'tcp'|'udp', number>>>]: per Node the TCP and the UDP port *)
Definition TransitPorts : Type := list (jsstr * (option Z * option Z)).

Definition port_of (ports : TransitPorts) (nodeId : jsstr) (p : NetworkProtocol) : option Z :=
  match find (fun e => str_eqb e.1 nodeId) ports with
  | Some (_, (t, u)) => match p with tcp => t | udp => u end
  | None => None
  end.

Definition put_port (entry : option Z * option Z) (p : NetworkProtocol) (port : Z) : option Z * option Z :=
  match p with tcp => (Some port, entry.2) | udp => (entry.1, Some port) end.

(** [ports[nodeId] ??= {}; ports[nodeId][protocol] = port] *)
Fixpoint set_port (ports : TransitPorts) (nodeId : jsstr) (p : NetworkProtocol) (port : Z) : TransitPorts :=
  match ports with
  | [] => [(nodeId, put_port (None, None) p port)]
  | (n, entry) :: r => if str_eqb n nodeId then (n, put_port entry p port) :: r else (n, entry) :: set_port r nodeId p port
  end.

Record HopBinding := MkHopBinding {
  hb_assignmentId : jsstr; hb_nodeId : jsstr; hb_role : PathRole; hb_protocol : NetworkProtocol; hb_sessionEpoch : Z;
  hb_bindingFence : Z; hb_resource : PlanResource; hb_upstreamNodeId : option jsstr; hb_downstreamNodeId : option jsstr;
}.

(** [executable] is always [false]. *)
Record TransitPreparation := MkTransitPreparation {
  tp_scopeId : jsstr; tp_forwardId : jsstr; tp_forwardRevision : Z; tp_deploymentGeneration : Z; tp_profileDigest : jsstr;
  tp_pathDigest : jsstr; tp_authorizationUntil : Z; tp_activationOrder : list jsstr; tp_assignments : list HopBinding;
  tp_intents : list TransitIntent; tp_planDigest : jsstr;
}.

Record TransitInput := MkTransitInput {
  tri_forward : Forward; tri_profile : ResolvedProfile; tri_nodes : list RelayNodeExecutionFacts;
  tri_endpoints : list ResolvedEndpoint; tri_ports : TransitPorts;
}.

(** ** checkPath *)

Definition role_features (r : PathRole) : list jsstr :=
  match r with
  | p_transit => [js "native.transit.v1"; js "transit.wire.1"]
  | _ => [js "native.relay.v1"; js "relay.wire.1"]
  end.

(** The body of the loop over the hops. *)
Definition check_hop (input : TransitInput) (f : Forward) (hop : PathNode) : outcome unit :=
  let s := spec f in
  match find_node (tri_nodes input) (pn_nodeId hop) with
  | None => Throws (Exn "UNSUPPORTED_CAPABILITY" "Scoped multi-hop capability required")
  | Some node =>
      let facts := xf_facts node in
      let caps := nf_capabilities facts in
      _ ← throw_if (negb (str_eqb (nf_scopeId facts) (scopeId f)) || negb (includes caps (js "adp.3")) ||
                    negb (includes caps (js "adp.multihop.1")) ||
                    existsb (fun p => negb (includes caps (protocol_name p))) (protocols s))
            "UNSUPPORTED_CAPABILITY" "Scoped multi-hop capability required";
      _ ← throw_if (existsb (fun x => negb (includes caps x)) (role_features (pn_role hop)))
            "UNSUPPORTED_CAPABILITY" "Role-specific wire support required";
      _ ← throw_if (negb (is_counter false (nf_egressPolicyRevision facts)) || (length (nf_allowedDestinationCidrs facts) =? 0)%nat ||
                    existsb (fun c => negb (validCidr c)) (nf_allowedDestinationCidrs facts))
            "AUTHORIZATION_DENIED" "Missing destination policy";
      _ ← (if (pn_index hop =? 0)%nat then
             throw_if (negb (includes (nf_allowedListenerAddresses facts) (address (ingress_listen s))) ||
                       negb (includes (nf_allowedPorts facts) (listen_port (ingress_listen s))))
               "AUTHORIZATION_DENIED" "Ingress listener denied"
           else
             match find_endpoint (tri_endpoints input) (pn_nodeId hop) with
             | None => Throws (Exn "AUTHORIZATION_DENIED" "Missing next hop endpoint")
             | Some endpoint =>
                 _ ← parseRelayEndpoint (endpoint_jsv (rse_config endpoint));
                 throw_if (negb (includes (nf_allowedListenerAddresses facts) (re_listenAddress (rse_config endpoint))))
                   "AUTHORIZATION_DENIED" "Internal bind address denied"
             end);
      match pn_downstreamNodeId hop with
      | Some downstream =>
          throw_if (match find_endpoint (tri_endpoints input) downstream with
                    | None => true
                    | Some next => negb (targetAllowed (re_advertisedHost (rse_config next)) facts)
                    end) "AUTHORIZATION_DENIED" "Neighbor target denied"
      | None => throw_if (negb (targetAllowed (host (target s)) facts)) "AUTHORIZATION_DENIED" "Egress destination denied"
      end
  end.

Section Resources.
Context `{Hashing, Schema RelayProfileConfig}.

Definition checkPath (input : TransitInput) : outcome (Forward * PathTopology) :=
  match reparse (tri_forward input) with
  | Err _ => Throws (Exn "INVALID_CONFIG" "Enabled multi-hop path and locked Profile required")
  | Ok f =>
      match (if enabled (spec f) then transport (spec f) else None) with
      | None => Throws (Exn "INVALID_CONFIG" "Enabled multi-hop path and locked Profile required")
      | Some ref =>
          route ← compilePathTopology f;
          let n := length (pt_nodes route) in
          _ ← throw_if (n <? 3)%nat "UNSUPPORTED_CAPABILITY" "Transit requires at least three Nodes";
          _ ← throw_if (negb (str_eqb (rpf_profileId (tri_profile input)) (profileId ref)) ||
                        negb (rpf_revision (tri_profile input) =? configRevision ref) ||
                        negb (is_counter false (rpf_revision (tri_profile input))))
                "AUTHORIZATION_DENIED" "Profile revision differs";
          profile ← parseRelayMessage ProfileConfig_ (stringify (relay_profile_json (rpf_config (tri_profile input)))) 4096;
          _ ← (d ← digest_differs (relay_profile_json profile) (rpf_configDigest (tri_profile input));
               throw_if d "INTEGRITY_FAILURE" "Profile config differs");
          _ ← throw_if (existsb (fun p => negb (includes (rp_protocols profile) p)) (protocols (spec f)))
                "INTEGRITY_FAILURE" "Profile config differs";
          _ ← throw_if (negb (length (tri_nodes input) =? n)%nat || negb (length (tri_endpoints input) =? n - 1)%nat)
                "AUTHORIZATION_DENIED" "Complete Node/endpoint facts required";
          _ ← throw_if (existsb (fun e => negb (includes (map pn_nodeId (pt_nodes route)) e.1) ||
                                          str_eqb e.1 (ingress_nodeId (spec f))) (tri_ports input))
                "INVALID_CONFIG" "Unexpected internal port owner";
          _ ← throw_if (negb (length (new_Set (map node_id_of (tri_nodes input))) =? n)%nat ||
                        negb (length (new_Set (map rse_nodeId (tri_endpoints input))) =? n - 1)%nat)
                "AUTHORIZATION_DENIED" "Duplicate Node or missing endpoint";
          _ ← each (check_hop input f) (pt_nodes route);
          Returns (f, route)
      end
  end.

(** The resource of one hop and protocol. *)
Definition transit_resource (input : TransitInput) (f : Forward) (hop : PathNode) (p : NetworkProtocol) : outcome PlanResource :=
  let endpoint := if (0 <? pn_index hop)%nat then find_endpoint (tri_endpoints input) (pn_nodeId hop) else None in
  match (match endpoint with
         | Some _ => port_of (tri_ports input) (pn_nodeId hop) p
         | None => Some (listen_port (ingress_listen (spec f)))
         end) with
  | None => Throws (Exn "RESOURCE_CONFLICT" "Missing internal TLS port")
  | Some port =>
      _ ← throw_if (negb (is_port port)) "RESOURCE_CONFLICT" "Missing internal TLS port";
      match endpoint with
      | Some e =>
          _ ← throw_if (negb (includes (re_allowedTcpPorts (rse_config e)) port)) "AUTHORIZATION_DENIED" "Internal TLS port denied";
          Returns (MkPlanResource (pn_nodeId hop) (pn_role hop) p tcp (re_listenAddress (rse_config e)) port)
      | None => Returns (MkPlanResource (pn_nodeId hop) (pn_role hop) p p (address (ingress_listen (spec f))) port)
      end
  end.

Definition compileTransitResources (input : TransitInput) : outcome (list PlanResource) :=
  '(f, route) ← checkPath input;
  out ← map_each (fun hop => map_each (transit_resource input f hop) (protocols (spec f))) (pt_nodes route);
  let out := concat out in
  _ ← throw_if (negb (distinct (map resource_key out))) "RESOURCE_CONFLICT" "Physical TCP/UDP port collision";
  Returns out.
End Resources.

(** ** The plan *)

Record TransitCompileInput := MkTransitCompile {
  tci_input : TransitInput; tci_reservations : list ReservedRelayResource; tci_issuedAt : jsstr;
  tci_peerPins : list (jsstr * jsstr); tci_maxConnections : Z;
}.

Definition reservation_ports (reservations : list ReservedRelayResource) : TransitPorts :=
  fold_left (fun ports r => let s := rr_resource r in
    if bool_decide (prs_role s = p_ingress) then ports else set_port ports (prs_nodeId s) (prs_forwardProtocol s) (prs_port s))
    reservations [].

Definition opt_field (name : string) (v : option jsstr) : list (jsstr * json) :=
  match v with Some x => [(js name, JStr x)] | None => [] end.

Definition resource_json (r : PlanResource) : json :=
  JObj [(js "nodeId", JStr (prs_nodeId r)); (js "role", JStr (path_role_name (prs_role r)));
        (js "forwardProtocol", JStr (protocol_name (prs_forwardProtocol r)));
        (js "physicalProtocol", JStr (protocol_name (prs_physicalProtocol r)));
        (js "address", JStr (prs_address r)); (js "port", JInt (prs_port r))].

Definition binding_json (b : HopBinding) : json :=
  JObj ([(js "assignmentId", JStr (hb_assignmentId b)); (js "nodeId", JStr (hb_nodeId b));
         (js "role", JStr (path_role_name (hb_role b))); (js "protocol", JStr (protocol_name (hb_protocol b)));
         (js "sessionEpoch", JInt (hb_sessionEpoch b)); (js "bindingFence", JInt (hb_bindingFence b));
         (js "resource", resource_json (hb_resource b))] ++
        opt_field "upstreamNodeId" (hb_upstreamNodeId b) ++ opt_field "downstreamNodeId" (hb_downstreamNodeId b)).

Definition path_node_json (n : PathNode) : json :=
  JObj ([(js "nodeId", JStr (pn_nodeId n)); (js "index", JInt (Z.of_nat (pn_index n))); (js "role", JStr (path_role_name (pn_role n)))] ++
        opt_field "upstreamNodeId" (pn_upstreamNodeId n) ++ opt_field "downstreamNodeId" (pn_downstreamNodeId n)).

(** Everything but [planDigest]. *)
Definition plan_body_json (p : TransitPreparation) : json :=
  JObj [(js "executable", JBool false); (js "scopeId", JStr (tp_scopeId p)); (js "forwardId", JStr (tp_forwardId p));
        (js "forwardRevision", JInt (tp_forwardRevision p)); (js "deploymentGeneration", JInt (tp_deploymentGeneration p));
        (js "profileDigest", JStr (tp_profileDigest p)); (js "pathDigest", JStr (tp_pathDigest p));
        (js "authorizationUntil", JInt (tp_authorizationUntil p)); (js "activationOrder", strs_json (tp_activationOrder p));
        (js "assignments", JArr (map binding_json (tp_assignments p))); (js "intents", JArr (map transit_intent_json (tp_intents p)))].

(** The state of the loop over the hops. *)
Record Binding := MkBinding {
  bs_assignments : list HopBinding; bs_pins : list jsstr; bs_generation : option Z; bs_until : Z;
}.

Section Plan.
Context `{Hashing, Schema RelayProfileConfig, Schema TransitIntent}.

(** The loop over the protocols of one hop: the generation and the bindings so far. *)
Definition bind_protocol (input : TransitCompileInput) (f : Forward) (expected : list PlanResource) (hop : PathNode)
    (node : RelayNodeExecutionFacts) (st : option Z * list HopBinding) (p : NetworkProtocol) : outcome (option Z * list HopBinding) :=
  match find_resource expected (pn_nodeId hop) p with
  | None => Throws (Exn "TypeError" "Cannot read properties of undefined")
  | Some resource =>
      match exact_slots (id f) (tci_reservations input) resource with
      | [slot] =>
          _ ← throw_if (negb (is_counter false (rr_deploymentGeneration slot)) || negb (is_counter false (rr_bindingFence slot)))
                "RESOURCE_CONFLICT" "Missing or foreign fenced reservation";
          let generation := default (rr_deploymentGeneration slot) st.1 in
          _ ← throw_if (negb (rr_deploymentGeneration slot =? generation)) "INTEGRITY_FAILURE" "Mixed deployment generation";
          d ← digest (identity_json (pn_nodeId hop) (id f) p (path_role_name (pn_role hop)));
          Returns (Some generation, st.2 ++
            [MkHopBinding (js "a:" ++ drop 7 d) (pn_nodeId hop) (pn_role hop) p (xf_sessionEpoch node) (rr_bindingFence slot) resource
               (pn_upstreamNodeId hop) (pn_downstreamNodeId hop)])
      | _ => Throws (Exn "RESOURCE_CONFLICT" "Missing or foreign fenced reservation")
      end
  end.

(** The body of the loop over the hops. *)
Definition bind_hop (input : TransitCompileInput) (f : Forward) (expected : list PlanResource) (issuedAt : Z)
    (st : Binding) (hop : PathNode) : outcome Binding :=
  match find_node (tri_nodes (tci_input input)) (pn_nodeId hop), map_get (tci_peerPins input) (pn_nodeId hop) with
  | Some node, Some pin =>
      match List.filter (fun p => str_eqb (pc_fingerprint p) pin && (issuedAt <? pc_validUntil p)) (xf_peers node) with
      | [selected] =>
          _ ← throw_if (negb (is_fingerprint pin) || includes (bs_pins st) pin || negb (is_counter false (xf_sessionEpoch node)) ||
                        negb (is_safe_integer (xf_credentialUntil node)) || (xf_credentialUntil node <=? issuedAt))
                "AUTHORIZATION_DENIED" "Active distinct Node identity/session required";
          '(generation, assignments) ← fold_each (bind_protocol input f expected hop node) (protocols (spec f)) (bs_generation st, bs_assignments st);
          Returns (MkBinding assignments (pin :: bs_pins st) generation
                     (Z.min (Z.min (bs_until st) (xf_credentialUntil node)) (pc_validUntil selected)))
      | _ => Throws (Exn "AUTHORIZATION_DENIED" "Active distinct Node identity/session required")
      end
  | None, _ => Throws (Exn "TypeError" "Cannot read properties of undefined")
  | _, None => Throws (Exn "AUTHORIZATION_DENIED" "Active distinct Node identity/session required")
  end.

Definition find_binding (bindings : list HopBinding) (nodeId : option jsstr) (p : NetworkProtocol) : option HopBinding :=
  find (fun b => bool_decide (Some (hb_nodeId b) = nodeId) && bool_decide (hb_protocol b = p)) bindings.

Definition neighbor_of (pins : list (jsstr * jsstr)) (b : HopBinding) : TransitNeighbor :=
  MkTransitNeighbor (hb_nodeId b) (hb_assignmentId b) (hb_sessionEpoch b) (hb_bindingFence b) (default [] (map_get pins (hb_nodeId b))).

(** The Intent of one Transit hop and protocol; [until] is the printed lifetime. *)
Definition transit_intent (input : TransitCompileInput) (f : Forward) (route : PathTopology) (bindings : list HopBinding)
    (generation : Z) (pathDigest until : jsstr) (hop : PathNode) (p : NetworkProtocol) : outcome TransitIntent :=
  match find_binding bindings (Some (pn_nodeId hop)) p, find_binding bindings (pn_upstreamNodeId hop) p,
        find_binding bindings (pn_downstreamNodeId hop) p, find_node (tri_nodes (tci_input input)) (pn_nodeId hop) with
  | Some local, Some up, Some down, Some node =>
      match find_endpoint (tri_endpoints (tci_input input)) (hb_nodeId down) with
      | Some endpoint =>
          let profile := tri_profile (tci_input input) in
          parseTransitIntent (stringify (transit_intent_json {|
            ti_scopeId := scopeId f; ti_forwardId := id f; ti_forwardRevision := revision f; ti_deploymentGeneration := generation;
            ti_profileId := rpf_profileId profile; ti_profileRevision := rpf_revision profile; ti_profileDigest := rpf_configDigest profile;
            ti_pathDigest := pathDigest; ti_nodeId := hb_nodeId local; ti_assignmentId := hb_assignmentId local;
            ti_sessionEpoch := hb_sessionEpoch local; ti_bindingFence := hb_bindingFence local; ti_protocol := p;
            ti_hopIndex := Z.of_nat (pn_index hop); ti_hopCount := Z.of_nat (length (pt_nodes route));
            ti_listener := Listen (prs_address (hb_resource local)) (prs_port (hb_resource local));
            ti_upstream := neighbor_of (tci_peerPins input) up; ti_downstream := neighbor_of (tci_peerPins input) down;
            ti_downstream_endpoint := Target (re_advertisedHost (rse_config endpoint)) (prs_port (hb_resource down));
            ti_issuedAt := tci_issuedAt input; ti_authorizationUntil := until;
            ti_egressPolicyRevision := nf_egressPolicyRevision (xf_facts node);
            ti_allowedDestinationCidrs := sort_by str_leb (new_Set (nf_allowedDestinationCidrs (xf_facts node)));
            ti_allowMetadataTargets := nf_allowMetadataTargets (xf_facts node); ti_maxConnections := tci_maxConnections input |}))
      | None => Throws (Exn "TypeError" "Cannot read properties of undefined")
      end
  | _, _, _, _ => Throws (Exn "TypeError" "Cannot read properties of undefined")
  end.

Definition path_json (input : TransitCompileInput) (f : Forward) (route : PathTopology) (generation : Z) (bindings : list HopBinding) : json :=
  let profile := tri_profile (tci_input input) in
  JObj [(js "forwardId", JStr (id f)); (js "revision", JInt (revision f)); (js "scopeId", JStr (scopeId f));
        (js "generation", JInt generation); (js "profileId", JStr (rpf_profileId profile));
        (js "profileRevision", JInt (rpf_revision profile)); (js "profileDigest", JStr (rpf_configDigest profile));
        (js "nodes", JArr (map path_node_json (pt_nodes route))); (js "assignments", JArr (map binding_json bindings))].

(** [ports] of the input are those of the reservations. *)
Definition with_reserved_ports (input : TransitCompileInput) : TransitInput :=
  let i := tci_input input in
  MkTransitInput (tri_forward i) (tri_profile i) (tri_nodes i) (tri_endpoints i) (reservation_ports (tci_reservations input)).

Definition compileTransitPreparation (input : TransitCompileInput) : outcome TransitPreparation :=
  _ ← validateTime (tci_issuedAt input);
  match Date_text (tci_issuedAt input) with
  | None => Throws (Exn "INVALID_CONFIG" "Invalid time or connection limit")
  | Some issuedAt =>
      _ ← throw_if (negb (is_safe_integer issuedAt) || (tci_maxConnections input <? 1) || (4096 <? tci_maxConnections input))
            "INVALID_CONFIG" "Invalid time or connection limit";
      '(f, route) ← checkPath (with_reserved_ports input);
      expected ← compileTransitResources (with_reserved_ports input);
      _ ← throw_if (negb (length (tci_reservations input) =? length expected)%nat ||
                    negb (length (tci_peerPins input) =? length (pt_nodes route))%nat)
            "RESOURCE_CONFLICT" "Exact reservations and peer identities required";
      st ← fold_each (bind_hop input f expected issuedAt) (pt_nodes route) (MkBinding [] [] None MAX_COUNTER);
      match bs_generation st with
      | None => Throws (Exn "LEASE_EXPIRED" "Transit identity expired")
      | Some generation =>
          _ ← throw_if ((generation =? 0) || (bs_until st <=? issuedAt)) "LEASE_EXPIRED" "Transit identity expired";
          pathDigest ← digest (path_json input f route generation (bs_assignments st));
          until ← toISOString (bs_until st);
          intents ← map_each (fun hop => map_each (transit_intent input f route (bs_assignments st) generation pathDigest until hop)
                                           (protocols (spec f)))
                      (List.filter (fun h => bool_decide (pn_role h = p_transit)) (pt_nodes route));
          let plan := MkTransitPreparation (scopeId f) (id f) (revision f) generation (rpf_configDigest (tri_profile (tci_input input)))
                        pathDigest (bs_until st) (pt_activationOrder route) (bs_assignments st) (concat intents) in
          d ← digest (plan_body_json (plan []));
          Returns (plan d)
      end
  end.
End Plan.

(** ** What a plan is *)

Lemma Forall2_weaken_in {A B} (R R' : A -> B -> Prop) l k :
  Forall2 R l k -> (forall x y, x ∈ l -> R x y -> R' x y) -> Forall2 R' l k.
Proof. induction 1 as [|x y l k Hxy _ IH]; intros Hw; constructor; [apply Hw; [left|done]|]. apply IH. intros; apply Hw; [by right|done]. Qed.

Lemma map_each_prod {A B C} (g : A -> B -> outcome C) xs ys out : map_each (fun x => map_each (g x) ys) xs = Returns out ->
  Forall2 (fun xy z => g xy.1 xy.2 = Returns z) (list_prod xs ys) (concat out).
Proof.
  rewrite map_each_Returns. induction 1 as [|x zs xs' out' Hx _ IH]; [constructor|]. cbn. apply Forall2_app; [|done].
  apply map_each_Returns in Hx. apply Forall2_fmap_l. eapply Forall2_impl; [exact Hx|]. done.
Qed.

(** The resource of a hop: its own socket on the ingress, a TCP socket elsewhere. *)
Definition resource_at (hop : PathNode) (p : NetworkProtocol) (r : PlanResource) : Prop :=
  prs_nodeId r = pn_nodeId hop /\ prs_role r = pn_role hop /\ prs_forwardProtocol r = p /\
  prs_physicalProtocol r = if (pn_index hop =? 0)%nat then p else tcp.

(** The binding of a hop: one exclusive reservation of the generation. *)
Definition bound (input : TransitCompileInput) (f : Forward) (expected : list PlanResource) (g : Z)
    (hop : PathNode) (p : NetworkProtocol) (b : HopBinding) : Prop :=
  (hb_nodeId b, hb_role b, hb_protocol b) = (pn_nodeId hop, pn_role hop, p) /\
  is_counter false (hb_bindingFence b) = true /\ is_counter false (hb_sessionEpoch b) = true /\
  prs_nodeId (hb_resource b) = pn_nodeId hop /\ prs_forwardProtocol (hb_resource b) = p /\ hb_resource b ∈ expected /\
  exists slot, slot ∈ tci_reservations input /\ slot = MkReservedRelay (hb_resource b) (id f) g (hb_bindingFence b).

Section PlanSpec.
Context `{Hashing, Schema RelayProfileConfig, Schema TransitIntent}.

Lemma checkPath_ok input f route : forward_wf (tri_forward input) -> checkPath input = Returns (f, route) ->
  f = tri_forward input /\ topology_ok f route /\ (3 <= length (pt_nodes route) <= 8)%nat /\
  Forall (fun hop => check_hop input f hop = Returns tt) (pt_nodes route).
Proof using.
  intros Hf. unfold checkPath. rewrite (reparse_wf _ Hf). destruct (if enabled _ then _ else _) as [ref|]; [|done].
  intros (t & Ht & Hr)%bind_Returns. rewrite guard_seq in Hr. destruct Hr as [Hlen Hr]. apply Nat.ltb_ge in Hlen.
  rewrite guard_seq in Hr. destruct Hr as [_ Hr]. apply bind_Returns in Hr as (profile & _ & Hr).
  rewrite seq_unit in Hr. destruct Hr as [_ Hr]. rewrite !guard_seq, seq_unit in Hr. destruct Hr as (_ & _ & _ & _ & He & [= <- <-]).
  apply compiled_topology in Ht as [Hmax Htop]; [|done]. split_and!; try done.
  - rewrite <- (to_nodes _ _ Htop), length_map in Hmax. exact Hmax.
  - by apply each_Returns in He.
Qed.

Lemma check_hop_endpoint input f hop : check_hop input f hop = Returns tt -> pn_index hop <> 0%nat ->
  is_Some (find_endpoint (tri_endpoints input) (pn_nodeId hop)).
Proof using.
  unfold check_hop. destruct (find_node _ _); [|done]. rewrite !guard_seq, seq_unit. intros (_ & _ & _ & He & _) Hi.
  apply Nat.eqb_neq in Hi. rewrite Hi in He. by destruct (find_endpoint _ _).
Qed.

Lemma transit_resource_at input f hop p r : check_hop input f hop = Returns tt ->
  transit_resource input f hop p = Returns r -> resource_at hop p r.
Proof using.
  intros Hc. unfold transit_resource, resource_at. destruct (Nat.eqb_spec (pn_index hop) 0) as [E|E].
  - rewrite E. cbn. rewrite guard_seq. by intros [_ [= <-]].
  - destruct (check_hop_endpoint _ _ _ Hc E) as [e ->]. destruct (Nat.ltb_spec 0 (pn_index hop)); [|lia].
    destruct (port_of _ _ _); [|done]. rewrite !guard_seq. by intros (_ & _ & [= <-]).
Qed.

Lemma compileTransitResources_ok input out : forward_wf (tri_forward input) -> compileTransitResources input = Returns out ->
  exists route, checkPath input = Returns (tri_forward input, route) /\ NoDup (map resource_key out) /\
    Forall2 (fun hp r => resource_at hp.1 hp.2 r) (list_prod (pt_nodes route) (protocols (spec (tri_forward input)))) out.
Proof using.
  intros Hf. unfold compileTransitResources. intros ([f route] & Hc & (rows & Hm & Hr)%bind_Returns)%bind_Returns.
  rewrite guard_seq in Hr. destruct Hr as [Hd [= <-]]. apply negb_false_iff, distinct_NoDup in Hd.
  pose proof Hc as (-> & _ & _ & Hchecks)%checkPath_ok; [|done]. exists route. split_and!; try done.
  apply map_each_prod in Hm. rewrite Forall_forall in Hchecks.
  eapply Forall2_weaken_in; [exact Hm|]. cbn. intros [hop p] r Hin Hr. eapply transit_resource_at; [|exact Hr].
  apply Hchecks. apply list_elem_of_In in Hin. apply in_prod_iff in Hin as [Hin _]. by apply list_elem_of_In.
Qed.

Lemma bind_protocols input f expected hop node ps st st' : is_counter false (xf_sessionEpoch node) = true ->
  fold_each (bind_protocol input f expected hop node) ps st = Returns st' ->
  (st.1 <> None -> st'.1 = st.1) /\
  exists new, st'.2 = st.2 ++ new /\
    Forall2 (fun p b => exists g, st'.1 = Some g /\ bound input f expected g hop p b) ps new.
Proof using.
  intros Hs. revert st. induction ps as [|p ps IH]; intros st; cbn.
  - intros [= <-]. split; [done|]. exists []. rewrite app_nil_r. by split.
  - intros (st1 & Hb & Hrest)%bind_Returns. unfold bind_protocol in Hb.
    destruct (find_resource _ _ _) as [r|] eqn:Er; [|done]. destruct (exact_slots _ _ _) as [|slot [|]] eqn:Es; try done.
    rewrite !guard_seq in Hb. destruct Hb as (Hc & Hg & (d & _ & Hb)%bind_Returns). injection Hb as <-.
    autorewrite with guards in Hc, Hg. destruct Hc as [Hcg Hcf].
    apply IH in Hrest as (Hkeep & new & E & HF). cbn in Hkeep, E. split.
    + intros Hn. rewrite Hkeep by done. destruct (st.1); [done|by destruct Hn].
    + eexists (_ :: new). rewrite E, <- app_assoc. split; [reflexivity|]. constructor; [|done].
      exists (default (rr_deploymentGeneration slot) st.1). split; [by apply Hkeep|].
      apply exact_slots_one in Es as (Hin & <- & Hid). pose proof Er as [Hn Hp]%find_resource_some.
      split_and!; try done.
      * by apply find_some in Er as [?%list_elem_of_In _].
      * exists slot. split; [done|]. cbn. rewrite <- Hg, <- Hid. by destruct slot.
Qed.

Lemma bind_hops input f expected now hops st st' : protocols (spec f) <> [] ->
  fold_each (bind_hop input f expected now) hops st = Returns st' ->
  (bs_generation st <> None -> bs_generation st' = bs_generation st) /\ bs_until st' <= bs_until st /\
  exists new, bs_assignments st' = bs_assignments st ++ new /\
    Forall2 (fun hp b => exists g, bs_generation st' = Some g /\ bound input f expected g hp.1 hp.2 b)
      (list_prod hops (protocols (spec f))) new.
Proof using.
  intros Hne. revert st. induction hops as [|hop hops IH]; intros st; cbn.
  - intros [= <-]. split; [done|]. split; [lia|]. exists []. rewrite app_nil_r. split; [done|constructor].
  - intros (st1 & Hb & Hrest)%bind_Returns. unfold bind_hop in Hb.
    destruct (find_node _ _) as [node|]; [|done]. destruct (map_get _ _) as [pin|]; [|done].
    destruct (List.filter _ _) as [|selected [|]]; try done. rewrite guard_seq in Hb.
    destruct Hb as (Hg & ([g bs] & Hp & Hb)%bind_Returns). injection Hb as <-. autorewrite with guards in Hg.
    apply bind_protocols in Hp as (Hk & new & E & HF); [|apply Hg]. cbn in Hk, E, HF. subst bs.
    apply IH in Hrest as (Hk2 & Hu & new2 & E2 & HF2). cbn in Hk2, Hu, E2.
    assert (Hgen : g <> None).
    { destruct HF as [|p b ? ? (g' & -> & _)]; [done|done]. }
    split_and!.
    + intros Hn. by rewrite Hk2, Hk.
    + lia.
    + exists (new ++ new2). rewrite E2, app_assoc. split; [done|]. apply Forall2_app; [|done].
      apply Forall2_fmap_l. eapply Forall2_impl; [exact HF|]. intros p b (g' & -> & Hbound). exists g'. split; [|done]. by apply Hk2.
Qed.

(** A plan binds every hop and protocol of the path once, in path order, on one exclusive
    reservation of its generation. *)
Record transit_plan_ok (input : TransitCompileInput) (plan : TransitPreparation) : Prop := {
  tpo_identity : let f := tri_forward (tci_input input) in
    (tp_scopeId plan, tp_forwardId plan, tp_forwardRevision plan) = (scopeId f, id f, revision f);
  tpo_path : exists route expected, topology_ok (tri_forward (tci_input input)) route /\ (3 <= length (pt_nodes route) <= 8)%nat /\
    NoDup (map resource_key expected) /\ length (tci_reservations input) = length expected /\
    Forall2 (fun hp r => resource_at hp.1 hp.2 r) (list_prod (pt_nodes route) (protocols (spec (tri_forward (tci_input input))))) expected /\
    Forall2 (fun hp b => bound input (tri_forward (tci_input input)) expected (tp_deploymentGeneration plan) hp.1 hp.2 b)
      (list_prod (pt_nodes route) (protocols (spec (tri_forward (tci_input input))))) (tp_assignments plan) /\
    tp_activationOrder plan = pt_activationOrder route;
  tpo_until : exists now, Date_text (tci_issuedAt input) = Some now /\ now < tp_authorizationUntil plan <= MAX_COUNTER;
  tpo_digest : digests_to (plan_body_json plan) (tp_planDigest plan);
}.

Lemma compileTransitPreparation_plan input plan : forward_wf (tri_forward (tci_input input)) ->
  compileTransitPreparation input = Returns plan -> transit_plan_ok input plan.
Proof using.
  intros Hf. unfold compileTransitPreparation. rewrite seq_unit. intros [_ Hr].
  destruct (Date_text (tci_issuedAt input)) as [now|] eqn:Ed; [|done]. rewrite guard_seq in Hr. destruct Hr as [_ Hr].
  apply bind_Returns in Hr as ([f route] & Hc & (expected & He & Hr)%bind_Returns). rewrite guard_seq in Hr.
  destruct Hr as (Hlen & (st & Hb & Hr)%bind_Returns). destruct (bs_generation st) as [g|] eqn:Eg; [|done].
  rewrite guard_seq in Hr. destruct Hr as (Hnow & (pd & _ & (until & _ & (intents & _ & (d & Hd & Hplan)%bind_Returns)%bind_Returns)%bind_Returns)%bind_Returns).
  injection Hplan as <-. apply orb_false_iff in Hlen as [Hl _]. apply negb_false_iff, Nat.eqb_eq in Hl.
  apply orb_false_iff in Hnow as [_ Hnow%Z.leb_gt].
  pose proof He as (route' & Hc' & HN & HF)%compileTransitResources_ok; [|done]. rewrite Hc in Hc'. injection Hc' as -> ->.
  pose proof Hc as (_ & Htop & Hbound & _)%checkPath_ok; [|done].
  assert (Hps : protocols (spec (tri_forward (tci_input input))) <> []).
  { intros E. destruct (wf_protocols _ (wf_spec _ Hf)) as [E'|[E'|E']]; by rewrite E in E'. }
  apply bind_hops in Hb as (_ & Hu & new & E & HB); [|done]. cbn in Hu, E.
  split; cbn [tp_scopeId tp_forwardId tp_forwardRevision tp_assignments tp_deploymentGeneration tp_activationOrder tp_authorizationUntil tp_planDigest].
  - done.
  - exists route', expected. split_and!; try done; [lia..|]. rewrite E. eapply Forall2_impl; [exact HB|].
    intros hp b (g' & Eg' & Hbd). rewrite Eg in Eg'. by injection Eg' as ->.
  - by exists now.
  - exact Hd.
Qed.
End PlanSpec.
