(* ===== verification/Authority.v ===== *)
(** The protected authority record (apps/control/src/infrastructure/authority.ts).

    The record lives in a file outside the database: it remembers until when the control
    plane has ever authorized execution, and survives a rollback or the loss of the
    database.  Its signature and its atomic replacement on disk are not modelled; [mutate]
    reads the current record, changes it and counts the change. *)

From S2P Require Import Prelude.
From S2P Require Import JsString.
From S2P Require Import Primitives.
From S2P Require Import Digest.
From S2P Require Import RelayPlan.

Local Open Scope Z_scope.

Record AuthorityRecord := MkAuthority {
  au_sequence : Z; au_database : jsstr; au_trustDigest : jsstr; au_maintenance : bool; au_latestValidUntil : option Z;
  au_maxLeaseSeconds : Z; au_maxClockSkewSeconds : Z; au_maintenanceSince : option Z; au_recoveryId : option jsstr;
}.

(** What [initialize] writes for a fresh deployment. *)
Definition fresh_authority (database ca : jsstr) : AuthorityRecord := MkAuthority 1 database ca false None 0 0 None None.

(** [n === null || Number.isSafeInteger(n) && n >= 0] *)
Definition safe_or_null (n : option Z) : bool := match n with Some n => is_safe_integer n && (0 <=? n) | None => true end.

(** The checks of [read]. *)
Definition valid_authority (r : AuthorityRecord) : bool :=
  (1 <=? au_sequence r) && (au_sequence r <=? MAX_COUNTER) && (length (au_database r) <=? 128)%nat && is_fingerprint (au_trustDigest r) &&
  (0 <=? au_maxLeaseSeconds r) && (au_maxLeaseSeconds r <=? 300) && (0 <=? au_maxClockSkewSeconds r) && (au_maxClockSkewSeconds r <=? 5) &&
  safe_or_null (au_latestValidUntil r) && safe_or_null (au_maintenanceSince r) &&
  match au_recoveryId r with Some i => is_id i | None => true end.

Definition read_authority (r : AuthorityRecord) : outcome AuthorityRecord :=
  _ ← throw_if (negb (valid_authority r)) "Error" "Invalid protected authority state"; Returns r.

Definition allow (r : AuthorityRecord) : outcome unit :=
  r ← read_authority r; throw_if (au_maintenance r) "MAINTENANCE" "Control is in maintenance mode".

Definition set_sequence (n : Z) (r : AuthorityRecord) : AuthorityRecord :=
  MkAuthority n (au_database r) (au_trustDigest r) (au_maintenance r) (au_latestValidUntil r) (au_maxLeaseSeconds r)
    (au_maxClockSkewSeconds r) (au_maintenanceSince r) (au_recoveryId r).

Definition mutate (change : AuthorityRecord -> outcome AuthorityRecord) (r : AuthorityRecord) : outcome AuthorityRecord :=
  current ← read_authority r;
  _ ← throw_if (MAX_COUNTER <=? au_sequence current) "Error" "Authority sequence exhausted";
  next ← change current;
  Returns (set_sequence (au_sequence current + 1) next).

Definition issued (validUntil lease skew : Z) (r : AuthorityRecord) : AuthorityRecord :=
  MkAuthority (au_sequence r) (au_database r) (au_trustDigest r) (au_maintenance r)
    (Some (Z.max (default 0 (au_latestValidUntil r)) validUntil)) (Z.max (au_maxLeaseSeconds r) lease)
    (Z.max (au_maxClockSkewSeconds r) skew) (au_maintenanceSince r) (au_recoveryId r).

Definition issue (now : Z) (validUntil lease skew : Z) (r : AuthorityRecord) : outcome AuthorityRecord :=
  _ ← throw_if (negb (is_safe_integer validUntil) || (validUntil <=? now) || (lease <? 1) || (300 <? lease) || (skew <? 1) || (5 <? skew) ||
                (now + lease * 1000 <? validUntil)) "Error" "Invalid authority publication bound";
  mutate (fun r => _ ← throw_if (au_maintenance r) "MAINTENANCE" "New execution authority is disabled";
                   Returns (issued validUntil lease skew r)) r.

Definition maintain (now : Z) (r : AuthorityRecord) : outcome AuthorityRecord :=
  mutate (fun r => Returns (MkAuthority (au_sequence r) (au_database r) (au_trustDigest r) true (au_latestValidUntil r) (au_maxLeaseSeconds r)
    (au_maxClockSkewSeconds r) (Some (default now (au_maintenanceSince r))) (au_recoveryId r))) r.

Definition rebind (now : Z) (database ca recoveryId : jsstr) (r : AuthorityRecord) : outcome AuthorityRecord :=
  _ ← throw_if ((128 <? length database)%nat || negb (is_fingerprint ca) || negb (is_id recoveryId))
        "Error" "Valid recovery database, trust and review ID required";
  mutate (fun r =>
    _ ← throw_if (negb (au_maintenance r)) "Error" "Offline recovery requires maintenance";
    _ ← throw_if (match au_latestValidUntil r with Some v => now <? v + au_maxClockSkewSeconds r * 1000 | None => false end)
          "Error" "Historical authorization has not expired";
    _ ← throw_if (str_eqb (au_trustDigest r) ca) "Error" "Recovery requires new Node trust material";
    Returns (MkAuthority (au_sequence r) database ca (au_maintenance r) (au_latestValidUntil r) (au_maxLeaseSeconds r)
      (au_maxClockSkewSeconds r) (au_maintenanceSince r) (Some recoveryId))) r.

(** [record.recoveryId && reviewedRecoveryId !== record.recoveryId] *)
Definition resume (reviewed : option jsstr) (r : AuthorityRecord) : outcome AuthorityRecord :=
  mutate (fun r =>
    _ ← throw_if (match au_recoveryId r with Some i => negb (bool_decide (i = [])) && negb (bool_decide (reviewed = Some i)) | None => false end)
          "Error" "Recovered intents require explicit review acknowledgment";
    Returns (MkAuthority (au_sequence r) (au_database r) (au_trustDigest r) false (au_latestValidUntil r) (au_maxLeaseSeconds r)
      (au_maxClockSkewSeconds r) None (au_recoveryId r))) r.

(** ** What the record covers *)

(** The validity [v] was issued under a clock skew of [skew] seconds. *)
Definition covers (r : AuthorityRecord) (v skew : Z) : Prop :=
  (exists u, au_latestValidUntil r = Some u /\ v <= u) /\ skew <= au_maxClockSkewSeconds r.

(** The record only grows. *)
Definition authority_le (r r' : AuthorityRecord) : Prop :=
  au_sequence r <= au_sequence r' /\ au_maxLeaseSeconds r <= au_maxLeaseSeconds r' /\ au_maxClockSkewSeconds r <= au_maxClockSkewSeconds r' /\
  forall u, au_latestValidUntil r = Some u -> exists u', au_latestValidUntil r' = Some u' /\ u <= u'.

#[export] Instance authority_le_preorder : PreOrder authority_le.
Proof.
  split; [intros r; unfold authority_le; split_and!; [lia..|]; intros u Hu; exists u; split; [done|lia]|].
  intros r r1 r2 (S1 & L1 & K1 & U1) (S2 & L2 & K2 & U2). split_and!; [lia..|].
  intros u (u1 & Hu1 & ?)%U1. apply U2 in Hu1 as (u2 & ? & ?). exists u2. split; [done|lia].
Qed.

Lemma covers_mono r r' v skew : authority_le r r' -> covers r v skew -> covers r' v skew.
Proof. intros (_ & _ & K & U) [(u & (u' & Hu & ?)%U & ?) ?]. split; [exists u'; split; [done|lia]|lia]. Qed.

Lemma read_authority_ok r x : read_authority r = Returns x <-> x = r /\ valid_authority r = true.
Proof. unfold read_authority. rewrite guard_seq, negb_false_iff. naive_solver. Qed.

(** One change of the record at time [now]. *)
Inductive authority_step (now : Z) : AuthorityRecord -> AuthorityRecord -> Prop :=
  | step_issue v lease skew r r' : issue now v lease skew r = Returns r' -> authority_step now r r'
  | step_maintain r r' : maintain now r = Returns r' -> authority_step now r r'
  | step_rebind database ca recoveryId r r' : rebind now database ca recoveryId r = Returns r' -> authority_step now r r'
  | step_resume reviewed r r' : resume reviewed r = Returns r' -> authority_step now r r'.

Lemma mutate_Returns change r r' : mutate change r = Returns r' <->
  valid_authority r = true /\ au_sequence r < MAX_COUNTER /\ exists next, change r = Returns next /\ r' = set_sequence (au_sequence r + 1) next.
Proof.
  unfold mutate. rewrite bind_Returns. setoid_rewrite read_authority_ok. setoid_rewrite guard_seq.
  setoid_rewrite bind_Returns. setoid_rewrite Z.leb_gt. naive_solver.
Qed.

Lemma issue_Returns now v lease skew r r' : issue now v lease skew r = Returns r' ->
  r' = set_sequence (au_sequence r + 1) (issued v lease skew r) /\ au_maintenance r = false /\
  now < v <= now + lease * 1000 /\ v <= MAX_COUNTER /\ 1 <= lease <= 300 /\ 1 <= skew <= 5.
Proof.
  unfold issue. rewrite guard_seq, mutate_Returns. intros [G (Hv & _ & next & Hn & ->)].
  apply seq_unit in Hn as [Hm Hn]. apply throw_if_Returns in Hm. injection Hn as <-. unfold is_safe_integer in G. propify. split_and!; try done; lia.
Qed.

Lemma authority_step_le now r r' : authority_step now r r' -> authority_le r r'.
Proof.
  destruct 1 as [v lease skew r r' H|r r' H|database ca i r r' H|reviewed r r' H].
  - apply issue_Returns in H as (-> & _). unfold authority_le. cbn. split_and!; [lia..|]. intros u Hu. rewrite Hu. cbn. eexists. split; [done|lia].
  - apply mutate_Returns in H as (_ & _ & n & [= <-] & ->). unfold authority_le. cbn. split_and!; [lia..|]. eauto with lia.
  - unfold rebind in H. rewrite guard_seq, mutate_Returns in H. destruct H as (_ & _ & _ & n & H & ->). rewrite !guard_seq in H.
    destruct H as (_ & _ & _ & [= <-]). unfold authority_le. cbn. split_and!; [lia..|]. eauto with lia.
  - unfold resume in H. rewrite mutate_Returns in H. destruct H as (_ & _ & n & H & ->). rewrite guard_seq in H. destruct H as (_ & [= <-]).
    unfold authority_le. cbn. split_and!; [lia..|]. eauto with lia.
Qed.

Lemma issue_covers now v lease skew r r' : issue now v lease skew r = Returns r' -> covers r' v skew.
Proof. intros (-> & _)%issue_Returns. split; cbn; [eexists; split; [done|lia]|lia]. Qed.

(** A covered validity has run out, by more than its clock skew, when the record is rebound. *)
Lemma rebind_covered now database ca recoveryId r r' v skew : covers r v skew -> rebind now database ca recoveryId r = Returns r' ->
  v + skew * 1000 <= now /\ au_maintenance r = true.
Proof.
  intros [(u & Hu & ?) ?] Hr. unfold rebind in Hr. rewrite guard_seq, mutate_Returns in Hr. destruct Hr as (_ & _ & _ & n & Hr & ->). rewrite !guard_seq in Hr.
  rewrite Hu in Hr. destruct Hr as (Hm & Hl & _ & _). propify. split; [lia|done].
Qed.
