(* ===== verification/Store.v ===== *)
(** The database of the control plane (apps/control/src/infrastructure/mysql.ts and the tables of
    apps/control/migrations).

    A table is a finite map from its primary key to the other columns.  A
    transaction is a state-passing computation that may throw; [transaction] commits
    the final state or, on an exception, keeps the initial one.  Row locks make
    concurrent transactions behave as if they ran one after the other, so a run of
    the system is a sequence of transactions.  [Date.now()] and [randomUUID()] are
    arguments: the clock does not advance inside one operation.  JSON columns hold the
    typed value; foreign keys and the retry of deadlocked transactions are not
    modelled. *)

From S2P Require Import Prelude.
From S2P Require Import JsString.
From S2P Require Import Json.
From S2P Require Import Forward.
From S2P Require Import Types.
From S2P Require Import Relay.
From S2P Require Import Adp3.
From S2P Require Import Transit.
From S2P Require Import TargetPolicy.
From S2P Require Import Endpoint.
From S2P Require Import RelayPlan.
From S2P Require Import TransitPlan.
From S2P Require Import Probe.
From S2P Require Import PathContract.

Local Open Scope Z_scope.

#[export] Instance NetworkProtocol_countable : Countable NetworkProtocol.
Proof.
  refine (inj_countable' (fun p => match p with tcp => true | udp => false end) (fun b => if (b : bool) then tcp else udp) _).
  by intros [].
Defined.

(** ** Rows *)

(** forwards *)
Record ForwardRow := MkForwardRow {
  fw_scope_id : jsstr; fw_revision : Z; fw_spec : ForwardSpec; fw_deleting : bool;
  fw_recovery_suspended : bool; fw_authorization_actor : option jsstr;
}.

(** port_slots *)
Record SlotRow := MkSlotRow { sl_owner_id : option jsstr; sl_fence : Z; sl_deployment_generation : Z }.

Inductive OperationKind := k_create | k_update | k_enable | k_disable | k_delete | k_retry | k_policy | k_revoke.
Inductive OperationStatus := s_accepted | s_running | s_succeeded | s_failed | s_superseded.

#[export] Instance OperationKind_eq_dec : EqDecision OperationKind.
Proof. solve_decision. Defined.
#[export] Instance OperationStatus_eq_dec : EqDecision OperationStatus.
Proof. solve_decision. Defined.

(** operations: [Operation] of ledger.ts *)
Record Operation := MkOperation {
  op_scope_id : jsstr; op_forward_id : jsstr; op_target_revision : Z; op_kind : OperationKind;
  op_status : OperationStatus; op_execution_deadline : Z; op_claim_token : option jsstr;
  op_claim_until : option Z; op_cleanup_pending : bool; op_last_error : option json;
  op_source_operation_id : option jsstr; op_previous_spec : option json; op_created_at : Z; op_updated_at : Z;
  op_requested_by : jsstr; op_idempotency_key : jsstr; op_request_digest : jsstr; op_attempt_count : Z;
  op_superseded_by : option jsstr; op_recovery_invalidated : bool;
}.

(** retirements *)
Record Retirement := MkRetirement {
  rt_forward_id : jsstr; rt_operation_id : jsstr; rt_body : RuntimeAssignment;
  rt_removed_epoch : option Z; rt_retirement_generation : Z; rt_safe : bool;
}.

(** execution_leases *)
Record Lease := MkLease { ls_forward_id : jsstr; ls_valid_until : Z }.

(** snapshots *)
Record SnapshotRow := MkSnapshotRow { sn_session_epoch : Z; sn_valid_until : Z; sn_body : RuntimeSnapshot }.

(** runtime_nodes *)
Record RuntimeNode := MkRuntimeNode {
  rn_session_epoch : Z; rn_boot_id : option jsstr; rn_snapshot_generation : Z; rn_last_report_sequence : Z;
  rn_last_report : option ReportRequest; rn_received_at : option Z;
}.

(** idempotency *)
Record IdempotencyRow := MkIdempotencyRow {
  id_request_digest : jsstr; id_http_status : option Z; id_response : option json; id_recovery_invalidated : bool;
}.

(** accounts, scopes, scope_members and access_events *)
Record MemberRow := MkMemberRow { mb_can_manage : bool; mb_active : bool; mb_revision : Z }.

Record AccessEvent := MkAccessEvent {
  ae_scope_id : jsstr; ae_actor_id : jsstr; ae_subject_id : jsstr; ae_kind : jsstr; ae_revision : Z; ae_created_at : Z; ae_details : json;
}.

(** nodes: [NodeRecord] of nodes.ts with the enrollment columns *)
Record NodeRow := MkNodeRow {
  nd_scope_id : jsstr; nd_enrollment_hash : jsstr; nd_enrollment_until : Z; nd_csr_digest : option jsstr;
  nd_credential_fingerprint : option jsstr; nd_credential_until : option Z; nd_enrollment_response : option json;
  nd_revoked : bool; nd_facts : AuthorizedNodeFacts; nd_grant_revision : Z;
}.

(** node_credentials, and node_relay_credentials with its certificate *)
Record CredentialRow := MkCredentialRow {
  cr_node_id : jsstr; cr_issued_at : Z; cr_valid_until : Z; cr_retire_after : option Z; cr_revoked : bool; cr_certificate : jsstr;
}.

(** credential_rotations and relay_credential_requests *)
Record CredentialRequest := MkCredentialRequest { cq_request_digest : jsstr; cq_source_fingerprint : jsstr; cq_response : json }.

(** node_security_events *)
Record SecurityEvent := MkSecurityEvent {
  se_node_id : jsstr; se_actor_id : option jsstr; se_kind : jsstr; se_created_at : Z; se_details : json;
}.

(** transport_profiles, transport_profile_revisions, transport_events and node_relay_endpoints *)
Record ProfileRow := MkProfileRow { pf_scope_id : jsstr; pf_current_revision : Z; pf_grant_revision : Z }.
Record ProfileRevision := MkProfileRevision {
  pv_config : RelayProfileConfig; pv_config_digest : jsstr; pv_created_by : jsstr; pv_created_at : Z;
}.
Record TransportEvent := MkTransportEvent {
  te_profile_id : jsstr; te_actor_id : jsstr; te_subject_id : jsstr; te_revision : Z; te_created_at : Z; te_allowed : bool;
}.
Record EndpointRow := MkEndpointRow { ep_revision : Z; ep_config : RelayEndpoint; ep_created_by : jsstr; ep_updated_at : Z }.

(** transit_deployments: [TransitStageRow] of transit-staging.ts *)
Inductive StageState := t_reserved | t_aborted.

#[export] Instance StageState_eq_dec : EqDecision StageState.
Proof. solve_decision. Defined.

Record TransitStageRow := MkStageRow {
  tg_target_revision : Z; tg_scope_id : jsstr; tg_created_by : jsstr; tg_state : StageState; tg_expires_at : Z;
  tg_plan_digest : jsstr; tg_body : TransitPreparation; tg_created_at : Z; tg_updated_at : Z;
}.

(** transit_coordination: [CoordinationRow] of transit-coordination.ts *)
Inductive TransitCoordinationPhase := preparing | activating | compensating | sealed | quarantined.

#[export] Instance TransitCoordinationPhase_eq_dec : EqDecision TransitCoordinationPhase.
Proof. solve_decision. Defined.

Record CoordinationRow := MkCoordinationRow {
  cd_plan_digest : jsstr; cd_phase : TransitCoordinationPhase; cd_position : Z; cd_revision : Z;
  cd_receipt_highwater : list (jsstr * Z); cd_journal_digest : jsstr; cd_created_at : Z; cd_updated_at : Z;
}.

(** transit_delivery_outbox and transit_delivery_receipts: [OutboxRow] of transit-delivery.ts *)
Record OutboxRow := MkOutboxRow {
  ob_forward_id : jsstr; ob_generation : Z; ob_coordination_revision : Z; ob_node_id : jsstr; ob_session_epoch : Z;
  ob_command_digest : jsstr; ob_body : TransitPreviewCommand; ob_acknowledged : bool; ob_created_at : Z; ob_acknowledged_at : option Z;
}.

Record ReceiptRow := MkReceiptRow { rc_envelope_digest : jsstr; rc_request_digest : jsstr; rc_received_at : Z }.

(** relay_deployments: [Deployment] of relay-coordinator.ts; the columns of migration 0013
    are 0 and [NULL] by default *)
Inductive RelayStage := g_preparing | g_egress_active | g_ingress_active | g_active | g_withdrawn.

#[export] Instance RelayStage_eq_dec : EqDecision RelayStage.
Proof. solve_decision. Defined.

Record Deployment := MkDeployment {
  dp_target_revision : Z; dp_ingress_node_id : jsstr; dp_egress_node_id : jsstr; dp_stage : RelayStage;
  dp_body : RelayPreparedPlan; dp_path_nodes : option (list jsstr); dp_prepared_count : Z; dp_activated_count : Z;
  dp_created_at : Z; dp_updated_at : Z;
}.

(** path_templates, path_template_revisions and path_template_events *)
Record TemplateRow := MkTemplateRow { tm_current_revision : Z; tm_archived : bool }.
Record TemplateRevision := MkTemplateRevision {
  tr_config : PathTemplateConfig; tr_profile_digest : jsstr; tr_config_digest : jsstr; tr_created_by : jsstr; tr_created_at : Z;
}.
Record TemplateEvent := MkTemplateEvent {
  tv_scope_id : jsstr; tv_template_id : jsstr; tv_actor_id : jsstr; tv_revision : Z; tv_kind : jsstr; tv_created_at : Z;
}.

(** forward_path_bindings *)
Record BindingRow := MkBindingRow {
  bd_scope_id : jsstr; bd_selection : PathSelection; bd_forward_revision : Z; bd_expanded_spec : ForwardSpec;
  bd_spec_digest : jsstr; bd_actor_id : jsstr; bd_created_at : Z;
}.

(** probe_instances: a row of state [empty] holds nothing else *)
Inductive SlotState := ps_registered | ps_revoked | ps_quarantined.

#[export] Instance SlotState_eq_dec : EqDecision SlotState.
Proof. solve_decision. Defined.

Record ProbeSlot := MkProbeSlot {
  pi_generation : Z; pi_bootId : jsstr; pi_sessionEpoch : Z; pi_fingerprint : jsstr; pi_instanceId : jsstr; pi_state : SlotState;
  pi_registeredAt : Z; pi_expiresAt : Z; pi_revokedAt : option Z;
}.

(** probe_permits and probe_results *)
Inductive PermitState := pm_issued | pm_consumed | pm_revoked | pm_quarantined.

#[export] Instance PermitState_eq_dec : EqDecision PermitState.
Proof. solve_decision. Defined.

Record ProbePermit := MkProbePermit {
  pp_actorId : jsstr; pp_scopeId : jsstr; pp_binding : ProbeClaimBinding; pp_instanceId : jsstr; pp_instanceGeneration : Z;
  pp_fingerprint : jsstr; pp_timeoutMs : Z; pp_issuedAt : Z; pp_expiresAt : Z; pp_state : PermitState; pp_closedAt : option Z;
}.

(** The body is a result without its [requestId]: that field of [pr_body] means nothing. *)
Record ProbeResultRow := MkProbeResultRow { pr_body : ProbeResultRequest; pr_digest : jsstr; pr_accepted_at : Z }.

(** ** Primary keys *)

Abbreviation slot_id := (jsstr * NetworkProtocol * Z)%type.                   (** node_id, protocol, port *)
Abbreviation instance_id := (jsstr * jsstr * Z * Z)%type.     (** node_id, assignment_id, generation, fence *)
Abbreviation lease_id := (jsstr * jsstr * Z * Z * Z)%type.               (** the instance, session_epoch *)
Abbreviation request_id := (jsstr * jsstr * jsstr)%type.                  (** scope_id, actor_id, key *)

(** Accounts and scopes *)
Record IdentityTables := MkIdentityTables {
  it_accounts : gmap jsstr jsstr;                                                                   (** token_hash *)
  it_scopes : gmap jsstr jsstr;                                                                       (** owner_id *)
  it_members : gmap (jsstr * jsstr) MemberRow;                                              (** scope_id, actor_id *)
  it_events : list AccessEvent;
}.

(** Nodes and their machine credentials *)
Record MachineTables := MkMachineTables {
  mt_nodes : gmap jsstr NodeRow;
  mt_grants : gset (jsstr * jsstr);                                                          (** node_id, actor_id *)
  mt_credentials : gmap jsstr CredentialRow;                                                       (** fingerprint *)
  mt_relay_credentials : gmap jsstr CredentialRow;                                                 (** fingerprint *)
  mt_rotations : gmap (jsstr * jsstr) CredentialRequest;                                   (** node_id, request_id *)
  mt_relay_requests : gmap (jsstr * jsstr) CredentialRequest;                              (** node_id, request_id *)
  mt_events : list SecurityEvent;
}.

(** Transport Profiles and Relay endpoints *)
Record ProfileTables := MkProfileTables {
  pt_profiles : gmap jsstr ProfileRow;
  pt_revisions : gmap (jsstr * Z) ProfileRevision;                                         (** profile_id, revision *)
  pt_grants : gset (jsstr * jsstr);                                                       (** profile_id, actor_id *)
  pt_events : list TransportEvent;
  pt_endpoints : gmap jsstr EndpointRow;                                                              (** node_id *)
}.

(** The offline Transit journal *)
Record TransitTables := MkTransitTables {
  tt_deployments : gmap (jsstr * Z) TransitStageRow;                                         (** forward_id, generation *)
  tt_coordination : gmap (jsstr * Z) CoordinationRow;
  tt_outbox : gmap jsstr OutboxRow;                                                             (** envelope_digest *)
  tt_receipts : gmap (jsstr * Z * Z) ReceiptRow;                          (** node_id, session_epoch, report_sequence *)
}.

(** Relay deployments, Node boots and the reports a Node has sent *)
Record RuntimeTables := MkRuntimeTables {
  rt_deployments : gmap (jsstr * Z) Deployment;                                              (** forward_id, generation *)
  rt_boots : gmap (jsstr * jsstr) Z;                                             (** node_id, boot_id: session_epoch *)
  rt_reports : gmap (jsstr * Z * Z) jsstr;                    (** node_id, session_epoch, sequence: request_digest *)
}.

(** Path templates and their application to Forwards *)
Record PathTables := MkPathTables {
  ht_templates : gmap (jsstr * jsstr) TemplateRow;                                        (** scope_id, template_id *)
  ht_revisions : gmap (jsstr * jsstr * Z) TemplateRevision;                     (** scope_id, template_id, revision *)
  ht_events : list TemplateEvent;
  ht_bindings : gmap (jsstr * Z) BindingRow;                                              (** forward_id, sequence *)
  ht_current : gmap jsstr Z;                                                              (** forward_id: sequence *)
}.

(** Probe instances, permits and results *)
Record ProbeTables := MkProbeTables {
  bt_instances : gmap jsstr (option ProbeSlot);                                             (** node_id; None: empty *)
  bt_observed_at : Z;                                                          (** the row of probe_permit_budget *)
  bt_permits : gmap jsstr ProbePermit;
  bt_withdrawals : gmap jsstr Z;                                                         (** permit_id: withdrawn_at *)
  bt_results : gmap jsstr ProbeResultRow;                                                             (** permit_id *)
}.

Record Db := MkDb {
  db_forwards : gmap jsstr ForwardRow; db_forward_revisions : gmap (jsstr * Z) ForwardSpec;
  db_port_slots : gmap slot_id SlotRow; db_operations : gmap jsstr Operation;
  db_retirements : gmap instance_id Retirement; db_leases : gmap lease_id Lease;
  db_snapshots : gmap (jsstr * Z) SnapshotRow; db_runtime_nodes : gmap jsstr RuntimeNode;
  db_idempotency : gmap request_id IdempotencyRow;
  db_identity : IdentityTables; db_machines : MachineTables; db_profiles : ProfileTables; db_transit : TransitTables;
  db_runtime : RuntimeTables; db_paths : PathTables; db_probes : ProbeTables;
}.

Definition empty_db : Db := MkDb ∅ ∅ ∅ ∅ ∅ ∅ ∅ ∅ ∅ (MkIdentityTables ∅ ∅ ∅ [])
  (MkMachineTables ∅ ∅ ∅ ∅ ∅ ∅ []) (MkProfileTables ∅ ∅ ∅ [] ∅) (MkTransitTables ∅ ∅ ∅ ∅) (MkRuntimeTables ∅ ∅ ∅)
  (MkPathTables ∅ ∅ [] ∅ ∅) (MkProbeTables ∅ 0 ∅ ∅ ∅).

Definition with_forwards (f : gmap jsstr ForwardRow -> gmap jsstr ForwardRow) (d : Db) : Db :=
  MkDb (f (db_forwards d)) (db_forward_revisions d) (db_port_slots d) (db_operations d) (db_retirements d) (db_leases d)
       (db_snapshots d) (db_runtime_nodes d) (db_idempotency d) (db_identity d) (db_machines d) (db_profiles d) (db_transit d) (db_runtime d) (db_paths d) (db_probes d).
Definition with_forward_revisions (f : gmap (jsstr * Z) ForwardSpec -> gmap (jsstr * Z) ForwardSpec) (d : Db) : Db :=
  MkDb (db_forwards d) (f (db_forward_revisions d)) (db_port_slots d) (db_operations d) (db_retirements d) (db_leases d)
       (db_snapshots d) (db_runtime_nodes d) (db_idempotency d) (db_identity d) (db_machines d) (db_profiles d) (db_transit d) (db_runtime d) (db_paths d) (db_probes d).
Definition with_port_slots (f : gmap slot_id SlotRow -> gmap slot_id SlotRow) (d : Db) : Db :=
  MkDb (db_forwards d) (db_forward_revisions d) (f (db_port_slots d)) (db_operations d) (db_retirements d) (db_leases d)
       (db_snapshots d) (db_runtime_nodes d) (db_idempotency d) (db_identity d) (db_machines d) (db_profiles d) (db_transit d) (db_runtime d) (db_paths d) (db_probes d).
Definition with_operations (f : gmap jsstr Operation -> gmap jsstr Operation) (d : Db) : Db :=
  MkDb (db_forwards d) (db_forward_revisions d) (db_port_slots d) (f (db_operations d)) (db_retirements d) (db_leases d)
       (db_snapshots d) (db_runtime_nodes d) (db_idempotency d) (db_identity d) (db_machines d) (db_profiles d) (db_transit d) (db_runtime d) (db_paths d) (db_probes d).
Definition with_retirements (f : gmap instance_id Retirement -> gmap instance_id Retirement) (d : Db) : Db :=
  MkDb (db_forwards d) (db_forward_revisions d) (db_port_slots d) (db_operations d) (f (db_retirements d)) (db_leases d)
       (db_snapshots d) (db_runtime_nodes d) (db_idempotency d) (db_identity d) (db_machines d) (db_profiles d) (db_transit d) (db_runtime d) (db_paths d) (db_probes d).
Definition with_leases (f : gmap lease_id Lease -> gmap lease_id Lease) (d : Db) : Db :=
  MkDb (db_forwards d) (db_forward_revisions d) (db_port_slots d) (db_operations d) (db_retirements d) (f (db_leases d))
       (db_snapshots d) (db_runtime_nodes d) (db_idempotency d) (db_identity d) (db_machines d) (db_profiles d) (db_transit d) (db_runtime d) (db_paths d) (db_probes d).
Definition with_snapshots (f : gmap (jsstr * Z) SnapshotRow -> gmap (jsstr * Z) SnapshotRow) (d : Db) : Db :=
  MkDb (db_forwards d) (db_forward_revisions d) (db_port_slots d) (db_operations d) (db_retirements d) (db_leases d)
       (f (db_snapshots d)) (db_runtime_nodes d) (db_idempotency d) (db_identity d) (db_machines d) (db_profiles d) (db_transit d) (db_runtime d) (db_paths d) (db_probes d).
Definition with_runtime_nodes (f : gmap jsstr RuntimeNode -> gmap jsstr RuntimeNode) (d : Db) : Db :=
  MkDb (db_forwards d) (db_forward_revisions d) (db_port_slots d) (db_operations d) (db_retirements d) (db_leases d)
       (db_snapshots d) (f (db_runtime_nodes d)) (db_idempotency d) (db_identity d) (db_machines d) (db_profiles d) (db_transit d) (db_runtime d) (db_paths d) (db_probes d).
Definition with_idempotency (f : gmap request_id IdempotencyRow -> gmap request_id IdempotencyRow) (d : Db) : Db :=
  MkDb (db_forwards d) (db_forward_revisions d) (db_port_slots d) (db_operations d) (db_retirements d) (db_leases d)
       (db_snapshots d) (db_runtime_nodes d) (f (db_idempotency d)) (db_identity d) (db_machines d) (db_profiles d) (db_transit d) (db_runtime d) (db_paths d) (db_probes d).

Definition with_identity (f : IdentityTables -> IdentityTables) (d : Db) : Db :=
  MkDb (db_forwards d) (db_forward_revisions d) (db_port_slots d) (db_operations d) (db_retirements d) (db_leases d)
       (db_snapshots d) (db_runtime_nodes d) (db_idempotency d) (f (db_identity d)) (db_machines d) (db_profiles d) (db_transit d) (db_runtime d) (db_paths d) (db_probes d).
Definition with_machines (f : MachineTables -> MachineTables) (d : Db) : Db :=
  MkDb (db_forwards d) (db_forward_revisions d) (db_port_slots d) (db_operations d) (db_retirements d) (db_leases d)
       (db_snapshots d) (db_runtime_nodes d) (db_idempotency d) (db_identity d) (f (db_machines d)) (db_profiles d) (db_transit d) (db_runtime d) (db_paths d) (db_probes d).
Definition with_profiles (f : ProfileTables -> ProfileTables) (d : Db) : Db :=
  MkDb (db_forwards d) (db_forward_revisions d) (db_port_slots d) (db_operations d) (db_retirements d) (db_leases d)
       (db_snapshots d) (db_runtime_nodes d) (db_idempotency d) (db_identity d) (db_machines d) (f (db_profiles d)) (db_transit d) (db_runtime d) (db_paths d) (db_probes d).
Definition with_transit (f : TransitTables -> TransitTables) (d : Db) : Db :=
  MkDb (db_forwards d) (db_forward_revisions d) (db_port_slots d) (db_operations d) (db_retirements d) (db_leases d)
       (db_snapshots d) (db_runtime_nodes d) (db_idempotency d) (db_identity d) (db_machines d) (db_profiles d) (f (db_transit d)) (db_runtime d) (db_paths d) (db_probes d).

Definition with_runtime (f : RuntimeTables -> RuntimeTables) (d : Db) : Db :=
  MkDb (db_forwards d) (db_forward_revisions d) (db_port_slots d) (db_operations d) (db_retirements d) (db_leases d)
       (db_snapshots d) (db_runtime_nodes d) (db_idempotency d) (db_identity d) (db_machines d) (db_profiles d) (db_transit d) (f (db_runtime d)) (db_paths d) (db_probes d).

Definition with_paths (f : PathTables -> PathTables) (d : Db) : Db :=
  MkDb (db_forwards d) (db_forward_revisions d) (db_port_slots d) (db_operations d) (db_retirements d) (db_leases d)
       (db_snapshots d) (db_runtime_nodes d) (db_idempotency d) (db_identity d) (db_machines d) (db_profiles d) (db_transit d) (db_runtime d) (f (db_paths d)) (db_probes d).
Definition with_probes (f : ProbeTables -> ProbeTables) (d : Db) : Db :=
  MkDb (db_forwards d) (db_forward_revisions d) (db_port_slots d) (db_operations d) (db_retirements d) (db_leases d)
       (db_snapshots d) (db_runtime_nodes d) (db_idempotency d) (db_identity d) (db_machines d) (db_profiles d) (db_transit d) (db_runtime d) (db_paths d) (f (db_probes d)).

Definition db_accounts (d : Db) := it_accounts (db_identity d).
Definition db_scopes (d : Db) := it_scopes (db_identity d).
Definition db_members (d : Db) := it_members (db_identity d).
Definition db_access_events (d : Db) := it_events (db_identity d).
Definition with_accounts f : Db -> Db := with_identity (fun t => MkIdentityTables (f (it_accounts t)) (it_scopes t) (it_members t) (it_events t)).
Definition with_scopes f : Db -> Db := with_identity (fun t => MkIdentityTables (it_accounts t) (f (it_scopes t)) (it_members t) (it_events t)).
Definition with_members f : Db -> Db := with_identity (fun t => MkIdentityTables (it_accounts t) (it_scopes t) (f (it_members t)) (it_events t)).
Definition with_access_events f : Db -> Db := with_identity (fun t => MkIdentityTables (it_accounts t) (it_scopes t) (it_members t) (f (it_events t))).

Definition db_nodes (d : Db) := mt_nodes (db_machines d).
Definition db_node_grants (d : Db) := mt_grants (db_machines d).
Definition db_credentials (d : Db) := mt_credentials (db_machines d).
Definition db_relay_credentials (d : Db) := mt_relay_credentials (db_machines d).
Definition db_rotations (d : Db) := mt_rotations (db_machines d).
Definition db_relay_requests (d : Db) := mt_relay_requests (db_machines d).
Definition db_security_events (d : Db) := mt_events (db_machines d).
Definition with_nodes f : Db -> Db := with_machines (fun t => MkMachineTables (f (mt_nodes t)) (mt_grants t) (mt_credentials t) (mt_relay_credentials t) (mt_rotations t) (mt_relay_requests t) (mt_events t)).
Definition with_node_grants f : Db -> Db := with_machines (fun t => MkMachineTables (mt_nodes t) (f (mt_grants t)) (mt_credentials t) (mt_relay_credentials t) (mt_rotations t) (mt_relay_requests t) (mt_events t)).
Definition with_credentials f : Db -> Db := with_machines (fun t => MkMachineTables (mt_nodes t) (mt_grants t) (f (mt_credentials t)) (mt_relay_credentials t) (mt_rotations t) (mt_relay_requests t) (mt_events t)).
Definition with_relay_credentials f : Db -> Db := with_machines (fun t => MkMachineTables (mt_nodes t) (mt_grants t) (mt_credentials t) (f (mt_relay_credentials t)) (mt_rotations t) (mt_relay_requests t) (mt_events t)).
Definition with_rotations f : Db -> Db := with_machines (fun t => MkMachineTables (mt_nodes t) (mt_grants t) (mt_credentials t) (mt_relay_credentials t) (f (mt_rotations t)) (mt_relay_requests t) (mt_events t)).
Definition with_relay_requests f : Db -> Db := with_machines (fun t => MkMachineTables (mt_nodes t) (mt_grants t) (mt_credentials t) (mt_relay_credentials t) (mt_rotations t) (f (mt_relay_requests t)) (mt_events t)).
Definition with_security_events f : Db -> Db := with_machines (fun t => MkMachineTables (mt_nodes t) (mt_grants t) (mt_credentials t) (mt_relay_credentials t) (mt_rotations t) (mt_relay_requests t) (f (mt_events t))).

Definition db_transport_profiles (d : Db) := pt_profiles (db_profiles d).
Definition db_profile_revisions (d : Db) := pt_revisions (db_profiles d).
Definition db_profile_grants (d : Db) := pt_grants (db_profiles d).
Definition db_transport_events (d : Db) := pt_events (db_profiles d).
Definition db_relay_endpoints (d : Db) := pt_endpoints (db_profiles d).
Definition with_transport_profiles f : Db -> Db := with_profiles (fun t => MkProfileTables (f (pt_profiles t)) (pt_revisions t) (pt_grants t) (pt_events t) (pt_endpoints t)).
Definition with_profile_revisions f : Db -> Db := with_profiles (fun t => MkProfileTables (pt_profiles t) (f (pt_revisions t)) (pt_grants t) (pt_events t) (pt_endpoints t)).
Definition with_profile_grants f : Db -> Db := with_profiles (fun t => MkProfileTables (pt_profiles t) (pt_revisions t) (f (pt_grants t)) (pt_events t) (pt_endpoints t)).
Definition with_transport_events f : Db -> Db := with_profiles (fun t => MkProfileTables (pt_profiles t) (pt_revisions t) (pt_grants t) (f (pt_events t)) (pt_endpoints t)).
Definition with_relay_endpoints f : Db -> Db := with_profiles (fun t => MkProfileTables (pt_profiles t) (pt_revisions t) (pt_grants t) (pt_events t) (f (pt_endpoints t))).

Definition db_deployments (d : Db) := tt_deployments (db_transit d).
Definition db_coordination (d : Db) := tt_coordination (db_transit d).
Definition db_outbox (d : Db) := tt_outbox (db_transit d).
Definition db_receipts (d : Db) := tt_receipts (db_transit d).
Definition with_deployments f : Db -> Db := with_transit (fun t => MkTransitTables (f (tt_deployments t)) (tt_coordination t) (tt_outbox t) (tt_receipts t)).
Definition with_coordination f : Db -> Db := with_transit (fun t => MkTransitTables (tt_deployments t) (f (tt_coordination t)) (tt_outbox t) (tt_receipts t)).
Definition with_outbox f : Db -> Db := with_transit (fun t => MkTransitTables (tt_deployments t) (tt_coordination t) (f (tt_outbox t)) (tt_receipts t)).
Definition with_receipts f : Db -> Db := with_transit (fun t => MkTransitTables (tt_deployments t) (tt_coordination t) (tt_outbox t) (f (tt_receipts t))).

Definition db_relay_deployments (d : Db) := rt_deployments (db_runtime d).
Definition db_boots (d : Db) := rt_boots (db_runtime d).
Definition db_reports (d : Db) := rt_reports (db_runtime d).
Definition with_relay_deployments f : Db -> Db := with_runtime (fun t => MkRuntimeTables (f (rt_deployments t)) (rt_boots t) (rt_reports t)).
Definition with_boots f : Db -> Db := with_runtime (fun t => MkRuntimeTables (rt_deployments t) (f (rt_boots t)) (rt_reports t)).
Definition with_reports f : Db -> Db := with_runtime (fun t => MkRuntimeTables (rt_deployments t) (rt_boots t) (f (rt_reports t))).

Definition db_templates (d : Db) := ht_templates (db_paths d).
Definition db_template_revisions (d : Db) := ht_revisions (db_paths d).
Definition db_template_events (d : Db) := ht_events (db_paths d).
Definition db_bindings (d : Db) := ht_bindings (db_paths d).
Definition db_current_bindings (d : Db) := ht_current (db_paths d).
Definition with_templates f : Db -> Db := with_paths (fun t => MkPathTables (f (ht_templates t)) (ht_revisions t) (ht_events t) (ht_bindings t) (ht_current t)).
Definition with_template_revisions f : Db -> Db := with_paths (fun t => MkPathTables (ht_templates t) (f (ht_revisions t)) (ht_events t) (ht_bindings t) (ht_current t)).
Definition with_template_events f : Db -> Db := with_paths (fun t => MkPathTables (ht_templates t) (ht_revisions t) (f (ht_events t)) (ht_bindings t) (ht_current t)).
Definition with_bindings f : Db -> Db := with_paths (fun t => MkPathTables (ht_templates t) (ht_revisions t) (ht_events t) (f (ht_bindings t)) (ht_current t)).
Definition with_current_bindings f : Db -> Db := with_paths (fun t => MkPathTables (ht_templates t) (ht_revisions t) (ht_events t) (ht_bindings t) (f (ht_current t))).

Definition db_probe_instances (d : Db) := bt_instances (db_probes d).
Definition db_probe_clock (d : Db) := bt_observed_at (db_probes d).
Definition db_permits (d : Db) := bt_permits (db_probes d).
Definition db_withdrawals (d : Db) := bt_withdrawals (db_probes d).
Definition db_probe_results (d : Db) := bt_results (db_probes d).
Definition with_probe_instances f : Db -> Db := with_probes (fun t => MkProbeTables (f (bt_instances t)) (bt_observed_at t) (bt_permits t) (bt_withdrawals t) (bt_results t)).
Definition with_probe_clock f : Db -> Db := with_probes (fun t => MkProbeTables (bt_instances t) (f (bt_observed_at t)) (bt_permits t) (bt_withdrawals t) (bt_results t)).
Definition with_permits f : Db -> Db := with_probes (fun t => MkProbeTables (bt_instances t) (bt_observed_at t) (f (bt_permits t)) (bt_withdrawals t) (bt_results t)).
Definition with_withdrawals f : Db -> Db := with_probes (fun t => MkProbeTables (bt_instances t) (bt_observed_at t) (bt_permits t) (f (bt_withdrawals t)) (bt_results t)).
Definition with_probe_results f : Db -> Db := with_probes (fun t => MkProbeTables (bt_instances t) (bt_observed_at t) (bt_permits t) (bt_withdrawals t) (f (bt_results t))).

(** ** Transactions *)

Definition tx (A : Type) : Type := Db -> outcome (A * Db).

#[export] Instance tx_ret : MRet tx := fun A a d => Returns (a, d).
#[export] Instance tx_bind : MBind tx := fun A B f m d =>
  match m d with Returns (a, d') => f a d' | Throws e => Throws e end.

Definition throw {A} (c m : string) : tx A := fun _ => Throws (Exn c m).
Definition require (b : bool) (c m : string) : tx unit := if b then mret tt else throw c m.
Definition lift {A} (m : outcome A) : tx A := fun d =>
  match m with Returns a => Returns (a, d) | Throws e => Throws e end.

(** [SELECT] reads a table, [UPDATE] and [INSERT] change it. *)
Definition query {A} (f : Db -> A) : tx A := fun d => Returns (f d, d).
Definition modify (f : Db -> Db) : tx unit := fun d => Returns (tt, f d).

(** [for (const x of l) await body(x)] *)
Fixpoint for_each {A} (body : A -> tx unit) (l : list A) : tx unit :=
  match l with
  | [] => mret tt
  | x :: r => body x ≫= fun _ => for_each body r
  end.

(** The same loop, collecting what the body pushes. *)
Fixpoint collect_each {A B} (body : A -> tx B) (l : list A) : tx (list B) :=
  match l with
  | [] => mret []
  | x :: r => body x ≫= fun y => collect_each body r ≫= fun ys => mret (y :: ys)
  end.

(** [db.transaction(action)]: commit or roll back. *)
Definition transaction {A} (action : tx A) (d : Db) : outcome A * Db :=
  match action d with
  | Returns (a, d') => (Returns a, d')
  | Throws e => (Throws e, d)
  end.

(** Whether a computation returned: the test a concrete run is evaluated by. *)
Definition is_returns {A} (o : outcome A) : bool := match o with Returns _ => true | Throws _ => false end.

Lemma is_returns_true {A} (o : outcome A) : is_returns o = true -> exists x, o = Returns x.
Proof. destruct o; [by eauto|done]. Qed.

Lemma tx_bind_Returns {A B} (m : tx A) (f : A -> tx B) d b d' :
  (m ≫= f) d = Returns (b, d') <-> exists a d1, m d = Returns (a, d1) /\ f a d1 = Returns (b, d').
Proof. unfold mbind, tx_bind. destruct (m d) as [[a d1]|]; naive_solver. Qed.

Lemma require_Returns b c m d u d' : require b c m d = Returns (u, d') <-> b = true /\ d' = d.
Proof. unfold require, mret, tx_ret, throw. destruct b; destruct u; naive_solver. Qed.

Lemma query_Returns {A} (f : Db -> A) d a d' : query f d = Returns (a, d') <-> a = f d /\ d' = d.
Proof. unfold query. naive_solver. Qed.

Lemma modify_Returns f d u d' : modify f d = Returns (u, d') <-> d' = f d.
Proof. unfold modify. destruct u. naive_solver. Qed.

Lemma mret_Returns {A} (a : A) d b d' : (mret a : tx A) d = Returns (b, d') <-> b = a /\ d' = d.
Proof. unfold mret, tx_ret. naive_solver. Qed.

Lemma lift_Returns {A} (m : outcome A) d b d' : lift m d = Returns (b, d') <-> m = Returns b /\ d' = d.
Proof. unfold lift. destruct m; naive_solver. Qed.

(** Take a run apart into the results and the states between its statements. *)
Ltac tx_inv :=
  repeat match goal with
  | H : (_ ≫= _) _ = Returns _ |- _ =>
      apply tx_bind_Returns in H; let a := fresh "a" in let d := fresh "d" in let Ha := fresh "Hrun" in
      destruct H as (a & d & Ha & H)
  | H : require _ _ _ _ = Returns (?u, _) |- _ => destruct u; apply require_Returns in H as [H ->]
  | H : query _ _ = Returns _ |- _ => apply query_Returns in H as [-> ->]
  | H : modify _ _ = Returns (?u, _) |- _ => destruct u; apply modify_Returns in H as ->
  | H : mret _ _ = Returns _ |- _ =>
      first [apply mret_Returns in H as [-> ->] | let E := fresh "Hret" in apply mret_Returns in H as [E ->]]
  | H : lift _ _ = Returns _ |- _ => apply lift_Returns in H as [H ->]
  | H : throw _ _ _ = Returns _ |- _ => discriminate H
  end.

(** ** Statements *)

(** [INSERT INTO t ...] of a fresh key. *)
Definition insert_row {K V} `{Countable K} (get : Db -> gmap K V) (set : (gmap K V -> gmap K V) -> Db -> Db)
    (k : K) (v : V) : tx unit :=
  present ← query (fun d => bool_decide (is_Some (get d !! k)));
  require (negb present) "ER_DUP_ENTRY" "Duplicate entry" ≫= fun _ => modify (set (insert k v)).

(** [SELECT ... WHERE ... ] of a table, in the order of the keys' enumeration; an [ORDER BY]
    sorts the result. *)
Definition select {K V} `{Countable K} (get : Db -> gmap K V) (where_ : K -> V -> bool) : tx (list (K * V)) :=
  query (fun d => List.filter (fun kv => where_ kv.1 kv.2) (map_to_list (get d))).

(** [UPDATE t SET ... WHERE ...]: the rows that match are rewritten. *)
Definition update_where {K V} `{Countable K} (where_ : K -> V -> bool) (change : K -> V -> V) (m : gmap K V) : gmap K V :=
  map_imap (fun k v => Some (if where_ k v then change k v else v)) m.

Lemma update_where_lookup {K V} `{Countable K} where_ change (m : gmap K V) k :
  update_where where_ change m !! k = (fun v => if where_ k v then change k v else v) <$> m !! k.
Proof. unfold update_where. rewrite map_lookup_imap. by destruct (m !! k). Qed.

Lemma select_Returns {K V} `{Countable K} (get : Db -> gmap K V) where_ d l d' :
  select get where_ d = Returns (l, d') -> d' = d /\ forall k v, (k, v) ∈ l <-> get d !! k = Some v /\ where_ k v = true.
Proof.
  unfold select. intros [-> ->]%query_Returns. split; [done|]. intros k v.
  rewrite list_elem_of_In, filter_In, <- list_elem_of_In, elem_of_map_to_list. done.
Qed.

Lemma insert_row_Returns {K V} `{Countable K} (get : Db -> gmap K V) set k v d u d' :
  insert_row get set k v d = Returns (u, d') <-> get d !! k = None /\ d' = set (insert k v) d.
Proof.
  unfold insert_row. split.
  - intros Hr. tx_inv. apply negb_true_iff, bool_decide_eq_false in Hrun0. split; [|done].
    destruct (get d !! k); [by destruct Hrun0; eauto|done].
  - intros [Hn ->]. unfold mbind, tx_bind, query. rewrite Hn. by destruct u.
Qed.

(** ** How a transaction changes the state

    [evolves R m]: every run of [m] that returns takes its initial state to a state
    related by [R].  The rules below follow the structure of [m]; [eauto with evolves]
    applies them. *)

Definition evolves (R : Db -> Db -> Prop) {A} (m : tx A) : Prop := forall d a d', m d = Returns (a, d') -> R d d'.

Section Evolves.
Context (R : Db -> Db -> Prop) `{!Reflexive R, !Transitive R}.

Lemma evolves_bind {A B} (m : tx A) (f : A -> tx B) : evolves R m -> (forall a, evolves R (f a)) -> evolves R (m ≫= f).
Proof using All. intros Hm Hf d b d' (a & d1 & H1 & H2)%tx_bind_Returns. etransitivity; [by eapply Hm|by eapply Hf]. Qed.

Lemma evolves_ret {A} (a : A) : evolves R (mret a).
Proof using All. intros d b d' [_ ->]%mret_Returns. reflexivity. Qed.

Lemma evolves_throw {A} c m : evolves R (@throw A c m).
Proof using. intros d b d'. discriminate. Qed.

Lemma evolves_require b c m : evolves R (require b c m).
Proof using All. intros d u d' [_ ->]%require_Returns. reflexivity. Qed.

Lemma evolves_query {A} (f : Db -> A) : evolves R (query f).
Proof using All. intros d b d' [_ ->]%query_Returns. reflexivity. Qed.

Lemma evolves_lift {A} (m : outcome A) : evolves R (lift m).
Proof using All. intros d b d' [_ ->]%lift_Returns. reflexivity. Qed.

Lemma evolves_select {K V} `{Countable K} (get : Db -> gmap K V) where_ : evolves R (select get where_).
Proof using All. apply evolves_query. Qed.

Lemma evolves_modify f : (forall d, R d (f d)) -> evolves R (modify f).
Proof using. intros Hf d u d' ->%modify_Returns. apply Hf. Qed.

Lemma evolves_for_each {A} (body : A -> tx unit) l : (forall x, evolves R (body x)) -> evolves R (for_each body l).
Proof using All.
  intros Hb. induction l as [|x r IH]; cbn; [apply evolves_ret|]. apply evolves_bind; [apply Hb|by intros _].
Qed.

Lemma evolves_collect_each {A B} (body : A -> tx B) l : (forall x, evolves R (body x)) -> evolves R (collect_each body l).
Proof using All.
  intros Hb. induction l as [|x r IH]; cbn; [apply evolves_ret|]. apply evolves_bind; [apply Hb|].
  intros y. apply evolves_bind; [done|]. intros ys. apply evolves_ret.
Qed.

Lemma evolves_option {A B} (o : option A) (f : A -> tx B) (g : tx B) :
  (forall a, o = Some a -> evolves R (f a)) -> evolves R g -> evolves R (match o with Some a => f a | None => g end).
Proof using. intros Hf Hg. destruct o; auto. Qed.
End Evolves.

Create HintDb evolves.
#[export] Hint Resolve evolves_bind evolves_ret evolves_throw evolves_require evolves_query evolves_lift evolves_select
  evolves_for_each evolves_collect_each : evolves.

(** Follow a transaction down to the statements that write. *)
Ltac evolve :=
  repeat match goal with
  | |- evolves _ (_ ≫= _) => apply evolves_bind; [try apply _|try apply _| |intros ?]
  | |- evolves _ (match ?x with _ => _ end) => destruct x
  | |- evolves _ (for_each _ _) => apply evolves_for_each; [try apply _|try apply _|intros ?]
  | |- evolves _ (collect_each _ _) => apply evolves_collect_each; [try apply _|try apply _|intros ?]
  | |- evolves _ (let _ := _ in _) => cbn zeta
  | |- evolves _ _ => solve [eauto with evolves typeclass_instances]
  end.
