(* ===== verification/Idempotency.v ===== *)
(** Idempotent requests (apps/control/src/modules/idempotency.ts): a request key is executed
    once, its response is stored with it and replayed to every later request with the
    same key and digest. *)

From S2P Require Import Prelude.
From S2P Require Import JsString.
From S2P Require Import Json.
From S2P Require Import Store.

Local Open Scope Z_scope.

(** application/ports.ts *)
Record RequestIdentity := MkRequest { rq_actorId : jsstr; rq_scopeId : jsstr; rq_key : jsstr; rq_digest : jsstr }.

Record Response := MkResponse { resp_status : Z; resp_body : json }.

Definition request_key (r : RequestIdentity) : request_id := (rq_scopeId r, rq_actorId r, rq_key r).

Definition quarantineRecovery : tx unit :=
  modify (with_idempotency (update_where (fun _ _ => true) (fun _ r =>
    MkIdempotencyRow (id_request_digest r) (id_http_status r) (id_response r) true))).

(** [INSERT ... ON DUPLICATE KEY UPDATE request_key=request_key] *)
Definition claim_row (r : RequestIdentity) (m : gmap request_id IdempotencyRow) : gmap request_id IdempotencyRow :=
  match m !! request_key r with
  | Some _ => m
  | None => <[request_key r := MkIdempotencyRow (rq_digest r) None None false]> m
  end.

Definition claim (r : RequestIdentity) : tx (option Response) :=
  _ ← modify (with_idempotency (claim_row r));
  row ← query (fun d => db_idempotency d !! request_key r);
  match row with
  | None => throw "TypeError" "Cannot read properties of undefined"
  | Some record =>
      _ ← require (negb (id_recovery_invalidated record)) "RECOVERY_REPLAY_REQUIRES_REVIEW"
            "Restored request history cannot be automatically replayed";
      _ ← require (str_eqb (id_request_digest record) (rq_digest r)) "IDEMPOTENCY_CONFLICT"
            "Idempotency key was used for another request";
      match id_http_status record with
      | Some status => mret (Some (MkResponse status (default JNull (id_response record))))
      | None => mret None
      end
  end.

Definition respond (r : RequestIdentity) (response : Response) : tx unit :=
  modify (with_idempotency (update_where (fun k _ => bool_decide (k = request_key r)) (fun _ row =>
    MkIdempotencyRow (id_request_digest row) (Some (resp_status response)) (Some (resp_body response)) (id_recovery_invalidated row)))).

(** The way every command uses it: claim, replay or act, then record the response. *)
Definition once (r : RequestIdentity) (action : tx Response) : tx Response :=
  replay ← claim r;
  match replay with
  | Some response => mret response
  | None => response ← action; _ ← respond r response; mret response
  end.

(** ** Laws *)

(** An action leaves the record of its own request alone. *)
Definition keeps_request {A} (r : RequestIdentity) (action : tx A) : Prop :=
  forall d a d', action d = Returns (a, d') -> db_idempotency d' !! request_key r = db_idempotency d !! request_key r.

Definition stored (r : RequestIdentity) (d : Db) : option IdempotencyRow := db_idempotency d !! request_key r.

Lemma claim_row_lookup r m : claim_row r m !! request_key r =
  Some (default (MkIdempotencyRow (rq_digest r) None None false) (m !! request_key r)).
Proof. unfold claim_row. destruct (m !! request_key r) eqn:E; cbn; [done|]. by rewrite lookup_insert_eq. Qed.

(** What [claim] does with the record it finds, if any. *)
Lemma claim_spec r d result d' : claim r d = Returns (result, d') <->
  d' = with_idempotency (claim_row r) d /\
  let row := default (MkIdempotencyRow (rq_digest r) None None false) (stored r d) in
  id_recovery_invalidated row = false /\ id_request_digest row = rq_digest r /\
  result = (fun status => MkResponse status (default JNull (id_response row))) <$> id_http_status row.
Proof.
  unfold claim, stored. cbn zeta. set (row := default _ _).
  assert (Hq : db_idempotency (with_idempotency (claim_row r) d) !! request_key r = Some row).
  { unfold row. apply claim_row_lookup. }
  split.
  - intros Hr. tx_inv. rewrite Hq in Hr. tx_inv. apply negb_true_iff in Hrun. apply bool_decide_eq_true in Hrun0.
    destruct (id_http_status row) eqn:E; tx_inv; done.
  - intros (-> & Hi & Hd & ->). apply tx_bind_Returns. eexists tt, _. split; [done|].
    apply tx_bind_Returns. eexists _, _. split; [done|]. rewrite Hq.
    apply tx_bind_Returns. eexists tt, _. split; [apply require_Returns; split; [by rewrite Hi|done]|].
    apply tx_bind_Returns. eexists tt, _. split; [apply require_Returns; split; [by apply bool_decide_eq_true|done]|].
    by destruct (id_http_status row).
Qed.

Lemma respond_lookup r response d u d' : respond r response d = Returns (u, d') ->
  stored r d' = (fun row => MkIdempotencyRow (id_request_digest row) (Some (resp_status response))
                              (Some (resp_body response)) (id_recovery_invalidated row)) <$> stored r d.
Proof.
  unfold respond, stored. intros Hr. tx_inv. cbn. rewrite update_where_lookup. destruct (_ !! _); [|done].
  cbn. by rewrite bool_decide_eq_true_2.
Qed.

(** Other requests are not touched. *)
Lemma respond_other r response d u d' k : respond r response d = Returns (u, d') -> k <> request_key r ->
  db_idempotency d' !! k = db_idempotency d !! k.
Proof.
  unfold respond. intros Hr Hk. tx_inv. cbn. rewrite update_where_lookup. destruct (_ !! _); [|done].
  cbn. by rewrite bool_decide_eq_false_2.
Qed.

(** The record after a completed request. *)
Definition completed (r : RequestIdentity) (response : Response) (d : Db) : Prop :=
  stored r d = Some (MkIdempotencyRow (rq_digest r) (Some (resp_status response)) (Some (resp_body response)) false).

Lemma claim_row_present r d : is_Some (stored r d) -> with_idempotency (claim_row r) d = d.
Proof. unfold stored. intros [row E]. destruct d. unfold with_idempotency, claim_row. cbn in *. by rewrite E. Qed.

Lemma once_first r action d response d' : keeps_request r action -> stored r d = None ->
  once r action d = Returns (response, d') ->
  completed r response d' /\ exists d1, action (with_idempotency (claim_row r) d) = Returns (response, d1).
Proof.
  intros Hk Hn. unfold once. intros Hr. tx_inv. apply claim_spec in Hrun as (-> & _ & _ & ->). rewrite Hn in Hr. cbn in Hr.
  tx_inv. split; [|eauto]. apply respond_lookup in Hrun0. unfold completed. rewrite Hrun0.
  apply Hk in Hrun. unfold stored. rewrite Hrun. cbn [db_idempotency with_idempotency]. rewrite claim_row_lookup.
  unfold stored in Hn. by rewrite Hn.
Qed.

Lemma once_replay r response d action : completed r response d -> once r action d = Returns (response, d).
Proof.
  intros Hc. unfold once. apply tx_bind_Returns. exists (Some response), d. split; [|done].
  apply claim_spec. rewrite claim_row_present by (rewrite Hc; eauto). rewrite Hc. cbn. by destruct response.
Qed.

Lemma once_conflict r r' response d action : completed r response d -> request_key r' = request_key r ->
  rq_digest r' <> rq_digest r ->
  once r' action d = Throws (Exn "IDEMPOTENCY_CONFLICT" "Idempotency key was used for another request").
Proof.
  intros Hc Hk Hd. unfold completed, stored in Hc. rewrite <- Hk in Hc.
  assert (E : with_idempotency (claim_row r') d = d) by (apply claim_row_present; unfold stored; rewrite Hc; eauto).
  unfold once, claim, mbind, tx_bind, modify, query. rewrite E, Hc. cbn. unfold str_eqb.
  by rewrite bool_decide_eq_false_2.
Qed.

Lemma once_quarantined r response d action : completed r response d -> exists d', quarantineRecovery d = Returns (tt, d') /\
  once r action d' = Throws (Exn "RECOVERY_REPLAY_REQUIRES_REVIEW" "Restored request history cannot be automatically replayed").
Proof.
  intros Hc. eexists. split; [done|]. set (d' := with_idempotency _ _).
  assert (Hs : stored r d' = Some (MkIdempotencyRow (rq_digest r) (Some (resp_status response)) (Some (resp_body response)) true)).
  { unfold stored, d'. cbn. rewrite update_where_lookup. unfold completed, stored in Hc. by rewrite Hc. }
  unfold once, claim, mbind, tx_bind, modify, query. rewrite claim_row_present by (rewrite Hs; eauto).
  unfold stored in Hs. by rewrite Hs.
Qed.

(** A request is executed once.  For an action that does not touch the record of its
    own request: the first run with a key executes the action and records its
    response; from then on, in whatever state has kept that record, every request with
    the same key and digest gets this response and changes nothing, one with another
    digest is refused as a conflict, and once the history has been quarantined after a
    recovery it is refused for review.  A run whose action throws leaves no record. *)
Theorem once_exactly (r : RequestIdentity) (action : tx Response) (d : Db) : keeps_request r action -> stored r d = None ->
  (forall response d', once r action d = Returns (response, d') ->
     (exists d1, action (with_idempotency (claim_row r) d) = Returns (response, d1)) /\
     forall later, stored r later = stored r d' -> forall action',
       once r action' later = Returns (response, later) /\
       (forall r', request_key r' = request_key r -> rq_digest r' <> rq_digest r ->
          once r' action' later = Throws (Exn "IDEMPOTENCY_CONFLICT" "Idempotency key was used for another request")) /\
       (exists later', quarantineRecovery later = Returns (tt, later') /\
          once r action' later' = Throws (Exn "RECOVERY_REPLAY_REQUIRES_REVIEW"
                                     "Restored request history cannot be automatically replayed"))) /\
  (forall e, once r action d = Throws e -> transaction (once r action) d = (Throws e, d)).
Proof.
  intros Hk Hn. split.
  - intros response d' (Hc & Hrun)%once_first; [|done..]. split; [done|]. intros later Hl action'.
    assert (Hc' : completed r response later) by (unfold completed; by rewrite Hl).
    split_and!; [by apply once_replay| |by apply (once_quarantined r response)]. intros r' Hkey Hd. by eapply once_conflict.
  - intros e He. unfold transaction. by rewrite He.
Qed.

Definition example_request : RequestIdentity := MkRequest (js "u1") (js "s1") (js "k1") (js "sha256:00").
Definition example_action : tx Response := mret (MkResponse 202 (JStr (js "ok"))).

Lemma once_exactly_witness : exists d', once example_request example_action empty_db = Returns (MkResponse 202 (JStr (js "ok")), d') /\
  forall action', once example_request action' d' = Returns (MkResponse 202 (JStr (js "ok")), d').
Proof.
  eexists. split; [reflexivity|]. intros action'.
  assert (Hk : keeps_request example_request example_action) by (intros d a d' [= _ <-]; reflexivity).
  destruct (once_exactly example_request example_action empty_db Hk eq_refl) as [H _].
  destruct (H _ _ eq_refl) as [_ Hl]. exact (proj1 (Hl _ eq_refl action')).
Defined.
