(* ===== verification/Forwarding.v ===== *)
(** The Forward tables (apps/control/src/modules/forwarding.ts): the current intent of every
    Forward, its authorizer and its revision history. *)

From S2P Require Import Prelude.
From S2P Require Import JsString.
From S2P Require Import Primitives.
From S2P Require Import Json.
From S2P Require Import Forward.
From S2P Require Import Validate.
From S2P Require Import Planner.
From S2P Require Import Store.

Local Open Scope Z_scope.

Definition set_suspended (r : ForwardRow) : ForwardRow :=
  MkForwardRow (fw_scope_id r) (fw_revision r) (fw_spec r) (fw_deleting r) true (fw_authorization_actor r).

Definition quarantineForwards : tx unit := modify (with_forwards (update_where (fun _ _ => true) (fun _ => set_suspended))).

(** [{id, scopeId: scope_id, revision, spec}] *)
Definition to_forward (kr : jsstr * ForwardRow) : Forward :=
  MkForward kr.1 (fw_scope_id kr.2) (fw_revision kr.2) (fw_spec kr.2).

Definition live (r : ForwardRow) : bool := negb (fw_recovery_suspended r) && negb (fw_deleting r).

(** The Node occurs in the path of the intent. *)
Definition references (nodeId : jsstr) (r : ForwardRow) : bool :=
  str_eqb (ingress_nodeId (fw_spec r)) nodeId || includes (default [] (path_via (fw_spec r))) nodeId.

Definition uses_profile (p : jsstr) (r : ForwardRow) : bool :=
  match transport (fw_spec r) with Some t => str_eqb (profileId t) p | None => false end.

(** [ORDER BY id] *)
Definition by_id (a b : jsstr * ForwardRow) : bool := str_leb a.1 b.1.

Definition select_forwards (where_ : ForwardRow -> bool) : tx (list Forward) :=
  records ← select db_forwards (fun _ => where_);
  mret (map to_forward (sort_by by_id records)).

Definition hasLiveRelay (profile node : option jsstr) : tx bool :=
  match profile, node with
  | Some p, _ =>
      records ← select db_forwards (fun _ r => live r && uses_profile p r); mret (0 <? length records)%nat
  | None, Some n =>
      records ← select db_forwards (fun _ r => live r && references n r && bool_decide (is_Some (transport (fw_spec r))));
      mret (0 <? length records)%nat
  | None, None => throw "Error" "Explicit Relay reference required"
  end.

Definition forNode (nodeId : jsstr) : tx (list Forward) :=
  select_forwards (fun r => live r && str_eqb (ingress_nodeId (fw_spec r)) nodeId).

Definition forReferencedNode (nodeId : jsstr) : tx (list Forward) := select_forwards (fun r => live r && references nodeId r).

Definition forProfileActor (p actor : jsstr) : tx (list Forward) :=
  select_forwards (fun r => bool_decide (fw_authorization_actor r = Some actor) && live r && uses_profile p r).

Definition forActor (scope actor : jsstr) : tx (list Forward) :=
  select_forwards (fun r => str_eqb (fw_scope_id r) scope && bool_decide (fw_authorization_actor r = Some actor) && negb (fw_deleting r)).

Definition insert_forward (f : Forward) (actorId : jsstr) : tx unit :=
  _ ← insert_row db_forwards with_forwards (id f)
        (MkForwardRow (scopeId f) (revision f) (spec f) false false (Some actorId));
  insert_row db_forward_revisions with_forward_revisions (id f, revision f) (spec f).

Definition authorizer (forwardId : jsstr) : tx (option jsstr) :=
  query (fun d => db_forwards d !! forwardId ≫= fw_authorization_actor).

Definition setAuthorizer (forwardId actorId : jsstr) : tx unit :=
  modify (with_forwards (alter (fun r => MkForwardRow (fw_scope_id r) (fw_revision r) (fw_spec r) (fw_deleting r)
                                           (fw_recovery_suspended r) (Some actorId)) forwardId)).

(** [record] when [with_deleted], otherwise [get] and [currentForUpdate]. *)
Definition find_forward (with_deleted : bool) (scope forwardId : jsstr) : tx ForwardRow :=
  row ← query (fun d => db_forwards d !! forwardId);
  match row with
  | Some r => _ ← require (str_eqb (fw_scope_id r) scope && (with_deleted || negb (fw_deleting r))) "NOT_FOUND" "Resource not found";
              mret r
  | None => throw "NOT_FOUND" "Resource not found"
  end.

Definition currentForUpdate (scope forwardId : jsstr) : tx Forward :=
  r ← find_forward false scope forwardId; mret (to_forward (forwardId, r)).

(** [Forward & {deleting, recoverySuspended}] *)
Definition record_of (scope forwardId : jsstr) : tx (Forward * bool * bool) :=
  r ← find_forward true scope forwardId; mret (to_forward (forwardId, r), fw_deleting r, fw_recovery_suspended r).

(** [UPDATE forwards SET ... WHERE id=? AND revision=? AND deleting=FALSE] must match one row. *)
Definition update_current (current : Forward) (change : ForwardRow -> ForwardRow) : tx unit :=
  matched ← query (fun d => match db_forwards d !! id current with
                            | Some r => (fw_revision r =? revision current) && negb (fw_deleting r)
                            | None => false end);
  _ ← require matched "REVISION_CONFLICT" "Concurrent intent change";
  modify (with_forwards (alter change (id current))).

Definition replace_forward (current next : Forward) : tx unit :=
  _ ← update_current current (fun r => MkForwardRow (fw_scope_id r) (revision next) (spec next) false false (fw_authorization_actor r));
  insert_row db_forward_revisions with_forward_revisions (id next, revision next) (spec next).

Definition markDeleting (current : Forward) (nextRevision : Z) : tx unit :=
  _ ← update_current current (fun r => MkForwardRow (fw_scope_id r) nextRevision (fw_spec r) true (fw_recovery_suspended r)
                                         (fw_authorization_actor r));
  insert_row db_forward_revisions with_forward_revisions (id current, nextRevision) (spec current).

(** ** The history *)

(** The history records the current specification under the current revision and
    nothing above it. *)
Definition history_ok (d : Db) : Prop :=
  (forall f r, db_forwards d !! f = Some r -> db_forward_revisions d !! (f, fw_revision r) = Some (fw_spec r)) /\
  (forall f n s, db_forward_revisions d !! (f, n) = Some s -> exists r, db_forwards d !! f = Some r /\ n <= fw_revision r).

(** No recorded revision is ever changed or lost. *)
Definition history_grows (d d' : Db) : Prop := db_forward_revisions d ⊆ db_forward_revisions d'.

Lemma update_current_Returns current change d u d' : update_current current change d = Returns (u, d') <->
  (exists r, db_forwards d !! id current = Some r /\ fw_revision r = revision current /\ fw_deleting r = false) /\
  d' = with_forwards (alter change (id current)) d.
Proof.
  unfold update_current. split.
  - intros Hr. tx_inv. destruct (db_forwards d !! id current) as [r|]; [|done].
    apply andb_prop in Hrun0 as [Hrev%Z.eqb_eq Hdel%negb_true_iff]. eauto.
  - intros [(r & Hl & Hrev & Hdel) ->]. apply tx_bind_Returns. eexists _, _. split; [done|].
    apply tx_bind_Returns. eexists tt, _. split; [|by destruct u].
    apply require_Returns. rewrite Hl, Hrev, Hdel, Z.eqb_refl. done.
Qed.

(** Writing a new current revision on top of the history keeps it. *)
Lemma history_write d f row row' : history_ok d -> db_forwards d !! f = Some row -> fw_revision row < fw_revision row' ->
  db_forward_revisions d !! (f, fw_revision row') = None /\
  let d' := with_forward_revisions (insert (f, fw_revision row') (fw_spec row')) (with_forwards (insert f row') d) in
  history_ok d' /\ history_grows d d'.
Proof.
  intros [Hcur Hmax] Hl Hlt.
  assert (Hn : db_forward_revisions d !! (f, fw_revision row') = None).
  { destruct (db_forward_revisions d !! (f, fw_revision row')) as [s|] eqn:E; [|done]. apply Hmax in E as (r & Hr & Hle). rewrite Hl in Hr. injection Hr as <-. lia. }
  split; [done|]. cbn. split; [split|].
  - cbn. intros g r. destruct (decide (g = f)) as [->|Hg].
    + rewrite lookup_insert_eq. intros [= <-]. by rewrite lookup_insert_eq.
    + rewrite lookup_insert_ne by done. intros Hr. rewrite lookup_insert_ne by congruence. by apply Hcur.
  - cbn. intros g n s. destruct (decide ((g, n) = (f, fw_revision row'))) as [[= -> ->]|Hne].
    + intros _. exists row'. rewrite lookup_insert_eq. split; [done|lia].
    + rewrite lookup_insert_ne by done. intros (r & Hr & Hle)%Hmax. destruct (decide (g = f)) as [->|Hg].
      * exists row'. rewrite lookup_insert_eq. rewrite Hl in Hr. injection Hr as <-. split; [done|lia].
      * exists r. by rewrite lookup_insert_ne.
  - unfold history_grows. cbn. by apply insert_subseteq.
Qed.

Lemma alter_present {K V} `{Countable K} (change : V -> V) (m : gmap K V) k v :
  m !! k = Some v -> alter change k m = <[k := change v]> m.
Proof.
  intros Hk. apply map_eq. intros j. destruct (decide (j = k)) as [->|Hj].
  - by rewrite lookup_alter_eq, lookup_insert_eq, Hk.
  - by rewrite lookup_alter_ne, lookup_insert_ne.
Qed.

(** A write on top of the current revision: what it requires and what it does. *)
Lemma write_current current change nextSpec d u d' :
  (_ ← update_current current change; insert_row db_forward_revisions with_forward_revisions
     (id current, nextSpec.1) nextSpec.2) d = Returns (u, d') <->
  exists r, db_forwards d !! id current = Some r /\ fw_revision r = revision current /\ fw_deleting r = false /\
    db_forward_revisions d !! (id current, nextSpec.1) = None /\
    d' = with_forward_revisions (insert (id current, nextSpec.1) nextSpec.2) (with_forwards (insert (id current) (change r)) d).
Proof.
  rewrite tx_bind_Returns. setoid_rewrite update_current_Returns. setoid_rewrite insert_row_Returns. split.
  - intros ([] & d1 & [(r & Hl & Hrev & Hdel) ->] & Hn & ->). exists r. split_and!; try done.
    unfold with_forwards. cbn. by rewrite (alter_present change _ _ r).
  - intros (r & Hl & Hrev & Hdel & Hn & ->). exists tt. eexists. split; [split; [eauto|done]|]. cbn. split; [done|].
    unfold with_forwards, with_forward_revisions. cbn. by rewrite (alter_present change _ _ r).
Qed.

Lemma replace_Returns current next d u d' : id next = id current ->
  replace_forward current next d = Returns (u, d') <->
  exists r, db_forwards d !! id current = Some r /\ fw_revision r = revision current /\ fw_deleting r = false /\
    db_forward_revisions d !! (id current, revision next) = None /\
    d' = with_forward_revisions (insert (id current, revision next) (spec next))
           (with_forwards (insert (id current)
              (MkForwardRow (fw_scope_id r) (revision next) (spec next) false false (fw_authorization_actor r))) d).
Proof.
  intros Hid. unfold replace_forward. rewrite Hid. apply (write_current current _ (revision next, spec next)).
Qed.

Lemma markDeleting_Returns current n d u d' :
  markDeleting current n d = Returns (u, d') <->
  exists r, db_forwards d !! id current = Some r /\ fw_revision r = revision current /\ fw_deleting r = false /\
    db_forward_revisions d !! (id current, n) = None /\
    d' = with_forward_revisions (insert (id current, n) (spec current))
           (with_forwards (insert (id current)
              (MkForwardRow (fw_scope_id r) n (fw_spec r) true (fw_recovery_suspended r) (fw_authorization_actor r))) d).
Proof. unfold markDeleting. apply (write_current current _ (n, spec current)). Qed.

(** Forward writes are a compare-and-set over an append-only history.  While the
    history records every current specification, [replace] of the current Forward by
    one with a higher revision succeeds exactly when the stored row still has the
    revision that was read and is not being deleted; it then keeps the history, adding
    the new revision and changing no recorded one, and any second writer that read
    the same revision, whether it replaces or deletes, is refused with a revision
    conflict. *)
Theorem replace_cas (current next : Forward) (d : Db) : history_ok d -> id next = id current -> revision current < revision next ->
  ((exists d', replace_forward current next d = Returns (tt, d')) <->
   exists r, db_forwards d !! id current = Some r /\ fw_revision r = revision current /\ fw_deleting r = false) /\
  (forall d', replace_forward current next d = Returns (tt, d') ->
     history_ok d' /\ history_grows d d' /\ db_forward_revisions d' !! (id current, revision next) = Some (spec next) /\
     (forall f, f <> id current -> db_forwards d' !! f = db_forwards d !! f) /\
     (forall other n, replace_forward current other d' = Throws (Exn "REVISION_CONFLICT" "Concurrent intent change") /\
                      markDeleting current n d' = Throws (Exn "REVISION_CONFLICT" "Concurrent intent change"))).
Proof.
  intros Hh Hid Hlt. setoid_rewrite (replace_Returns current next d _ _ Hid). split.
  - split; [intros (d' & r & ? & ? & ? & _); eauto|]. intros (r & Hl & Hrev & Hdel).
    set (row' := MkForwardRow (fw_scope_id r) (revision next) (spec next) false false (fw_authorization_actor r)).
    destruct (history_write d (id current) r row' Hh Hl ltac:(cbn; lia)) as [Hn _]. eexists. exists r. split_and!; done.
  - intros d' (r & Hl & Hrev & Hdel & Hn & ->).
    set (row' := MkForwardRow (fw_scope_id r) (revision next) (spec next) false false (fw_authorization_actor r)).
    destruct (history_write d (id current) r row' Hh Hl ltac:(cbn; lia)) as [_ [Hok Hg]]. split_and!; [exact Hok|exact Hg| | |].
    + cbn. by rewrite lookup_insert_eq.
    + intros f Hf. cbn. by rewrite lookup_insert_ne.
    + intros other n. unfold replace_forward, markDeleting, update_current, mbind, tx_bind, query. cbn.
      rewrite lookup_insert_eq. cbn. by rewrite (proj2 (Z.eqb_neq _ _)) by lia.
Qed.

Definition stored_forward : Db :=
  with_forward_revisions (insert (js "f1", 4) example_spec)
    (with_forwards (insert (js "f1") (MkForwardRow (js "s1") 4 example_spec false false (Some (js "u1")))) empty_db).

Lemma stored_forward_history : history_ok stored_forward.
Proof.
  split.
  - intros f r. cbn. rewrite insert_empty, lookup_singleton_Some. intros [<- <-]. by rewrite insert_empty, lookup_singleton_eq.
  - intros f n s. cbn. rewrite insert_empty, lookup_singleton_Some. intros [[= <- <-] <-].
    eexists. rewrite insert_empty, lookup_singleton_eq. split; [done|]. cbn. lia.
Qed.

Lemma replace_cas_witness : exists d', replace_forward example_forward (MkForward (js "f1") (js "s1") 5 example_spec) stored_forward = Returns (tt, d') /\
  history_ok d'.
Proof.
  destruct (replace_cas example_forward (MkForward (js "f1") (js "s1") 5 example_spec) stored_forward
    stored_forward_history eq_refl ltac:(cbn; lia)) as [He Hw].
  eexists. split; [reflexivity|]. apply Hw. reflexivity.
Defined.
