(* ===== verification/Slots.v ===== *)
(** Physical slots of the Runtime ledger (apps/control/src/modules/runtime/ledger.ts): a slot is a
    protocol and port of a Node; it has at most one owner, and a fence that grows with
    every acquisition. *)

From S2P Require Import Prelude.
From S2P Require Import JsString.
From S2P Require Import Primitives.
From S2P Require Import Json.
From S2P Require Import Forward.
From S2P Require Import Types.
From S2P Require Import Validate.
From S2P Require Import Transit.
From S2P Require Import Topology.
From S2P Require Import Planner.
From S2P Require Import RelayPlan.
From S2P Require Import Store.

Local Open Scope Z_scope.

(** [INSERT INTO port_slots(node_id,protocol,port) ... ON DUPLICATE KEY UPDATE port=port] *)
Definition ensure_slot (k : slot_id) (m : gmap slot_id SlotRow) : gmap slot_id SlotRow :=
  match m !! k with Some _ => m | None => <[k := MkSlotRow None 0 0]> m end.

(** That statement, then [SELECT ... FOR UPDATE]. *)
Definition lock_slot (k : slot_id) : tx SlotRow :=
  _ ← modify (with_port_slots (ensure_slot k));
  row ← query (fun d => db_port_slots d !! k);
  match row with Some r => mret r | None => throw "TypeError" "Cannot read properties of undefined" end.

(** [UPDATE port_slots SET owner_id=?,fence=fence+1,deployment_generation=? WHERE ...] *)
Definition take_slot (k : slot_id) (owner : jsstr) (generation : Z) : tx unit :=
  modify (with_port_slots (alter (fun r => MkSlotRow (Some owner) (sl_fence r + 1) generation) k)).

Definition owned_on (nodeId : jsstr) (d : Db) : Z :=
  Z.of_nat (length (List.filter (fun kr : slot_id * SlotRow =>
    str_eqb kr.1.1.1 nodeId && bool_decide (is_Some (sl_owner_id kr.2))) (map_to_list (db_port_slots d)))).

(** [[...protocols].sort()] *)
Definition sorted_protocols (s : ForwardSpec) : list NetworkProtocol :=
  sort_by (fun p q => str_leb (protocol_name p) (protocol_name q)) (protocols s).

Definition listener_slot (s : ForwardSpec) (p : NetworkProtocol) : slot_id :=
  (ingress_nodeId s, p, listen_port (ingress_listen s)).

(** The body of the loop of [reserve]. *)
Definition reserve_one (f : Forward) (p : NetworkProtocol) : tx ReservedSlot :=
  let k := listener_slot (spec f) p in
  r ← lock_slot k;
  _ ← require (negb (bool_decide (is_Some (sl_owner_id r)))) "PORT_RESERVED" "Listener port is reserved";
  _ ← require (sl_fence r <? MAX_COUNTER) "RESOURCE_LIMIT" "Resource counter exhausted";
  _ ← take_slot k (id f) 1;
  mret (MkReservedSlot k.1.1 (id f) p k.2 (sl_fence r + 1) 1).

Definition reserve (policy : Policy) (f : Forward) : tx (list ReservedSlot) :=
  slots ← collect_each (reserve_one f) (sorted_protocols (spec f));
  count ← query (owned_on (ingress_nodeId (spec f)));
  _ ← require (count <=? maxAssignmentsPerNode policy) "RESOURCE_LIMIT" "Node assignment capacity exceeded";
  mret slots.

Definition resource_slot (r : PlanResource) : slot_id := (prs_nodeId r, prs_physicalProtocol r, prs_port r).

(** The body of the loop of [reserveRelay]. *)
Definition reserve_relay_one (f : Forward) (generation : Z) (resource : PlanResource) : tx ReservedRelayResource :=
  let k := resource_slot resource in
  r ← lock_slot k;
  _ ← require (match sl_owner_id r with Some o => str_eqb o (id f) | None => true end)
        "PORT_RESERVED" "Relay physical resource is reserved";
  _ ← require (sl_fence r <? MAX_COUNTER) "RESOURCE_LIMIT" "Relay fence exhausted";
  _ ← take_slot k (id f) generation;
  mret (MkReservedRelay resource (id f) generation (sl_fence r + 1)).

(** The lock order of the physical resources. *)
Definition lock_order `{Locale} (a b : PlanResource) : bool :=
  js_or (localeCompare (prs_nodeId a) (prs_nodeId b))
    (js_or (localeCompare (protocol_name (prs_physicalProtocol a)) (protocol_name (prs_physicalProtocol b)))
           (prs_port a - prs_port b)) <=? 0.

Definition capacity (policy : Policy) (nodeId : jsstr) : tx unit :=
  count ← query (owned_on nodeId);
  require (count <=? maxAssignmentsPerNode policy) "RESOURCE_LIMIT" "Relay Node capacity exceeded".

Definition reserveRelay `{Locale} (policy : Policy) (f : Forward) (resources : list PlanResource) (generation : Z)
    : tx (list ReservedRelayResource) :=
  _ ← require (is_counter false generation) "RESOURCE_LIMIT" "Relay generation exhausted";
  reserved ← collect_each (reserve_relay_one f generation) (sort_by lock_order resources);
  _ ← for_each (capacity policy) (new_Set (map prs_nodeId resources));
  mret reserved.

(** The body of the loop of [transition]; [held] are the generations of the slots the
    Forward holds. *)
Definition transition_one (current next : Forward) (held : list Z) (p : NetworkProtocol) : tx ReservedSlot :=
  let k := listener_slot (spec next) p in
  r ← lock_slot k;
  _ ← require (match sl_owner_id r with Some o => str_eqb o (id current) | None => true end)
        "PORT_RESERVED" "Listener port is reserved";
  _ ← require (sl_fence r <? MAX_COUNTER) "RESOURCE_LIMIT" "Resource counter exhausted";
  let generation := fold_left Z.max ((sl_deployment_generation r + 1) :: map (fun g => g + 1) held) (revision next) in
  _ ← require (generation <=? MAX_COUNTER) "RESOURCE_LIMIT" "Deployment counter exhausted";
  _ ← take_slot k (id next) generation;
  mret (MkReservedSlot k.1.1 (id next) p k.2 (sl_fence r + 1) generation).

Definition held_by (nodeId owner : jsstr) (k : slot_id) (r : SlotRow) : bool :=
  str_eqb k.1.1 nodeId && bool_decide (sl_owner_id r = Some owner).

Definition transition (current next : Forward) : tx (list ReservedSlot) :=
  held ← select db_port_slots (held_by (ingress_nodeId (spec current)) (id current));
  collect_each (transition_one current next (map (fun kr => sl_deployment_generation kr.2) held)) (sorted_protocols (spec next)).

Definition free (r : SlotRow) : SlotRow := MkSlotRow None (sl_fence r) (sl_deployment_generation r).

Definition releaseForwardSlots (forwardId : jsstr) : tx unit :=
  modify (with_port_slots (update_where (fun _ r => bool_decide (sl_owner_id r = Some forwardId)) (fun _ => free))).

(** The slot is not one of the Forward's current listener. *)
Definition obsolete (f : Forward) (k : slot_id) : bool :=
  negb (str_eqb k.1.1 (ingress_nodeId (spec f))) || negb (k.2 =? listen_port (ingress_listen (spec f))) ||
  negb (includes (protocols (spec f)) k.1.2).

(** The [SELECT] and the loop of updates change exactly the rows that match. *)
Definition releaseObsoleteSlots (f : Forward) : tx unit :=
  slots ← select db_port_slots (fun _ r => bool_decide (sl_owner_id r = Some (id f)));
  for_each (fun kr : slot_id * SlotRow =>
    if obsolete f kr.1 then
      modify (with_port_slots (alter (fun r => if bool_decide (sl_owner_id r = Some (id f)) then free r else r) kr.1))
    else mret tt) slots.

(** ** Slots as a total function: a row that does not exist is a free slot never used *)

Definition slot (d : Db) (k : slot_id) : SlotRow := default (MkSlotRow None 0 0) (db_port_slots d !! k).

Lemma ensure_slot_lookup k m : ensure_slot k m !! k = Some (default (MkSlotRow None 0 0) (m !! k)).
Proof. unfold ensure_slot. destruct (m !! k) eqn:E; cbn; [done|]. by rewrite lookup_insert_eq. Qed.

Lemma ensure_slot_other k j m : j <> k -> ensure_slot k m !! j = m !! j.
Proof. intros Hj. unfold ensure_slot. destruct (m !! k); [done|]. by rewrite lookup_insert_ne. Qed.

Lemma lock_slot_Returns k d r d' : lock_slot k d = Returns (r, d') <-> r = slot d k /\ d' = with_port_slots (ensure_slot k) d.
Proof.
  unfold lock_slot. rewrite tx_bind_Returns. setoid_rewrite modify_Returns. setoid_rewrite tx_bind_Returns.
  setoid_rewrite query_Returns. split.
  - intros (_ & d1 & -> & row & d2 & [-> ->] & Hr). cbn in Hr. rewrite ensure_slot_lookup in Hr. by tx_inv.
  - intros [-> ->]. exists tt. eexists. split; [done|]. eexists _, _. split; [split; reflexivity|]. cbn.
    by rewrite ensure_slot_lookup.
Qed.

(** The slot [k] passes to [o] with the next fence; nothing else changes. *)
Definition acquired (k : slot_id) (o : jsstr) (g : Z) (d d' : Db) : Prop :=
  (forall j, slot d' j = if decide (j = k) then MkSlotRow (Some o) (sl_fence (slot d k) + 1) g else slot d j) /\
  exists m, d' = with_port_slots (fun _ => m) d.

Lemma take_locked k o g d u d' : take_slot k o g (with_port_slots (ensure_slot k) d) = Returns (u, d') -> acquired k o g d d'.
Proof.
  unfold take_slot. intros Hr. tx_inv. split; [|by eexists]. intros j. unfold slot. cbn. case_decide as Hj.
  - subst. by rewrite lookup_alter_eq, ensure_slot_lookup.
  - by rewrite lookup_alter_ne, ensure_slot_other by done.
Qed.

(** One acquisition: the owner and the fence allow it, and the slot is taken. *)
Definition acquires (k : slot_id) (allowed : option jsstr -> Prop) (o : jsstr) (g : Z) (d d' : Db) : Prop :=
  allowed (sl_owner_id (slot d k)) /\ sl_fence (slot d k) < MAX_COUNTER /\ acquired k o g d d'.

Definition free_only (owner : option jsstr) : Prop := owner = None.
Definition free_or (o : jsstr) (owner : option jsstr) : Prop := owner = None \/ owner = Some o.

Lemma owner_test owner o : (match owner with Some x => str_eqb x o | None => true end) = true <-> free_or o owner.
Proof. unfold free_or, str_eqb. destruct owner; [rewrite bool_decide_eq_true|]; naive_solver. Qed.

Lemma reserve_one_ok f p d s d' : reserve_one f p d = Returns (s, d') ->
  let k := listener_slot (spec f) p in
  acquires k free_only (id f) 1 d d' /\
  s = MkReservedSlot (ingress_nodeId (spec f)) (id f) p (listen_port (ingress_listen (spec f))) (sl_fence (slot d k) + 1) 1.
Proof.
  unfold reserve_one. intros Hr. apply tx_bind_Returns in Hr as (r & d1 & [-> ->]%lock_slot_Returns & Hr). tx_inv.
  apply negb_true_iff, bool_decide_eq_false in Hrun. apply Z.ltb_lt in Hrun0. apply take_locked in Hrun1.
  apply eq_None_not_Some in Hrun. by split_and!.
Qed.

Lemma reserve_relay_one_ok f g r d s d' : reserve_relay_one f g r d = Returns (s, d') ->
  acquires (resource_slot r) (free_or (id f)) (id f) g d d' /\
  s = MkReservedRelay r (id f) g (sl_fence (slot d (resource_slot r)) + 1).
Proof.
  unfold reserve_relay_one. intros Hr. apply tx_bind_Returns in Hr as (r' & d1 & [-> ->]%lock_slot_Returns & Hr). tx_inv.
  apply owner_test in Hrun. apply Z.ltb_lt in Hrun0. apply take_locked in Hrun1. by split_and!.
Qed.

Lemma transition_one_ok current next held p d s d' : id next = id current ->
  transition_one current next held p d = Returns (s, d') ->
  let k := listener_slot (spec next) p in
  acquires k (free_or (id next)) (id next) (slot_deploymentGeneration s) d d' /\
  slot_bindingFence s = sl_fence (slot d k) + 1 /\ slot_protocol s = p /\ slot_forwardId s = id next /\
  (slot_nodeId s, slot_port s) = (ingress_nodeId (spec next), listen_port (ingress_listen (spec next))) /\
  revision next <= slot_deploymentGeneration s <= MAX_COUNTER /\
  sl_deployment_generation (slot d k) < slot_deploymentGeneration s /\
  Forall (fun g => g < slot_deploymentGeneration s) held.
Proof.
  intros Hid. unfold transition_one. intros Hr.
  apply tx_bind_Returns in Hr as (r' & d1 & [-> ->]%lock_slot_Returns & Hr). tx_inv.
  apply owner_test in Hrun. apply Z.ltb_lt in Hrun0. apply Z.leb_le in Hrun1. apply take_locked in Hrun2.
  cbn [slot_deploymentGeneration slot_bindingFence slot_protocol slot_forwardId slot_nodeId slot_port].
  set (g := fold_left Z.max _ _) in *.
  assert (Hmax : forall l z, z <= fold_left Z.max l z /\ forall x, x ∈ l -> x <= fold_left Z.max l z).
  { clear. induction l as [|x l IH]; intros z; cbn; [split; [lia|by intros x ?%elem_of_nil]|].
    destruct (IH (Z.max z x)) as [A B]. split; [lia|]. intros y [->|Hy]%elem_of_cons; [lia|by apply B]. }
  destruct (Hmax ((sl_deployment_generation (slot d (listener_slot (spec next) p)) + 1) :: map (fun g => g + 1) held) (revision next)) as [A B].
  fold g in A, B. split_and!; try done; try lia.
  - by rewrite <- Hid in Hrun.
  - assert (sl_deployment_generation (slot d (listener_slot (spec next) p)) + 1 <= g) by (apply B; left). lia.
  - apply Forall_forall. intros x Hx. assert (x + 1 <= g) by (apply B; right; apply list_elem_of_fmap; eauto). lia.
Qed.

(** ** How slots evolve *)

(** Nothing lowers a fence, and at one fence a slot can only be released. *)
Definition slot_le (s s' : SlotRow) : Prop := sl_fence s < sl_fence s' \/ s' = s \/ s' = free s.

#[export] Instance slot_le_preorder : PreOrder slot_le.
Proof.
  split; [by intros s; right; left|]. intros s s' s'' H1 H2. unfold slot_le in *.
  destruct H1 as [H1|[->| ->]], H2 as [H2|[->| ->]]; cbn in *; auto; left; lia.
Qed.

Definition slots_le (d d' : Db) : Prop := forall k, slot_le (slot d k) (slot d' k).

#[export] Instance slots_le_preorder : PreOrder slots_le.
Proof. split; [intros d k; reflexivity|]. intros d d' d'' H1 H2 k. etransitivity; [apply H1|apply H2]. Qed.

Lemma acquires_le k allowed o g d d' : acquires k allowed o g d d' -> slots_le d d'.
Proof.
  intros (_ & _ & [Ha _]) j. rewrite Ha. case_decide as E; [|reflexivity]. subst. left. cbn. lia.
Qed.

Lemma reserve_one_le f p : evolves slots_le (reserve_one f p).
Proof. intros d s d' [H _]%reserve_one_ok. by eapply acquires_le. Qed.

Lemma reserve_relay_one_le f g r : evolves slots_le (reserve_relay_one f g r).
Proof. intros d s d' [H _]%reserve_relay_one_ok. by eapply acquires_le. Qed.

Lemma transition_one_le current next held p : id next = id current -> evolves slots_le (transition_one current next held p).
Proof. intros Hid d s d' [H _]%transition_one_ok; [|done]. by eapply acquires_le. Qed.

#[export] Hint Resolve reserve_one_le reserve_relay_one_le transition_one_le : evolves.

Lemma reserve_le policy f : evolves slots_le (reserve policy f).
Proof. unfold reserve. evolve. Qed.

Lemma reserveRelay_le `{Locale} policy f rs g : evolves slots_le (reserveRelay policy f rs g).
Proof. unfold reserveRelay, capacity. evolve. Qed.

Lemma transition_le current next : id next = id current -> evolves slots_le (transition current next).
Proof. intros Hid. unfold transition. evolve. Qed.

Lemma release_le forwardId : evolves slots_le (releaseForwardSlots forwardId).
Proof.
  apply evolves_modify. intros d k. unfold slot. cbn. rewrite update_where_lookup.
  destruct (_ !! k); [|reflexivity]. cbn. case_bool_decide; [by right; right|reflexivity].
Qed.

Lemma obsolete_le f : evolves slots_le (releaseObsoleteSlots f).
Proof.
  unfold releaseObsoleteSlots. evolve. apply evolves_modify. intros d j. unfold slot. cbn.
  match goal with x : slot_id * SlotRow |- _ => destruct (decide (j = x.1)) as [->|Hj] end.
  - rewrite lookup_alter_eq. destruct (_ !! _); [|reflexivity]. cbn. case_bool_decide; [by right; right|reflexivity].
  - by rewrite lookup_alter_ne by done.
Qed.

(** The transactions that touch slots, and everything else. *)
Inductive slot_step `{Locale} : Db -> Db -> Prop :=
  | st_reserve policy f slots d d' : reserve policy f d = Returns (slots, d') -> slot_step d d'
  | st_relay policy f rs g slots d d' : reserveRelay policy f rs g d = Returns (slots, d') -> slot_step d d'
  | st_transition current next slots d d' : id next = id current -> transition current next d = Returns (slots, d') -> slot_step d d'
  | st_release forwardId u d d' : releaseForwardSlots forwardId d = Returns (u, d') -> slot_step d d'
  | st_obsolete f u d d' : releaseObsoleteSlots f d = Returns (u, d') -> slot_step d d'
  | st_other d d' : db_port_slots d' = db_port_slots d -> slot_step d d'.

Lemma slot_step_le `{Locale} d d' : slot_step d d' -> slots_le d d'.
Proof.
  destruct 1 as [policy f slots d d' Hr|policy f rs g slots d d' Hr|current next slots d d' Hid Hr|f u d d' Hr|f u d d' Hr|d d' E].
  - by eapply reserve_le.
  - by eapply reserveRelay_le.
  - by eapply (transition_le current next Hid).
  - by eapply release_le.
  - by eapply obsolete_le.
  - intros k. unfold slot. by rewrite E.
Qed.

Lemma run_le `{Locale} d d' : rtc slot_step d d' -> slots_le d d'.
Proof. induction 1 as [d|d d1 d2 Hs _ IH]; [reflexivity|]. etransitivity; [by eapply slot_step_le|done]. Qed.

(** Later acquisitions of a loop do not touch what earlier ones of other slots took. *)
Lemma reserve_loop f ps d slots d' : NoDup ps -> collect_each (reserve_one f) ps d = Returns (slots, d') ->
  map slot_protocol slots = ps /\
  Forall (fun s => (slot_nodeId s, slot_port s, slot_forwardId s) = (ingress_nodeId (spec f), listen_port (ingress_listen (spec f)), id f) /\
    let k := listener_slot (spec f) (slot_protocol s) in
    sl_owner_id (slot d k) = None /\ slot_bindingFence s = sl_fence (slot d k) + 1 /\ slot_bindingFence s <= MAX_COUNTER /\
    slot_deploymentGeneration s = 1 /\ slot d' k = MkSlotRow (Some (id f)) (slot_bindingFence s) 1) slots /\
  (forall k, (forall p, p ∈ ps -> k <> listener_slot (spec f) p) -> slot d' k = slot d k).
Proof.
  revert d slots. induction ps as [|p ps IH]; intros d slots HN Hr; cbn in Hr.
  - tx_inv. split_and!; [done|constructor|done].
  - apply NoDup_cons in HN as [Hp HN]. tx_inv. apply reserve_one_ok in Hrun as [(Hfree & Hmax & Hacq & _) ->].
    apply IH in Hrun0 as (Hps & HF & Hsame); [|done]. clear IH. split_and!.
    + cbn. by f_equal.
    + constructor; cbn [slot_protocol slot_nodeId slot_port slot_forwardId slot_bindingFence slot_deploymentGeneration].
      * split_and!; try done; [lia|]. rewrite Hsame; [|intros q Hq [= E]; subst; done]. rewrite Hacq. by rewrite decide_True.
      * rewrite Forall_forall in HF |- *. intros s Hs. specialize (HF s Hs). cbn zeta in HF |- *.
        assert (Hne : listener_slot (spec f) (slot_protocol s) <> listener_slot (spec f) p).
        { intros [= E]. apply Hp. rewrite <- E, <- Hps. by apply list_elem_of_fmap_2. }
        rewrite Hacq, decide_False in HF by done. done.
    + intros k Hk. rewrite Hsame; [|intros q Hq; apply Hk; by right]. rewrite Hacq, decide_False; [done|]. apply Hk. left.
Qed.

Lemma sorted_protocols_NoDup f : forward_wf f -> NoDup (sorted_protocols (spec f)).
Proof.
  intros Hf. unfold sorted_protocols. rewrite sort_by_perm. destruct (wf_protocols _ (wf_spec _ Hf)) as [->|[->| ->]].
  - apply NoDup_singleton.
  - apply NoDup_singleton.
  - apply NoDup_cons. split; [|apply NoDup_singleton]. intros E%list_elem_of_singleton. done.
Qed.

(** Exactly the Forward's listener slots are taken, each from free, each with the next
    fence, and nothing else changes. *)
Record reserved_ok (policy : Policy) (f : Forward) (d : Db) (slots : list ReservedSlot) (d' : Db) : Prop := {
  rs_protocols : map slot_protocol slots = sorted_protocols (spec f);
  rs_slots : Forall (fun s =>
    (slot_nodeId s, slot_port s, slot_forwardId s) = (ingress_nodeId (spec f), listen_port (ingress_listen (spec f)), id f) /\
    let k := listener_slot (spec f) (slot_protocol s) in
    sl_owner_id (slot d k) = None /\ slot_bindingFence s = sl_fence (slot d k) + 1 /\ slot_bindingFence s <= MAX_COUNTER /\
    slot_deploymentGeneration s = 1 /\ slot d' k = MkSlotRow (Some (id f)) (slot_bindingFence s) 1) slots;
  rs_others : forall k, (forall p, p ∈ protocols (spec f) -> k <> listener_slot (spec f) p) -> slot d' k = slot d k;
  rs_capacity : owned_on (ingress_nodeId (spec f)) d' <= maxAssignmentsPerNode policy;
}.

Lemma reserve_reserved policy f d slots d' : forward_wf f -> reserve policy f d = Returns (slots, d') ->
  reserved_ok policy f d slots d'.
Proof.
  intros Hf Hr. unfold reserve in Hr. tx_inv. apply Z.leb_le in Hrun1. 
  apply reserve_loop in Hrun as (Hps & HF & Hsame); [|by apply sorted_protocols_NoDup].
  split; try done. intros k Hk. apply Hsame. intros p Hp. apply Hk. revert Hp. unfold sorted_protocols. by rewrite sort_by_perm.
Qed.


Definition example_locale : Locale := fun a b => cmp_str a b.

Lemma reserve_returns : exists slots d1, reserve DEFAULT_POLICY direct_forward empty_db = Returns (slots, d1).
Proof. eexists _, _. vm_compute. reflexivity. Qed.

