(* ===== verification/Operations.v ===== *)
(** Operations of the Runtime ledger (apps/control/src/modules/runtime/ledger.ts): the
    asynchronous work that brings a Forward to an accepted revision. *)

From S2P Require Import Prelude.
From S2P Require Import JsString.
From S2P Require Import Primitives.
From S2P Require Import Json.
From S2P Require Import Forward.
From S2P Require Import Types.
From S2P Require Import Adp3.
From S2P Require Import Store.
From S2P Require Import Idempotency.

Local Open Scope Z_scope.

(** ** Queries *)

Abbreviation op_row := (jsstr * Operation)%type.

(** [ORDER BY created_at,id] *)
Definition older (a b : op_row) : bool :=
  (op_created_at a.2 <? op_created_at b.2) || (op_created_at a.2 =? op_created_at b.2) && str_leb a.1 b.1.

(** [ORDER BY target_revision DESC,created_at DESC,id DESC] *)
Definition newer (a b : op_row) : bool :=
  (op_target_revision b.2 <? op_target_revision a.2) ||
  (op_target_revision a.2 =? op_target_revision b.2) && older b a.

Definition latest (forwardId : jsstr) : tx (option op_row) :=
  ops ← select db_operations (fun _ o => str_eqb (op_forward_id o) forwardId);
  mret (head (sort_by newer ops)).

(** [get] and [read] run the same query; [get] also locks the row. *)
Definition get_operation (scope oid : jsstr) : tx Operation :=
  row ← query (fun d => db_operations d !! oid);
  match row with
  | Some o => _ ← require (str_eqb (op_scope_id o) scope) "NOT_FOUND" "Resource not found"; mret o
  | None => throw "NOT_FOUND" "Resource not found"
  end.

(** [status IN ('accepted','running')] *)
Definition is_active (s : OperationStatus) : bool :=
  match s with s_accepted | s_running => true | _ => false end.

Definition error_of (c : string) : json := JObj [(js "code", JStr (js c)); (js "retryable", JBool false)].

(** ** Updates of a row *)

Definition set_failed (error : json) (now : Z) (o : Operation) : Operation :=
  MkOperation (op_scope_id o) (op_forward_id o) (op_target_revision o) (op_kind o) s_failed (op_execution_deadline o)
    (op_claim_token o) (op_claim_until o) true (Some error) (op_source_operation_id o) (op_previous_spec o) (op_created_at o) now
    (op_requested_by o) (op_idempotency_key o) (op_request_digest o) (op_attempt_count o) (op_superseded_by o) (op_recovery_invalidated o).

(** [claim_token=NULL,claim_until=NULL] *)
Definition unclaim (o : Operation) : Operation :=
  MkOperation (op_scope_id o) (op_forward_id o) (op_target_revision o) (op_kind o) (op_status o) (op_execution_deadline o)
    None None (op_cleanup_pending o) (op_last_error o) (op_source_operation_id o) (op_previous_spec o) (op_created_at o) (op_updated_at o)
    (op_requested_by o) (op_idempotency_key o) (op_request_digest o) (op_attempt_count o) (op_superseded_by o) (op_recovery_invalidated o).

Definition set_superseded (by_ : jsstr) (now : Z) (o : Operation) : Operation :=
  MkOperation (op_scope_id o) (op_forward_id o) (op_target_revision o) (op_kind o) s_superseded (op_execution_deadline o)
    None None (op_cleanup_pending o) (op_last_error o) (op_source_operation_id o) (op_previous_spec o) (op_created_at o) now
    (op_requested_by o) (op_idempotency_key o) (op_request_digest o) (op_attempt_count o) (Some by_) (op_recovery_invalidated o).

(** [status='running',claim_token=?,claim_until=?] *)
Definition set_lease (token : jsstr) (now : Z) (o : Operation) : Operation :=
  MkOperation (op_scope_id o) (op_forward_id o) (op_target_revision o) (op_kind o) s_running (op_execution_deadline o)
    (Some token) (Some (now + 15000)) (op_cleanup_pending o) (op_last_error o) (op_source_operation_id o) (op_previous_spec o)
    (op_created_at o) (op_updated_at o) (op_requested_by o) (op_idempotency_key o) (op_request_digest o) (op_attempt_count o)
    (op_superseded_by o) (op_recovery_invalidated o).

(** [attempt_count=attempt_count+1,updated_at=?] as well *)
Definition set_claimed (token : jsstr) (now : Z) (o : Operation) : Operation :=
  MkOperation (op_scope_id o) (op_forward_id o) (op_target_revision o) (op_kind o) s_running (op_execution_deadline o)
    (Some token) (Some (now + 15000)) (op_cleanup_pending o) (op_last_error o) (op_source_operation_id o) (op_previous_spec o)
    (op_created_at o) now (op_requested_by o) (op_idempotency_key o) (op_request_digest o) (op_attempt_count o + 1)
    (op_superseded_by o) (op_recovery_invalidated o).

Definition set_invalidated (o : Operation) : Operation :=
  MkOperation (op_scope_id o) (op_forward_id o) (op_target_revision o) (op_kind o) (op_status o) (op_execution_deadline o)
    None None (op_cleanup_pending o) (op_last_error o) (op_source_operation_id o) (op_previous_spec o) (op_created_at o) (op_updated_at o)
    (op_requested_by o) (op_idempotency_key o) (op_request_digest o) (op_attempt_count o) (op_superseded_by o) true.

Definition set_cleanup (pending : bool) (o : Operation) : Operation :=
  MkOperation (op_scope_id o) (op_forward_id o) (op_target_revision o) (op_kind o) (op_status o) (op_execution_deadline o)
    (op_claim_token o) (op_claim_until o) pending (op_last_error o) (op_source_operation_id o) (op_previous_spec o) (op_created_at o)
    (op_updated_at o) (op_requested_by o) (op_idempotency_key o) (op_request_digest o) (op_attempt_count o) (op_superseded_by o)
    (op_recovery_invalidated o).

(** [status=IF(status='running','succeeded',status),cleanup_pending=FALSE,updated_at=?] *)
Definition set_finished (now : Z) (o : Operation) : Operation :=
  MkOperation (op_scope_id o) (op_forward_id o) (op_target_revision o) (op_kind o)
    (match op_status o with s_running => s_succeeded | s => s end) (op_execution_deadline o)
    (op_claim_token o) (op_claim_until o) false (op_last_error o) (op_source_operation_id o) (op_previous_spec o) (op_created_at o)
    now (op_requested_by o) (op_idempotency_key o) (op_request_digest o) (op_attempt_count o) (op_superseded_by o)
    (op_recovery_invalidated o).

(** [cleanup_pending=FALSE,updated_at=?] *)
Definition set_cleaned (now : Z) (o : Operation) : Operation :=
  MkOperation (op_scope_id o) (op_forward_id o) (op_target_revision o) (op_kind o) (op_status o) (op_execution_deadline o)
    (op_claim_token o) (op_claim_until o) false (op_last_error o) (op_source_operation_id o) (op_previous_spec o) (op_created_at o)
    now (op_requested_by o) (op_idempotency_key o) (op_request_digest o) (op_attempt_count o) (op_superseded_by o)
    (op_recovery_invalidated o).

Definition update_operations (where_ : jsstr -> Operation -> bool) (change : Operation -> Operation) : tx unit :=
  modify (with_operations (update_where where_ (fun _ => change))).

(** ** Commands *)

Definition denyIntent (now : Z) (operationId : jsstr) : tx unit :=
  update_operations (fun i o => str_eqb i operationId && bool_decide (op_status o = s_accepted))
    (set_failed (error_of "AUTHORIZATION_DENIED") now).

Definition reassign (forwardId operationId : jsstr) (m : gmap instance_id Retirement) : gmap instance_id Retirement :=
  update_where (fun _ r => str_eqb (rt_forward_id r) forwardId && negb (rt_safe r))
    (fun _ r => MkRetirement (rt_forward_id r) operationId (rt_body r) (rt_removed_epoch r) (rt_retirement_generation r) (rt_safe r)) m.

(** [clock] is [Date.now()] and [operationId] the fresh [randomUUID()]. *)
Definition accept (clock : Z) (operationId : jsstr) (f : Forward) (request : RequestIdentity) (kind : OperationKind)
    (previousSpec : option json) (sourceOperationId : option jsstr) : tx jsstr :=
  prior ← latest (id f);
  let now := Z.max clock (match prior with Some o => op_created_at o.2 | None => 0 end + 1) in
  _ ← insert_row db_operations with_operations operationId
        (MkOperation (scopeId f) (id f) (revision f) kind s_accepted (now + 600000) None None false None sourceOperationId
           previousSpec now now (rq_actorId request) (rq_key request) (rq_digest request) 0 None false);
  _ ← update_operations (fun i o => str_eqb (op_forward_id o) (id f) && negb (str_eqb i operationId) && is_active (op_status o))
        (set_superseded operationId now);
  _ ← modify (with_retirements (reassign (id f) operationId));
  mret operationId.

Definition overdue (now : Z) (o : Operation) : bool :=
  negb (op_recovery_invalidated o) && is_active (op_status o) && (op_execution_deadline o <=? now).

Definition claimable (now : Z) (o : Operation) : bool :=
  negb (op_recovery_invalidated o) && is_active (op_status o) &&
  match op_claim_until o with None => true | Some until => until <=? now end && (now <? op_execution_deadline o).

(** [locked] are the rows that other transactions hold: [SKIP LOCKED]. *)
Definition claim_operation (locked : gset jsstr) (now : Z) (token : jsstr) : tx (option op_row) :=
  _ ← update_operations (fun _ o => overdue now o) (fun o => unclaim (set_failed (error_of "EXECUTION_DEADLINE") now o));
  ops ← select db_operations (fun i o => claimable now o && bool_decide (i ∉ locked));
  match head (sort_by older ops) with
  | None => mret None
  | Some (oid, o) =>
      _ ← update_operations (fun i _ => str_eqb i oid) (set_claimed token now);
      mret (Some (oid, set_lease token now o))
  end.

(** The body of the loop of [verifyPublishable]. *)
Definition publishable (now : Z) (a : RuntimeAssignment) : tx unit :=
  ops ← select db_operations (fun _ o => str_eqb (op_forward_id o) (rua_forwardId a) && (op_target_revision o =? rua_forwardRevision a));
  require (match head (sort_by (fun x y => older y x) ops) with
           | Some (_, o) => negb (op_recovery_invalidated o) &&
               (bool_decide (op_status o = s_succeeded) || bool_decide (op_status o = s_running) && (now <? op_execution_deadline o))
           | None => false
           end) "STALE_CLAIM" "Operation expired during compilation".

Definition verifyPublishable (now : Z) (assignments : list RuntimeAssignment) : tx unit := for_each (publishable now) assignments.

Definition initializeNode (nodeId : jsstr) : tx unit :=
  insert_row db_runtime_nodes with_runtime_nodes nodeId (MkRuntimeNode 0 None 0 0 None None).

Definition lockNode (nodeId : jsstr) (epoch : option Z) : tx unit :=
  state ← query (fun d => db_runtime_nodes d !! nodeId);
  require (match state, epoch with
           | None, _ => false
           | Some _, None => true
           | Some r, Some e => is_counter false e && (rn_session_epoch r =? e)
           end) "SESSION_SUPERSEDED" "Current Node session required".

(** ** How Operations evolve *)

(** An Operation is claimed any number of times and ends once. *)
Definition status_le (s s' : OperationStatus) : Prop :=
  s = s' \/ s = s_accepted \/ (s = s_running /\ s' <> s_accepted).

(** What identifies the work never changes; the status only advances. *)
Record op_le (o o' : Operation) : Prop := {
  le_scope : op_scope_id o' = op_scope_id o;
  le_forward : op_forward_id o' = op_forward_id o;
  le_revision : op_target_revision o' = op_target_revision o;
  le_kind : op_kind o' = op_kind o;
  le_deadline : op_execution_deadline o' = op_execution_deadline o;
  le_created : op_created_at o' = op_created_at o;
  le_actor : op_requested_by o' = op_requested_by o;
  le_status : status_le (op_status o) (op_status o');
  le_invalidated : op_recovery_invalidated o = true -> op_recovery_invalidated o' = true;
}.

#[export] Instance op_le_preorder : PreOrder op_le.
Proof.
  split.
  - intros o. split; try done. by left.
  - intros o o' o'' [] []. split; try congruence; [|by auto]. unfold status_le in *. intuition congruence.
Qed.

Lemma status_le_active s s' : status_le s s' -> is_active s' = true -> is_active s = true.
Proof. unfold status_le. destruct s, s'; cbn; intuition congruence. Qed.

(** No row is lost, and every row advances. *)
Definition ops_le (d d' : Db) : Prop :=
  forall i o, db_operations d !! i = Some o -> exists o', db_operations d' !! i = Some o' /\ op_le o o'.

#[export] Instance ops_le_preorder : PreOrder ops_le.
Proof.
  split; [intros d i o Ho; exists o; split; [done|reflexivity]|].
  intros d d1 d2 H1 H2 i o (o1 & Ho1 & L1)%H1. apply H2 in Ho1 as (o2 & Ho2 & L2). exists o2. split; [done|]. by etransitivity.
Qed.

(** At most one Operation of a Forward is accepted or running. *)
Definition one_active (d : Db) : Prop :=
  forall i j o p, db_operations d !! i = Some o -> db_operations d !! j = Some p ->
    op_forward_id o = op_forward_id p -> is_active (op_status o) = true -> is_active (op_status p) = true -> i = j.

(** The statements that rewrite rows without adding any. *)
Definition ops_step (d d' : Db) : Prop :=
  ops_le d d' /\ forall i o', db_operations d' !! i = Some o' -> is_Some (db_operations d !! i).

#[export] Instance ops_step_preorder : PreOrder ops_step.
Proof.
  split; [intros d; split; [reflexivity|by eauto]|].
  intros d d1 d2 [L1 B1] [L2 B2]. split; [by etransitivity|]. intros i o' [o Ho]%B2. by apply B1 in Ho.
Qed.

Lemma ops_step_same d d' : db_operations d' = db_operations d -> ops_step d d'.
Proof. intros E. split; intros i o; rewrite E; [|by eauto]. intros Ho. exists o. split; [done|reflexivity]. Qed.

Lemma ops_step_active d d' : ops_step d d' -> one_active d -> one_active d'.
Proof.
  intros [L B] H1 i j o' p' Ho Hp Hf Ao Ap.
  destruct (B _ _ Ho) as [o Ho0], (B _ _ Hp) as [p Hp0].
  destruct (L _ _ Ho0) as (o1 & E1 & [? F1 ? ? ? ? ? S1 ?]), (L _ _ Hp0) as (p1 & E2 & [? F2 ? ? ? ? ? S2 ?]). simplify_eq.
  apply (H1 i j o p); try done; [congruence|by eapply status_le_active..].
Qed.

Lemma update_operations_step where_ change :
  (forall i o, where_ i o = true -> op_le o (change o)) -> evolves ops_step (update_operations where_ change).
Proof.
  intros Hc. apply evolves_modify. intros d. split.
  - intros i o Ho. cbn. rewrite update_where_lookup, Ho. cbn. eexists. split; [done|].
    destruct (where_ i o) eqn:E; [by eapply Hc|reflexivity].
  - intros i o'. cbn. rewrite update_where_lookup. destruct (db_operations d !! i); by eauto.
Qed.

Lemma status_le_active_l s s' : is_active s = true -> s' <> s_accepted -> status_le s s'.
Proof. unfold status_le. destruct s; naive_solver. Qed.

Lemma set_failed_le error now o : is_active (op_status o) = true -> op_le o (set_failed error now o).
Proof. intros Ha. split; try done. by apply status_le_active_l. Qed.

Lemma set_superseded_le by_ now o : is_active (op_status o) = true -> op_le o (set_superseded by_ now o).
Proof. intros Ha. split; try done. by apply status_le_active_l. Qed.

Lemma set_claimed_le token now o : is_active (op_status o) = true -> op_le o (set_claimed token now o).
Proof. intros Ha. split; try done. by apply status_le_active_l. Qed.

Lemma set_finished_le now o : op_le o (set_finished now o).
Proof. split; try done. unfold status_le. cbn. destruct (op_status o); naive_solver. Qed.

Lemma keeps_status_le (f : Operation -> Operation) o :
  (forall o, (op_scope_id (f o), op_forward_id (f o), op_target_revision (f o), op_kind (f o), op_execution_deadline (f o), op_created_at (f o), op_requested_by (f o), op_status (f o)) =
     (op_scope_id o, op_forward_id o, op_target_revision o, op_kind o, op_execution_deadline o, op_created_at o, op_requested_by o, op_status o)) ->
  (op_recovery_invalidated o = true -> op_recovery_invalidated (f o) = true) -> op_le o (f o).
Proof. intros Hf Hi. specialize (Hf o). simplify_eq. split; try done. by left. Qed.

Lemma denyIntent_step now i : evolves ops_step (denyIntent now i).
Proof.
  apply update_operations_step. intros j o H. apply set_failed_le. propify. by destruct (op_status o).
Qed.

(** ** Claims *)

Definition eligible (locked : gset jsstr) (now : Z) (d : Db) : gmap jsstr Operation :=
  filter (fun io => claimable now io.2 = true /\ io.1 ∉ locked) (db_operations d).

Lemma eligible_Some locked now d i o :
  eligible locked now d !! i = Some o <-> db_operations d !! i = Some o /\ claimable now o = true /\ i ∉ locked.
Proof. unfold eligible. rewrite map_lookup_filter_Some. done. Qed.

(** The rows after the overdue ones have failed. *)
Definition expired (now : Z) (d : Db) : Db :=
  with_operations (update_where (fun _ o => overdue now o) (fun _ o => unclaim (set_failed (error_of "EXECUTION_DEADLINE") now o))) d.

Lemma expired_lookup now d i : db_operations (expired now d) !! i =
  (fun o => if overdue now o then unclaim (set_failed (error_of "EXECUTION_DEADLINE") now o) else o) <$> db_operations d !! i.
Proof. cbn. by rewrite update_where_lookup. Qed.

Lemma claimable_not_overdue now o : claimable now o = true -> overdue now o = false.
Proof. unfold claimable, overdue. intros H. propify. rewrite (proj2 (Z.leb_gt _ _)) by done. by rewrite andb_false_r. Qed.

Lemma eligible_expired locked now d : eligible locked now (expired now d) = eligible locked now d.
Proof.
  apply map_eq. intros i. apply option_eq. intros o. rewrite !eligible_Some, expired_lookup.
  split; intros (Ho & Hc & Hl); split_and!; try done.
  - destruct (db_operations d !! i) as [p|]; [|done]. cbn in Ho. injection Ho as <-. destruct (overdue now p) eqn:E; [|done].
    unfold claimable in Hc. cbn in Hc. by rewrite andb_false_r in Hc.
  - rewrite Ho. cbn. by rewrite (claimable_not_overdue now o Hc).
Qed.

Lemma older_total a b : older a b = false -> older b a = true.
Proof.
  unfold older. intros H. apply orb_false_elim in H as [H1%Z.ltb_ge H2].
  destruct (Z.eq_dec (op_created_at a.2) (op_created_at b.2)) as [E|E].
  - rewrite E, Z.eqb_refl in *. cbn in *. unfold str_leb in *. apply negb_false_iff in H2. rewrite (str_ltb_asym _ _ H2). by rewrite orb_true_r.
  - apply orb_true_intro. left. apply Z.ltb_lt. lia.
Qed.

Lemma older_iff a b : older a b = true <->
  op_created_at a.2 < op_created_at b.2 \/ op_created_at a.2 = op_created_at b.2 /\ str_leb a.1 b.1 = true.
Proof. unfold older. rewrite orb_true_iff, andb_true_iff, Z.ltb_lt, Z.eqb_eq. done. Qed.

Lemma str_leb_trans a b c : str_leb a b = true -> str_leb b c = true -> str_leb a c = true.
Proof.
  unfold str_leb. rewrite !negb_true_iff. intros H1 H2. destruct (str_ltb c a) eqn:E; [|done].
  destruct (str_ltb b c) eqn:E2.
  - by rewrite (str_ltb_trans b c a) in H1.
  - assert (b = c) as -> by by apply str_ltb_total. congruence.
Qed.

Lemma str_leb_antisym a b : str_leb a b = true -> str_leb b a = true -> a = b.
Proof. unfold str_leb. rewrite !negb_true_iff. intros. by apply str_ltb_total. Qed.

Lemma older_trans a b c : older a b = true -> older b c = true -> older a c = true.
Proof.
  rewrite !older_iff. intros [H1|[H1 H1']] [H2|[H2 H2']]; [left; lia..|]. right. split; [lia|]. by eapply str_leb_trans.
Qed.

(** The oldest eligible row. *)
Definition oldest (m : gmap jsstr Operation) (i : jsstr) (o : Operation) : Prop :=
  m !! i = Some o /\ forall j p, m !! j = Some p -> j <> i -> older (i, o) (j, p) = true.

Lemma claim_operation_Returns locked now token d r d' : claim_operation locked now token d = Returns (r, d') ->
  match r with
  | None => eligible locked now d = ∅ /\ d' = expired now d
  | Some (i, row) => exists o, oldest (eligible locked now d) i o /\ row = set_lease token now o /\
      d' = with_operations (insert i (set_claimed token now o)) (expired now d)
  end.
Proof.
  unfold claim_operation. intros Hr. tx_inv.
  unfold update_operations in Hrun. tx_inv. fold (expired now d) in Hrun0.
  apply select_Returns in Hrun0 as [-> Hops].
  assert (Hel : forall i o, (i, o) ∈ a0 <-> eligible locked now d !! i = Some o).
  { intros i o. rewrite Hops, andb_true_iff, bool_decide_eq_true, <- (eligible_expired locked now d), eligible_Some. done. }
  destruct (head (sort_by older a0)) as [[i o]|] eqn:E.
  - apply sort_by_head in E as [Hin Hmin]; [|apply older_total|apply older_trans]. tx_inv.
    unfold update_operations in Hrun. tx_inv. apply Hel in Hin. exists o. split_and!; [|done|].
    + split; [done|]. intros j p Hj Hne. apply Hmin; [by apply Hel|congruence].
    + unfold with_operations. cbn. f_equal. apply map_eq. intros j. rewrite update_where_lookup. unfold str_eqb.
      case_bool_decide as Ej; [subst j|by rewrite lookup_insert_ne; [destruct (_ !! j)|]].
      rewrite lookup_insert_eq. rewrite <- (eligible_expired locked now d) in Hin. apply eligible_Some in Hin as (Hin & _).
      cbn in Hin. by rewrite Hin.
  - tx_inv. apply sort_by_head_None in E as ->. split; [|done]. apply map_empty. intros i.
    destruct (eligible locked now d !! i) as [o|] eqn:Eo; [|done]. apply Hel in Eo. by apply elem_of_nil in Eo.
Qed.

Lemma claim_operation_runs locked now token d : exists r d', claim_operation locked now token d = Returns (r, d').
Proof.
  unfold claim_operation, mbind, tx_bind, update_operations, modify, select, query.
  destruct (head (sort_by older _)) as [[i o]|]; by eexists _, _.
Qed.

Lemma claimed_not_claimable token now o : claimable now (set_claimed token now o) = false.
Proof. unfold claimable. cbn. rewrite (proj2 (Z.leb_gt _ _)) by lia. by rewrite andb_false_r. Qed.

Lemma eligible_claimed locked now token d i o :
  eligible locked now (with_operations (insert i (set_claimed token now o)) (expired now d)) = delete i (eligible locked now d).
Proof.
  apply map_eq. intros j. apply option_eq. intros p. rewrite eligible_Some, lookup_delete_Some. cbn.
  rewrite <- (eligible_expired locked now d), eligible_Some. cbn. destruct (decide (j = i)) as [->|Hj].
  - rewrite lookup_insert_eq. split; [|by intros []]. intros ([= <-] & Hc & _). by rewrite claimed_not_claimable in Hc.
  - rewrite lookup_insert_ne by done. split; [|by intros []]. intros H. by split; [congruence|].
Qed.

(** A row that is neither overdue nor eligible is left alone. *)
Lemma claim_operation_keeps locked now token d r d' i o : claim_operation locked now token d = Returns (r, d') ->
  db_operations d !! i = Some o -> overdue now o = false -> claimable now o = false -> db_operations d' !! i = Some o.
Proof.
  intros Hr Ho Hov Hc. assert (He : db_operations (expired now d) !! i = Some o) by (rewrite expired_lookup, Ho; cbn; by rewrite Hov).
  apply claim_operation_Returns in Hr. destruct r as [[j row]|].
  - destruct Hr as (p & [Hp _] & _ & ->). cbn. rewrite lookup_insert_ne; [done|].
    intros ->. apply eligible_Some in Hp as (Hp & Hp1 & _). rewrite Ho in Hp. injection Hp as <-. congruence.
  - by destruct Hr as [_ ->].
Qed.

Lemma claims_keep locked now tokens d rs d' i o : collect_each (claim_operation locked now) tokens d = Returns (rs, d') ->
  db_operations d !! i = Some o -> overdue now o = false -> claimable now o = false -> db_operations d' !! i = Some o.
Proof.
  revert d rs. induction tokens as [|t ts IH]; cbn; intros d rs Hr Ho Hov Hc; tx_inv; [done|].
  eapply IH; [done| |done..]. by eapply claim_operation_keeps.
Qed.

Lemma sorted_oldest (m : gmap jsstr Operation) i o : oldest m i o ->
  sort_by older (map_to_list m) = (i, o) :: sort_by older (map_to_list (delete i m)).
Proof.
  intros [Hi Hmin]. apply (StronglySorted_unique_strong (fun a b => older a b = true)).
  - intros [j p] [k q] Hj Hk H1 H2. rewrite older_iff in H1, H2. cbn in *.
    assert (j = k) as -> by (apply str_leb_antisym; intuition lia).
    assert (Hq : (k, q) ∈ map_to_list m).
    { rewrite <- (map_to_list_delete m i o Hi). by rewrite sort_by_perm in Hk. }
    rewrite sort_by_perm in Hj. rewrite elem_of_map_to_list in Hj, Hq. by simplify_eq.
  - apply Sorted_StronglySorted; [intros a b c; apply older_trans|]. apply sort_by_sorted, older_total.
  - constructor; [apply Sorted_StronglySorted; [intros a b c; apply older_trans|]; apply sort_by_sorted, older_total|].
    apply Forall_forall. intros [j p]. rewrite sort_by_perm, elem_of_map_to_list, lookup_delete_Some. intros [Hne Hp]. by apply Hmin.
  - by rewrite !sort_by_perm, map_to_list_delete.
Qed.

(** C26. Work is claimed first come, first served, and none is left behind.  As many
    consecutive claims as there are eligible Operations (accepted or running, not
    invalidated, not leased to another worker, before their deadline, not locked)
    return them all, in the order of their creation; each is then running under a
    lease of the worker that got it, and no eligible Operation remains. *)
Theorem claims_fifo (locked : gset jsstr) (now : Z) (tokens : list jsstr) (d : Db) :
  (size (eligible locked now d) <= length tokens)%nat ->
  exists rs d', collect_each (claim_operation locked now) tokens d = Returns (rs, d') /\
    map fst (omap (fun r => r) rs) = map fst (sort_by older (map_to_list (eligible locked now d))) /\
    eligible locked now d' = ∅ /\
    forall i o, eligible locked now d !! i = Some o ->
      exists token, token ∈ tokens /\ db_operations d' !! i = Some (set_claimed token now o).
Proof.
  revert d. induction tokens as [|t ts IH]; intros d Hsize.
  - assert (He : eligible locked now d = ∅) by (apply map_size_empty_iff; cbn in Hsize; lia).
    exists [], d. rewrite He, map_to_list_empty. split_and!; [done..|]. intros i o. by rewrite lookup_empty.
  - destruct (claim_operation_runs locked now t d) as (r & d1 & Hr). pose proof (claim_operation_Returns _ _ _ _ _ _ Hr) as Hspec.
    destruct r as [[i row]|].
    + destruct Hspec as (o & Hold & -> & Hd1). pose proof Hold as [Hi _].
      assert (He : eligible locked now d1 = delete i (eligible locked now d)) by (rewrite Hd1; apply eligible_claimed).
      destruct (IH d1) as (rs & d' & Hrun & Hseq & Hnone & Hall).
      { rewrite He, map_size_delete_Some by eauto. cbn in Hsize. lia. }
      exists (Some (i, set_lease t now o) :: rs), d'. split_and!; try done.
      * cbn. apply tx_bind_Returns. eexists _, _. split; [exact Hr|]. apply tx_bind_Returns. eexists _, _. split; [exact Hrun|]. done.
      * rewrite (sorted_oldest _ i o Hold). cbn. by rewrite Hseq, He.
      * intros j p Hj. destruct (decide (j = i)) as [->|Hji].
        -- exists t. split; [left|]. assert (p = o) as -> by congruence. eapply claims_keep; [exact Hrun|by rewrite Hd1; cbn; rewrite lookup_insert_eq| |apply claimed_not_claimable].
           apply eligible_Some in Hi as (_ & Hc & _). unfold claimable in Hc. propify. unfold overdue. cbn.
           rewrite (proj2 (Z.leb_gt _ _)) by done. by rewrite andb_false_r.
        -- destruct (Hall j p) as (token & Hin & Hl); [by rewrite He, lookup_delete_ne|]. exists token. split; [by right|done].
    + destruct Hspec as [He Hd1]. assert (He1 : eligible locked now d1 = ∅) by (by rewrite Hd1, eligible_expired).
      destruct (IH d1) as (rs & d' & Hrun & Hseq & Hnone & Hall).
      { rewrite He1, map_size_empty. lia. }
      exists (None :: rs), d'. split_and!; try done.
      * cbn. apply tx_bind_Returns. eexists _, _. split; [exact Hr|]. apply tx_bind_Returns. eexists _, _. split; [exact Hrun|]. done.
      * cbn. by rewrite Hseq, He1, He.
      * intros j p. by rewrite He, lookup_empty.
Qed.

(** ** Acceptance *)

Lemma newer_total a b : newer a b = false -> newer b a = true.
Proof.
  unfold newer. intros H. apply orb_false_elim in H as [H1%Z.ltb_ge H2].
  destruct (Z.eq_dec (op_target_revision a.2) (op_target_revision b.2)) as [E|E].
  - rewrite E, Z.eqb_refl in *. cbn in *. rewrite (older_total _ _ H2). by rewrite orb_true_r.
  - apply orb_true_intro. left. apply Z.ltb_lt. lia.
Qed.

Lemma newer_iff a b : newer a b = true <->
  op_target_revision b.2 < op_target_revision a.2 \/ op_target_revision a.2 = op_target_revision b.2 /\ older b a = true.
Proof. unfold newer. rewrite orb_true_iff, andb_true_iff, Z.ltb_lt, Z.eqb_eq. done. Qed.

Lemma newer_trans a b c : newer a b = true -> newer b c = true -> newer a c = true.
Proof.
  rewrite !newer_iff. intros [H1|[H1 H1']] [H2|[H2 H2']]; [left; lia..|]. right. split; [lia|]. by eapply older_trans.
Qed.

(** The newest row of a Forward. *)
Definition newest (d : Db) (f : jsstr) (i : jsstr) (o : Operation) : Prop :=
  db_operations d !! i = Some o /\ op_forward_id o = f /\
  forall j p, db_operations d !! j = Some p -> op_forward_id p = f -> j <> i -> newer (i, o) (j, p) = true.

Lemma latest_Returns f d r d' : latest f d = Returns (r, d') ->
  d' = d /\ match r with
            | Some (i, o) => newest d f i o
            | None => forall i o, db_operations d !! i = Some o -> op_forward_id o <> f
            end.
Proof.
  unfold latest. intros Hr. tx_inv. apply select_Returns in Hrun as [-> Hops]. split; [done|].
  setoid_rewrite bool_decide_eq_true in Hops. destruct (head (sort_by newer a)) as [[i o]|] eqn:E.
  - apply sort_by_head in E as [Hin Hmin]; [|apply newer_total|apply newer_trans]. apply Hops in Hin as [Hi Hf].
    split_and!; [done..|]. intros j p Hp Hfp Hne. apply Hmin; [by apply Hops|congruence].
  - apply sort_by_head_None in E as ->. intros i o Ho Hf. assert (Hin : (i, o) ∈ []) by by apply Hops. by apply elem_of_nil in Hin.
Qed.

Lemma latest_newest f d i o : newest d f i o -> latest f d = Returns (Some (i, o), d).
Proof.
  intros (Hi & Hf & Hmax).
  assert (exists r d', latest f d = Returns (r, d')) as (r & d' & Hr) by by eexists _, _.
  pose proof (latest_Returns _ _ _ _ Hr) as [-> Hspec]. rewrite Hr. repeat f_equal. destruct r as [[j p]|]; [|by destruct (Hspec i o)].
  destruct Hspec as (Hj & Hfj & Hmax'). destruct (decide (j = i)) as [->|Hne]; [by simplify_eq|].
  pose proof (Hmax j p Hj Hfj Hne) as H1. pose proof (Hmax' i o Hi Hf ltac:(congruence)) as H2.
  rewrite newer_iff in H1, H2. rewrite !older_iff in H1, H2. cbn in *.
  destruct Hne. apply str_leb_antisym; intuition lia.
Qed.

(** The row that [accept] inserts. *)
Definition accepted_row (now : Z) (f : Forward) (request : RequestIdentity) (kind : OperationKind)
    (previousSpec : option json) (source : option jsstr) : Operation :=
  MkOperation (scopeId f) (id f) (revision f) kind s_accepted (now + 600000) None None false None source
    previousSpec now now (rq_actorId request) (rq_key request) (rq_digest request) 0 None false.

(** Accepting [f]: the state and the time of the new Operation. *)
Definition accept_time (clock : Z) (prior : option op_row) : Z :=
  Z.max clock (match prior with Some o => op_created_at o.2 | None => 0 end + 1).

Lemma accept_lookup clock oid f request kind previous source d r d' :
  accept clock oid f request kind previous source d = Returns (r, d') ->
  r = oid /\ db_operations d !! oid = None /\ db_retirements d' = reassign (id f) oid (db_retirements d) /\ exists prior,
    latest (id f) d = Returns (prior, d) /\
    let now := accept_time clock prior in
    forall i, db_operations d' !! i =
      if decide (i = oid) then Some (accepted_row now f request kind previous source) else
      (fun o => if str_eqb (op_forward_id o) (id f) && is_active (op_status o) then set_superseded oid now o else o) <$> db_operations d !! i.
Proof.
  unfold accept. intros Hr. tx_inv. pose proof (latest_Returns _ _ _ _ Hrun) as [-> _].
  apply insert_row_Returns in Hrun0 as [Hn ->]. unfold update_operations in Hrun1. tx_inv. split_and!; [done..|].
  exists a. split; [done|]. cbn zeta. intros i. cbn. rewrite update_where_lookup. case_decide as E.
  - subst i. rewrite lookup_insert_eq. cbn. unfold str_eqb. rewrite (bool_decide_eq_true_2 (oid = oid)) by done. cbn. by rewrite andb_false_r.
  - rewrite lookup_insert_ne by done. destruct (db_operations d !! i) as [o|]; [|done]. cbn. unfold str_eqb.
    rewrite (bool_decide_eq_false_2 (i = oid)) by done. cbn. by rewrite andb_true_r.
Qed.

Lemma accept_le clock oid f request kind previous source : evolves ops_le (accept clock oid f request kind previous source).
Proof.
  intros d r d' (_ & Hn & _ & prior & _ & Hl)%accept_lookup. cbn zeta in Hl. intros i o Ho. rewrite Hl.
  destruct (decide (i = oid)) as [->|Hi]; [congruence|]. rewrite Ho. cbn. eexists. split; [done|].
  destruct (str_eqb _ _ && is_active (op_status o)) eqn:E; [|reflexivity]. apply andb_prop in E as [_ E]. by apply set_superseded_le.
Qed.

Lemma accept_active clock oid f request kind previous source d r d' :
  accept clock oid f request kind previous source d = Returns (r, d') -> one_active d -> one_active d'.
Proof.
  intros (_ & Hn & _ & prior & _ & Hl)%accept_lookup H1 i j o p Hi Hj Hf Ao Ap. cbn zeta in Hl. rewrite Hl in Hi, Hj.
  assert (Hold : forall k q, k <> oid -> (fun o => if str_eqb (op_forward_id o) (id f) && is_active (op_status o)
      then set_superseded oid (accept_time clock prior) o else o) <$> db_operations d !! k = Some q -> is_active (op_status q) = true ->
      db_operations d !! k = Some q /\ op_forward_id q <> id f).
  { intros k q _ Hk Aq. destruct (db_operations d !! k) as [q0|]; [|done]. cbn in Hk. injection Hk as <-.
    destruct (str_eqb (op_forward_id q0) (id f)) eqn:E; cbn in *.
    - destruct (is_active (op_status q0)) eqn:E2; cbn in *; congruence.
    - split; [done|]. by apply bool_decide_eq_false in E. }
  destruct (decide (i = oid)) as [->|Hio], (decide (j = oid)) as [->|Hjo]; [done| | |].
  - injection Hi as <-. apply Hold in Hj as [_ Hne]; [|done..]. by destruct Hne.
  - injection Hj as <-. apply Hold in Hi as [_ Hne]; [|done..]. by destruct Hne.
  - apply Hold in Hi as [Hi _], Hj as [Hj _]; [|done..]. by eapply H1.
Qed.

(** Accepting a revision takes over its Forward.  When no Operation of the Forward
    aims at a higher revision, a successful [accept] under a fresh identifier makes
    the new Operation the latest of the Forward (also when the clock stood still or
    went back), supersedes every other active one in its favour and no other row,
    moves every unfinished retirement of the Forward to it, and keeps the Forward with
    exactly one active Operation. *)
Theorem accept_takes_over (clock : Z) (oid : jsstr) (f : Forward) (request : RequestIdentity) (kind : OperationKind)
    (previous : option json) (source : option jsstr) (d d' : Db) (r : jsstr) :
  (forall i o, db_operations d !! i = Some o -> op_forward_id o = id f -> op_target_revision o <= revision f) ->
  accept clock oid f request kind previous source d = Returns (r, d') ->
  r = oid /\ (exists now row, clock <= now /\ row = accepted_row now f request kind previous source /\
    latest (id f) d' = Returns (Some (oid, row), d')) /\
  (forall i o, db_operations d !! i = Some o -> exists o', db_operations d' !! i = Some o' /\
     if decide (op_forward_id o = id f /\ is_active (op_status o) = true)
     then op_status o' = s_superseded /\ op_superseded_by o' = Some oid else o' = o) /\
  (forall i o', db_operations d' !! i = Some o' -> op_forward_id o' = id f -> is_active (op_status o') = true -> i = oid) /\
  (forall k t, db_retirements d' !! k = Some t -> rt_forward_id t = id f -> rt_safe t = false -> rt_operation_id t = oid).
Proof.
  intros Hmax Hr. pose proof (accept_lookup _ _ _ _ _ _ _ _ _ _ Hr) as (-> & Hn & Hret & prior & Hprior & Hl). cbn zeta in Hl.
  set (now := accept_time clock prior) in *. split_and!; [done| | | |].
  - exists now, (accepted_row now f request kind previous source). split_and!; [unfold now, accept_time; lia|done|].
    apply latest_newest. split_and!; [by rewrite Hl, decide_True|done|]. intros j p Hj Hf Hne. rewrite Hl, decide_False in Hj by done.
    destruct (db_operations d !! j) as [p0|] eqn:Ep; [|done]. cbn in Hj. injection Hj as <-.
    assert (Hp0 : op_target_revision p0 <= revision f /\ op_created_at p0 < now \/ op_target_revision p0 < revision f).
    { assert (Hf0 : op_forward_id p0 = id f) by (by destruct (str_eqb _ _ && _)).
      apply latest_Returns in Hprior as [_ Hprior]. destruct prior as [[k q]|]; [|by destruct (Hprior _ _ Ep)].
      destruct Hprior as (Hk & Hfk & Hnew). pose proof (Hmax _ _ Ep Hf0). pose proof (Hmax _ _ Hk Hfk).
      destruct (decide (j = k)) as [->|Hjk]; [assert (q = p0) as -> by congruence; left; unfold now, accept_time; cbn; lia|].
      apply Hnew in Ep; [|done..]. rewrite newer_iff, older_iff in Ep. unfold now, accept_time. cbn in *. lia. }
    rewrite newer_iff, older_iff. destruct (str_eqb _ _ && _); cbn; lia.
  - intros i o Ho. rewrite Hl, decide_False by congruence. rewrite Ho. cbn. eexists. split; [done|].
    unfold str_eqb. case_decide as E.
    + rewrite bool_decide_eq_true_2 by apply E. by rewrite (proj2 E).
    + case_bool_decide; [|done]. destruct (is_active (op_status o)); naive_solver.
  - intros i o' Hi Hf Ha. rewrite Hl in Hi. case_decide; [done|]. destruct (db_operations d !! i) as [o|]; [|done].
    cbn in Hi. injection Hi as <-. unfold str_eqb in *. destruct (bool_decide (op_forward_id o = id f)) eqn:Eb; cbn in *; [|by apply bool_decide_eq_false in Eb].
    destruct (is_active (op_status o)) eqn:Ea; cbn in *; congruence.
  - intros k t. rewrite Hret. unfold reassign.
    rewrite update_where_lookup. destruct (_ !! k) as [t0|]; [|done]. cbn. intros [= <-].
    unfold str_eqb. case_bool_decide; cbn; [|done]. by destruct (rt_safe t0) eqn:Es; cbn; rewrite ?Es.
Qed.

Definition accepted_state : outcome (jsstr * Db) :=
  accept 1000 (js "o1") example_forward example_request k_create None None empty_db.

Lemma accepted_state_Returns : exists d, accepted_state = Returns (js "o1", d).
Proof. eexists. vm_compute. reflexivity. Qed.

Lemma accept_takes_over_witness : exists d', accepted_state = Returns (js "o1", d') /\
  exists now row, latest (id example_forward) d' = Returns (Some (js "o1", row), d') /\
    row = accepted_row now example_forward example_request k_create None None.
Proof.
  destruct accepted_state_Returns as [d' E]. exists d'. split; [exact E|].
  assert (Hmax : forall i o, db_operations empty_db !! i = Some o -> op_forward_id o = id example_forward ->
    op_target_revision o <= revision example_forward) by (intros i o Ho; discriminate Ho).
  destruct (accept_takes_over 1000 (js "o1") example_forward example_request k_create None None empty_db d' (js "o1") Hmax E)
    as (_ & (now & row & _ & Hrow & Hlat) & _). exact (ex_intro _ now (ex_intro _ row (conj Hlat Hrow))).
Defined.

Lemma claims_fifo_witness : exists rs d', collect_each (claim_operation ∅ 2000) [js "t1"; js "t2"]
  (match accepted_state with Returns (_, d) => d | Throws _ => empty_db end) = Returns (rs, d') /\
  map fst (omap (fun r => r) rs) = [js "o1"].
Proof.
  destruct (claims_fifo ∅ 2000 [js "t1"; js "t2"] (match accepted_state with Returns (_, d) => d | Throws _ => empty_db end))
    as (rs & d' & Hr & Hs & _).
  - apply Nat.leb_le. vm_compute. reflexivity.
  - exists rs, d'. split; [exact Hr|]. rewrite Hs. vm_compute. reflexivity.
Defined.
