(* ===== verification/Retirements.v ===== *)
(** Retirements and execution leases of the Runtime ledger
    (apps/control/src/modules/runtime/ledger.ts).

    What a Node once ran stays recorded until it is known to have stopped: a lease bounds
    how long the Node may run an instance without hearing from the control plane, a
    retirement is an instance that was replaced and is not yet known to be gone. *)

From S2P Require Import Prelude.
From S2P Require Import JsString.
From S2P Require Import Primitives.
From S2P Require Import Json.
From S2P Require Import Forward.
From S2P Require Import Time.
From S2P Require Import Digest.
From S2P Require Import Types.
From S2P Require Import Validate.
From S2P Require Import Schema.
From S2P Require Import Relay.
From S2P Require Import Adp3.
From S2P Require Import Probe.
From S2P Require Import TargetPolicy.
From S2P Require Import Planner.
From S2P Require Import SnapshotRegistry.
From S2P Require Import RelayPlan.
From S2P Require Import Iso.
From S2P Require Import Store.
From S2P Require Import Forwarding.
From S2P Require Import Slots.
From S2P Require Import Operations.

Local Open Scope Z_scope.

(** ** Instances *)

Definition lease_instance (k : lease_id) : instance_id := k.1.
Definition lease_epoch (k : lease_id) : Z := k.2.
Definition assignment_instance (nodeId : jsstr) (a : RuntimeAssignment) : instance_id :=
  (nodeId, rua_assignmentId a, rua_deploymentGeneration a, rua_bindingFence a).

(** The same assignment, generation and fence. *)
Definition same_instance (a b : RuntimeAssignment) : bool :=
  str_eqb (rua_assignmentId a) (rua_assignmentId b) && (rua_deploymentGeneration a =? rua_deploymentGeneration b) &&
  (rua_bindingFence a =? rua_bindingFence b).

(** [LEFT JOIN retirements r ON ... WHERE r.safe IS NULL OR r.safe=FALSE] *)
Definition not_safe (d : Db) (k : instance_id) : bool :=
  match db_retirements d !! k with None => true | Some r => negb (rt_safe r) end.

Definition set_safe (r : Retirement) : Retirement :=
  MkRetirement (rt_forward_id r) (rt_operation_id r) (rt_body r) (rt_removed_epoch r) (rt_retirement_generation r) true.
Definition set_removed (epoch : Z) (r : Retirement) : Retirement :=
  MkRetirement (rt_forward_id r) (rt_operation_id r) (rt_body r) (Some epoch) (rt_retirement_generation r) (rt_safe r).
Definition set_owner (operationId : jsstr) (r : Retirement) : Retirement :=
  MkRetirement (rt_forward_id r) operationId (rt_body r) (rt_removed_epoch r) (rt_retirement_generation r) (rt_safe r).

(** ** Leases *)

(** [MAX(x)], [NULL] of no rows *)
Definition max_of (l : list Z) : option Z :=
  match l with [] => None | x :: r => Some (fold_left Z.max r x) end.

Definition select_leases (where_ : lease_id -> Lease -> bool) : tx (list (lease_id * Lease)) := select db_leases where_.

Definition maximumAuthorization (nodeId : jsstr) : tx (option Z) :=
  leases ← select_leases (fun k _ => str_eqb k.1.1.1.1 nodeId);
  mret (max_of (map (fun kl => ls_valid_until kl.2) leases)).

(** [INSERT ... ON DUPLICATE KEY UPDATE valid_until=GREATEST(valid_until,VALUES(valid_until))]:
    the other columns of an existing row stay. *)
Definition extend_lease (k : lease_id) (forwardId : jsstr) (until : Z) (m : gmap lease_id Lease) : gmap lease_id Lease :=
  match m !! k with
  | Some l => <[k := MkLease (ls_forward_id l) (Z.max (ls_valid_until l) until)]> m
  | None => <[k := MkLease forwardId until]> m
  end.

(** [NaN] is refused by the BIGINT column. *)
Definition recordLeases (s : RuntimeSnapshot) : tx unit :=
  for_each (fun a =>
    match Date_text (rus_validUntil s) with
    | Some until => modify (with_leases (extend_lease (assignment_instance (rus_nodeId s) a, rus_sessionEpoch s) (rua_forwardId a) until))
    | None => throw "ER_BAD_FIELD_ERROR" "Unknown column NaN"
    end) (rus_assignments s).

(** [`${nodeId}/${assignmentId}/${deploymentGeneration}/${bindingFence}`] *)
Definition instance_text (k : instance_id) : jsstr :=
  let '(nodeId, assignmentId, generation, fence) := k in
  slash nodeId (slash assignmentId (slash (num_to_string generation) (num_to_string fence))).

Definition previousLeasesSafe (now : Z) (forwardId : jsstr) (desired : list (jsstr * list RuntimeAssignment)) : tx bool :=
  let current := concat (map (fun node => map (fun a => instance_text (assignment_instance node.1 a)) node.2) desired) in
  leases ← query (fun d => List.filter (fun kl : lease_id * Lease =>
    str_eqb (ls_forward_id kl.2) forwardId && (now <? ls_valid_until kl.2 + 5000) && not_safe d (lease_instance kl.1))
    (map_to_list (db_leases d)));
  mret (forallb (fun kl => includes current (instance_text (lease_instance kl.1))) leases).

Definition sessionAuthoritySafe (now : Z) (nodeId : jsstr) (epoch : Z) : tx bool :=
  leases ← query (fun d => List.filter (fun kl : lease_id * Lease =>
    str_eqb kl.1.1.1.1.1 nodeId && negb (lease_epoch kl.1 =? epoch) && (now <? ls_valid_until kl.2 + 5000) &&
    not_safe d (lease_instance kl.1)) (map_to_list (db_leases d)));
  mret (length leases =? 0)%nat.

(** ** Retirements *)

(** [INSERT INTO retirements ... ON DUPLICATE KEY UPDATE operation_id=VALUES(operation_id)] *)
Definition retire_row (k : instance_id) (operationId : jsstr) (a : RuntimeAssignment) (generation : Z)
    (m : gmap instance_id Retirement) : gmap instance_id Retirement :=
  match m !! k with
  | Some r => <[k := set_owner operationId r]> m
  | None => <[k := MkRetirement (rua_forwardId a) operationId a None generation false]> m
  end.

Definition retire_one (nodeId : jsstr) (next : list RuntimeAssignment) (generation : Z) (old : RuntimeAssignment) : tx unit :=
  if existsb (fun a => same_instance a old) next then mret tt else
  operation ← latest (rua_forwardId old);
  match operation with
  | None => throw "Error" "Missing retirement owner"
  | Some (oid, _) =>
      _ ← modify (with_retirements (retire_row (assignment_instance nodeId old) oid old generation));
      update_operations (fun i _ => str_eqb i oid) (set_cleanup true)
  end.

Definition retireChanged (nodeId : jsstr) (previous : option RuntimeSnapshot) (next : list RuntimeAssignment) (generation : Z) : tx unit :=
  for_each (retire_one nodeId next generation) (match previous with Some s => rus_assignments s | None => [] end).

Definition tombstone_of (generation : Z) (r : Retirement) : RuntimeTombstone :=
  let a := rt_body r in
  MkRuntimeTombstone (rua_assignmentId a) (rua_forwardId a) (rua_role a) (rua_protocol a) (res_protocol (rua_resource a))
    (res_port (rua_resource a)) (rua_bindingFence a) (Z.min (rt_retirement_generation r) generation).

(** [ORDER BY retirement_generation,assignment_id] *)
Definition retirement_leb (a b : instance_id * Retirement) : bool :=
  (rt_retirement_generation a.2 <? rt_retirement_generation b.2) ||
  (rt_retirement_generation a.2 =? rt_retirement_generation b.2) && str_leb a.1.1.1.2 b.1.1.1.2.

Definition tombstones (nodeId : jsstr) (generation : Z) : tx (list RuntimeTombstone) :=
  retired ← select db_retirements (fun k _ => str_eqb k.1.1.1 nodeId);
  mret (sort_by tombstone_leb (map (fun kr => tombstone_of generation kr.2) (sort_by retirement_leb retired))).

Definition drain_instance (nodeId : jsstr) (d : Drain) : instance_id :=
  (nodeId, drain_assignmentId d, drain_deploymentGeneration d, drain_bindingFence d).

(** The body of the loop of [observeDrains]; [lease.until] of 0 counts as absent. *)
Definition observe_drain (nodeId : jsstr) (epoch : Z) (report : ReportRequest) (drain : Drain) : tx unit :=
  let k := drain_instance nodeId drain in
  record ← query (fun d => db_retirements d !! k);
  _ ← require (match record with Some r => rt_retirement_generation r <=? rep_acceptedSnapshotGeneration report | None => false end)
        "FENCING_REJECTED" "Unknown or unaccepted draining instance";
  until ← query (fun d => ls_valid_until <$> db_leases d !! (k, epoch));
  _ ← require (negb (bool_decide (drain_condition drain = d_draining)) ||
               match until with
               | Some u => negb (u =? 0) && negb (n_lt (Some u) (Date_text (drain_deadline drain)))
               | None => false
               end) "LEASE_EXPIRED" "Drain exceeds its execution authorization";
  if bool_decide (drain_condition drain = d_removed) && (drain_remainingConnections drain =? 0)
  then modify (with_retirements (alter (set_removed epoch) k)) else mret tt.

Definition observeDrains (nodeId : jsstr) (epoch : Z) (report : ReportRequest) : tx unit :=
  for_each (observe_drain nodeId epoch report) (rep_drains report).

(** ** Completion *)

(** Leases of the instance that may still run: not expired for five seconds, and not of
    the session that reported the removal. *)
Definition outstanding (now : Z) (k : instance_id) (r : Retirement) (d : Db) : list (lease_id * Lease) :=
  List.filter (fun kl : lease_id * Lease =>
    bool_decide (lease_instance kl.1 = k) && (now <? ls_valid_until kl.2 + 5000) &&
    match rt_removed_epoch r with Some e => negb (lease_epoch kl.1 =? e) | None => true end) (map_to_list (db_leases d)).

(** The body of the first loop of [complete]. *)
Definition settle (now : Z) (kr : instance_id * Retirement) : tx unit :=
  leases ← query (outstanding now kr.1 kr.2);
  if (length leases =? 0)%nat then modify (with_retirements (alter set_safe kr.1)) else mret tt.

(** [SELECT o.* FROM operations o JOIN forwards f ON ...] *)
Definition completing (nodeId : jsstr) (d : Db) : list op_row :=
  sort_by (fun a b => str_leb a.1 b.1) (List.filter (fun io : op_row =>
    negb (op_recovery_invalidated io.2) &&
    match db_forwards d !! op_forward_id io.2 with
    | Some f => (fw_revision f =? op_target_revision io.2) && str_eqb (ingress_nodeId (fw_spec f)) nodeId
    | None => false
    end && (bool_decide (op_status io.2 = s_running) || op_cleanup_pending io.2)) (map_to_list (db_operations d))).

Definition ready_observation (a : RuntimeAssignment) (o : Observation) : bool :=
  str_eqb (obs_assignmentId o) (rua_assignmentId a) && (obs_deploymentGeneration o =? rua_deploymentGeneration a) &&
  (obs_bindingFence o =? rua_bindingFence a) && bool_decide (obs_phase o = present active) && bool_decide (obs_condition o = c_ready).

(** Every protocol of the Forward has an assignment of this revision that is reported ready. *)
Definition ready_protocol (f : Forward) (report : ReportRequest) (s : RuntimeSnapshot) (p : NetworkProtocol) : bool :=
  match find (fun a => str_eqb (rua_forwardId a) (id f) && (rua_forwardRevision a =? revision f) && bool_decide (rua_protocol a = p))
             (rus_assignments s) with
  | Some a => existsb (ready_observation a) (rep_observations report)
  | None => false
  end.

Definition current_ready (now : Z) (o : Operation) (f : Forward) (report : option ReportRequest) (s : option RuntimeSnapshot) : bool :=
  match report, s with
  | Some report, Some s => (now <? op_execution_deadline o) && n_lt (Some (now + 5000)) (Date_text (rus_validUntil s)) &&
                           forallb (ready_protocol f report s) (protocols (spec f))
  | _, _ => false
  end.

(** [SELECT body FROM snapshots WHERE node_id=? ORDER BY generation DESC LIMIT 1] *)
Definition authoritative (nodeId : jsstr) : tx (option RuntimeSnapshot) :=
  found ← select db_snapshots (fun k _ => str_eqb k.1 nodeId);
  mret (sn_body ∘ snd <$> head (sort_by (fun a b => b.1.2 <=? a.1.2) found)).

Definition pending_of (forwardId : jsstr) (d : Db) : list (instance_id * Retirement) :=
  List.filter (fun kr : instance_id * Retirement => str_eqb (rt_forward_id kr.2) forwardId && negb (rt_safe kr.2)) (map_to_list (db_retirements d)).

Definition unsafe_leases (forwardId : jsstr) (d : Db) : list (lease_id * Lease) :=
  List.filter (fun kl : lease_id * Lease => str_eqb (ls_forward_id kl.2) forwardId && not_safe d (lease_instance kl.1)) (map_to_list (db_leases d)).

(** [cleanup_pending=FALSE WHERE forward_id=? AND status IN ('failed','superseded')] *)
Definition clear_cleanup (forwardId : jsstr) : tx unit :=
  update_operations (fun _ o => str_eqb (op_forward_id o) forwardId &&
    match op_status o with s_failed | s_superseded => true | _ => false end) (set_cleanup false).

(** The body of the second loop of [complete]. *)
Definition complete_one (now : Z) (nodeId : jsstr) (latest_snapshot : option RuntimeSnapshot)
    (report : option ReportRequest) (s : option RuntimeSnapshot) (op : op_row) : tx unit :=
  '(f, deleting, _) ← record_of (op_scope_id op.2) (op_forward_id op.2);
  if bool_decide (is_Some (path_via (spec f))) then mret tt else
  pending ← query (pending_of (op_forward_id op.2));
  if negb (length pending =? 0)%nat then mret tt else
  let stopped := deleting || negb (enabled (spec f)) || bool_decide (op_kind op.2 = k_revoke) in
  let currentReady := current_ready now op.2 f report s in
  let noCurrentAssignment := match latest_snapshot with
                             | Some l => negb (existsb (fun a => str_eqb (rua_forwardId a) (id f)) (rus_assignments l))
                             | None => false
                             end in
  unsafe ← query (unsafe_leases (id f));
  if stopped && noCurrentAssignment && (length unsafe =? 0)%nat then
    _ ← (if (deleting : bool) then releaseForwardSlots (id f) else releaseObsoleteSlots f);
    _ ← update_operations (fun i _ => str_eqb i op.1) (set_finished now);
    clear_cleanup (id f)
  else if bool_decide (op_status op.2 = s_failed) && noCurrentAssignment && (length unsafe =? 0)%nat then
    _ ← releaseObsoleteSlots f;
    update_operations (fun i _ => str_eqb i op.1) (set_cleaned now)
  else if negb stopped && currentReady then
    let own := match s with Some s => List.filter (fun a => str_eqb (rua_forwardId a) (id f)) (rus_assignments s) | None => [] end in
    safe ← previousLeasesSafe now (id f) [(nodeId, own)];
    if negb safe then mret tt else
    _ ← releaseObsoleteSlots f;
    _ ← update_operations (fun i _ => str_eqb i op.1) (fun o => unclaim (set_finished now o));
    clear_cleanup (id f)
  else mret tt.

Definition complete (now : Z) (nodeId : jsstr) (report : option ReportRequest) (s : option RuntimeSnapshot) : tx unit :=
  latest_snapshot ← authoritative nodeId;
  retired ← select db_retirements (fun k r => str_eqb k.1.1.1 nodeId && negb (rt_safe r));
  _ ← for_each (settle now) retired;
  operations ← query (completing nodeId);
  for_each (complete_one now nodeId latest_snapshot report s) operations.

(** ** Recovery *)

(** [INSERT INTO retirements(..., safe) VALUES(..., TRUE) ON DUPLICATE KEY UPDATE safe=TRUE] *)
Definition quarantine_row (k : instance_id) (operationId : jsstr) (a : RuntimeAssignment) (generation : Z)
    (m : gmap instance_id Retirement) : gmap instance_id Retirement :=
  match m !! k with
  | Some r => <[k := set_safe r]> m
  | None => <[k := MkRetirement (rua_forwardId a) operationId a None generation true]> m
  end.

Definition quarantine_assignment (k : jsstr * Z) (a : RuntimeAssignment) : tx unit :=
  operation ← latest (rua_forwardId a);
  match operation with
  | Some (oid, _) => modify (with_retirements (quarantine_row (assignment_instance k.1 a) oid a (Z.min MAX_COUNTER (k.2 + 1))))
  | None => mret tt
  end.

(** The Snapshot every Node was last given. *)
Definition current_snapshots (d : Db) : list ((jsstr * Z) * SnapshotRow) :=
  List.filter (fun ks : (jsstr * Z) * SnapshotRow =>
    match db_runtime_nodes d !! ks.1.1 with Some r => rn_snapshot_generation r =? ks.1.2 | None => false end)
    (map_to_list (db_snapshots d)).

Definition forget_report (r : RuntimeNode) : RuntimeNode :=
  MkRuntimeNode (rn_session_epoch r) (rn_boot_id r) (rn_snapshot_generation r) (rn_last_report_sequence r) None None.

Definition quarantineLedger : tx unit :=
  _ ← update_operations (fun _ _ => true) set_invalidated;
  _ ← modify (with_retirements (fmap set_safe));
  _ ← modify (with_runtime_nodes (fmap forget_report));
  previous ← query current_snapshots;
  for_each (fun ks : (jsstr * Z) * SnapshotRow => for_each (quarantine_assignment ks.1) (rus_assignments (sn_body ks.2))) previous.

(** ** Direct assignments of a Node *)

Section Collect.
Context `{Hashing}.
Context (policy : Policy) (authorization : option (jsstr -> Forward -> tx bool))
        (merge_sources : SnapshotAssignmentContext -> list RuntimeAssignment -> tx (list RuntimeAssignment)).

(** The Operation that brought the Forward to its revision still authorizes it. *)
Definition authorizes (now : Z) (includeAccepted : bool) (o : Operation) : bool :=
  negb (op_recovery_invalidated o) &&
  (bool_decide (op_status o = s_succeeded) ||
   (bool_decide (op_status o = s_running) || includeAccepted && bool_decide (op_status o = s_accepted)) && (now <? op_execution_deadline o)).

Definition reserved_slots (nodeId : jsstr) (f : Forward) (slots : list (slot_id * SlotRow)) : list ReservedSlot :=
  map (fun kr : slot_id * SlotRow => MkReservedSlot nodeId (id f) kr.1.1.2 kr.1.2 (sl_fence kr.2) (sl_deployment_generation kr.2))
      (List.filter (fun kr : slot_id * SlotRow => bool_decide (sl_owner_id kr.2 = Some (id f))) slots).

(** The body of the loop of [assignments]: what the Forward contributes. *)
Definition forward_assignments (now : Z) (facts : AuthorizedNodeFacts) (includeAccepted : bool) (operations : list op_row)
    (slots : list (slot_id * SlotRow)) (f : Forward) : tx (list RuntimeAssignment) :=
  match find (fun o : op_row => str_eqb (op_forward_id o.2) (id f) && (op_target_revision o.2 =? revision f)) operations with
  | None => mret []
  | Some (_, op) =>
      if negb (authorizes now includeAccepted op) then mret [] else
      if negb (enabled (spec f)) then mret [] else
      if bool_decide (op_kind op = k_revoke) then mret [] else
      sourceActor ← authorizer (id f);
      allowed ← match sourceActor, authorization with
                | Some actor, Some canExecute => canExecute actor f
                | _, _ => mret false
                end;
      if negb allowed then mret [] else
      if negb (includes (nf_allowedListenerAddresses facts) (address (ingress_listen (spec f)))) ||
         negb (includes (nf_allowedPorts facts) (listen_port (ingress_listen (spec f)))) ||
         negb (targetAllowed (host (target (spec f))) facts) then mret [] else
      lift (compileDirect f facts
        (List.filter (fun s => slot_port s =? listen_port (ingress_listen (spec f))) (reserved_slots (nf_nodeId facts) f slots))
        active (policy_drainTimeoutSeconds DEFAULT_POLICY))
  end.

Definition assignments (now : Z) (facts : AuthorizedNodeFacts) (includeAccepted : bool) : tx (list RuntimeAssignment) :=
  all ← forNode (nf_nodeId facts);
  let forwards := List.filter (fun f => negb (bool_decide (is_Some (path_via (spec f))))) all in
  match forwards with
  | [] => merge_sources (MkContext (nf_nodeId facts) includeAccepted) []
  | _ =>
      rows ← select db_operations (fun _ o => includes (map id forwards) (op_forward_id o));
      slots ← select db_port_slots (fun k r => str_eqb k.1.1 (nf_nodeId facts) && bool_decide (is_Some (sl_owner_id r)));
      direct ← collect_each (forward_assignments now facts includeAccepted (sort_by (fun a b => older b a) rows) slots) forwards;
      merge_sources (MkContext (nf_nodeId facts) includeAccepted) (concat direct)
  end.

(** ** Capacity *)

(** The tombstone of an old assignment that neither stays nor is already retired. *)
Definition dropped_tombstone (next : list RuntimeAssignment) (st : list RuntimeTombstone) (old : RuntimeAssignment) : list RuntimeTombstone :=
  if existsb (fun a => same_instance a old) next ||
     existsb (fun t => str_eqb (rut_assignmentId t) (rua_assignmentId old) && (rut_bindingFence t =? rua_bindingFence old) &&
                       (rut_port t =? res_port (rua_resource old)) && bool_decide (rut_protocol t = rua_protocol old)) st
  then st
  else st ++ [MkRuntimeTombstone (rua_assignmentId old) (rua_forwardId old) (rua_role old) (rua_protocol old)
                (res_protocol (rua_resource old)) (res_port (rua_resource old)) (rua_bindingFence old) MAX_COUNTER].

Context `{Schema RelayProfileConfig, Schema RelayOpen, Schema RelayAssignment, Adp2Schemas, Adp3Schemas}.

(** [session_epoch || MAX_COUNTER] of the Node, if it exists. *)
Definition capacity_input (nodeId : jsstr) (epoch : option Z) (issued valid : jsstr)
    (next : list RuntimeAssignment) (retired : list RuntimeTombstone) : SnapshotInput :=
  MkSnapshotInput nodeId (js_or (default 0 epoch) MAX_COUNTER) MAX_COUNTER issued valid next retired (Some policy).

Definition assertCapacity (now : Z) (facts : AuthorizedNodeFacts) : tx unit :=
  next ← assignments now facts true;
  retired ← tombstones (nf_nodeId facts) MAX_COUNTER;
  previous ← authoritative (nf_nodeId facts);
  let retired := fold_left (dropped_tombstone next) (match previous with Some s => rus_assignments s | None => [] end) retired in
  runtime ← query (fun d => rn_session_epoch <$> db_runtime_nodes d !! nf_nodeId facts);
  issued ← lift (toISOString now);
  valid ← lift (toISOString (now + leaseSeconds policy * 1000));
  _ ← lift (compileSnapshot (capacity_input (nf_nodeId facts) runtime issued valid next retired));
  mret tt.
End Collect.

(** ** Operations under the ledger's commands *)

Lemma set_cleanup_le b o : op_le o (set_cleanup b o).
Proof. by apply (keeps_status_le (set_cleanup b)). Qed.

Lemma set_cleaned_le now o : op_le o (set_cleaned now o).
Proof. by apply (keeps_status_le (set_cleaned now)). Qed.

Lemma unclaim_le o : op_le o (unclaim o).
Proof. by apply (keeps_status_le unclaim). Qed.

Lemma set_invalidated_le o : op_le o (set_invalidated o).
Proof. by apply (keeps_status_le set_invalidated). Qed.

(** A statement on another table. *)
Lemma ops_step_other f : (forall d, db_operations (f d) = db_operations d) -> evolves ops_step (modify f).
Proof. intros Hf. apply evolves_modify. intros d. by apply ops_step_same. Qed.

Lemma update_any_step where_ change : (forall o, op_le o (change o)) -> evolves ops_step (update_operations where_ change).
Proof. intros Hc. by apply update_operations_step. Qed.

Lemma releaseForwardSlots_ops f : evolves ops_step (releaseForwardSlots f).
Proof. by apply ops_step_other. Qed.

Lemma releaseObsoleteSlots_ops f : evolves ops_step (releaseObsoleteSlots f).
Proof. unfold releaseObsoleteSlots. evolve. by apply ops_step_other. Qed.

Lemma retire_statement_ops f : evolves ops_step (modify (with_retirements f)).
Proof. by apply ops_step_other. Qed.

Lemma latest_ops f : evolves ops_step (latest f).
Proof. unfold latest. evolve. Qed.

Lemma record_of_ops scope f : evolves ops_step (record_of scope f).
Proof. unfold record_of, find_forward. evolve. Qed.

Lemma finished_ops i now : evolves ops_step (update_operations (fun j _ => str_eqb j i) (set_finished now)).
Proof. apply update_any_step, set_finished_le. Qed.

Lemma unclaimed_ops i now : evolves ops_step (update_operations (fun j _ => str_eqb j i) (fun o => unclaim (set_finished now o))).
Proof. apply update_any_step. intros o. etransitivity; [apply set_finished_le|apply unclaim_le]. Qed.

Lemma cleaned_ops i now : evolves ops_step (update_operations (fun j _ => str_eqb j i) (set_cleaned now)).
Proof. apply update_any_step, set_cleaned_le. Qed.

Lemma cleanup_ops where_ b : evolves ops_step (update_operations where_ (set_cleanup b)).
Proof. apply update_any_step, set_cleanup_le. Qed.

Lemma invalidated_ops where_ : evolves ops_step (update_operations where_ set_invalidated).
Proof. apply update_any_step, set_invalidated_le. Qed.

#[export] Hint Resolve releaseForwardSlots_ops releaseObsoleteSlots_ops retire_statement_ops latest_ops record_of_ops finished_ops
  unclaimed_ops cleaned_ops cleanup_ops invalidated_ops : evolves.

Lemma retireChanged_ops nodeId previous next generation : evolves ops_step (retireChanged nodeId previous next generation).
Proof. unfold retireChanged, retire_one. evolve. Qed.

Lemma complete_ops now nodeId report s : evolves ops_step (complete now nodeId report s).
Proof. unfold complete, complete_one, settle, authoritative, clear_cleanup, previousLeasesSafe. evolve. Qed.

Lemma quarantineLedger_ops : evolves ops_step quarantineLedger.
Proof. unfold quarantineLedger, quarantine_assignment. evolve. by apply ops_step_other. Qed.

Lemma claim_operation_ops locked now token : evolves ops_step (claim_operation locked now token).
Proof.
  intros d r d' Hr%claim_operation_Returns.
  assert (He : ops_step d (expired now d)).
  { eapply (update_operations_step (fun _ o => overdue now o) (fun o => unclaim (set_failed (error_of "EXECUTION_DEADLINE") now o))); [|reflexivity].
    intros i o H. etransitivity; [apply set_failed_le|apply unclaim_le]. unfold overdue in H. by propify. }
  destruct r as [[i row]|]; [|by destruct Hr as [_ ->]]. destruct Hr as (o & [Hi _] & _ & ->). etransitivity; [exact He|].
  rewrite <- (eligible_expired locked now d) in Hi. apply eligible_Some in Hi as (Hi & Hc & _).
  split.
  - intros j p Hj. destruct (decide (j = i)) as [->|Hne]; cbn.
    + rewrite lookup_insert_eq. eexists. split; [done|]. assert (p = o) as -> by congruence.
      apply set_claimed_le. unfold claimable in Hc. by propify.
    + rewrite lookup_insert_ne by done. exists p. split; [done|reflexivity].
  - intros j p. cbn. destruct (decide (j = i)) as [->|Hne]; [cbn in Hi; rewrite Hi; by eauto|]. rewrite lookup_insert_ne by done. by eauto.
Qed.

(** The commands that write Operations, in any order, among transactions that do not. *)
Inductive operation_step : Db -> Db -> Prop :=
  | os_accept clock oid f request kind previous source r d d' :
      accept clock oid f request kind previous source d = Returns (r, d') -> operation_step d d'
  | os_deny now i u d d' : denyIntent now i d = Returns (u, d') -> operation_step d d'
  | os_claim locked now token r d d' : claim_operation locked now token d = Returns (r, d') -> operation_step d d'
  | os_retire nodeId previous next generation u d d' :
      retireChanged nodeId previous next generation d = Returns (u, d') -> operation_step d d'
  | os_complete now nodeId report s u d d' : complete now nodeId report s d = Returns (u, d') -> operation_step d d'
  | os_quarantine u d d' : quarantineLedger d = Returns (u, d') -> operation_step d d'
  | os_other d d' : db_operations d' = db_operations d -> operation_step d d'.

Lemma operation_step_ok d d' : operation_step d d' -> ops_le d d' /\ (one_active d -> one_active d').
Proof.
  assert (Hs : forall d d', ops_step d d' -> ops_le d d' /\ (one_active d -> one_active d')).
  { intros e e' He. split; [apply He|by apply ops_step_active]. }
  destruct 1 as [clock oid f request kind previous source r d d' Hr|now i u d d' Hr|locked now token r d d' Hr|
                 nodeId previous next generation u d d' Hr|now nodeId report s u d d' Hr|u d d' Hr|d d' E].
  - split; [by eapply accept_le|by eapply accept_active].
  - apply Hs. by eapply denyIntent_step.
  - apply Hs. by eapply claim_operation_ops.
  - apply Hs. by eapply retireChanged_ops.
  - apply Hs. by eapply complete_ops.
  - apply Hs. by eapply quarantineLedger_ops.
  - apply Hs. by apply ops_step_same.
Qed.

(** An Operation ends once, and a Forward has one at a time.  From a state where
    every Forward has at most one accepted or running Operation, whatever sequence of
    the ledger's commands follows: this stays so; no Operation disappears or changes
    what it was requested for; its status only moves from accepted to running to one
    of the final ones; and a final status stays. *)
Theorem operations_end_once (d d' : Db) : one_active d -> rtc operation_step d d' ->
  one_active d' /\
  forall i o, db_operations d !! i = Some o -> exists o', db_operations d' !! i = Some o' /\ op_le o o' /\
    (is_active (op_status o) = false -> op_status o' = op_status o).
Proof.
  intros H1 Hrun.
  assert (H : ops_le d d' /\ one_active d').
  { induction Hrun as [d|d d1 d2 Hs _ IH]; [split; [reflexivity|done]|]. apply operation_step_ok in Hs as [Hle Hone].
    destruct IH as [Hle2 Hone2]; [by apply Hone|]. split; [by etransitivity|done]. }
  destruct H as [Hle Hone]. split; [done|]. intros i o (o' & Ho' & Hl)%Hle. exists o'. split_and!; [done..|].
  intros Ha. destruct Hl as [_ _ _ _ _ _ _ Hst _]. unfold status_le in Hst. destruct (op_status o); cbn in Ha; intuition congruence.
Qed.

Lemma operations_end_once_witness : exists d', rtc operation_step empty_db d' /\ one_active d'.
Proof.
  destruct accepted_state_Returns as [d1 E]. exists d1.
  assert (Hs : rtc operation_step empty_db d1) by (eapply rtc_once, os_accept; exact E).
  split; [exact Hs|]. refine (proj1 (operations_end_once empty_db d1 _ Hs)). intros i j o p Ho. discriminate Ho.
Defined.

(** ** Nothing is released while it may still run *)

Lemma settle_loop now l d u d' : for_each (settle now) l d = Returns (u, d') ->
  db_leases d' = db_leases d /\ db_port_slots d' = db_port_slots d /\
  forall k, db_retirements d' !! k = db_retirements d !! k \/
    db_retirements d' !! k = set_safe <$> db_retirements d !! k /\ exists r, (k, r) ∈ l /\ outstanding now k r d = [].
Proof.
  revert d. induction l as [|[j r] l IH]; intros d Hr; cbn in Hr.
  - tx_inv. split_and!; [done..|]. by left.
  - tx_inv. unfold settle in Hrun. tx_inv. cbn in Hrun.
    destruct (length (outstanding now j r d) =? 0)%nat eqn:E; tx_inv.
    + apply Nat.eqb_eq, nil_length_inv in E. apply IH in Hr as (Hl & Hs & Hk). split_and!; [done..|]. intros k. specialize (Hk k). cbn in Hk.
      destruct (decide (k = j)) as [->|Hne].
      * right. rewrite lookup_alter_eq in Hk. split; [|exists r; split; [left|done]].
        destruct Hk as [->|[-> _]]; [done|]. by destruct (db_retirements d !! j).
      * rewrite lookup_alter_ne in Hk by done. destruct Hk as [->|[-> (r' & Hin & Ho)]]; [by left|]. right. split; [done|].
        exists r'. split; [by right|exact Ho].
    + apply IH in Hr as (Hl & Hs & Hk). split_and!; [done..|]. intros k. destruct (Hk k) as [->|[-> (r' & Hin & Ho)]]; [by left|].
      right. split; [done|]. exists r'. split; [by right|done].
Qed.

Definition owner (d : Db) (k : slot_id) : option jsstr := sl_owner_id (slot d k).

(** Slots of [f] are released, everything else stays. *)
Definition releases (f : jsstr) (d d' : Db) : Prop :=
  (exists m, d' = with_port_slots (fun _ => m) d) /\
  forall k, slot d' k = slot d k \/ owner d k = Some f /\ slot d' k = free (slot d k).

#[export] Instance releases_preorder f : PreOrder (releases f).
Proof.
  split.
  - intros d. split; [|by left]. exists (db_port_slots d). by destruct d.
  - intros d d1 d2 [[m1 ->] H1] [[m2 ->] H2]. split; [by exists m2|]. intros k. destruct (H1 k) as [E1|[O1 E1]], (H2 k) as [E2|[O2 E2]].
    + left. congruence.
    + right. unfold owner in *. rewrite E1 in *. done.
    + right. split; [done|]. congruence.
    + unfold owner in O2. rewrite E1 in O2. done.
Qed.

Lemma releaseForwardSlots_releases f : evolves (releases f) (releaseForwardSlots f).
Proof.
  apply evolves_modify. intros d. split; [by eexists|]. intros k. unfold owner, slot. cbn. rewrite update_where_lookup.
  destruct (_ !! k) as [r|]; [|by left]. cbn. case_bool_decide; [by right|by left].
Qed.

Lemma releaseObsoleteSlots_releases f : evolves (releases (id f)) (releaseObsoleteSlots f).
Proof.
  unfold releaseObsoleteSlots. evolve. apply evolves_modify. intros d. split; [by eexists|]. intros k. unfold owner, slot. cbn.
  match goal with x : slot_id * SlotRow |- _ => destruct (decide (k = x.1)) as [->|Hj] end.
  - rewrite lookup_alter_eq. destruct (_ !! _) as [r|]; [|by left]. cbn. case_bool_decide; [by right|by left].
  - rewrite lookup_alter_ne by done. by left.
Qed.

(** The instance behind the lease is known to be gone, the lease ran out five seconds
    ago, or the instance is one of the current ones. *)
Definition lease_over (now : Z) (current : list jsstr) (d : Db) (k : lease_id) (l : Lease) : Prop :=
  not_safe d (lease_instance k) = false \/ ls_valid_until l + 5000 <= now \/ instance_text (lease_instance k) ∈ current.

(** No replaced instance of the Forward can still be running. *)
Record releasable (now : Z) (current : list jsstr) (d : Db) (f : jsstr) : Prop := {
  re_retired : forall k r, db_retirements d !! k = Some r -> rt_forward_id r = f -> rt_safe r = true;
  re_leases : forall k l, db_leases d !! k = Some l -> ls_forward_id l = f -> lease_over now current d k l;
}.

Lemma filter_empty {A} (f : A -> bool) l : length (List.filter f l) = 0%nat -> forall x, x ∈ l -> f x = false.
Proof.
  intros E%nil_length_inv x Hx. destruct (f x) eqn:Ef; [|done].
  assert (Hin : In x (List.filter f l)) by (apply filter_In; split; [by apply list_elem_of_In|done]). rewrite E in Hin. destruct Hin.
Qed.

Lemma pending_none f d : length (pending_of f d) = 0%nat -> forall k r, db_retirements d !! k = Some r -> rt_forward_id r = f -> rt_safe r = true.
Proof.
  intros H k r Hk Hf. pose proof (filter_empty _ _ H (k, r) ltac:(by apply elem_of_map_to_list)) as E. cbn in E.
  unfold str_eqb in E. rewrite bool_decide_eq_true_2 in E by done. cbn in E. by apply negb_false_iff in E.
Qed.

Lemma unsafe_none f d : length (unsafe_leases f d) = 0%nat -> forall k l, db_leases d !! k = Some l -> ls_forward_id l = f ->
  not_safe d (lease_instance k) = false.
Proof.
  intros H k l Hk Hf. pose proof (filter_empty _ _ H (k, l) ltac:(by apply elem_of_map_to_list)) as E. cbn in E.
  unfold str_eqb in E. by rewrite bool_decide_eq_true_2 in E by done.
Qed.

Lemma previousLeasesSafe_true now f desired d d' : previousLeasesSafe now f desired d = Returns (true, d') ->
  d' = d /\ forall k l, db_leases d !! k = Some l -> ls_forward_id l = f ->
    lease_over now (concat (map (fun node => map (fun a => instance_text (assignment_instance node.1 a)) node.2) desired)) d k l.
Proof.
  unfold previousLeasesSafe. intros (leases & d1 & [-> ->]%query_Returns & [E ->]%mret_Returns)%tx_bind_Returns. split; [done|]. intros k l Hk Hf. symmetry in E.
  rewrite forallb_forall in E. unfold lease_over.
  destruct (not_safe d (lease_instance k)) eqn:En; [|by left]. destruct (Z.ltb_spec now (ls_valid_until l + 5000)) as [Hlt|Hge]; [|by right; left].
  right. right. apply includes_true. apply (E (k, l)). apply filter_In. split; [by apply list_elem_of_In, elem_of_map_to_list|].
  cbn. unfold str_eqb. rewrite bool_decide_eq_true_2 by done. rewrite En. by rewrite (proj2 (Z.ltb_lt _ _) Hlt).
Qed.

(** The instances of the Forward in the Snapshot that was reported on. *)
Definition current_of (nodeId : jsstr) (s : option RuntimeSnapshot) (f : jsstr) : list jsstr :=
  map (fun a => instance_text (assignment_instance nodeId a))
    (match s with Some s => List.filter (fun a => str_eqb (rua_forwardId a) f) (rus_assignments s) | None => [] end).

(** Slots are only released, and only of Forwards that leave nothing running. *)
Record completes (now : Z) (current : jsstr -> list jsstr) (d d' : Db) : Prop := {
  co_retirements : db_retirements d' = db_retirements d;
  co_leases : db_leases d' = db_leases d;
  co_slots : forall k, slot d' k = slot d k \/
    exists f, owner d k = Some f /\ slot d' k = free (slot d k) /\ releasable now (current f) d f;
}.

Lemma releasable_same now current d d' f : db_retirements d' = db_retirements d -> db_leases d' = db_leases d ->
  releasable now current d f <-> releasable now current d' f.
Proof. intros Hr Hl. split; intros [A B]; split; unfold lease_over, not_safe in *; rewrite ?Hr, ?Hl in *; done. Qed.

#[export] Instance completes_preorder now current : PreOrder (completes now current).
Proof.
  split; [intros d; split; [done..|by left]|]. intros d d1 d2 [R1 L1 S1] [R2 L2 S2]. split; [congruence..|]. intros k.
  destruct (S1 k) as [E1|(f & O1 & E1 & Hre)], (S2 k) as [E2|(g & O2 & E2 & Hre2)].
  - left. congruence.
  - right. exists g. unfold owner in *. rewrite E1 in *. split_and!; try done. by rewrite (releasable_same _ _ d d1) by done.
  - right. exists f. rewrite E2. done.
  - unfold owner in O2. rewrite E1 in O2. done.
Qed.

(** A statement on a table other than slots, retirements and leases. *)
Lemma completes_other now current f :
  (forall d, (db_retirements (f d), db_leases (f d), db_port_slots (f d)) = (db_retirements d, db_leases d, db_port_slots d)) ->
  evolves (completes now current) (modify f).
Proof. intros Hf. apply evolves_modify. intros d. specialize (Hf d). injection Hf as Hr Hl Hs. split; [done..|]. intros k. left. unfold slot. by rewrite Hs. Qed.

Lemma update_operations_completes now current where_ change : evolves (completes now current) (update_operations where_ change).
Proof. by apply completes_other. Qed.

Lemma clear_cleanup_completes now current f : evolves (completes now current) (clear_cleanup f).
Proof. apply update_operations_completes. Qed.

Lemma previousLeasesSafe_completes now current t f desired : evolves (completes now current) (previousLeasesSafe t f desired).
Proof. unfold previousLeasesSafe. evolve. Qed.

Lemma releases_completes now current f d d' : releasable now (current f) d f -> releases f d d' -> completes now current d d'.
Proof.
  intros Hre [[m ->] Hs]. split; [done..|]. intros k. destruct (Hs k) as [E|[O E]]; [by left|]. right. exists f. done.
Qed.

Lemma record_of_Returns scope forwardId d f deleting suspended d' :
  record_of scope forwardId d = Returns ((f, deleting, suspended), d') -> d' = d /\ id f = forwardId.
Proof.
  unfold record_of, find_forward. intros Hr. apply tx_bind_Returns in Hr as (r & d1 & Hf & [E ->]%mret_Returns). tx_inv.
  destruct (db_forwards d !! forwardId); tx_inv. by simplify_eq.
Qed.

Lemma finish_completes now current (f : jsstr) (release : tx unit) where_ change :
  evolves (releases f) release -> forall d, releasable now (current f) d f -> forall u d',
  (_ ← release; _ ← update_operations where_ change; clear_cleanup f) d = Returns (u, d') -> completes now current d d'.
Proof.
  intros Hrel d Hre u d' Hr. tx_inv. etransitivity; [eapply releases_completes; [exact Hre|by eapply Hrel]|].
  etransitivity; [by eapply update_operations_completes|by eapply clear_cleanup_completes].
Qed.

Lemma complete_one_completes now nodeId latest_snapshot report s op :
  evolves (completes now (current_of nodeId s)) (complete_one now nodeId latest_snapshot report s op).
Proof.
  unfold complete_one. intros d u d' Hr. apply tx_bind_Returns in Hr as ([[f deleting] suspended] & d1 & Hrec & Hr).
  apply record_of_Returns in Hrec as [-> Hid]. destruct (bool_decide _) in Hr; [by tx_inv|].
  apply tx_bind_Returns in Hr as (pending & d1 & [-> ->]%query_Returns & Hr).
  destruct (length (pending_of (op_forward_id op.2) d) =? 0)%nat eqn:Hpend; cbn [negb] in Hr; [|by tx_inv].
  apply Nat.eqb_eq in Hpend. rewrite <- Hid in Hpend. pose proof (pending_none _ _ Hpend) as Hret. cbn zeta in Hr.
  apply tx_bind_Returns in Hr as (unsafe & d1 & [-> ->]%query_Returns & Hr).
  set (cur := current_of nodeId s) in *. set (stopped := deleting || _ || _) in Hr. set (none := match latest_snapshot with Some _ => _ | None => _ end) in Hr.
  destruct (stopped && none && _) eqn:E1 in Hr; [|destruct (bool_decide _ && none && _) eqn:E2 in Hr; [|destruct (negb stopped && _) eqn:E3 in Hr; [|by tx_inv]]].
  - propify. assert (Hre : releasable now (cur (id f)) d (id f)) by (split; [done|]; intros k l Hk Hf; left; by eapply unsafe_none).
    destruct deleting; by eapply (finish_completes now cur (id f)); [| |exact Hr]; eauto using releaseForwardSlots_releases, releaseObsoleteSlots_releases.
  - propify. assert (Hre : releasable now (cur (id f)) d (id f)) by (split; [done|]; intros k l Hk Hf; left; by eapply unsafe_none).
    tx_inv. etransitivity; [eapply releases_completes; [exact Hre|by eapply releaseObsoleteSlots_releases]|by eapply update_operations_completes].
  - apply tx_bind_Returns in Hr as (safe & d1 & Hsafe & Hr). destruct safe; cbn [negb] in Hr.
    + apply previousLeasesSafe_true in Hsafe as [-> Hover]. cbn in Hover. rewrite app_nil_r in Hover.
      assert (Hre : releasable now (cur (id f)) d (id f)) by (split; [done|]; exact Hover).
      eapply (finish_completes now cur (id f)); [|exact Hre|exact Hr]. apply releaseObsoleteSlots_releases.
    + tx_inv. by eapply previousLeasesSafe_completes.
Qed.

Lemma authoritative_reads nodeId d l d' : authoritative nodeId d = Returns (l, d') -> d' = d.
Proof. unfold authoritative. intros Hr. tx_inv. by apply select_Returns in Hrun as [-> _]. Qed.

Lemma complete_parts now nodeId report s d u d' : complete now nodeId report s d = Returns (u, d') ->
  exists d1, db_leases d1 = db_leases d /\ db_port_slots d1 = db_port_slots d /\ completes now (current_of nodeId s) d1 d' /\
  forall k r', db_retirements d1 !! k = Some r' -> exists r, db_retirements d !! k = Some r /\
    (r' = r \/ r' = set_safe r /\ outstanding now k r d = []).
Proof.
  unfold complete. intros Hr.
  apply tx_bind_Returns in Hr as (l & d0 & ->%authoritative_reads & Hr). tx_inv.
  apply select_Returns in Hrun as [-> Hsel]. apply settle_loop in Hrun0 as (Hl & Hs & Hret).
  eexists. split_and!; [exact Hl|exact Hs| |].
  - eapply evolves_for_each; [apply _|apply _|intros x; apply complete_one_completes|exact Hr].
  - intros k r' Hk. destruct (Hret k) as [E|[E (r & Hin & Ho)]]; rewrite E in Hk; [by eauto|].
    apply Hsel in Hin as [Hin _]. rewrite Hin in Hk. cbn in Hk. injection Hk as <-. exists r. split; [done|]. by right.
Qed.


(** A Forward under deletion, whose Node was last given an empty Snapshot. *)
Definition deleting_state : Db :=
  let node := ingress_nodeId example_spec in
  let op := MkOperation (js "s1") (js "f1") 4 k_delete s_running 601000 (Some (js "t1")) (Some 16000) true None None None 1000 1000
              (js "u1") (js "k1") (js "sha256:00") 1 None false in
  let s := MkRuntimeSnapshot false node 1 1 (js "1970-01-01T00:00:01.000Z") (js "1970-01-01T00:00:31.000Z") (js "sha256:00") [] [] in
  with_forwards (insert (js "f1") (MkForwardRow (js "s1") 4 example_spec true false (Some (js "u1"))))
    (with_operations (insert (js "o1") op)
      (with_port_slots (insert (node, tcp, 8080) (MkSlotRow (Some (js "f1")) 3 1))
        (with_snapshots (insert (node, 1) (MkSnapshotRow 1 31000 s)) empty_db))).

Lemma deleting_completes : exists d', complete 2000 (ingress_nodeId example_spec) None None deleting_state = Returns (tt, d') /\
  slot d' (ingress_nodeId example_spec, tcp, 8080) = MkSlotRow None 3 1.
Proof. eexists. split; vm_compute; reflexivity. Qed.

