(* ===== verification/Identity.v ===== *)
(** Accounts, scopes and their members (apps/control/src/modules/identity.ts and
    identity-credentials.ts). *)

From S2P Require Import Prelude.
From S2P Require Import JsString.
From S2P Require Import Primitives.
From S2P Require Import Json.
From S2P Require Import Digest.
From S2P Require Import Relay.
From S2P Require Import Store.

Local Open Scope Z_scope.

Definition invalid_input {A} (message : string) : tx A := throw "INVALID_CONFIG" message.
Definition notFound {A} : tx A := throw "NOT_FOUND" "Resource not found".

(** [/^[A-Za-z0-9_-]+$/] *)
Definition is_token_char (c : Z) : bool := is_alnum c || (c =? 95) || (c =? ch_dash).

Definition validBearerToken (value : jsstr) : bool :=
  (32 <=? length value)%nat && (length value <=? 128)%nat &&
  negb (existsb (fun c => (c =? 13) || (c =? 10)) value) && forallb is_token_char value.

(** [header.match(/^Bearer ([A-Za-z0-9_-]{32,128})$/)?.[1]] *)
Definition bearer (header : jsstr) : option jsstr :=
  let token := drop 7 header in
  if str_eqb (take 7 header) (js "Bearer ") && (32 <=? length token)%nat && (length token <=? 128)%nat && forallb is_token_char token
  then Some token else None.

Inductive MemberRole := manager | viewer | removed.

#[export] Instance MemberRole_eq_dec : EqDecision MemberRole.
Proof. solve_decision. Defined.

Definition role_text (r : MemberRole) : jsstr :=
  match r with manager => js "manager" | viewer => js "viewer" | removed => js "removed" end.

Record MemberChangeState := MkMemberChange {
  mc_actorId : jsstr; mc_revision : Z; mc_role : MemberRole; mc_active : bool; mc_changed : bool;
}.

Section Identity.
Context `{Hashing}.

(** UTF-8 of an ASCII token is its text. *)
Definition tokenHash (token : jsstr) : jsstr := sha256_hex token.

(** [INSERT INTO accounts]: the identifier and the token hash are unique. *)
Definition insert_account (actorId hash : jsstr) : tx unit :=
  taken ← query (fun d => existsb (fun ah : jsstr * jsstr => str_eqb ah.2 hash) (map_to_list (db_accounts d)));
  _ ← require (negb taken) "ER_DUP_ENTRY" "Duplicate entry";
  insert_row db_accounts with_accounts actorId hash.

(** [UPDATE accounts SET token_hash=? WHERE id=?] with a fresh random token, which is not in use. *)
Definition replace_token (account : jsstr) (token : jsstr) : tx unit :=
  modify (with_accounts (alter (fun _ => tokenHash token) account)).

(** [tokens] are the random tokens of the accounts, in the order of their identifiers; the
    third component of a result tells an owner. *)
Definition quarantineIdentity (tokens : jsstr -> jsstr) : tx (list (jsstr * jsstr * bool)) :=
  accounts ← query (fun d => sort_by str_leb (map fst (map_to_list (db_accounts d))));
  owners ← query (fun d => map snd (map_to_list (db_scopes d)));
  credentials ← collect_each (fun a => _ ← replace_token a (tokens a); mret (a, tokens a, includes owners a)) accounts;
  scopes ← query db_scopes;
  _ ← modify (with_members (update_where (fun k _ => negb (bool_decide (scopes !! k.1 = Some k.2)) && bool_decide (is_Some (scopes !! k.1)))
                 (fun _ m => MkMemberRow false false (mb_revision m))));
  mret credentials.

Definition bootstrap (scopeId actorId token : jsstr) : tx unit :=
  _ ← require (is_id scopeId && is_id actorId && validBearerToken token) "Error" "Bootstrap requires valid IDs and a random bearer token";
  _ ← insert_account actorId (tokenHash token);
  _ ← insert_row db_scopes with_scopes scopeId actorId;
  insert_row db_members with_members (scopeId, actorId) (MkMemberRow true true 1).

Definition authenticate (header : option jsstr) : tx jsstr :=
  match header ≫= bearer with
  | None => throw "UNAUTHENTICATED" "Valid bearer identity required"
  | Some token =>
      found ← query (fun d => find (fun ah : jsstr * jsstr => str_eqb ah.2 (tokenHash token)) (map_to_list (db_accounts d)));
      match found with Some (account, _) => mret account | None => throw "UNAUTHENTICATED" "Valid bearer identity required" end
  end.

(** An active member of the scope. *)
Definition member (scopeId actorId : jsstr) (d : Db) : option MemberRow :=
  m ← db_members d !! (scopeId, actorId); if mb_active m then Some m else None.

Definition scope (actorId scopeId : jsstr) (manage : bool) : tx unit :=
  m ← query (member scopeId actorId);
  match m with
  | None => notFound
  | Some m => require (negb (manage && negb (mb_can_manage m))) "AUTHORIZATION_DENIED" "Scope management permission required"
  end.

Definition owner (actorId scopeId : jsstr) : tx unit :=
  _ ← scope actorId scopeId true;
  o ← query (fun d => db_scopes d !! scopeId);
  require (bool_decide (o = Some actorId)) "AUTHORIZATION_DENIED" "Scope owner permission required".

Definition executing (actorId scopeId : jsstr) : tx bool :=
  m ← query (member scopeId actorId); mret (match m with Some m => mb_can_manage m | None => false end).

Definition audit_access (now : Z) (scopeId actor subject : jsstr) (kind : string) (revision : Z) (details : json) : tx unit :=
  modify (with_access_events (fun l => l ++ [MkAccessEvent scopeId actor subject (js kind) revision now details])).

(** A new account needs a token; an existing one keeps its own. *)
Definition check_account (subject : jsstr) (role : MemberRole) (token : option jsstr) : tx unit :=
  account ← query (fun d => db_accounts d !! subject);
  match account, token with
  | None, Some t =>
      if bool_decide (role = removed) then invalid_input "New accounts require a bearer token and active role" else
      taken ← query (fun d => existsb (fun ah : jsstr * jsstr => str_eqb ah.2 (tokenHash t)) (map_to_list (db_accounts d)));
      _ ← require (negb taken) "ACCOUNT_CONFLICT" "Account identity or bearer credential already exists";
      modify (with_accounts (insert subject (tokenHash t)))
  | None, None => invalid_input "New accounts require a bearer token and active role"
  | Some hash, Some t =>
      require (str_eqb hash (tokenHash t)) "ACCOUNT_CONFLICT" "Existing account credential cannot be replaced by a membership command"
  | Some _, None => mret tt
  end.

Definition changeMember (now : Z) (owner_ scopeId subject : jsstr) (expectedRevision : Z) (role : MemberRole) (token : option jsstr)
    : tx MemberChangeState :=
  _ ← require (is_id subject && is_counter true expectedRevision && match token with Some t => validBearerToken t | None => true end)
        "INVALID_CONFIG" "Valid member ID, expectedRevision, role and optional bearer token required";
  _ ← owner owner_ scopeId;
  scope_owner ← query (fun d => db_scopes d !! scopeId);
  _ ← require (negb (bool_decide (scope_owner = Some subject))) "OWNER_PROTECTED" "The scope owner cannot be removed or demoted";
  current ← query (fun d => db_members d !! (scopeId, subject));
  _ ← require (match current with Some m => mb_revision m | None => 0 end =? expectedRevision) "REVISION_CONFLICT" "Member revision conflict";
  _ ← check_account subject role token;
  let active := negb (bool_decide (role = removed)) in
  let manage := bool_decide (role = manager) in
  let changed := match current with
                 | Some m => negb (Bool.eqb (mb_active m) active) || negb (Bool.eqb (mb_can_manage m) manage)
                 | None => true
                 end in
  let revision := if changed then expectedRevision + 1 else expectedRevision in
  _ ← require (revision <=? MAX_COUNTER) "REVISION_EXHAUSTED" "Member revision exhausted";
  _ ← (if changed then
         _ ← modify (with_members (insert (scopeId, subject) (MkMemberRow manage active revision)));
         audit_access now scopeId owner_ subject "member_change" revision (JObj [(js "role", JStr (role_text role))])
       else mret tt);
  mret (MkMemberChange subject revision role active changed).

(** The role shown for a member. *)
Definition shown_role (scope_owner actor : jsstr) (m : MemberRow) : jsstr :=
  if str_eqb actor scope_owner then js "owner" else if negb (mb_active m) then js "removed" else
  if mb_can_manage m then js "manager" else js "viewer".

Definition listMembers (actor scopeId : jsstr) : tx (list (jsstr * Z * bool * jsstr)) :=
  _ ← owner actor scopeId;
  members ← select db_members (fun k _ => str_eqb k.1 scopeId);
  scope_owner ← query (fun d => db_scopes d !! scopeId);
  mret (match scope_owner with
        | None => []
        | Some o => map (fun km : (jsstr * jsstr) * MemberRow => (km.1.2, mb_revision km.2, mb_active km.2, shown_role o km.1.2 km.2))
                      (sort_by (fun a b => str_leb a.1.2 b.1.2) members)
        end).
End Identity.

(** ** Every scope keeps its owner *)

(** The owner of every scope is an active member who may manage it. *)
Definition owners_manage (d : Db) : Prop :=
  forall s o, db_scopes d !! s = Some o -> exists m, member s o d = Some m /\ mb_can_manage m = true.

(** Nobody changes the owner's membership or the owner. *)
Definition keeps_owners (d d' : Db) : Prop :=
  forall s o, db_scopes d !! s = Some o -> db_scopes d' !! s = Some o /\ db_members d' !! (s, o) = db_members d !! (s, o).

Section Theorems.
Context `{Hashing}.

(** The commands on identities, among transactions that leave scopes and members alone. *)
Inductive identity_step : Db -> Db -> Prop :=
  | is_bootstrap scopeId actorId token u d d' : bootstrap scopeId actorId token d = Returns (u, d') -> identity_step d d'
  | is_member now owner_ scopeId subject expected role token r d d' :
      changeMember now owner_ scopeId subject expected role token d = Returns (r, d') -> identity_step d d'
  | is_quarantine tokens r d d' : quarantineIdentity tokens d = Returns (r, d') -> identity_step d d'
  | is_other d d' : db_scopes d' = db_scopes d -> db_members d' = db_members d -> identity_step d d'.

Lemma scope_Returns a s m d u d' : scope a s m d = Returns (u, d') ->
  d' = d /\ exists row, member s a d = Some row /\ (m = true -> mb_can_manage row = true).
Proof.
  unfold scope. intros Hr. tx_inv. destruct (member s a d) as [row|]; [|done]. tx_inv. split; [done|]. exists row. split; [done|].
  intros ->. by destruct (mb_can_manage row).
Qed.

Lemma owner_Returns a s d u d' : owner a s d = Returns (u, d') -> d' = d /\ db_scopes d !! s = Some a.
Proof.
  unfold owner. intros Hr. apply tx_bind_Returns in Hr as ([] & d1 & [-> _]%scope_Returns & Hr). tx_inv.
  by apply bool_decide_eq_true in Hr.
Qed.

Lemma check_account_keeps subject role token d u d' : check_account subject role token d = Returns (u, d') ->
  db_scopes d' = db_scopes d /\ db_members d' = db_members d.
Proof.
  unfold check_account. intros Hr. tx_inv. destruct (db_accounts d !! subject), token; try destruct (bool_decide _); tx_inv; done.
Qed.

(** What a successful [changeMember] did. *)
Lemma changeMember_Returns now owner_ s subject expected role token d r d' :
  changeMember now owner_ s subject expected role token d = Returns (r, d') ->
  db_scopes d !! s = Some owner_ /\ subject <> owner_ /\
  (match db_members d !! (s, subject) with Some m => mb_revision m | None => 0 end) = expected /\
  db_scopes d' = db_scopes d /\ mc_revision r <= MAX_COUNTER /\
  (if mc_changed r then mc_revision r = expected + 1 /\
     db_members d' = <[(s, subject) := MkMemberRow (bool_decide (role = manager)) (negb (bool_decide (role = removed))) (mc_revision r)]> (db_members d)
   else mc_revision r = expected /\ db_members d' = db_members d).
Proof.
  unfold changeMember. intros Hr.
  apply tx_bind_Returns in Hr as ([] & d0 & [_ ->]%require_Returns & Hr).
  apply tx_bind_Returns in Hr as ([] & d1 & [-> Hown]%owner_Returns & Hr).
  apply tx_bind_Returns in Hr as (o & d1 & [-> ->]%query_Returns & Hr). rewrite Hown in Hr.
  apply tx_bind_Returns in Hr as ([] & d1 & [Hne ->]%require_Returns & Hr). apply negb_true_iff, bool_decide_eq_false in Hne.
  apply tx_bind_Returns in Hr as (m & d1 & [-> ->]%query_Returns & Hr).
  apply tx_bind_Returns in Hr as ([] & d1 & [Hrev ->]%require_Returns & Hr). apply Z.eqb_eq in Hrev.
  apply tx_bind_Returns in Hr as ([] & d1 & [Hs Hm]%check_account_keeps & Hr). cbn zeta in Hr.
  apply tx_bind_Returns in Hr as ([] & d2 & [Hmax ->]%require_Returns & Hr). apply Z.leb_le in Hmax.
  apply tx_bind_Returns in Hr as ([] & d2 & Hw & [-> ->]%mret_Returns). cbn [mc_changed mc_revision].
  destruct (match db_members d !! (s, subject) with Some _ => _ | None => true end); unfold audit_access in Hw; tx_inv;
    split_and!; try done; try congruence; cbn; by f_equal.
Qed.

Lemma changeMember_keeps now owner_ s subject expected role token d r d' :
  changeMember now owner_ s subject expected role token d = Returns (r, d') -> keeps_owners d d'.
Proof.
  intros (Hown & Hne & _ & Hs & _ & Hm)%changeMember_Returns t o Ho. rewrite Hs. split; [done|].
  destruct (mc_changed r); destruct Hm as [_ ->]; [|done]. rewrite lookup_insert_ne; [done|]. congruence.
Qed.

(** Everyone but the owners loses access. *)
Definition demote (scopes : gmap jsstr jsstr) (members : gmap (jsstr * jsstr) MemberRow) : gmap (jsstr * jsstr) MemberRow :=
  update_where (fun k _ => negb (bool_decide (scopes !! k.1 = Some k.2)) && bool_decide (is_Some (scopes !! k.1)))
    (fun _ m => MkMemberRow false false (mb_revision m)) members.

Lemma quarantine_Returns tokens d r d' : quarantineIdentity tokens d = Returns (r, d') ->
  db_scopes d' = db_scopes d /\ db_members d' = demote (db_scopes d) (db_members d).
Proof.
  unfold quarantineIdentity. intros Hr. tx_inv.
  set (R := fun e e' : Db => db_scopes e' = db_scopes e /\ db_members e' = db_members e).
  assert (PreOrder R) by (split; [done|]; intros x y z [] []; split; congruence).
  match goal with Hc : collect_each _ _ _ = _ |- _ => apply (evolves_collect_each R) in Hc as [Hs Hm] end.
  - split; [exact Hs|]. cbn. fold (db_scopes d). unfold demote. cbv beta. rewrite <- Hs, <- Hm. done.
  - intros a. apply evolves_bind; [apply _|apply _|apply evolves_modify; by split|intros _; apply evolves_ret; apply _].
Qed.

Lemma quarantine_keeps tokens d r d' : quarantineIdentity tokens d = Returns (r, d') -> keeps_owners d d'.
Proof.
  intros [Hs Hm]%quarantine_Returns t o Ho. rewrite Hs, Hm. split; [done|]. unfold demote. rewrite update_where_lookup.
  destruct (db_members d !! (t, o)) as [m|]; [|done]. cbn [fmap option_fmap option_map fst snd].
  by rewrite (bool_decide_eq_true_2 (db_scopes d !! t = Some o)).
Qed.

Lemma bootstrap_Returns s a token d u d' : bootstrap s a token d = Returns (u, d') ->
  db_scopes d !! s = None /\ db_scopes d' = <[s := a]> (db_scopes d) /\
  db_members d !! (s, a) = None /\ db_members d' = <[(s, a) := MkMemberRow true true 1]> (db_members d).
Proof.
  unfold bootstrap, insert_account. intros Hr. tx_inv. apply insert_row_Returns in Hrun0 as [_ ->], Hrun1 as [Hs ->], Hr as [Hm ->]. done.
Qed.

Lemma keeps_owners_manage d d' : keeps_owners d d' -> db_scopes d' = db_scopes d -> owners_manage d -> owners_manage d'.
Proof.
  intros Hk Hs Ho s o Hso. rewrite Hs in Hso. destruct (Hk s o Hso) as [_ Hm]. destruct (Ho s o Hso) as (m & Hmem & Hman).
  exists m. unfold member in *. by rewrite Hm.
Qed.

Lemma identity_step_manage d d' : identity_step d d' -> keeps_owners d d' /\ (owners_manage d -> owners_manage d').
Proof.
  destruct 1 as [s a token u d d' Hr|now owner_ s subject expected role token r d d' Hr|tokens r d d' Hr|d d' Es Em].
  - apply bootstrap_Returns in Hr as (Hn & Es & Hm & Em).
    assert (Hk : keeps_owners d d').
    { intros t o Ho. rewrite Es, Em. assert (t <> s) by congruence. rewrite !lookup_insert_ne by congruence. done. }
    split; [done|]. intros Ho t o. rewrite Es. destruct (decide (t = s)) as [->|Hts].
    + rewrite lookup_insert_eq. intros [= <-]. exists (MkMemberRow true true 1). unfold member. rewrite Em, lookup_insert_eq. done.
    + rewrite lookup_insert_ne by done. intros Hto. destruct (Hk t o Hto) as [_ Hmo]. destruct (Ho t o Hto) as (m & Hmem & Hman).
      exists m. unfold member in *. by rewrite Hmo.
  - split; [by eapply changeMember_keeps|]. apply keeps_owners_manage; [by eapply changeMember_keeps|]. by apply changeMember_Returns in Hr as (_ & _ & _ & Hs & _).
  - split; [by eapply quarantine_keeps|]. apply keeps_owners_manage; [by eapply quarantine_keeps|]. by apply quarantine_Returns in Hr as [Hs _].
  - assert (keeps_owners d d') by (intros t o Ho; by rewrite Es, Em). split; [done|]. by apply keeps_owners_manage.
Qed.

(** A scope never loses its owner.  Through any sequence of bootstraps, membership
    changes, recovery quarantines and other transactions, every scope keeps its owner
    and the owner's membership unchanged, so from a state where owners may manage their
    scopes they always can; and a membership change is a compare-and-set: it succeeds
    only for the owner, on another member whose stored revision is the expected one,
    and moves that revision by exactly one when, and only when, it changes the row. *)
Theorem owner_protected (d d' : Db) : owners_manage d -> rtc identity_step d d' ->
  (owners_manage d' /\ keeps_owners d d') /\
  forall now owner_ s subject expected role token r d2, changeMember now owner_ s subject expected role token d' = Returns (r, d2) ->
    db_scopes d' !! s = Some owner_ /\ subject <> owner_ /\
    (match db_members d' !! (s, subject) with Some m => mb_revision m | None => 0 end) = expected /\
    mc_revision r = (if mc_changed r then expected + 1 else expected) /\ mc_revision r <= MAX_COUNTER /\
    (forall k, k <> (s, subject) -> db_members d2 !! k = db_members d' !! k).
Proof.
  intros Ho Hrun. split.
  - induction Hrun as [d|d d1 d2 Hs _ IH]; [split; [done|]; by intros t o Ht|].
    apply identity_step_manage in Hs as [Hk Hm]. destruct IH as [Hm2 Hk2]; [by apply Hm|]. split; [done|].
    intros t o Ht. destruct (Hk t o Ht) as [Ht1 E1]. destruct (Hk2 t o Ht1) as [Ht2 E2]. split; [done|congruence].
  - intros now owner_ s subject expected role token r d2 (H1 & H2 & H3 & H4 & H5 & H6)%changeMember_Returns.
    split_and!; try done; [by destruct (mc_changed r), H6|]. intros k Hk. destruct (mc_changed r); destruct H6 as [_ ->]; [|done].
    by rewrite lookup_insert_ne.
Qed.
End Theorems.

Definition bootstrapped `{Hashing} : outcome (unit * Db) := bootstrap (js "s1") (js "u1") (js "0123456789abcdef0123456789abcdef") empty_db.

Lemma bootstrapped_Returns : exists d, @bootstrapped example_hashing = Returns (tt, d).
Proof. eexists. vm_compute. reflexivity. Qed.

Lemma owner_protected_witness : exists d, @bootstrapped example_hashing = Returns (tt, d) /\ owners_manage d.
Proof.
  destruct bootstrapped_Returns as [d E]. exists d. split; [exact E|].
  refine (proj1 (proj1 (@owner_protected example_hashing empty_db d _ (rtc_once _ _ (is_bootstrap _ _ _ _ _ _ E))))).
  intros s o Ho. discriminate Ho.
Defined.
