(* ===== verification/Nodes.v ===== *)
(** Nodes, their machine credentials, grants and policies
    (apps/control/src/modules/nodes.ts).

    The certificate authority (infrastructure/pki.ts, which calls a cryptographic library) is
    the parameter [sign]; random identifiers and tokens are arguments.  An operation
    that reads the clock again after signing takes that second reading as [later]. *)

From S2P Require Import Prelude.
From S2P Require Import JsString.
From S2P Require Import JsValue.
From S2P Require Import Primitives.
From S2P Require Import Json.
From S2P Require Import Forward.
From S2P Require Import Digest.
From S2P Require Import Types.
From S2P Require Import Relay.
From S2P Require Import TargetPolicy.
From S2P Require Import Endpoint.
From S2P Require Import RelayPlan.
From S2P Require Import Iso.
From S2P Require Import Store.
From S2P Require Import Operations.
From S2P Require Import Retirements.
From S2P Require Import Identity.

Local Open Scope Z_scope.

(** [NodePolicy]: the facts an operator decides. *)
Record NodePolicy := MkNodePolicy {
  np_allowedListenerAddresses : list jsstr; np_allowedPorts : list Z; np_egressPolicyRevision : Z;
  np_allowedDestinationCidrs : list jsstr; np_allowMetadataTargets : bool;
}.

Definition policy_jsv (p : NodePolicy) : jsv :=
  Obj [(js "allowedListenerAddresses", Arr (map Str (np_allowedListenerAddresses p)));
       (js "allowedPorts", Arr (map (fun x => Num (NInt x)) (np_allowedPorts p)));
       (js "egressPolicyRevision", Num (NInt (np_egressPolicyRevision p)));
       (js "allowedDestinationCidrs", Arr (map Str (np_allowedDestinationCidrs p)));
       (js "allowMetadataTargets", Bool (np_allowMetadataTargets p))].

(** [{...policy, nodeId, scopeId, capabilities}] *)
Definition policy_facts (p : NodePolicy) (nodeId scopeId : jsstr) (capabilities : list jsstr) : AuthorizedNodeFacts :=
  MkNodeFacts nodeId scopeId capabilities (np_allowedListenerAddresses p) (np_allowedPorts p) (np_egressPolicyRevision p)
    (np_allowedDestinationCidrs p) (np_allowMetadataTargets p).

Record SignedCertificate := MkSigned { sg_certificate : jsstr; sg_ca : jsstr; sg_fingerprint : jsstr; sg_until : Z }.

(** ** Row updates *)

Definition set_node_facts (facts : AuthorizedNodeFacts) (n : NodeRow) : NodeRow :=
  MkNodeRow (nd_scope_id n) (nd_enrollment_hash n) (nd_enrollment_until n) (nd_csr_digest n) (nd_credential_fingerprint n)
    (nd_credential_until n) (nd_enrollment_response n) (nd_revoked n) facts (nd_grant_revision n).
Definition set_node_revoked (n : NodeRow) : NodeRow :=
  MkNodeRow (nd_scope_id n) (nd_enrollment_hash n) (nd_enrollment_until n) (nd_csr_digest n) (nd_credential_fingerprint n)
    (nd_credential_until n) (nd_enrollment_response n) true (nd_facts n) (nd_grant_revision n).
Definition set_grant_revision (revision : Z) (n : NodeRow) : NodeRow :=
  MkNodeRow (nd_scope_id n) (nd_enrollment_hash n) (nd_enrollment_until n) (nd_csr_digest n) (nd_credential_fingerprint n)
    (nd_credential_until n) (nd_enrollment_response n) (nd_revoked n) (nd_facts n) revision.
Definition set_node_credential (fingerprint : jsstr) (until : Z) (n : NodeRow) : NodeRow :=
  MkNodeRow (nd_scope_id n) (nd_enrollment_hash n) (nd_enrollment_until n) (nd_csr_digest n) (Some fingerprint)
    (Some until) (nd_enrollment_response n) (nd_revoked n) (nd_facts n) (nd_grant_revision n).
Definition set_enrolled (csrDigest : jsstr) (response : json) (n : NodeRow) : NodeRow :=
  MkNodeRow (nd_scope_id n) (nd_enrollment_hash n) (nd_enrollment_until n) (Some csrDigest) (nd_credential_fingerprint n)
    (nd_credential_until n) (Some response) (nd_revoked n) (nd_facts n) (nd_grant_revision n).
Definition set_credential_revoked (c : CredentialRow) : CredentialRow :=
  MkCredentialRow (cr_node_id c) (cr_issued_at c) (cr_valid_until c) (cr_retire_after c) true (cr_certificate c).
Definition set_retire_after (until : Z) (c : CredentialRow) : CredentialRow :=
  MkCredentialRow (cr_node_id c) (cr_issued_at c) (cr_valid_until c) (Some until) (cr_revoked c) (cr_certificate c).

Definition quarantineNodes : tx unit :=
  _ ← modify (with_nodes (fmap set_node_revoked));
  _ ← modify (with_credentials (fmap set_credential_revoked));
  modify (with_relay_credentials (fmap set_credential_revoked)).

(** [c.retire_after IS NULL OR c.retire_after>?] *)
Definition not_retired (now : Z) (c : CredentialRow) : bool :=
  match cr_retire_after c with Some t => now <? t | None => true end.

(** ** Reads *)

(** [machine]: the Node a fingerprint authenticates. *)
Definition machine (now : Z) (fingerprint : jsstr) : tx jsstr :=
  row ← query (fun d => c ← db_credentials d !! fingerprint; n ← db_nodes d !! cr_node_id c;
                        if negb (cr_revoked c) && negb (nd_revoked n) && (now <? cr_valid_until c) && not_retired now c
                        then Some (cr_node_id c) else None);
  match row with Some nodeId => mret nodeId | None => throw "AUTHORIZATION_DENIED" "Node credential rejected" end.

Definition credential (now : Z) (nodeId fingerprint : jsstr) : tx Z :=
  row ← query (fun d => c ← db_credentials d !! fingerprint; n ← db_nodes d !! cr_node_id c;
                        if str_eqb (cr_node_id c) nodeId && negb (cr_revoked c) && negb (nd_revoked n) then Some c else None);
  let until := match row with Some c => Z.min (cr_valid_until c) (default (cr_valid_until c) (cr_retire_after c)) | None => 0 end in
  _ ← require (now <? until) "AUTHORIZATION_DENIED" "Node credential expired or withdrawn";
  mret until.

Record NodeState := MkNodeState { ns_facts : AuthorizedNodeFacts; ns_credentialUntil : Z; ns_revoked : bool }.

Definition state (nodeId : jsstr) : tx NodeState :=
  node ← query (fun d => db_nodes d !! nodeId);
  match node with
  | Some n => mret (MkNodeState (nd_facts n) (default 0 (nd_credential_until n)) (nd_revoked n))
  | None => notFound
  end.

Definition facts (now : Z) (nodeId : jsstr) : tx NodeState :=
  s ← state nodeId;
  _ ← require (negb (ns_revoked s || (ns_credentialUntil s <=? now))) "AUTHORIZATION_DENIED" "Node authorization expired";
  mret s.

Definition cleanupFacts (nodeId scopeId : jsstr) : tx AuthorizedNodeFacts :=
  s ← state nodeId;
  _ ← require (str_eqb (nf_scopeId (ns_facts s)) scopeId) "NOT_FOUND" "Resource not found";
  mret (ns_facts s).

Definition intentAllowed (n : AuthorizedNodeFacts) (f : Forward) : bool :=
  let s := spec f in
  str_eqb (nf_nodeId n) (ingress_nodeId s) && str_eqb (nf_scopeId n) (scopeId f) &&
  includes (nf_allowedListenerAddresses n) (address (ingress_listen s)) && includes (nf_allowedPorts n) (listen_port (ingress_listen s)) &&
  includes (nf_capabilities n) (js "adp.3") && includes (nf_capabilities n) (js "native.direct.v1") &&
  forallb (fun p => includes (nf_capabilities n) (protocol_name p)) (protocols s) && targetAllowed (host (target s)) n.

(** The actor holds a grant on a Node of the scope. *)
Definition granted (nodeId scopeId actor : jsstr) (d : Db) : bool :=
  match db_nodes d !! nodeId with
  | Some n => str_eqb (nd_scope_id n) scopeId && bool_decide ((nodeId, actor) ∈ db_node_grants d)
  | None => false
  end.

Definition authorized (now : Z) (actor : jsstr) (f : Forward) : tx AuthorizedNodeFacts :=
  _ ← scope actor (scopeId f) true;
  grant ← query (granted (ingress_nodeId (spec f)) (scopeId f) actor);
  _ ← require grant "NOT_FOUND" "Resource not found";
  s ← facts now (ingress_nodeId (spec f));
  _ ← require (intentAllowed (ns_facts s) f) "AUTHORIZATION_DENIED" "Forward violates Node network policy";
  mret (ns_facts s).

Definition authorizedRelayNode (now : Z) (actor scopeId nodeId : jsstr) : tx AuthorizedNodeFacts :=
  _ ← require (is_id nodeId) "INVALID_CONFIG" "Valid Relay Node ID required";
  _ ← scope actor scopeId true;
  grant ← query (granted nodeId scopeId actor);
  _ ← require grant "NOT_FOUND" "Resource not found";
  s ← facts now nodeId;
  mret (ns_facts s).

Definition hasGrant (nodeId actorId : jsstr) : tx bool := query (fun d => bool_decide ((nodeId, actorId) ∈ db_node_grants d)).

Definition canExecute (now : Z) (actorId : jsstr) (f : Forward) : tx bool :=
  running ← executing actorId (scopeId f);
  if negb running then mret false else
  grant ← hasGrant (ingress_nodeId (spec f)) actorId;
  if negb grant then mret false else
  s ← state (ingress_nodeId (spec f));
  mret (negb (ns_revoked s) && (now <? ns_credentialUntil s) && intentAllowed (ns_facts s) f).

Definition relayCredentialFacts (now : Z) (nodeId : jsstr) (currentOnly : bool) : tx (list PeerCredential) :=
  s ← state nodeId;
  _ ← require (negb (ns_revoked s || (ns_credentialUntil s <=? now))) "AUTHORIZATION_DENIED" "Node authorization expired";
  credentials ← select db_relay_credentials (fun _ c =>
    str_eqb (cr_node_id c) nodeId && negb (cr_revoked c) && (now <? cr_valid_until c) && not_retired now c &&
    (negb currentOnly || bool_decide (cr_retire_after c = None)));
  _ ← require ((1 <=? length credentials)%nat && (length credentials <=? 2)%nat) "AUTHORIZATION_DENIED" "Bounded Relay credentials required";
  mret (map (fun fc : jsstr * CredentialRow => MkPeerCredential (js "sha256:" ++ fc.1)
               (Z.min (Z.min (cr_valid_until fc.2) (default (cr_valid_until fc.2) (cr_retire_after fc.2))) (ns_credentialUntil s)))
          (sort_by (fun a b => str_leb a.1 b.1) credentials)).

(** ** Commands *)

Definition audit_node (now : Z) (nodeId : jsstr) (actor : option jsstr) (kind : string) (details : json) : tx unit :=
  modify (with_security_events (fun l => l ++ [MkSecurityEvent nodeId actor (js kind) now details])).

Section Commands.
Context `{Hashing} (sign : jsstr -> jsstr -> bool -> outcome SignedCertificate) (overlapSeconds relayCredentialSeconds : Z).

(** [tokenHash] is unique among the enrollments; [nodeId] and [token] are random. *)
Definition provision (now : Z) (nodeId token actor scope_ : jsstr) (policy : NodePolicy) : tx (jsstr * jsstr * jsstr) :=
  _ ← lift (validateNodePolicy (policy_jsv policy));
  _ ← scope actor scope_ true;
  _ ← insert_row db_nodes with_nodes nodeId
        (MkNodeRow scope_ (tokenHash token) (now + 600000) None None None None false (policy_facts policy nodeId scope_ []) 1);
  _ ← modify (with_node_grants (union {[(nodeId, actor)]}));
  _ ← initializeNode nodeId;
  expires ← lift (toISOString (now + 600000));
  mret (nodeId, token, expires).

(** [/^[A-Za-z0-9_-]{32,128}$/] and the CSR's size and prefix *)
Definition valid_csr (csr : jsstr) : bool :=
  (Z.of_nat (length csr) <=? 16384) && str_eqb (take 35 csr) (js "-----BEGIN CERTIFICATE REQUEST-----").
Definition valid_enrollment (nodeId token csr : jsstr) : bool :=
  is_id nodeId && (32 <=? length token)%nat && (length token <=? 128)%nat && forallb is_token_char token && valid_csr csr.

Definition csr_json (csr : jsstr) : json := JObj [(js "csr", JStr csr)].
Definition enrolled_json (s : SignedCertificate) : json := JObj [(js "certificate", JStr (sg_certificate s)); (js "ca", JStr (sg_ca s))].

Definition enroll (now later : Z) (nodeId token csr : jsstr) : tx json :=
  _ ← require (valid_enrollment nodeId token csr) "INVALID_CONFIG" "Invalid enrollment input";
  csrDigest ← lift (digest (csr_json csr));
  node ← query (fun d => db_nodes d !! nodeId);
  match node with
  | None => throw "AUTHORIZATION_DENIED" "Enrollment rejected"
  | Some n =>
      _ ← require (str_eqb (nd_enrollment_hash n) (tokenHash token) && negb (nd_revoked n) && (now <? nd_enrollment_until n))
            "AUTHORIZATION_DENIED" "Enrollment rejected";
      match nd_csr_digest n with
      | Some used =>
          _ ← require (str_eqb used csrDigest) "ENROLLMENT_USED" "Token already exchanged";
          mret (default JNull (nd_enrollment_response n))
      | None =>
          signed ← lift (sign nodeId csr false);
          _ ← require (later <? nd_enrollment_until n) "AUTHORIZATION_DENIED" "Enrollment token expired before acceptance";
          _ ← modify (with_nodes (alter (fun n => set_enrolled csrDigest (enrolled_json signed)
                                           (set_node_credential (sg_fingerprint signed) (sg_until signed) n)) nodeId));
          _ ← insert_row db_credentials with_credentials (sg_fingerprint signed)
                (MkCredentialRow nodeId later (sg_until signed) None false []);
          mret (enrolled_json signed)
      end
  end.

Definition management (actor scope_ nodeId : jsstr) : tx NodeRow :=
  _ ← scope actor scope_ true;
  node ← query (fun d => db_nodes d !! nodeId);
  match node with
  | None => notFound
  | Some n =>
      _ ← require (str_eqb (nd_scope_id n) scope_) "NOT_FOUND" "Resource not found";
      _ ← lockNode nodeId None;
      mret n
  end.

Record NodeGrantState := MkNodeGrant { ng_nodeId : jsstr; ng_actorId : jsstr; ng_revision : Z; ng_allowed : bool; ng_changed : bool }.

Definition changeGrant (now : Z) (owner_ scopeId nodeId subject : jsstr) (expectedRevision : Z) (allowed : bool) : tx NodeGrantState :=
  _ ← require (is_id subject && is_counter false expectedRevision) "INVALID_CONFIG" "Valid grant subject, revision and allowed flag required";
  _ ← owner owner_ scopeId;
  node ← management owner_ scopeId nodeId;
  _ ← require (nd_grant_revision node =? expectedRevision) "REVISION_CONFLICT" "Node grants revision conflict";
  _ ← (if allowed then
         _ ← require (negb (nd_revoked node)) "AUTHORIZATION_DENIED" "Cannot grant a revoked Node";
         scope subject scopeId true
       else mret tt);
  previous ← hasGrant nodeId subject;
  let changed := negb (Bool.eqb previous allowed) in
  let revision := nd_grant_revision node + (if changed then 1 else 0) in
  _ ← require (revision <=? MAX_COUNTER) "REVISION_EXHAUSTED" "Node grant revision exhausted";
  _ ← (if changed then
         _ ← modify (with_node_grants (fun g => if allowed then {[(nodeId, subject)]} ∪ g else g ∖ {[(nodeId, subject)]}));
         _ ← modify (with_nodes (alter (set_grant_revision revision) nodeId));
         audit_access now scopeId owner_ subject "node_grant_change" revision
           (JObj [(js "nodeId", JStr nodeId); (js "allowed", JBool allowed)])
       else mret tt);
  mret (MkNodeGrant nodeId subject revision allowed changed).

Definition listGrants (actor scopeId nodeId : jsstr) : tx (jsstr * Z * list jsstr) :=
  _ ← owner actor scopeId;
  node ← query (fun d => db_nodes d !! nodeId);
  match node with
  | None => notFound
  | Some n =>
      _ ← require (str_eqb (nd_scope_id n) scopeId) "NOT_FOUND" "Resource not found";
      grants ← query (fun d => List.filter (fun g : jsstr * jsstr => str_eqb g.1 nodeId) (base.elements (db_node_grants d)));
      mret (nodeId, nd_grant_revision n, sort_by str_leb (map snd grants))
  end.

Definition with_capabilities (capabilities : list jsstr) (n : AuthorizedNodeFacts) : AuthorizedNodeFacts :=
  MkNodeFacts (nf_nodeId n) (nf_scopeId n) capabilities (nf_allowedListenerAddresses n) (nf_allowedPorts n) (nf_egressPolicyRevision n)
    (nf_allowedDestinationCidrs n) (nf_allowMetadataTargets n).

Definition set_capabilities (now : Z) (nodeId : jsstr) (capabilities : list jsstr) : tx unit :=
  s ← facts now nodeId;
  modify (with_nodes (alter (set_node_facts (with_capabilities capabilities (ns_facts s))) nodeId)).

Definition storePolicy (now : Z) (nodeId : jsstr) (policy : NodePolicy) (expectedRevision : Z) : tx AuthorizedNodeFacts :=
  current ← facts now nodeId;
  _ ← require (nf_egressPolicyRevision (ns_facts current) =? expectedRevision) "REVISION_CONFLICT" "Node policy revision conflict";
  _ ← lift (validateNodePolicy (policy_jsv policy));
  _ ← require ((np_egressPolicyRevision policy =? expectedRevision + 1) && is_counter false (np_egressPolicyRevision policy))
        "INVALID_CONFIG" "Policy revision must increment exactly once";
  let next := policy_facts policy nodeId (nf_scopeId (ns_facts current)) (nf_capabilities (ns_facts current)) in
  _ ← modify (with_nodes (alter (set_node_facts next) nodeId));
  mret next.

Definition markRevoked (nodeId : jsstr) : tx unit :=
  _ ← modify (with_nodes (alter set_node_revoked nodeId));
  _ ← modify (with_credentials (update_where (fun _ c => str_eqb (cr_node_id c) nodeId) (fun _ => set_credential_revoked)));
  modify (with_relay_credentials (update_where (fun _ c => str_eqb (cr_node_id c) nodeId) (fun _ => set_credential_revoked))).

Inductive ManagementCommand := cmd_policy (expectedRevision : Z) (policy : NodePolicy) | cmd_revoke.

Record NodeManagementChange := MkManagementChange { nm_nodeId : jsstr; nm_revoke : bool; nm_facts : AuthorizedNodeFacts }.

Definition applyManagement (now : Z) (actor scopeId nodeId : jsstr) (command : ManagementCommand) : tx NodeManagementChange :=
  _ ← require (is_id nodeId) "INVALID_CONFIG" "Valid Node management command required";
  node ← management actor scopeId nodeId;
  match command with
  | cmd_policy expectedRevision policy =>
      next ← storePolicy now nodeId policy expectedRevision; mret (MkManagementChange nodeId false next)
  | cmd_revoke => _ ← markRevoked nodeId; mret (MkManagementChange nodeId true (nd_facts node))
  end.

(** [Date(...).toISOString()] in a response *)
Definition iso_json (ms : Z) : tx json := t ← lift (toISOString ms); mret (JStr t).

Definition relayCredential (now later : Z) (nodeId fingerprint : jsstr) (epoch : Z) (requestId csr : jsstr) : tx json :=
  _ ← require (is_id requestId && valid_csr csr) "INVALID_CONFIG" "Valid Relay request ID and CSR required";
  requestDigest ← lift (digest (csr_json csr));
  _ ← lockNode nodeId (Some epoch);
  node ← query (fun d => db_nodes d !! nodeId);
  match node with
  | None => throw "AUTHORIZATION_DENIED" "Node is revoked"
  | Some n =>
      _ ← require (negb (nd_revoked n)) "AUTHORIZATION_DENIED" "Node is revoked";
      machineUntil ← credential now nodeId fingerprint;
      previous ← query (fun d => db_relay_requests d !! (nodeId, requestId));
      match previous with
      | Some p => _ ← require (str_eqb (cq_request_digest p) requestDigest) "IDEMPOTENCY_CONFLICT" "Relay CSR request differs"; mret (cq_response p)
      | None =>
          _ ← require (bool_decide (nd_credential_fingerprint n = Some fingerprint)) "CREDENTIAL_SUPERSEDED"
                "Current machine credential required for Relay issuance";
          live ← select db_relay_credentials (fun _ c => str_eqb (cr_node_id c) nodeId && negb (cr_revoked c) && (now <? cr_valid_until c) && not_retired now c);
          _ ← require (length live <? 2)%nat "RESOURCE_LIMIT" "At most two Relay credentials may overlap";
          signed ← lift (sign nodeId csr true);
          _ ← credential later nodeId fingerprint;
          let until := Z.min (Z.min (sg_until signed) machineUntil) (later + relayCredentialSeconds * 1000) in
          _ ← require (later <? until) "AUTHORIZATION_DENIED" "Relay credential has no remaining authority";
          let overlap := Z.min until (later + overlapSeconds * 1000) in
          _ ← modify (with_relay_credentials (update_where
                (fun _ c => str_eqb (cr_node_id c) nodeId && negb (cr_revoked c) && bool_decide (cr_retire_after c = None))
                (fun _ c => set_retire_after (Z.min (cr_valid_until c) overlap) c)));
          _ ← insert_row db_relay_credentials with_relay_credentials (sg_fingerprint signed)
                (MkCredentialRow nodeId later until None false (sg_certificate signed));
          validUntil ← iso_json until;
          notAfter ← iso_json (sg_until signed);
          overlapUntil ← (if (length live =? 0)%nat then mret JNull else iso_json overlap);
          let response := JObj [(js "nodeId", JStr nodeId); (js "certificate", JStr (sg_certificate signed)); (js "ca", JStr (sg_ca signed));
                                (js "fingerprint", JStr (sg_fingerprint signed)); (js "validUntil", validUntil);
                                (js "certificateNotAfter", notAfter); (js "overlapUntil", overlapUntil)] in
          _ ← insert_row db_relay_requests with_relay_requests (nodeId, requestId) (MkCredentialRequest requestDigest fingerprint response);
          _ ← audit_node later nodeId None "relay_credential_issue"
                (JObj [(js "fingerprint", JStr (sg_fingerprint signed)); (js "validUntil", JInt until);
                       (js "overlapUntil", if (length live =? 0)%nat then JNull else JInt overlap)]);
          mret response
      end
  end.

Definition rotate (now later : Z) (nodeId fingerprint : jsstr) (epoch : Z) (requestId csr : jsstr) : tx json :=
  _ ← require (is_id requestId && valid_csr csr) "INVALID_CONFIG" "Valid request ID and CSR required";
  requestDigest ← lift (digest (csr_json csr));
  _ ← lockNode nodeId (Some epoch);
  current ← query (fun d => db_nodes d !! nodeId);
  match current with
  | None => throw "AUTHORIZATION_DENIED" "Node revoked"
  | Some n =>
      _ ← require (negb (nd_revoked n)) "AUTHORIZATION_DENIED" "Node revoked";
      _ ← credential now nodeId fingerprint;
      replay ← query (fun d => db_rotations d !! (nodeId, requestId));
      match replay with
      | Some p => _ ← require (str_eqb (cq_request_digest p) requestDigest) "IDEMPOTENCY_CONFLICT" "Rotation request changed"; mret (cq_response p)
      | None =>
          _ ← require (bool_decide (nd_credential_fingerprint n = Some fingerprint)) "CREDENTIAL_SUPERSEDED"
                "Only current credential may initiate another rotation";
          signed ← lift (sign nodeId csr false);
          _ ← credential later nodeId fingerprint;
          let overlap := Z.min (default later (nd_credential_until n)) (later + overlapSeconds * 1000) in
          _ ← insert_row db_credentials with_credentials (sg_fingerprint signed) (MkCredentialRow nodeId later (sg_until signed) None false []);
          _ ← modify (with_credentials (update_where (fun k c => str_eqb (cr_node_id c) nodeId && str_eqb k fingerprint) (fun _ => set_retire_after overlap)));
          _ ← modify (with_nodes (alter (set_node_credential (sg_fingerprint signed) (sg_until signed)) nodeId));
          validUntil ← iso_json (sg_until signed);
          oldUntil ← iso_json overlap;
          let response := JObj [(js "certificate", JStr (sg_certificate signed)); (js "ca", JStr (sg_ca signed));
                                (js "fingerprint", JStr (sg_fingerprint signed)); (js "validUntil", validUntil);
                                (js "oldCredentialUntil", oldUntil)] in
          _ ← insert_row db_rotations with_rotations (nodeId, requestId) (MkCredentialRequest requestDigest fingerprint response);
          _ ← audit_node later nodeId None "credential_rotation"
                (JObj [(js "oldFingerprint", JStr fingerprint); (js "newFingerprint", JStr (sg_fingerprint signed)); (js "overlapUntil", JInt overlap)]);
          mret response
      end
  end.
End Commands.

(** ** Revocation is final *)

(** No Node disappears or moves, and none is un-revoked. *)
Definition nodes_le (d d' : Db) : Prop :=
  forall n row, db_nodes d !! n = Some row -> exists row', db_nodes d' !! n = Some row' /\
    nd_scope_id row' = nd_scope_id row /\ (nd_revoked row = true -> nd_revoked row' = true).

#[export] Instance nodes_le_preorder : PreOrder nodes_le.
Proof.
  split; [intros d n row Hn; by exists row|].
  intros d d1 d2 H1 H2 n row (r1 & E1 & S1 & V1)%H1. apply H2 in E1 as (r2 & E2 & S2 & V2). exists r2. split_and!; [done|congruence|auto].
Qed.

Lemma nodes_le_same f : (forall d, db_nodes (f d) = db_nodes d) -> evolves nodes_le (modify f).
Proof. intros Hf. apply evolves_modify. intros d n row Hn. exists row. by rewrite Hf. Qed.

Lemma nodes_le_alter f k : (forall n, nd_scope_id (f n) = nd_scope_id n /\ (nd_revoked n = true -> nd_revoked (f n) = true)) ->
  evolves nodes_le (modify (with_nodes (alter f k))).
Proof.
  intros Hf. apply evolves_modify. intros d n row Hn. destruct (decide (n = k)) as [->|Hne].
  - exists (f row). unfold db_nodes, with_nodes. cbn. unfold db_nodes in Hn. rewrite lookup_alter_eq, Hn. split; [done|apply Hf].
  - exists row. unfold db_nodes, with_nodes. cbn. by rewrite lookup_alter_ne.
Qed.

Lemma nodes_le_insert k v : evolves nodes_le (insert_row db_nodes with_nodes k v).
Proof.
  intros d u d' [Hk ->]%insert_row_Returns n row Hn. exists row. unfold db_nodes, with_nodes in *. cbn.
  rewrite lookup_insert_ne by congruence. done.
Qed.

Lemma nodes_le_insert_other {K V} `{Countable K} (get : Db -> gmap K V) set k v :
  (forall f d, db_nodes (set f d) = db_nodes d) -> evolves nodes_le (insert_row get set k v).
Proof. intros Hs. unfold insert_row. evolve. by apply nodes_le_same. Qed.

Lemma scope_nodes a s m : evolves nodes_le (scope a s m).
Proof. unfold scope, notFound. evolve. Qed.

Lemma owner_nodes a s : evolves nodes_le (owner a s).
Proof. unfold owner. evolve; eauto using scope_nodes. Qed.

Lemma lockNode_nodes n e : evolves nodes_le (lockNode n e).
Proof. unfold lockNode. evolve. Qed.

Lemma facts_nodes now n : evolves nodes_le (facts now n).
Proof. unfold facts, state, notFound. evolve. Qed.

Lemma credential_nodes now n fp : evolves nodes_le (credential now n fp).
Proof. unfold credential. evolve. Qed.

Lemma iso_json_nodes ms : evolves nodes_le (iso_json ms).
Proof. unfold iso_json. evolve. Qed.

#[export] Hint Resolve nodes_le_insert scope_nodes owner_nodes lockNode_nodes facts_nodes credential_nodes iso_json_nodes : evolves.
#[export] Hint Extern 3 (evolves nodes_le (modify (with_nodes (alter _ _)))) => (apply nodes_le_alter; by split) : evolves.
#[export] Hint Extern 4 (evolves nodes_le (modify _)) => (by apply nodes_le_same) : evolves.
#[export] Hint Extern 4 (evolves nodes_le (insert_row _ _ _ _)) => (by apply nodes_le_insert_other) : evolves.

Lemma management_nodes a s n : evolves nodes_le (management a s n).
Proof. unfold management, notFound. evolve. Qed.
#[export] Hint Resolve management_nodes : evolves.

Section Revocation.
Context `{Hashing}.

(** The commands on Nodes, among transactions that leave the table alone. *)
Inductive node_step : Db -> Db -> Prop :=
  | nst_provision now nodeId token actor s policy r d d' : provision now nodeId token actor s policy d = Returns (r, d') -> node_step d d'
  | nst_enroll sign now later nodeId token csr r d d' : enroll sign now later nodeId token csr d = Returns (r, d') -> node_step d d'
  | nst_grant now o s nodeId subject expected allowed r d d' :
      changeGrant now o s nodeId subject expected allowed d = Returns (r, d') -> node_step d d'
  | nst_capabilities now nodeId caps r d d' : set_capabilities now nodeId caps d = Returns (r, d') -> node_step d d'
  | nst_management now actor s nodeId command r d d' : applyManagement now actor s nodeId command d = Returns (r, d') -> node_step d d'
  | nst_relay sign overlap relay now later nodeId fp epoch req csr r d d' :
      relayCredential sign overlap relay now later nodeId fp epoch req csr d = Returns (r, d') -> node_step d d'
  | nst_rotate sign overlap now later nodeId fp epoch req csr r d d' :
      rotate sign overlap now later nodeId fp epoch req csr d = Returns (r, d') -> node_step d d'
  | nst_quarantine r d d' : quarantineNodes d = Returns (r, d') -> node_step d d'
  | nst_other d d' : db_nodes d' = db_nodes d -> node_step d d'.

Lemma quarantineNodes_le : evolves nodes_le quarantineNodes.
Proof.
  unfold quarantineNodes. evolve. apply evolves_modify. intros d n row Hn. exists (set_node_revoked row).
  unfold db_nodes, with_nodes in *. cbn. by rewrite lookup_fmap, Hn.
Qed.

Lemma changeGrant_le now o s nodeId subject expected allowed : evolves nodes_le (changeGrant now o s nodeId subject expected allowed).
Proof. unfold changeGrant, hasGrant, audit_access. evolve. Qed.

Lemma node_step_le d d' : node_step d d' -> nodes_le d d'.
Proof.
  assert (Hev : forall A (m : tx A) r e e', evolves nodes_le m -> m e = Returns (r, e') -> nodes_le e e') by (intros A m r e e' Hm Hr; by eapply Hm).
  destruct 1 as [now nodeId token actor s policy r d d' Hr|sign now later nodeId token csr r d d' Hr|now o s nodeId subject expected allowed r d d' Hr|
    now nodeId caps r d d' Hr|now actor s nodeId command r d d' Hr|sign overlap relay now later nodeId fp epoch req csr r d d' Hr|
    sign overlap now later nodeId fp epoch req csr r d d' Hr|r d d' Hr|d d' E]; try (eapply Hev; [|exact Hr]).
  - unfold provision, initializeNode. evolve.
  - unfold enroll. evolve.
  - apply changeGrant_le.
  - unfold set_capabilities. evolve.
  - unfold applyManagement, storePolicy, markRevoked. evolve.
  - unfold relayCredential, audit_node. evolve.
  - unfold rotate, audit_node. evolve.
  - apply quarantineNodes_le.
  - intros n row Hn. exists row. by rewrite E.
Qed.

Lemma run_nodes_le d d' : rtc node_step d d' -> nodes_le d d'.
Proof. induction 1 as [d|d d1 d2 Hs _ IH]; [reflexivity|]. etransitivity; [by apply node_step_le|done]. Qed.

(** A revoked row is what every later state has. *)
Lemma revoke_Returns now actor s nodeId d c d1 : applyManagement now actor s nodeId cmd_revoke d = Returns (c, d1) ->
  exists row, db_nodes d1 !! nodeId = Some row /\ nd_revoked row = true.
Proof.
  unfold applyManagement. intros Hr.
  apply tx_bind_Returns in Hr as ([] & d0 & [_ ->]%require_Returns & Hr).
  apply tx_bind_Returns in Hr as (n & d2 & Hm & Hr). unfold management in Hm.
  apply tx_bind_Returns in Hm as ([] & d0 & [-> _]%scope_Returns & Hm).
  apply tx_bind_Returns in Hm as (node & d0 & [-> ->]%query_Returns & Hm).
  destruct (db_nodes d !! nodeId) as [row|] eqn:Hn; [|done]. unfold lockNode in Hm. tx_inv.
  unfold markRevoked in Hrun. tx_inv. exists (set_node_revoked row). unfold db_nodes in *. cbn. by rewrite lookup_alter_eq, Hn.
Qed.

(** Revocation is final.  Once a Node has been revoked, then whatever provisioning,
    enrollment, grant, capability, policy, credential, rotation or other transactions
    follow: no certificate authenticates as that Node, its credentials are refused, its
    facts are not given out, nobody may execute on it, and no new machine or Relay
    certificate is issued for it. *)
Theorem revoked_forever (now : Z) (actor s nodeId : jsstr) (d d1 d2 : Db) (c : NodeManagementChange) :
  applyManagement now actor s nodeId cmd_revoke d = Returns (c, d1) -> rtc node_step d1 d2 ->
  (forall t fingerprint d3, machine t fingerprint d2 <> Returns (nodeId, d3)) /\
  (forall t fingerprint, 0 <= t -> credential t nodeId fingerprint d2 =
     Throws (Exn "AUTHORIZATION_DENIED" "Node credential expired or withdrawn")) /\
  (forall t, facts t nodeId d2 = Throws (Exn "AUTHORIZATION_DENIED" "Node authorization expired")) /\
  (forall t user f, ingress_nodeId (spec f) = nodeId -> canExecute t user f d2 = Returns (false, d2)) /\
  (forall sign t later token csr r d3, enroll sign t later nodeId token csr d2 <> Returns (r, d3)) /\
  (forall sign overlap t later fp epoch req csr r d3, rotate sign overlap t later nodeId fp epoch req csr d2 <> Returns (r, d3)) /\
  (forall sign overlap relay t later fp epoch req csr r d3,
     relayCredential sign overlap relay t later nodeId fp epoch req csr d2 <> Returns (r, d3)).
Proof.
  intros (row & Hrow & Hrev)%revoke_Returns Hrun%run_nodes_le. destruct (Hrun nodeId row Hrow) as (row' & Hn & _ & Hv).
  specialize (Hv Hrev). clear - Hn Hv. split_and!.
  - intros t fp d3 Hm. unfold machine in Hm. tx_inv. destruct (db_credentials d2 !! fp) as [cr|]; [|done]. cbn in Hm.
    destruct (db_nodes d2 !! cr_node_id cr) as [n|] eqn:E; [|done]. cbn in Hm. destruct (_ && _ && _ && _) eqn:Eb; [|done].
    apply mret_Returns in Hm as [Ei _]. rewrite <- Ei, Hn in E. injection E as <-. rewrite Hv in Eb. propify. done.
  - intros t fp Ht. unfold credential, mbind, tx_bind, query, option_bind.
    destruct (db_credentials d2 !! fp) as [cr|]; [destruct (db_nodes d2 !! cr_node_id cr) as [n|] eqn:E|].
    + destruct (str_eqb (cr_node_id cr) nodeId) eqn:Ei; cbn [andb].
      * apply bool_decide_eq_true in Ei. rewrite Ei, Hn in E. injection E as <-. rewrite Hv, andb_false_r. unfold require.
        by rewrite (proj2 (Z.ltb_ge _ _)).
      * unfold require. by rewrite (proj2 (Z.ltb_ge _ _)).
    + unfold require. by rewrite (proj2 (Z.ltb_ge _ _)).
    + unfold require. by rewrite (proj2 (Z.ltb_ge _ _)).
  - intros t. unfold facts, state, mbind, tx_bind, query. rewrite Hn. cbn. by rewrite Hv.
  - intros t user f Hf. unfold canExecute, executing, hasGrant, state, mbind, tx_bind, query, mret, tx_ret. cbv beta iota. rewrite Hf.
    destruct (match member (scopeId f) user d2 with Some m => mb_can_manage m | None => false end); [|done]. cbv beta iota delta [negb].
    destruct (bool_decide ((nodeId, user) ∈ db_node_grants d2)); [|done]. rewrite Hn. cbn. by rewrite Hv.
  - intros sign t later token csr r d3 Hr. unfold enroll in Hr. tx_inv. rewrite Hn in Hr. tx_inv.
    rewrite Hv in *. propify. done.
  - intros sign overlap t later fp epoch req csr r d3 Hr. unfold rotate, lockNode in Hr. tx_inv. rewrite Hn, Hv in *. tx_inv. done.
  - intros sign overlap relay t later fp epoch req csr r d3 Hr. unfold relayCredential, lockNode in Hr. tx_inv. rewrite Hn, Hv in *. tx_inv. done.
Qed.
End Revocation.

Definition example_policy : NodePolicy := MkNodePolicy [js "0.0.0.0"] [80] 1 [js "10.0.0.0/8"] false.

(** A scope with one provisioned Node, which is then revoked. *)
Definition provisioned_state : tx NodeManagementChange :=
  _ ← @bootstrap example_hashing (js "s1") (js "u1") (js "0123456789abcdef0123456789abcdef");
  _ ← @provision example_hashing 1000 (js "n1") (js "t1") (js "u1") (js "s1") example_policy;
  applyManagement 2000 (js "u1") (js "s1") (js "n1") cmd_revoke.

Lemma provisioned_Returns : exists d c d1, applyManagement 2000 (js "u1") (js "s1") (js "n1") cmd_revoke d = Returns (c, d1).
Proof.
  assert (E : exists c d1, provisioned_state empty_db = Returns (c, d1)) by (eexists _, _; vm_compute; reflexivity).
  destruct E as (c & d1 & E). unfold provisioned_state in E. tx_inv. eauto.
Qed.

Lemma revoked_forever_witness : exists d1 d2, rtc (@node_step example_hashing) d1 d2 /\
  facts 3000 (js "n1") d2 = Throws (Exn "AUTHORIZATION_DENIED" "Node authorization expired").
Proof.
  destruct provisioned_Returns as (d & c & d1 & E). exists d1, d1. split; [apply rtc_refl|].
  destruct (@revoked_forever example_hashing 2000 (js "u1") (js "s1") (js "n1") d d1 d1 c E (rtc_refl _ _)) as (_ & _ & Hf & _).
  exact (Hf 3000).
Defined.
