(* ===== verification/Profiles.v ===== *)
(** Transport Profiles and Relay endpoints (apps/control/src/modules/transport.ts and
    relay-endpoints.ts): a Profile is published as a sequence of immutable, digested
    revisions; a Forward refers to one revision. *)

From S2P Require Import Prelude.
From S2P Require Import JsString.
From S2P Require Import JsValue.
From S2P Require Import Primitives.
From S2P Require Import Json.
From S2P Require Import Digest.
From S2P Require Import Types.
From S2P Require Import Schema.
From S2P Require Import Relay.
From S2P Require Import Endpoint.
From S2P Require Import RelayPlan.
From S2P Require Import Iso.
From S2P Require Import Store.
From S2P Require Import Idempotency.
From S2P Require Import Forwarding.
From S2P Require Import Identity.
From S2P Require Import Nodes.

Local Open Scope Z_scope.

(** [/^[\x21-\x7e]{1,128}$/] *)
Definition valid_key (key : jsstr) : bool :=
  (1 <=? length key)%nat && (length key <=? 128)%nat && forallb (ch_in 33 126) key.

Definition quarantineProfiles : tx unit := modify (with_profile_grants (fun _ => ∅)).

Definition find_revision (profileId : jsstr) (revision : Z) : tx ProfileRevision :=
  record ← query (fun d => db_profile_revisions d !! (profileId, revision));
  match record with Some r => mret r | None => notFound end.

Definition set_current_revision (revision : Z) (p : ProfileRow) : ProfileRow := MkProfileRow (pf_scope_id p) revision (pf_grant_revision p).
Definition set_profile_grant_revision (revision : Z) (p : ProfileRow) : ProfileRow := MkProfileRow (pf_scope_id p) (pf_current_revision p) revision.

(** [INSERT INTO transport_profiles(id,scope_id) ... ON DUPLICATE KEY UPDATE id=id] *)
Definition ensure_profile (profileId scopeId : jsstr) (m : gmap jsstr ProfileRow) : gmap jsstr ProfileRow :=
  match m !! profileId with Some _ => m | None => <[profileId := MkProfileRow scopeId 0 1]> m end.

Section Profiles.
Context `{Hashing, Schema RelayProfileConfig}.

(** The stored configuration, checked against its digest. *)
Definition checked_config (r : ProfileRevision) (message : string) : tx RelayProfileConfig :=
  config ← lift (parseRelayMessage ProfileConfig_ (stringify (relay_profile_json (pv_config r))) 4096);
  differs ← lift (digest_differs (relay_profile_json config) (pv_config_digest r));
  _ ← require (negb differs) "INTEGRITY_FAILURE" message;
  mret config.

Definition publish_path (scopeId profileId : jsstr) : jsstr :=
  js "/api/v1/scopes/" ++ scopeId ++ js "/transport-profiles/" ++ profileId.

(** What runs once per request. *)
Definition publish_once (now : Z) (actor scopeId profileId : jsstr) (expectedRevision : Z) (config : RelayProfileConfig) (configDigest : jsstr)
    : tx Response :=
  _ ← modify (with_transport_profiles (ensure_profile profileId scopeId));
  current ← query (fun d => db_transport_profiles d !! profileId);
  match current with
  | None => throw "TypeError" "Cannot read properties of undefined"
  | Some p =>
      _ ← require (str_eqb (pf_scope_id p) scopeId) "AUTHORIZATION_DENIED" "Profile belongs to another scope";
      _ ← require (pf_current_revision p =? expectedRevision) "REVISION_CONFLICT" "Transport Profile revision conflict";
      old ← (if 0 <? pf_current_revision p then
               r ← find_revision profileId (pf_current_revision p);
               _ ← checked_config r "Stored Transport Profile differs from its digest";
               mret (Some r)
             else mret None);
      let changed := match old with Some r => negb (str_eqb (pv_config_digest r) configDigest) | None => true end in
      let revision := expectedRevision + (if changed then 1 else 0) in
      _ ← require (revision <=? MAX_COUNTER) "REVISION_EXHAUSTED" "Transport Profile revision exhausted";
      _ ← (if changed then
             _ ← insert_row db_profile_revisions with_profile_revisions (profileId, revision) (MkProfileRevision config configDigest actor now);
             modify (with_transport_profiles (alter (set_current_revision revision) profileId))
           else mret tt);
      _ ← (if expectedRevision =? 0 then modify (with_profile_grants (union {[(profileId, actor)]})) else mret tt);
      mret (MkResponse (if changed then 202 else 200)
        (JObj [(js "profileId", JStr profileId); (js "revision", JInt revision); (js "configDigest", JStr configDigest); (js "changed", JBool changed)]))
  end.

Definition publish (now : Z) (actor scopeId profileId : jsstr) (key : option jsstr) (expectedRevision : Z) (input : json) : tx Response :=
  match key with
  | None => invalid_input "Valid Profile, expectedRevision and Idempotency-Key required"
  | Some key =>
      _ ← require (is_id profileId && is_counter true expectedRevision && valid_key key) "INVALID_CONFIG"
            "Valid Profile, expectedRevision and Idempotency-Key required";
      config ← lift (parseRelayMessage ProfileConfig_ (stringify input) 4096);
      configDigest ← lift (digest (relay_profile_json config));
      requestDigest ← lift (digest (JObj [(js "method", JStr (js "PUT")); (js "path", JStr (publish_path scopeId profileId));
                                          (js "expectedRevision", JInt expectedRevision); (js "config", relay_profile_json config)]));
      _ ← owner actor scopeId;
      once (MkRequest actor scopeId key requestDigest) (publish_once now actor scopeId profileId expectedRevision config configDigest)
  end.

Definition resolve (actor scopeId profileId : jsstr) (revision : Z) : tx ResolvedProfile :=
  _ ← require (is_id profileId && is_counter false revision) "INVALID_CONFIG" "Valid locked Profile reference required";
  _ ← scope actor scopeId true;
  found ← query (fun d => match db_transport_profiles d !! profileId with
                          | Some p => str_eqb (pf_scope_id p) scopeId && bool_decide ((profileId, actor) ∈ db_profile_grants d)
                          | None => false
                          end);
  _ ← require found "NOT_FOUND" "Resource not found";
  record ← find_revision profileId revision;
  config ← checked_config record "Transport Profile digest differs";
  mret (MkResolvedProfile profileId revision config (pv_config_digest record)).

Record TransportGrantState := MkTransportGrant { tgs_profileId : jsstr; tgs_actorId : jsstr; tgs_revision : Z; tgs_allowed : bool; tgs_changed : bool }.

Definition applyGrant (now : Z) (actor scopeId profileId subject : jsstr) (expectedRevision : Z) (allowed : bool) : tx TransportGrantState :=
  _ ← require (is_id actor && is_id scopeId && is_id profileId && is_id subject && is_counter false expectedRevision)
        "INVALID_CONFIG" "Valid Profile grant command required";
  _ ← owner actor scopeId;
  profile ← query (fun d => db_transport_profiles d !! profileId);
  match profile with
  | None => notFound
  | Some p =>
      _ ← require (str_eqb (pf_scope_id p) scopeId) "NOT_FOUND" "Resource not found";
      _ ← require (pf_grant_revision p =? expectedRevision) "REVISION_CONFLICT" "Profile grants revision conflict";
      _ ← (if allowed then scope subject scopeId true else mret tt);
      previous ← query (fun d => bool_decide ((profileId, subject) ∈ db_profile_grants d));
      let changed := negb (Bool.eqb previous allowed) in
      let revision := expectedRevision + (if changed then 1 else 0) in
      _ ← require (revision <=? MAX_COUNTER) "REVISION_EXHAUSTED" "Profile grant revision exhausted";
      _ ← (if changed then
             _ ← hasLiveRelay (Some profileId) None;
             _ ← modify (with_profile_grants (fun g => if allowed then {[(profileId, subject)]} ∪ g else g ∖ {[(profileId, subject)]}));
             _ ← modify (with_transport_profiles (alter (set_profile_grant_revision revision) profileId));
             modify (with_transport_events (fun l => l ++ [MkTransportEvent profileId actor subject revision now allowed]))
           else mret tt);
      mret (MkTransportGrant profileId subject revision allowed changed)
  end.

Definition grants (actor scopeId profileId : jsstr) : tx (jsstr * Z * list jsstr) :=
  _ ← owner actor scopeId;
  profile ← query (fun d => db_transport_profiles d !! profileId);
  match profile with
  | None => notFound
  | Some p =>
      _ ← require (str_eqb (pf_scope_id p) scopeId) "NOT_FOUND" "Resource not found";
      found ← query (fun d => List.filter (fun g : jsstr * jsstr => str_eqb g.1 profileId) (base.elements (db_profile_grants d)));
      mret (profileId, pf_grant_revision p, sort_by str_leb (map snd found))
  end.

(** The view of a revision: the current one unless another is requested. *)
Definition get_profile (actor scopeId profileId : jsstr) (requested : option Z) : tx (Z * ResolvedProfile * jsstr * jsstr) :=
  _ ← require (is_id profileId && match requested with Some r => is_counter false r | None => true end) "INVALID_CONFIG" "Valid Profile revision required";
  _ ← scope actor scopeId false;
  profile ← query (fun d => db_transport_profiles d !! profileId);
  match profile with
  | None => notFound
  | Some p =>
      _ ← require (str_eqb (pf_scope_id p) scopeId) "NOT_FOUND" "Resource not found";
      let revision := default (pf_current_revision p) requested in
      record ← find_revision profileId revision;
      config ← checked_config record "Transport Profile digest differs";
      created ← lift (toISOString (pv_created_at record));
      mret (pf_current_revision p, MkResolvedProfile profileId revision config (pv_config_digest record), pv_created_by record, created)
  end.

Definition list_profiles (actor scopeId : jsstr) : tx (list (jsstr * Z)) :=
  _ ← scope actor scopeId false;
  profiles ← select db_transport_profiles (fun _ p => str_eqb (pf_scope_id p) scopeId);
  mret (map (fun kp : jsstr * ProfileRow => (kp.1, pf_current_revision kp.2)) (sort_by (fun a b => str_leb a.1 b.1) profiles)).
End Profiles.

(** ** Relay endpoints *)

Section Endpoints.
Context `{Hashing}.

Definition endpoint_json (e : RelayEndpoint) : json :=
  JObj [(js "listenAddress", JStr (re_listenAddress e)); (js "advertisedHost", JStr (re_advertisedHost e));
        (js "allowedTcpPorts", JArr (map JInt (re_allowedTcpPorts e)))].

Definition endpoint_path (scopeId nodeId : jsstr) : jsstr :=
  js "/api/v1/scopes/" ++ scopeId ++ js "/nodes/" ++ nodeId ++ js "/relay-endpoint".

Definition change_once (now : Z) (actor scopeId nodeId : jsstr) (expectedRevision : Z) (config : RelayEndpoint) : tx Response :=
  node ← management actor scopeId nodeId;
  _ ← require (negb (nd_revoked node)) "AUTHORIZATION_DENIED" "Revoked Node endpoint cannot be changed";
  current ← query (fun d => db_relay_endpoints d !! nodeId);
  _ ← require (match current with Some e => ep_revision e | None => 0 end =? expectedRevision) "REVISION_CONFLICT" "Relay endpoint revision conflict";
  changed ← match current with
            | None => mret true
            | Some e => stored ← lift (digest (endpoint_json (ep_config e))); next ← lift (digest (endpoint_json config));
                        mret (negb (str_eqb stored next))
            end;
  let revision := expectedRevision + (if (changed : bool) then 1 else 0) in
  _ ← require (revision <=? MAX_COUNTER) "REVISION_EXHAUSTED" "Relay endpoint revision exhausted";
  _ ← (if changed then
         live ← hasLiveRelay None (Some nodeId);
         _ ← require (negb live) "UNSUPPORTED_CAPABILITY" "Active Relay endpoint changes require withdrawal coordinator";
         _ ← modify (with_relay_endpoints (insert nodeId (MkEndpointRow revision config actor now)));
         audit_node now nodeId (Some actor) "relay_endpoint_update" (JObj [(js "revision", JInt revision); (js "config", endpoint_json config)])
       else mret tt);
  mret (MkResponse (if changed then 202 else 200)
    (JObj [(js "nodeId", JStr nodeId); (js "revision", JInt revision); (js "changed", JBool changed)])).

Definition change_endpoint (now : Z) (actor scopeId nodeId : jsstr) (key : option jsstr) (expectedRevision : Z) (input : jsv) : tx Response :=
  match key with
  | None => invalid_input "Valid endpoint command required"
  | Some key =>
      _ ← require (is_id nodeId && is_counter true expectedRevision && valid_key key) "INVALID_CONFIG" "Valid endpoint command required";
      config ← lift (parseRelayEndpoint input);
      requestDigest ← lift (digest (JObj [(js "method", JStr (js "PUT")); (js "path", JStr (endpoint_path scopeId nodeId));
                                          (js "expectedRevision", JInt expectedRevision); (js "config", endpoint_json config)]));
      _ ← owner actor scopeId;
      once (MkRequest actor scopeId key requestDigest) (change_once now actor scopeId nodeId expectedRevision config)
  end.

Definition resolve_endpoint (nodeId : jsstr) : tx ResolvedEndpoint :=
  record ← query (fun d => db_relay_endpoints d !! nodeId);
  match record with
  | None => notFound
  | Some e => config ← lift (parseRelayEndpoint (endpoint_jsv (ep_config e))); mret (MkResolvedEndpoint nodeId (ep_revision e) config)
  end.

Definition get_endpoint (actor scopeId nodeId : jsstr) : tx ResolvedEndpoint :=
  _ ← scope actor scopeId false; _ ← cleanupFacts nodeId scopeId; resolve_endpoint nodeId.
End Endpoints.

(** ** Published revisions are immutable *)

Section Immutable.
Context `{Hashing, Schema RelayProfileConfig}.

(** Revisions are numbered from 1 to the current one, and each carries its digest. *)
Record profiles_ok (d : Db) : Prop := {
  po_revision : forall p n r, db_profile_revisions d !! (p, n) = Some r ->
    (exists row, db_transport_profiles d !! p = Some row /\ 1 <= n <= pf_current_revision row) /\
    digests_to (relay_profile_json (pv_config r)) (pv_config_digest r);
  po_current : forall p row, db_transport_profiles d !! p = Some row -> 0 <= pf_current_revision row <= MAX_COUNTER;
}.

Definition revisions_grow (d d' : Db) : Prop := db_profile_revisions d ⊆ db_profile_revisions d'.

(** A transaction that leaves Profiles and revisions as they are, or only moves grant revisions. *)
Definition same_profiles (d d' : Db) : Prop :=
  db_profile_revisions d' = db_profile_revisions d /\
  forall p, pf_current_revision <$> db_transport_profiles d' !! p = pf_current_revision <$> db_transport_profiles d !! p.

#[local] Instance same_profiles_preorder : PreOrder same_profiles.
Proof. split; [by split|]. intros d d1 d2 [E1 F1] [E2 F2]. split; [congruence|]. intros p. by rewrite F2, F1. Qed.

Lemma same_profiles_ok d d' : same_profiles d d' -> profiles_ok d -> profiles_ok d'.
Proof.
  intros [E F] [HR HC]. split.
  - intros p n r. rewrite E. intros Hr. destruct (HR p n r Hr) as [(row & Hrow & Hn) Hd]. split; [|done].
    specialize (F p). rewrite Hrow in F. cbn in F. destruct (db_transport_profiles d' !! p) as [row'|]; [|done]. cbn in F.
    injection F as F. exists row'. split; [done|]. by rewrite F.
  - intros p row Hrow. specialize (F p). rewrite Hrow in F. cbn in F. destruct (db_transport_profiles d !! p) as [row'|] eqn:Ep; [|done].
    cbn in F. injection F as ->. by eapply HC.
Qed.

Lemma checked_config_reads r m d c d' : checked_config r m d = Returns (c, d') -> d' = d.
Proof. unfold checked_config. intros Hr. by tx_inv. Qed.

Lemma find_revision_reads p n d r d' : find_revision p n d = Returns (r, d') -> d' = d /\ db_profile_revisions d !! (p, n) = Some r.
Proof. unfold find_revision. intros Hr. tx_inv. destruct (db_profile_revisions d !! (p, n)); by tx_inv. Qed.

Lemma ensure_profile_lookup p s m : exists row, ensure_profile p s m !! p = Some row /\
  (m !! p = Some row \/ m !! p = None /\ row = MkProfileRow s 0 1) /\ forall q, q <> p -> ensure_profile p s m !! q = m !! q.
Proof.
  unfold ensure_profile. destruct (m !! p) as [row|] eqn:E.
  - exists row. split_and!; [done|by left|done].
  - exists (MkProfileRow s 0 1). rewrite lookup_insert_eq. split_and!; [done|by right|]. intros q Hq. by rewrite lookup_insert_ne.
Qed.

Lemma ensure_profile_ok p s d : profiles_ok d -> profiles_ok (with_transport_profiles (ensure_profile p s) d).
Proof.
  intros [HR HC]. destruct (ensure_profile_lookup p s (db_transport_profiles d)) as (row & Hrow & Hcase & Hother).
  split; unfold db_transport_profiles at 1; cbn; fold (db_transport_profiles d).
  - intros q n rv Hq. destruct (HR q n rv Hq) as [(row' & Hq' & Hn) Hd]. split; [|done]. exists row'. split; [|done].
    destruct (decide (q = p)) as [->|Hne]; [|by rewrite Hother].
    rewrite Hrow. destruct Hcase as [Hc|[Hc _]]; rewrite Hc in Hq'; [done|discriminate].
  - intros q row'. destruct (decide (q = p)) as [->|Hne]; [|rewrite Hother by done; apply HC].
    rewrite Hrow. intros [= <-]. destruct Hcase as [Hc|[_ ->]]; [by eapply HC|cbn; unfold MAX_COUNTER; lia].
Qed.

(** The next revision on top of the current one. *)
Lemma next_revision_ok p row v d : profiles_ok d -> db_transport_profiles d !! p = Some row ->
  pf_current_revision row + 1 <= MAX_COUNTER -> digests_to (relay_profile_json (pv_config v)) (pv_config_digest v) ->
  profiles_ok (with_transport_profiles (alter (set_current_revision (pf_current_revision row + 1)) p)
    (with_profile_revisions (insert (p, pf_current_revision row + 1) v) d)).
Proof.
  intros [HR HC] Hrow Hmax Hdig. pose proof (HC p row Hrow) as Hcur.
  split; unfold db_transport_profiles at 1; cbn; fold (db_transport_profiles d).
  - intros q n rv. cbn. fold (db_profile_revisions d). destruct (decide ((q, n) = (p, pf_current_revision row + 1))) as [[= -> ->]|Hne].
    + rewrite lookup_insert_eq. intros [= <-]. split; [|done]. rewrite lookup_alter_eq, Hrow. eexists. split; [done|]. cbn. lia.
    + rewrite lookup_insert_ne by done. intros Hq. destruct (HR q n rv Hq) as [(row' & Hq' & Hn) Hd]. split; [|done].
      destruct (decide (q = p)) as [->|Hqp]; [|rewrite lookup_alter_ne by done; by exists row'].
      rewrite Hrow in Hq'. injection Hq' as <-. rewrite lookup_alter_eq, Hrow. eexists. split; [done|]. cbn. lia.
  - intros q row'. destruct (decide (q = p)) as [->|Hqp]; [|rewrite lookup_alter_ne by done; apply HC].
    rewrite lookup_alter_eq, Hrow. cbn. intros [= <-]. cbn. lia.
Qed.

(** What a first publication does: nothing, or the next revision. *)
Lemma publish_once_Returns now actor s p expected config configDigest d r d' :
  digests_to (relay_profile_json config) configDigest -> profiles_ok d ->
  publish_once now actor s p expected config configDigest d = Returns (r, d') ->
  profiles_ok d' /\ revisions_grow d d'.
Proof.
  intros Hdig Hok%(ensure_profile_ok p s) Hr. unfold publish_once in Hr.
  apply tx_bind_Returns in Hr as ([] & d0 & ->%modify_Returns & Hr).
  change (revisions_grow d d') with (revisions_grow (with_transport_profiles (ensure_profile p s) d) d').
  set (d0 := with_transport_profiles (ensure_profile p s) d) in *. clearbody d0. clear d.
  apply tx_bind_Returns in Hr as (cur & d1 & [-> ->]%query_Returns & Hr).
  destruct (db_transport_profiles d0 !! p) as [row|] eqn:Hrow; [|done].
  apply tx_bind_Returns in Hr as ([] & d1 & [_ ->]%require_Returns & Hr).
  apply tx_bind_Returns in Hr as ([] & d1 & [Hrev%Z.eqb_eq ->]%require_Returns & Hr). subst expected.
  apply tx_bind_Returns in Hr as (old & d1 & Hold & Hr).
  assert (d1 = d0) as ->.
  { destruct (0 <? pf_current_revision row); [|by tx_inv]. apply tx_bind_Returns in Hold as (o & d2 & [-> _]%find_revision_reads & Hold).
    apply tx_bind_Returns in Hold as (c & d2 & ->%checked_config_reads & Hold). by tx_inv. }
  clear Hold. cbn zeta in Hr.
  apply tx_bind_Returns in Hr as ([] & d1 & [Hmax%Z.leb_le ->]%require_Returns & Hr).
  apply tx_bind_Returns in Hr as ([] & d1 & Hw & Hr).
  apply tx_bind_Returns in Hr as ([] & d2 & Hg & [-> ->]%mret_Returns).
  assert (Hd2 : same_profiles d1 d2) by (destruct (pf_current_revision row =? 0); tx_inv; by split).
  destruct (match old with Some _ => _ | None => true end).
  - apply tx_bind_Returns in Hw as ([] & d3 & [Hfresh ->]%insert_row_Returns & ->%modify_Returns). split.
    + eapply same_profiles_ok; [exact Hd2|]. by apply next_revision_ok.
    + unfold revisions_grow. destruct Hd2 as [-> _]. cbn. by apply insert_subseteq.
  - tx_inv. split; [by eapply same_profiles_ok|]. unfold revisions_grow. by destruct Hd2 as [-> _].
Qed.

Lemma same_profiles_modify f : (forall d, same_profiles d (f d)) -> evolves same_profiles (modify f).
Proof. apply evolves_modify. Qed.

Lemma claim_same r : evolves same_profiles (claim r).
Proof. unfold claim. evolve. by apply same_profiles_modify. Qed.

Lemma respond_same r response : evolves same_profiles (respond r response).
Proof. unfold respond. by apply same_profiles_modify. Qed.

Lemma applyGrant_same now actor s p subject expected allowed : evolves same_profiles (applyGrant now actor s p subject expected allowed).
Proof.
  unfold applyGrant, hasLiveRelay, owner, scope, notFound. evolve; try (apply same_profiles_modify; intros d; by split).
  apply same_profiles_modify. intros d. split; [done|]. intros q. unfold db_transport_profiles. cbn. destruct (decide (q = p)) as [->|Hq].
  - rewrite lookup_alter_eq. by destruct (_ !! p).
  - by rewrite lookup_alter_ne.
Qed.

Lemma publish_Returns now actor s p key expected input d r d' : profiles_ok d ->
  publish now actor s p key expected input d = Returns (r, d') -> profiles_ok d' /\ revisions_grow d d'.
Proof.
  intros Hok Hr. unfold publish in Hr. destruct key as [key|]; [|done].
  apply tx_bind_Returns in Hr as ([] & d0 & [_ ->]%require_Returns & Hr).
  apply tx_bind_Returns in Hr as (config & d0 & [_ ->]%lift_Returns & Hr).
  apply tx_bind_Returns in Hr as (cd & d0 & [Hdig ->]%lift_Returns & Hr).
  apply tx_bind_Returns in Hr as (rd & d0 & [_ ->]%lift_Returns & Hr).
  apply tx_bind_Returns in Hr as ([] & d0 & [-> _]%owner_Returns & Hr). unfold once in Hr.
  apply tx_bind_Returns in Hr as (replay & d0 & Hclaim%claim_same & Hr).
  assert (H1 : profiles_ok d0) by by eapply same_profiles_ok.
  assert (Hg : revisions_grow d d0) by (unfold revisions_grow; by destruct Hclaim as [-> _]).
  destruct replay as [resp|]; [by tx_inv|]. apply tx_bind_Returns in Hr as (resp & d1 & Hpub & Hr).
  apply publish_once_Returns in Hpub as [H2 Hg2]; [|done..].
  apply tx_bind_Returns in Hr as ([] & d2 & Hresp%respond_same & [-> ->]%mret_Returns).
  split; [by eapply same_profiles_ok|]. unfold revisions_grow in *. destruct Hresp as [-> _]. by etransitivity.
Qed.

(** The commands on Profiles, among transactions that leave them alone. *)
Inductive profile_step : Db -> Db -> Prop :=
  | ps_publish now actor s p key expected input r d d' : publish now actor s p key expected input d = Returns (r, d') -> profile_step d d'
  | ps_grant now actor s p subject expected allowed r d d' :
      applyGrant now actor s p subject expected allowed d = Returns (r, d') -> profile_step d d'
  | ps_quarantine u d d' : quarantineProfiles d = Returns (u, d') -> profile_step d d'
  | ps_other d d' : db_transport_profiles d' = db_transport_profiles d -> db_profile_revisions d' = db_profile_revisions d -> profile_step d d'.

Lemma profile_step_ok d d' : profile_step d d' -> profiles_ok d -> profiles_ok d' /\ revisions_grow d d'.
Proof.
  assert (Hsame : forall e e', same_profiles e e' -> profiles_ok e -> profiles_ok e' /\ revisions_grow e e').
  { intros e e' He Hok. split; [by eapply same_profiles_ok|]. unfold revisions_grow. by destruct He as [-> _]. }
  destruct 1 as [now actor s p key expected input r d d' Hr|now actor s p subject expected allowed r d d' Hr|u d d' Hr|d d' E1 E2]; intros Hok.
  - by eapply publish_Returns.
  - apply Hsame; [|done]. by eapply applyGrant_same.
  - apply Hsame; [|done]. unfold quarantineProfiles in Hr. tx_inv. by split.
  - apply Hsame; [|done]. split; [done|]. intros q. by rewrite E1.
Qed.

Lemma resolve_revision a s p n d r d' : resolve a s p n d = Returns (r, d') ->
  exists v, db_profile_revisions d !! (p, n) = Some v /\ rpf_profileId r = p /\ rpf_revision r = n /\
    rpf_configDigest r = pv_config_digest v /\ digests_to (relay_profile_json (rpf_config r)) (pv_config_digest v) /\
    parseRelayMessage ProfileConfig_ (stringify (relay_profile_json (pv_config v))) 4096 = Returns (rpf_config r).
Proof.
  unfold resolve. intros Hr.
  apply tx_bind_Returns in Hr as ([] & d0 & [_ ->]%require_Returns & Hr).
  apply tx_bind_Returns in Hr as ([] & d0 & [-> _]%scope_Returns & Hr).
  apply tx_bind_Returns in Hr as (found & d0 & [-> ->]%query_Returns & Hr).
  apply tx_bind_Returns in Hr as ([] & d0 & [_ ->]%require_Returns & Hr).
  apply tx_bind_Returns in Hr as (v & d0 & [-> Hv]%find_revision_reads & Hr).
  apply tx_bind_Returns in Hr as (config & d0 & Hc & [-> ->]%mret_Returns). exists v. split_and!; try done; unfold checked_config in Hc; tx_inv; cbn.
  - unfold digest_differs in Hrun0. apply bind_Returns in Hrun0 as (dg & Hdg & [= <-]). propify. unfold str_eqb in *. propify. by subst.
  - done.
Qed.

(** A locked Profile revision never changes.  From a state whose revisions are
    numbered and digested, through any sequence of publications, grants, quarantines
    and other transactions: this stays so, no revision is overwritten or lost, and
    whoever resolves a Profile revision later, under whatever grants, gets exactly
    what was resolved before: the same configuration with the same digest, which is
    the digest of that configuration. *)
Theorem profile_immutable (d d' : Db) : profiles_ok d -> rtc profile_step d d' ->
  profiles_ok d' /\ revisions_grow d d' /\
  forall a s a' s' p n r r' e e', resolve a s p n d = Returns (r, e) -> resolve a' s' p n d' = Returns (r', e') ->
    r' = r /\ digests_to (relay_profile_json (rpf_config r)) (rpf_configDigest r).
Proof.
  intros Hok Hrun.
  assert (Hall : profiles_ok d' /\ revisions_grow d d').
  { induction Hrun as [d|d d1 d2 Hs _ IH]; [by split; [|unfold revisions_grow]|]. apply profile_step_ok in Hs as [H1 G1]; [|done].
    destruct IH as [H2 G2]; [done|]. split; [done|]. unfold revisions_grow in *. by etransitivity. }
  destruct Hall as [Hok' Hgrow]. split_and!; [done..|].
  intros a s a' s' p n r r' e e' (v & Hv & P1 & N1 & D1 & G1 & C1)%resolve_revision (v' & Hv' & P2 & N2 & D2 & G2 & C2)%resolve_revision.
  pose proof (lookup_weaken _ _ _ _ Hv Hgrow) as Hv2. assert (v' = v) as -> by congruence. split; [|by rewrite D1].
  destruct r, r'. cbn in *. rewrite C1 in C2. injection C2 as <-. congruence.
Qed.
End Immutable.

Definition owned_state : outcome (unit * Db) := @bootstrapped example_hashing.

Lemma published_Returns : exists d0 d1 r, profiles_ok (H := example_hashing) d0 /\
  @publish example_hashing (accept_only example_profile) 1000 (js "u1") (js "s1") (js "p1") (Some (js "k1")) 0 (relay_profile_json example_profile) d0 = Returns (r, d1) /\
  exists r' e, @resolve example_hashing (accept_only example_profile) (js "u1") (js "s1") (js "p1") 1 d1 = Returns (r', e).
Proof.
  destruct bootstrapped_Returns as [d0 E]. exists d0.
  pose (run := (_ ← @bootstrap example_hashing (js "s1") (js "u1") (js "0123456789abcdef0123456789abcdef");
    r ← @publish example_hashing (accept_only example_profile) 1000 (js "u1") (js "s1") (js "p1") (Some (js "k1")) 0 (relay_profile_json example_profile);
    @resolve example_hashing (accept_only example_profile) (js "u1") (js "s1") (js "p1") 1) empty_db).
  assert (E2 : is_returns run = true) by (vm_compute; reflexivity).
  apply is_returns_true in E2 as [[r' e] Hp]. unfold run in Hp. unfold bootstrapped in E.
  apply tx_bind_Returns in Hp as ([] & d2 & Hb & Hp). apply tx_bind_Returns in Hp as (r & d1 & Hp & Hres).
  rewrite E in Hb. injection Hb as <-. exists d1, r. split_and!; [|exact Hp|by eauto].
  pose proof E as E'. unfold bootstrap, insert_account in E'. tx_inv.
  apply insert_row_Returns in Hrun0 as [_ ->], Hrun1 as [_ ->], E' as [_ ->]. split; [intros p n v Hv; discriminate Hv|intros p row Hp0; discriminate Hp0].
Qed.

Lemma profile_immutable_witness : exists d, profiles_ok (H := example_hashing) d.
Proof.
  destruct published_Returns as (d0 & d1 & r & Hok & Hp & r' & e & Hres). exists d1.
  exact (proj1 (@profile_immutable example_hashing (accept_only example_profile) d0 d1 Hok (rtc_once _ _ (ps_publish _ _ _ _ _ _ _ _ _ _ Hp)))).
Defined.
