(* ===== verification/Reads.v ===== *)
(** Transactions that only read: [evolves eq m].  The queries of the ledger, the Nodes and the
    Profiles leave the state as it was; [reads] looks the lemma up. *)

From S2P Require Import Prelude.
From S2P Require Import JsString.
From S2P Require Import Digest.
From S2P Require Import Schema.
From S2P Require Import Relay.
From S2P Require Import Store.
From S2P Require Import Forwarding.
From S2P Require Import Operations.
From S2P Require Import Retirements.
From S2P Require Import Identity.
From S2P Require Import Nodes.
From S2P Require Import Profiles.

Local Open Scope Z_scope.

(** A transaction that only reads is no step at all. *)
Lemma evolves_reads (R : Db -> Db -> Prop) `{!Reflexive R} {A} (m : tx A) : evolves eq m -> evolves R m.
Proof. intros Hm d a d' <-%Hm. reflexivity. Qed.

Section Reads.
Context `{Hashing, Schema RelayProfileConfig}.

Lemma reads_find_forward b s i : evolves eq (find_forward b s i).
Proof using. unfold find_forward. evolve. Qed.

Lemma reads_record_of s i : evolves eq (record_of s i).
Proof using. unfold record_of, find_forward. evolve. Qed.

Lemma reads_select_forwards w : evolves eq (select_forwards w).
Proof using. unfold select_forwards. evolve. Qed.

Lemma reads_authorizer i : evolves eq (authorizer i).
Proof using. unfold authorizer. evolve. Qed.

Lemma reads_latest i : evolves eq (latest i).
Proof using. unfold latest. evolve. Qed.

Lemma reads_get_operation s i : evolves eq (get_operation s i).
Proof using. unfold get_operation. evolve. Qed.

Lemma reads_lockNode n e : evolves eq (lockNode n e).
Proof using. unfold lockNode. evolve. Qed.

Lemma reads_verifyPublishable now l : evolves eq (verifyPublishable now l).
Proof using. unfold verifyPublishable, publishable. evolve. Qed.

Lemma reads_scope a s m : evolves eq (scope a s m).
Proof using. unfold scope. evolve. Qed.

Lemma reads_state n : evolves eq (state n).
Proof using. unfold state, Identity.notFound. evolve. Qed.

Lemma reads_facts now n : evolves eq (facts now n).
Proof using. unfold facts, state, Identity.notFound. evolve. Qed.

Lemma reads_credential now n fp : evolves eq (credential now n fp).
Proof using. unfold credential. evolve. Qed.

Lemma reads_cleanupFacts n s : evolves eq (cleanupFacts n s).
Proof using. unfold cleanupFacts, state, Identity.notFound. evolve. Qed.

Lemma reads_authorizedRelayNode now a s n : evolves eq (authorizedRelayNode now a s n).
Proof using. unfold authorizedRelayNode, facts, state, scope, Identity.notFound. evolve. Qed.

Lemma reads_authorized now a f : evolves eq (authorized now a f).
Proof using. unfold authorized, facts, state, scope, Identity.notFound. evolve. Qed.

Lemma reads_canExecute now a f : evolves eq (Nodes.canExecute now a f).
Proof using. unfold Nodes.canExecute, executing, hasGrant, state, Identity.notFound. evolve. Qed.

Lemma reads_relayCredentialFacts now n b : evolves eq (relayCredentialFacts now n b).
Proof using. unfold relayCredentialFacts, state, Identity.notFound. evolve. Qed.

Lemma reads_resolve a s p n : evolves eq (resolve a s p n).
Proof using. unfold resolve, find_revision, checked_config, scope. evolve. Qed.

Lemma reads_resolve_endpoint n : evolves eq (resolve_endpoint n).
Proof using. unfold resolve_endpoint. evolve. Qed.

Lemma reads_maximumAuthorization n : evolves eq (maximumAuthorization n).
Proof using. unfold maximumAuthorization, select_leases. evolve. Qed.

Lemma reads_previousLeasesSafe now i l : evolves eq (previousLeasesSafe now i l).
Proof using. unfold previousLeasesSafe. evolve. Qed.

Lemma reads_sessionAuthoritySafe now n e : evolves eq (sessionAuthoritySafe now n e).
Proof using. unfold sessionAuthoritySafe. evolve. Qed.

Lemma reads_tombstones n g : evolves eq (tombstones n g).
Proof using. unfold tombstones. evolve. Qed.

Lemma reads_authoritative n : evolves eq (authoritative n).
Proof using. unfold authoritative. evolve. Qed.
End Reads.

#[export] Hint Resolve reads_find_forward reads_record_of reads_select_forwards reads_authorizer reads_latest reads_get_operation reads_lockNode
  reads_verifyPublishable reads_scope reads_state reads_facts reads_credential reads_cleanupFacts reads_authorizedRelayNode reads_authorized
  reads_canExecute reads_relayCredentialFacts reads_resolve reads_resolve_endpoint reads_maximumAuthorization reads_previousLeasesSafe
  reads_sessionAuthoritySafe reads_tombstones reads_authoritative : evolves.
