(* ===== verification/PathTemplates.v ===== *)
(** Native path templates (apps/control/src/application/path-templates.ts, their store
    infrastructure/mysql-path-templates.ts and the reference checks of
    modules/native-path-references.ts): immutable, numbered revisions of a path, published and
    archived by compare-and-set. *)

From S2P Require Import Prelude.
From S2P Require Import JsString.
From S2P Require Import JsValue.
From S2P Require Import Primitives.
From S2P Require Import Json.
From S2P Require Import Forward.
From S2P Require Import Digest.
From S2P Require Import Schema.
From S2P Require Import Relay.
From S2P Require Import TargetPolicy.
From S2P Require Import RelayPlan.
From S2P Require Import PathContract.
From S2P Require Import Iso.
From S2P Require Import Store.
From S2P Require Import Idempotency.
From S2P Require Import Forwarding.
From S2P Require Import Identity.
From S2P Require Import Nodes.
From S2P Require Import Profiles.
From S2P Require Import Reads.

Local Open Scope Z_scope.

(** [PATH_TEMPLATE_LIMITS] *)
Definition templatesPerScope : Z := 128.
Definition revisionsPerTemplate : Z := 64.

(** [Number.isSafeInteger(at) && 0 <= at && at <= 8640000000000000] *)
Definition valid_time (at_ : Z) : bool := (0 <=? at_) && (at_ <=? 8640000000000000).

(** [{ config, profileDigest }] *)
Definition template_body (c : PathTemplateConfig) (profileDigest : jsstr) : json :=
  JObj [(js "config", template_json c); (js "profileDigest", JStr profileDigest)].

Definition integrity {A} (m : string) : tx A := throw "INTEGRITY_FAILURE" m.

Definition validateTemplateHead (templateId : jsstr) (h : TemplateRow) : tx unit :=
  require (is_id templateId && is_counter false (tm_current_revision h) && (tm_current_revision h <=? revisionsPerTemplate))
    "INTEGRITY_FAILURE" "Invalid persisted PathTemplate head".

(** ** The store *)

Definition template_head (scopeId templateId : jsstr) : tx (option TemplateRow) := query (fun d => db_templates d !! (scopeId, templateId)).
Definition template_revision (scopeId templateId : jsstr) (n : Z) : tx (option TemplateRevision) :=
  query (fun d => db_template_revisions d !! (scopeId, templateId, n)).

Definition count_templates (scopeId : jsstr) (d : Db) : Z :=
  Z.of_nat (length (List.filter (fun kr : (jsstr * jsstr) * TemplateRow => str_eqb kr.1.1 scopeId) (map_to_list (db_templates d)))).

Definition set_current (n : Z) (h : TemplateRow) : TemplateRow := MkTemplateRow n (tm_archived h).
Definition set_archived (h : TemplateRow) : TemplateRow := MkTemplateRow (tm_current_revision h) true.

Definition store_template (scopeId templateId : jsstr) (n : Z) (r : TemplateRevision) : tx unit :=
  _ ← (if n =? 1 then insert_row db_templates with_templates (scopeId, templateId) (MkTemplateRow 1 false) else mret tt);
  _ ← insert_row db_template_revisions with_template_revisions (scopeId, templateId, n) r;
  modify (with_templates (alter (set_current n) (scopeId, templateId))).

Definition store_archive (scopeId templateId : jsstr) : tx unit := modify (with_templates (alter set_archived (scopeId, templateId))).

Definition audit_template (scopeId templateId actor : jsstr) (n : Z) (kind : string) (at_ : Z) : tx unit :=
  modify (with_template_events (fun l => l ++ [MkTemplateEvent scopeId templateId actor n (js kind) at_])).

Section Templates.
Context `{Hashing, Schema RelayProfileConfig}.

(** The configuration of a revision, parsed and checked against its digest. *)
Definition validateTemplateRevision (r : TemplateRevision) (n : Z) : tx PathTemplateConfig :=
  match parsePathTemplate (to_jsv (template_json (tr_config r))) with
  | Throws _ => integrity "Invalid persisted PathTemplate configuration"
  | Returns config =>
      _ ← require (is_counter false n && (n <=? revisionsPerTemplate) && is_id (tr_created_by r) && valid_time (tr_created_at r) &&
                   is_fingerprint (tr_profile_digest r) && is_fingerprint (tr_config_digest r))
            "INTEGRITY_FAILURE" "Invalid persisted immutable PathTemplate revision";
      expected ← lift (digest (template_body config (tr_profile_digest r)));
      _ ← require (str_eqb (tr_config_digest r) expected) "INTEGRITY_FAILURE" "Invalid persisted immutable PathTemplate revision";
      mret config
  end.

(** ** References *)

Definition validate_node (now : Z) (actor scopeId : jsstr) (required : list jsstr) (nodeId : jsstr) : tx unit :=
  node ← authorizedRelayNode now actor scopeId nodeId;
  require (str_eqb (nf_nodeId node) nodeId && str_eqb (nf_scopeId node) scopeId && forallb (includes (nf_capabilities node)) required)
    "UNSUPPORTED_CAPABILITY" "Every template Node must declare the required native capabilities".

Definition validate_endpoint (binding : TemplateEndpoint) : tx unit :=
  e ← resolve_endpoint (tep_nodeId binding);
  require (str_eqb (rse_nodeId e) (tep_nodeId binding) && (rse_revision e =? tep_revision binding))
    "REVISION_CONFLICT" "Template Endpoint revision changed; prepare an explicit new template proposal".

(** [NativePathReferences.validate]: the digest of the Profile. *)
Definition validate_references (now : Z) (actor scopeId : jsstr) (c : PathTemplateConfig) : tx jsstr :=
  _ ← for_each (validate_node now actor scopeId (pathRequirements c)) (sort_by str_leb (tpl_nodes c));
  profile ← resolve actor scopeId (profileId (tpl_transport c)) (configRevision (tpl_transport c));
  _ ← require (str_eqb (rpf_profileId profile) (profileId (tpl_transport c)) && (rpf_revision profile =? configRevision (tpl_transport c)) &&
               forallb (includes (rp_protocols (rpf_config profile))) (tpl_protocols c))
        "INTEGRITY_FAILURE" "Template Profile binding or business protocols differ";
  _ ← for_each validate_endpoint (sort_by (fun a b => str_leb (tep_nodeId a) (tep_nodeId b)) (tpl_endpoints c));
  mret (rpf_configDigest profile).

(** ** Commands *)

Definition template_path (scopeId templateId : jsstr) : jsstr := js "/api/v1/scopes/" ++ scopeId ++ js "/path-templates/" ++ templateId.

Definition template_request (scopeId templateId : jsstr) (expectedRevision : Z) (config : option PathTemplateConfig) : json :=
  JObj ([(js "method", JStr (js (match config with Some _ => "PUT" | None => "DELETE" end))); (js "path", JStr (template_path scopeId templateId));
         (js "expectedRevision", JInt expectedRevision)] ++ match config with Some c => [(js "config", template_json c)] | None => [] end).

Definition template_response (templateId : jsstr) (n : Z) (configDigest : jsstr) (archived changed : bool) : Response :=
  MkResponse (if changed then 202 else 200)
    (JObj [(js "templateId", JStr templateId); (js "revision", JInt n); (js "configDigest", JStr configDigest);
           (js "archived", JBool archived); (js "changed", JBool changed)]).

(** The current head and revision, checked; [None] when the template does not exist. *)
Definition current_template (scopeId templateId : jsstr) (expectedRevision : Z) (config : option PathTemplateConfig)
    : tx (option (TemplateRow * TemplateRevision)) :=
  found ← template_head scopeId templateId;
  _ ← match found with Some h => validateTemplateHead templateId h | None => mret tt end;
  _ ← require (match found with Some h => tm_current_revision h | None => 0 end =? expectedRevision) "REVISION_CONFLICT" "PathTemplate revision conflict";
  match found with
  | None => match config with Some _ => mret None | None => notFound end
  | Some h =>
      _ ← require (negb (bool_decide (is_Some config) && tm_archived h)) "TEMPLATE_ARCHIVED" "Archived template identifiers cannot be reused";
      old ← template_revision scopeId templateId (tm_current_revision h);
      match old with
      | None => integrity "Current PathTemplate revision is missing"
      | Some r => _ ← validateTemplateRevision r (tm_current_revision h); mret (Some (h, r))
      end
  end.

Definition publish_template (now : Z) (actor scopeId templateId : jsstr) (expectedRevision : Z) (c : PathTemplateConfig)
    (current : option (TemplateRow * TemplateRevision)) : tx Response :=
  profileDigest ← validate_references now actor scopeId c;
  _ ← require (is_fingerprint profileDigest) "INTEGRITY_FAILURE" "Invalid immutable Profile digest";
  configDigest ← lift (digest (template_body c profileDigest));
  let changed := match current with Some (_, r) => negb (str_eqb (tr_config_digest r) configDigest) | None => true end in
  if negb changed then mret (template_response templateId expectedRevision configDigest false false) else
  let n := expectedRevision + 1 in
  _ ← require (n <=? revisionsPerTemplate) "RESOURCE_LIMIT" "PathTemplate immutable revision limit reached";
  count ← query (count_templates scopeId);
  _ ← require (negb (negb (bool_decide (is_Some current)) && (templatesPerScope <=? count)))
        "RESOURCE_LIMIT" "Scope PathTemplate limit reached, including archived identifiers";
  _ ← store_template scopeId templateId n (MkTemplateRevision c profileDigest configDigest actor now);
  _ ← audit_template scopeId templateId actor n "publish" now;
  mret (template_response templateId n configDigest false true).

Definition archive_template (now : Z) (actor scopeId templateId : jsstr) (expectedRevision : Z) (h : TemplateRow) (r : TemplateRevision) : tx Response :=
  let changed := negb (tm_archived h) in
  _ ← (if changed then _ ← store_archive scopeId templateId; audit_template scopeId templateId actor expectedRevision "archive" now else mret tt);
  mret (template_response templateId expectedRevision (tr_config_digest r) true changed).

Definition template_once (now : Z) (actor scopeId templateId : jsstr) (expectedRevision : Z) (config : option PathTemplateConfig) : tx Response :=
  current ← current_template scopeId templateId expectedRevision config;
  _ ← require (valid_time now) "INTEGRITY_FAILURE" "Invalid template command time";
  match config, current with
  | Some c, _ => publish_template now actor scopeId templateId expectedRevision c current
  | None, Some (h, r) => archive_template now actor scopeId templateId expectedRevision h r
  | None, None => notFound
  end.

Definition template_command (now : Z) (actor scopeId templateId : jsstr) (key : option jsstr) (expectedRevision : Z) (config : option PathTemplateConfig)
    : tx Response :=
  _ ← require (is_id actor && is_id scopeId && is_id templateId) "INVALID_CONFIG" "Valid PathTemplate identity required";
  match key with
  | None => invalid_input "CAS and Idempotency-Key required"
  | Some key =>
      _ ← require (is_counter true expectedRevision && valid_key key) "INVALID_CONFIG" "CAS and Idempotency-Key required";
      requestDigest ← lift (digest (template_request scopeId templateId expectedRevision config));
      _ ← scope actor scopeId true;
      once (MkRequest actor scopeId key requestDigest) (template_once now actor scopeId templateId expectedRevision config)
  end.

Definition publish_path_template (now : Z) (actor scopeId templateId : jsstr) (key : option jsstr) (expectedRevision : Z) (input : jsv) : tx Response :=
  c ← lift (parsePathTemplate input);
  template_command now actor scopeId templateId key expectedRevision (Some c).

Definition archive_path_template (now : Z) (actor scopeId templateId : jsstr) (key : option jsstr) (expectedRevision : Z) : tx Response :=
  _ ← require (negb (expectedRevision =? 0)) "INVALID_CONFIG" "Archival requires an existing template revision";
  template_command now actor scopeId templateId key expectedRevision None.

(** [PathTemplateQueries.get]: the head, the number, the record and its configuration. *)
Definition get_template (actor scopeId templateId : jsstr) (requested : option Z) : tx (TemplateRow * Z * TemplateRevision * PathTemplateConfig * jsstr) :=
  _ ← require (is_id actor && is_id scopeId && is_id templateId) "INVALID_CONFIG" "Valid PathTemplate identity required";
  _ ← require (match requested with Some n => is_counter false n | None => true end) "INVALID_CONFIG" "Canonical PathTemplate revision required";
  _ ← scope actor scopeId false;
  found ← template_head scopeId templateId;
  match found with
  | None => notFound
  | Some h =>
      _ ← validateTemplateHead templateId h;
      let n := default (tm_current_revision h) requested in
      stored ← template_revision scopeId templateId n;
      match stored with
      | None => notFound
      | Some r => config ← validateTemplateRevision r n; created ← lift (toISOString (tr_created_at r)); mret (h, n, r, config, created)
      end
  end.
End Templates.

(** ** Published revisions are immutable, archival is final *)

Section Immutable.
Context `{Hashing, Schema RelayProfileConfig}.

Record templates_ok (d : Db) : Prop := {
  tk_head : forall s t h, db_templates d !! (s, t) = Some h -> 1 <= tm_current_revision h <= revisionsPerTemplate /\
    forall n, 1 <= n <= tm_current_revision h -> is_Some (db_template_revisions d !! (s, t, n));
  tk_revision : forall s t n r, db_template_revisions d !! (s, t, n) = Some r ->
    (exists h, db_templates d !! (s, t) = Some h /\ 1 <= n <= tm_current_revision h) /\ template_wf (tr_config r) /\
    digests_to (template_body (tr_config r) (tr_profile_digest r)) (tr_config_digest r);
  tk_count : forall s, count_templates s d <= templatesPerScope;
}.

(** Revisions are only added, and to live templates only. *)
Record templates_le (d d' : Db) : Prop := {
  tl_revisions : db_template_revisions d ⊆ db_template_revisions d';
  tl_head : forall k h, db_templates d !! k = Some h -> exists h', db_templates d' !! k = Some h' /\ tm_current_revision h <= tm_current_revision h' /\
    (tm_archived h = true -> h' = h);
}.

#[export] Instance templates_le_preorder : PreOrder templates_le.
Proof using.
  split; [intros d; split; [done|intros k h Hk; exists h; split_and!; try done; lia]|].
  intros d d1 d2 [R1 H1] [R2 H2]. split; [by etransitivity|]. intros k h (h1 & E1 & L1 & A1)%H1. destruct (H2 k h1 E1) as (h2 & E2 & L2 & A2).
  exists h2. split_and!; [done|lia|]. intros Ha. specialize (A1 Ha) as ->. by apply A2.
Qed.

Definition same_templates (d d' : Db) : Prop := db_templates d' = db_templates d /\ db_template_revisions d' = db_template_revisions d.

Lemma same_templates_step d d' : same_templates d d' -> templates_le d d' /\ (templates_ok d -> templates_ok d').
Proof using.
  intros [E F]. split.
  - split; rewrite ?E, ?F; [done|]. intros k h Hk. exists h. split_and!; try done; lia.
  - intros [A B C]. split; [rewrite E, F; exact A|rewrite E, F; exact B|]. intros s. unfold count_templates. rewrite E. apply C.
Qed.

Lemma count_insert {K V} `{Countable K} (p : K * V -> bool) (m : gmap K V) k v : m !! k = None ->
  length (List.filter p (map_to_list (<[k := v]> m))) = ((if p (k, v) then 1 else 0) + length (List.filter p (map_to_list m)))%nat.
Proof using.
  intros Hk. assert (Hp : forall l1 l2 : list (K * V), l1 ≡ₚ l2 -> length (List.filter p l1) = length (List.filter p l2)).
  { induction 1 as [|x l1 l2 _ IH|x y l|l1 l2 l3 _ IH1 _ IH2]; cbn; [done| | |congruence]; repeat case_match; cbn; lia. }
  rewrite (Hp _ _ (map_to_list_insert m k v Hk)). cbn. by destruct (p (k, v)).
Qed.

Lemma count_update {K V} `{Countable K} (p : K -> bool) (m : gmap K V) k v v' : m !! k = Some v ->
  length (List.filter (fun kv => p kv.1) (map_to_list (<[k := v']> m))) = length (List.filter (fun kv => p kv.1) (map_to_list m)).
Proof using.
  intros Hk. rewrite <- (insert_delete_id m k v Hk) at 2. rewrite <- insert_delete_eq.
  rewrite !count_insert by apply lookup_delete_eq. done.
Qed.

Lemma templates_archive s t d : templates_ok d -> templates_ok (with_templates (alter set_archived (s, t)) d) /\ templates_le d (with_templates (alter set_archived (s, t)) d).
Proof using.
  intros [A B C]. set (d' := with_templates _ d).
  assert (E : forall k, db_templates d' !! k = if decide (k = (s, t)) then set_archived <$> db_templates d !! k else db_templates d !! k).
  { intros k. unfold d', db_templates, with_templates, with_paths. cbn. case_decide as Ek; [subst; by rewrite lookup_alter_eq|by rewrite lookup_alter_ne]. }
  assert (F : db_template_revisions d' = db_template_revisions d) by done. split; split.
  - intros s' t' h. rewrite E, F. case_decide as Ek; [|apply A]. destruct (db_templates d !! (s', t')) as [h0|] eqn:E0; [|done].
    cbn. intros [= <-]. exact (A s' t' h0 E0).
  - intros s' t' n r. rewrite F. intros Hr. destruct (B s' t' n r Hr) as [(h & Hh & Hn) Hrest]. split; [|done]. rewrite E.
    case_decide; [|by exists h]. rewrite Hh. cbn. by eexists.
  - intros s'. unfold count_templates. destruct (db_templates d !! (s, t)) as [h0|] eqn:E0.
    + unfold d', db_templates, with_templates, with_paths. cbn. unfold db_templates in E0. rewrite (alter_present _ _ _ h0 E0).
      rewrite (count_update (fun k : jsstr * jsstr => str_eqb k.1 s') _ _ _ _ E0). apply C.
    + unfold d', db_templates, with_templates, with_paths. cbn. unfold db_templates in E0. rewrite alter_id' by done. apply C.
  - by rewrite F.
  - intros k h Hk. rewrite E. case_decide; rewrite Hk; cbn; eexists; split_and!; try done; try lia. by destruct h as [? []].
Qed.
(** The next revision of an existing template, or the first of a new one. *)
Lemma store_template_ok s t n r d u d' : templates_ok d -> store_template s t n r d = Returns (u, d') ->
  n = match db_templates d !! (s, t) with Some h => tm_current_revision h + 1 | None => 1 end ->
  (forall h, db_templates d !! (s, t) = Some h -> tm_archived h = false) -> n <= revisionsPerTemplate ->
  (db_templates d !! (s, t) = None -> count_templates s d < templatesPerScope) ->
  template_wf (tr_config r) -> digests_to (template_body (tr_config r) (tr_profile_digest r)) (tr_config_digest r) ->
  templates_ok d' /\ templates_le d d'.
Proof using.
  intros [A B C] Hr Hn Harch Hmax Hcount Hwf Hdig. unfold store_template in Hr.
  apply tx_bind_Returns in Hr as ([] & d1 & Hins & Hr). apply tx_bind_Returns in Hr as ([] & d2 & [Hfresh ->]%insert_row_Returns & ->%modify_Returns).
  assert (Hnew : db_template_revisions d1 = db_template_revisions d /\ exists h1, db_templates d1 = <[(s, t) := h1]> (db_templates d) /\
    tm_archived h1 = false /\ (tm_current_revision h1 <= n) /\ (forall h, db_templates d !! (s, t) = Some h -> h1 = h) /\ 1 <= n /\
    forall s', count_templates s' d1 <= templatesPerScope).
  { destruct (db_templates d !! (s, t)) as [h|] eqn:Eh.
    - pose proof (proj1 (A s t h Eh)). replace (n =? 1) with false in Hins by (symmetry; apply Z.eqb_neq; lia). tx_inv. split; [done|].
      exists h. rewrite insert_id by done. split_and!; try done; try lia; [by apply Harch|by intros ? [= ->]].
    - subst n. cbn in Hins. apply insert_row_Returns in Hins as [_ ->]. split; [done|]. exists (MkTemplateRow 1 false).
      split_and!; try done; try lia. intros s'. unfold count_templates, db_templates, with_templates, with_paths. cbn. unfold db_templates in Eh.
      rewrite count_insert by done. cbn [fst]. specialize (C s'). unfold count_templates, db_templates in C, Hcount.
      destruct (str_eqb s s') eqn:Es; [|lia]. apply bool_decide_eq_true in Es as <-. specialize (Hcount eq_refl). lia. }
  destruct Hnew as (Er & h1 & Et & Ha1 & Hle1 & Hold & Hn1 & Hc1). set (d' := with_templates _ _).
  assert (ET : db_templates d' = <[(s, t) := MkTemplateRow n false]> (db_templates d)).
  { unfold d', with_templates, with_template_revisions, with_paths, db_templates. cbn. fold (db_templates d1). rewrite Et.
    rewrite (alter_present _ _ _ h1) by apply lookup_insert_eq. rewrite insert_insert_eq. unfold set_current. by rewrite Ha1. }
  assert (ER : db_template_revisions d' = <[(s, t, n) := r]> (db_template_revisions d)).
  { unfold d', with_templates, with_template_revisions, with_paths, db_template_revisions. cbn. fold (db_template_revisions d1). by rewrite Er. }
  rewrite Er in Hfresh. split; split.
  - intros s' t' h. rewrite ET, ER. destruct (decide ((s', t') = (s, t))) as [[= -> ->]|Hk].
    + rewrite lookup_insert_eq. intros [= <-]. cbn. split; [lia|]. intros m Hm. destruct (decide (m = n)) as [->|Hmn]; [by rewrite lookup_insert_eq|].
      rewrite lookup_insert_ne by congruence. destruct (db_templates d !! (s, t)) as [h|] eqn:Eh; [|lia]. apply (A s t h Eh). lia.
    + rewrite lookup_insert_ne by congruence. intros Hh. split; [by eapply A|]. intros m Hm. rewrite lookup_insert_ne by congruence. by eapply A.
  - intros s' t' m r'. rewrite ET, ER. destruct (decide ((s', t', m) = (s, t, n))) as [[= -> -> ->]|Hk].
    + rewrite lookup_insert_eq. intros [= <-]. split; [|done]. rewrite lookup_insert_eq. eexists. split; [done|]. cbn. lia.
    + rewrite lookup_insert_ne by congruence. intros Hr'. destruct (B s' t' m r' Hr') as [(h & Hh & Hm) Hrest]. split; [|done].
      destruct (decide ((s', t') = (s, t))) as [[= -> ->]|Hst]; [|rewrite lookup_insert_ne by congruence; by exists h].
      rewrite lookup_insert_eq. eexists. split; [done|]. cbn. rewrite Hh in Hn. lia.
  - intros s'. unfold count_templates. rewrite ET. specialize (Hc1 s'). unfold count_templates in Hc1. rewrite Et in Hc1.
    rewrite <- (insert_insert_eq (db_templates d) (s, t) (MkTemplateRow n false) h1).
    by rewrite (count_update (fun k : jsstr * jsstr => str_eqb k.1 s') _ _ h1) by apply lookup_insert_eq.
  - rewrite ER. by apply insert_subseteq.
  - intros k h Hk. rewrite ET. destruct (decide (k = (s, t))) as [->|Hne]; [|rewrite lookup_insert_ne by done; exists h; split_and!; try done; lia].
    rewrite lookup_insert_eq. eexists. split; [done|]. rewrite (Hold h Hk) in Hle1. split; [cbn; lia|]. rewrite (Harch h Hk). done.
Qed.
Lemma reads_validateTemplateRevision r n : evolves eq (validateTemplateRevision r n).
Proof using. unfold validateTemplateRevision, integrity. evolve. Qed.

Lemma reads_validate_references now a s c : evolves eq (validate_references now a s c).
Proof using. unfold validate_references, validate_node, validate_endpoint. evolve. Qed.

Lemma current_template_Returns s t expected config d cur d' : current_template s t expected config d = Returns (cur, d') -> d' = d /\
  match cur with
  | Some (h, r) => db_templates d !! (s, t) = Some h /\ tm_current_revision h = expected /\ (is_Some config -> tm_archived h = false) /\
                   db_template_revisions d !! (s, t, expected) = Some r
  | None => db_templates d !! (s, t) = None /\ expected = 0 /\ is_Some config
  end.
Proof using.
  unfold current_template, template_head, template_revision, validateTemplateHead. intros Hr.
  apply tx_bind_Returns in Hr as (found & d1 & [-> ->]%query_Returns & Hr). apply tx_bind_Returns in Hr as ([] & d1 & Hv & Hr).
  assert (d1 = d) as -> by (destruct (db_templates d !! (s, t)); tx_inv; done).
  apply tx_bind_Returns in Hr as ([] & d1 & [He%Z.eqb_eq ->]%require_Returns & Hr).
  destruct (db_templates d !! (s, t)) as [h|]; [|destruct config; [|done]; tx_inv; by eauto].
  apply tx_bind_Returns in Hr as ([] & d1 & [Ha ->]%require_Returns & Hr). apply tx_bind_Returns in Hr as (old & d1 & [-> ->]%query_Returns & Hr).
  rewrite He in Hr. destruct (db_template_revisions d !! (s, t, expected)) as [r|]; [|done].
  apply tx_bind_Returns in Hr as (c & d1 & Hc & [-> ->]%mret_Returns). apply reads_validateTemplateRevision in Hc as <-. split_and!; try done.
  intros Hs. apply negb_true_iff in Ha. rewrite bool_decide_eq_true_2 in Ha by done. done.
Qed.

Lemma audit_same s t a n k at_ : evolves same_templates (audit_template s t a n k at_).
Proof using. apply evolves_modify. intros d. by split. Qed.

Lemma template_once_ok now a s t expected config d r d' : templates_ok d -> (forall c, config = Some c -> template_wf c) ->
  template_once now a s t expected config d = Returns (r, d') -> templates_ok d' /\ templates_le d d'.
Proof using.
  intros Hok Hwf Hr. unfold template_once in Hr. apply tx_bind_Returns in Hr as (cur & d1 & [-> Hcur]%current_template_Returns & Hr).
  apply tx_bind_Returns in Hr as ([] & d1 & [_ ->]%require_Returns & Hr). destruct config as [c|].
  - specialize (Hwf c eq_refl). unfold publish_template in Hr. apply tx_bind_Returns in Hr as (pd & d1 & Hv & Hr).
    apply reads_validate_references in Hv as <-. apply tx_bind_Returns in Hr as ([] & d1 & [_ ->]%require_Returns & Hr).
    apply tx_bind_Returns in Hr as (cd & d1 & [Hd ->]%lift_Returns & Hr). cbn zeta in Hr.
    destruct (negb (match cur with Some _ => _ | None => true end)); [tx_inv; split; [done|reflexivity]|].
    apply tx_bind_Returns in Hr as ([] & d1 & [Hmax%Z.leb_le ->]%require_Returns & Hr). apply tx_bind_Returns in Hr as (n & d1 & [-> ->]%query_Returns & Hr).
    apply tx_bind_Returns in Hr as ([] & d1 & [Hlim ->]%require_Returns & Hr). apply tx_bind_Returns in Hr as ([] & d1 & Hst & Hr).
    apply tx_bind_Returns in Hr as ([] & d2 & Hau & [-> ->]%mret_Returns). apply audit_same, same_templates_step in Hau as [L2 K2].
    eapply store_template_ok in Hst as [K1 L1]; try done.
    + split; [by apply K2|by etransitivity].
    + destruct cur as [[h r0]|]; [destruct Hcur as (-> & -> & _)|destruct Hcur as (-> & -> & _)]; done.
    + intros h Hh. destruct cur as [[h0 r0]|]; [|destruct Hcur as (Hn & _); congruence]. destruct Hcur as (Hh0 & _ & Harch & _).
      assert (h0 = h) as <- by congruence. by apply Harch.
    + intros Hn. destruct cur as [[h0 r0]|]; [destruct Hcur; congruence|]. cbn in Hlim. apply negb_true_iff, Z.leb_gt in Hlim. done.
  - destruct cur as [[h r0]|]; [|by destruct Hcur as (_ & _ & []%is_Some_None)]. unfold archive_template in Hr. cbn zeta in Hr.
    apply tx_bind_Returns in Hr as ([] & d1 & Hw & [-> ->]%mret_Returns). destruct (negb (tm_archived h)); [|tx_inv; split; [done|reflexivity]].
    apply tx_bind_Returns in Hw as ([] & d2 & ->%modify_Returns & Hau). apply audit_same, same_templates_step in Hau as [L2 K2].
    destruct (templates_archive s t d Hok) as [K1 L1]. split; [by apply K2|by etransitivity].
Qed.

(** The commands on templates, among transactions that leave the tables alone. *)
Inductive template_step : Db -> Db -> Prop :=
  | ts_publish now a s t key expected input r d d' : publish_path_template now a s t key expected input d = Returns (r, d') -> template_step d d'
  | ts_archive now a s t key expected r d d' : archive_path_template now a s t key expected d = Returns (r, d') -> template_step d d'
  | ts_other d d' : same_templates d d' -> template_step d d'.

Lemma claim_templates r : evolves same_templates (claim r).
Proof using. intros d res d' (-> & _)%claim_spec. by split. Qed.

Lemma template_command_ok now a s t key expected config d r d' : templates_ok d -> (forall c, config = Some c -> template_wf c) ->
  template_command now a s t key expected config d = Returns (r, d') -> templates_ok d' /\ templates_le d d'.
Proof using.
  intros Hok Hwf Hr. unfold template_command in Hr. apply tx_bind_Returns in Hr as ([] & d1 & [_ ->]%require_Returns & Hr).
  destruct key as [key|]; [|done]. apply tx_bind_Returns in Hr as ([] & d1 & [_ ->]%require_Returns & Hr).
  apply tx_bind_Returns in Hr as (dg & d1 & [_ ->]%lift_Returns & Hr). apply tx_bind_Returns in Hr as ([] & d1 & Hs & Hr). apply reads_scope in Hs as <-.
  unfold once in Hr. apply tx_bind_Returns in Hr as (replay & d1 & Hc & Hr). apply claim_templates, same_templates_step in Hc as [L1 K1].
  destruct replay as [rep|]; [tx_inv; by auto|]. apply tx_bind_Returns in Hr as (resp & d2 & Hact & Hr).
  apply tx_bind_Returns in Hr as ([] & d3 & ->%modify_Returns & [-> ->]%mret_Returns).
  apply template_once_ok in Hact as [K2 L2]; [|by apply K1|done]. edestruct (same_templates_step d2) as [L3 K3]; [|split; [by apply K3|]].
  - by split.
  - etransitivity; [exact L1|]. etransitivity; [exact L2|exact L3].
Qed.

Lemma template_step_ok d d' : template_step d d' -> templates_ok d -> templates_ok d' /\ templates_le d d'.
Proof using.
  destruct 1 as [now a s t key expected input r d d' Hr|now a s t key expected r d d' Hr|d d' Hs]; intros Hok.
  - unfold publish_path_template in Hr. apply tx_bind_Returns in Hr as (c & d1 & [Hc ->]%lift_Returns & Hr).
    eapply template_command_ok; [done| |exact Hr]. intros c' [= <-]. by eapply parsePathTemplate_wf.
  - unfold archive_path_template in Hr. apply tx_bind_Returns in Hr as ([] & d1 & [_ ->]%require_Returns & Hr).
    eapply template_command_ok in Hr; [exact Hr|done|intros c [=]].
  - apply same_templates_step in Hs as [L K]. by auto.
Qed.

(** C30. Path templates are immutable.  Through any sequence of publications, archivals and
    other transactions: the revisions of every template are numbered from 1 to its current
    one without gaps, each is a well-formed path and carries the digest of itself with its
    Profile; no revision is ever changed or removed; an archived template never changes
    again; a template has at most 64 revisions and a scope at most 128 templates. *)
Theorem templates_immutable (d d' : Db) : templates_ok d -> rtc template_step d d' -> templates_ok d' /\ templates_le d d'.
Proof using.
  intros Hok Hrun. induction Hrun as [d|d d1 d2 Hs _ IH]; [split; [done|reflexivity]|].
  apply template_step_ok in Hs as [K1 L1]; [|done]. destruct (IH K1) as [K2 L2]. split; [done|by etransitivity].
Qed.
End Immutable.
