(* ===== verification/PathBindings.v ===== *)
(** Path bindings (apps/control/src/application/path-bindings.ts and its store
    infrastructure/mysql-path-bindings.ts): the immutable provenance of the path of a Forward,
    which says from which revision of which template it was expanded. *)

From S2P Require Import Prelude.
From S2P Require Import JsString.
From S2P Require Import JsValue.
From S2P Require Import Primitives.
From S2P Require Import Json.
From S2P Require Import Forward.
From S2P Require Import Digest.
From S2P Require Import Schema.
From S2P Require Import Relay.
From S2P Require Import Planner.
From S2P Require Import RelayPlan.
From S2P Require Import PathContract.
From S2P Require Import Iso.
From S2P Require Import Store.
From S2P Require Import Forwarding.
From S2P Require Import Identity.
From S2P Require Import Profiles.
From S2P Require Import Reads.
From S2P Require Import PathTemplates.

Local Open Scope Z_scope.

(** [PathBindingRecord]: the row and its sequence *)
Abbreviation binding_record := (Z * BindingRow)%type.

Record PathBindingReceipt := MkReceipt { br_selection : PathSelection; br_sequence : Z; br_forwardRevision : Z; br_changed : bool }.

(** [{ ingressNode, protocols, path: path ?? null, transport: transport ?? null }] *)
Definition topology_json (s : ForwardSpec) : json :=
  JObj [(js "ingressNode", JStr (ingress_nodeId s)); (js "protocols", JArr (map (fun p => JStr (protocol_name p)) (protocols s)));
        (js "path", match path_via s with Some via => JObj [(js "via", JArr (map JStr via))] | None => JNull end);
        (js "transport", match transport s with
                         | Some t => JObj [(js "profileId", JStr (profileId t)); (js "configRevision", JInt (configRevision t))]
                         | None => JNull end)].

(** ** The store *)

(** [FROM current_path_bindings c JOIN forward_path_bindings b ... JOIN forwards f ... WHERE f.scope_id=? AND b.scope_id=? AND f.id=?] *)
Definition joined (scopeId forwardId : jsstr) (d : Db) : option binding_record :=
  n ← db_current_bindings d !! forwardId;
  b ← db_bindings d !! (forwardId, n);
  f ← db_forwards d !! forwardId;
  if str_eqb (fw_scope_id f) scopeId && str_eqb (bd_scope_id b) scopeId then Some (n, b) else None.

Definition current_binding (scopeId forwardId : jsstr) : tx (option binding_record) := query (joined scopeId forwardId).

Definition by_sequence (a b : binding_record) : bool := a.1 <=? b.1.

Definition binding_history (scopeId forwardId : jsstr) : tx (list binding_record) :=
  rows ← select db_bindings (fun k b => str_eqb k.1 forwardId && str_eqb (bd_scope_id b) scopeId);
  f ← query (fun d => db_forwards d !! forwardId);
  mret (match f with
        | Some r => if str_eqb (fw_scope_id r) scopeId then sort_by by_sequence (map (fun kb : (jsstr * Z) * BindingRow => (kb.1.2, kb.2)) rows) else []
        | None => [] end).

(** [COALESCE(MAX(sequence),0)] of the bindings of the Forward *)
Definition last_binding (forwardId : jsstr) (d : Db) : Z :=
  fold_right (fun kb m => if str_eqb kb.1.1 forwardId then Z.max kb.1.2 m else m) 0 (map_to_list (db_bindings d)).

Definition append_binding (forwardId : jsstr) (record : BindingRow) : tx binding_record :=
  previous ← query (last_binding forwardId);
  _ ← require (is_counter true previous) "INTEGRITY_FAILURE" "Invalid persisted path binding sequence";
  _ ← require (negb (64 <=? previous)) "RESOURCE_LIMIT" "Forward immutable path binding limit reached";
  let sequence := previous + 1 in
  _ ← insert_row db_bindings with_bindings (forwardId, sequence) record;
  _ ← modify (with_current_bindings (insert forwardId sequence));
  mret (sequence, record).

(** [DELETE c FROM current_path_bindings c JOIN forward_path_bindings b ... WHERE c.forward_id=? AND b.scope_id=?] *)
Definition detach_binding (scopeId forwardId : jsstr) : tx unit :=
  modify (fun d => match db_current_bindings d !! forwardId ≫= fun n => db_bindings d !! (forwardId, n) with
                   | Some b => if str_eqb (bd_scope_id b) scopeId then with_current_bindings (delete forwardId) d else d
                   | None => d end).

Section Bindings.
Context `{Hashing, Schema RelayProfileConfig}.

Definition sameTopology (a b : ForwardSpec) : tx bool :=
  da ← lift (digest (topology_json a)); db ← lift (digest (topology_json b)); mret (str_eqb da db).

(** [template]: the exact revision a selection names *)
Definition selected_template (scopeId : jsstr) (s : PathSelection) (requireActive : bool) : tx (TemplateRevision * PathTemplateConfig) :=
  found ← template_head scopeId (sel_templateId s);
  match found with
  | None => notFound
  | Some head =>
      _ ← validateTemplateHead (sel_templateId s) head;
      _ ← require (negb (requireActive && tm_archived head)) "TEMPLATE_ARCHIVED" "New bindings cannot use archived templates";
      stored ← template_revision scopeId (sel_templateId s) (sel_revision s);
      match stored with
      | None => notFound
      | Some r =>
          config ← validateTemplateRevision r (sel_revision s);
          _ ← require ((sel_revision s <=? tm_current_revision head) && str_eqb (tr_config_digest r) (sel_configDigest s))
                "REVISION_CONFLICT" "Exact immutable template digest differs";
          mret (r, config)
      end
  end.

(** [checked]: a binding that agrees with its template, and with the current path when required *)
Definition checked_binding (current : Forward) (binding : binding_record) (requireCurrent : bool) : tx unit :=
  let '(sequence, b) := binding in
  _ ← match parsePathSelection (to_jsv (selection_json (bd_selection b))) with
      | Returns _ => mret tt
      | Throws _ => integrity "Invalid immutable template selection in provenance"
      end;
  match parseForwardSpec (to_jsv (spec_json (bd_expanded_spec b))) with
  | Err _ => integrity "Invalid immutable path provenance"
  | Ok parsed =>
      _ ← require (is_counter false sequence && (sequence <=? 64) && is_counter false (bd_forward_revision b) &&
                   (bd_forward_revision b <=? revision current) && is_id (bd_actor_id b) && valid_time (bd_created_at b))
            "INTEGRITY_FAILURE" "Invalid immutable path provenance";
      specDigest ← lift (digest (spec_json parsed));
      _ ← require (str_eqb (bd_spec_digest b) specDigest) "INTEGRITY_FAILURE" "Invalid immutable path provenance";
      '(_, config) ← selected_template (scopeId current) (bd_selection b) false;
      match (expanded ← expandPath parsed config; digest (spec_json expanded)) with
      | Throws _ => integrity "Persisted expanded path is incompatible with immutable template"
      | Returns expandedDigest =>
          _ ← require (str_eqb expandedDigest (bd_spec_digest b)) "INTEGRITY_FAILURE" "Current path differs from immutable provenance";
          same ← (if requireCurrent then sameTopology (spec current) parsed else mret true);
          require same "INTEGRITY_FAILURE" "Current path differs from immutable provenance"
      end
  end.

Definition check_current (current : Forward) (binding : option binding_record) : tx unit :=
  match binding with Some b => checked_binding current b true | None => mret tt end.

(** The references and the expansion [resolve] and [preview] share. *)
Definition expand_template (now : Z) (actor : jsstr) (current : Forward) (rc : TemplateRevision * PathTemplateConfig) : tx ForwardSpec :=
  profileDigest ← validate_references now actor (scopeId current) rc.2;
  _ ← require (str_eqb profileDigest (tr_profile_digest rc.1)) "INTEGRITY_FAILURE" "Immutable Profile digest differs";
  lift (expandPath (spec current) rc.2).

(** [resolve] *)
Definition resolve_binding (now : Z) (actor : jsstr) (current : Forward) (s : PathSelection) : tx ForwardSpec :=
  old ← current_binding (scopeId current) (id current);
  _ ← check_current current old;
  record ← selected_template (scopeId current) s true;
  expand_template now actor current record.

Definition receipt (b : binding_record) (changed : bool) : PathBindingReceipt := MkReceipt (bd_selection b.2) b.1 (bd_forward_revision b.2) changed.

(** [old && sameSelection(old, selection) && sameTopology(next, old.expandedSpec)] *)
Definition rebinds (next : Forward) (s : PathSelection) (old : option binding_record) : tx (option binding_record) :=
  match old with
  | Some (n, b) =>
      if bool_decide (bd_selection b = s) then
        same ← sameTopology (spec next) (bd_expanded_spec b); mret (if same : bool then Some (n, b) else None)
      else mret None
  | None => mret None
  end.

(** [accept] *)
Definition accept_binding (now : Z) (actor : jsstr) (next : Forward) (s : PathSelection) : tx PathBindingReceipt :=
  old ← current_binding (scopeId next) (id next);
  kept ← rebinds next s old;
  match kept with
  | Some b => _ ← checked_binding next b true; mret (receipt b false)
  | None =>
      _ ← require (valid_time now) "INTEGRITY_FAILURE" "Invalid path binding command time";
      specDigest ← lift (digest (spec_json (spec next)));
      record ← append_binding (id next) (MkBindingRow (scopeId next) s (revision next) (spec next) specDigest actor now);
      _ ← checked_binding next record true;
      mret (receipt record true)
  end.

(** [preserve] *)
Definition preserve_binding (current next : Forward) : tx unit :=
  binding ← current_binding (scopeId current) (id current);
  match binding with
  | None => mret tt
  | Some b =>
      _ ← checked_binding current b true;
      same ← sameTopology (spec current) (spec next);
      if same : bool then mret tt else detach_binding (scopeId current) (id current)
  end.

(** One item of the answer of [get]: the record, its time and whether it is the current one. *)
Definition history_item (forward : Forward) (current : option Z) (item : binding_record) : tx (binding_record * jsstr * bool) :=
  let isCurrent := bool_decide (Some item.1 = current) in
  _ ← checked_binding forward item isCurrent;
  createdAt ← lift (toISOString (bd_created_at item.2));
  mret (item, createdAt, isCurrent).

(** [get]: the Forward with its flags, and the checked history. *)
Definition get_binding (actor scopeId_ forwardId : jsstr) : tx (Forward * bool * bool * list (binding_record * jsstr * bool)) :=
  _ ← require (is_id actor && is_id scopeId_ && is_id forwardId) "INVALID_CONFIG" "Valid Forward identity required";
  _ ← scope actor scopeId_ false;
  '(forward, deleting, recoverySuspended) ← record_of scopeId_ forwardId;
  binding ← current_binding scopeId_ forwardId;
  _ ← check_current forward binding;
  history ← binding_history scopeId_ forwardId;
  _ ← require ((length history <=? 64)%nat && bool_decide (map fst history = map Z.of_nat (seq 1 (length history))))
        "INTEGRITY_FAILURE" "Invalid bounded immutable path history";
  items ← collect_each (history_item forward (fst <$> binding)) history;
  _ ← require (match binding with Some b => bool_decide (b.1 ∈ map fst history) | None => true end)
        "INTEGRITY_FAILURE" "Current path pointer is not present in immutable history";
  mret (forward, deleting : bool, recoverySuspended : bool, items).

(** [preview]: the current and the proposed specification, and whether they differ. *)
Definition preview_binding (now : Z) (actor scopeId_ forwardId : jsstr) (expectedRevision : Z) (input : jsv) : tx (ForwardSpec * ForwardSpec * bool) :=
  s ← lift (parsePathSelection input);
  _ ← require (is_id actor && is_id scopeId_ && is_id forwardId && is_counter false expectedRevision)
        "INVALID_CONFIG" "Exact Forward identity and CAS required";
  _ ← scope actor scopeId_ true;
  '(current, deleting, recoverySuspended) ← record_of scopeId_ forwardId;
  _ ← require (negb (deleting || recoverySuspended) && (revision current =? expectedRevision))
        "REVISION_CONFLICT" "Current Forward changed, is deleting or recovery suspended";
  target ← selected_template scopeId_ s true;
  proposed ← expand_template now actor current target;
  before ← lift (digest (spec_json (spec current)));
  after ← lift (digest (spec_json proposed));
  mret (spec current, proposed, negb (str_eqb before after)).
End Bindings.

(** ** Reads and frames *)

Section BindingReads.
Context `{Hashing, Schema RelayProfileConfig}.

Lemma reads_sameTopology a b : evolves eq (sameTopology a b).
Proof using. unfold sameTopology. evolve. Qed.
Hint Resolve reads_sameTopology reads_validateTemplateRevision reads_validate_references : evolves.

Lemma reads_selected_template s sel active : evolves eq (selected_template s sel active).
Proof using. unfold selected_template, template_head, template_revision, validateTemplateHead, notFound. evolve. Qed.
Hint Resolve reads_selected_template : evolves.

Lemma reads_checked_binding current b require_ : evolves eq (checked_binding current b require_).
Proof using. unfold checked_binding, integrity. destruct b as [n b]. evolve. Qed.
Hint Resolve reads_checked_binding : evolves.

Lemma reads_resolve_binding now a f s : evolves eq (resolve_binding now a f s).
Proof using. unfold resolve_binding, current_binding, check_current, expand_template. evolve. Qed.

Lemma reads_rebinds next s old : evolves eq (rebinds next s old).
Proof using. unfold rebinds. evolve. Qed.

Lemma sameTopology_Returns a b d r d' : sameTopology a b d = Returns (r, d') -> d' = d /\
  exists ha hb, digests_to (topology_json a) ha /\ digests_to (topology_json b) hb /\ r = str_eqb ha hb.
Proof using. unfold sameTopology. intros Hr. tx_inv. split; [done|]. by exists a0, a1. Qed.
End BindingReads.

Lemma joined_Some s f d n b : joined s f d = Some (n, b) <->
  exists row, db_current_bindings d !! f = Some n /\ db_bindings d !! (f, n) = Some b /\ db_forwards d !! f = Some row /\
    fw_scope_id row = s /\ bd_scope_id b = s.
Proof.
  unfold joined, str_eqb. destruct (db_current_bindings d !! f) as [m|]; cbn; [|naive_solver].
  destruct (db_bindings d !! (f, m)) as [b'|] eqn:Eb; cbn; [|naive_solver].
  destruct (db_forwards d !! f) as [row|]; cbn; [|naive_solver].
  do 2 case_bool_decide; cbn; naive_solver.
Qed.

(** The last sequence is a bound, and is reached. *)
Lemma last_binding_spec f d : (forall n b, db_bindings d !! (f, n) = Some b -> n <= last_binding f d) /\
  (last_binding f d = 0 \/ is_Some (db_bindings d !! (f, last_binding f d))).
Proof.
  unfold last_binding. assert (Hl : forall l : list ((jsstr * Z) * BindingRow),
    let m := fold_right (fun kb m => if str_eqb kb.1.1 f then Z.max kb.1.2 m else m) 0 l in
    (forall n b, ((f, n), b) ∈ l -> n <= m) /\ (m = 0 \/ exists b, ((f, m), b) ∈ l)).
  { induction l as [|[[g n] b] l [IH1 IH2]]; cbn; [split; [by intros ? ? ?%elem_of_nil|by left]|].
    set (m := fold_right _ 0 l) in *. unfold str_eqb. case_bool_decide as Eg; cbn in Eg; subst.
    - split.
      + intros n' b' [[= -> ->]|Hin]%elem_of_cons; [lia|]. specialize (IH1 _ _ Hin). lia.
      + destruct (Z.max_spec n m) as [[_ ->]|[_ ->]]; [|right; exists b; left].
        destruct IH2 as [|[b' Hb]]; [by left|right; exists b'; by right].
    - split.
      + intros n' b' [[= -> ->]|Hin]%elem_of_cons; [done|]. by eapply IH1.
      + destruct IH2 as [|[b' Hb]]; [by left|right; exists b'; by right]. }
  destruct (Hl (map_to_list (db_bindings d))) as [H1 H2]. split.
  - intros n b Hb. apply (H1 n b). by apply elem_of_map_to_list.
  - destruct H2 as [|[b Hb]]; [by left|right]. exists b. by apply elem_of_map_to_list.
Qed.

(** ** Provenance *)

Section Provenance.
Context `{Hashing, Schema RelayProfileConfig}.

(** The path of the specification is the path of the template. *)
Record follows (c : PathTemplateConfig) (s : ForwardSpec) : Prop := {
  fl_nodes : ingress_nodeId s :: default [] (path_via s) = tpl_nodes c;
  fl_transport : transport s = Some (tpl_transport c);
  fl_protocols : protocols s = tpl_protocols c;
}.

(** Equal as far as [sameTopology] can tell. *)
Definition same_topology (a b : ForwardSpec) : Prop := exists h, digests_to (topology_json a) h /\ digests_to (topology_json b) h.

(** A binding records an expansion of a published template, and the revision of the Forward it was accepted as. *)
Record binding_ok (d : Db) (f : jsstr) (b : BindingRow) : Prop := {
  bo_template : exists r, db_template_revisions d !! (bd_scope_id b, sel_templateId (bd_selection b), sel_revision (bd_selection b)) = Some r /\
    tr_config_digest r = sel_configDigest (bd_selection b) /\ follows (tr_config r) (bd_expanded_spec b);
  bo_digest : digests_to (spec_json (bd_expanded_spec b)) (bd_spec_digest b);
  bo_spec : spec_wf (bd_expanded_spec b);
  bo_history : db_forward_revisions d !! (f, bd_forward_revision b) = Some (bd_expanded_spec b);
}.

(** The current pointer is at the newest binding, which has the topology of the Forward;
    [open] Forwards are being replaced and may differ for now. *)
Record bindings_but (open : jsstr -> Prop) (d : Db) : Prop := {
  bk_sequence : forall f n b, db_bindings d !! (f, n) = Some b -> 1 <= n <= 64 /\ forall m, 1 <= m <= n -> is_Some (db_bindings d !! (f, m));
  bk_row : forall f n b, db_bindings d !! (f, n) = Some b -> binding_ok d f b;
  bk_current : forall f n, db_current_bindings d !! f = Some n ->
    n = last_binding f d /\ exists b row, db_bindings d !! (f, n) = Some b /\ db_forwards d !! f = Some row /\
      bd_scope_id b = fw_scope_id row /\ (~ open f -> same_topology (fw_spec row) (bd_expanded_spec b));
}.

Definition bindings_ok : Db -> Prop := bindings_but (fun _ => False).

Lemma selected_template_Returns s sel active d rc d' : templates_ok d -> selected_template s sel active d = Returns (rc, d') ->
  d' = d /\ db_template_revisions d !! (s, sel_templateId sel, sel_revision sel) = Some rc.1 /\ rc.2 = tr_config rc.1 /\
  template_wf rc.2 /\ tr_config_digest rc.1 = sel_configDigest sel.
Proof using.
  intros Hok Hr. split; [symmetry; by eapply reads_selected_template|]. unfold selected_template, template_head, template_revision in Hr.
  apply tx_bind_Returns in Hr as (found & d1 & [-> ->]%query_Returns & Hr). destruct (db_templates d !! _) as [h|]; [|done].
  apply tx_bind_Returns in Hr as ([] & d1 & [_ ->]%require_Returns & Hr). apply tx_bind_Returns in Hr as ([] & d1 & [_ ->]%require_Returns & Hr).
  apply tx_bind_Returns in Hr as (stored & d1 & [-> ->]%query_Returns & Hr). destruct (db_template_revisions d !! _) as [r|] eqn:Er; [|done].
  apply tx_bind_Returns in Hr as (c & d1 & Hc & Hr). apply tx_bind_Returns in Hr as ([] & d2 & [Hd ->]%require_Returns & [-> _]%mret_Returns). cbn.
  apply andb_prop in Hd as [_ Hd]. apply bool_decide_eq_true in Hd. destruct (tk_revision d Hok _ _ _ _ Er) as (_ & Hwf & _).
  unfold validateTemplateRevision in Hc. rewrite parse_template_canonical in Hc by done. tx_inv. done.
Qed.

Lemma checked_binding_Returns current n b d u d' : spec_wf (bd_expanded_spec b) -> checked_binding current (n, b) true d = Returns (u, d') ->
  d' = d /\ same_topology (spec current) (bd_expanded_spec b).
Proof using.
  intros Hwf Hr. split; [symmetry; by eapply reads_checked_binding|]. unfold checked_binding in Hr. rewrite parse_spec_canonical in Hr by done.
  apply tx_bind_Returns in Hr as (? & d1 & _ & Hr). apply tx_bind_Returns in Hr as ([] & d2 & _ & Hr).
  apply tx_bind_Returns in Hr as (sd & d3 & _ & Hr). apply tx_bind_Returns in Hr as ([] & d4 & _ & Hr).
  apply tx_bind_Returns in Hr as ([r c] & d5 & _ & Hr). destruct (expandPath _ _ ≫= _); [|done].
  apply tx_bind_Returns in Hr as ([] & d6 & _ & Hr). apply tx_bind_Returns in Hr as (same & d7 & Hs & [-> _]%require_Returns).
  apply sameTopology_Returns in Hs as (_ & ha & hb & Ha & Hb & E). symmetry in E. apply bool_decide_eq_true in E as ->. by exists hb.
Qed.

Lemma expand_follows s c next : spec_wf s -> template_wf c -> expandPath s c = Returns next -> spec_wf next /\ follows c next.
Proof using.
  intros Hs Hc Hr. split; [by eapply expandPath_wf|]. rewrite expandPath_run in Hr by done. destruct (expandable s c) eqn:E; [|done].
  injection Hr as <-. unfold expandable in E. propify. split; cbn; [|done|].
  - match goal with Hh : head _ = _ |- _ => destruct (tpl_nodes c); [done|]; cbn in *; by injection Hh as -> end.
  - apply protocols_same; [apply Hs|apply Hc|done|done].
Qed.

(** What [resolve] promises of the specification it returns. *)
Lemma resolve_binding_Returns now a f sel d s d' : templates_ok d -> spec_wf (spec f) -> resolve_binding now a f sel d = Returns (s, d') ->
  d' = d /\ spec_wf s /\ exists r, db_template_revisions d !! (scopeId f, sel_templateId sel, sel_revision sel) = Some r /\
    tr_config_digest r = sel_configDigest sel /\ follows (tr_config r) s.
Proof using.
  intros Hok Hwf Hr. split; [symmetry; by eapply reads_resolve_binding|]. unfold resolve_binding, current_binding in Hr.
  apply tx_bind_Returns in Hr as (old & d1 & [-> ->]%query_Returns & Hr). apply tx_bind_Returns in Hr as (? & d2 & Hc & Hr).
  assert (d2 = d) as ->. { unfold check_current in Hc. destruct (joined _ _ _); [symmetry; by eapply reads_checked_binding|by tx_inv]. }
  apply tx_bind_Returns in Hr as (rc & d3 & (-> & Hrev & Ec & Hcw & Hd)%selected_template_Returns & Hr); [|done].
  unfold expand_template in Hr. apply tx_bind_Returns in Hr as (pd & d4 & _ & Hr). apply tx_bind_Returns in Hr as ([] & d5 & _ & [Hx _]%lift_Returns).
  apply expand_follows in Hx as [Hs Hf]; [|done..]. split; [done|]. exists rc.1. by rewrite <- Ec.
Qed.

(** Another state with the same bindings, where the Forwards keep what their bindings say. *)
Lemma bindings_frame (open open' : jsstr -> Prop) d d' : db_bindings d' = db_bindings d -> db_current_bindings d' = db_current_bindings d ->
  db_template_revisions d ⊆ db_template_revisions d' -> db_forward_revisions d ⊆ db_forward_revisions d' ->
  (forall f row, db_forwards d !! f = Some row -> exists row', db_forwards d' !! f = Some row' /\ fw_scope_id row' = fw_scope_id row /\
     (~ open' f -> ~ open f /\ fw_spec row' = fw_spec row)) ->
  bindings_but open d -> bindings_but open' d'.
Proof using.
  intros EB EC HT HF HR [A B C]. split; [rewrite EB; exact A| |].
  - intros f n b. rewrite EB. intros Hb. destruct (B f n b Hb) as [(r & Hr & Hrest) D S Hh]. split; try done.
    + exists r. split; [by eapply lookup_weaken|done].
    + by eapply lookup_weaken.
  - intros f n. rewrite EC. intros Hn. destruct (C f n Hn) as (E & b & row & Hb & Hrow & Hs & Ht). unfold last_binding. rewrite EB. split; [done|].
    destruct (HR f row Hrow) as (row' & Hrow' & Es & Ho). exists b, row'. split_and!; try done; [congruence|].
    intros [Hn' ->]%Ho. by apply Ht.
Qed.

Lemma bindings_same d d' : db_forwards d' = db_forwards d -> db_forward_revisions d' = db_forward_revisions d -> db_paths d' = db_paths d ->
  forall open, bindings_but open d -> bindings_but open d'.
Proof using.
  intros EF ER EP open. unfold db_bindings, db_current_bindings, db_template_revisions in *.
  apply bindings_frame; unfold db_bindings, db_current_bindings, db_template_revisions; rewrite ?EP, ?ER, ?EF; try done.
  intros f row Hrow. by exists row.
Qed.

Lemma same_topology_via a b c : same_topology a b -> same_topology a c -> same_topology b c.
Proof using. intros (h & Ha & Hb) (h' & Ha' & Hc). exists h. unfold digests_to in *. assert (h = h') as -> by congruence. done. Qed.

Definition just (f g : jsstr) : Prop := g = f.

(** Only bindings are added, and pointers changed. *)
Record binding_write (d d' : Db) : Prop := {
  bw_only : d' = with_paths (fun t => MkPathTables (ht_templates t) (ht_revisions t) (ht_events t) (db_bindings d') (db_current_bindings d')) d;
  bw_grows : db_bindings d ⊆ db_bindings d';
}.

Lemma binding_write_refl d : binding_write d d.
Proof using. split; [|done]. by destruct d as [? ? ? ? ? ? ? ? ? ? ? ? ? ? [] ?]. Qed.

(** [preserve] settles the Forward that was replaced. *)
Lemma preserve_closes current next row d u d' : bindings_but (just (id current)) d -> db_forwards d !! id current = Some row ->
  fw_scope_id row = scopeId current -> fw_spec row = spec next -> preserve_binding current next d = Returns (u, d') ->
  bindings_ok d' /\ binding_write d d'.
Proof using.
  intros [A B C] Hrow Hscope Hspec Hr. unfold preserve_binding, current_binding in Hr.
  apply tx_bind_Returns in Hr as (bd & d1 & [-> ->]%query_Returns & Hr).
  assert (Hclose : (forall n b, db_current_bindings d !! id current = Some n -> db_bindings d !! (id current, n) = Some b ->
    same_topology (spec next) (bd_expanded_spec b)) -> bindings_ok d).
  { intros Ht. split; [done|done|]. intros f n Hn. destruct (C f n Hn) as (E & b & row' & Hb & Hrow' & Hs & Htop). split; [done|].
    exists b, row'. split_and!; try done. intros _. destruct (decide (f = id current)) as [->|Hf]; [|by apply Htop].
    assert (row' = row) as -> by congruence. rewrite Hspec. by eapply Ht. }
  destruct (joined _ _ d) as [[n b]|] eqn:Ej.
  - apply joined_Some in Ej as (row' & Hn & Hb & _ & _ & Hbs). pose proof (bo_spec _ _ _ (B _ _ _ Hb)) as Hwf.
    apply tx_bind_Returns in Hr as (? & d1 & [-> Htop]%checked_binding_Returns & Hr); [|done].
    apply tx_bind_Returns in Hr as (same & d1 & (-> & ha & hb & Ha & Hh & ->)%sameTopology_Returns & Hr). unfold str_eqb in Hr. case_bool_decide as E.
    + apply mret_Returns in Hr as [_ ->]. split; [|apply binding_write_refl]. apply Hclose. intros m b' Hm Hb'. assert (m = n) as -> by congruence.
      assert (b' = b) as -> by congruence. subst hb. eapply same_topology_via; [|exact Htop]. by exists ha.
    + unfold detach_binding in Hr. apply modify_Returns in Hr. rewrite Hn in Hr. cbn in Hr. rewrite Hb in Hr.
      unfold str_eqb in Hr. rewrite bool_decide_eq_true_2 in Hr by done. subst d'. split; [|by split].
      split; [done| |].
      * intros f m b' Hb'. by destruct (B f m b' Hb').
      * intros f m Hm. unfold db_current_bindings, with_current_bindings, with_paths in Hm. cbn in Hm. apply lookup_delete_Some in Hm as [Hne Hm].
        destruct (C f m Hm) as (E' & b' & row'' & Hb' & Hrow' & Hs & Ht). split; [done|]. exists b', row''. split_and!; try done.
        intros _. apply Ht. intros ->. by apply Hne.
  - tx_inv. split; [|apply binding_write_refl]. apply Hclose. intros n b Hn Hb. destruct (C _ _ Hn) as (_ & b' & row' & Hb' & Hrow' & Hs & _).
    assert (joined (scopeId current) (id current) d = Some (n, b')) by (apply joined_Some; exists row'; split_and!; try done; congruence). congruence.
Qed.

(** One more binding, made current. *)
Lemma append_closes f b row d r d' : bindings_but (just f) d -> db_forwards d !! f = Some row -> bd_scope_id b = fw_scope_id row ->
  same_topology (fw_spec row) (bd_expanded_spec b) -> binding_ok d f b -> append_binding f b d = Returns (r, d') ->
  r = (last_binding f d + 1, b) /\ bindings_ok d' /\ binding_write d d'.
Proof using.
  intros [A B C] Hrow Hs Ht Hb Hr. unfold append_binding in Hr. apply tx_bind_Returns in Hr as (m & d1 & [-> ->]%query_Returns & Hr).
  apply tx_bind_Returns in Hr as ([] & d1 & [Hc ->]%require_Returns & Hr). apply tx_bind_Returns in Hr as ([] & d1 & [Hlim ->]%require_Returns & Hr).
  apply tx_bind_Returns in Hr as ([] & d1 & [Hnew ->]%insert_row_Returns & Hr). apply tx_bind_Returns in Hr as ([] & d2 & ->%modify_Returns & [-> ->]%mret_Returns).
  set (n := last_binding f d + 1) in *. set (d' := with_current_bindings _ _).
  assert (EB : db_bindings d' = <[(f, n) := b]> (db_bindings d)) by reflexivity.
  assert (EC : db_current_bindings d' = <[f := n]> (db_current_bindings d)) by reflexivity.
  destruct (last_binding_spec f d) as [Hmax Hreach]. unfold is_counter in Hc. apply negb_true_iff, Z.leb_gt in Hlim. propify.
  assert (Hlast : forall g, last_binding g d' = if decide (g = f) then n else last_binding g d).
  { intros g. destruct (last_binding_spec g d') as [M' R']. destruct (last_binding_spec g d) as [M R]. rewrite EB in M', R'. case_decide as Eg.
    - subst g. pose proof (M' n b ltac:(apply lookup_insert_eq)). destruct R' as [E|[b' E]]; [unfold n in *; lia|].
      destruct (decide (last_binding f d' = n)) as [->|Hne]; [done|]. rewrite lookup_insert_ne in E by congruence. apply Hmax in E. unfold n in *. lia.
    - assert (Hin : forall k, <[(f, n) := b]> (db_bindings d) !! (g, k) = db_bindings d !! (g, k)) by (intros k; apply lookup_insert_ne; congruence).
      rewrite Hin in R'. assert (0 <= last_binding g d) by (destruct R as [->|[b' E]]; [lia|destruct (A _ _ _ E); lia]).
      assert (0 <= last_binding g d') by (destruct R' as [->|[b' E]]; [lia|destruct (A _ _ _ E); lia]).
      assert (last_binding g d' <= last_binding g d) by (destruct R' as [->|[b' E]]; [done|by eapply M]).
      assert (last_binding g d <= last_binding g d') by (destruct R as [->|[b' E]]; [done|eapply (M' _ b'); by rewrite Hin]). lia. }
  split; [done|]. split; [|split; [done|rewrite EB; by apply insert_subseteq]]. split.
  - intros g m b'. rewrite EB. destruct (decide ((g, m) = (f, n))) as [[= -> ->]|Hk].
    + intros _. split; [unfold n in *; lia|]. intros k Hk. destruct (decide (k = n)) as [->|Hkn]; [by rewrite lookup_insert_eq|].
      rewrite lookup_insert_ne by congruence. destruct Hreach as [E|[bl Hl]]; [unfold n in *; lia|]. apply (A _ _ _ Hl). unfold n in *. lia.
    + rewrite lookup_insert_ne by congruence. intros Hb'. destruct (A _ _ _ Hb') as [Hm Hgap]. split; [done|]. intros k Hk'.
      destruct (decide ((g, k) = (f, n))) as [[= -> ->]|Hk2]; [by rewrite lookup_insert_eq|rewrite lookup_insert_ne by congruence; by apply Hgap].
  - intros g m b'. rewrite EB. destruct (decide ((g, m) = (f, n))) as [[= -> ->]|Hk].
    + rewrite lookup_insert_eq. intros [= <-]. by destruct Hb.
    + rewrite lookup_insert_ne by congruence. intros Hb'. by destruct (B _ _ _ Hb').
  - intros g m. rewrite EC, Hlast. destruct (decide (g = f)) as [->|Hg].
    + rewrite lookup_insert_eq. intros [= <-]. split; [done|]. exists b, row. rewrite EB, lookup_insert_eq. by split_and!.
    + rewrite lookup_insert_ne by done. intros Hm. destruct (C g m Hm) as (E & b' & row' & Hb' & Hrow' & Hs' & Ht').
      split; [done|]. exists b', row'. rewrite EB, lookup_insert_ne by congruence. split_and!; try done. intros _. by apply Ht'.
Qed.

(** [accept] settles it, too: the specification becomes the provenance of the Forward, unless it already is. *)
Lemma accept_closes now a next sel row d r d' : bindings_but (just (id next)) d -> db_forwards d !! id next = Some row ->
  fw_scope_id row = scopeId next -> fw_spec row = spec next -> db_forward_revisions d !! (id next, revision next) = Some (spec next) ->
  spec_wf (spec next) -> (exists t, db_template_revisions d !! (scopeId next, sel_templateId sel, sel_revision sel) = Some t /\
    tr_config_digest t = sel_configDigest sel /\ follows (tr_config t) (spec next)) ->
  accept_binding now a next sel d = Returns (r, d') -> bindings_ok d' /\ binding_write d d' /\
  exists b, joined (scopeId next) (id next) d' = Some (br_sequence r, b) /\ bd_selection b = sel /\ same_topology (spec next) (bd_expanded_spec b).
Proof using.
  intros Hok Hrow Hscope Hspec Hhist Hwf Htpl Hr. unfold accept_binding, current_binding in Hr.
  apply tx_bind_Returns in Hr as (old & d1 & [-> ->]%query_Returns & Hr). apply tx_bind_Returns in Hr as (kept & d1 & Hk & Hr).
  pose proof (reads_rebinds _ _ _ _ _ _ Hk) as <-. destruct kept as [[n b]|].
  - apply tx_bind_Returns in Hr as (? & d1 & Hc & [-> ->]%mret_Returns). pose proof (reads_checked_binding _ _ _ _ _ _ Hc) as <-.
    unfold rebinds in Hk. destruct (joined _ _ d) as [[n' b']|] eqn:Ej; [|by tx_inv]. case_bool_decide as Esel; [|by tx_inv].
    apply tx_bind_Returns in Hk as (same & d1 & (-> & ha & hb & Ha & Hb & ->)%sameTopology_Returns & [E _]%mret_Returns).
    unfold str_eqb in E. case_bool_decide as Eh; [|done]. injection E as -> ->. pose proof Ej as (row' & Hn & Hb' & Hrow' & _ & Hbs)%joined_Some.
    assert (Ht : same_topology (spec next) (bd_expanded_spec b')) by (exists ha; by rewrite Eh in *).
    split; [|split; [apply binding_write_refl|by exists b']]. destruct Hok as [A B C]. split; [done|done|]. intros f m Hm.
    destruct (C f m Hm) as (E' & b2 & row2 & Hb2 & Hrow2 & Hs2 & Ht2). split; [done|]. exists b2, row2. split_and!; try done. intros _.
    destruct (decide (f = id next)) as [->|Hf]; [|by apply Ht2]. assert (m = n') as -> by congruence.
    assert (b2 = b') as -> by congruence. assert (row2 = row) as -> by congruence. by rewrite Hspec.
  - apply tx_bind_Returns in Hr as ([] & d1 & [_ ->]%require_Returns & Hr). apply tx_bind_Returns in Hr as (dg & d1 & [Hdg ->]%lift_Returns & Hr).
    apply tx_bind_Returns in Hr as (rec & d1 & Happ & Hr). apply tx_bind_Returns in Hr as (? & d2 & Hc & [-> ->]%mret_Returns).
    set (b := MkBindingRow _ _ _ _ _ _ _) in *.
    assert (Hrec : rec.2 = b) by (unfold append_binding in Happ; tx_inv; done).
    pose proof Hc as Hc'. destruct rec as [n b']. cbn in Hrec. subst b'. apply checked_binding_Returns in Hc' as [-> Htop]; [|done].
    pose proof Happ as Happ'. eapply append_closes in Happ as ([= ->] & Hok' & Hw); [|exact Hok|exact Hrow| | |].
    + split_and!; [done..|]. exists b. split_and!; [|done|done]. apply joined_Some. exists row. destruct Hw as [Ew _].
      unfold append_binding in Happ'. apply tx_bind_Returns in Happ' as (m & dx & [-> ->]%query_Returns & Happ'). tx_inv.
      apply insert_row_Returns in Hrun1 as [_ ->]. split_and!; try done; [apply lookup_insert_eq|apply lookup_insert_eq].
    + done.
    + rewrite Hspec. exact Htop.
    + split; [exact Htpl|done|done|done].
Qed.
End Provenance.
#[export] Hint Resolve reads_sameTopology reads_selected_template reads_checked_binding reads_resolve_binding reads_rebinds
  reads_validateTemplateRevision reads_validate_references : evolves.
