(* ===== verification/RelayDeployments.v ===== *)
(** Relay deployments (the first half of apps/control/src/modules/runtime/relay-coordinator.ts):
    the stored plans of a Forward, the facts a plan is made from, the authority a plan still
    has, and the assignments a Node is given. *)

From S2P Require Import Prelude.
From S2P Require Import JsString.
From S2P Require Import Primitives.
From S2P Require Import Json.
From S2P Require Import Forward.
From S2P Require Import Time.
From S2P Require Import Digest.
From S2P Require Import Types.
From S2P Require Import Schema.
From S2P Require Import Relay.
From S2P Require Import Multihop.
From S2P Require Import Adp3.
From S2P Require Import Transit.
From S2P Require Import TargetPolicy.
From S2P Require Import Endpoint.
From S2P Require Import Planner.
From S2P Require Import SnapshotRegistry.
From S2P Require Import RelayPlan.
From S2P Require Import MultihopPlan.
From S2P Require Import Iso.
From S2P Require Import Store.
From S2P Require Import Forwarding.
From S2P Require Import Slots.
From S2P Require Import Operations.
From S2P Require Import Retirements.
From S2P Require Import Identity.
From S2P Require Import Nodes.
From S2P Require Import Profiles.

Local Open Scope Z_scope.

Abbreviation deployment := ((jsstr * Z) * Deployment)%type.

Definition dp_forward (r : deployment) : jsstr := r.1.1.
Definition dp_generation (r : deployment) : Z := r.1.2.

Definition set_stage (stage : RelayStage) (now : Z) (r : Deployment) : Deployment :=
  MkDeployment (dp_target_revision r) (dp_ingress_node_id r) (dp_egress_node_id r) stage (dp_body r) (dp_path_nodes r)
    (dp_prepared_count r) (dp_activated_count r) (dp_created_at r) now.

(** [prepared_count=?,stage=?,activated_count=?,updated_at=?] *)
Definition set_progress (prepared_ : Z) (stage : RelayStage) (activated now : Z) (r : Deployment) : Deployment :=
  MkDeployment (dp_target_revision r) (dp_ingress_node_id r) (dp_egress_node_id r) stage (dp_body r) (dp_path_nodes r)
    prepared_ activated (dp_created_at r) now.

Definition quarantineRelay (now : Z) : tx unit := modify (with_relay_deployments (fmap (set_stage g_withdrawn now))).

(** ** Sets of Node identifiers *)

Definition set_add (ids : list jsstr) (x : jsstr) : list jsstr := if includes ids x then ids else ids ++ [x].

(** One pass of [while(changed)] over the links. *)
Definition close_pass (links : list (list jsstr)) (ids : list jsstr) : list jsstr * bool :=
  fold_left (fun (st : list jsstr * bool) link =>
    let '(ids, changed) := st in
    if existsb (includes ids) link
    then let ids' := fold_left set_add link ids in (ids', changed || negb (length ids =? length ids')%nat)
    else (ids, changed)) links (ids, false).

(** Every pass that changes the set absorbs a link, so [length links] passes and a last one are enough. *)
Fixpoint close_links (fuel : nat) (links : list (list jsstr)) (ids : list jsstr) : list jsstr :=
  match fuel with
  | O => ids
  | S fuel => let '(ids', changed) := close_pass links ids in if (changed : bool) then close_links fuel links ids' else ids'
  end.

Definition related_ids (links : list (list jsstr)) (nodeId : jsstr) : list jsstr :=
  sort_by str_leb (close_links (S (length links)) links [nodeId]).

(** ** Exceptions that mean a refusal *)

(** [error instanceof ControlError && [403,404,409,422].includes(error.status)], or an [Error]
    of the planners whose message starts with one of three codes.  An [INVALID_CONFIG] is a
    ControlError only where [invalid(message)] throws it, an [INTEGRITY_FAILURE] only where
    the Profile reader does. *)
Definition invalid_messages : list string :=
  ["Valid Relay Node ID required"; "Valid locked Profile reference required"; "Explicit Relay endpoint fields required";
   "Relay endpoint must identify a unicast host"; "Canonical IP listener, reachable host and bounded unique TCP ports required"]%string.

Definition refusal (e : exn) : bool :=
  includes ["AUTHORIZATION_DENIED"; "NOT_FOUND"; "SESSION_SUPERSEDED"; "PORT_RESERVED"; "UNSUPPORTED_CAPABILITY"; "RESOURCE_CONFLICT"]%string (code e) ||
  bool_decide (code e = "INVALID_CONFIG"%string) && includes invalid_messages (message e) ||
  bool_decide (code e = "INTEGRITY_FAILURE"%string) && bool_decide (message e = "Transport Profile digest differs"%string).

(** [try { return m } catch (error) { if (handled(error)) return x; throw error }] of a body that
    only reads. *)
Definition catch {A} (handled : exn -> bool) (x : A) (m : tx A) : tx A := fun d =>
  match m d with
  | Throws e => if handled e then Returns (x, d) else Throws e
  | r => r
  end.

(** ** Reading plans *)

Definition with_enabled (f : Forward) : Forward :=
  let s := spec f in
  MkForward (id f) (scopeId f) (revision f)
    {| ingress_nodeId := ingress_nodeId s; ingress_listen := ingress_listen s; protocols := protocols s; target := target s;
       enabled := true; path_via := path_via s; transport := transport s |}.

(** [[spec.ingress.nodeId, ...spec.path.via]] *)
Definition node_sequence (s : ForwardSpec) : list jsstr := ingress_nodeId s :: default [] (path_via s).

(** [(forward.spec.path?.via.length ?? 0) > 1] *)
Definition is_multihop (f : Forward) : bool := (1 <? length (default [] (path_via (spec f))))%nat.

Definition by_generation (a b : deployment) : bool := dp_generation b <=? dp_generation a.

Definition latest_deployment (forwardId : jsstr) : tx (option deployment) :=
  found ← select db_relay_deployments (fun k _ => str_eqb k.1 forwardId);
  mret (head (sort_by by_generation found)).

(** [WHERE forward_id=? AND generation=?] *)
Definition update_deployment (k : jsstr * Z) (change : Deployment -> Deployment) : tx unit :=
  modify (with_relay_deployments (alter change k)).

Section Deployments.
Context `{Hashing, Schema RelayProfileConfig, Schema RelayOpen, Schema RelayAssignment}.
Context (policy : Policy) (multihopEnabled : bool).

Definition plan_of (r : deployment) : tx RelayPreparedPlan :=
  let plan := dp_body r.2 in
  differs ← lift (digest_differs (plan_body_json plan) (rpp_planDigest plan));
  _ ← require (negb (differs || negb (str_eqb (rpp_forwardId plan) (dp_forward r)) ||
                     negb (rpp_forwardRevision plan =? dp_target_revision r.2) ||
                     negb (rpp_deploymentGeneration plan =? dp_generation r)))
        "INTEGRITY_FAILURE" "Relay plan integrity differs";
  mret plan.

Definition plan_nodes (r : deployment) : tx (list jsstr) := plan ← plan_of r; mret (map pnd_nodeId (rpp_nodes plan)).

Definition nodeIDs (f : Forward) : tx (list jsstr) :=
  records ← select db_relay_deployments (fun k _ => str_eqb k.1 (id f));
  found ← collect_each plan_nodes records;
  mret (sort_by str_leb (new_Set (node_sequence (spec f) ++ concat found))).

Definition relatedNodeIDs (nodeId : jsstr) : tx (list jsstr) :=
  records ← select db_relay_deployments (fun _ _ => true);
  links ← collect_each plan_nodes records;
  mret (related_ids links nodeId).

Definition lockNodes (f : Forward) : tx unit := ids ← nodeIDs f; for_each (fun nodeId => lockNode nodeId None) ids.

(** ** The facts of a path *)

(** The body of the loop of [facts]. *)
Definition node_execution (now : Z) (actor scopeId nodeId : jsstr) : tx RelayNodeExecutionFacts :=
  nodeFacts ← authorizedRelayNode now actor scopeId nodeId;
  state ← facts now nodeId;
  runtime ← query (fun d => rn_session_epoch <$> db_runtime_nodes d !! nodeId);
  let epoch := default 0 runtime in
  _ ← require (negb (epoch =? 0)) "SESSION_SUPERSEDED" "Every path Node requires an online session";
  peers ← relayCredentialFacts now nodeId true;
  mret (MkExecutionFacts nodeFacts epoch (ns_credentialUntil state) peers).

Definition path_facts (now : Z) (actor : jsstr) (f : Forward) : tx (list RelayNodeExecutionFacts) :=
  match path_via (spec f), transport (spec f) with
  | Some via, Some _ =>
      if (1 <? length via)%nat && negb multihopEnabled
      then throw "UNSUPPORTED_CAPABILITY" "Multi-hop execution is disabled or a locked Profile is missing"
      else collect_each (node_execution now actor (scopeId f)) (sort_by str_leb (node_sequence (spec f)))
  | _, _ => throw "UNSUPPORTED_CAPABILITY" "Multi-hop execution is disabled or a locked Profile is missing"
  end.

(** [this.transport.resolve(tx, actor, forward.scopeId, forward.spec.transport!.profileId, ...)] *)
Definition locked_profile (actor : jsstr) (f : Forward) : tx ResolvedProfile :=
  match transport (spec f) with
  | Some t => resolve actor (scopeId f) (profileId t) (configRevision t)
  | None => throw "TypeError" "Cannot read properties of undefined"
  end.

(** [this.endpoints.resolve(tx, forward.spec.path!.via[0]!)] *)
Definition egress_endpoint (f : Forward) : tx ResolvedEndpoint :=
  match path_via (spec f) with
  | Some (nodeId :: _) => resolve_endpoint nodeId
  | _ => throw "TypeError" "Bind parameters must not contain undefined"
  end.

(** ** Ports *)

(** The first candidate that is neither used nor reserved by another Forward; without [reserve]
    the slots are not read. *)
Fixpoint free_port (reserve_ : bool) (forwardId nodeId : jsstr) (used : list Z) (candidates : list Z) : tx (option Z) :=
  match candidates with
  | [] => mret None
  | port :: rest =>
      if includes used port then free_port reserve_ forwardId nodeId used rest else
      slot ← (if reserve_ then query (fun d => db_port_slots d !! (nodeId, tcp, port)) else mret None);
      if match slot with
         | None => true
         | Some s => match sl_owner_id s with None => true | Some o => str_eqb o forwardId end
         end
      then mret (Some port)
      else free_port reserve_ forwardId nodeId used rest
  end.

(** [[...new Set([...(preferred && allowed.includes(preferred) ? [preferred] : []), ...allowed])]] *)
Definition candidates (preferred : option Z) (allowed : list Z) : list Z :=
  new_Set (match preferred with Some p => if negb (p =? 0) && includes allowed p then [p] else [] | None => [] end ++ allowed).

(** The port an earlier plan gave the protocol on the Node. *)
Definition preferred_port (previous : option RelayPreparedPlan) (egress_only : bool) (nodeId : jsstr) (p : NetworkProtocol) : option Z :=
  plan ← previous;
  node ← find (fun n => str_eqb (pnd_nodeId n) nodeId) (rpp_nodes plan);
  a ← find (fun a => bool_decide (rua_protocol a = p) && (negb egress_only || bool_decide (rua_role a = relay relay_egress))) (pnd_assignments node);
  Some (res_port (rua_resource a)).

(** The loop over the protocols of a Node. *)
Fixpoint choose_ports (reserve_ : bool) (message : string) (preferred : NetworkProtocol -> option Z) (forwardId : jsstr)
    (e : ResolvedEndpoint) (used : list Z) (ps : list NetworkProtocol) : tx (list (NetworkProtocol * Z)) :=
  match ps with
  | [] => mret []
  | p :: rest =>
      found ← free_port reserve_ forwardId (rse_nodeId e) used (candidates (preferred p) (re_allowedTcpPorts (rse_config e)));
      match found with
      | None => throw "PORT_RESERVED" message
      | Some port =>
          ports ← choose_ports reserve_ message preferred forwardId e (port :: used) rest;
          mret ((p, port) :: ports)
      end
  end.

Definition hop_ports (previous : option RelayPreparedPlan) (reserve_ : bool) (f : Forward) (nodeId : jsstr)
    : tx (ResolvedEndpoint * (jsstr * list (NetworkProtocol * Z))) :=
  e ← resolve_endpoint nodeId;
  ports ← choose_ports reserve_ "No exclusive multi-hop TLS resource is available" (preferred_port previous false nodeId) (id f) e []
            (protocols (spec f));
  mret (e, (nodeId, ports)).

(** [ports[nodeId]?.[protocol]] *)
Definition port_at (ports : list (jsstr * list (NetworkProtocol * Z))) (nodeId : jsstr) (p : NetworkProtocol) : option Z :=
  row ← find (fun r => str_eqb r.1 nodeId) ports; port_of row.2 p.

Definition multihopInput (now : Z) (actor : jsstr) (f : Forward) (previous : option RelayPreparedPlan) (reserve_ : bool) : tx MultihopPlanInput :=
  nodes ← path_facts now actor f;
  profile ← locked_profile actor f;
  hops ← collect_each (hop_ports previous reserve_ f) (sort_by str_leb (default [] (path_via (spec f))));
  mret (MkMultihopInput (with_enabled f) nodes profile (map fst hops) (port_at (map snd hops))).

(** [{tcp: ports[0]!, udp: ports[protocols.length === 2 ? 1 : 0]!}] *)
Definition probe_ports (f : Forward) (e : ResolvedEndpoint) (p : NetworkProtocol) : option Z :=
  let ports := re_allowedTcpPorts (rse_config e) in
  match p with
  | tcp => ports !! 0%nat
  | udp => ports !! (if (length (protocols (spec f)) =? 2)%nat then 1 else 0)%nat
  end.

(** ** Queries *)

Record RelayPreview := MkRelayPreview {
  pv_profile : jsstr * Z * jsstr; pv_endpointRevisions : list (jsstr * Z); pv_path : option (list jsstr);
  pv_resources : list PlanResource; pv_runtimeEnabled : bool;
}.

Definition profile_ref (p : ResolvedProfile) : jsstr * Z * jsstr := (rpf_profileId p, rpf_revision p, rpf_configDigest p).

Definition preview (now : Z) (actor : jsstr) (f : Forward) : tx RelayPreview :=
  if is_multihop f then
    input ← multihopInput now actor f None false;
    resources ← lift (compileMultihopResources input);
    mret (MkRelayPreview (profile_ref (mpi_profile input)) (map (fun e => (rse_nodeId e, rse_revision e)) (mpi_endpoints input))
            (Some (node_sequence (spec f))) resources multihopEnabled)
  else
    nodes ← path_facts now actor f;
    profile ← locked_profile actor f;
    e ← egress_endpoint f;
    resources ← lift (compileRelayResources f (map xf_facts nodes) profile e (probe_ports f e));
    mret (MkRelayPreview (profile_ref profile) [(rse_nodeId e, rse_revision e)] None resources true).

(** The body of [try] in [canExecute]. *)
Definition executable (now : Z) (actor : jsstr) (f : Forward) : tx bool :=
  if is_multihop f then
    input ← multihopInput now actor f None false;
    _ ← lift (compileMultihopResources input);
    mret true
  else
    nodes ← path_facts now actor f;
    profile ← locked_profile actor f;
    e ← egress_endpoint f;
    _ ← lift (compileRelayResources (with_enabled f) (map xf_facts nodes) profile e (probe_ports f e));
    mret true.

Definition relay_canExecute (now : Z) (actor : jsstr) (f : Forward) : tx bool := catch refusal false (executable now actor f).

(** ** The authority of a plan *)

Definition hop_of (a : RuntimeAssignment) : outcome HopConfig :=
  match rua_driver a with MultihopDriver h => Returns h | _ => Throws (Exn "TypeError" "Cannot read properties of undefined") end.

Definition relay_of (a : RuntimeAssignment) : outcome RelayConfig :=
  match rua_driver a with RelayDriver c => Returns c | _ => Throws (Exn "TypeError" "Cannot read properties of undefined") end.

(** [credential.validUntil > Date.now() + maxClockSkewSeconds * 1000] of the pinned credential *)
Definition pin_live (now : Z) (peer : RelayNodeExecutionFacts) (pin : jsstr) : bool :=
  existsb (fun c => str_eqb (pc_fingerprint c) pin && (now + maxClockSkewSeconds policy * 1000 <? pc_validUntil c)) (xf_peers peer).

Definition hop_pin_changed (now : Z) (nodes : list RelayNodeExecutionFacts) (peer : HopNode) : bool :=
  match find_node nodes (hn_nodeId peer) with
  | None => true
  | Some current => negb (pin_live now current (hn_peerFingerprint peer))
  end.

Definition pinsChanged (now : Z) (plan : RelayPreparedPlan) (nodes : list RelayNodeExecutionFacts) : outcome bool :=
  match rpp_path plan with
  | None => relayPeerPinsChanged plan nodes
  | Some _ =>
      some_each (fun node => some_each (fun a => h ← hop_of a; Returns (existsb (hop_pin_changed now nodes) (hc_path h))) (pnd_assignments node))
        (rpp_nodes plan)
  end.

(** [list.every(f)] where [f] may throw *)
Fixpoint every_each {A} (f : A -> outcome bool) (l : list A) : outcome bool :=
  match l with
  | [] => Returns true
  | x :: r => f x ≫= fun b : bool => if b then every_each f r else Returns false
  end.

(** The policy an Assignment was compiled under is still the Node's. *)
Definition same_policy (n : AuthorizedNodeFacts) (revision : Z) (metadata : bool) (cidrs : list jsstr) : outcome bool :=
  if negb (nf_egressPolicyRevision n =? revision) || negb (Bool.eqb (nf_allowMetadataTargets n) metadata) then Returns false else
  current ← digest (strs_json (sort_by str_leb (new_Set (nf_allowedDestinationCidrs n))));
  stored ← digest (strs_json cidrs);
  Returns (str_eqb current stored).

Definition hop_authorized (nodes : list RelayNodeExecutionFacts) (node : PlannedNode) : outcome bool :=
  match find_node nodes (pnd_nodeId node) with
  | None => Returns false
  | Some current =>
      if negb (xf_sessionEpoch current =? pnd_sessionEpoch node) then Returns false else
      every_each (fun a => h ← hop_of a;
        same_policy (xf_facts current) (hc_egressPolicyRevision h) (hc_allowMetadataTargets h) (hc_allowedDestinationCidrs h)) (pnd_assignments node)
  end.

(** The Node at the other end of the connection. *)
Definition peer_of (a : RuntimeAssignment) (c : RelayConfig) : jsstr :=
  if bool_decide (rua_role a = relay relay_ingress) then rb_egressNodeId (rc_binding c) else rb_ingressNodeId (rc_binding c).

Definition end_authorized (now : Z) (nodes : list RelayNodeExecutionFacts) (current : RelayNodeExecutionFacts) (a : RuntimeAssignment) : outcome bool :=
  c ← relay_of a;
  same ← same_policy (xf_facts current) (rc_egressPolicyRevision c) (rc_allowMetadataTargets c) (rc_allowedDestinationCidrs c);
  Returns (same && match find_node nodes (peer_of a c) with
                   | None => false
                   | Some peer => forallb (pin_live now peer) (rc_peerFingerprints c)
                   end).

Definition pair_authorized (now : Z) (nodes : list RelayNodeExecutionFacts) (node : PlannedNode) : outcome bool :=
  match find_node nodes (pnd_nodeId node) with
  | None => Returns false
  | Some current => if negb (xf_sessionEpoch current =? pnd_sessionEpoch node) then Returns false
                    else every_each (end_authorized now nodes current) (pnd_assignments node)
  end.

(** [plan.authorizationUntil <= Date.now() + 2 * maxClockSkewSeconds * 1000] *)
Definition authority_over (now : Z) (plan : RelayPreparedPlan) : bool :=
  rpp_authorizationUntil plan <=? now + 2 * maxClockSkewSeconds policy * 1000.

Definition revision_at (plan : RelayPreparedPlan) (nodeId : jsstr) : option Z :=
  l ← rpp_endpointRevisions plan; row ← find (fun r => str_eqb r.1 nodeId) l; Some row.2.

Definition plan_authorized (now : Z) (f : Forward) (plan : RelayPreparedPlan) : tx bool :=
  actor ← authorizer (id f);
  match actor with
  | None => mret false
  | Some actor =>
      allowed ← relay_canExecute now actor f;
      if negb allowed then mret false else
      match rpp_path plan with
      | Some path =>
          if negb multihopEnabled then mret false else
          planned ← lift (digest (strs_json path));
          current ← lift (digest (strs_json (node_sequence (spec f))));
          if negb (str_eqb planned current) || authority_over now plan then mret false else
          input ← multihopInput now actor f None false;
          if existsb (fun e => negb (bool_decide (revision_at plan (rse_nodeId e) = Some (rse_revision e)))) (mpi_endpoints input) then mret false else
          changed ← lift (pinsChanged now plan (mpi_nodes input));
          if (changed : bool) then mret false else
          lift (every_each (hop_authorized (mpi_nodes input)) (rpp_nodes plan))
      | None =>
          nodes ← path_facts now actor f;
          e ← egress_endpoint f;
          if negb (rse_revision e =? rpp_endpointRevision plan) || authority_over now plan then mret false else
          lift (every_each (pair_authorized now nodes) (rpp_nodes plan))
      end
  end.

Definition publishablePlan (now : Z) (r : deployment) (plan : RelayPreparedPlan) (includeAccepted : bool) : tx bool :=
  op ← latest (dp_forward r);
  match op with
  | None => mret false
  | Some (_, op) =>
      if op_recovery_invalidated op || bool_decide (op_kind op = k_revoke) ||
         negb match op_status op with s_running | s_succeeded => true | s_accepted => includeAccepted | _ => false end ||
         negb (bool_decide (op_status op = s_succeeded)) && (op_execution_deadline op <=? now) then mret false else
      '(f, deleting, recoverySuspended) ← record_of (op_scope_id op) (dp_forward r);
      if negb deleting && negb recoverySuspended && enabled (spec f) && (revision f =? dp_target_revision r.2) &&
         negb (bool_decide (dp_stage r.2 = g_withdrawn))
      then plan_authorized now f plan else mret false
  end.

(** ** Assignments of a Node *)

Definition with_phase (phase : Phase) (a : RuntimeAssignment) : RuntimeAssignment :=
  MkRuntimeAssignment (rua_assignmentId a) (rua_forwardId a) (rua_forwardRevision a) (rua_deploymentGeneration a) (rua_bindingFence a)
    (rua_role a) (rua_protocol a) phase (rua_resource a) (rua_configDigest a) (rua_driver a) (rua_drainTimeoutSeconds a).

Definition phase_of (b : bool) : Phase := if b then active else prepared.

(** The stage admits the Node at [index] of a path of [count] Nodes. *)
Definition hop_admitted (r : Deployment) (index count : Z) : bool :=
  negb (bool_decide (dp_stage r = g_preparing)) || (count - Z.min count (dp_prepared_count r + 1) <=? index).

Definition hop_active (r : Deployment) (index count : Z) : bool :=
  match dp_stage r with
  | g_active => true
  | g_preparing => false
  | _ => count - dp_activated_count r <=? index
  end.

Definition pair_active (r : Deployment) (a : RuntimeAssignment) : bool :=
  match dp_stage r with
  | g_ingress_active | g_active => true
  | g_egress_active => bool_decide (rua_role a = relay relay_egress)
  | _ => false
  end.

(** [list.indexOf(x)] *)
Definition index_of (l : list jsstr) (x : jsstr) : Z :=
  match list_find (fun y => y = x) l with Some (i, _) => Z.of_nat i | None => -1 end.

(** The body of the loop of [assignments]. *)
Definition deployment_assignments (now : Z) (nodeId : jsstr) (includeAccepted : bool) (r : deployment) : tx (list RuntimeAssignment) :=
  plan ← plan_of r;
  publishable ← publishablePlan now r plan includeAccepted;
  if negb publishable then mret [] else
  match find (fun n => str_eqb (pnd_nodeId n) nodeId) (rpp_nodes plan) with
  | None => throw "Error" "Missing Relay node plan"
  | Some node =>
      match rpp_path plan with
      | Some path =>
          safe ← (if (includeAccepted : bool) then mret true else sessionAuthoritySafe now nodeId (pnd_sessionEpoch node));
          if negb safe then mret [] else
          let index := index_of path nodeId in let count := Z.of_nat (length path) in
          if negb includeAccepted && negb (hop_admitted r.2 index count) then mret [] else
          mret (map (with_phase (phase_of (hop_active r.2 index count))) (pnd_assignments node))
      | None => mret (map (fun a => with_phase (phase_of (pair_active r.2 a)) a) (pnd_assignments node))
      end
  end.

(** [d.ingress_node_id=? OR d.egress_node_id=? OR JSON_CONTAINS(d.path_nodes,JSON_QUOTE(?))] *)
Definition deployed_on (nodeId : jsstr) (r : Deployment) : bool :=
  str_eqb (dp_ingress_node_id r) nodeId || str_eqb (dp_egress_node_id r) nodeId ||
  match dp_path_nodes r with Some path => includes path nodeId | None => false end.

(** [d.generation=(SELECT MAX(generation) FROM relay_deployments WHERE forward_id=d.forward_id)] *)
Definition newest (d : Db) (r : deployment) : bool :=
  forallb (fun r' : deployment => negb (str_eqb (dp_forward r') (dp_forward r)) || (dp_generation r' <=? dp_generation r))
    (map_to_list (db_relay_deployments d)).

Definition by_forward (a b : deployment) : bool := str_leb (dp_forward a) (dp_forward b).

Definition node_deployments (nodeId : jsstr) (d : Db) : list deployment :=
  sort_by by_forward (List.filter (fun r : deployment => deployed_on nodeId r.2 && newest d r) (map_to_list (db_relay_deployments d))).

Definition relay_assignments (now : Z) (nodeId : jsstr) (includeAccepted : bool) : tx (list RuntimeAssignment) :=
  records ← query (node_deployments nodeId);
  found ← collect_each (deployment_assignments now nodeId includeAccepted) records;
  mret (concat found).

(** ** The bound of a Snapshot's authority *)

(** The fingerprints of [nodeId] that the plan pins. *)
Definition pins_of (plan : RelayPreparedPlan) (nodeId : jsstr) : outcome (list jsstr) :=
  found ← map_each (fun a =>
    match rpp_path plan with
    | Some _ => h ← hop_of a; Returns (map hn_peerFingerprint (List.filter (fun p => str_eqb (hn_nodeId p) nodeId) (hc_path h)))
    | None => c ← relay_of a; Returns (if str_eqb (peer_of a c) nodeId then rc_peerFingerprints c else [])
    end) (concat (map pnd_assignments (rpp_nodes plan)));
  Returns (new_Set (concat found)).

(** The body of the loop over the Nodes of a plan. *)
Definition node_bound (now : Z) (plan : RelayPreparedPlan) (node : PlannedNode) : tx Z :=
  current ← facts now (pnd_nodeId node);
  peers ← relayCredentialFacts now (pnd_nodeId node) false;
  pinned ← lift (pins_of plan (pnd_nodeId node));
  let credentials := List.filter (fun p => includes pinned (pc_fingerprint p)) peers in
  _ ← require (length credentials =? length pinned)%nat "AUTHORIZATION_DENIED" "Pinned Relay authority expired";
  mret (fold_left Z.min (map pc_validUntil credentials) (ns_credentialUntil current)).

Definition forward_bound (now : Z) (forwardId : jsstr) : tx Z :=
  record ← latest_deployment forwardId;
  match record with
  | None => throw "Error" "Missing Relay authority"
  | Some r =>
      plan ← plan_of r;
      bounds ← collect_each (node_bound now plan) (rpp_nodes plan);
      mret (fold_left Z.min bounds (rpp_authorizationUntil plan))
  end.

Definition authorizationBound (now : Z) (assignments : list RuntimeAssignment) : tx Z :=
  bounds ← collect_each (forward_bound now)
             (new_Set (map rua_forwardId (List.filter (fun a => negb (bool_decide (rua_role a = direct))) assignments)));
  mret (fold_left Z.min bounds MAX_COUNTER).

(** ** Acceptance *)

Context `{Locale}.

Definition new_deployment (f : Forward) (plan : RelayPreparedPlan) (ingress egress : jsstr) (path : option (list jsstr)) (now : Z) : Deployment :=
  MkDeployment (revision f) ingress egress g_preparing plan path 0 0 now now.

Definition store_plan (generation : Z) (f : Forward) (row : Deployment) : tx unit :=
  insert_row db_relay_deployments with_relay_deployments (id f, generation) row.

(** The plan of an earlier generation, whose ports are preferred. *)
Definition previous_plan (previous : option deployment) : tx (option RelayPreparedPlan) :=
  match previous with Some r => plan ← plan_of r; mret (Some plan) | None => mret None end.

(** The part of [acceptPlan] for a path of several hops: the plan and its row. *)
Definition plan_multihop (now : Z) (actor : jsstr) (f : Forward) (previous : option deployment) (generation : Z) : tx (RelayPreparedPlan * Deployment) :=
  old ← previous_plan previous;
  input ← multihopInput now actor f old true;
  resources ← lift (compileMultihopResources input);
  reservations ← reserveRelay policy f resources generation;
  issuedAt ← lift (toISOString now);
  plan ← lift (compileMultihopPlan (MkMultihopCompile input reservations (policy_drainTimeoutSeconds policy) issuedAt));
  match rpp_path plan with
  | Some (first :: rest) => mret (plan, new_deployment f plan first (List.last rest first) (Some (first :: rest)) now)
  | _ => throw "TypeError" "Bind parameters must not contain undefined"
  end.

(** The part of [acceptPlan] for two Nodes. *)
Definition plan_pair (now : Z) (actor : jsstr) (f : Forward) (previous : option deployment) (generation : Z) : tx (RelayPreparedPlan * Deployment) :=
  nodes ← path_facts now actor f;
  profile ← locked_profile actor f;
  e ← egress_endpoint f;
  old ← previous_plan previous;
  ports ← choose_ports true "No authorized exclusive internal TLS port is available" (preferred_port old true (rse_nodeId e)) (id f) e []
            (protocols (spec f));
  resources ← lift (compileRelayResources (with_enabled f) (map xf_facts nodes) profile e (port_of ports));
  reservations ← reserveRelay policy f resources generation;
  issuedAt ← lift (toISOString now);
  plan ← lift (compileRelayPlan (MkRelayPlanInput (with_enabled f) nodes profile e reservations issuedAt (policy_drainTimeoutSeconds policy)));
  mret (plan, new_deployment f plan (ingress_nodeId (spec f)) (rse_nodeId e) None now).

Definition acceptPlan (now : Z) (actor : jsstr) (f : Forward) : tx RelayPreparedPlan :=
  _ ← lockNodes f;
  previous ← latest_deployment (id f);
  let generation := Z.max (revision f) (match previous with Some r => dp_generation r | None => 0 end + 1) in
  _ ← require (generation <=? MAX_COUNTER) "RESOURCE_LIMIT" "Relay generation exhausted";
  '(plan, row) ← (if is_multihop f then plan_multihop now actor f previous generation else plan_pair now actor f previous generation);
  _ ← store_plan generation f row;
  mret plan.
End Deployments.
