(* ===== verification/RelayLocks.v ===== *)
(** The lock order of related Nodes.

    A transaction on a Node locks every Node that shares a deployment with it, directly or
    through others, in the order of their identifiers (the loop of [relatedNodeIDs] in
    relay-coordinator.ts).  Its result is the connected component of the Node, so two
    transactions lock either disjoint sets or the same set in the same order. *)

From S2P Require Import Prelude.
From S2P Require Import JsString.
From S2P Require Import Digest.
From S2P Require Import Planner.
From S2P Require Import RelayPlan.
From S2P Require Import Store.
From S2P Require Import Operations.
From S2P Require Import RelayDeployments.

Local Open Scope Z_scope.

(** ** The loop *)

Definition touches (ids link : list jsstr) : Prop := exists x, x ∈ link /\ x ∈ ids.
Definition closed (links : list (list jsstr)) (ids : list jsstr) : Prop := forall link, link ∈ links -> touches ids link -> link ⊆ ids.
Definition linked (links : list (list jsstr)) (x y : jsstr) : Prop := exists link, link ∈ links /\ x ∈ link /\ y ∈ link.

Lemma set_add_spec ids x y : y ∈ set_add ids x <-> y ∈ ids \/ y = x.
Proof.
  unfold set_add. destruct (includes ids x) eqn:E; [|by rewrite elem_of_app, list_elem_of_singleton].
  apply includes_true in E. naive_solver.
Qed.

Lemma set_add_length ids x : (length ids <= length (set_add ids x))%nat /\ (length (set_add ids x) = length ids -> set_add ids x = ids /\ x ∈ ids).
Proof.
  unfold set_add. destruct (includes ids x) eqn:E; [apply includes_true in E; by split; [lia|]|]. rewrite length_app. cbn. split; lia.
Qed.

Lemma set_add_nodup ids x : NoDup ids -> NoDup (set_add ids x).
Proof.
  intros Hn. unfold set_add. destruct (includes ids x) eqn:E; [done|]. apply includes_false in E.
  apply NoDup_app. split_and!; [done| |apply NoDup_singleton]. intros y Hy ->%list_elem_of_singleton. done.
Qed.

Lemma add_all_spec link ids y : y ∈ fold_left set_add link ids <-> y ∈ ids \/ y ∈ link.
Proof.
  revert ids. induction link as [|x l IH]; intros ids; cbn; [set_solver|]. rewrite IH, set_add_spec, elem_of_cons. tauto.
Qed.

Lemma add_all_length link ids : (length ids <= length (fold_left set_add link ids))%nat /\
  (length (fold_left set_add link ids) = length ids -> fold_left set_add link ids = ids /\ link ⊆ ids).
Proof.
  revert ids. induction link as [|x l IH]; intros ids; cbn; [split; [lia|set_solver]|].
  destruct (IH (set_add ids x)) as [L1 E1], (set_add_length ids x) as [L2 E2]. split; [lia|]. intros E.
  destruct E1 as [E1 Hl]; [lia|]. destruct E2 as [E2 Hx]; [lia|]. rewrite E1. split; [done|]. rewrite E2 in Hl. set_solver.
Qed.

Lemma add_all_nodup link ids : NoDup ids -> NoDup (fold_left set_add link ids).
Proof. revert ids. induction link as [|x l IH]; intros ids Hn; cbn; [done|]. by apply IH, set_add_nodup. Qed.

Lemma touches_spec ids link : existsb (includes ids) link = true <-> touches ids link.
Proof. rewrite existsb_exists. unfold touches. setoid_rewrite includes_true. by setoid_rewrite list_elem_of_In. Qed.

Section Pass.
Context (links : list (list jsstr)).

(** The state of a pass after some of the links. *)
Lemma close_pass_spec ids ids' b : close_pass links ids = (ids', b) ->
  ids ⊆ ids' /\ (NoDup ids -> NoDup ids') /\ (forall y, y ∈ ids' -> exists x, x ∈ ids /\ rtc (linked links) x y) /\
  (if b then exists link, link ∈ links /\ ~ link ⊆ ids /\ link ⊆ ids' else ids' = ids /\ closed links ids).
Proof.
  unfold close_pass. set (step := fun (st : list jsstr * bool) link => _).
  assert (forall l ids0 b0 ids' b, l ⊆ links -> fold_left step l (ids0, b0) = (ids', b) ->
    ids0 ⊆ ids' /\ (NoDup ids0 -> NoDup ids') /\ (forall y, y ∈ ids' -> exists x, x ∈ ids0 /\ rtc (linked links) x y) /\
    (if b then b0 = true \/ exists link, link ∈ l /\ ~ link ⊆ ids0 /\ link ⊆ ids' else b0 = false /\ ids' = ids0 /\ closed l ids0)) as Hgen; cycle 1.
  { intros E. apply Hgen in E as (? & ? & ? & E); [|done]. split_and!; [done..|]. destruct b; [|tauto]. by destruct E. }
  intros l. induction l as [|link l IH]; intros ids0 b0 ids1 b1 Hl; cbn.
  { intros [= <- <-]. split_and!; [done|done|intros y Hy; exists y; split; [done|reflexivity]|]. destruct b0; [by left|]. split_and!; [done..|]. intros ? []%not_elem_of_nil. }
  destruct (existsb (includes ids0) link) eqn:Et.
  - apply touches_spec in Et as (x & Hx & Hx0). intros E. apply IH in E as (Hsub & Hnd & Hreach & Hb); [|set_solver].
    destruct (add_all_length link ids0) as [Hlen Hsame].
    assert (Hs0 : ids0 ⊆ fold_left set_add link ids0) by (intros y Hy; apply add_all_spec; by left).
    split_and!; [set_solver|intros ?; by apply Hnd, add_all_nodup| |].
    + intros y (z & Hz%add_all_spec & Hzy)%Hreach. destruct Hz as [Hz|Hz]; [by eauto|]. exists x. split; [done|].
      apply rtc_l with z; [|done]. exists link. split_and!; [set_solver|done..].
    + destruct b1.
      * destruct Hb as [Hb|(k & ? & ? & ?)]; [|right; exists k; set_solver]. destruct b0; [by left|]. right. cbn in Hb.
        apply negb_true_iff, Nat.eqb_neq in Hb. exists link. split_and!; [set_solver| |].
        -- intros Hin. apply Hb. clear -Hin. symmetry. assert (fold_left set_add link ids0 = ids0) as ->; [|done].
           revert Hin. induction link as [|a r IHr]; intros Hin; cbn; [done|]. unfold set_add at 2. rewrite (proj2 (includes_true ids0 a)) by set_solver. apply IHr. set_solver.
        -- intros y Hy. apply Hsub, add_all_spec. by right.
      * destruct Hb as (Hb & -> & Hc). apply orb_false_elim in Hb as [-> Hb]. apply negb_false_iff, Nat.eqb_eq in Hb.
        destruct Hsame as [E Hin]; [done|]. rewrite E in *. split_and!; [done..|].
        intros k [->|Hk]%elem_of_cons Ht; [done|]. by apply Hc.
  - intros E. apply IH in E as (Hsub & Hnd & Hreach & Hb); [|set_solver]. split_and!; [done..|].
    destruct b1; [destruct Hb as [?|(k & ? & ? & ?)]; [by left|right; exists k; set_solver]|].
    destruct Hb as (-> & -> & Hc). split_and!; [done..|]. intros k [->|Hk]%elem_of_cons Ht; [|by apply Hc].
    apply touches_spec in Ht. congruence.
Qed.

(** The links a set does not contain yet. *)
Definition outside (ids : list jsstr) : list (list jsstr) := filter (fun link => ~ link ⊆ ids) links.

Lemma close_links_spec fuel ids : (length (outside ids) < fuel)%nat -> NoDup ids ->
  NoDup (close_links fuel links ids) /\ ids ⊆ close_links fuel links ids /\ closed links (close_links fuel links ids) /\
  forall y, y ∈ close_links fuel links ids -> exists x, x ∈ ids /\ rtc (linked links) x y.
Proof.
  revert ids. induction fuel as [|fuel IH]; intros ids Hf Hn; [lia|]. cbn.
  destruct (close_pass links ids) as [ids' b] eqn:E. apply close_pass_spec in E as (Hsub & Hnd & Hreach & Hb).
  destruct b; [|destruct Hb as [-> Hc]; split_and!; [done..|]; intros y Hy; exists y; split; [done|reflexivity]].
  destruct Hb as (link & Hin & Hout & Hin').
  assert (length (outside ids') < length (outside ids))%nat.
  { unfold outside. clear -Hsub Hin Hout Hin'. induction links as [|k l IHl]; [by apply not_elem_of_nil in Hin|].
    assert (Hle : (length (filter (fun link => ~ link ⊆ ids') l) <= length (filter (fun link => ~ link ⊆ ids) l))%nat).
    { clear -Hsub. induction l as [|m l IHl]; [done|]. rewrite !filter_cons. repeat case_decide; cbn; try lia. set_solver. }
    rewrite !filter_cons. apply elem_of_cons in Hin as [<-|Hin].
    - rewrite decide_False by tauto. rewrite decide_True by done. cbn. lia.
    - specialize (IHl Hin). repeat case_decide; cbn; try lia. set_solver. }
  destruct (IH ids' ltac:(lia) (Hnd Hn)) as (H1 & H2 & H3 & H4). split_and!; [done|set_solver|done|].
  intros y (z & (x & Hx & Hxz)%Hreach & Hzy)%H4. exists x. split; [done|]. by etransitivity.
Qed.

Lemma related_ids_spec n m : m ∈ related_ids links n <-> rtc (linked links) n m.
Proof.
  unfold related_ids. rewrite sort_by_perm.
  destruct (close_links_spec (S (length links)) [n]) as (_ & Hn & Hc & Hr).
  { pose proof (length_filter (fun link => ~ link ⊆ [n]) links). unfold outside. lia. }
  { apply NoDup_singleton. }
  split; [by intros (x & ->%list_elem_of_singleton & ?)%Hr|].
  revert m. apply (rtc_ind_r (fun m => m ∈ close_links (S (length links)) links [n]) n); [set_solver|].
  intros y z _ (link & Hl & Hy & Hz) IH. eapply Hc; [done| |done]. by exists y.
Qed.

Lemma related_ids_sorted n : StronglySorted (fun a b => str_leb a b = true) (related_ids links n) /\ NoDup (related_ids links n).
Proof.
  split.
  - apply Sorted_StronglySorted; [intros ???; apply str_leb_trans|]. apply sort_by_sorted.
    intros a b Hab. unfold str_leb in *. apply negb_false_iff in Hab. by rewrite (str_ltb_asym _ _ Hab).
  - unfold related_ids. rewrite sort_by_perm. apply close_links_spec; [|apply NoDup_singleton].
    pose proof (length_filter (fun link => ~ link ⊆ [n]) links). unfold outside. lia.
Qed.
End Pass.

Lemma related_sym links x y : rtc (linked links) x y -> rtc (linked links) y x.
Proof.
  induction 1 as [|x z y (link & ? & ? & ?) _ IH]; [reflexivity|]. etransitivity; [exact IH|]. apply rtc_once. by exists link.
Qed.

Lemma related_ids_same links n m : rtc (linked links) n m -> related_ids links m = related_ids links n.
Proof.
  intros Hnm. destruct (related_ids_sorted links n) as [Sn Nn], (related_ids_sorted links m) as [Sm Nm].
  apply (StronglySorted_unique_strong (fun a b => str_leb a b = true)); [intros a b _ _ ? ?; by apply str_leb_antisym|done..|].
  apply NoDup_Permutation; [done..|]. intros x. rewrite !related_ids_spec.
  split; intros ?; [by transitivity m|]. transitivity n; [by apply related_sym|done].
Qed.

(** ** The transaction *)

(** The two Nodes are part of one stored plan. *)
Definition deployed_together (d : Db) (x y : jsstr) : Prop :=
  exists k r, db_relay_deployments d !! k = Some r /\ x ∈ map pnd_nodeId (rpp_nodes (dp_body r)) /\ y ∈ map pnd_nodeId (rpp_nodes (dp_body r)).

Section Locks.
Context `{Hashing}.

Lemma plan_of_Returns r d plan d' : plan_of r d = Returns (plan, d') -> d' = d /\ plan = dp_body r.2 /\
  rpp_forwardId plan = dp_forward r /\ rpp_forwardRevision plan = dp_target_revision r.2 /\ rpp_deploymentGeneration plan = dp_generation r /\
  digests_to (plan_body_json plan) (rpp_planDigest plan).
Proof.
  unfold plan_of. intros Hr. tx_inv. unfold digest_differs in Hrun. apply bind_Returns in Hrun as (dg & Hd & [= <-]).
  propify. unfold str_eqb in *. propify. split_and!; try done; try lia. unfold digests_to. congruence.
Qed.

Lemma plan_nodes_Returns r d ids d' : plan_nodes r d = Returns (ids, d') -> d' = d /\ ids = map pnd_nodeId (rpp_nodes (dp_body r.2)).
Proof. unfold plan_nodes. intros Hr. tx_inv. by apply plan_of_Returns in Hrun as (-> & -> & _). Qed.

Lemma collect_plans records d links d' : collect_each plan_nodes records d = Returns (links, d') ->
  d' = d /\ links = map (fun r : deployment => map pnd_nodeId (rpp_nodes (dp_body r.2))) records.
Proof.
  revert links d'. induction records as [|r l IH]; intros links d' Hr; cbn in Hr; tx_inv; [done|].
  apply plan_nodes_Returns in Hrun as (-> & ->). apply IH in Hrun0 as (-> & ->). done.
Qed.

Definition all_deployments (d : Db) : list deployment := List.filter (fun _ => true) (map_to_list (db_relay_deployments d)).
Definition all_links (d : Db) : list (list jsstr) := map (fun r : deployment => map pnd_nodeId (rpp_nodes (dp_body r.2))) (all_deployments d).

Lemma linked_together d x y : linked (all_links d) x y <-> deployed_together d x y.
Proof.
  unfold linked, deployed_together, all_links, all_deployments. split.
  - intros (link & ([k r] & -> & Hin)%list_elem_of_fmap & Hx & Hy).
    apply list_elem_of_In, filter_In in Hin as [Hin%list_elem_of_In%elem_of_map_to_list _]. by exists k, r.
  - intros (k & r & Hk & Hx & Hy). eexists. split_and!; [|exact Hx|exact Hy]. apply list_elem_of_fmap. exists (k, r). split; [done|].
    apply list_elem_of_In, filter_In. split; [|done]. by apply list_elem_of_In, elem_of_map_to_list.
Qed.

Lemma relatedNodeIDs_run m d : relatedNodeIDs m d =
  match collect_each plan_nodes (all_deployments d) d with Returns (links, d1) => Returns (related_ids links m, d1) | Throws e => Throws e end.
Proof. reflexivity. Qed.

Lemma relatedNodeIDs_Returns n d ids d' : relatedNodeIDs n d = Returns (ids, d') ->
  d' = d /\ ids = related_ids (all_links d) n /\ forall m, relatedNodeIDs m d = Returns (related_ids (all_links d) m, d).
Proof.
  setoid_rewrite relatedNodeIDs_run. destruct (collect_each _ _ _) as [[links d1]|] eqn:E; [|done].
  apply collect_plans in E as (-> & ->). intros [= <- <-]. done.
Qed.

(** C23. Lock order of related Nodes: [relatedNodeIDs] terminates, and what it returns is the
    connected component of the Node among the Nodes that share a stored plan, without
    repetition and in the order of the identifiers.  Every Node of the component yields the
    same list, so two transactions lock disjoint sets or the same Nodes in the same order. *)
Theorem relatedNodeIDs_component (n : jsstr) (d d' : Db) (ids : list jsstr) :
  relatedNodeIDs n d = Returns (ids, d') ->
  d' = d /\ (forall m, m ∈ ids <-> rtc (deployed_together d) n m) /\
  NoDup ids /\ StronglySorted (fun a b => str_leb a b = true) ids /\
  (forall m, m ∈ ids -> relatedNodeIDs m d = Returns (ids, d)) /\
  (forall m ids' d1, relatedNodeIDs m d = Returns (ids', d1) -> ids' = ids \/ (forall x, x ∈ ids' -> x ∉ ids)).
Proof.
  intros (-> & -> & Hall)%relatedNodeIDs_Returns.
  assert (Hc : forall a b, rtc (linked (all_links d)) a b <-> rtc (deployed_together d) a b).
  { intros a b. split; intros Hab; (eapply rtc_subrel; [|exact Hab]); intros x y ?; by apply linked_together. }
  destruct (related_ids_sorted (all_links d) n). split_and!; [done| |done|done| |].
  - intros m. by rewrite related_ids_spec.
  - intros m Hm%related_ids_spec. by rewrite Hall, (related_ids_same _ n m).
  - intros m ids' d1 (_ & -> & _)%relatedNodeIDs_Returns. destruct (decide (m ∈ related_ids (all_links d) n)) as [Hm|Hm].
    + left. apply related_ids_same. by apply related_ids_spec.
    + right. intros x Hx%related_ids_spec Hx'%related_ids_spec. apply Hm, related_ids_spec. transitivity x; [done|by apply related_sym].
Qed.
End Locks.

(** ** Three deployments over five Nodes *)

Definition linked_plan (f : jsstr) (nodes : list jsstr) : RelayPreparedPlan :=
  let body := MkPreparedPlan None None f 1 1 0 0 (map (fun n => MkPlannedNode n 1 []) nodes) [] in
  with_digest body (sum_of (plan_body_json body)).

Definition linked_row (f : jsstr) (nodes : list jsstr) : Deployment :=
  MkDeployment 1 [] [] g_preparing (linked_plan f nodes) None 0 0 0 0.

Definition linked_db : Db :=
  with_relay_deployments (fun _ => list_to_map (map (fun fn : jsstr * list jsstr => ((fn.1, 1), linked_row fn.1 fn.2))
    [(js "f1", [js "n3"; js "n1"]); (js "f2", [js "n2"; js "n3"]); (js "f3", [js "n4"; js "n5"])])) empty_db.

Lemma relatedNodeIDs_component_witness :
  let ids := [js "n1"; js "n2"; js "n3"] in
  @relatedNodeIDs checksum_hashing (js "n1") linked_db = Returns (ids, linked_db) /\
  (forall m, m ∈ ids <-> rtc (deployed_together linked_db) (js "n1") m).
Proof.
  cbv zeta. assert (E : @relatedNodeIDs checksum_hashing (js "n1") linked_db = Returns ([js "n1"; js "n2"; js "n3"], linked_db)) by (vm_compute; reflexivity).
  split; [exact E|]. exact (proj1 (proj2 (@relatedNodeIDs_component checksum_hashing _ _ _ _ E))).
Defined.
