(* ===== verification/RelayCoordinator.v ===== *)
(** The Relay coordinator (the second half of apps/control/src/modules/runtime/relay-coordinator.ts):
    how a deployment moves from stage to stage on what the Nodes report, when its Operation
    completes, and how it is withdrawn. *)

From S2P Require Import Prelude.
From S2P Require Import JsString.
From S2P Require Import Primitives.
From S2P Require Import Json.
From S2P Require Import Forward.
From S2P Require Import Digest.
From S2P Require Import Types.
From S2P Require Import Validate.
From S2P Require Import Schema.
From S2P Require Import Relay.
From S2P Require Import Adp3.
From S2P Require Import Transit.
From S2P Require Import Probe.
From S2P Require Import TargetPolicy.
From S2P Require Import Planner.
From S2P Require Import SnapshotRegistry.
From S2P Require Import RelayPlan.
From S2P Require Import Store.
From S2P Require Import Idempotency.
From S2P Require Import Forwarding.
From S2P Require Import Slots.
From S2P Require Import Operations.
From S2P Require Import Retirements.
From S2P Require Import Nodes.
From S2P Require Import RelayDeployments.

Local Open Scope Z_scope.

(** ** Observations *)

(** The same assignment, generation and fence. *)
Definition observes (a : RuntimeAssignment) (o : Observation) : bool :=
  str_eqb (obs_assignmentId o) (rua_assignmentId a) && (obs_deploymentGeneration o =? rua_deploymentGeneration a) &&
  (obs_bindingFence o =? rua_bindingFence a).

(** The planned Assignment as a Snapshot carries it: the same instance and configuration. *)
Definition carries (a current : RuntimeAssignment) : bool :=
  same_instance current a && str_eqb (rua_configDigest current) (rua_configDigest a).

(** [SELECT body FROM snapshots WHERE node_id=? AND generation=? AND session_epoch=?] *)
Definition published_in (nodeId : jsstr) (generation epoch : Z) (d : Db) : option RuntimeSnapshot :=
  row ← db_snapshots d !! (nodeId, generation);
  if sn_session_epoch row =? epoch then Some (sn_body row) else None.

Definition expected_condition (phase : Phase) : Condition := if bool_decide (phase = prepared) then c_prepared else c_ready.

(** The Assignment is published in the phase and reported in it. *)
Definition observed_in (phase : Phase) (s : RuntimeSnapshot) (report : ReportRequest) (a : RuntimeAssignment) : bool :=
  existsb (fun current => carries a current && bool_decide (rua_phase current = phase)) (rus_assignments s) &&
  existsb (fun o => observes a o && bool_decide (obs_phase o = present phase) && bool_decide (obs_condition o = expected_condition phase))
    (rep_observations report).

(** What [observed] reads of the Node. *)
Definition observed_at (policy : Policy) (now : Z) (node : PlannedNode) (phase : Phase) (d : Db) : bool :=
  match db_runtime_nodes d !! pnd_nodeId node with
  | None => false
  | Some runtime =>
      match rn_last_report runtime, rn_received_at runtime with
      | Some report, Some received =>
          (rn_session_epoch runtime =? pnd_sessionEpoch node) && (now <? received + observationFreshnessSeconds policy * 1000) &&
          (rep_sessionEpoch report =? pnd_sessionEpoch node) && (rep_acceptedSnapshotGeneration report =? rn_snapshot_generation runtime) &&
          match published_in (pnd_nodeId node) (rn_snapshot_generation runtime) (pnd_sessionEpoch node) d with
          | None => false
          | Some s => negb (n_le (Date_text (rus_validUntil s)) (Some (now + maxClockSkewSeconds policy * 1000))) &&
                      forallb (observed_in phase s report) (pnd_assignments node)
          end
      | _, _ => false
      end
  end.

Definition observed (policy : Policy) (now : Z) (node : PlannedNode) (phase : Phase) : tx bool := query (observed_at policy now node phase).

(** [(await Promise.all(nodes.map(node => this.observed(tx, node, phase)))).every(Boolean)] *)
Definition all_observed (policy : Policy) (now : Z) (expected : list (PlannedNode * Phase)) : tx bool :=
  seen ← collect_each (fun np : PlannedNode * Phase => observed policy now np.1 np.2) expected;
  mret (forallb (fun b => b) seen).

(** ** Operations *)

Definition set_last_error (error : json) (now : Z) (o : Operation) : Operation :=
  MkOperation (op_scope_id o) (op_forward_id o) (op_target_revision o) (op_kind o) (op_status o) (op_execution_deadline o)
    (op_claim_token o) (op_claim_until o) (op_cleanup_pending o) (Some error) (op_source_operation_id o) (op_previous_spec o) (op_created_at o)
    now (op_requested_by o) (op_idempotency_key o) (op_request_digest o) (op_attempt_count o) (op_superseded_by o) (op_recovery_invalidated o).

Definition text_json (t : option jsstr) : json := match t with Some t => JStr t | None => JNull end.

(** [{code, retryable, nodeId, sessionEpoch, assignmentId, deploymentGeneration, bindingFence}] *)
Definition execution_error (s : RuntimeSnapshot) (a : RuntimeAssignment) (o : Observation) : list (jsstr * json) :=
  [(js "code", text_json (obs_errorCode o)); (js "retryable", JBool (obs_retryable o)); (js "nodeId", JStr (rus_nodeId s));
   (js "sessionEpoch", JInt (rus_sessionEpoch s)); (js "assignmentId", JStr (rua_assignmentId a));
   (js "deploymentGeneration", JInt (rua_deploymentGeneration a)); (js "bindingFence", JInt (rua_bindingFence a))].

Definition refresh_reason (staleSession changedPins : bool) : jsstr :=
  if staleSession then js "new-session" else if changedPins then js "peer-credential" else js "credential-renewal".

(** [assignment.role.startsWith('multihop-')] *)
Definition is_hop_role (r : RuntimeRole) : bool :=
  match r with multihop_ingress | multihop_transit | multihop_egress => true | _ => false end.

(** [`${node_id}/${protocol}/${port}`] *)
Definition slot_text (k : slot_id) : jsstr := slash (slash k.1.1 (protocol_name k.1.2)) (num_to_string k.2).

Definition planned_slots (plan : RelayPreparedPlan) : list jsstr :=
  concat (map (fun n => map (fun a => slot_text (pnd_nodeId n, res_protocol (rua_resource a), res_port (rua_resource a))) (pnd_assignments n))
    (rpp_nodes plan)).

(** The current Snapshot still carries the Forward, and its authority has not run out. *)
Definition still_published (policy : Policy) (now : Z) (forwardId nodeId : jsstr) : tx bool :=
  found ← select db_snapshots (fun k _ => str_eqb k.1 nodeId);
  mret match head (sort_by (fun a b : (jsstr * Z) * SnapshotRow => b.1.2 <=? a.1.2) found) with
       | Some (_, s) => (now <? sn_valid_until s + maxClockSkewSeconds policy * 1000) &&
                        existsb (fun a => str_eqb (rua_forwardId a) forwardId) (rus_assignments (sn_body s))
       | None => false
       end.

(** [for (...) { if (f(x)) return; }]: whether the loop returned. *)
Fixpoint any_of {A} (f : A -> tx bool) (l : list A) : tx bool :=
  match l with
  | [] => mret false
  | x :: r => b ← f x; if (b : bool) then mret true else any_of f r
  end.

Section Coordinator.
Context `{Hashing, Schema RelayProfileConfig, Schema RelayOpen, Schema RelayAssignment, Adp2Schemas, Adp3Schemas, Locale}.
(** [uuid d] is the value [randomUUID()] yields in state [d]. *)
Context (policy : Policy) (multihopEnabled : bool) (uuid : Db -> jsstr).

(** ** The ledger's view of the assignments *)

(** [RelayAssignmentSource] *)
Definition relay_source (now : Z) : SnapshotAssignmentSource Db :=
  MkSource (js "native-relay-plans")
    [MkDeclaration (js "native.relay.v1") 1 [js "relay-ingress"; js "relay-egress"];
     MkDeclaration (js "native.multihop.v1") 1 [js "multihop-ingress"; js "multihop-transit"; js "multihop-egress"]]
    (fun d context => match relay_assignments policy multihopEnabled now (ctx_nodeId context) (ctx_includeAccepted context) d with
                      | Returns (l, _) => Returns (MkContribution (ctx_nodeId context) l)
                      | Throws e => Throws e
                      end).

(** [assignmentSources.merge(tx, context, direct)] of the registry built by the application *)
Definition merge_relay (now : Z) (context : SnapshotAssignmentContext) (native : list RuntimeAssignment) : tx (list RuntimeAssignment) :=
  fun d => (sources ← lift (new_SnapshotAssignmentRegistry [relay_source now]); lift (merge sources d context native)) d.

(** The ledger of the application: [nodes] decides who may execute. *)
Definition node_assignments (now : Z) (n : AuthorizedNodeFacts) (includeAccepted : bool) : tx (list RuntimeAssignment) :=
  assignments (Some (Nodes.canExecute now)) (merge_relay now) now n includeAccepted.

Definition node_capacity (now : Z) (n : AuthorizedNodeFacts) : tx unit :=
  assertCapacity policy (Some (Nodes.canExecute now)) (merge_relay now) now n.

(** [for (const nodeId of await nodeIDs(...)) await assertCapacity(..., cleanupFacts(...))] *)
Definition assertExecutionCapacity (now : Z) (f : Forward) : tx unit :=
  ids ← nodeIDs f;
  for_each (fun nodeId => n ← cleanupFacts nodeId (scopeId f); node_capacity now n) ids.

(** ** Completion *)

Definition release_undesired (forwardId : jsstr) (desired : list jsstr) : tx unit :=
  modify (with_port_slots (update_where
    (fun k r => bool_decide (sl_owner_id r = Some forwardId) && negb (includes desired (slot_text k))) (fun _ => free))).

(** [forward.deleting || !forward.spec.enabled || op.kind==='revoke' || record.stage==='withdrawn'] *)
Definition stopping (stage : RelayStage) (f : Forward) (deleting : bool) (o : Operation) : bool :=
  deleting || negb (enabled (spec f)) || bool_decide (op_kind o = k_revoke) || bool_decide (stage = g_withdrawn).

(** The part of [complete] that may return early: whether the work is done. *)
Definition settled (now : Z) (stage : RelayStage) (f : Forward) (deleting : bool) (o : Operation) (plan : RelayPreparedPlan) : tx bool :=
  pending ← query (pending_of (id f));
  if negb (length pending =? 0)%nat then mret false else
  if stopping stage f deleting o then
    ids ← nodeIDs f;
    held ← any_of (still_published policy now (id f)) ids;
    if (held : bool) then mret false else
    unsafe ← query (unsafe_leases (id f));
    if negb (length unsafe =? 0)%nat then mret false else
    _ ← (if (deleting : bool) then releaseForwardSlots (id f) else mret tt);
    mret true
  else
    ready ← (if bool_decide (stage = g_active) then all_observed policy now (map (fun n => (n, active)) (rpp_nodes plan)) else mret false);
    if negb ready then mret false else
    safe ← previousLeasesSafe now (id f) (map (fun n => (pnd_nodeId n, pnd_assignments n)) (rpp_nodes plan));
    if negb safe then mret false else
    _ ← release_undesired (id f) (planned_slots plan);
    mret true.

Definition relay_complete (now : Z) (stage : RelayStage) (f : Forward) (deleting : bool) (op : op_row) (plan : RelayPreparedPlan) : tx unit :=
  let o := op.2 in
  done_ ← settled now stage f deleting o plan;
  if negb done_ then mret tt else
  let stopped := stopping stage f deleting o in
  _ ← (if bool_decide (op_status o = s_running) && (now <? op_execution_deadline o) &&
          (stopped && deleting || stopped && negb (enabled (spec f)) || stopped && bool_decide (op_kind o = k_revoke) || negb stopped)
       then update_operations (fun i p => str_eqb i op.1 && bool_decide (op_status p = s_running) && (now <? op_execution_deadline p))
              (fun p => unclaim (set_finished now p))
       else mret tt);
  if bool_decide (op_status o = s_succeeded) || stopped
  then update_operations (fun _ p => str_eqb (op_forward_id p) (id f) &&
         match op_status p with s_succeeded | s_failed | s_superseded => true | _ => false end) (set_cleaned now)
  else mret tt.

(** ** Stages *)

(** The Nodes [nodes.slice(Math.max(0, count - prepared_count - 1))]. *)
Definition expected_prepared (nodes : list PlannedNode) (prepared_ : Z) : list PlannedNode :=
  drop (Z.to_nat (Z.max 0 (Z.of_nat (length nodes) - prepared_ - 1))) nodes.

(** Upstream of the activated suffix a Node is prepared, in it active. *)
Definition expected_active (nodes : list PlannedNode) (activated : Z) : list (PlannedNode * Phase) :=
  imap (fun i n => (n, if Z.of_nat (length nodes) - activated <=? Z.of_nat i then active else prepared)) nodes.

Definition advanceMultihop (now : Z) (r : deployment) (f : Forward) (deleting : bool) (op : op_row) (plan : RelayPreparedPlan) : tx unit :=
  let count := Z.of_nat (length (rpp_nodes plan)) in
  match dp_stage r.2 with
  | g_preparing =>
      ok ← all_observed policy now (map (fun n => (n, prepared)) (expected_prepared (rpp_nodes plan) (dp_prepared_count r.2)));
      if negb ok then mret tt else
      let prepared_ := dp_prepared_count r.2 + 1 in
      update_deployment r.1 (set_progress prepared_ (if prepared_ =? count then g_egress_active else g_preparing) (if prepared_ =? count then 1 else 0) now)
  | g_egress_active =>
      ok ← all_observed policy now (expected_active (rpp_nodes plan) (dp_activated_count r.2));
      if negb ok then mret tt else
      if dp_activated_count r.2 <? count then
        update_deployment r.1 (fun p => set_progress (dp_prepared_count p) (dp_stage p) (dp_activated_count p + 1) now p)
      else
        _ ← update_deployment r.1 (set_stage g_active now);
        relay_complete now g_active f deleting op plan
  | g_active => relay_complete now g_active f deleting op plan
  | _ => mret tt
  end.

(** The stage the reports allow a two-Node deployment to enter. *)
Definition next_stage (now : Z) (stage : RelayStage) (ingress egress : PlannedNode) : tx RelayStage :=
  match stage with
  | g_preparing =>
      a ← observed policy now ingress prepared;
      b ← (if (a : bool) then observed policy now egress prepared else mret false);
      mret (if (b : bool) then g_egress_active else stage)
  | g_egress_active =>
      a ← observed policy now egress active;
      b ← (if (a : bool) then observed policy now ingress prepared else mret false);
      mret (if (b : bool) then g_ingress_active else stage)
  | g_ingress_active =>
      a ← observed policy now ingress active;
      b ← (if (a : bool) then observed policy now egress active else mret false);
      mret (if (b : bool) then g_active else stage)
  | _ => mret stage
  end.

Definition find_planned (plan : RelayPreparedPlan) (nodeId : jsstr) : option PlannedNode :=
  find (fun n => str_eqb (pnd_nodeId n) nodeId) (rpp_nodes plan).

Definition advancePair (now : Z) (r : deployment) (f : Forward) (deleting : bool) (op : op_row) (plan : RelayPreparedPlan) : tx unit :=
  match find_planned plan (dp_ingress_node_id r.2), find_planned plan (dp_egress_node_id r.2) with
  | Some ingress, Some egress =>
      next ← next_stage now (dp_stage r.2) ingress egress;
      _ ← (if bool_decide (next = dp_stage r.2) then mret tt else update_deployment r.1 (set_stage next now));
      if bool_decide (next = g_active) then relay_complete now next f deleting op plan else mret tt
  | _, _ => throw "TypeError" "Cannot read properties of undefined"
  end.

(** Some Node of the plan has another session. *)
Definition stale_session (plan : RelayPreparedPlan) (d : Db) : bool :=
  existsb (fun n => negb (bool_decide (rn_session_epoch <$> db_runtime_nodes d !! pnd_nodeId n = Some (pnd_sessionEpoch n)))) (rpp_nodes plan).

(** [Math.min(...current.map(n => Math.min(n.credentialUntil, ...n.peers.map(p => p.validUntil))))] *)
Definition current_bound (nodes : list RelayNodeExecutionFacts) : option Z :=
  match map (fun n => fold_left Z.min (map pc_validUntil (xf_peers n)) (xf_credentialUntil n)) nodes with
  | [] => None
  | b :: r => Some (fold_left Z.min r b)
  end.

(** The minimum of no numbers is Infinity. *)
Definition bound_after (b : option Z) (until : Z) : bool := match b with Some b => until <? b | None => true end.

(** The plan is replaced by one of a new generation, and the Operation by a new one. *)
Definition refresh (now : Z) (actor : jsstr) (r : deployment) (f : Forward) (op : op_row) (reason : jsstr) : tx unit :=
  _ ← acceptPlan policy multihopEnabled now actor f;
  requestDigest ← lift (digest (JObj [(js "forwardId", JStr (id f)); (js "generation", JInt (dp_generation r)); (js "reason", JStr reason)]));
  oid ← query uuid;
  _ ← accept now oid f (MkRequest (op_requested_by op.2) (scopeId f) (js "relay-refresh:" ++ num_to_string (dp_generation r)) requestDigest)
        k_policy (Some (spec_json (spec f))) (Some op.1);
  assertExecutionCapacity now f.

(** The first half of [advance]: whether the deployment was replaced. *)
Definition refreshed (now : Z) (r : deployment) (f : Forward) (op : op_row) (plan : RelayPreparedPlan) : tx bool :=
  stale ← query (stale_session plan);
  actor ← authorizer (id f);
  match actor with
  | None => mret false
  | Some actor =>
      allowed ← relay_canExecute multihopEnabled now actor f;
      if negb allowed then mret false else
      current ← path_facts multihopEnabled now actor f;
      changedPins ← lift (pinsChanged policy now plan current);
      let renewed := (rpp_authorizationUntil plan <=? now + renewalLeadSeconds policy * 1000) && bound_after (current_bound current) (rpp_authorizationUntil plan) in
      if stale || changedPins || renewed
      then _ ← refresh now actor r f op (refresh_reason stale changedPins); mret true
      else mret false
  end.

Definition withdraw (now : Z) (r : deployment) : tx unit := update_deployment r.1 (set_stage g_withdrawn now).

(** [this.authorized(...)] is only asked when nothing else stops the deployment. *)
Definition advance_stage (now : Z) (r : deployment) (f : Forward) (deleting recoverySuspended : bool) (op : op_row) (plan : RelayPreparedPlan) : tx unit :=
  let o := op.2 in
  stopped ← (if deleting || negb (enabled (spec f)) || bool_decide (op_kind o = k_revoke) || bool_decide (op_status o = s_failed) || recoverySuspended
             then mret true else allowed ← plan_authorized policy multihopEnabled now f plan; mret (negb allowed));
  if (stopped : bool) then
    _ ← withdraw now r;
    relay_complete now g_withdrawn f deleting op plan
  else match rpp_path plan with
       | Some _ => advanceMultihop now r f deleting op plan
       | None => advancePair now r f deleting op plan
       end.

Definition advance (now : Z) (forwardId : jsstr) : tx unit :=
  record ← latest_deployment forwardId;
  last ← latest forwardId;
  match record, last with
  | Some r, Some op =>
      let o := op.2 in
      if op_recovery_invalidated o then mret tt else
      _ ← update_deployment r.1 (fun p => set_stage (dp_stage p) now p);
      '(f, deleting, recoverySuspended) ← record_of (op_scope_id o) forwardId;
      plan ← plan_of r;
      if negb match op_status o with s_running | s_succeeded => true | s_failed => op_cleanup_pending o | _ => false end then mret tt else
      if negb (bool_decide (is_Some (path_via (spec f)))) then withdraw now r else
      replaced ← (if negb (bool_decide (op_status o = s_failed)) && negb deleting && enabled (spec f) && negb (bool_decide (op_kind o = k_revoke)) &&
                     negb recoverySuspended && (revision f =? rpp_forwardRevision plan)
                  then refreshed now r f op plan else mret false);
      if (replaced : bool) then mret tt else advance_stage now r f deleting recoverySuspended op plan
  | _, _ => mret tt
  end.

(** [SELECT DISTINCT forward_id ... ORDER BY forward_id] *)
Definition deployed_forwards (nodeId : jsstr) (d : Db) : list jsstr :=
  sort_by str_leb (new_Set (map dp_forward (List.filter (fun r : deployment => deployed_on nodeId r.2) (map_to_list (db_relay_deployments d))))).

Definition advanceForNode (now : Z) (nodeId : jsstr) : tx unit :=
  forwards ← query (deployed_forwards nodeId);
  for_each (advance now) forwards.

(** ** Errors of a hop *)

(** The reported instance belongs to the deployment. *)
Definition reported_hop (plan : RelayPreparedPlan) (s : RuntimeSnapshot) (a : RuntimeAssignment) : bool :=
  match find (fun n => str_eqb (pnd_nodeId n) (rus_nodeId s) && (pnd_sessionEpoch n =? rus_sessionEpoch s)) (rpp_nodes plan) with
  | Some node => existsb (fun p => carries a p) (pnd_assignments node)
  | None => false
  end.

(** The failed Operation: the current one, or a new one after a success. *)
Definition failing_operation (now : Z) (r : deployment) (f : Forward) (op : op_row) (error : list (jsstr * json)) : tx jsstr :=
  if bool_decide (op_status op.2 = s_succeeded) then
    requestDigest ← lift (digest (JObj ((js "sourceOperationId", JStr op.1) :: error)));
    oid ← query uuid;
    accept now oid f (MkRequest (op_requested_by op.2) (op_scope_id op.2) (js "multihop-error:" ++ num_to_string (dp_generation r)) requestDigest)
      k_policy (Some (spec_json (spec f))) (Some op.1)
  else mret op.1.

Definition fail_hop (now : Z) (r : deployment) (f : Forward) (op : op_row) (error : list (jsstr * json)) : tx unit :=
  oid ← failing_operation now r f op error;
  _ ← update_operations (fun i _ => str_eqb i oid) (fun o => unclaim (set_failed (JObj error) now o));
  withdraw now r.

Definition executionError (now : Z) (s : RuntimeSnapshot) (a : RuntimeAssignment) (obs : Observation) : tx unit :=
  if negb (bool_decide (obs_condition obs = c_error)) || negb (is_hop_role (rua_role a)) || negb (observes a obs) then mret tt else
  record ← latest_deployment (rua_forwardId a);
  match record with
  | None => mret tt
  | Some r =>
      plan ← plan_of r;
      if negb (bool_decide (is_Some (rpp_path plan))) || bool_decide (dp_stage r.2 = g_withdrawn) || negb (reported_hop plan s a) then mret tt else
      last ← latest (rua_forwardId a);
      match last with
      | None => mret tt
      | Some op =>
          let o := op.2 in
          if op_recovery_invalidated o || negb (op_target_revision o =? dp_target_revision r.2) || bool_decide (op_kind o = k_revoke) ||
             negb match op_status o with s_running | s_succeeded => true | _ => false end then mret tt else
          '(f, deleting, recoverySuspended) ← record_of (op_scope_id o) (op_forward_id o);
          if deleting || recoverySuspended || negb (enabled (spec f)) || negb (revision f =? rpp_forwardRevision plan) then mret tt else
          let error := execution_error s a obs in
          if obs_retryable obs then
            (if bool_decide (op_status o = s_running)
             then update_operations (fun i _ => str_eqb i op.1) (set_last_error (JObj error) now) else mret tt)
          else fail_hop now r f op error
      end
  end.

(** ** Pending work *)

(** An Operation of the Forward that is not over. *)
Definition has_pending_work (d : Db) (forwardId : jsstr) : bool :=
  existsb (fun io : op_row => str_eqb (op_forward_id io.2) forwardId && negb (op_recovery_invalidated io.2) &&
    (is_active (op_status io.2) || op_cleanup_pending io.2)) (map_to_list (db_operations d)).

(** [ORDER BY d.updated_at,d.forward_id LIMIT 100] *)
Definition pending_deployments (d : Db) : list deployment :=
  take 100 (sort_by (fun a b : deployment => (dp_updated_at a.2 <? dp_updated_at b.2) || (dp_updated_at a.2 =? dp_updated_at b.2) && by_forward a b)
    (List.filter (fun r : deployment => newest d r && (negb (bool_decide (dp_stage r.2 = g_withdrawn)) || has_pending_work d (dp_forward r)))
      (map_to_list (db_relay_deployments d)))).

Definition leased_nodes (forwardId : jsstr) (d : Db) : list jsstr :=
  map (fun kl : lease_id * Lease => kl.1.1.1.1.1)
    (List.filter (fun kl : lease_id * Lease => str_eqb (ls_forward_id kl.2) forwardId) (map_to_list (db_leases d))).

Definition pending_nodes (r : deployment) : tx (list jsstr) :=
  ids ← plan_nodes r;
  leased ← query (leased_nodes (dp_forward r));
  mret (ids ++ leased).

(** Ingress Nodes first, then by identifier. *)
Definition ingress_first (ingresses : list jsstr) (a b : jsstr) : bool :=
  js_or ((if includes ingresses b then 1 else 0) - (if includes ingresses a then 1 else 0)) (cmp_str a b) <=? 0.

Definition pendingNodeIDs : tx (list jsstr) :=
  records ← query pending_deployments;
  found ← collect_each pending_nodes records;
  mret (sort_by (ingress_first (map (fun r : deployment => dp_ingress_node_id r.2) records)) (new_Set (concat found))).
End Coordinator.
