(* ===== verification/RelayFrame.v ===== *)
(** What the coordinator and the ledger leave alone.

    The queries of the coordinator only read.  The commands of the ledger rewrite Operations,
    retirements and slots; [ledger_step] says that they touch nothing else and forget no
    retired instance. *)

From S2P Require Import Prelude.
From S2P Require Import JsString.
From S2P Require Import Forward.
From S2P Require Import Digest.
From S2P Require Import Types.
From S2P Require Import Validate.
From S2P Require Import Schema.
From S2P Require Import Relay.
From S2P Require Import Adp3.
From S2P Require Import Transit.
From S2P Require Import RelayPlan.
From S2P Require Import Store.
From S2P Require Import Idempotency.
From S2P Require Import Forwarding.
From S2P Require Import Slots.
From S2P Require Import Operations.
From S2P Require Import Retirements.
From S2P Require Import Nodes.
From S2P Require Import Reads.
From S2P Require Import RelayDeployments.
From S2P Require Import RelayCoordinator.

Local Open Scope Z_scope.

(** ** Queries *)

Section Queries.
Context `{Hashing, Schema RelayProfileConfig, Schema RelayOpen, Schema RelayAssignment, Adp2Schemas, Adp3Schemas, Locale}.
Context (policy : Policy) (multihopEnabled : bool).

Lemma reads_plan_of r : evolves eq (plan_of r).
Proof using. unfold plan_of. evolve. Qed.
Hint Resolve reads_plan_of : evolves.

Lemma reads_plan_nodes r : evolves eq (plan_nodes r).
Proof using. unfold plan_nodes. evolve. Qed.
Hint Resolve reads_plan_nodes : evolves.

Lemma reads_nodeIDs f : evolves eq (nodeIDs f).
Proof using. unfold nodeIDs. evolve. Qed.
Hint Resolve reads_nodeIDs : evolves.

Lemma reads_relatedNodeIDs n : evolves eq (relatedNodeIDs n).
Proof using. unfold relatedNodeIDs. evolve. Qed.

Lemma reads_lockNodes f : evolves eq (lockNodes f).
Proof using. unfold lockNodes. evolve. Qed.

Lemma reads_latest_deployment i : evolves eq (latest_deployment i).
Proof using. unfold latest_deployment. evolve. Qed.

Lemma reads_path_facts now a f : evolves eq (path_facts multihopEnabled now a f).
Proof using. unfold path_facts, node_execution. evolve. Qed.

Lemma reads_locked_profile a f : evolves eq (locked_profile a f).
Proof using. unfold locked_profile. evolve. Qed.

Lemma reads_egress_endpoint f : evolves eq (egress_endpoint f).
Proof using. unfold egress_endpoint. evolve. Qed.

Lemma reads_free_port b f n used l : evolves eq (free_port b f n used l).
Proof using. induction l as [|p l IH]; cbn; evolve; done. Qed.
Hint Resolve reads_free_port : evolves.

Lemma reads_choose_ports b m pref f e used ps : evolves eq (choose_ports b m pref f e used ps).
Proof using. revert used. induction ps as [|p ps IH]; intros used; cbn; evolve; apply IH. Qed.
Hint Resolve reads_choose_ports reads_path_facts reads_locked_profile reads_egress_endpoint reads_latest_deployment : evolves.

Lemma reads_multihopInput now a f previous b : evolves eq (multihopInput multihopEnabled now a f previous b).
Proof using. unfold multihopInput, hop_ports. evolve. Qed.
Hint Resolve reads_multihopInput : evolves.

Lemma reads_relay_canExecute now a f : evolves eq (relay_canExecute multihopEnabled now a f).
Proof using.
  unfold relay_canExecute, catch. intros d b d'. destruct (executable _ _ _ _ d) as [[x d1]|e] eqn:E; [|destruct (refusal e); naive_solver].
  intros [= <- <-]. revert E. assert (He : evolves eq (executable multihopEnabled now a f)) by (unfold executable; evolve). apply He.
Qed.
Hint Resolve reads_relay_canExecute : evolves.

Lemma reads_plan_authorized now f plan : evolves eq (plan_authorized policy multihopEnabled now f plan).
Proof using. unfold plan_authorized. evolve. Qed.
Hint Resolve reads_plan_authorized : evolves.

Lemma reads_publishablePlan now r plan b : evolves eq (publishablePlan policy multihopEnabled now r plan b).
Proof using. unfold publishablePlan. evolve. Qed.
Hint Resolve reads_publishablePlan : evolves.

Lemma reads_relay_assignments now n b : evolves eq (relay_assignments policy multihopEnabled now n b).
Proof using. unfold relay_assignments, deployment_assignments. evolve. Qed.

Lemma reads_authorizationBound now l : evolves eq (authorizationBound now l).
Proof using. unfold authorizationBound, forward_bound, node_bound. evolve. Qed.

Lemma reads_merge_relay now c l : evolves eq (merge_relay policy multihopEnabled now c l).
Proof using.
  unfold merge_relay. intros d a d' (sources & d1 & [_ ->]%lift_Returns & [_ ->]%lift_Returns)%tx_bind_Returns. done.
Qed.
Hint Resolve reads_merge_relay : evolves.

Lemma reads_node_assignments now n b : evolves eq (node_assignments policy multihopEnabled now n b).
Proof using. unfold node_assignments, assignments, forward_assignments, forNode. evolve. Qed.
Hint Resolve reads_node_assignments : evolves.

Lemma reads_capacity_check now n : evolves eq (RelayCoordinator.node_capacity policy multihopEnabled now n).
Proof using. unfold RelayCoordinator.node_capacity, assertCapacity. fold (node_assignments policy multihopEnabled now n true). evolve. Qed.
Hint Resolve reads_capacity_check : evolves.

Lemma reads_assertExecutionCapacity now f : evolves eq (assertExecutionCapacity policy multihopEnabled now f).
Proof using. unfold assertExecutionCapacity. evolve. Qed.

Lemma reads_all_observed now l : evolves eq (all_observed policy now l).
Proof using. unfold all_observed, observed. evolve. Qed.

Lemma reads_still_published now f n : evolves eq (still_published policy now f n).
Proof using. unfold still_published. evolve. Qed.

Lemma reads_any_of {A} (f : A -> tx bool) l : (forall x, evolves eq (f x)) -> evolves eq (any_of f l).
Proof using. intros Hf. induction l as [|x l IH]; cbn; evolve; done. Qed.

Lemma reads_next_stage now s i e : evolves eq (next_stage policy now s i e).
Proof using. unfold next_stage, observed. evolve. Qed.

Lemma reads_pendingNodeIDs : evolves eq pendingNodeIDs.
Proof using. unfold pendingNodeIDs, pending_nodes. evolve. Qed.
End Queries.

#[export] Hint Resolve reads_plan_of reads_plan_nodes reads_nodeIDs reads_relatedNodeIDs reads_lockNodes reads_latest_deployment reads_path_facts
  reads_locked_profile reads_egress_endpoint reads_choose_ports reads_multihopInput reads_relay_canExecute reads_plan_authorized
  reads_publishablePlan reads_relay_assignments reads_authorizationBound reads_node_assignments reads_capacity_check
  reads_assertExecutionCapacity reads_all_observed reads_still_published reads_any_of reads_next_stage reads_pendingNodeIDs : evolves.

(** ** Commands of the ledger *)

(** Everything but Operations, retirements and slots. *)
Definition beside (d : Db) :=
  (db_forwards d, db_forward_revisions d, db_leases d, db_snapshots d, db_runtime_nodes d, db_idempotency d, db_identity d, db_machines d,
   db_profiles d, db_transit d, db_paths d, db_probes d).

(** No retired instance is forgotten. *)
Definition retired_stays (d d' : Db) : Prop := forall k, is_Some (db_retirements d !! k) -> is_Some (db_retirements d' !! k).

Record ledger_step (d d' : Db) : Prop := { lg_beside : beside d' = beside d; lg_retired : retired_stays d d' }.

#[export] Instance ledger_step_preorder : PreOrder ledger_step.
Proof.
  split; [intros d; split; [done|intros k; done]|]. intros d d1 d2 [B1 R1] [B2 R2]. split; [congruence|]. intros k Hk. by apply R2, R1.
Qed.

(** A command that also leaves the deployments, boots and reports alone. *)
Definition work_step (d d' : Db) : Prop := ledger_step d d' /\ db_runtime d' = db_runtime d.

#[export] Instance work_step_preorder : PreOrder work_step.
Proof. split; [intros d; by split|]. intros d d1 d2 [] []. split; [by etransitivity|congruence]. Qed.

Lemma work_is_ledger {A} (m : tx A) : evolves work_step m -> evolves ledger_step m.
Proof. intros Hm d a d' [? _]%Hm. done. Qed.

Lemma work_modify f : (forall d, beside (f d) = beside d) -> (forall d, db_runtime (f d) = db_runtime d) ->
  (forall d, retired_stays d (f d)) -> evolves work_step (modify f).
Proof. intros H1 H2 H3. apply evolves_modify. intros d. by split; [split|]. Qed.

Lemma work_operations w c : evolves work_step (update_operations w c).
Proof. apply work_modify; [done..|]. by intros d k. Qed.

Lemma work_slots f : evolves work_step (modify (with_port_slots f)).
Proof. apply work_modify; [done..|]. by intros d k. Qed.

Lemma work_retirements f : (forall m k, is_Some (m !! k) -> is_Some (f m !! k)) -> evolves work_step (modify (with_retirements f)).
Proof. intros Hf. apply work_modify; [done..|]. intros d k. apply Hf. Qed.

Lemma work_insert_operation i o : evolves work_step (insert_row db_operations with_operations i o).
Proof. unfold insert_row. evolve. apply work_modify; [done..|]. by intros d k. Qed.

#[export] Hint Resolve work_operations work_slots work_insert_operation : evolves.
#[export] Hint Extern 5 (evolves work_step _) => apply evolves_reads; [apply _|] : evolves.
#[export] Hint Extern 5 (evolves ledger_step _) => apply evolves_reads; [apply _|] : evolves.

Lemma stays_update {K V} `{Countable K} w c (m : gmap K V) k : is_Some (m !! k) -> is_Some (update_where w c m !! k).
Proof. intros [v Hv]. rewrite update_where_lookup, Hv. by eexists. Qed.

Lemma stays_alter {K V} `{Countable K} (f : V -> V) (m : gmap K V) i k : is_Some (m !! k) -> is_Some (alter f i m !! k).
Proof. intros Hk. destruct (decide (i = k)) as [->|]; [rewrite lookup_alter_eq|by rewrite lookup_alter_ne]. by destruct Hk as [v ->]. Qed.

Lemma work_accept now i f rq kind prev src : evolves work_step (accept now i f rq kind prev src).
Proof. unfold accept. evolve. apply work_retirements. intros m k. apply stays_update. Qed.

Lemma work_releaseForwardSlots f : evolves work_step (releaseForwardSlots f).
Proof. apply work_slots. Qed.

Lemma work_releaseObsoleteSlots f : evolves work_step (releaseObsoleteSlots f).
Proof. unfold releaseObsoleteSlots. evolve. Qed.
#[export] Hint Resolve work_accept work_releaseForwardSlots work_releaseObsoleteSlots : evolves.

Lemma work_complete_one now n l r s op : evolves work_step (complete_one now n l r s op).
Proof. unfold complete_one, clear_cleanup. evolve. Qed.
#[export] Hint Resolve work_complete_one : evolves.

Lemma work_complete now n r s : evolves work_step (complete now n r s).
Proof. unfold complete, settle. evolve. apply work_retirements. intros m k. apply stays_alter. Qed.

Lemma work_observeDrains n e r : evolves work_step (observeDrains n e r).
Proof. unfold observeDrains, observe_drain. evolve. apply work_retirements. intros m k. apply stays_alter. Qed.

Lemma work_retire_row (k : instance_id) (oid : jsstr) (a : RuntimeAssignment) (g : Z) (m : gmap instance_id Retirement) (k' : instance_id) : is_Some (m !! k') -> is_Some (retire_row k oid a g m !! k').
Proof. unfold retire_row. destruct (m !! k); (destruct (decide (k = k')) as [->|]; [rewrite lookup_insert_eq|by rewrite lookup_insert_ne]); by eauto. Qed.

Lemma work_retireChanged n p next g : evolves work_step (retireChanged n p next g).
Proof. unfold retireChanged, retire_one. evolve. apply work_retirements. intros m k. apply work_retire_row. Qed.

Lemma work_reserveRelay `{Locale} policy f rs g : evolves work_step (reserveRelay policy f rs g).
Proof. unfold reserveRelay, reserve_relay_one, take_slot, lock_slot, capacity. evolve. Qed.
#[export] Hint Resolve work_complete work_observeDrains work_retireChanged work_reserveRelay : evolves.

(** ** Commands of the coordinator *)

(** Deployments evolve by [R]; boots and reports stay. *)
Definition deployments_step (R : gmap (jsstr * Z) Deployment -> gmap (jsstr * Z) Deployment -> Prop) (d d' : Db) : Prop :=
  ledger_step d d' /\ db_boots d' = db_boots d /\ db_reports d' = db_reports d /\ R (db_relay_deployments d) (db_relay_deployments d').

#[export] Instance deployments_step_preorder R `{!PreOrder R} : PreOrder (deployments_step R).
Proof.
  split; [intros d; split_and!; done|]. intros d d1 d2 (? & ? & ? & ?) (? & ? & ? & ?). split_and!; [by etransitivity|congruence..|by etransitivity].
Qed.

Lemma work_is_deployments R `{!Reflexive R} {A} (m : tx A) : evolves work_step m -> evolves (deployments_step R) m.
Proof. intros Hm d a d' [? E]%Hm. unfold deployments_step, db_boots, db_reports, db_relay_deployments. rewrite E. by split_and!. Qed.

(** No deployment is lost. *)
Definition kept (m m' : gmap (jsstr * Z) Deployment) : Prop := forall k, is_Some (m !! k) -> is_Some (m' !! k).

#[export] Instance kept_preorder : PreOrder kept.
Proof. split; [by intros m k|]. intros m m1 m2 H1 H2 k Hk. by apply H2, H1. Qed.

Abbreviation coordinator_step := (deployments_step kept).

#[export] Hint Extern 6 (evolves (deployments_step _) _) => apply work_is_deployments; [apply _|] : evolves.
#[export] Hint Extern 5 (evolves (deployments_step _) _) => apply evolves_reads; [apply _|] : evolves.

Lemma coordinator_deployments f : (forall m k, is_Some (m !! k) -> is_Some (f m !! k)) -> evolves coordinator_step (modify (with_relay_deployments f)).
Proof. intros Hf. apply evolves_modify. intros d. split; [split; [done|by intros k]|]. split_and!; try done. intros k. apply Hf. Qed.

Lemma coordinator_update k c : evolves coordinator_step (update_deployment k c).
Proof. apply coordinator_deployments. intros m k'. apply stays_alter. Qed.
#[export] Hint Resolve coordinator_update : evolves.

Section Commands.
Context `{Hashing, Schema RelayProfileConfig, Schema RelayOpen, Schema RelayAssignment, Adp2Schemas, Adp3Schemas, Locale}.
Context (policy : Policy) (multihopEnabled : bool) (uuid : Db -> jsstr).

Lemma coordinator_store g f row : evolves coordinator_step (store_plan g f row).
Proof using.
  unfold store_plan, insert_row. evolve. apply coordinator_deployments. intros m k Hk.
  destruct (decide ((id f, g) = k)) as [<-|]; [rewrite lookup_insert_eq; by eexists|by rewrite lookup_insert_ne].
Qed.
Hint Resolve coordinator_store : evolves.

Lemma work_plan_multihop now a f previous g : evolves work_step (plan_multihop policy multihopEnabled now a f previous g).
Proof using. unfold plan_multihop, previous_plan. evolve. Qed.

Lemma work_plan_pair now a f previous g : evolves work_step (plan_pair policy multihopEnabled now a f previous g).
Proof using. unfold plan_pair, previous_plan. evolve. Qed.
Hint Resolve work_plan_multihop work_plan_pair : evolves.

Lemma coordinator_acceptPlan now a f : evolves coordinator_step (acceptPlan policy multihopEnabled now a f).
Proof using. unfold acceptPlan. evolve. Qed.
Hint Resolve coordinator_acceptPlan : evolves.

Lemma work_relay_complete now stage f deleting op plan : evolves work_step (relay_complete policy now stage f deleting op plan).
Proof using. unfold relay_complete, settled, release_undesired. evolve. Qed.
Hint Resolve work_relay_complete : evolves.

Lemma coordinator_advance now f : evolves coordinator_step (advance policy multihopEnabled uuid now f).
Proof using. unfold advance, refreshed, refresh, advance_stage, advanceMultihop, advancePair, withdraw. evolve. Qed.
Hint Resolve coordinator_advance : evolves.

Lemma coordinator_advanceForNode now n : evolves coordinator_step (advanceForNode policy multihopEnabled uuid now n).
Proof using. unfold advanceForNode. evolve. Qed.

Lemma coordinator_executionError now s a o : evolves coordinator_step (executionError uuid now s a o).
Proof using. unfold executionError, fail_hop, failing_operation, withdraw. evolve. Qed.
End Commands.
#[export] Hint Resolve work_plan_multihop work_plan_pair coordinator_acceptPlan work_relay_complete coordinator_advance coordinator_advanceForNode coordinator_executionError : evolves.
