(* ===== verification/Execution.v ===== *)
(** What a change of authority asks of the Runtime (apps/control/src/modules/runtime/authorization-ports.ts),
    and how the application provides it (apps/control/src/application/control.ts).

    The interfaces of the source are type classes; a second class states what the clients rely
    on, and the instance of the application satisfies it.  [accepts] is the abstract
    specification of a run of a client: a sequence of accepted Operations, one per affected
    Forward, between steps that only reserve resources. *)

From S2P Require Import Prelude.
From S2P Require Import JsString.
From S2P Require Import Primitives.
From S2P Require Import Json.
From S2P Require Import Forward.
From S2P Require Import Digest.
From S2P Require Import Types.
From S2P Require Import Validate.
From S2P Require Import Schema.
From S2P Require Import Relay.
From S2P Require Import Adp3.
From S2P Require Import Transit.
From S2P Require Import TargetPolicy.
From S2P Require Import Planner.
From S2P Require Import RelayPlan.
From S2P Require Import Store.
From S2P Require Import Idempotency.
From S2P Require Import Forwarding.
From S2P Require Import Slots.
From S2P Require Import Operations.
From S2P Require Import Retirements.
From S2P Require Import Identity.
From S2P Require Import Nodes.
From S2P Require Import Profiles.
From S2P Require Import Reads.
From S2P Require Import RelayDeployments.
From S2P Require Import RelayCoordinator.
From S2P Require Import RelayFrame.

Local Open Scope Z_scope.

(** ** The interfaces *)

Class ForwardAuthorizationExecution := {
  ex_lock : Forward -> tx unit;
  ex_allowed : jsstr -> Forward -> tx bool;
  ex_transition : jsstr -> Forward -> tx unit;
  ex_accept : Forward -> RequestIdentity -> OperationKind -> tx jsstr;
  ex_assertCapacity : Forward -> tx unit;
}.

Class AccessExecution := {
  access_execution :: ForwardAuthorizationExecution;
  ax_nodeIDs : Forward -> tx (list jsstr);
  ax_maximumAuthorization : jsstr -> tx (option Z);
  ax_validateNode : jsstr -> jsstr -> bool -> tx unit;
}.

Class NodeManagementExecution := {
  node_execution_port :: ForwardAuthorizationExecution;
  mx_nodeIDs : Forward -> tx (list jsstr);
  mx_maximumAuthorization : jsstr -> tx (option Z);
  mx_denyIntent : jsstr -> tx unit;
  mx_assertNodeCapacity : AuthorizedNodeFacts -> tx unit;
}.

(** ** Steps that only plan *)

(** Everything but slots and Relay deployments. *)
Definition plan_frame (d : Db) := (beside d, db_operations d, db_retirements d, db_boots d, db_reports d).
Definition plan_step (d d' : Db) : Prop := plan_frame d' = plan_frame d /\ kept (db_relay_deployments d) (db_relay_deployments d').

#[export] Instance plan_step_preorder : PreOrder plan_step.
Proof. split; [intros d; by split|]. intros d d1 d2 [E1 K1] [E2 K2]. split; [congruence|by etransitivity]. Qed.

#[export] Hint Extern 5 (evolves plan_step _) => apply evolves_reads; [apply _|] : evolves.

Lemma plan_slots f : evolves plan_step (modify (with_port_slots f)).
Proof. apply evolves_modify. intros d. by split. Qed.
#[export] Hint Resolve plan_slots : evolves.

Lemma plan_reserve policy f : evolves plan_step (reserve policy f).
Proof. unfold reserve, reserve_one, lock_slot, take_slot. evolve. Qed.

Lemma plan_transition f g : evolves plan_step (transition f g).
Proof. unfold transition, transition_one, lock_slot, take_slot. evolve. Qed.

Lemma plan_reserveRelay `{Locale} policy f rs g : evolves plan_step (reserveRelay policy f rs g).
Proof. unfold reserveRelay, reserve_relay_one, lock_slot, take_slot, capacity. evolve. Qed.
#[export] Hint Resolve plan_reserve plan_transition plan_reserveRelay : evolves.

Lemma plan_store g f row : evolves plan_step (store_plan g f row).
Proof.
  unfold store_plan, insert_row. evolve. apply evolves_modify. intros d. split; [done|]. intros k Hk.
  unfold db_relay_deployments, with_relay_deployments, with_runtime. cbn.
  destruct (decide ((id f, g) = k)) as [<-|]; [rewrite lookup_insert_eq; by eexists|by rewrite lookup_insert_ne].
Qed.
#[export] Hint Resolve plan_store : evolves.

(** ** The specification of a change of authority *)

(** One affected Forward: the Operation it got, of which kind, and whether it was denied at once. *)
Record Entry := MkEntry { en_forward : Forward; en_operation : jsstr; en_kind : OperationKind; en_denied : bool }.

Definition en_id (e : Entry) : jsstr := id (en_forward e).

(** [denyIntent], or nothing *)
Definition denied (e : Entry) (d d' : Db) : Prop :=
  if en_denied e then exists now, denyIntent now (en_operation e) d = Returns (tt, d') else d' = d.

Inductive accepts (rq : RequestIdentity) : list Entry -> Db -> Db -> Prop :=
  | accepts_nil d d' : plan_step d d' -> accepts rq [] d d'
  | accepts_cons e l clock d d1 d2 d3 d' : plan_step d d1 ->
      accept clock (en_operation e) (en_forward e) rq (en_kind e) None None d1 = Returns (en_operation e, d2) ->
      denied e d2 d3 -> accepts rq l d3 d' -> accepts rq (e :: l) d d'.

Class ForwardAuthorizationLaws `{ForwardAuthorizationExecution} : Prop := {
  lock_reads f : evolves eq (ex_lock f);
  allowed_reads a f : evolves eq (ex_allowed a f);
  transition_plans a f : evolves plan_step (ex_transition a f);
  accept_ledger f rq kind d r d' : ex_accept f rq kind d = Returns (r, d') -> exists clock, accept clock r f rq kind None None d = Returns (r, d');
  capacity_reads f : evolves eq (ex_assertCapacity f);
}.

(** The bound a client reports: no recorded lease of the Node reaches beyond it. *)
Definition bounds_leases (n : jsstr) (until : option Z) (d : Db) : Prop :=
  forall k l, db_leases d !! k = Some l -> k.1.1.1.1 = n -> exists u, until = Some u /\ ls_valid_until l <= u.

Class AccessLaws `{AccessExecution} : Prop := {
  access_laws :: ForwardAuthorizationLaws;
  nodeIDs_covers f d ids d' : ax_nodeIDs f d = Returns (ids, d') -> d' = d /\ node_sequence (spec f) ⊆ ids;
  maximum_bounds n d u d' : ax_maximumAuthorization n d = Returns (u, d') -> d' = d /\ bounds_leases n u d;
  validate_reads n s c : evolves eq (ax_validateNode n s c);
}.

Class NodeManagementLaws `{NodeManagementExecution} : Prop := {
  management_laws :: ForwardAuthorizationLaws;
  management_nodeIDs f d ids d' : mx_nodeIDs f d = Returns (ids, d') -> d' = d /\ node_sequence (spec f) ⊆ ids;
  management_bounds n d u d' : mx_maximumAuthorization n d = Returns (u, d') -> d' = d /\ bounds_leases n u d;
  deny_ledger i d u d' : mx_denyIntent i d = Returns (u, d') -> exists now, denyIntent now i d = Returns (u, d');
  node_capacity_reads n : evolves eq (mx_assertNodeCapacity n);
}.

(** ** What a run of [accepts] leaves behind *)

(** The rows of a Forward are the same. *)
Definition same_ops (f : jsstr) (d d' : Db) : Prop :=
  forall i o, op_forward_id o = f -> (db_operations d' !! i = Some o <-> db_operations d !! i = Some o).

(** No Operation of the Forward aims above the revision. *)
Definition not_above (f : jsstr) (revision : Z) (d : Db) : Prop :=
  forall i o, db_operations d !! i = Some o -> op_forward_id o = f -> op_target_revision o <= revision.

(** The entry's Operation is the newest of its Forward and the only one that may still run. *)
Record taken_over (rq : RequestIdentity) (e : Entry) (d : Db) : Prop := {
  to_newest : exists row, Operations.newest d (en_id e) (en_operation e) row /\ op_kind row = en_kind e /\
    op_status row = (if en_denied e then s_failed else s_accepted) /\ op_target_revision row = revision (en_forward e) /\
    op_requested_by row = rq_actorId rq /\ op_recovery_invalidated row = false;
  to_active : forall i o, db_operations d !! i = Some o -> op_forward_id o = en_id e -> is_active (op_status o) = true -> i = en_operation e;
}.

#[export] Instance same_ops_preorder f : PreOrder (same_ops f).
Proof. split; [by intros d i o|]. intros d d1 d2 S1 S2 i o Hf. by rewrite (S2 i o Hf), (S1 i o Hf). Qed.

Lemma same_ops_eq f d d' : db_operations d' = db_operations d -> same_ops f d d'.
Proof. intros E i o _. by rewrite E. Qed.

Lemma newest_same f d d' i o : same_ops f d d' -> Operations.newest d f i o -> Operations.newest d' f i o.
Proof.
  intros S (Hi & Hf & Hn). split_and!; [by apply S|done|]. intros j p Hj Hp. apply Hn; [|done]. by apply S.
Qed.

Lemma taken_over_same rq e d d' : same_ops (en_id e) d d' -> taken_over rq e d -> taken_over rq e d'.
Proof.
  intros S [(row & Hn & Hrow) Ha]. split; [exists row; split; [by eapply newest_same|done]|].
  intros i o Ho Hf. apply Ha; [|done]. by apply S.
Qed.

Lemma not_above_same f r d d' : same_ops f d d' -> not_above f r d -> not_above f r d'.
Proof. intros S Hn i o Ho Hf. apply (Hn i o); [|done]. by apply S. Qed.

Lemma accept_same_ops clock oid f rq kind prev src d r d' g : accept clock oid f rq kind prev src d = Returns (r, d') -> g <> id f -> same_ops g d d'.
Proof.
  intros (-> & Hnew & _ & prior & _ & Hl)%accept_lookup Hg i o Ho. cbn zeta in Hl. rewrite Hl. case_decide as Hi.
  - subst i. rewrite Hnew. split; [|done]. intros [= <-]. by destruct Hg.
  - destruct (db_operations d !! i) as [o0|]; cbn; [|done]. destruct (str_eqb (op_forward_id o0) (id f) && _) eqn:E; [|done].
    apply andb_prop in E as [E _]. apply bool_decide_eq_true in E. split; intros [= <-]; cbn in *; congruence.
Qed.

Lemma deny_rows now oid d u d' : denyIntent now oid d = Returns (u, d') -> forall i, db_operations d' !! i =
  (fun o => if str_eqb i oid && bool_decide (op_status o = s_accepted) then set_failed (error_of "AUTHORIZATION_DENIED") now o else o) <$> db_operations d !! i.
Proof. unfold denyIntent, update_operations. intros Hr i. tx_inv. cbn. by rewrite update_where_lookup. Qed.

Lemma deny_same_ops now oid row d u d' g : denyIntent now oid d = Returns (u, d') -> db_operations d !! oid = Some row -> op_forward_id row <> g -> same_ops g d d'.
Proof.
  intros Hr Hrow Hg i o Ho. rewrite (deny_rows _ _ _ _ _ Hr). destruct (db_operations d !! i) as [o0|] eqn:Ei; cbn; [|done].
  destruct (str_eqb i oid && _) eqn:E; [|done]. apply andb_prop in E as [E _]. apply bool_decide_eq_true in E as ->.
  assert (o0 = row) as -> by congruence. split; intros [= <-]; cbn in *; congruence.
Qed.

Lemma accept_taken clock rq e prev src d d2 : not_above (en_id e) (revision (en_forward e)) d ->
  accept clock (en_operation e) (en_forward e) rq (en_kind e) prev src d = Returns (en_operation e, d2) ->
  taken_over rq (MkEntry (en_forward e) (en_operation e) (en_kind e) false) d2.
Proof.
  intros Hb Hr. destruct (accept_takes_over _ _ _ _ _ _ _ _ _ _ Hb Hr) as (_ & (now & row & _ & -> & Hlat) & _ & Ha & _).
  apply latest_Returns in Hlat as [_ Hn]. split; [by eexists|done].
Qed.

Lemma deny_taken rq f oid kind now d u d' : taken_over rq (MkEntry f oid kind false) d -> denyIntent now oid d = Returns (u, d') ->
  taken_over rq (MkEntry f oid kind true) d'.
Proof.
  intros [(row & (Hi & Hf & Hnew) & Hk & Hs & Hrest) Ha] Hr. pose proof (deny_rows _ _ _ _ _ Hr) as Hl. cbn in *. split; cbn.
  - exists (set_failed (error_of "AUTHORIZATION_DENIED") now row). split; [|done]. split_and!; [|done|].
    + rewrite Hl, Hi. cbn. unfold str_eqb. by rewrite !bool_decide_eq_true_2.
    + intros j p Hj Hp Hne. rewrite Hl in Hj. destruct (db_operations d !! j) as [p0|] eqn:Ej; [|done]. cbn in Hj. unfold str_eqb in Hj.
      rewrite bool_decide_eq_false_2 in Hj by done. injection Hj as <-. exact (Hnew j p0 Ej Hp Hne).
  - intros i o Ho Hfo Hact. rewrite Hl in Ho. destruct (db_operations d !! i) as [o0|] eqn:Ei; [|done]. cbn in Ho. injection Ho as <-.
    destruct (str_eqb i oid && _) eqn:E; [done|]. by apply (Ha i o0).
Qed.

(** A run moves Operations forward and leaves every other table but slots, retirements and deployments. *)
Lemma plan_is_coordinator d d' : plan_step d d' -> coordinator_step d d'.
Proof.
  intros [E K]. pose proof (f_equal (fun p => p.1.1.1.1) E) as Eb. pose proof (f_equal (fun p => p.1.1.2) E) as Er.
  pose proof (f_equal (fun p => p.1.2) E) as E1. pose proof (f_equal snd E) as E2. cbn in Eb, Er, E1, E2.
  split_and!; [split; [exact Eb|]|exact E1|exact E2|exact K]. intros k. by rewrite Er.
Qed.

Lemma work_is_coordinator d d' : work_step d d' -> coordinator_step d d'.
Proof. intros [L E]. unfold deployments_step, db_boots, db_reports, db_relay_deployments. rewrite E. by split_and!. Qed.

Lemma denied_step e d d' : denied e d d' -> work_step d d' /\ ops_step d d'.
Proof.
  unfold denied. destruct (en_denied e); [|by intros ->].
  intros [now Hr]. split; [|by eapply denyIntent_step]. unfold denyIntent in Hr. by eapply work_operations.
Qed.

Lemma denied_taken rq e d d' : taken_over rq (MkEntry (en_forward e) (en_operation e) (en_kind e) false) d -> denied e d d' -> taken_over rq e d'.
Proof. destruct e as [f oid kind []]; unfold denied; cbn; [|by intros ? ->]. intros Ht [now Hr]. by eapply deny_taken. Qed.

Lemma denied_same rq e d d' g : taken_over rq (MkEntry (en_forward e) (en_operation e) (en_kind e) false) d -> denied e d d' -> g <> en_id e -> same_ops g d d'.
Proof.
  intros [(row & (Hi & Hf & _) & _) _] Hd Hg. unfold denied in Hd. destruct (en_denied e); [|by subst].
  destruct Hd as [now Hr]. eapply deny_same_ops; [exact Hr|exact Hi|]. intros E. apply Hg. rewrite <- E. exact Hf.
Qed.

Record accepts_ok (rq : RequestIdentity) (l : list Entry) (d d' : Db) : Prop := {
  ak_taken : Forall (fun e => taken_over rq e d') l;
  ak_others : forall f, f ∉ map en_id l -> same_ops f d d';
  ak_ops : ops_le d d';
  ak_active : one_active d -> one_active d';
  ak_frame : coordinator_step d d';
}.

Lemma plan_step_ops d d' : plan_step d d' -> db_operations d' = db_operations d.
Proof. intros [E _]. exact (f_equal (fun p => p.1.1.1.2) E). Qed.

Lemma accepts_run rq l d d' : accepts rq l d d' -> NoDup (map en_id l) ->
  Forall (fun e => not_above (en_id e) (revision (en_forward e)) d) l -> accepts_ok rq l d d'.
Proof.
  induction 1 as [d d' Hp|e l clock d d1 d2 d3 d' Hp Hacc Hden _ IH]; intros HN HF.
  - pose proof (plan_step_ops _ _ Hp) as E. split; [constructor| | | |by apply plan_is_coordinator].
    + intros f _. by apply same_ops_eq.
    + by apply (ops_step_same d d').
    + intros H1. by apply (ops_step_active d d'); [apply ops_step_same|].
  - apply NoDup_cons in HN as [Hne HN]. apply Forall_cons in HF as [Hb HF]. pose proof (plan_step_ops _ _ Hp) as E.
    assert (S1 : forall f, same_ops f d d1) by (intros f; by apply same_ops_eq).
    assert (Ht : taken_over rq (MkEntry (en_forward e) (en_operation e) (en_kind e) false) d2).
    { eapply accept_taken; [|exact Hacc]. exact (not_above_same _ _ d d1 (S1 _) Hb). }
    assert (S3 : forall f, f <> en_id e -> same_ops f d d3).
    { intros f Hf. transitivity d1; [apply S1|]. transitivity d2; [exact (accept_same_ops _ _ _ _ _ _ _ _ _ _ f Hacc Hf)|exact (denied_same _ _ _ _ f Ht Hden Hf)]. }
    destruct (denied_step _ _ _ Hden) as [W3 O3].
    destruct IH as [HT HO HL HA HC]; [done| |].
    { rewrite Forall_forall in HF |- *. intros e' He'. eapply not_above_same; [apply S3|by apply HF].
      intros E'. apply Hne. rewrite <- E'. by apply list_elem_of_fmap_2. }
    split.
    + constructor; [|done]. eapply taken_over_same; [by apply HO|]. by eapply denied_taken.
    + cbn [map]. intros f Hf. apply not_elem_of_cons in Hf as [Hf1 Hf2]. etransitivity; [by apply S3|by apply HO].
    + etransitivity; [by apply (ops_step_same d d1)|]. etransitivity; [by eapply accept_le|]. etransitivity; [apply O3|done].
    + intros H1. apply HA. eapply ops_step_active; [exact O3|]. eapply accept_active; [exact Hacc|].
      by eapply ops_step_active; [apply ops_step_same; exact E|].
    + etransitivity; [by apply plan_is_coordinator|]. etransitivity; [apply work_is_coordinator; by eapply work_accept|].
      etransitivity; [by apply work_is_coordinator|done].
Qed.

Lemma accepts_plan rq l d d1 d' : plan_step d d1 -> accepts rq l d1 d' -> accepts rq l d d'.
Proof.
  intros Hp Ha. destruct Ha as [d1 d' Hq|e l clock d1 d2 d3 d4 d' Hq Hacc Hd Hl]; [constructor; by etransitivity|].
  econstructor; [by etransitivity|done..].
Qed.

(** ** The application *)

Section Application.
Context `{Hashing, Schema RelayProfileConfig, Schema RelayOpen, Schema RelayAssignment, Adp2Schemas, Adp3Schemas, Locale}.
Context (policy : Policy) (multihopEnabled : bool) (uuid : Db -> jsstr) (now : Z).

(** [forward.spec.path ?] *)
Definition has_path (f : Forward) : bool := bool_decide (is_Some (path_via (spec f))).

Definition executionAllowed (actor : jsstr) (f : Forward) : tx bool :=
  if has_path f then relay_canExecute multihopEnabled now actor f else Nodes.canExecute now actor f.

Definition transitionExecution (actor : jsstr) (f : Forward) : tx unit :=
  if has_path f then _ ← acceptPlan policy multihopEnabled now actor f; mret tt else _ ← transition f f; mret tt.

Definition lockExecution (f : Forward) : tx unit := lockNodes f.

Definition ledger_accept (f : Forward) (rq : RequestIdentity) (kind : OperationKind) : tx jsstr :=
  oid ← query uuid; accept now oid f rq kind None None.

Definition validateNode (nodeId scopeId : jsstr) (capacity : bool) : tx unit :=
  n ← cleanupFacts nodeId scopeId;
  if capacity then node_capacity policy multihopEnabled now n else mret tt.

Definition control_execution : ForwardAuthorizationExecution := {|
  ex_lock := lockExecution; ex_allowed := executionAllowed; ex_transition := transitionExecution; ex_accept := ledger_accept;
  ex_assertCapacity := assertExecutionCapacity policy multihopEnabled now;
|}.

Definition control_access : AccessExecution := {|
  access_execution := control_execution; ax_nodeIDs := nodeIDs; ax_maximumAuthorization := maximumAuthorization; ax_validateNode := validateNode;
|}.

Definition control_nodes : NodeManagementExecution := {|
  node_execution_port := control_execution; mx_nodeIDs := nodeIDs; mx_maximumAuthorization := maximumAuthorization;
  mx_denyIntent := denyIntent now; mx_assertNodeCapacity := node_capacity policy multihopEnabled now;
|}.

Lemma plan_acceptPlan a f : evolves plan_step (acceptPlan policy multihopEnabled now a f).
Proof using. unfold acceptPlan, plan_multihop, plan_pair, previous_plan. evolve. Qed.
End Application.
#[export] Hint Resolve plan_acceptPlan : evolves.

Section ApplicationLaws.
Context `{Hashing, Schema RelayProfileConfig, Schema RelayOpen, Schema RelayAssignment, Adp2Schemas, Adp3Schemas, Locale}.
Context (policy : Policy) (multihopEnabled : bool) (uuid : Db -> jsstr) (now : Z).

#[export] Instance control_execution_laws : @ForwardAuthorizationLaws (control_execution policy multihopEnabled uuid now).
Proof using.
  split; cbn.
  - intros f. apply reads_lockNodes.
  - intros a f. unfold executionAllowed. evolve.
  - intros a f. unfold transitionExecution. evolve.
  - intros f rq kind d r d' Hr. unfold ledger_accept in Hr. tx_inv. exists now. pose proof (accept_lookup _ _ _ _ _ _ _ _ _ _ Hr) as (-> & _). done.
  - intros f. eauto with evolves.
Qed.

Lemma max_of_bound l x : x ∈ l -> exists u, max_of l = Some u /\ x <= u.
Proof using.
  destruct l as [|y r]; [by intros ?%elem_of_nil|]. intros Hx. exists (fold_left Z.max r y). split; [done|].
  assert (Hge : forall r y, y <= fold_left Z.max r y).
  { clear. induction r as [|z r IH]; intros y; cbn; [lia|]. specialize (IH (Z.max y z)). lia. }
  apply elem_of_cons in Hx as [->|Hx]; [apply Hge|]. revert y Hx. induction r as [|z r IH]; intros y Hx; [by apply elem_of_nil in Hx|].
  apply elem_of_cons in Hx as [->|Hx]; cbn; [|by apply IH]. specialize (Hge r (Z.max y z)). lia.
Qed.

Lemma maximumAuthorization_Returns n d u d' : maximumAuthorization n d = Returns (u, d') -> d' = d /\ bounds_leases n u d.
Proof using.
  unfold maximumAuthorization, select_leases. intros Hr. tx_inv. apply select_Returns in Hrun as [-> Hl]. split; [done|].
  intros k l Hk Hn. destruct (max_of_bound (map (fun kl : lease_id * Lease => ls_valid_until kl.2) a) (ls_valid_until l)) as (u & Hu & Hle); [|by exists u].
  apply list_elem_of_fmap. exists (k, l). split; [done|]. apply Hl. split; [done|]. by apply bool_decide_eq_true.
Qed.

Lemma nodeIDs_Returns f d ids d' : nodeIDs f d = Returns (ids, d') -> d' = d /\ node_sequence (spec f) ⊆ ids.
Proof using.
  intros Hr. split; [symmetry; exact (reads_nodeIDs f d ids d' Hr)|]. unfold nodeIDs in Hr. tx_inv. intros x Hx. rewrite sort_by_perm.
  apply new_Set_elem, elem_of_app. by left.
Qed.

#[export] Instance control_access_laws : @AccessLaws (control_access policy multihopEnabled uuid now).
Proof using.
  split; cbn; [apply control_execution_laws|apply nodeIDs_Returns|apply maximumAuthorization_Returns|].
  intros n s c. unfold validateNode. evolve.
Qed.

#[export] Instance control_nodes_laws : @NodeManagementLaws (control_nodes policy multihopEnabled uuid now).
Proof using.
  split; cbn; [apply control_execution_laws|apply nodeIDs_Returns|apply maximumAuthorization_Returns| |eauto with evolves].
  intros i d u d' Hr. by exists now.
Qed.
End ApplicationLaws.
