(* ===== verification/Reconcile.v ===== *)
(** What a change of authority does to the Forwards it concerns
    (apps/control/src/modules/runtime/access-changes.ts, node-changes.ts and profile-grants.ts).

    The reconcilers are written against the interfaces of Execution.v; each is shown to refine the
    specification [accepts]: exactly the Forwards concerned get one new Operation, a [revoke]
    unless execution is still allowed. *)

From S2P Require Import Prelude.
From S2P Require Import JsString.
From S2P Require Import Primitives.
From S2P Require Import Json.
From S2P Require Import Forward.
From S2P Require Import TargetPolicy.
From S2P Require Import Planner.
From S2P Require Import Store.
From S2P Require Import Idempotency.
From S2P Require Import Forwarding.
From S2P Require Import Operations.
From S2P Require Import Identity.
From S2P Require Import Nodes.
From S2P Require Import Profiles.
From S2P Require Import Reads.
From S2P Require Import RelayDeployments.
From S2P Require Import RelayFrame.
From S2P Require Import Execution.

Local Open Scope Z_scope.

Record AccessExecutionResult := MkAccessResult { ar_operationIds : list jsstr; ar_maximumAuthorization : option Z }.

(** [if (until !== null) maximum = Math.max(maximum ?? 0, until)] *)
Definition later_of (maximum until : option Z) : option Z :=
  match until with None => maximum | Some u => Some (Z.max (default 0 maximum) u) end.

Definition latest_until (l : list (option Z)) : option Z := fold_left later_of l None.

(** [allowed ? 'policy' : 'revoke'] *)
Definition change_kind (allowed : bool) : OperationKind := if allowed then k_policy else k_revoke.

Definition checkScope (rq : RequestIdentity) (f : Forward) (message : string) : tx unit :=
  require (str_eqb (scopeId f) (rq_scopeId rq)) "INTEGRITY_FAILURE" message.

Definition when (b : bool) (m : tx unit) : tx unit := if b then m else mret tt.

(** ** Access changes *)

Section Access.
Context `{AccessExecution}.

Definition cutoff (nodeIds : list jsstr) : tx (option Z) :=
  bounds ← collect_each ax_maximumAuthorization nodeIds; mret (latest_until bounds).

(** The body of the loop of [member]: the Operation and the bound of the Forward, unless it is skipped. *)
Definition member_one (rq : RequestIdentity) (member : MemberChangeState) (candidate : Forward) : tx (option (jsstr * option Z)) :=
  _ ← checkScope rq candidate "Actor reference belongs to another scope";
  _ ← ex_lock candidate;
  '(f, deleting, _) ← record_of (rq_scopeId rq) (id candidate);
  _ ← checkScope rq f "Actor reference belongs to another scope";
  if (deleting : bool) then mret None else
  actor ← authorizer (id f);
  if negb (bool_decide (actor = Some (mc_actorId member))) then mret None else
  allowed ← (if bool_decide (mc_role member = manager) then ex_allowed (mc_actorId member) f else mret false);
  _ ← when (allowed && enabled (spec f)) (ex_transition (mc_actorId member) f);
  operationId ← ex_accept f rq (change_kind allowed);
  _ ← when allowed (ex_assertCapacity f);
  ids ← (if has_path f then ax_nodeIDs f else mret [ingress_nodeId (spec f)]);
  until_ ← cutoff ids;
  mret (Some (operationId, until_)).

Definition member_effects (rq : RequestIdentity) (member : MemberChangeState) : tx AccessExecutionResult :=
  if mc_changed member then
    candidates ← forActor (rq_scopeId rq) (mc_actorId member);
    done_ ← collect_each (member_one rq member) candidates;
    let accepted := omap (fun r => r) done_ in
    mret (MkAccessResult (map fst accepted) (latest_until (map snd accepted)))
  else mret (MkAccessResult [] None).

(** [forward.spec.ingress.nodeId === nodeId || forward.spec.path?.via.includes(nodeId)] *)
Definition runs_on (nodeId : jsstr) (f : Forward) : bool :=
  str_eqb (ingress_nodeId (spec f)) nodeId || includes (default [] (path_via (spec f))) nodeId.

(** The body of the loop of [nodeGrant]: the Operation and the Nodes the Forward adds. *)
Definition grant_one (rq : RequestIdentity) (grant : NodeGrantState) (f : Forward) : tx (option (jsstr * list jsstr)) :=
  _ ← checkScope rq f "Actor reference belongs to another scope";
  if negb (runs_on (ng_nodeId grant) f) then mret None else
  _ ← ex_lock f;
  ids ← (if has_path f then ax_nodeIDs f else mret []);
  _ ← when (ng_allowed grant && enabled (spec f)) (ex_transition (ng_actorId grant) f);
  operationId ← ex_accept f rq (change_kind (ng_allowed grant));
  _ ← when (ng_allowed grant && enabled (spec f)) (ex_assertCapacity f);
  mret (Some (operationId, ids)).

Definition nodeGrant_effects (rq : RequestIdentity) (grant : NodeGrantState) : tx AccessExecutionResult :=
  accepted ← (if ng_changed grant then
                forwards ← forActor (rq_scopeId rq) (ng_actorId grant);
                done_ ← collect_each (grant_one rq grant) forwards;
                mret (omap (fun r => r) done_)
              else mret []);
  _ ← ax_validateNode (ng_nodeId grant) (rq_scopeId rq) (ng_allowed grant);
  until_ ← cutoff (new_Set (ng_nodeId grant :: concat (map snd accepted)));
  mret (MkAccessResult (map fst accepted) until_).
End Access.

(** ** Node changes *)

Section NodeChanges.
Context `{NodeManagementExecution}.

(** The body of the loop of [reconcile]. *)
Definition node_change_one (rq : RequestIdentity) (change : NodeManagementChange) (f : Forward) : tx (jsstr * list jsstr) :=
  _ ← checkScope rq f "Node reference belongs to another scope";
  _ ← ex_lock f;
  ids ← (if has_path f then mx_nodeIDs f else mret []);
  sourceActor ← authorizer (id f);
  canRun ← match sourceActor with
           | Some actor => if nm_revoke change || str_eqb actor [] then mret false else ex_allowed actor f
           | None => mret false
           end;
  _ ← when (canRun && enabled (spec f)) (ex_transition (default [] sourceActor) f);
  operationId ← ex_accept f rq (change_kind canRun);
  _ ← when (canRun && enabled (spec f)) (ex_assertCapacity f);
  _ ← when (negb (nm_revoke change) && negb canRun) (mx_denyIntent operationId);
  mret (operationId, ids).

Definition node_change_effects (rq : RequestIdentity) (change : NodeManagementChange) : tx AccessExecutionResult :=
  _ ← require (str_eqb (nf_nodeId (nm_facts change)) (nm_nodeId change) && str_eqb (nf_scopeId (nm_facts change)) (rq_scopeId rq))
        "INTEGRITY_FAILURE" "Node management facts differ from their owner context";
  forwards ← forReferencedNode (nm_nodeId change);
  accepted ← collect_each (node_change_one rq change) forwards;
  _ ← when (negb (nm_revoke change)) (mx_assertNodeCapacity (nm_facts change));
  bounds ← collect_each mx_maximumAuthorization (new_Set (nm_nodeId change :: concat (map snd accepted)));
  mret (MkAccessResult (map fst accepted) (latest_until bounds)).
End NodeChanges.

(** ** Profile grants *)

Section ProfileGrants.
Context `{ForwardAuthorizationExecution}.

(** The body of the loop of [reconcile]. *)
Definition profile_grant_one (rq : RequestIdentity) (grant : TransportGrantState) (f : Forward) : tx jsstr :=
  _ ← checkScope rq f "Profile reference belongs to another scope";
  _ ← ex_lock f;
  canRun ← (if tgs_allowed grant then ex_allowed (tgs_actorId grant) f else mret false);
  _ ← when (canRun && enabled (spec f)) (ex_transition (tgs_actorId grant) f);
  operationId ← ex_accept f rq (change_kind canRun);
  _ ← when (canRun && enabled (spec f)) (ex_assertCapacity f);
  mret operationId.

Definition profile_grant_effects (rq : RequestIdentity) (grant : TransportGrantState) : tx (list jsstr) :=
  forwards ← forProfileActor (tgs_profileId grant) (tgs_actorId grant);
  collect_each (profile_grant_one rq grant) forwards.
End ProfileGrants.

(** ** Shared lemmas *)

Lemma later_of_ge m u : (forall x, m = Some x -> exists y, later_of m u = Some y /\ x <= y) /\ (forall x, u = Some x -> exists y, later_of m u = Some y /\ x <= y).
Proof. split; intros x ->; [destruct u|destruct m]; cbn; eexists; (split; [done|]); lia. Qed.

Lemma latest_until_ge l u : Some u ∈ l -> exists m, latest_until l = Some m /\ u <= m.
Proof.
  unfold latest_until. assert (Hacc : forall l a x, a = Some x -> exists m, fold_left later_of l a = Some m /\ x <= m).
  { clear. induction l as [|v l IH]; intros a x ->; cbn; [by exists x|]. destruct (proj1 (later_of_ge (Some x) v) x eq_refl) as (y & Hy & Hxy).
    destruct (IH _ y Hy) as (m & Hm & Hym). exists m. split; [done|lia]. }
  generalize (@None Z). induction l as [|v l IH]; intros a Hu; [by apply elem_of_nil in Hu|]. apply elem_of_cons in Hu as [<-|Hu]; cbn.
  - destruct (proj2 (later_of_ge a (Some u)) u eq_refl) as (y & Hy & Huy). destruct (Hacc l _ y Hy) as (m & Hm & Hym). exists m. split; [done|lia].
  - by apply IH.
Qed.

Lemma bounds_latest n u l d : u ∈ l -> bounds_leases n u d -> bounds_leases n (latest_until l) d.
Proof.
  intros Hu Hb k ls Hk Hn. destruct (Hb k ls Hk Hn) as (x & -> & Hx). destruct (latest_until_ge l x Hu) as (m & -> & Hm).
  exists m. split; [done|lia].
Qed.

Lemma bounds_same n u d d' : beside d' = beside d -> bounds_leases n u d -> bounds_leases n u d'.
Proof. intros E. assert (El : db_leases d' = db_leases d) by (unfold beside in E; congruence). unfold bounds_leases. by rewrite El. Qed.

Lemma accepts_beside rq l d d' : accepts rq l d d' -> beside d' = beside d.
Proof.
  induction 1 as [d d' Hp|e l clock d d1 d2 d3 d' Hp Hacc Hden _ IH].
  - apply plan_is_coordinator in Hp as ([E _] & _). exact E.
  - rewrite IH. destruct (denied_step _ _ _ Hden) as [[[E3 _] _] _]. rewrite E3.
    apply work_accept in Hacc as [[E2 _] _]. rewrite E2. apply plan_is_coordinator in Hp as ([E _] & _). exact E.
Qed.

Lemma accepts_app rq l1 l2 d d1 d2 : accepts rq l1 d d1 -> accepts rq l2 d1 d2 -> accepts rq (l1 ++ l2) d d2.
Proof.
  induction 1 as [d d1 Hp|e l clock d d' d'' d3 d1 Hp Hacc Hden _ IH]; intros Ha; [by eapply accepts_plan|].
  cbn. econstructor; [done..|]. by apply IH.
Qed.

(** A loop over Forwards each of which is accepted once. *)
Lemma collect_accepts rq {B} (body : Forward -> tx B) (Q : Forward -> B -> Entry -> Prop) d0 fs d bs d' :
  (forall f d b d', f ∈ fs -> beside d = beside d0 -> body f d = Returns (b, d') -> exists e, en_forward e = f /\ accepts rq [e] d d' /\ Q f b e) ->
  beside d = beside d0 -> collect_each body fs d = Returns (bs, d') ->
  exists l, accepts rq l d d' /\ map en_forward l = fs /\ Forall2 (fun b e => Q (en_forward e) b e) bs l.
Proof.
  revert d bs. induction fs as [|f fs IH]; intros d bs Hb E Hr; cbn in Hr.
  - tx_inv. exists []. split_and!; [by constructor|done|constructor].
  - apply tx_bind_Returns in Hr as (b & d1 & Hf & Hr). apply tx_bind_Returns in Hr as (rest & d2 & Hrest & [-> ->]%mret_Returns).
    destruct (Hb f d b d1) as (e & <- & Ha & HQ); [left|done|done|].
    edestruct IH as (l & Hl & <- & HF); [| |exact Hrest|].
    + intros g dg bg dg' Hg. apply Hb. by right.
    + by rewrite (accepts_beside _ _ _ _ Ha).
    + exists (e :: l). split_and!; [by apply (accepts_app rq [e] l d d1)|done|by constructor].
Qed.

Lemma nodup_map_filter {A B} (f : A -> B) p l : NoDup (map f l) -> NoDup (map f (List.filter p l)).
Proof.
  induction l as [|x r IH]; cbn; [done|]. intros [Hx HN]%NoDup_cons. destruct (p x); cbn; [|by apply IH]. apply NoDup_cons. split; [|by apply IH].
  intros Hin. apply Hx. apply list_elem_of_fmap in Hin as (y & -> & Hy). apply list_elem_of_fmap_2. rewrite list_elem_of_In, filter_In in Hy.
  rewrite list_elem_of_In. apply Hy.
Qed.

(** A loop that skips some elements is the loop over the others. *)
Lemma collect_skip {A B} (p : A -> bool) (body : A -> tx (option B)) l d rs d' :
  (forall x d r d', p x = false -> body x d = Returns (r, d') -> r = None /\ d' = d) ->
  collect_each body l d = Returns (rs, d') ->
  exists rs', collect_each body (List.filter p l) d = Returns (rs', d') /\ omap (fun r => r) rs = omap (fun r => r) rs'.
Proof.
  intros Hp. revert d rs. induction l as [|x l IH]; intros d rs Hr; cbn in Hr; [tx_inv; by exists []|].
  apply tx_bind_Returns in Hr as (r & d1 & Hx & Hr). apply tx_bind_Returns in Hr as (rest & d2 & Hrest & [-> ->]%mret_Returns).
  destruct (IH _ _ Hrest) as (rs' & Hrs' & E). cbn. destruct (p x) eqn:Ep.
  - exists (r :: rs'). cbn. rewrite E. split; [|done]. apply tx_bind_Returns. exists r, d1. split; [done|].
    apply tx_bind_Returns. by exists rs', d2.
  - apply Hp in Hx as [-> ->]; [|done]. by exists rs'.
Qed.

(** What a selection of Forwards returns. *)
Lemma select_forwards_Returns where_ d fs d' : select_forwards where_ d = Returns (fs, d') ->
  d' = d /\ NoDup (map id fs) /\
  forall f, f ∈ fs <-> exists row, db_forwards d !! id f = Some row /\ where_ row = true /\ f = to_forward (id f, row).
Proof.
  unfold select_forwards. intros Hr. tx_inv. unfold select in Hrun. tx_inv. rewrite map_map. split_and!; [done| |].
  - rewrite (sort_by_perm by_id). apply (nodup_map_filter fst). apply NoDup_fst_map_to_list.
  - intros f. rewrite list_elem_of_fmap. split.
    + intros ([i row] & -> & Hin). rewrite sort_by_perm, list_elem_of_In, filter_In, <- list_elem_of_In, elem_of_map_to_list in Hin.
      exists row. by destruct Hin.
    + intros (row & Hrow & Hw & ->). exists (id f, row). split; [done|].
      by rewrite sort_by_perm, list_elem_of_In, filter_In, <- list_elem_of_In, elem_of_map_to_list.
Qed.

(** ** The refinements *)

(** The run accepts one Operation for each of the Forwards, in order, and reports them with a
    bound on every lease their Nodes hold. *)
Record refines (rq : RequestIdentity) (fs : list Forward) (P : Entry -> Prop) (res : AccessExecutionResult) (d d' : Db) : Prop := {
  rf_entries : exists l, accepts rq l d d' /\ map en_forward l = fs /\ map en_operation l = ar_operationIds res /\ Forall P l;
  rf_bound : forall f n, f ∈ fs -> n ∈ node_sequence (spec f) -> bounds_leases n (ar_maximumAuthorization res) d';
}.

(** The Forward as stored, live and authorized by the actor. *)
Definition current_forward (d : Db) (f : Forward) (row : ForwardRow) : Prop := db_forwards d !! id f = Some row /\ f = to_forward (id f, row).

Definition acted_by (scope actor : jsstr) (d : Db) (f : Forward) : Prop :=
  exists row, current_forward d f row /\ fw_scope_id row = scope /\ fw_authorization_actor row = Some actor /\ fw_deleting row = false.

Lemma forActor_Returns scope actor d fs d' : forActor scope actor d = Returns (fs, d') ->
  d' = d /\ NoDup (map id fs) /\ forall f, f ∈ fs <-> acted_by scope actor d f.
Proof.
  intros (-> & HN & Hf)%select_forwards_Returns. split_and!; [done..|]. intros f. rewrite Hf. unfold acted_by, current_forward. split.
  - intros (row & Hrow & Hw & E). exists row. propify. unfold str_eqb in *. by propify.
  - intros (row & [Hrow E] & <- & Ha & Hd). exists row. split_and!; try done. rewrite Hd. unfold str_eqb. by rewrite !bool_decide_eq_true_2.
Qed.

Lemma beside_forwards d d' : beside d' = beside d -> db_forwards d' = db_forwards d.
Proof. unfold beside. congruence. Qed.

Lemma current_row d f row : current_forward d f row -> scopeId f = fw_scope_id row /\ revision f = fw_revision row /\ spec f = fw_spec row.
Proof. intros [_ ->]. done. Qed.

Lemma when_reads b m : evolves eq m -> evolves eq (when b m).
Proof. intros Hm. unfold when. destruct b; [done|]. apply evolves_ret; apply _. Qed.

Lemma when_plans b m : evolves plan_step m -> evolves plan_step (when b m).
Proof. intros Hm. unfold when. destruct b; [done|]. apply evolves_ret; apply _. Qed.

(** The core of every body: prepare, accept, check. *)
Lemma accept_run `{ForwardAuthorizationLaws} rq f kind b actor d d1 oid d2 : when b (ex_transition actor f) d = Returns (tt, d1) ->
  ex_accept f rq kind d1 = Returns (oid, d2) -> accepts rq [MkEntry f oid kind false] d d2.
Proof.
  intros Ht%(when_plans b _ (transition_plans actor f)) [clock Ha]%accept_ledger. eapply accepts_cons; [exact Ht|exact Ha|done|]. by constructor.
Qed.

Lemma tx_bind_step {A B} (m : tx A) (k : A -> tx B) d a d1 : m d = Returns (a, d1) -> (m ≫= k) d = k a d1.
Proof. intros E. unfold mbind, tx_bind. by rewrite E. Qed.

Lemma record_of_run d f row scope : current_forward d f row -> fw_scope_id row = scope ->
  record_of scope (id f) d = Returns ((f, fw_deleting row, fw_recovery_suspended row), d).
Proof.
  intros [Hrow Ef] <-. unfold record_of, find_forward, mbind, tx_bind, query. rewrite Hrow. cbn. unfold str_eqb. rewrite bool_decide_eq_true_2 by done.
  cbn. by rewrite <- Ef.
Qed.

Lemma authorizer_run d f row : current_forward d f row -> authorizer (id f) d = Returns (fw_authorization_actor row, d).
Proof. intros [Hrow _]. unfold authorizer, query. by rewrite Hrow. Qed.

(** The largest bound of a list of Nodes bounds each of them. *)
Lemma bounds_collect (maximum : jsstr -> tx (option Z)) ids d us d' :
  (forall n d u d', maximum n d = Returns (u, d') -> d' = d /\ bounds_leases n u d) -> collect_each maximum ids d = Returns (us, d') ->
  d' = d /\ forall n, n ∈ ids -> bounds_leases n (latest_until us) d.
Proof.
  intros Hm Hc. assert (Hb : d' = d /\ forall n, n ∈ ids -> exists u, u ∈ us /\ bounds_leases n u d).
  { revert us Hc. induction ids as [|n ids IH]; intros us Hc; cbn in Hc; [tx_inv; split; [done|]; by intros n ?%elem_of_nil|].
    apply tx_bind_Returns in Hc as (u & d2 & [-> Hu]%Hm & Hc). apply tx_bind_Returns in Hc as (us' & d2 & Hus & [-> ->]%mret_Returns).
    apply IH in Hus as [-> Hus]. split; [done|]. intros m [->|Hin]%elem_of_cons; [exists u; split; [left|done]|].
    destruct (Hus m Hin) as (v & Hv & Hb). exists v. split; [by right|done]. }
  destruct Hb as [-> Hb]. split; [done|]. intros n Hn. destruct (Hb n Hn) as (u & Hu & Hbound). by eapply bounds_latest.
Qed.

Lemma change_kind_cases b : change_kind b = k_policy \/ change_kind b = k_revoke.
Proof. destruct b; auto. Qed.

Section AccessRefines.
Context `{AccessLaws}.

Lemma cutoff_Returns ids d u d' : cutoff ids d = Returns (u, d') -> d' = d /\ forall n, n ∈ ids -> bounds_leases n u d.
Proof using All.
  unfold cutoff. intros Hr. apply tx_bind_Returns in Hr as (bounds & d1 & Hc & [-> ->]%mret_Returns).
  by apply bounds_collect in Hc; [|apply maximum_bounds].
Qed.

(** A change by which nobody but a manager keeps running. *)
Definition member_entry (m : MemberChangeState) (e : Entry) : Prop :=
  en_denied e = false /\ (en_kind e = k_policy \/ en_kind e = k_revoke) /\ (mc_role m <> manager -> en_kind e = k_revoke).

Lemma path_nodes_covers f d ids d' : (if has_path f then ax_nodeIDs f else mret [ingress_nodeId (spec f)]) d = Returns (ids, d') ->
  d' = d /\ node_sequence (spec f) ⊆ ids.
Proof using All.
  unfold has_path. case_bool_decide as Hp; [apply nodeIDs_covers|]. intros [-> ->]%mret_Returns. split; [done|].
  unfold node_sequence. destruct (path_via (spec f)); [by destruct Hp|done].
Qed.

Lemma member_one_Returns rq m f d r d' : acted_by (rq_scopeId rq) (mc_actorId m) d f -> member_one rq m f d = Returns (r, d') ->
  exists e u, r = Some (en_operation e, u) /\ en_forward e = f /\ member_entry m e /\ accepts rq [e] d d' /\
    forall n, n ∈ node_sequence (spec f) -> bounds_leases n u d.
Proof using All.
  intros (row & Hcur & Hs & Ha & Hd) Hr. unfold member_one, checkScope in Hr.
  apply tx_bind_Returns in Hr as ([] & d1 & [_ ->]%require_Returns & Hr).
  apply tx_bind_Returns in Hr as ([] & d1 & Hl & Hr). apply lock_reads in Hl as <-.
  rewrite (tx_bind_step _ _ _ _ _ (record_of_run d f row _ Hcur Hs)) in Hr.
  apply tx_bind_Returns in Hr as ([] & d1 & [_ ->]%require_Returns & Hr). rewrite Hd in Hr.
  rewrite (tx_bind_step _ _ _ _ _ (authorizer_run d f row Hcur)), Ha, bool_decide_eq_true_2 in Hr by done. cbn [negb] in Hr.
  apply tx_bind_Returns in Hr as (allowed & d1 & Hallow & Hr).
  assert (d1 = d /\ (mc_role m <> manager -> allowed = false)) as [-> Hrole].
  { case_bool_decide; [apply allowed_reads in Hallow as <-; by split|tx_inv; by split]. }
  apply tx_bind_Returns in Hr as ([] & d2 & Ht & Hr). apply tx_bind_Returns in Hr as (oid & d3 & Hacc & Hr).
  apply tx_bind_Returns in Hr as ([] & d4 & Hcap & Hr). apply (when_reads _ _ (capacity_reads f)) in Hcap as <-.
  apply tx_bind_Returns in Hr as (ids & d4 & [-> Hids]%path_nodes_covers & Hr).
  apply tx_bind_Returns in Hr as (u & d4 & [-> Hu]%cutoff_Returns & [-> ->]%mret_Returns).
  pose proof (accept_run _ _ _ _ _ _ _ _ _ Ht Hacc) as Hrun. exists (MkEntry f oid (change_kind allowed) false), u.
  split_and!; [done..| |done|].
  - split_and!; [done|apply change_kind_cases|]. intros Hm. by rewrite Hrole.
  - intros n Hn. eapply bounds_same; [symmetry; by eapply accepts_beside|]. by apply Hu, Hids.
Qed.

Lemma acted_by_same scope actor d d' f : beside d' = beside d -> acted_by scope actor d f -> acted_by scope actor d' f.
Proof using. intros E%beside_forwards. unfold acted_by, current_forward. by rewrite E. Qed.

(** Every Forward the member authorized gets one Operation. *)
Lemma member_refines rq m d res d' : mc_changed m = true -> member_effects rq m d = Returns (res, d') ->
  exists fs, NoDup (map id fs) /\ (forall f, f ∈ fs <-> acted_by (rq_scopeId rq) (mc_actorId m) d f) /\ refines rq fs (member_entry m) res d d'.
Proof using All.
  unfold member_effects. intros -> Hr. apply tx_bind_Returns in Hr as (fs & d1 & (-> & HN & Hfs)%forActor_Returns & Hr).
  apply tx_bind_Returns in Hr as (rs & d1 & Hc & [-> ->]%mret_Returns). exists fs. split_and!; [done..|].
  apply (collect_accepts rq _ (fun f r e => exists u, r = Some (en_operation e, u) /\ member_entry m e /\
    forall n, n ∈ node_sequence (spec f) -> bounds_leases n u d) d) in Hc as (l & Hl & <- & HF); [|clear Hc|done].
  - split; cbn; [exists l; split_and!; try done|].
    + clear -HF. induction HF as [|r e rs l (u & -> & _) _ IH]; cbn; [done|]. by f_equal.
    + clear -HF. induction HF as [|r e rs l (u & -> & He & _) _ IH]; [constructor|]. by constructor.
    + intros f n (e & -> & He)%list_elem_of_fmap Hn. eapply bounds_same; [by eapply accepts_beside|].
      apply list_elem_of_lookup in He as [i He]. destruct (Forall2_lookup_r _ _ _ _ _ HF He) as (r & Hi & u & -> & _ & Hu).
      eapply bounds_latest; [|by apply Hu]. apply list_elem_of_fmap. exists (en_operation e, u). split; [done|].
      apply list_elem_of_omap. eexists. split; [by eapply list_elem_of_lookup_2|done].
  - intros f d2 r d3 Hf E Hr. apply (member_one_Returns rq m f d2 r d3) in Hr as (e & u & -> & <- & He & Ha & Hu).
    + exists e. split_and!; [done..|]. exists u. split_and!; [done..|]. intros n Hn. eapply bounds_same; [symmetry; exact E|by apply Hu].
    + eapply acted_by_same; [exact E|]. by apply Hfs.
Qed.
Definition grant_entry (g : NodeGrantState) (e : Entry) : Prop := en_denied e = false /\ en_kind e = change_kind (ng_allowed g).

Lemma grant_one_Returns rq g f d r d' : runs_on (ng_nodeId g) f = true -> grant_one rq g f d = Returns (r, d') ->
  exists e ids, r = Some (en_operation e, ids) /\ en_forward e = f /\ grant_entry g e /\ accepts rq [e] d d' /\
    forall n, n ∈ node_sequence (spec f) -> n = ng_nodeId g \/ n ∈ ids.
Proof using All.
  intros Hon Hr. unfold grant_one, checkScope in Hr. apply tx_bind_Returns in Hr as ([] & d1 & [_ ->]%require_Returns & Hr).
  rewrite Hon in Hr. cbn [negb] in Hr. apply tx_bind_Returns in Hr as ([] & d1 & Hl & Hr). apply lock_reads in Hl as <-.
  apply tx_bind_Returns in Hr as (ids & d1 & Hids & Hr).
  assert (d1 = d /\ forall n, n ∈ node_sequence (spec f) -> n = ng_nodeId g \/ n ∈ ids) as [-> Hin].
  { unfold has_path in Hids. case_bool_decide as Hp; [apply nodeIDs_covers in Hids as [-> Hi]; by auto|]. tx_inv. split; [done|].
    unfold runs_on in Hon. unfold node_sequence. destruct (path_via (spec f)); [by destruct Hp|]. cbn in Hon. rewrite orb_false_r in Hon.
    apply bool_decide_eq_true in Hon as <-. intros n Hn. left. by apply list_elem_of_singleton in Hn. }
  apply tx_bind_Returns in Hr as ([] & d2 & Ht & Hr). apply tx_bind_Returns in Hr as (oid & d3 & Hacc & Hr).
  apply tx_bind_Returns in Hr as ([] & d4 & Hcap & [-> ->]%mret_Returns). apply (when_reads _ _ (capacity_reads f)) in Hcap as <-.
  exists (MkEntry f oid (change_kind (ng_allowed g)) false), ids. split_and!; try done. by eapply accept_run.
Qed.

(** Every Forward of the actor that runs on the Node gets one Operation; a withdrawal revokes them all. *)
Lemma nodeGrant_refines rq g d res d' : ng_changed g = true -> nodeGrant_effects rq g d = Returns (res, d') ->
  exists fs, NoDup (map id fs) /\ (forall f, f ∈ fs <-> acted_by (rq_scopeId rq) (ng_actorId g) d f /\ runs_on (ng_nodeId g) f = true) /\
    refines rq fs (grant_entry g) res d d' /\ bounds_leases (ng_nodeId g) (ar_maximumAuthorization res) d'.
Proof using All.
  unfold nodeGrant_effects. intros -> Hr. apply tx_bind_Returns in Hr as (acc & d1 & Hacc & Hr).
  apply tx_bind_Returns in Hacc as (all & d0 & (-> & HN & Hfs)%forActor_Returns & Hacc).
  apply tx_bind_Returns in Hacc as (rs & d2 & Hc & [-> ->]%mret_Returns).
  apply tx_bind_Returns in Hr as ([] & d3 & Hv & Hr). apply validate_reads in Hv as <-.
  apply tx_bind_Returns in Hr as (u & d3 & [-> Hu]%cutoff_Returns & [-> ->]%mret_Returns).
  apply (collect_skip (runs_on (ng_nodeId g))) in Hc as (rs' & Hc & E).
  2:{ intros f d3 r d4 Hoff Hr. unfold grant_one, checkScope in Hr. apply tx_bind_Returns in Hr as ([] & d5 & [_ ->]%require_Returns & Hr).
      rewrite Hoff in Hr. by apply mret_Returns in Hr. }
  set (fs := List.filter _ all) in *. rewrite E in *. clear E rs.
  assert (Hin : forall f, f ∈ fs <-> acted_by (rq_scopeId rq) (ng_actorId g) d f /\ runs_on (ng_nodeId g) f = true).
  { intros f. unfold fs. by rewrite list_elem_of_In, filter_In, <- list_elem_of_In, Hfs. }
  exists fs. split_and!; [by apply nodup_map_filter|done| |].
  2:{ cbn. apply Hu, new_Set_elem. left. }
  apply (collect_accepts rq _ (fun f r e => exists ids, r = Some (en_operation e, ids) /\ grant_entry g e /\
    forall n, n ∈ node_sequence (spec f) -> n = ng_nodeId g \/ n ∈ ids) d) in Hc as (l & Hl & El & HF); [|clear Hc|done].
  - rewrite <- El in *. split; cbn; [exists l; split_and!; try done|].
    + clear -HF. induction HF as [|r e rs l (u & -> & _) _ IH]; cbn; [done|]. by f_equal.
    + clear -HF. induction HF as [|r e rs l (u & -> & He & _) _ IH]; [constructor|]. by constructor.
    + intros f n Hf Hn. apply Hu, new_Set_elem. pose proof Hf as (e & -> & He)%list_elem_of_fmap.
      apply list_elem_of_lookup in He as [i He]. destruct (Forall2_lookup_r _ _ _ _ _ HF He) as (r & Hi & ids & -> & _ & Hids).
      apply elem_of_cons. destruct (Hids n Hn) as [->|Hn']; [by left|right]. apply list_elem_of_In, in_concat. exists ids.
      split; [|by apply list_elem_of_In]. apply list_elem_of_In, list_elem_of_fmap. exists (en_operation e, ids). split; [done|].
      apply list_elem_of_omap. eexists. split; [by eapply list_elem_of_lookup_2|done].
  - intros f d3 r d4 Hf E Hr. apply Hin in Hf as [_ Hon]. apply (grant_one_Returns rq g f d3 r d4 Hon) in Hr as (e & ids & -> & <- & He & Ha & Hids).
    exists e. split_and!; [done..|]. by exists ids.
Qed.
End AccessRefines.

Definition referencing (nodeId : jsstr) (d : Db) (f : Forward) : Prop :=
  exists row, current_forward d f row /\ live row = true /\ references nodeId row = true.

Lemma forReferencedNode_Returns n d fs d' : forReferencedNode n d = Returns (fs, d') ->
  d' = d /\ NoDup (map id fs) /\ forall f, f ∈ fs <-> referencing n d f.
Proof.
  intros (-> & HN & Hf)%select_forwards_Returns. split_and!; [done..|]. intros f. rewrite Hf. unfold referencing, current_forward.
  split; intros (row & Hr); exists row; rewrite andb_true_iff in *; naive_solver.
Qed.

(** A whole-Node revocation revokes; under a new policy what may not run is revoked and denied. *)
Definition node_entry (c : NodeManagementChange) (e : Entry) : Prop :=
  if nm_revoke c then en_kind e = k_revoke /\ en_denied e = false
  else en_kind e = k_policy /\ en_denied e = false \/ en_kind e = k_revoke /\ en_denied e = true.

Section NodeRefines.
Context `{NodeManagementLaws}.

Lemma accept_deny_run rq f kind b actor deny d d1 oid d2 d3 : when b (ex_transition actor f) d = Returns (tt, d1) ->
  ex_accept f rq kind d1 = Returns (oid, d2) -> when deny (mx_denyIntent oid) d2 = Returns (tt, d3) -> accepts rq [MkEntry f oid kind deny] d d3.
Proof using All.
  intros Ht%(when_plans b _ (transition_plans actor f)) [clock Ha]%accept_ledger Hd. eapply accepts_cons; [exact Ht|exact Ha| |by constructor].
  unfold denied. cbn. destruct deny; cbn in Hd; [by apply deny_ledger|]. by apply mret_Returns in Hd as [_ ->].
Qed.

Lemma node_change_one_Returns rq c f d r d' : referencing (nm_nodeId c) d f -> node_change_one rq c f d = Returns (r, d') ->
  exists e ids, r = (en_operation e, ids) /\ en_forward e = f /\ node_entry c e /\ accepts rq [e] d d' /\
    forall n, n ∈ node_sequence (spec f) -> n = nm_nodeId c \/ n ∈ ids.
Proof using All.
  intros (row & Hcur & _ & Hon) Hr. unfold node_change_one, checkScope in Hr. apply tx_bind_Returns in Hr as ([] & d1 & [_ ->]%require_Returns & Hr).
  apply tx_bind_Returns in Hr as ([] & d1 & Hl & Hr). apply lock_reads in Hl as <-. apply tx_bind_Returns in Hr as (ids & d1 & Hids & Hr).
  assert (d1 = d /\ forall n, n ∈ node_sequence (spec f) -> n = nm_nodeId c \/ n ∈ ids) as [-> Hin].
  { unfold has_path in Hids. case_bool_decide as Hp; [apply management_nodeIDs in Hids as [-> Hi]; by auto|]. tx_inv. split; [done|].
    apply current_row in Hcur as (_ & _ & Es). unfold references in Hon. rewrite <- Es in Hon. unfold node_sequence.
    destruct (path_via (spec f)); [by destruct Hp|]. cbn in Hon. rewrite orb_false_r in Hon.
    apply bool_decide_eq_true in Hon as <-. intros n Hn. left. by apply list_elem_of_singleton in Hn. }
  rewrite (tx_bind_step _ _ _ _ _ (authorizer_run d f row Hcur)) in Hr.
  apply tx_bind_Returns in Hr as (canRun & d1 & Hcan & Hr).
  assert (d1 = d /\ (nm_revoke c = true -> canRun = false)) as [-> Hrev].
  { destruct (fw_authorization_actor row) as [a|]; [|by tx_inv]. destruct (nm_revoke c || str_eqb a []) eqn:E; [by tx_inv|].
    apply allowed_reads in Hcan as <-. apply orb_false_elim in E as [-> _]. done. }
  apply tx_bind_Returns in Hr as ([] & d2 & Ht & Hr). apply tx_bind_Returns in Hr as (oid & d3 & Hacc & Hr).
  apply tx_bind_Returns in Hr as ([] & d4 & Hcap & Hr). apply (when_reads _ _ (capacity_reads f)) in Hcap as <-.
  apply tx_bind_Returns in Hr as ([] & d4 & Hd & [-> ->]%mret_Returns).
  exists (MkEntry f oid (change_kind canRun) (negb (nm_revoke c) && negb canRun)), ids. split_and!; try done; [|by eapply accept_deny_run].
  unfold node_entry. cbn. destruct (nm_revoke c); [by rewrite Hrev|]. destruct canRun; auto.
Qed.

(** Every live Forward that references the Node gets one Operation. *)
Lemma node_change_refines rq c d res d' : node_change_effects rq c d = Returns (res, d') ->
  exists fs, NoDup (map id fs) /\ (forall f, f ∈ fs <-> referencing (nm_nodeId c) d f) /\
    refines rq fs (node_entry c) res d d' /\ bounds_leases (nm_nodeId c) (ar_maximumAuthorization res) d'.
Proof using All.
  unfold node_change_effects. intros Hr. apply tx_bind_Returns in Hr as ([] & d1 & [_ ->]%require_Returns & Hr).
  apply tx_bind_Returns in Hr as (fs & d1 & (-> & HN & Hfs)%forReferencedNode_Returns & Hr).
  apply tx_bind_Returns in Hr as (acc & d1 & Hc & Hr).
  apply tx_bind_Returns in Hr as ([] & d2 & Hv & Hr). apply (when_reads _ _ (node_capacity_reads _)) in Hv as <-.
  apply tx_bind_Returns in Hr as (us & d2 & Hus & [-> ->]%mret_Returns).
  apply bounds_collect in Hus as [-> Hu]; [|apply management_bounds].
  exists fs. split_and!; [done..| |cbn; apply Hu, new_Set_elem; left].
  apply (collect_accepts rq _ (fun f r e => exists ids, r = (en_operation e, ids) /\ node_entry c e /\
    forall n, n ∈ node_sequence (spec f) -> n = nm_nodeId c \/ n ∈ ids) d) in Hc as (l & Hl & <- & HF); [|clear Hc|done].
  - split; cbn; [exists l; split_and!; try done|].
    + clear -HF. induction HF as [|r e rs l (u & -> & _) _ IH]; cbn; [done|]. by f_equal.
    + clear -HF. induction HF as [|r e rs l (u & -> & He & _) _ IH]; [constructor|]. by constructor.
    + intros f n (e & -> & He)%list_elem_of_fmap Hn. apply Hu, new_Set_elem.
      apply list_elem_of_lookup in He as [i He]. destruct (Forall2_lookup_r _ _ _ _ _ HF He) as (r & Hi & ids & -> & _ & Hids).
      apply elem_of_cons. destruct (Hids n Hn) as [->|Hn']; [by left|right]. apply list_elem_of_In, in_concat. exists ids.
      split; [|by apply list_elem_of_In]. apply list_elem_of_In, list_elem_of_fmap. exists (en_operation e, ids). split; [done|].
      by eapply list_elem_of_lookup_2.
  - intros f d3 r d4 Hf E Hr. apply (node_change_one_Returns rq c f d3 r d4) in Hr as (e & ids & -> & <- & He & Ha & Hids).
    + exists e. split_and!; [done..|]. by exists ids.
    + apply Hfs in Hf as (row & Hcur & Hrest). exists row. split; [|done]. unfold current_forward in *. by rewrite (beside_forwards _ _ E).
Qed.
End NodeRefines.

Definition using_profile (profile actor : jsstr) (d : Db) (f : Forward) : Prop :=
  exists row, current_forward d f row /\ live row = true /\ fw_authorization_actor row = Some actor /\ uses_profile profile row = true.

Definition profile_entry (g : TransportGrantState) (e : Entry) : Prop :=
  en_denied e = false /\ (en_kind e = k_policy \/ en_kind e = k_revoke) /\ (tgs_allowed g = false -> en_kind e = k_revoke).

(** Every live Forward of the actor that uses the Profile gets one Operation. *)
Lemma profile_grant_refines `{ForwardAuthorizationLaws} rq g d ids d' : profile_grant_effects rq g d = Returns (ids, d') ->
  exists l, NoDup (map en_id l) /\ (forall f, f ∈ map en_forward l <-> using_profile (tgs_profileId g) (tgs_actorId g) d f) /\
    accepts rq l d d' /\ map en_operation l = ids /\ Forall (profile_entry g) l.
Proof.
  unfold profile_grant_effects. intros Hr. apply tx_bind_Returns in Hr as (fs & d1 & (-> & HN & Hfs)%select_forwards_Returns & Hr).
  apply (collect_accepts rq _ (fun f r e => r = en_operation e /\ profile_entry g e) d) in Hr as (l & Hl & <- & HF); [|clear Hr|done].
  - exists l. unfold en_id. rewrite <- (map_map en_forward id). split_and!; [done| |done| |].
    + intros f. rewrite Hfs. unfold using_profile, current_forward. split; intros (row & Hx); exists row; rewrite !andb_true_iff, bool_decide_eq_true in *; naive_solver.
    + clear -HF. induction HF as [|r e rs l [-> _] _ IH]; cbn; [done|]. by f_equal.
    + clear -HF. induction HF as [|r e rs l [_ He] _ IH]; by constructor.
  - intros f d3 r d4 _ _ Hr. unfold profile_grant_one, checkScope in Hr. apply tx_bind_Returns in Hr as ([] & d1 & [_ ->]%require_Returns & Hr).
    apply tx_bind_Returns in Hr as ([] & d1 & Hlk & Hr). apply lock_reads in Hlk as <-. apply tx_bind_Returns in Hr as (canRun & d1 & Hcan & Hr).
    assert (d1 = d3 /\ (tgs_allowed g = false -> canRun = false)) as [-> Hrev].
    { destruct (tgs_allowed g); [apply allowed_reads in Hcan as <-; by split|by tx_inv]. }
    apply tx_bind_Returns in Hr as ([] & d5 & Ht & Hr). apply tx_bind_Returns in Hr as (oid & d6 & Hacc & Hr).
    apply tx_bind_Returns in Hr as ([] & d7 & Hcap & [-> ->]%mret_Returns). apply (when_reads _ _ (capacity_reads f)) in Hcap as <-.
    exists (MkEntry f oid (change_kind canRun) false). split_and!; try done; [by eapply accept_run|]. split; cbn; [done|].
    split; [apply change_kind_cases|]. intros Hn. by rewrite Hrev.
Qed.
