(* ===== verification/CommandState.v ===== *)
(** The state the commands share: an invariant over the Forwards, their history, their
    Operations and the provenance of their paths, and what each statement of a command does
    to it. *)

From S2P Require Import Prelude.
From S2P Require Import JsString.
From S2P Require Import Primitives.
From S2P Require Import Json.
From S2P Require Import Forward.
From S2P Require Import Digest.
From S2P Require Import Schema.
From S2P Require Import Relay.
From S2P Require Import RelayPlan.
From S2P Require Import PathContract.
From S2P Require Import Store.
From S2P Require Import Idempotency.
From S2P Require Import Forwarding.
From S2P Require Import Operations.
From S2P Require Import Reads.
From S2P Require Import PathTemplates.
From S2P Require Import PathBindings.
From S2P Require Import RelayFrame.
From S2P Require Import Execution.

Local Open Scope Z_scope.

Section State.
Context `{Hashing, Schema RelayProfileConfig}.

(** Every Operation is of a Forward of its scope and aims at a revision it has reached. *)
Definition targets_ok (d : Db) : Prop := forall i o, db_operations d !! i = Some o ->
  exists row, db_forwards d !! op_forward_id o = Some row /\ op_scope_id o = fw_scope_id row /\ op_target_revision o <= fw_revision row.

Definition intents_ok (d : Db) : Prop := forall i row, db_forwards d !! i = Some row -> spec_wf (fw_spec row) /\ is_counter false (fw_revision row) = true.

Record control_but (open : jsstr -> Prop) (d : Db) : Prop := {
  ck_history : history_ok d;
  ck_intents : intents_ok d;
  ck_targets : targets_ok d;
  ck_active : one_active d;
  ck_templates : templates_ok d;
  ck_bindings : bindings_but open d;
}.

Definition control_ok : Db -> Prop := control_but (fun _ => False).

(** A Forward keeps its scope; its revision only advances, and deletion is final. *)
Definition row_le (r r' : ForwardRow) : Prop :=
  fw_scope_id r' = fw_scope_id r /\ fw_revision r <= fw_revision r' /\
  (fw_deleting r = true -> fw_deleting r' = true /\ fw_revision r' = fw_revision r /\ fw_spec r' = fw_spec r).

#[export] Instance row_le_preorder : PreOrder row_le.
Proof using.
  split; [intros r; split_and!; try done; lia|]. intros r r1 r2 (S1 & L1 & D1) (S2 & L2 & D2). split_and!; [congruence|lia|].
  intros Hd. destruct (D1 Hd) as (Hd1 & E1 & F1). destruct (D2 Hd1) as (Hd2 & E2 & F2). split_and!; [done|congruence..].
Qed.

(** Nothing that was recorded is lost or rewritten. *)
Record control_le (d d' : Db) : Prop := {
  cl_history : history_grows d d';
  cl_forwards : forall f row, db_forwards d !! f = Some row -> exists row', db_forwards d' !! f = Some row' /\ row_le row row';
  cl_ops : ops_le d d';
  cl_templates : templates_le d d';
  cl_bindings : db_bindings d ⊆ db_bindings d';
}.

#[export] Instance control_le_preorder : PreOrder control_le.
Proof using.
  split.
  - intros d. split; unfold history_grows; try done; try reflexivity. intros f row Hr. exists row. split; [done|reflexivity].
  - intros d d1 d2 [H1 F1 O1 T1 B1] [H2 F2 O2 T2 B2]. split; [unfold history_grows in *; by transitivity (db_forward_revisions d1)| |by transitivity d1|by transitivity d1|by transitivity (db_bindings d1)].
    intros f row (r1 & E1 & L1)%F1. destruct (F2 f r1 E1) as (r2 & E2 & L2). exists r2. split; [done|by etransitivity].
Qed.

(** The tables of the invariant, untouched. *)
Definition control_frame (d : Db) := (db_forwards d, db_forward_revisions d, db_operations d, db_paths d).
Definition same_control (d d' : Db) : Prop := control_frame d' = control_frame d.

#[export] Instance same_control_preorder : PreOrder same_control.
Proof using. split; [by intros d|]. unfold same_control. intros d d1 d2 E1 E2. congruence. Qed.

(** The Operations advance, and the rest is untouched. *)
Definition quiet (d d' : Db) : Prop := db_forwards d' = db_forwards d /\ db_forward_revisions d' = db_forward_revisions d /\ db_paths d' = db_paths d /\ ops_step d d'.

Lemma same_is_quiet d d' : same_control d d' -> quiet d d'.
Proof using.
  unfold same_control, control_frame. intros E. split_and!; try congruence. apply ops_step_same. congruence.
Qed.

Lemma templates_paths d d' : db_paths d' = db_paths d -> templates_le d d' /\ (templates_ok d -> templates_ok d').
Proof using. intros E. apply same_templates_step. unfold same_templates, db_templates, db_template_revisions. by rewrite E. Qed.

Lemma history_same d d' : db_forwards d' = db_forwards d -> db_forward_revisions d' = db_forward_revisions d -> history_ok d -> history_ok d'.
Proof using. unfold history_ok. by intros -> ->. Qed.

Lemma targets_step d d' : ops_step d d' -> (forall f row, db_forwards d !! f = Some row -> exists row', db_forwards d' !! f = Some row' /\ row_le row row') ->
  targets_ok d -> targets_ok d'.
Proof using.
  intros [L B] HF Ht i o' Ho'. destruct (B i o' Ho') as [o Ho]. destruct (L i o Ho) as (o1 & Ho1 & [Es Ef Er _ _ _ _ _ _]).
  assert (o1 = o') as -> by congruence. destruct (Ht i o Ho) as (row & Hrow & Hs & Hle). destruct (HF _ row Hrow) as (row' & Hrow' & Sc & Le & _).
  exists row'. rewrite Ef, Es, Er. split_and!; [done|congruence|lia].
Qed.

Lemma quiet_ok open d d' : quiet d d' -> control_but open d -> control_but open d' /\ control_le d d'.
Proof using.
  intros (EF & ER & EP & O) [Hh Hi Ht Ha Htp Hb]. destruct (templates_paths _ _ EP) as [TL TK].
  assert (HF : forall f row, db_forwards d !! f = Some row -> exists row', db_forwards d' !! f = Some row' /\ row_le row row').
  { intros f row. rewrite EF. intros Hr. exists row. split; [done|reflexivity]. }
  split; split.
  - by eapply history_same.
  - unfold intents_ok. by rewrite EF.
  - by eapply targets_step.
  - by eapply ops_step_active.
  - by apply TK.
  - by eapply bindings_same.
  - unfold history_grows. by rewrite ER.
  - done.
  - apply O.
  - done.
  - unfold db_bindings. by rewrite EP.
Qed.

(** ** The statements *)

Lemma forwards_grow (f : jsstr) (row row' : ForwardRow) (m : gmap jsstr ForwardRow) : m !! f = Some row -> row_le row row' ->
  forall g r, m !! g = Some r -> exists r', <[f := row']> m !! g = Some r' /\ row_le r r'.
Proof using.
  intros Hf Hle g r Hg. destruct (decide (g = f)) as [->|Hne].
  - rewrite lookup_insert_eq. exists row'. split; [done|]. by assert (r = row) as -> by congruence.
  - rewrite lookup_insert_ne by done. exists r. split; [done|reflexivity].
Qed.

(** A new current revision of a Forward that is not being deleted: its pointer is open until its provenance is settled. *)
Lemma write_ok f row row' d : control_ok d -> db_forwards d !! f = Some row -> fw_deleting row = false -> fw_scope_id row' = fw_scope_id row ->
  fw_revision row < fw_revision row' -> is_counter false (fw_revision row') = true -> spec_wf (fw_spec row') ->
  let d' := with_forward_revisions (insert (f, fw_revision row') (fw_spec row')) (with_forwards (insert f row') d) in
  control_but (just f) d' /\ control_le d d' /\ (fw_spec row' = fw_spec row -> control_ok d').
Proof using.
  intros [Hh Hi Ht Ha Htp Hb] Hrow Hdel Hsc Hlt Hct Hwf d'. destruct (history_write d f row row' Hh Hrow Hlt) as [Hfresh [Hok Hgr]].
  assert (Hle : row_le row row') by (split_and!; [done|lia|congruence]).
  assert (HF := forwards_grow f row row' (db_forwards d) Hrow Hle).
  assert (HB : forall open, (~ open f -> fw_spec row' = fw_spec row) -> bindings_but open d').
  { intros open Ho. eapply (bindings_frame _ _ d d'); [done|done|done|exact Hgr| |exact Hb]. intros g r Hr. unfold d'. cbn.
    destruct (decide (g = f)) as [->|Hne]; [rewrite lookup_insert_eq; exists row'|rewrite lookup_insert_ne by done; exists r; split_and!; [done|done|intros _; by split; [intros []|]]].
    assert (r = row) as -> by congruence. split_and!; [done|done|]. intros Hn. split; [by intros []|by apply Ho]. }
  assert (HK : forall open, (~ open f -> fw_spec row' = fw_spec row) -> control_but open d').
  { intros open Ho. split; [done| | |done| |by apply HB].
    - intros g r. unfold d'. cbn. destruct (decide (g = f)) as [->|Hne]; [rewrite lookup_insert_eq; by intros [= <-]|].
      rewrite lookup_insert_ne by done. apply Hi.
    - eapply (targets_step d d'); [by apply ops_step_same|exact HF|done].
    - by apply (templates_paths d d'). }
  split_and!; [apply HK; intros Hn; by destruct Hn|split; try done|intros E; by apply HK].
  - by apply (ops_step_same d d').
  - by apply (templates_paths d d').
Qed.

Lemma authorizer_ok open f a d u d' : setAuthorizer f a d = Returns (u, d') -> control_but open d -> control_but open d' /\ control_le d d'.
Proof using.
  unfold setAuthorizer. intros ->%modify_Returns [Hh Hi Ht Ha Htp Hb]. set (d' := with_forwards _ d).
  assert (HL : forall g row, db_forwards d !! g = Some row -> exists row', db_forwards d' !! g = Some row' /\ row_le row row' /\ fw_spec row' = fw_spec row /\
    fw_revision row' = fw_revision row).
  { intros g row Hg. unfold d'. cbn. destruct (decide (g = f)) as [->|Hne].
    - rewrite lookup_alter_eq, Hg. cbn. eexists. split; [done|]. cbn. split_and!; try done; cbn; lia.
    - rewrite lookup_alter_ne by done. exists row. split_and!; try done. }
  assert (HR : forall g row', db_forwards d' !! g = Some row' -> exists row, db_forwards d !! g = Some row /\ fw_spec row' = fw_spec row /\
    fw_revision row' = fw_revision row).
  { intros g row' Hg. unfold d' in Hg. cbn in Hg. destruct (decide (g = f)) as [->|Hne].
    - rewrite lookup_alter_eq in Hg. destruct (db_forwards d !! f) as [row|]; [|done]. injection Hg as <-. by exists row.
    - rewrite lookup_alter_ne in Hg by done. by exists row'. }
  split; split; try done.
  - destruct Hh as [H1 H2]. split.
    + intros g row' (row & Hr & -> & ->)%HR. by apply H1.
    + intros g n s (row & Hr & Hn)%H2. destruct (HL g row Hr) as (row' & Hr' & _ & _ & E). exists row'. split; [done|lia].
  - intros g row' (row & Hr & -> & ->)%HR. by apply (Hi g).
  - eapply (targets_step d d'); [by apply ops_step_same| |done]. intros g row (row' & Hr & L & _)%HL. by exists row'.
  - by apply (templates_paths d d').
  - eapply (bindings_frame _ _ d d'); [done|done|done|done| |exact Hb]. intros g row (row' & Hr & L & Es & _)%HL. exists row'. split_and!; [done|apply L|done].
  - by unfold history_grows.
  - intros g row (row' & Hr & L & _)%HL. by exists row'.
  - by apply (ops_step_same d d').
  - by apply (templates_paths d d').
Qed.

(** A new Operation of a current Forward. *)
Lemma accept_ok open clock oid f rq kind prev src row d r d' : accept clock oid f rq kind prev src d = Returns (r, d') -> control_but open d ->
  db_forwards d !! id f = Some row -> fw_scope_id row = scopeId f -> fw_revision row = revision f ->
  control_but open d' /\ control_le d d' /\ taken_over rq (MkEntry f oid kind false) d' /\ (forall g, g <> id f -> same_ops g d d').
Proof using.
  intros Hr [Hh Hi Ht Ha Htp Hb] Hrow Hs Hv. pose proof Hr as (-> & Hnew & _ & prior & _ & Hl)%accept_lookup. cbn zeta in Hl.
  pose proof Hr as ([E _] & _)%work_accept.
  assert (EF : db_forwards d' = db_forwards d) by (unfold beside in E; congruence).
  assert (ER : db_forward_revisions d' = db_forward_revisions d) by (unfold beside in E; congruence).
  assert (EP : db_paths d' = db_paths d) by (unfold beside in E; congruence).
  assert (HF : forall g row0, db_forwards d !! g = Some row0 -> exists row', db_forwards d' !! g = Some row' /\ row_le row0 row').
  { intros g row0. rewrite EF. intros Hg. exists row0. split; [done|reflexivity]. }
  destruct (templates_paths _ _ EP) as [TL TK]. split_and!; [split|split| |].
  - by eapply history_same.
  - unfold intents_ok. by rewrite EF.
  - intros i o. rewrite Hl, EF. case_decide as Ei; [intros [= <-]; exists row; cbn; split_and!; [done|done|lia]|].
    destruct (db_operations d !! i) as [o0|] eqn:Eo; [|done]. cbn. intros [= <-]. destruct (Ht i o0 Eo) as (row0 & ? & ? & ?). exists row0.
    by destruct (_ && _).
  - by eapply accept_active.
  - by apply TK.
  - by eapply bindings_same.
  - unfold history_grows. by rewrite ER.
  - done.
  - by eapply accept_le.
  - done.
  - unfold db_bindings. by rewrite EP.
  - eapply (accept_taken clock rq (MkEntry f oid kind false)); [|exact Hr]. intros i o Ho Hf. destruct (Ht i o Ho) as (row0 & Hr0 & _ & Hle).
    rewrite Hf in Hr0. cbn in Hr0. assert (row0 = row) as -> by (unfold en_id in Hr0; cbn in Hr0; congruence). cbn. lia.
  - intros g Hg. by eapply accept_same_ops.
Qed.

Lemma binding_write_ok open d d' : binding_write d d' -> bindings_ok d' -> control_but open d -> control_ok d' /\ control_le d d' /\
  db_forwards d' = db_forwards d /\ db_operations d' = db_operations d.
Proof using.
  intros [E G] Hb' [Hh Hi Ht Ha Htp _].
  assert (EF : db_forwards d' = db_forwards d) by (by rewrite E). assert (ER : db_forward_revisions d' = db_forward_revisions d) by (by rewrite E).
  assert (EO : db_operations d' = db_operations d) by (by rewrite E).
  assert (Est : same_templates d d') by (split; rewrite E; done). apply same_templates_step in Est as [TL TK]. pose proof (ops_step_same d d' EO) as O.
  assert (HF : forall f row, db_forwards d !! f = Some row -> exists row', db_forwards d' !! f = Some row' /\ row_le row row').
  { intros f row. rewrite EF. intros Hr. exists row. split; [done|reflexivity]. }
  split_and!; [split|split|done|done]; try done.
  - by eapply history_same.
  - unfold intents_ok. by rewrite EF.
  - by eapply targets_step.
  - by eapply ops_step_active.
  - by apply TK.
  - unfold history_grows. by rewrite ER.
  - apply O.
Qed.

Lemma insert_ok f a d u d' : insert_forward f a d = Returns (u, d') -> control_ok d -> spec_wf (spec f) -> is_counter false (revision f) = true ->
  control_ok d' /\ control_le d d' /\ db_operations d' = db_operations d /\ db_forwards d !! id f = None /\
  db_forwards d' = <[id f := MkForwardRow (scopeId f) (revision f) (spec f) false false (Some a)]> (db_forwards d).
Proof using.
  unfold insert_forward. intros Hr [[H1 H2] Hi Ht Ha Htp Hb] Hwf Hct. set (row := MkForwardRow _ _ _ _ _ _) in *.
  apply tx_bind_Returns in Hr as ([] & d1 & [Hn ->]%insert_row_Returns & [Hn2 ->]%insert_row_Returns). set (d' := with_forward_revisions _ _).
  assert (HF : forall g r, db_forwards d !! g = Some r -> db_forwards d' !! g = Some r /\ g <> id f).
  { intros g r Hg. assert (g <> id f) by congruence. split; [|done]. unfold d'. cbn. by rewrite lookup_insert_ne. }
  assert (HG : history_grows d d') by (unfold history_grows; by apply insert_subseteq).
  assert (HL : forall g r, db_forwards d !! g = Some r -> exists r', db_forwards d' !! g = Some r' /\ row_le r r').
  { intros g r [Hg _]%HF. exists r. split; [done|reflexivity]. }
  split_and!; [split|split|done|done|done]; try done.
  - split; unfold d'; cbn.
    + intros g r. destruct (decide (g = id f)) as [->|Hg]; [rewrite lookup_insert_eq; intros [= <-]; by rewrite lookup_insert_eq|].
      rewrite lookup_insert_ne by done. intros Hr. rewrite lookup_insert_ne by congruence. by apply H1.
    + intros g n s. destruct (decide ((g, n) = (id f, revision f))) as [[= -> ->]|Hne].
      * intros _. exists row. rewrite lookup_insert_eq. split; [done|cbn; lia].
      * rewrite lookup_insert_ne by congruence. intros (r & Hr & Hle)%H2. exists r. split; [|done]. by apply HF.
  - intros g r. unfold d'. cbn. destruct (decide (g = id f)) as [->|Hg]; [rewrite lookup_insert_eq; by intros [= <-]|].
    rewrite lookup_insert_ne by done. apply Hi.
  - eapply (targets_step d d'); [by apply ops_step_same|done|done].
  - by apply (templates_paths d d').
  - eapply (bindings_frame _ _ d d'); [done|done|done|exact HG| |exact Hb]. intros g r [Hg _]%HF. by exists r.
  - by apply (ops_step_same d d').
  - by apply (templates_paths d d').
Qed.
End State.
