(* ===== verification/ForwardCommands.v ===== *)
(** Commands on Forwards (apps/control/src/application/forward-commands.ts and
    command-request.ts) and how the Runtime prepares them
    (apps/control/src/modules/runtime/forward-commands.ts).

    [ForwardCommandPreparation] is the interface the commands are written against;
    [ForwardCommandLaws] states what their theorems rely on, and the executor of the
    application satisfies it. *)

From S2P Require Import Prelude.
From S2P Require Import JsString.
From S2P Require Import JsValue.
From S2P Require Import Primitives.
From S2P Require Import Json.
From S2P Require Import Forward.
From S2P Require Import Digest.
From S2P Require Import Types.
From S2P Require Import Validate.
From S2P Require Import Schema.
From S2P Require Import Relay.
From S2P Require Import Adp3.
From S2P Require Import Transit.
From S2P Require Import TargetPolicy.
From S2P Require Import Planner.
From S2P Require Import RelayPlan.
From S2P Require Import PathContract.
From S2P Require Import Store.
From S2P Require Import Idempotency.
From S2P Require Import Forwarding.
From S2P Require Import Slots.
From S2P Require Import Operations.
From S2P Require Import Retirements.
From S2P Require Import Identity.
From S2P Require Import Nodes.
From S2P Require Import Profiles.
From S2P Require Import Reads.
From S2P Require Import PathTemplates.
From S2P Require Import PathBindings.
From S2P Require Import RelayDeployments.
From S2P Require Import RelayCoordinator.
From S2P Require Import RelayFrame.
From S2P Require Import Execution.

Local Open Scope Z_scope.

(** ** Requests *)

Definition requestIdentity `{Hashing} (actorId scopeId : jsstr) (key : option jsstr) (method path : jsstr) (input : json) : outcome RequestIdentity :=
  match key with
  | None => Throws (invalid "Valid identity, scope and Idempotency-Key required")
  | Some key =>
      _ ← throw_if (negb (is_id actorId) || negb (is_id scopeId) || negb (valid_key key)) "INVALID_CONFIG" "Valid identity, scope and Idempotency-Key required";
      dg ← digest (JObj [(js "method", JStr method); (js "path", JStr path); (js "input", input)]);
      Returns (MkRequest actorId scopeId key dg)
  end.

(** ** Preparation *)

(** modules/runtime/forward-command-ports.ts *)
Class ForwardCommandPreparation := {
  cp_prepareCreate : jsstr -> Forward -> tx unit;
  cp_planCreate : jsstr -> Forward -> tx unit;
  cp_prepareUpdate : jsstr -> Forward -> Forward -> bool -> tx unit;
  cp_planUpdate : jsstr -> Forward -> tx unit;
  cp_lock : Forward -> tx unit;
  cp_lockRemoval : Forward -> tx unit;
  cp_prepareRetry : jsstr -> Forward -> tx unit;
  cp_assertCapacity : Forward -> tx unit;
}.

Class ForwardCommandLaws `{ForwardCommandPreparation} : Prop := {
  prepareCreate_plans a f : evolves plan_step (cp_prepareCreate a f);
  planCreate_plans a f : evolves plan_step (cp_planCreate a f);
  prepareUpdate_plans a f g b : evolves plan_step (cp_prepareUpdate a f g b);
  planUpdate_plans a f : evolves plan_step (cp_planUpdate a f);
  command_lock_reads f : evolves eq (cp_lock f);
  lockRemoval_reads f : evolves eq (cp_lockRemoval f);
  prepareRetry_plans a f : evolves plan_step (cp_prepareRetry a f);
  command_capacity_reads f : evolves eq (cp_assertCapacity f);
}.

(** [spec.path || spec.transport] *)
Definition relayed (s : ForwardSpec) : bool := bool_decide (is_Some (path_via s)) || bool_decide (is_Some (transport s)).

Section Executor.
Context `{Hashing, Schema RelayProfileConfig, Schema RelayOpen, Schema RelayAssignment, Adp2Schemas, Adp3Schemas, Locale}.
Context (policy : Policy) (multihopEnabled : bool) (now : Z) {execution : ForwardAuthorizationExecution}.

(** [compileDirect] with its default phase and drain time *)
Definition compile_default (f : Forward) (n : AuthorizedNodeFacts) (slots : list ReservedSlot) : tx unit :=
  _ ← lift (compileDirect (RelayDeployments.with_enabled f) n slots active (policy_drainTimeoutSeconds DEFAULT_POLICY)); mret tt.

(** A reservation of every listener, to check the plan before any is taken. *)
Definition validateDirect (f : Forward) (n : AuthorizedNodeFacts) : tx unit :=
  compile_default f n (map (fun p => MkReservedSlot (nf_nodeId n) (id f) p (listen_port (ingress_listen (spec f))) 1 1) (protocols (spec f))).

Definition prepareCreate (actor : jsstr) (f : Forward) : tx unit :=
  let s := spec f in
  if relayed s then
    match path_via s, transport s with
    | Some via, Some _ =>
        for_each (fun nodeId => _ ← authorizedRelayNode now actor (scopeId f) nodeId; lockNode nodeId None)
          (sort_by str_leb (ingress_nodeId s :: via))
    | _, _ => throw "UNSUPPORTED_CAPABILITY" "Relay path and Transport Profile are both required"
    end
  else
    n ← authorized now actor f;
    _ ← lockNode (nf_nodeId n) None;
    _ ← validateDirect f n;
    slots ← reserve policy f;
    compile_default f n slots.

Definition planCreate (actor : jsstr) (f : Forward) : tx unit :=
  if relayed (spec f) then _ ← acceptPlan policy multihopEnabled now actor f; mret tt else mret tt.

(** The Node of a Forward moves only while it is suspended and its old Node is revoked. *)
Definition check_move (current next : Forward) (recoverySuspended : bool) : tx unit :=
  let old := ingress_nodeId (spec current) in let new := ingress_nodeId (spec next) in
  if str_eqb new old then mret tt else
  oldNode ← state old;
  _ ← require (recoverySuspended && ns_revoked oldNode) "UNSUPPORTED_CAPABILITY" "Live Node moves require the later multi-node coordinator";
  for_each (fun nodeId => lockNode nodeId None) (sort_by str_leb [old; new]).

Definition prepareUpdate (actor : jsstr) (current next : Forward) (recoverySuspended : bool) : tx unit :=
  _ ← check_move current next recoverySuspended;
  if relayed (spec next) then
    _ ← lockNodes next;
    _ ← (if enabled (spec next) then
           allowed ← relay_canExecute multihopEnabled now actor next;
           require allowed "AUTHORIZATION_DENIED" "Relay execution is not authorized"
         else mret tt);
    mret tt
  else
    n ← authorized now actor next;
    _ ← ex_lock next;
    _ ← validateDirect next n;
    if revision next =? revision current then mret tt else
    slots ← transition current next;
    compile_default next n slots.

Definition planUpdate (actor : jsstr) (f : Forward) : tx unit :=
  if relayed (spec f) && enabled (spec f) then _ ← acceptPlan policy multihopEnabled now actor f; mret tt else mret tt.

Definition lockRemoval (f : Forward) : tx unit := if has_path f then lockNodes f else lockNode (ingress_nodeId (spec f)) None.

Definition prepareRetry (actor : jsstr) (f : Forward) : tx unit :=
  _ ← (if has_path f then _ ← authorizedRelayNode now actor (scopeId f) (ingress_nodeId (spec f)); mret tt
       else _ ← authorized now actor f; mret tt);
  _ ← ex_lock f;
  if enabled (spec f) then ex_transition actor f else mret tt.

Definition command_preparation : ForwardCommandPreparation := {|
  cp_prepareCreate := prepareCreate; cp_planCreate := planCreate; cp_prepareUpdate := prepareUpdate; cp_planUpdate := planUpdate;
  cp_lock := ex_lock; cp_lockRemoval := lockRemoval; cp_prepareRetry := prepareRetry; cp_assertCapacity := ex_assertCapacity;
|}.
End Executor.

(** ** Commands *)

(** [decideForwardChange(current, expectedRevision, { kind: 'replace', spec })], thrown when refused *)
Definition decide_change (current : Forward) (expectedRevision : Z) (s : ForwardSpec) : tx Forward :=
  match decideForwardChange (to_jsv (forward_json current)) (Num (NInt expectedRevision))
          (Obj [(js "kind", Str (js "replace")); (js "spec", to_jsv (spec_json s))]) with
  | Ok next => mret next
  | Err es => match es with e :: _ => throw (issue_code e) (issue_message e) | [] => throw "TypeError" "Cannot read properties of undefined" end
  end.

Definition receipt_json (r : PathBindingReceipt) : json :=
  JObj [(js "templateId", JStr (sel_templateId (br_selection r))); (js "revision", JInt (sel_revision (br_selection r)));
        (js "configDigest", JStr (sel_configDigest (br_selection r))); (js "sequence", JInt (br_sequence r));
        (js "forwardRevision", JInt (br_forwardRevision r)); (js "changed", JBool (br_changed r))].

(** [ForwardAccepted] *)
Definition accepted_body (forwardId : jsstr) (revision : Z) (operationId : option jsstr) (more : list (jsstr * json)) : json :=
  JObj ([(js "forwardId", JStr forwardId); (js "revision", JInt revision); (js "operationId", text_json operationId)] ++ more).

(** [replay.body.forwardId] *)
Definition body_forward (r : Response) : jsstr :=
  match resp_body r with
  | JObj fs => match find (fun kv : jsstr * json => str_eqb kv.1 (js "forwardId")) fs with Some (_, JStr i) => i | _ => [] end
  | _ => []
  end.

Definition forwards_path (scopeId : jsstr) : jsstr := js "/api/v1/scopes/" ++ scopeId ++ js "/forwards".
Definition forward_path (scopeId id_ : jsstr) : jsstr := slash (forwards_path scopeId) id_.

Section Commands.
Context `{Hashing, Schema RelayProfileConfig} {preparation : ForwardCommandPreparation}.
Context (uuid : Db -> jsstr) (now : Z).

Definition create_once (actorId scopeId : jsstr) (request : RequestIdentity) (s : ForwardSpec) : tx Response :=
  _ ← scope actorId scopeId true;
  newId ← query uuid;
  let f := MkForward newId scopeId 1 s in
  _ ← cp_prepareCreate actorId f;
  _ ← insert_forward f actorId;
  _ ← cp_planCreate actorId f;
  oid ← query uuid;
  operationId ← accept now oid f request k_create None None;
  _ ← cp_assertCapacity f;
  mret (MkResponse 202 (accepted_body newId 1 (Some operationId) [])).

Definition create_forward (actorId scopeId : jsstr) (key : option jsstr) (input : jsv) : tx Response :=
  match parseForwardSpec input with
  | Err _ => invalid_input "Invalid Forward spec"
  | Ok s =>
      request ← lift (requestIdentity actorId scopeId key (js "POST") (forwards_path scopeId) (spec_json s));
      _ ← scope actorId scopeId false;
      replay ← claim request;
      match replay with
      | Some response => _ ← record_of scopeId (body_forward response); mret response
      | None => response ← create_once actorId scopeId request s; _ ← respond request response; mret response
      end
  end.

Definition update_kind (current next : Forward) : OperationKind :=
  if negb (enabled (spec next)) then k_disable else if negb (enabled (spec current)) then k_enable else k_update.

(** The part of [acceptUpdate] for a changed intent: the Operation it is given. *)
Definition replace_intent (actorId : jsstr) (current next : Forward) (request : RequestIdentity) (bound : bool) : tx jsstr :=
  _ ← replace_forward current next;
  _ ← (if bound then mret tt else preserve_binding current next);
  _ ← setAuthorizer (id next) actorId;
  _ ← cp_planUpdate actorId next;
  oid ← query uuid;
  operationId ← accept now oid next request (update_kind current next) (Some (spec_json (spec current))) None;
  _ ← cp_assertCapacity next;
  mret operationId.

(** [acceptUpdate], without the recording of the response *)
Definition acceptUpdate (actorId : jsstr) (current next : Forward) (request : RequestIdentity) (selection : option PathSelection) : tx Response :=
  recoverySuspended ← (if str_eqb (ingress_nodeId (spec next)) (ingress_nodeId (spec current)) then mret false
                       else '(_, _, suspended) ← record_of (scopeId current) (id current); mret suspended);
  _ ← cp_prepareUpdate actorId current next recoverySuspended;
  operationId ← (if revision next =? revision current then mret None
                 else o ← replace_intent actorId current next request (bool_decide (is_Some selection)); mret (Some o));
  more ← match selection with
         | Some s => r ← accept_binding now actorId next s; mret [(js "pathBinding", receipt_json r)]
         | None => mret []
         end;
  mret (MkResponse (match operationId with Some _ => 202 | None => 200 end) (accepted_body (id next) (revision next) operationId more)).

Definition update_once (actorId scopeId id_ : jsstr) (request : RequestIdentity) (expectedRevision : Z) (s : ForwardSpec) : tx Response :=
  _ ← scope actorId scopeId true;
  current ← currentForUpdate scopeId id_;
  next ← decide_change current expectedRevision s;
  acceptUpdate actorId current next request None.

(** [revision(expectedRevision)] and the identifier of what the command is about *)
Definition check_command (expectedRevision : Z) (id_ : jsstr) (message : string) : tx unit :=
  _ ← require (is_counter false expectedRevision) "INVALID_CONFIG" "Positive safe expectedRevision required";
  require (is_id id_) "INVALID_CONFIG" message.

Definition update_forward (actorId scopeId id_ : jsstr) (key : option jsstr) (expectedRevision : Z) (input : jsv) : tx Response :=
  _ ← check_command expectedRevision id_ "Valid Forward ID required";
  match parseForwardSpec input with
  | Err _ => invalid_input "Invalid Forward spec"
  | Ok s =>
      request ← lift (requestIdentity actorId scopeId key (js "PUT") (forward_path scopeId id_)
                        (JObj [(js "expectedRevision", JInt expectedRevision); (js "spec", spec_json s)]));
      _ ← scope actorId scopeId false;
      once request (update_once actorId scopeId id_ request expectedRevision s)
  end.

Definition apply_once (actorId scopeId id_ : jsstr) (request : RequestIdentity) (expectedRevision : Z) (selection : PathSelection) : tx Response :=
  current ← currentForUpdate scopeId id_;
  suspended ← (if revision current =? expectedRevision then '(_, _, suspended) ← record_of scopeId id_; mret suspended else mret true);
  _ ← require (negb suspended) "REVISION_CONFLICT" "Forward changed or recovery suspended";
  s ← resolve_binding now actorId current selection;
  next ← decide_change current expectedRevision s;
  acceptUpdate actorId current next request (Some selection).

Definition apply_path (actorId scopeId id_ : jsstr) (key : option jsstr) (expectedRevision : Z) (input : jsv) : tx Response :=
  _ ← check_command expectedRevision id_ "Valid Forward ID required";
  selection ← lift (parsePathSelection input);
  request ← lift (requestIdentity actorId scopeId key (js "PUT") (slash (forward_path scopeId id_) (js "path-binding"))
                    (JObj [(js "expectedRevision", JInt expectedRevision); (js "template", selection_json selection)]));
  _ ← scope actorId scopeId true;
  once request (apply_once actorId scopeId id_ request expectedRevision selection).

Definition remove_once (actorId scopeId id_ : jsstr) (request : RequestIdentity) (expectedRevision : Z) : tx Response :=
  _ ← scope actorId scopeId true;
  current ← currentForUpdate scopeId id_;
  _ ← cp_lockRemoval current;
  _ ← require (revision current =? expectedRevision) "REVISION_CONFLICT" "Expected revision does not match";
  _ ← require (negb (MAX_COUNTER <=? revision current)) "REVISION_EXHAUSTED" "Revision counter exhausted";
  let next := MkForward (id current) (Forward.scopeId current) (revision current + 1) (spec current) in
  _ ← markDeleting current (revision next);
  oid ← query uuid;
  operationId ← accept now oid next request k_delete (Some (spec_json (spec current))) None;
  _ ← cp_assertCapacity next;
  mret (MkResponse 202 (accepted_body id_ (revision next) (Some operationId) [])).

Definition remove_forward (actorId scopeId id_ : jsstr) (key : option jsstr) (expectedRevision : Z) : tx Response :=
  _ ← check_command expectedRevision id_ "Valid Forward ID required";
  request ← lift (requestIdentity actorId scopeId key (js "DELETE") (forward_path scopeId id_) (JObj [(js "expectedRevision", JInt expectedRevision)]));
  _ ← scope actorId scopeId false;
  once request (remove_once actorId scopeId id_ request expectedRevision).

Definition retry_once (actorId scopeId : jsstr) (request : RequestIdentity) (sourceOperationId : jsstr) (expectedRevision : Z) : tx Response :=
  _ ← scope actorId scopeId true;
  reference ← get_operation scopeId sourceOperationId;
  f ← currentForUpdate scopeId (op_forward_id reference);
  _ ← cp_lock f;
  source ← get_operation scopeId sourceOperationId;
  _ ← require (negb (op_recovery_invalidated source)) "OPERATION_SUPERSEDED" "Restored operation is not an authoritative deployment attempt";
  _ ← require ((revision f =? expectedRevision) && (op_target_revision source =? revision f))
        "OPERATION_SUPERSEDED" "Operation no longer targets an editable desired revision";
  _ ← require (bool_decide (op_status source = s_failed)) "OPERATION_NOT_RETRYABLE" "Only failed Operations can be retried";
  _ ← cp_prepareRetry actorId f;
  _ ← setAuthorizer (id f) actorId;
  oid ← query uuid;
  operationId ← accept now oid f request k_retry (op_previous_spec source) (Some sourceOperationId);
  _ ← cp_assertCapacity f;
  mret (MkResponse 202 (accepted_body (id f) (revision f) (Some operationId) [(js "sourceOperationId", JStr sourceOperationId)])).

Definition retry_path (scopeId oid : jsstr) : jsstr := slash (js "/api/v1/scopes/" ++ scopeId ++ js "/operations/" ++ oid) (js "retry").

Definition retry_operation (actorId scopeId : jsstr) (key : option jsstr) (sourceOperationId : jsstr) (expectedRevision : Z) : tx Response :=
  _ ← check_command expectedRevision sourceOperationId "Valid Operation ID required";
  request ← lift (requestIdentity actorId scopeId key (js "POST") (retry_path scopeId sourceOperationId) (JObj [(js "expectedRevision", JInt expectedRevision)]));
  _ ← scope actorId scopeId false;
  once request (retry_once actorId scopeId request sourceOperationId expectedRevision).
End Commands.

(** The commands of [ControlApplication] on Forwards (apps/control/src/application/control.ts). *)
Inductive ForwardCommand :=
  | c_create (key : option jsstr) (input : jsv)
  | c_update (id_ : jsstr) (key : option jsstr) (expectedRevision : Z) (input : jsv)
  | c_applyPath (id_ : jsstr) (key : option jsstr) (expectedRevision : Z) (input : jsv)
  | c_remove (id_ : jsstr) (key : option jsstr) (expectedRevision : Z)
  | c_retry (key : option jsstr) (sourceOperationId : jsstr) (expectedRevision : Z).

Definition run_command `{Hashing, Schema RelayProfileConfig, ForwardCommandPreparation} (uuid : Db -> jsstr) (now : Z) (actorId scopeId : jsstr) (c : ForwardCommand) : tx Response :=
  match c with
  | c_create key input => create_forward uuid now actorId scopeId key input
  | c_update i key expected input => update_forward uuid now actorId scopeId i key expected input
  | c_applyPath i key expected input => apply_path uuid now actorId scopeId i key expected input
  | c_remove i key expected => remove_forward uuid now actorId scopeId i key expected
  | c_retry key source expected => retry_operation uuid now actorId scopeId key source expected
  end.

(** ** The executor satisfies the laws *)

Section ExecutorLaws.
Context `{Hashing, Schema RelayProfileConfig, Schema RelayOpen, Schema RelayAssignment, Adp2Schemas, Adp3Schemas, Locale}.
Context (policy : Policy) (multihopEnabled : bool) (now : Z) {execution : ForwardAuthorizationExecution} {laws : ForwardAuthorizationLaws}.

Lemma plan_lock f : evolves plan_step (ex_lock f).
Proof using laws. apply evolves_reads; [apply _|apply lock_reads]. Qed.
Hint Resolve plan_lock transition_plans : evolves.

#[export] Instance command_preparation_laws : @ForwardCommandLaws (command_preparation policy multihopEnabled now).
Proof using laws.
  split; cbn; intros.
  - unfold prepareCreate, validateDirect, compile_default. evolve.
  - unfold planCreate. evolve.
  - unfold prepareUpdate, check_move, validateDirect, compile_default, lockNodes. evolve.
  - unfold planUpdate. evolve.
  - apply lock_reads.
  - unfold lockRemoval. destruct (has_path f); [apply reads_lockNodes|apply reads_lockNode].
  - unfold prepareRetry. evolve.
  - apply capacity_reads.
Qed.
End ExecutorLaws.
