(* ===== verification/AccessCommands.v ===== *)
(** Commands that change who may do what (apps/control/src/application/access-commands.ts,
    node-management.ts and transport-grants.ts): members of a scope, grants on Nodes and
    Profiles, the policy and the revocation of a Node.  Each changes its own tables, lets the
    Runtime reconcile the affected Forwards, and reports how long they may still run. *)

From S2P Require Import Prelude.
From S2P Require Import JsString.
From S2P Require Import JsValue.
From S2P Require Import Primitives.
From S2P Require Import Json.
From S2P Require Import Forward.
From S2P Require Import Time.
From S2P Require Import Digest.
From S2P Require Import Types.
From S2P Require Import Schema.
From S2P Require Import Relay.
From S2P Require Import TargetPolicy.
From S2P Require Import Endpoint.
From S2P Require Import Planner.
From S2P Require Import Iso.
From S2P Require Import Store.
From S2P Require Import Idempotency.
From S2P Require Import Forwarding.
From S2P Require Import Operations.
From S2P Require Import Identity.
From S2P Require Import Nodes.
From S2P Require Import Profiles.
From S2P Require Import Reads.
From S2P Require Import RelayDeployments.
From S2P Require Import RelayCoordinator.
From S2P Require Import Execution.
From S2P Require Import Reconcile.
From S2P Require Import ForwardCommands.

Local Open Scope Z_scope.

(** [until ? new Date(until + 5000).toISOString() : null] *)
Definition authorizationUntil (until_ : option Z) : tx json :=
  match until_ with
  | Some u => if u =? 0 then mret JNull else iso_json (u + 5000)
  | None => mret JNull
  end.

Definition ids_json (ids : list jsstr) : json := JArr (map JStr ids).

Definition in_scope (scopeId : jsstr) (rest : jsstr) : jsstr := js "/api/v1/scopes/" ++ scopeId ++ rest.

Section Access.
Context `{Hashing, AccessExecution} (now : Z).

Definition member_path (scopeId subject : jsstr) : jsstr := in_scope scopeId (js "/members/" ++ subject).

Definition member_once (actorId scopeId subject : jsstr) (rq : RequestIdentity) (expectedRevision : Z) (role : MemberRole) (token : option jsstr) : tx Response :=
  member ← changeMember now actorId scopeId subject expectedRevision role token;
  result ← member_effects rq member;
  until_ ← authorizationUntil (ar_maximumAuthorization result);
  mret (MkResponse (if mc_changed member then 202 else 200)
          (JObj [(js "actorId", JStr (mc_actorId member)); (js "revision", JInt (mc_revision member)); (js "role", JStr (role_text (mc_role member)));
                 (js "active", JBool (mc_active member)); (js "operationIds", ids_json (ar_operationIds result)); (js "latestAuthorizationUntil", until_)])).

(** [AccessCommands.changeMember]; the role of the source is a text of the three. *)
Definition change_member (actorId scopeId subject : jsstr) (key : option jsstr) (expectedRevision : Z) (role : MemberRole) (token : option jsstr) : tx Response :=
  _ ← require (is_id subject && is_counter true expectedRevision && match token with Some t => validBearerToken t | None => true end)
        "INVALID_CONFIG" "Valid member command required";
  request ← lift (requestIdentity actorId scopeId key (js "PUT") (member_path scopeId subject)
                    (JObj [(js "expectedRevision", JInt expectedRevision); (js "role", JStr (role_text role));
                           (js "tokenHash", match token with Some t => JStr (tokenHash t) | None => JNull end)]));
  _ ← owner actorId scopeId;
  once request (member_once actorId scopeId subject request expectedRevision role token).

Definition grant_path (scopeId nodeId subject : jsstr) : jsstr := in_scope scopeId (js "/nodes/" ++ slash nodeId (js "grants/" ++ subject)).

Definition node_grant_once (actorId scopeId nodeId subject : jsstr) (rq : RequestIdentity) (expectedRevision : Z) (allowed : bool) : tx Response :=
  grant ← changeGrant now actorId scopeId nodeId subject expectedRevision allowed;
  result ← nodeGrant_effects rq grant;
  until_ ← authorizationUntil (ar_maximumAuthorization result);
  mret (MkResponse (if ng_changed grant then 202 else 200)
          (JObj [(js "nodeId", JStr nodeId); (js "actorId", JStr subject); (js "revision", JInt (ng_revision grant)); (js "allowed", JBool allowed);
                 (js "operationIds", ids_json (ar_operationIds result)); (js "latestAuthorizationUntil", until_)])).

(** [AccessCommands.changeNodeGrant] *)
Definition change_node_grant (actorId scopeId nodeId subject : jsstr) (key : option jsstr) (expectedRevision : Z) (allowed : bool) : tx Response :=
  _ ← require (is_id nodeId && is_id subject && is_counter false expectedRevision) "INVALID_CONFIG" "Valid Node grant command required";
  request ← lift (requestIdentity actorId scopeId key (js "PUT") (grant_path scopeId nodeId subject)
                    (JObj [(js "expectedRevision", JInt expectedRevision); (js "allowed", JBool allowed)]));
  _ ← owner actorId scopeId;
  once request (node_grant_once actorId scopeId nodeId subject request expectedRevision allowed).
End Access.

Section NodeManagement.
Context `{Hashing, NodeManagementExecution} (now : Z).

Definition command_kind (c : ManagementCommand) : jsstr := match c with cmd_policy _ _ => js "policy" | cmd_revoke => js "revoke" end.

Definition policy_json (p : NodePolicy) : json :=
  JObj [(js "allowedListenerAddresses", JArr (map JStr (np_allowedListenerAddresses p))); (js "allowedPorts", JArr (map JInt (np_allowedPorts p)));
        (js "egressPolicyRevision", JInt (np_egressPolicyRevision p)); (js "allowedDestinationCidrs", JArr (map JStr (np_allowedDestinationCidrs p)));
        (js "allowMetadataTargets", JBool (np_allowMetadataTargets p))].

Definition command_json (c : ManagementCommand) : json :=
  match c with
  | cmd_policy expectedRevision p => JObj [(js "kind", JStr (js "policy")); (js "expectedRevision", JInt expectedRevision); (js "policy", policy_json p)]
  | cmd_revoke => JObj [(js "kind", JStr (js "revoke"))]
  end.

Definition until_json (until_ : option Z) : json := match until_ with Some u => JInt u | None => JNull end.

Definition node_change_once (actorId scopeId nodeId : jsstr) (rq : RequestIdentity) (c : ManagementCommand) : tx Response :=
  change ← applyManagement now actorId scopeId nodeId c;
  result ← node_change_effects rq change;
  let policyRevision := nf_egressPolicyRevision (nm_facts change) in
  _ ← audit_node now nodeId (Some actorId) (match c with cmd_policy _ _ => "policy_update" | cmd_revoke => "node_revocation" end)
        (JObj [(js "policyRevision", JInt policyRevision); (js "operationIds", ids_json (ar_operationIds result));
               (js "latestAuthorizationUntil", until_json (ar_maximumAuthorization result))]);
  until_ ← authorizationUntil (ar_maximumAuthorization result);
  mret (MkResponse 202 (JObj [(js "nodeId", JStr nodeId); (js "policyRevision", JInt policyRevision); (js "operationIds", ids_json (ar_operationIds result));
                              (js "latestAuthorizationUntil", until_)])).

(** [NodeManagementCommands.change] *)
Definition change_node (actorId scopeId nodeId : jsstr) (key : option jsstr) (c : ManagementCommand) : tx Response :=
  _ ← require (is_id nodeId) "INVALID_CONFIG" "Valid Node ID required";
  _ ← lift (snapshotNodeCommand (to_jsv (command_json c)));
  request ← lift (requestIdentity actorId scopeId key (match c with cmd_policy _ _ => js "PUT" | cmd_revoke => js "POST" end)
                    (in_scope scopeId (js "/nodes/" ++ slash nodeId (command_kind c))) (command_json c));
  _ ← scope actorId scopeId true;
  once request (node_change_once actorId scopeId nodeId request c).
End NodeManagement.

Section TransportGrants.
Context `{Hashing, ForwardAuthorizationExecution} (now : Z).

Definition profile_grant_once (actorId scopeId profileId_ subject : jsstr) (rq : RequestIdentity) (expectedRevision : Z) (allowed : bool) : tx Response :=
  grant ← applyGrant now actorId scopeId profileId_ subject expectedRevision allowed;
  operationIds ← (if tgs_changed grant then profile_grant_effects rq grant else mret []);
  mret (MkResponse (if tgs_changed grant then 202 else 200)
          (JObj [(js "profileId", JStr (tgs_profileId grant)); (js "actorId", JStr (tgs_actorId grant)); (js "revision", JInt (tgs_revision grant));
                 (js "allowed", JBool (tgs_allowed grant)); (js "changed", JBool (tgs_changed grant)); (js "operationIds", ids_json operationIds)])).

(** [TransportGrantCommands.change] *)
Definition change_profile_grant (actorId scopeId profileId_ subject : jsstr) (key : option jsstr) (expectedRevision : Z) (allowed : bool) : tx Response :=
  match key with
  | None => invalid_input "Valid Profile grant command required"
  | Some key =>
      _ ← require (is_id actorId && is_id scopeId && is_id profileId_ && is_id subject && is_counter false expectedRevision && valid_key key)
            "INVALID_CONFIG" "Valid Profile grant command required";
      dg ← lift (digest (JObj [(js "method", JStr (js "PUT"));
                               (js "path", JStr (in_scope scopeId (js "/transport-profiles/" ++ slash profileId_ (js "grants/" ++ subject))));
                               (js "expectedRevision", JInt expectedRevision); (js "allowed", JBool allowed)]));
      let request := MkRequest actorId scopeId key dg in
      _ ← owner actorId scopeId;
      once request (profile_grant_once actorId scopeId profileId_ subject request expectedRevision allowed)
  end.
End TransportGrants.
