(* ===== verification/CommandSafety.v ===== *)
(** What the commands on Forwards do: compare-and-set of the intent, take-over by a fresh
    Operation, provenance of the path, and idempotent replay. *)

From S2P Require Import Prelude.
From S2P Require Import JsString.
From S2P Require Import JsValue.
From S2P Require Import Primitives.
From S2P Require Import Json.
From S2P Require Import Forward.
From S2P Require Import Digest.
From S2P Require Import Schema.
From S2P Require Import Relay.
From S2P Require Import RelayPlan.
From S2P Require Import PathContract.
From S2P Require Import Store.
From S2P Require Import Idempotency.
From S2P Require Import Forwarding.
From S2P Require Import Operations.
From S2P Require Import Identity.
From S2P Require Import Profiles.
From S2P Require Import Reads.
From S2P Require Import PathTemplates.
From S2P Require Import PathBindings.
From S2P Require Import RelayCoordinator.
From S2P Require Import RelayFrame.
From S2P Require Import Execution.
From S2P Require Import Reconcile.
From S2P Require Import CommandState.
From S2P Require Import ForwardCommands.

Local Open Scope Z_scope.

(** ** Statements that keep the invariant's tables *)

#[export] Hint Extern 5 (evolves same_control _) => apply evolves_reads; [apply _|] : evolves.

Lemma claim_control r : evolves same_control (claim r).
Proof. intros d res d' (-> & _)%claim_spec. done. Qed.

Lemma respond_control r resp : evolves same_control (respond r resp).
Proof. unfold respond. by apply evolves_modify. Qed.

Lemma plan_control d d' : plan_step d d' -> same_control d d'.
Proof. intros [E _]. unfold same_control, control_frame. unfold plan_frame, beside in E. congruence. Qed.

(** ** The decision *)

Lemma decide_change_Returns f expected s d next d' : forward_wf f -> spec_wf s -> decide_change f expected s d = Returns (next, d') ->
  d' = d /\ expected = revision f /\ forward_wf next /\
  (s = spec f /\ next = f \/ s <> spec f /\ next = MkForward (id f) (scopeId f) (revision f + 1) s).
Proof.
  intros Hf Hs Hr. unfold decide_change in Hr. destruct (decideForwardChange _ _ _) as [n|[|e es]] eqn:E; [|done..].
  apply mret_Returns in Hr as [-> ->]. split; [done|]. pose proof (decideForwardChange_cas _ _ _ _ E) as (cur & Hcur & Hexp & _ & _ & Hwf & _).
  rewrite parse_forward_canonical in Hcur by done. injection Hcur as <-. injection Hexp as ->. rewrite decide_replace in E by done.
  split; [done|]. split; [done|]. unfold decided in E. case_bool_decide as Es.
  - injection E as <-. left. split; [|done]. symmetry. apply spec_stringify_inj; [apply Hf|done|done].
  - destruct (revision f =? MAX_COUNTER); [done|]. injection E as <-. right. split; [by intros ->|done].
Qed.

Lemma currentForUpdate_Returns s i d f d' : currentForUpdate s i d = Returns (f, d') -> d' = d /\
  exists row, db_forwards d !! i = Some row /\ fw_scope_id row = s /\ fw_deleting row = false /\ f = to_forward (i, row).
Proof.
  unfold currentForUpdate, find_forward. intros Hr. apply tx_bind_Returns in Hr as (row & d1 & Hr & [-> ->]%mret_Returns).
  apply tx_bind_Returns in Hr as (o & d2 & [-> ->]%query_Returns & Hr). destruct (db_forwards d !! i) as [r|] eqn:E; [|done].
  apply tx_bind_Returns in Hr as ([] & d2 & [Hc ->]%require_Returns & [-> ->]%mret_Returns). split; [done|]. exists r.
  apply andb_prop in Hc as [Hs Hd]. apply bool_decide_eq_true in Hs. by apply negb_true_iff in Hd.
Qed.

(** The intent of one Forward is replaced, and a fresh Operation takes it over. *)
Record intent_changed (rq : RequestIdentity) (f : Forward) (row : ForwardRow) (kind : OperationKind) (oid : jsstr) (d d' : Db) : Prop := {
  ic_forwards : db_forwards d' = <[id f := row]> (db_forwards d);
  ic_taken : taken_over rq (MkEntry f oid kind false) d';
  ic_others : forall g, g <> id f -> same_ops g d d';
}.

Section Safety.
Context `{Hashing, Schema RelayProfileConfig} {preparation : ForwardCommandPreparation} {laws : ForwardCommandLaws}.
Context (uuid : Db -> jsstr) (now : Z).

(** The row of a changed intent. *)
Definition intent_row (actor : jsstr) (next : Forward) : ForwardRow := MkForwardRow (scopeId next) (revision next) (spec next) false false (Some actor).

Lemma same_control_ok open d d' : same_control d d' -> control_but open d -> control_but open d' /\ control_le d d'.
Proof using. intros E%same_is_quiet. by apply quiet_ok. Qed.

(** [replace] of a current Forward *)
Lemma replace_ok current next row d u d' : control_ok d -> db_forwards d !! id current = Some row -> current = to_forward (id current, row) ->
  id next = id current -> scopeId next = scopeId current -> revision next = revision current + 1 -> forward_wf next ->
  replace_forward current next d = Returns (u, d') ->
  control_but (just (id current)) d' /\ control_le d d' /\ db_operations d' = db_operations d /\ db_paths d' = db_paths d /\
  db_forward_revisions d' !! (id current, revision next) = Some (spec next) /\
  db_forwards d' = <[id current := MkForwardRow (scopeId next) (revision next) (spec next) false false (fw_authorization_actor row)]> (db_forwards d).
Proof using.
  intros Hok Hrow Ec Eid Esc Erev Hwf Hr. apply replace_Returns in Hr as (r & Hl & Hrev & Hdel & _ & ->); [|done].
  assert (r = row) as -> by congruence.
  assert (Hs : fw_scope_id row = scopeId next) by (rewrite Esc, Ec; done). assert (Hv : fw_revision row = revision current) by done.
  set (row' := MkForwardRow (fw_scope_id row) (revision next) (spec next) false false (fw_authorization_actor row)).
  destruct (write_ok (id current) row row' d) as (Hk & Hle & _); try done; [cbn; lia|apply Hwf|apply Hwf|].
  split_and!; try done; [cbn; by rewrite lookup_insert_eq|]. cbn. unfold row'. by rewrite Hs.
Qed.

(** The Forward of [replace_intent] is settled but for a selected path, which is settled next. *)
Lemma replace_intent_ok actor current next rq bound row d oid d' : control_ok d -> db_forwards d !! id current = Some row ->
  current = to_forward (id current, row) -> id next = id current -> scopeId next = scopeId current -> revision next = revision current + 1 -> forward_wf next ->
  replace_intent uuid now actor current next rq bound d = Returns (oid, d') ->
  control_but (if bound then just (id next) else fun _ => False) d' /\ control_le d d' /\
  db_forward_revisions d' !! (id next, revision next) = Some (spec next) /\
  intent_changed rq next (intent_row actor next) (update_kind current next) oid d d'.
Proof using laws.
  intros Hok Hrow Ec Eid Esc Erev Hwf Hr. unfold replace_intent in Hr. apply tx_bind_Returns in Hr as ([] & d1 & H1 & Hr).
  eapply replace_ok in H1 as (K1 & L1 & O1 & P1 & V1 & F1); [|done..].
  apply tx_bind_Returns in Hr as ([] & d2 & H2 & Hr).
  assert (control_but (if bound then just (id next) else fun _ => False) d2 /\ control_le d1 d2 /\ db_forwards d2 = db_forwards d1 /\
    db_operations d2 = db_operations d1) as (K2 & L2 & F2 & O2).
  { destruct bound; [tx_inv; rewrite Eid; split_and!; try done; reflexivity|].
    eapply preserve_closes in H2 as [B2 W2]; [| | | |].
    - by destruct (binding_write_ok _ _ _ W2 B2 K1).
    - apply K1.
    - rewrite F1. apply lookup_insert_eq.
    - cbn. by rewrite Esc.
    - done. }
  apply tx_bind_Returns in Hr as ([] & d3 & H3 & Hr). pose proof (authorizer_ok _ _ _ _ _ _ H3 K2) as [K3 L3].
  apply tx_bind_Returns in Hr as ([] & d4 & H4 & Hr). apply planUpdate_plans, plan_control in H4.
  destruct (same_control_ok _ _ _ H4 K3) as [K4 L4]. apply tx_bind_Returns in Hr as (o & d5 & [-> ->]%query_Returns & Hr).
  apply tx_bind_Returns in Hr as (oid' & d5 & H5 & Hr). apply tx_bind_Returns in Hr as ([] & d6 & H6 & [-> ->]%mret_Returns).
  apply command_capacity_reads in H6 as <-. pose proof H5 as (Eo & _)%accept_lookup.
  assert (F4 : db_forwards d4 = <[id next := intent_row actor next]> (db_forwards d)).
  { unfold same_control, control_frame in H4. assert (E4 : db_forwards d4 = db_forwards d3) by congruence. rewrite E4.
    unfold setAuthorizer in H3. apply modify_Returns in H3 as ->. cbn. rewrite F2, F1, Eid. by rewrite (alter_present _ _ _ _ (lookup_insert_eq _ _ _)), insert_insert_eq. }
  assert (O4 : db_operations d4 = db_operations d).
  { unfold same_control, control_frame in H4. assert (E4 : db_operations d4 = db_operations d3) by congruence. rewrite E4.
    unfold setAuthorizer in H3. apply modify_Returns in H3 as ->. cbn. congruence. }
  edestruct (accept_ok _ _ _ _ _ _ _ _ (intent_row actor next) _ _ _ H5 K4) as (K5 & L5 & T5 & S5); [by rewrite F4, lookup_insert_eq|done|done|].
  pose proof H5 as ([E5 _] & _)%work_accept. rewrite Eo. split_and!; [done| | |].
  - transitivity d1; [done|]. transitivity d2; [done|]. transitivity d3; [done|]. by transitivity d4.
  - rewrite Eid. eapply lookup_weaken; [exact V1|]. transitivity (db_forward_revisions d2); [apply L2|]. transitivity (db_forward_revisions d3); [apply L3|].
    transitivity (db_forward_revisions d4); [apply L4|apply L5].
  - split; [unfold beside in E5; congruence|done|]. intros g Hg i p Hp. rewrite (S5 g Hg i p Hp), O4. done.
Qed.

(** What [acceptUpdate] leaves behind: nothing new for the same intent, a replaced one otherwise. *)
Definition update_outcome (actor : jsstr) (current next : Forward) (rq : RequestIdentity) (resp : Response) (more : list (jsstr * json)) (d d' : Db) : Prop :=
  if decide (revision next = revision current)
  then resp = MkResponse 200 (accepted_body (id current) (revision current) None more) /\ db_forwards d' = db_forwards d /\ db_operations d' = db_operations d
  else exists oid, resp = MkResponse 202 (accepted_body (id next) (revision next) (Some oid) more) /\
    intent_changed rq next (intent_row actor next) (update_kind current next) oid d d'.

(** The path the Forward has now is the one the selection names. *)
Definition bound_to (f : Forward) (sel : PathSelection) (d : Db) : Prop :=
  exists n b, joined (scopeId f) (id f) d = Some (n, b) /\ bd_selection b = sel /\ same_topology (spec f) (bd_expanded_spec b).

Lemma intent_changed_same rq f row kind oid d d1 d' : intent_changed rq f row kind oid d d1 -> db_forwards d' = db_forwards d1 -> db_operations d' = db_operations d1 ->
  intent_changed rq f row kind oid d d'.
Proof using.
  intros [F T S] EF EO. split; [congruence|by eapply taken_over_same; [apply same_ops_eq|]|].
  intros g Hg. transitivity d1; [by apply S|by apply same_ops_eq].
Qed.

Lemma acceptUpdate_ok actor current next rq sel row d resp d' : control_ok d -> db_forwards d !! id current = Some row ->
  current = to_forward (id current, row) -> forward_wf next ->
  (next = current \/ spec next <> spec current /\ next = MkForward (id current) (scopeId current) (revision current + 1) (spec next)) ->
  (forall s, sel = Some s -> exists t, db_template_revisions d !! (scopeId current, sel_templateId s, sel_revision s) = Some t /\
    tr_config_digest t = sel_configDigest s /\ follows (tr_config t) (spec next)) ->
  acceptUpdate uuid now actor current next rq sel d = Returns (resp, d') ->
  control_ok d' /\ control_le d d' /\ (forall s, sel = Some s -> bound_to next s d') /\
  exists more, update_outcome actor current next rq resp more d d' /\ (sel = None -> more = []).
Proof using laws.
  intros Hok Hrow Ec Hwf Hnext Hsel Hr. unfold acceptUpdate in Hr. apply tx_bind_Returns in Hr as (susp & d0 & H0' & Hr).
  assert (d0 = d) as ->. { destruct (str_eqb _ _); [by tx_inv|]. apply tx_bind_Returns in H0' as ([[? ?] ?] & d1 & E & [_ ->]%mret_Returns). symmetry. by eapply reads_record_of. }
  apply tx_bind_Returns in Hr as ([] & d1 & H1%prepareUpdate_plans%plan_control & Hr). destruct (same_control_ok _ _ _ H1 Hok) as [K1 L1].
  assert (EF1 : db_forwards d1 = db_forwards d) by (unfold same_control, control_frame in H1; congruence).
  assert (EO1 : db_operations d1 = db_operations d) by (unfold same_control, control_frame in H1; congruence).
  assert (ET1 : db_template_revisions d1 = db_template_revisions d) by (unfold same_control, control_frame in H1; unfold db_template_revisions; congruence).
  apply tx_bind_Returns in Hr as (oid & d2 & H2 & Hr). apply tx_bind_Returns in Hr as (more & d3 & H3 & [-> ->]%mret_Returns).
  assert (Hids : id next = id current /\ scopeId next = scopeId current) by (destruct Hnext as [->|[_ ->]]; done). destruct Hids as [Eid Esc].
  assert (exists row2, control_but (if bool_decide (is_Some sel) then just (id next) else fun _ => False) d2 /\ control_le d1 d2 /\
    db_forwards d2 !! id next = Some row2 /\ fw_scope_id row2 = scopeId next /\ fw_spec row2 = spec next /\
    db_forward_revisions d2 !! (id next, revision next) = Some (spec next) /\
    update_outcome actor current next rq (MkResponse (match oid with Some _ => 202 | None => 200 end) (accepted_body (id next) (revision next) oid more)) more d d2)
    as (row2 & K2 & L2 & R2 & S2 & P2 & V2 & U2).
  { unfold update_outcome. case_decide as En.
    - assert (En' : next = current) by (destruct Hnext as [|[_ En']]; [done|rewrite En' in En; cbn in En; lia]). clear En. rename En' into En.
      rewrite En, Z.eqb_refl in H2. apply mret_Returns in H2 as [-> ->]. exists row. rewrite En, EF1. split_and!; try done.
      + destruct K1. split; try done. case_bool_decide; [|done]. eapply (bindings_frame _ _ d1 d1); [done|done|done|done| |done].
        intros g r Hg. exists r. split_and!; [done|done|]. intros _. split; [by intros []|done].
      + by rewrite Ec.
      + by rewrite Ec.
      + destruct K1 as [[Hh _] _ _ _ _ _]. rewrite Ec. cbn. apply Hh. by rewrite EF1.
    - destruct Hnext as [->|[Hne En2]]; [done|]. rewrite (proj2 (Z.eqb_neq _ _)) in H2 by (rewrite En2; cbn; lia).
      apply tx_bind_Returns in H2 as (o & d2' & H2 & [-> ->]%mret_Returns).
      eapply replace_intent_ok in H2 as (K2 & L2 & V2 & I2); [|done|by rewrite EF1|done|done|done|by rewrite En2|done].
      exists (intent_row actor next). destruct I2 as [F2 T2 S2]. rewrite F2, EF1 in *. split_and!; try done; [by rewrite lookup_insert_eq|].
      exists o. split; [done|]. split; try done. intros g Hg i p Hp. rewrite (S2 g Hg i p Hp), EO1. done. }
  assert (L12 : control_le d d2) by (by transitivity d1).
  destruct sel as [s|]; cbn [is_Some] in *.
  - rewrite bool_decide_eq_true_2 in K2 by eauto. apply tx_bind_Returns in H3 as (r & d3' & H3 & [-> ->]%mret_Returns).
    eapply accept_closes in H3 as (B3 & W3 & b & Hj & Hsl & Ht); [|apply K2|done|done|done|done|apply Hwf|].
    2:{ destruct (Hsel s eq_refl) as (t & Ht & Hrest). exists t. split; [|done]. rewrite Esc. eapply lookup_weaken; [exact Ht|]. apply L12. }
    destruct (binding_write_ok _ _ _ W3 B3 K2) as (K3 & L3 & F3 & O3). split_and!; [done|by transitivity d2| |].
    + intros s' [= <-]. by exists (br_sequence r), b.
    + exists [(js "pathBinding", receipt_json r)]. split; [|done]. unfold update_outcome in *. case_decide; [destruct U2 as (H2' & ? & ?); split_and!; [exact H2'|congruence..]|].
      destruct U2 as (o & Eo & I). exists o. split; [done|by eapply intent_changed_same].
  - rewrite bool_decide_eq_false_2 in K2 by (by intros [? ?]). apply mret_Returns in H3 as [-> ->]. split_and!; [done|done|done|]. by exists [].
Qed.

(** ** The commands *)

Lemma once_cases r action d resp d' : once r action d = Returns (resp, d') ->
  (exists row, stored r d = Some row /\ is_Some (id_http_status row) /\ d' = d) \/
  exists d2, claim r d = Returns (None, with_idempotency (claim_row r) d) /\ action (with_idempotency (claim_row r) d) = Returns (resp, d2) /\
    respond r resp d2 = Returns (tt, d').
Proof using.
  unfold once. intros Hr. apply tx_bind_Returns in Hr as (replay & d1 & Hc & Hr). pose proof Hc as (-> & Hi & Hd & ->)%claim_spec.
  unfold stored in *. destruct (db_idempotency d !! request_key r) as [row|] eqn:Es; cbn in Hr, Hc, Hi, Hd.
  - destruct (id_http_status row) as [st|] eqn:Est; cbn in Hr, Hc.
    + apply mret_Returns in Hr as [_ ->]. left. exists row. rewrite Est. split_and!; [done|by eauto|]. apply claim_row_present. unfold stored. by rewrite Es.
    + apply tx_bind_Returns in Hr as (x & d2 & Ha & Hr). apply tx_bind_Returns in Hr as ([] & d3 & Hp & [-> ->]%mret_Returns). right. by exists d2.
  - apply tx_bind_Returns in Hr as (x & d2 & Ha & Hr). apply tx_bind_Returns in Hr as ([] & d3 & Hp & [-> ->]%mret_Returns). right. by exists d2.
Qed.

Lemma requestIdentity_Returns actor s key method path input rq : requestIdentity actor s key method path input = Returns rq ->
  rq_actorId rq = actor /\ rq_scopeId rq = s /\ is_id actor = true /\ is_id s = true.
Proof using. unfold requestIdentity. destruct key as [key|]; [|done]. intros Hr. run_inv. subst. propify. done. Qed.

Definition row_forward (i : jsstr) (row : ForwardRow) : Forward := to_forward (i, row).

(** The Forward a command finds. *)
Definition editable (s i : jsstr) (row : ForwardRow) (d : Db) : Prop := db_forwards d !! i = Some row /\ fw_scope_id row = s /\ fw_deleting row = false.

Lemma editable_wf s i row d : control_ok d -> editable s i row d -> is_id i = true -> is_id s = true -> forward_wf (row_forward i row).
Proof using. intros Hok (Hr & <- & _) Hi Hs. destruct (ck_intents _ _ Hok _ _ Hr). by split. Qed.

(** The next Forward of a replacement: the same one when nothing changes. *)
Definition next_of (f : Forward) (s : ForwardSpec) : Forward :=
  if decide (stringify (spec_json s) = stringify (spec_json (spec f))) then f else MkForward (id f) (scopeId f) (revision f + 1) s.

Lemma update_once_ok actor scope_ i rq expected s d resp d' : control_ok d -> is_id i = true -> is_id scope_ = true -> spec_wf s ->
  update_once uuid now actor scope_ i rq expected s d = Returns (resp, d') ->
  control_ok d' /\ control_le d d' /\ exists row, editable scope_ i row d /\ expected = fw_revision row /\
    update_outcome actor (row_forward i row) (next_of (row_forward i row) s) rq resp [] d d'.
Proof using laws.
  intros Hok Hi Hs Hwf Hr. unfold update_once in Hr. apply tx_bind_Returns in Hr as ([] & d1 & Hsc & Hr). apply reads_scope in Hsc as <-.
  apply tx_bind_Returns in Hr as (current & d1 & (-> & row & Hrow & Hrs & Hdel & ->)%currentForUpdate_Returns & Hr).
  fold (row_forward i row) in Hr. assert (He : editable scope_ i row d) by done. pose proof (editable_wf _ _ _ _ Hok He Hi Hs) as Hf.
  apply tx_bind_Returns in Hr as (next & d1 & (-> & Hexp & Hnw & Hn)%decide_change_Returns & Hr); [|done..].
  assert (En : next = next_of (row_forward i row) s).
  { unfold next_of. destruct Hn as [[-> ->]|[Hne ->]]; case_decide as E; try done. destruct Hne. apply spec_stringify_inj; [done|apply Hf|done]. }
  eapply acceptUpdate_ok in Hr as (K & L & _ & more & U & Em); [|done|exact Hrow|done|done| |done].
  - split_and!; [done..|]. exists row. split_and!; [done|done|]. by rewrite Em, En in U.
  - destruct Hn as [[_ ->]|[Hne ->]]; [by left|right]. by split.
Qed.

Lemma apply_once_ok actor scope_ i rq expected sel d resp d' : control_ok d -> is_id i = true -> is_id scope_ = true ->
  apply_once uuid now actor scope_ i rq expected sel d = Returns (resp, d') ->
  control_ok d' /\ control_le d d' /\ exists row next more, editable scope_ i row d /\ expected = fw_revision row /\ fw_recovery_suspended row = false /\
    update_outcome actor (row_forward i row) next rq resp more d d' /\ bound_to next sel d' /\
    exists t, db_template_revisions d !! (scope_, sel_templateId sel, sel_revision sel) = Some t /\ tr_config_digest t = sel_configDigest sel /\ follows (tr_config t) (spec next).
Proof using laws.
  intros Hok Hi Hs Hr. unfold apply_once in Hr.
  apply tx_bind_Returns in Hr as (current & d1 & (-> & row & Hrow & Hrs & Hdel & ->)%currentForUpdate_Returns & Hr).
  fold (row_forward i row) in Hr. assert (He : editable scope_ i row d) by done. pose proof (editable_wf _ _ _ _ Hok He Hi Hs) as Hf.
  apply tx_bind_Returns in Hr as (susp & d1 & Hsus & Hr).
  assert (d1 = d /\ (susp = false -> fw_recovery_suspended row = false)) as [-> Hsu].
  { destruct (_ =? expected); [|by tx_inv]. apply tx_bind_Returns in Hsus as ([[f del] su] & d2 & Hrec & [-> ->]%mret_Returns).
    unfold record_of in Hrec. apply tx_bind_Returns in Hrec as (r & d3 & Hrec & [Ex ->]%mret_Returns). unfold find_forward in Hrec.
    apply tx_bind_Returns in Hrec as (o & d4 & [-> ->]%query_Returns & Hrec). rewrite Hrow in Hrec. tx_inv. by injection Ex as _ _ ->. }
  apply tx_bind_Returns in Hr as ([] & d1 & [Hns%negb_true_iff ->]%require_Returns & Hr).
  apply tx_bind_Returns in Hr as (s & d1 & (-> & Hwf & t & Ht & Hdg & Hfol)%resolve_binding_Returns & Hr); [|apply Hok|apply Hf].
  apply tx_bind_Returns in Hr as (next & d1 & (-> & Hexp & Hnw & Hn)%decide_change_Returns & Hr); [|done..].
  assert (Es : spec next = s) by (destruct Hn as [[-> ->]|[_ ->]]; done).
  assert (Htpl : exists t, db_template_revisions d !! (scope_, sel_templateId sel, sel_revision sel) = Some t /\
    tr_config_digest t = sel_configDigest sel /\ follows (tr_config t) (spec next)) by (exists t; rewrite Es; cbn in Ht; by rewrite Hrs in Ht).
  eapply acceptUpdate_ok in Hr as (K & L & B & more & U & _); [|done|exact Hrow|done|done| |].
  - split_and!; [done..|]. exists row, next, more. split_and!; try done; [by apply Hsu|by apply B].
  - destruct Hn as [[_ ->]|[Hne ->]]; [by left|right]. by split.
  - intros s' [= <-]. cbn. by rewrite Hrs.
Qed.

Definition deleted_row (row : ForwardRow) : ForwardRow :=
  MkForwardRow (fw_scope_id row) (fw_revision row + 1) (fw_spec row) true (fw_recovery_suspended row) (fw_authorization_actor row).

Lemma remove_once_ok actor scope_ i rq expected d resp d' : control_ok d -> remove_once uuid now actor scope_ i rq expected d = Returns (resp, d') ->
  control_ok d' /\ control_le d d' /\ exists row oid, editable scope_ i row d /\ expected = fw_revision row /\
    resp = MkResponse 202 (accepted_body i (expected + 1) (Some oid) []) /\
    intent_changed rq (MkForward i scope_ (expected + 1) (fw_spec row)) (deleted_row row) k_delete oid d d'.
Proof using laws.
  intros Hok Hr. unfold remove_once in Hr. apply tx_bind_Returns in Hr as ([] & d1 & Hsc & Hr). apply reads_scope in Hsc as <-.
  apply tx_bind_Returns in Hr as (current & d1 & (-> & row & Hrow & Hrs & Hdel & ->)%currentForUpdate_Returns & Hr).
  apply tx_bind_Returns in Hr as ([] & d1 & Hlk & Hr). apply lockRemoval_reads in Hlk as <-.
  apply tx_bind_Returns in Hr as ([] & d1 & [He%Z.eqb_eq ->]%require_Returns & Hr). apply tx_bind_Returns in Hr as ([] & d1 & [Hm ->]%require_Returns & Hr).
  cbn in He. apply negb_true_iff, Z.leb_gt in Hm. cbn in Hm. cbn zeta in Hr.
  apply tx_bind_Returns in Hr as ([] & d1 & (r & Hl & _ & _ & _ & ->)%markDeleting_Returns & Hr). cbn in Hl, Hr. assert (r = row) as -> by congruence.
  destruct (ck_intents _ _ Hok _ _ Hrow) as [Hwf Hct].
  destruct (write_ok i row (deleted_row row) d) as (_ & L1 & K1); try done; [cbn; lia| |].
  { cbn. unfold is_counter in *. propify. rewrite andb_true_iff, !Z.leb_le. lia. }
  specialize (K1 eq_refl). cbn [deleted_row fw_revision fw_spec] in L1, K1. fold (deleted_row row) in Hr, L1, K1. set (d1 := with_forward_revisions _ _) in *.
  apply tx_bind_Returns in Hr as (o & d2 & [-> ->]%query_Returns & Hr). apply tx_bind_Returns in Hr as (oid & d2 & H2 & Hr).
  apply tx_bind_Returns in Hr as ([] & d3 & H3 & [-> ->]%mret_Returns). apply command_capacity_reads in H3 as <-. pose proof H2 as (Eo & _)%accept_lookup.
  edestruct (accept_ok _ _ _ _ _ _ _ _ (deleted_row row) _ _ _ H2 K1) as (K2 & L2 & T2 & S2); [unfold d1; cbn; apply lookup_insert_eq|done|done|].
  pose proof H2 as ([E2 _] & _)%work_accept. split_and!; [done|by transitivity d1|]. exists row, oid. rewrite <- He. split_and!; [done|done|done|].
  rewrite <- Hrs, Eo. split; [|exact T2|exact S2]. unfold beside in E2. assert (E : db_forwards d2 = db_forwards d1) by congruence. rewrite E. done.
Qed.

Definition set_actor (actor : jsstr) (r : ForwardRow) : ForwardRow :=
  MkForwardRow (fw_scope_id r) (fw_revision r) (fw_spec r) (fw_deleting r) (fw_recovery_suspended r) (Some actor).

Lemma retry_once_ok actor scope_ rq source expected d resp d' : control_ok d -> retry_once uuid now actor scope_ rq source expected d = Returns (resp, d') ->
  control_ok d' /\ control_le d d' /\ exists o row oid, db_operations d !! source = Some o /\ op_status o = s_failed /\ op_target_revision o = expected /\
    op_recovery_invalidated o = false /\ editable scope_ (op_forward_id o) row d /\ expected = fw_revision row /\
    resp = MkResponse 202 (accepted_body (op_forward_id o) expected (Some oid) [(js "sourceOperationId", JStr source)]) /\
    intent_changed rq (row_forward (op_forward_id o) row) (set_actor actor row) k_retry oid d d'.
Proof using laws.
  intros Hok Hr. unfold retry_once in Hr. apply tx_bind_Returns in Hr as ([] & d1 & Hsc & Hr). apply reads_scope in Hsc as <-.
  apply tx_bind_Returns in Hr as (o & d1 & Ho & Hr). pose proof (reads_get_operation _ _ _ _ _ Ho) as <-.
  assert (Hop : db_operations d !! source = Some o).
  { unfold get_operation in Ho. apply tx_bind_Returns in Ho as (q & d1 & [-> ->]%query_Returns & Ho). destruct (db_operations d !! source) as [q|]; [|done].
    apply tx_bind_Returns in Ho as ([] & d1 & [_ ->]%require_Returns & [-> _]%mret_Returns). done. }
  apply tx_bind_Returns in Hr as (f & d1 & (-> & row & Hrow & Hrs & Hdel & ->)%currentForUpdate_Returns & Hr).
  apply tx_bind_Returns in Hr as ([] & d1 & Hlk & Hr). apply command_lock_reads in Hlk as <-.
  apply tx_bind_Returns in Hr as (o' & d1 & Ho' & Hr). pose proof (reads_get_operation _ _ _ _ _ Ho') as <-. assert (o' = o) as -> by congruence.
  apply tx_bind_Returns in Hr as ([] & d1 & [Hin%negb_true_iff ->]%require_Returns & Hr). apply tx_bind_Returns in Hr as ([] & d1 & [Hv ->]%require_Returns & Hr).
  apply tx_bind_Returns in Hr as ([] & d1 & [Hst%bool_decide_eq_true ->]%require_Returns & Hr). cbn in Hv. apply andb_prop in Hv as [Hv1%Z.eqb_eq Hv2%Z.eqb_eq].
  apply tx_bind_Returns in Hr as ([] & d1 & H1%prepareRetry_plans%plan_control & Hr). destruct (same_control_ok _ _ _ H1 Hok) as [K1 L1].
  unfold same_control, control_frame in H1. assert (EF1 : db_forwards d1 = db_forwards d) by congruence. assert (EO1 : db_operations d1 = db_operations d) by congruence.
  apply tx_bind_Returns in Hr as ([] & d2 & H2 & Hr). destruct (authorizer_ok _ _ _ _ _ _ H2 K1) as [K2 L2].
  assert (F2 : db_forwards d2 = <[op_forward_id o := set_actor actor row]> (db_forwards d)).
  { unfold setAuthorizer in H2. apply modify_Returns in H2 as ->. cbn. rewrite EF1. by rewrite (alter_present _ _ _ row). }
  assert (O2 : db_operations d2 = db_operations d) by (unfold setAuthorizer in H2; by apply modify_Returns in H2 as ->).
  apply tx_bind_Returns in Hr as (n & d3 & [-> ->]%query_Returns & Hr). apply tx_bind_Returns in Hr as (oid & d3 & H3 & Hr).
  apply tx_bind_Returns in Hr as ([] & d4 & H4 & [-> ->]%mret_Returns). apply command_capacity_reads in H4 as <-. pose proof H3 as (Eo & _)%accept_lookup.
  edestruct (accept_ok _ _ _ _ _ _ _ _ (set_actor actor row) _ _ _ H3 K2) as (K3 & L3 & T3 & S3); [rewrite F2; apply lookup_insert_eq|done|done|].
  pose proof H3 as ([E3 _] & _)%work_accept. split_and!; [done|transitivity d1; [done|by transitivity d2]|].
  exists o, row, oid. subst expected. split_and!; try done. rewrite Eo. split; [unfold beside in E3; cbn; congruence|exact T3|].
  intros g Hg i p Hp. by rewrite (S3 g Hg i p Hp), O2.
Qed.

Lemma create_once_ok actor scope_ rq s d resp d' : control_ok d -> spec_wf s -> create_once uuid now actor scope_ rq s d = Returns (resp, d') ->
  control_ok d' /\ control_le d d' /\ exists i oid, db_forwards d !! i = None /\ resp = MkResponse 202 (accepted_body i 1 (Some oid) []) /\
    intent_changed rq (MkForward i scope_ 1 s) (MkForwardRow scope_ 1 s false false (Some actor)) k_create oid d d'.
Proof using laws.
  intros Hok Hwf Hr. unfold create_once in Hr. apply tx_bind_Returns in Hr as ([] & d1 & Hsc & Hr). apply reads_scope in Hsc as <-.
  apply tx_bind_Returns in Hr as (i & d1 & [Ei ->]%query_Returns & Hr). cbn zeta in Hr. clear Ei.
  apply tx_bind_Returns in Hr as ([] & d1 & H1%prepareCreate_plans%plan_control & Hr). destruct (same_control_ok _ _ _ H1 Hok) as [K1 L1].
  unfold same_control, control_frame in H1. assert (EF1 : db_forwards d1 = db_forwards d) by congruence. assert (EO1 : db_operations d1 = db_operations d) by congruence.
  apply tx_bind_Returns in Hr as ([] & d2 & H2 & Hr). apply insert_ok in H2 as (K2 & L2 & O2 & N2 & F2); [|done..]. cbn in N2, F2.
  apply tx_bind_Returns in Hr as ([] & d3 & H3%planCreate_plans%plan_control & Hr). destruct (same_control_ok _ _ _ H3 K2) as [K3 L3].
  unfold same_control, control_frame in H3. assert (EF3 : db_forwards d3 = db_forwards d2) by congruence. assert (EO3 : db_operations d3 = db_operations d2) by congruence.
  apply tx_bind_Returns in Hr as (n & d4 & [-> ->]%query_Returns & Hr). apply tx_bind_Returns in Hr as (oid & d4 & H4 & Hr).
  apply tx_bind_Returns in Hr as ([] & d5 & H5 & [-> ->]%mret_Returns). apply command_capacity_reads in H5 as <-. pose proof H4 as (Eo & _)%accept_lookup.
  edestruct (accept_ok _ _ _ _ _ _ _ _ (MkForwardRow scope_ 1 s false false (Some actor)) _ _ _ H4 K3) as (K4 & L4 & T4 & S4);
    [rewrite EF3, F2; apply lookup_insert_eq|done|done|].
  pose proof H4 as ([E4 _] & _)%work_accept. split_and!; [done|transitivity d1; [done|]; transitivity d2; [done|by transitivity d3]|].
  exists i, oid. split_and!; [congruence|done|]. rewrite Eo. split; [cbn; unfold beside in E4; congruence|exact T4|].
  intros g Hg j p Hp. rewrite (S4 g Hg j p Hp). by rewrite EO3, O2, EO1.
Qed.

(** ** Whole commands *)

Lemma claim_frame r d : same_control d (with_idempotency (claim_row r) d).
Proof using. done. Qed.

Lemma once_ok r action d resp d' : once r action d = Returns (resp, d') -> control_ok d ->
  (forall d1 d2, control_ok d1 -> action d1 = Returns (resp, d2) -> control_ok d2 /\ control_le d1 d2) -> control_ok d' /\ control_le d d'.
Proof using.
  intros [(row & _ & _ & ->)|(d2 & _ & Ha & Hp)]%once_cases Hok Hact; [split; [done|reflexivity]|].
  destruct (same_control_ok _ _ _ (claim_frame r d) Hok) as [K1 L1]. destruct (Hact _ _ K1 Ha) as [K2 L2].
  apply respond_control in Hp. destruct (same_control_ok _ _ _ Hp K2) as [K3 L3]. split; [done|].
  transitivity (with_idempotency (claim_row r) d); [done|by transitivity d2].
Qed.

Lemma check_command_Returns expected i m d u d' : check_command expected i m d = Returns (u, d') -> d' = d /\ is_counter false expected = true /\ is_id i = true.
Proof using. unfold check_command. intros Hr. tx_inv. done. Qed.

Lemma command_ok actor s c d resp d' : run_command uuid now actor s c d = Returns (resp, d') -> control_ok d -> control_ok d' /\ control_le d d'.
Proof using laws.
  intros Hr Hok. destruct c as [key input|i key expected input|i key expected input|i key expected|key source expected]; cbn in Hr.
  - unfold create_forward in Hr. destruct (parseForwardSpec input) as [sp|] eqn:Ep; [|done]. apply tx_bind_Returns in Hr as (rq & d1 & [_ ->]%lift_Returns & Hr).
    apply tx_bind_Returns in Hr as ([] & d1 & Hsc & Hr). apply reads_scope in Hsc as <-.
    apply tx_bind_Returns in Hr as (replay & d1 & Hc%claim_control & Hr). destruct (same_control_ok _ _ _ Hc Hok) as [K1 L1]. destruct replay as [r|].
    + apply tx_bind_Returns in Hr as (? & d2 & Hrec & [-> ->]%mret_Returns). apply reads_record_of in Hrec as <-. done.
    + apply tx_bind_Returns in Hr as (x & d2 & Ha & Hr). apply tx_bind_Returns in Hr as (? & d3 & Hp%respond_control & [-> ->]%mret_Returns).
      apply create_once_ok in Ha as (K2 & L2 & _); [|done|by eapply parseForwardSpec_wf]. destruct (same_control_ok _ _ _ Hp K2) as [K3 L3].
      split; [done|]. transitivity d1; [done|by transitivity d2].
  - unfold update_forward in Hr. apply tx_bind_Returns in Hr as ([] & d1 & (-> & _ & Hi)%check_command_Returns & Hr).
    destruct (parseForwardSpec input) as [sp|] eqn:Ep; [|done].
    apply tx_bind_Returns in Hr as (rq & d1 & [(_ & _ & _ & Hs)%requestIdentity_Returns ->]%lift_Returns & Hr).
    apply tx_bind_Returns in Hr as ([] & d1 & Hsc & Hr). apply reads_scope in Hsc as <-. eapply once_ok; [exact Hr|done|]. intros d1 d2 K1 Ha.
    apply update_once_ok in Ha as (K & L & _); [done..|by eapply parseForwardSpec_wf].
  - unfold apply_path in Hr. apply tx_bind_Returns in Hr as ([] & d1 & (-> & _ & Hi)%check_command_Returns & Hr).
    apply tx_bind_Returns in Hr as (sel & d1 & [_ ->]%lift_Returns & Hr).
    apply tx_bind_Returns in Hr as (rq & d1 & [(_ & _ & _ & Hs)%requestIdentity_Returns ->]%lift_Returns & Hr).
    apply tx_bind_Returns in Hr as ([] & d1 & Hsc & Hr). apply reads_scope in Hsc as <-. eapply once_ok; [exact Hr|done|]. intros d1 d2 K1 Ha.
    by apply apply_once_ok in Ha as (K & L & _).
  - unfold remove_forward in Hr. apply tx_bind_Returns in Hr as ([] & d1 & (-> & _ & Hi)%check_command_Returns & Hr).
    apply tx_bind_Returns in Hr as (rq & d1 & [_ ->]%lift_Returns & Hr).
    apply tx_bind_Returns in Hr as ([] & d1 & Hsc & Hr). apply reads_scope in Hsc as <-. eapply once_ok; [exact Hr|done|]. intros d1 d2 K1 Ha.
    by apply remove_once_ok in Ha as (K & L & _).
  - unfold retry_operation in Hr. apply tx_bind_Returns in Hr as ([] & d1 & (-> & _ & Hi)%check_command_Returns & Hr).
    apply tx_bind_Returns in Hr as (rq & d1 & [_ ->]%lift_Returns & Hr).
    apply tx_bind_Returns in Hr as ([] & d1 & Hsc & Hr). apply reads_scope in Hsc as <-. eapply once_ok; [exact Hr|done|]. intros d1 d2 K1 Ha.
    by apply retry_once_ok in Ha as (K & L & _).
Qed.

(** ** Replay *)

(** Accounts and recorded requests. *)
Definition same_aside (d d' : Db) : Prop := db_identity d' = db_identity d /\ db_idempotency d' = db_idempotency d.

#[export] Instance same_aside_preorder : PreOrder same_aside.
Proof using. split; [by intros d|]. intros d d1 d2 [E1 F1] [E2 F2]. split; congruence. Qed.

Lemma once_again r action d resp d' : evolves same_aside action -> once r action d = Returns (resp, d') -> forall action', once r action' d' = Returns (resp, d').
Proof using.
  intros Hk Hr action'. destruct (once_cases _ _ _ _ _ Hr) as [(row & Hs & [st Hst] & ->)|(d2 & Hc & Ha & Hp)].
  - unfold once in Hr |- *. apply tx_bind_Returns in Hr as (replay & d1 & Hc & Hr). pose proof Hc as (E & _ & _ & Hx)%claim_spec.
    rewrite Hs in Hx. cbn in Hx. rewrite Hst in Hx. cbn in Hx. subst replay. rewrite (claim_row_present r d) in E by (rewrite Hs; eauto). subst d1.
    apply mret_Returns in Hr as [-> _]. apply tx_bind_Returns. by exists (Some (MkResponse st (default JNull (id_response row)))), d.
  - apply once_replay. apply claim_spec in Hc as (_ & Hi & Hd & _). apply Hk in Ha as [_ E]. apply respond_lookup in Hp. unfold completed. rewrite Hp.
    unfold stored. rewrite E. cbn [db_idempotency with_idempotency]. rewrite claim_row_lookup. unfold stored in Hi, Hd.
    destruct (default _ (db_idempotency d !! request_key r)). cbn in *. by subst.
Qed.

Lemma once_identity r action : evolves same_aside action -> evolves (fun d d' => db_identity d' = db_identity d) (once r action).
Proof using.
  intros Hk d resp d' [(row & _ & _ & ->)|(d2 & _ & [E _]%Hk & Hp)]%once_cases; [done|]. unfold respond in Hp. apply modify_Returns in Hp as ->. exact E.
Qed.

Lemma scope_identity a s m d d' : db_identity d' = db_identity d -> scope a s m d = Returns (tt, d) -> scope a s m d' = Returns (tt, d').
Proof using.
  intros E. unfold scope, mbind, tx_bind, query, member, db_members. rewrite E. destruct (_ ≫= _) as [mb|]; [|done]. unfold require. by destruct (negb _).
Qed.

Lemma aside_plan d d' : plan_step d d' -> same_aside d d'.
Proof using. intros [E _]. unfold plan_frame, beside in E. split; congruence. Qed.

Lemma aside_work d d' : work_step d d' -> same_aside d d'.
Proof using. intros [[E _] _]. unfold beside in E. split; congruence. Qed.
End Safety.
#[export] Hint Extern 5 (evolves same_aside _) => apply evolves_reads; [apply _|] : evolves.


Section Replay.
Context `{Hashing, Schema RelayProfileConfig} {preparation : ForwardCommandPreparation} {laws : ForwardCommandLaws}.
Context (uuid : Db -> jsstr) (now : Z).

Lemma aside_from {A} (R : Db -> Db -> Prop) (m : tx A) : evolves R m -> (forall d d', R d d' -> same_aside d d') -> evolves same_aside m.
Proof using. intros Hm HR d a d' Hr%Hm. by apply HR. Qed.

Lemma aside_accept clock i f rq kind prev src : evolves same_aside (accept clock i f rq kind prev src).
Proof using. apply (aside_from work_step); [apply work_accept|apply aside_work]. Qed.

Lemma aside_modify f : (forall d, same_aside d (f d)) -> evolves same_aside (modify f).
Proof using. apply evolves_modify. Qed.

Lemma aside_insert {K V} `{Countable K} (get : Db -> gmap K V) set k v : (forall f d, same_aside d (set f d)) -> evolves same_aside (insert_row get set k v).
Proof using. intros Hs d u d' [_ ->]%insert_row_Returns. apply Hs. Qed.

Lemma aside_replace current next : evolves same_aside (replace_forward current next).
Proof using. unfold replace_forward, update_current. evolve; [by apply aside_modify|by apply aside_insert]. Qed.

Lemma aside_delete current n : evolves same_aside (markDeleting current n).
Proof using. unfold markDeleting, update_current. evolve; [by apply aside_modify|by apply aside_insert]. Qed.

Lemma aside_create f a : evolves same_aside (insert_forward f a).
Proof using. unfold insert_forward. evolve; by apply aside_insert. Qed.

Lemma aside_authorizer f a : evolves same_aside (setAuthorizer f a).
Proof using. by apply aside_modify. Qed.

Lemma aside_current s i : evolves eq (currentForUpdate s i).
Proof using. unfold currentForUpdate, find_forward. evolve. Qed.

Lemma aside_decide f z sp : evolves eq (decide_change f z sp).
Proof using. unfold decide_change. evolve. Qed.

Lemma aside_preserve current next : evolves same_aside (preserve_binding current next).
Proof using.
  unfold preserve_binding, current_binding, detach_binding. evolve. apply aside_modify. intros d. by repeat case_match.
Qed.

Lemma aside_bind a f sel : evolves same_aside (accept_binding now a f sel).
Proof using.
  unfold accept_binding, current_binding, append_binding. evolve; [by apply aside_insert|by apply aside_modify].
Qed.

Lemma aside_prepareCreate a f : evolves same_aside (cp_prepareCreate a f).
Proof using laws. eapply aside_from; [apply prepareCreate_plans|apply aside_plan]. Qed.
Lemma aside_planCreate a f : evolves same_aside (cp_planCreate a f).
Proof using laws. eapply aside_from; [apply planCreate_plans|apply aside_plan]. Qed.
Lemma aside_prepareUpdate a f g b : evolves same_aside (cp_prepareUpdate a f g b).
Proof using laws. eapply aside_from; [apply prepareUpdate_plans|apply aside_plan]. Qed.
Lemma aside_planUpdate a f : evolves same_aside (cp_planUpdate a f).
Proof using laws. eapply aside_from; [apply planUpdate_plans|apply aside_plan]. Qed.
Lemma aside_prepareRetry a f : evolves same_aside (cp_prepareRetry a f).
Proof using laws. eapply aside_from; [apply prepareRetry_plans|apply aside_plan]. Qed.
Hint Resolve aside_accept aside_replace aside_delete aside_create aside_authorizer aside_current aside_decide aside_preserve aside_bind
  aside_prepareCreate aside_planCreate aside_prepareUpdate aside_planUpdate aside_prepareRetry
  command_lock_reads lockRemoval_reads command_capacity_reads : evolves.

Lemma aside_acceptUpdate a current next rq sel : evolves same_aside (acceptUpdate uuid now a current next rq sel).
Proof using laws. unfold acceptUpdate, replace_intent. evolve. Qed.
Hint Resolve aside_acceptUpdate : evolves.

Lemma aside_create_once a s rq sp : evolves same_aside (create_once uuid now a s rq sp).
Proof using laws. unfold create_once. evolve. Qed.
Lemma aside_update_once a s i rq z sp : evolves same_aside (update_once uuid now a s i rq z sp).
Proof using laws. unfold update_once. evolve. Qed.
Lemma aside_apply_once a s i rq z sel : evolves same_aside (apply_once uuid now a s i rq z sel).
Proof using laws. unfold apply_once. evolve. Qed.
Lemma aside_remove_once a s i rq z : evolves same_aside (remove_once uuid now a s i rq z).
Proof using laws. unfold remove_once. evolve. Qed.
Lemma aside_retry_once a s rq src z : evolves same_aside (retry_once uuid now a s rq src z).
Proof using laws. unfold retry_once. evolve. Qed.

(** The shape the commands on an existing Forward share. *)
Lemma guarded_again a s m rq action d resp d' : evolves same_aside action ->
  (_ ← scope a s m; once rq action) d = Returns (resp, d') -> (_ ← scope a s m; once rq action) d' = Returns (resp, d').
Proof using.
  intros Hk Hr. apply tx_bind_Returns in Hr as ([] & d1 & Hs & Hr). pose proof (reads_scope _ _ _ _ _ _ Hs) as <-.
  apply tx_bind_Returns. exists tt, d'. split; [|by eapply once_again]. eapply scope_identity; [|exact Hs]. by apply (once_identity rq action Hk) in Hr.
Qed.

Lemma check_command_run expected i m d : is_counter false expected = true -> is_id i = true -> check_command expected i m d = Returns (tt, d).
Proof using. intros Hc Hi. unfold check_command. by rewrite Hc, Hi. Qed.

Lemma lift_run {A} (m : outcome A) a d : m = Returns a -> lift m d = Returns (a, d).
Proof using. by intros ->. Qed.

Lemma body_forward_accepted st i n oid more : body_forward (MkResponse st (accepted_body i n oid more)) = i.
Proof using. done. Qed.

Lemma create_again a s key input d resp d' : control_ok d -> create_forward uuid now a s key input d = Returns (resp, d') ->
  create_forward uuid now a s key input d' = Returns (resp, d').
Proof using laws.
  intros Hok Hr. unfold create_forward in Hr |- *. destruct (parseForwardSpec input) as [sp|] eqn:Ep; [|done].
  apply tx_bind_Returns in Hr as (rq & d1 & [Hrq ->]%lift_Returns & Hr). rewrite (tx_bind_step _ _ _ _ _ (lift_run _ _ d' Hrq)).
  apply tx_bind_Returns in Hr as ([] & d1 & Hs & Hr). pose proof (reads_scope _ _ _ _ _ _ Hs) as <-.
  assert (Hcases : (exists replay, claim rq d = Returns (Some replay, d) /\ resp = replay /\ d' = d /\ exists x, record_of s (body_forward replay) d = Returns (x, d)) \/
    once rq (create_once uuid now a s rq sp) d = Returns (resp, d') /\ exists d2, create_once uuid now a s rq sp (with_idempotency (claim_row rq) d) = Returns (resp, d2) /\
      db_forwards d' = db_forwards d2).
  { apply tx_bind_Returns in Hr as (replay & d1 & Hc & Hr). destruct replay as [r|].
    - left. exists r. pose proof Hc as (E & _ & _ & Hx)%claim_spec. assert (d1 = d) as ->.
      { rewrite E. apply claim_row_present. unfold stored. destruct (db_idempotency d !! request_key rq) eqn:Es; [by eauto|]. unfold stored in Hx. by rewrite Es in Hx. }
      apply tx_bind_Returns in Hr as (x & d2 & Hrec & [-> ->]%mret_Returns). pose proof (reads_record_of _ _ _ _ _ Hrec) as <-. split_and!; try done. by exists x.
    - right. pose proof Hc as (-> & _)%claim_spec. split; [unfold once; apply tx_bind_Returns; by exists None, (with_idempotency (claim_row rq) d)|].
      apply tx_bind_Returns in Hr as (x & d2 & Hact & Hr). apply tx_bind_Returns in Hr as (? & d3 & Hp & [-> ->]%mret_Returns). exists d2. split; [done|].
      unfold respond in Hp. by apply modify_Returns in Hp as ->. }
  destruct Hcases as [(r & Hc & -> & -> & x & Hx)|(Ho & d2 & Hact & EF)].
  - rewrite (tx_bind_step _ _ _ _ _ Hs), (tx_bind_step _ _ _ _ _ Hc), (tx_bind_step _ _ _ _ _ Hx). done.
  - assert (Hid : db_identity d' = db_identity d) by (by apply (once_identity rq _ (aside_create_once a s rq sp)) in Ho).
    rewrite (tx_bind_step _ _ _ _ _ (scope_identity _ _ _ _ _ Hid Hs)).
    pose proof (once_again rq _ d resp d' (aside_create_once a s rq sp) Ho (throw "x" "x")) as Hagain. unfold once in Hagain.
    apply tx_bind_Returns in Hagain as (replay & d3 & Hc & Hr'). destruct replay as [r|]; [|done]. apply mret_Returns in Hr' as [<- <-].
    rewrite (tx_bind_step _ _ _ _ _ Hc). apply create_once_ok in Hact as (_ & _ & i & oid & _ & -> & [Hf _ _]); [|by apply (same_control_ok _ _ _ (claim_frame rq d))|by eapply parseForwardSpec_wf].
    rewrite body_forward_accepted. cbn in Hf. assert (Hrow : exists x, record_of s i d' = Returns (x, d')).
    { eexists. unfold record_of, find_forward, mbind, tx_bind, query. rewrite EF, Hf, lookup_insert_eq. unfold require, str_eqb. cbn.
      by rewrite bool_decide_eq_true_2. }
    destruct Hrow as [x Hx]. by rewrite (tx_bind_step _ _ _ _ _ Hx).
Qed.

(** A command that has returned is replayed: the same request changes nothing and gets the same response. *)
Lemma command_again a s c d resp d' : control_ok d -> run_command uuid now a s c d = Returns (resp, d') -> run_command uuid now a s c d' = Returns (resp, d').
Proof using laws.
  intros Hok Hr. destruct c as [key input|i key expected input|i key expected input|i key expected|key source expected]; cbn in Hr |- *; [by eapply create_again|..].
  - unfold update_forward in Hr |- *. apply tx_bind_Returns in Hr as ([] & d1 & (-> & Hc & Hi)%check_command_Returns & Hr).
    rewrite (tx_bind_step _ _ _ _ _ (check_command_run _ _ _ d' Hc Hi)). destruct (parseForwardSpec input) as [sp|]; [|done].
    apply tx_bind_Returns in Hr as (rq & d1 & [Hrq ->]%lift_Returns & Hr). rewrite (tx_bind_step _ _ _ _ _ (lift_run _ _ d' Hrq)).
    eapply guarded_again; [apply aside_update_once|exact Hr].
  - unfold apply_path in Hr |- *. apply tx_bind_Returns in Hr as ([] & d1 & (-> & Hc & Hi)%check_command_Returns & Hr).
    rewrite (tx_bind_step _ _ _ _ _ (check_command_run _ _ _ d' Hc Hi)). apply tx_bind_Returns in Hr as (sel & d1 & [Hsel ->]%lift_Returns & Hr).
    rewrite (tx_bind_step _ _ _ _ _ (lift_run _ _ d' Hsel)). apply tx_bind_Returns in Hr as (rq & d1 & [Hrq ->]%lift_Returns & Hr).
    rewrite (tx_bind_step _ _ _ _ _ (lift_run _ _ d' Hrq)). eapply guarded_again; [apply aside_apply_once|exact Hr].
  - unfold remove_forward in Hr |- *. apply tx_bind_Returns in Hr as ([] & d1 & (-> & Hc & Hi)%check_command_Returns & Hr).
    rewrite (tx_bind_step _ _ _ _ _ (check_command_run _ _ _ d' Hc Hi)). apply tx_bind_Returns in Hr as (rq & d1 & [Hrq ->]%lift_Returns & Hr).
    rewrite (tx_bind_step _ _ _ _ _ (lift_run _ _ d' Hrq)). eapply guarded_again; [apply aside_remove_once|exact Hr].
  - unfold retry_operation in Hr |- *. apply tx_bind_Returns in Hr as ([] & d1 & (-> & Hc & Hi)%check_command_Returns & Hr).
    rewrite (tx_bind_step _ _ _ _ _ (check_command_run _ _ _ d' Hc Hi)). apply tx_bind_Returns in Hr as (rq & d1 & [Hrq ->]%lift_Returns & Hr).
    rewrite (tx_bind_step _ _ _ _ _ (lift_run _ _ d' Hrq)). eapply guarded_again; [apply aside_retry_once|exact Hr].
Qed.
End Replay.
