(* ===== verification/Revocation.v ===== *)
(** Withdrawing authority takes effect at once: a Forward whose newest Operation is a
    revocation contributes to no Snapshot, and the commands that withdraw authority leave
    every affected Forward in that state. *)

From S2P Require Import Prelude.
From S2P Require Import JsString.
From S2P Require Import JsValue.
From S2P Require Import Primitives.
From S2P Require Import Json.
From S2P Require Import Forward.
From S2P Require Import Digest.
From S2P Require Import Types.
From S2P Require Import Validate.
From S2P Require Import Schema.
From S2P Require Import Relay.
From S2P Require Import Adp3.
From S2P Require Import Transit.
From S2P Require Import TargetPolicy.
From S2P Require Import Topology.
From S2P Require Import Planner.
From S2P Require Import SnapshotRegistry.
From S2P Require Import RelayPlan.
From S2P Require Import Store.
From S2P Require Import Idempotency.
From S2P Require Import Forwarding.
From S2P Require Import Operations.
From S2P Require Import Retirements.
From S2P Require Import Identity.
From S2P Require Import Nodes.
From S2P Require Import Profiles.
From S2P Require Import Reads.
From S2P Require Import RelayDeployments.
From S2P Require Import RelayCoordinator.
From S2P Require Import RelayFrame.
From S2P Require Import Execution.
From S2P Require Import Reconcile.
From S2P Require Import CommandState.
From S2P Require Import ForwardCommands.
From S2P Require Import AccessCommands.
From S2P Require Import CommandSafety.

Local Open Scope Z_scope.

(** ** Snapshots without a revoked Forward *)

(** The first match in a sorted list is the least one. *)
Lemma find_sorted {A} (p : A -> bool) (le : A -> A -> Prop) l x : StronglySorted le l -> x ∈ l -> p x = true ->
  (forall y, y ∈ l -> p y = true -> le y x -> y = x) -> find p l = Some x.
Proof.
  induction l as [|y l IH]; intros Hs Hx Hp Hmin; [by apply elem_of_nil in Hx|]. cbn. apply StronglySorted_inv in Hs as [Hs Hle].
  destruct (p y) eqn:Ey.
  - f_equal. apply elem_of_cons in Hx as [->|Hx]; [done|]. apply Hmin; [left|done|]. rewrite Forall_forall in Hle. by apply Hle.
  - apply elem_of_cons in Hx as [->|Hx]; [congruence|]. apply IH; try done. intros z Hz. apply Hmin. by right.
Qed.

Lemma compileDirect_forward `{Hashing} f n slots phase drain l : compileDirect f n slots phase drain = Returns l -> Forall (fun a => rua_forwardId a = id f) l.
Proof.
  unfold compileDirect. intros Hr. run_inv. destruct (reparse f) as [parsed|]; [|done]. run_inv. subst l.
  rewrite sort_by_perm. match goal with Hm : map_each _ _ = Returns _ |- _ => apply map_each_Returns in Hm; revert Hm end.
  clear. intros Hm. induction Hm as [|p a ps l Ha _ IH]; constructor; [|done]. unfold direct_assignment in Ha.
  destruct (matching_slots _ _ _ _ _) as [|s [|]]; [done| |done]. run_inv. by subst a.
Qed.

(** The newest Operation of the Forward, which has reached its revision, revokes it. *)
Definition revoked_now (f : Forward) (d : Db) : Prop := exists i o, Operations.newest d (id f) i o /\ op_kind o = k_revoke /\ op_target_revision o = revision f.

Lemma revoked_direct `{Hashing} auth now n inc fs slots f d : revoked_now f d -> id f ∈ map id fs ->
  forall rows d1, select db_operations (fun _ o => includes (map id fs) (op_forward_id o)) d = Returns (rows, d1) ->
  forward_assignments auth now n inc (sort_by (fun a b => older b a) rows) slots f d = Returns ([], d).
Proof.
  intros (i & o & (Hi & Hf & Hnew) & Hk & Ht) Hin rows d1 [-> Hrows]%select_Returns. unfold forward_assignments.
  rewrite (find_sorted _ (fun a b => older b a = true) _ (i, o)).
  - rewrite Hk. cbn. rewrite bool_decide_eq_true_2 by done. by repeat case_match.
  - apply Sorted_StronglySorted; [intros a b c Ha Hb; by eapply older_trans|]. apply sort_by_sorted. intros a b. apply older_total.
  - rewrite sort_by_perm. apply Hrows. split; [done|]. rewrite Hf. by apply includes_true.
  - cbn. unfold str_eqb. by rewrite bool_decide_eq_true_2, Ht, Z.eqb_refl.
  - intros [j p] Hp Hm Hle. rewrite sort_by_perm in Hp. apply Hrows in Hp as [Hp _]. cbn in Hm. apply andb_prop in Hm as [Hpf%bool_decide_eq_true Hpt%Z.eqb_eq].
    destruct (decide (j = i)) as [->|Hne]; [congruence|]. pose proof (Hnew j p Hp Hpf Hne) as Hnw. apply newer_iff in Hnw. cbn in Hnw.
    destruct Hnw as [Hlt|[_ Hold]]; [lia|]. rewrite older_iff in Hle, Hold. cbn in *. destruct Hne. apply str_leb_antisym; intuition lia.
Qed.

Section Silence.
Context `{Hashing, Schema RelayProfileConfig, Schema RelayOpen, Schema RelayAssignment, Adp2Schemas, Adp3Schemas, Locale}.
Context (policy : Policy) (multihopEnabled : bool).

Lemma revoked_relay now nodeId inc r f d l d1 : revoked_now f d -> dp_forward r = id f ->
  deployment_assignments policy multihopEnabled now nodeId inc r d = Returns (l, d1) -> l = [].
Proof using.
  intros (i & o & Hn & Hk & _) Er Hr. unfold deployment_assignments in Hr. apply tx_bind_Returns in Hr as (plan & d2 & Hp & Hr).
  apply reads_plan_of in Hp as <-. apply tx_bind_Returns in Hr as (pub & d2 & Hpub & Hr). unfold publishablePlan in Hpub.
  rewrite Er in Hpub. rewrite (tx_bind_step _ _ _ _ _ (latest_newest _ _ _ _ Hn)) in Hpub. rewrite Hk in Hpub.
  rewrite bool_decide_eq_true_2 in Hpub by done. rewrite orb_true_r in Hpub. cbn in Hpub. apply mret_Returns in Hpub as [-> ->]. cbn [negb] in Hr. by apply mret_Returns in Hr as [-> _].
Qed.

(** The assignments of every stored plan are of the Forward it is stored for. *)
Definition plans_own (d : Db) : Prop := forall k r, db_relay_deployments d !! k = Some r ->
  forall node a, node ∈ rpp_nodes (dp_body r) -> a ∈ pnd_assignments node -> rua_forwardId a = k.1.

Lemma relay_forward now nodeId inc r d l d1 : (forall node a, node ∈ rpp_nodes (dp_body r.2) -> a ∈ pnd_assignments node -> rua_forwardId a = dp_forward r) ->
  deployment_assignments policy multihopEnabled now nodeId inc r d = Returns (l, d1) -> Forall (fun a => rua_forwardId a = dp_forward r) l.
Proof using.
  intros Ho Hr. unfold deployment_assignments in Hr. apply tx_bind_Returns in Hr as (plan & d2 & Hp & Hr).
  assert (plan = dp_body r.2) as -> by (unfold plan_of in Hp; by tx_inv).
  apply tx_bind_Returns in Hr as (pub & d3 & _ & Hr). destruct (negb pub); [tx_inv; constructor|].
  destruct (find _ _) as [node|] eqn:Ef; [|done]. apply find_some in Ef as [Hn%list_elem_of_In _].
  assert (Hm : forall g : RuntimeAssignment -> Phase, Forall (fun a => rua_forwardId a = dp_forward r) (map (fun a => with_phase (g a) a) (pnd_assignments node))).
  { intros g. apply Forall_map, Forall_forall. intros a Ha. cbn. by eapply Ho. }
  destruct (rpp_path _) as [path|]; [|tx_inv; apply (Hm (fun a => phase_of (pair_active r.2 a)))].
  apply tx_bind_Returns in Hr as (safe & d4 & _ & Hr). destruct (negb safe); [tx_inv; constructor|].
  cbn zeta in Hr. destruct (negb inc && _); [tx_inv; constructor|]. tx_inv. apply (Hm (fun _ => _)).
Qed.

Lemma collect_Forall {A B} (P : B -> Prop) (body : A -> tx (list B)) l d ls d1 :
  (forall x b d1, x ∈ l -> body x d = Returns (b, d1) -> d1 = d /\ Forall P b) -> collect_each body l d = Returns (ls, d1) -> Forall P (concat ls).
Proof using.
  revert ls d1. induction l as [|x l IH]; intros ls d1 Hb Hr; cbn in Hr; [tx_inv; constructor|].
  apply tx_bind_Returns in Hr as (b & d2 & Hx & Hr). apply tx_bind_Returns in Hr as (rest & d3 & Hrest & [-> ->]%mret_Returns).
  destruct (Hb x b d2) as [-> HP]; [left|done|]. cbn. apply Forall_app. split; [done|]. eapply IH; [|exact Hrest]. intros y b' d4 Hy. apply Hb. by right.
Qed.

Lemma relay_silent now nodeId inc f d l d1 : revoked_now f d -> plans_own d -> relay_assignments policy multihopEnabled now nodeId inc d = Returns (l, d1) ->
  Forall (fun a => rua_forwardId a <> id f) l.
Proof using.
  intros Hrev Hown Hr. unfold relay_assignments in Hr. apply tx_bind_Returns in Hr as (rs & d2 & [-> ->]%query_Returns & Hr).
  apply tx_bind_Returns in Hr as (ls & d3 & Hc & [-> ->]%mret_Returns). eapply collect_Forall; [clear Hc|exact Hc].
  intros r b d4 Hin Hb. assert (E : evolves eq (deployment_assignments policy multihopEnabled now nodeId inc r)) by (unfold deployment_assignments; evolve).
  split; [symmetry; by eapply E|].
  destruct (decide (dp_forward r = id f)) as [Er|Hne].
  - apply (revoked_relay _ _ _ _ f) in Hb as ->; [constructor|done..].
  - assert (Hr : db_relay_deployments d !! r.1 = Some r.2).
    { unfold node_deployments in Hin. rewrite sort_by_perm, list_elem_of_In, filter_In, <- list_elem_of_In in Hin. destruct Hin as [Hin _].
      destruct r. by apply elem_of_map_to_list in Hin. }
    eapply Forall_impl; [eapply relay_forward; [|exact Hb]|]; [|cbn; by intros a ->]. intros node a Hnode Ha. by eapply (Hown r.1 r.2).
Qed.

(** No Snapshot compiled from the state runs the Forward. *)
Definition silenced (f : Forward) (d : Db) : Prop := forall now n inc l d1,
  node_assignments policy multihopEnabled now n inc d = Returns (l, d1) -> Forall (fun a => rua_forwardId a <> id f) l.

Lemma merge_silent now ctx direct f d l d1 : revoked_now f d -> plans_own d -> Forall (fun a => rua_forwardId a <> id f) direct ->
  merge_relay policy multihopEnabled now ctx direct d = Returns (l, d1) -> Forall (fun a => rua_forwardId a <> id f) l.
Proof using.
  intros Hrev Hown Hd Hr. unfold merge_relay in Hr. apply tx_bind_Returns in Hr as (reg & d2 & [Hreg ->]%lift_Returns & [Hm ->]%lift_Returns).
  apply merge_iff in Hm as (_ & _ & cs & HF & _ & ->). rewrite sort_by_perm. apply Forall_app. split; [done|].
  apply Forall_concat. unfold new_SnapshotAssignmentRegistry in Hreg. apply bind_Returns in Hreg as ([[ids owned] l0] & Hf & [= <-]).
  apply registered in Hf as (new & Hmap & E & _). cbn in Hmap, E. subst l0. destruct new as [|s [|]]; try discriminate Hmap. injection Hmap as Hi Hc.
  cbn in HF. inversion HF as [|s' c reg' cs' [Hcol _] Hrest]; subst. inversion Hrest; subst. constructor; [|constructor].
  rewrite Hc in Hcol. destruct (relay_assignments _ _ _ _ _ d) as [[l d2]|] eqn:El; [|done]. injection Hcol as <-. by eapply relay_silent.
Qed.

Lemma revoked_silent f row d : revoked_now f d -> plans_own d -> current_forward d f row -> silenced f d.
Proof using.
  intros Hrev Hown [Hrow Ef] now n inc l d1 Hr. unfold node_assignments, assignments in Hr.
  apply tx_bind_Returns in Hr as (all & d2 & (-> & _ & Hall)%select_forwards_Returns & Hr). cbn zeta in Hr.
  set (fs := List.filter _ all) in *. destruct fs as [|f0 fs'] eqn:Efs; [eapply merge_silent; [done|done|constructor|exact Hr]|].
  rewrite <- Efs in Hr. assert (Hin : forall g, g ∈ fs -> id g = id f -> g = f).
  { intros g Hg Eg. assert (Hg' : g ∈ all) by (unfold fs in Hg; rewrite list_elem_of_In, filter_In, <- list_elem_of_In in Hg; apply Hg).
    apply Hall in Hg' as (row' & Hrow' & _ & ->). rewrite Eg in *. assert (row' = row) as -> by congruence. by rewrite Ef at 2. }
  clear Efs. apply tx_bind_Returns in Hr as (rows & d2 & Hsel & Hr). pose proof Hsel as [-> _]%select_Returns.
  apply tx_bind_Returns in Hr as (slots & d2 & [-> _]%select_Returns & Hr). apply tx_bind_Returns in Hr as (direct & d2 & Hd & Hr).
  assert (E : forall g, evolves eq (forward_assignments (Some (Nodes.canExecute now)) now n inc (sort_by (fun a b => older b a) rows) slots g)).
  { intros g. unfold forward_assignments. evolve. }
  pose proof (evolves_collect_each eq _ fs E _ _ _ Hd) as <-. eapply merge_silent; [done|done| |exact Hr].
  eapply collect_Forall; [|exact Hd].
  intros g b d2 Hg Hb. pose proof (E g _ _ _ Hb) as <-. split; [done|]. destruct (decide (id g = id f)) as [Eg|Hne].
  - rewrite (Hin g Hg Eg) in Hb. rewrite (revoked_direct _ _ _ _ fs _ _ _ Hrev) with (d1 := d) (rows := rows) in Hb; [by injection Hb as <-| |exact Hsel].
    rewrite <- Eg. by apply list_elem_of_fmap_2.
  - assert (Hb' : Forall (fun a => rua_forwardId a = id g) b); [|eapply Forall_impl; [exact Hb'|cbn; by intros a ->]].
    unfold forward_assignments in Hb. destruct (find _ _) as [[i o]|]; [|apply mret_Returns in Hb as [-> _]; constructor].
    destruct (negb _); [apply mret_Returns in Hb as [-> _]; constructor|]. destruct (negb _); [apply mret_Returns in Hb as [-> _]; constructor|]. destruct (bool_decide _); [apply mret_Returns in Hb as [-> _]; constructor|].
    apply tx_bind_Returns in Hb as (a & d3 & _ & Hb). apply tx_bind_Returns in Hb as (ok & d4 & _ & Hb).
    destruct (negb ok); [apply mret_Returns in Hb as [-> _]; constructor|]. destruct (_ || _ || _); [apply mret_Returns in Hb as [-> _]; constructor|]. apply lift_Returns in Hb as [Hb _].
    by eapply compileDirect_forward.
Qed.
End Silence.

(** ** Runs of [accepts] *)

Lemma denied_quiet e d d' : denied e d d' -> quiet d d'.
Proof.
  intros [[[E _] _] O]%denied_step. unfold beside in E. split_and!; [congruence..|exact O].
Qed.

Section AcceptsControl.
Context `{Hashing, Schema RelayProfileConfig}.

Lemma accepts_control rq l d d' : accepts rq l d d' -> control_ok d -> (forall e, e ∈ l -> exists row, current_forward d (en_forward e) row) ->
  control_ok d' /\ control_le d d'.
Proof using.
  induction 1 as [d d' Hp%plan_control|e l clock d d1 d2 d3 d' Hp%plan_control Hacc Hden _ IH]; intros Hok Hcur; [by apply same_control_ok|].
  destruct (same_control_ok _ _ _ Hp Hok) as [K1 L1]. unfold same_control, control_frame in Hp. assert (EF : db_forwards d1 = db_forwards d) by congruence.
  destruct (Hcur e ltac:(left)) as (row & Hrow & Ef).
  edestruct (accept_ok _ _ _ _ _ _ _ _ row _ _ _ Hacc K1) as (K2 & L2 & _ & _); [by rewrite EF|by rewrite Ef|by rewrite Ef|].
  pose proof (denied_quiet _ _ _ Hden) as Hq. destruct (quiet_ok _ _ _ Hq K2) as [K3 L3].
  pose proof Hacc as ([E2 _] & _)%work_accept. assert (E3 : db_forwards d3 = db_forwards d).
  { destruct Hq as (E & _). unfold beside in E2. congruence. }
  destruct IH as [K4 L4]; [done| |].
  { intros e' He'. destruct (Hcur e' ltac:(by right)) as (row' & Hrow' & Ef'). exists row'. split; [by rewrite E3|done]. }
  split; [done|]. transitivity d1; [done|]. transitivity d2; [done|]. by transitivity d3.
Qed.

(** Every Forward of [fs] is revoked by an Operation of [ids], none of them runs any more, and
    what their Nodes may still run ends by [until_]. *)
Record withdrawn (policy : Policy) (multihopEnabled : bool) (rq : RequestIdentity) (fs : list Forward) (ids : list jsstr) (until_ : option Z) (d d' : Db)
    `{Schema RelayOpen, Schema RelayAssignment, Adp2Schemas, Adp3Schemas, Locale} : Prop := {
  wd_entries : exists l, map en_forward l = fs /\ map en_operation l = ids /\ Forall (fun e => taken_over rq e d' /\ en_kind e = k_revoke) l;
  wd_silent : plans_own d' -> forall f, f ∈ fs -> silenced policy multihopEnabled f d';
  wd_leases : forall f n, f ∈ fs -> n ∈ node_sequence (spec f) -> bounds_leases n until_ d';
  wd_others : forall g, g ∉ map id fs -> same_ops g d d';
  wd_control : control_ok d' /\ control_le d d';
}.

Lemma refines_withdrawn policy mh rq fs P res d d' `{Schema RelayOpen, Schema RelayAssignment, Adp2Schemas, Adp3Schemas, Locale} :
  control_ok d -> NoDup (map id fs) -> (forall f, f ∈ fs -> exists row, current_forward d f row) -> refines rq fs P res d d' ->
  (forall e, P e -> en_kind e = k_revoke) -> withdrawn policy mh rq fs (ar_operationIds res) (ar_maximumAuthorization res) d d'.
Proof using.
  intros Hok HN Hcur [(l & Hl & <- & Hids & HP) Hb] Hk.
  assert (Hrow : forall e, e ∈ l -> exists row, current_forward d (en_forward e) row) by (intros e He; apply Hcur, list_elem_of_fmap_2, He).
  destruct (accepts_run rq l d d' Hl) as [HT HO _ _ _]; [by rewrite map_map in HN| |].
  { apply Forall_forall. intros e He i o Ho Hf. destruct (Hrow e He) as (row & Hr & Ef). destruct (ck_targets _ _ Hok i o Ho) as (row' & Hr' & _ & Hle).
    unfold en_id in Hf. rewrite Hf in Hr'. assert (row' = row) as -> by congruence. by rewrite Ef. }
  assert (Hall : Forall (fun e => taken_over rq e d' /\ en_kind e = k_revoke) l).
  { rewrite Forall_forall in HT, HP |- *. intros e He. split; [by apply HT|by apply Hk, HP]. }
  split; [by exists l| |exact Hb| |by eapply accepts_control].
  - intros Hown f (e & -> & He)%list_elem_of_fmap. rewrite Forall_forall in Hall. destruct (Hall e He) as [[(o & Hn & Hko & _ & Ht & _) _] Hke].
    destruct (Hrow e He) as (row & Hr & Ef). apply (revoked_silent _ _ _ row); [|done|].
    + exists (en_operation e), o. split_and!; [done|congruence|done].
    + split; [|done]. by rewrite (beside_forwards _ _ (accepts_beside _ _ _ _ Hl)).
  - intros g Hg. apply HO. by rewrite map_map in Hg.
Qed.

(** Recording an audit event or the response keeps it so. *)
Lemma withdrawn_after policy mh rq fs ids u d d1 d' `{Schema RelayOpen, Schema RelayAssignment, Adp2Schemas, Adp3Schemas, Locale} :
  withdrawn policy mh rq fs ids u d d1 -> (forall f, f ∈ fs -> exists row, current_forward d f row) -> same_control d1 d' -> db_leases d' = db_leases d1 ->
  db_forwards d1 = db_forwards d -> withdrawn policy mh rq fs ids u d d'.
Proof using.
  intros [(l & <- & Hids & HF) Hs Hb Ho [K L]] Hcur E El Ed1. pose proof E as E'. unfold same_control, control_frame in E'.
  assert (EF : db_forwards d' = db_forwards d1) by congruence. assert (EO : db_operations d' = db_operations d1) by congruence.
  assert (HT : Forall (fun e => taken_over rq e d' /\ en_kind e = k_revoke) l).
  { eapply Forall_impl; [exact HF|]. cbn. intros e [Ht Hk]. split; [|done]. eapply taken_over_same; [|exact Ht]. by apply same_ops_eq. }
  split; [by exists l| | | |].
  - intros Hown f (e & -> & He)%list_elem_of_fmap. rewrite Forall_forall in HT. destruct (HT e He) as [[(o & Hn & Hko & _ & Ht & _) _] Hke].
    destruct (Hcur (en_forward e)) as (row & Hr & Ef); [by apply list_elem_of_fmap_2|]. apply (revoked_silent _ _ _ row); [|done|].
    + exists (en_operation e), o. split_and!; [done|congruence|done].
    + split; [|done]. by rewrite EF, Ed1.
  - intros f n Hf Hn. unfold bounds_leases. rewrite El. by apply (Hb f n).
  - intros g Hg. transitivity d1; [by apply Ho|by apply same_ops_eq].
  - destruct (same_control_ok _ _ _ E K) as [K' L']. split; [done|by transitivity d1].
Qed.
End AcceptsControl.

(** ** The commands *)

(** The tables of the ledger and of the Forwards, untouched. *)
Definition ledger_frame (d : Db) := (control_frame d, db_leases d).
Definition same_ledger (d d' : Db) : Prop := ledger_frame d' = ledger_frame d.

#[export] Instance same_ledger_preorder : PreOrder same_ledger.
Proof. split; [by intros d|]. unfold same_ledger. intros d d1 d2 E1 E2. congruence. Qed.

#[export] Hint Extern 5 (evolves same_ledger _) => apply evolves_reads; [apply _|] : evolves.
#[export] Hint Extern 3 (evolves same_ledger (modify _)) => by apply evolves_modify : evolves.

Lemma ledger_claim r : evolves same_ledger (claim r).
Proof. intros d res d' (-> & _)%claim_spec. done. Qed.

Lemma ledger_respond r resp : evolves same_ledger (respond r resp).
Proof. unfold respond. by apply evolves_modify. Qed.

Lemma reads_owner a s : evolves eq (owner a s).
Proof. unfold owner. evolve. Qed.
#[export] Hint Resolve reads_owner : evolves.

Lemma reads_authorizationUntil u : evolves eq (authorizationUntil u).
Proof. unfold authorizationUntil, iso_json. evolve. Qed.

Lemma ledger_changeMember `{Hashing} now o s subject z role token : evolves same_ledger (changeMember now o s subject z role token).
Proof. unfold changeMember, check_account, audit_access, invalid_input. evolve. Qed.

Lemma ledger_changeGrant now o s n subject z allowed : evolves same_ledger (changeGrant now o s n subject z allowed).
Proof. unfold changeGrant, management, hasGrant, audit_access, notFound. evolve. Qed.

Lemma ledger_applyManagement now a s n c : evolves same_ledger (applyManagement now a s n c).
Proof. unfold applyManagement, management, storePolicy, markRevoked, notFound. evolve. Qed.

Lemma acted_by_forwards s a d d' f : db_forwards d' = db_forwards d -> acted_by s a d' f <-> acted_by s a d f.
Proof. intros E. unfold acted_by, current_forward. by rewrite E. Qed.

Lemma referencing_forwards n d d' f : db_forwards d' = db_forwards d -> referencing n d' f <-> referencing n d f.
Proof. intros E. unfold referencing, current_forward. by rewrite E. Qed.

Section Withdrawal.
Context `{Hashing, Schema RelayProfileConfig, Schema RelayOpen, Schema RelayAssignment, Adp2Schemas, Adp3Schemas, Locale}.
Context (policy : Policy) (multihopEnabled : bool) (uuid : Db -> jsstr) (now : Z).

(** A first execution: what happens between the claim and the response. *)
Lemma once_first_run r action d resp d' : stored r d = None -> once r action d = Returns (resp, d') ->
  exists d1 d2, same_ledger d d1 /\ action d1 = Returns (resp, d2) /\ same_ledger d2 d'.
Proof using.
  intros Hn Hr. destruct (once_cases _ _ _ _ _ Hr) as [(row & Hs & _)|(d2 & _ & Ha & Hp)]; [congruence|].
  exists (with_idempotency (claim_row r) d), d2. split_and!; [done|done|by eapply ledger_respond].
Qed.

Lemma withdrawn_ledger rq fs ids u d0 d d1 d' : withdrawn policy multihopEnabled rq fs ids u d d1 ->
  (forall f, f ∈ fs -> exists row, current_forward d f row) -> db_forwards d1 = db_forwards d -> same_ledger d0 d -> same_ledger d1 d' -> control_ok d0 ->
  withdrawn policy multihopEnabled rq fs ids u d0 d'.
Proof using.
  intros Hw Hcur Ed E0 E1 K0. unfold same_ledger, ledger_frame in E0, E1.
  destruct (withdrawn_after _ _ _ _ _ _ _ _ d' Hw Hcur) as [A B C D [K L]]; [unfold same_control; congruence|congruence|done|].
  assert (E : same_control d0 d) by (unfold same_control; congruence). split; [done|done|done| |].
  - intros g Hg. transitivity d; [|by apply D]. apply same_ops_eq. unfold same_control, control_frame in E. congruence.
  - destruct (same_control_ok _ _ _ E K0) as [_ L0]. split; [done|by transitivity d].
Qed.

Lemma refines_forwards rq fs P res d d' : refines rq fs P res d d' -> db_forwards d' = db_forwards d.
Proof using. intros [(l & Hl & _) _]. apply beside_forwards. by eapply accepts_beside. Qed.


End Withdrawal.
