(* ===== verification/ControlSafety.v ===== *)
(** The commands together: the invariant they share, and that each of them does what it
    says exactly once. *)

From S2P Require Import Prelude.
From S2P Require Import JsString.
From S2P Require Import JsValue.
From S2P Require Import Primitives.
From S2P Require Import Json.
From S2P Require Import Forward.
From S2P Require Import Digest.
From S2P Require Import Types.
From S2P Require Import Validate.
From S2P Require Import Schema.
From S2P Require Import Relay.
From S2P Require Import Adp3.
From S2P Require Import Transit.
From S2P Require Import TargetPolicy.
From S2P Require Import Planner.
From S2P Require Import RelayPlan.
From S2P Require Import PathContract.
From S2P Require Import Store.
From S2P Require Import Idempotency.
From S2P Require Import Forwarding.
From S2P Require Import Operations.
From S2P Require Import Identity.
From S2P Require Import Nodes.
From S2P Require Import Profiles.
From S2P Require Import Reads.
From S2P Require Import PathTemplates.
From S2P Require Import PathBindings.
From S2P Require Import RelayDeployments.
From S2P Require Import RelayCoordinator.
From S2P Require Import RelayFrame.
From S2P Require Import Execution.
From S2P Require Import Reconcile.
From S2P Require Import CommandState.
From S2P Require Import ForwardCommands.
From S2P Require Import AccessCommands.
From S2P Require Import CommandSafety.
From S2P Require Import Revocation.

Local Open Scope Z_scope.

(** ** Template commands keep the invariant *)

Definition template_frame (d : Db) := (db_forwards d, db_forward_revisions d, db_operations d, db_bindings d, db_current_bindings d).
Definition beside_templates (d d' : Db) : Prop := template_frame d' = template_frame d.

#[export] Instance beside_templates_preorder : PreOrder beside_templates.
Proof. split; [by intros d|]. unfold beside_templates. intros d d1 d2 E1 E2. congruence. Qed.

#[export] Hint Extern 5 (evolves beside_templates _) => apply evolves_reads; [apply _|] : evolves.
#[export] Hint Extern 3 (evolves beside_templates (modify _)) => by apply evolves_modify : evolves.

Section Templates.
Context `{Hashing, Schema RelayProfileConfig}.

Lemma beside_once r action : evolves beside_templates action -> evolves beside_templates (once r action).
Proof using.
  intros Ha. unfold once. evolve; try done; [intros d res d' (-> & _)%claim_spec; done|by unfold respond; apply evolves_modify].
Qed.

Lemma beside_command now a s t key z config : evolves beside_templates (template_command now a s t key z config).
Proof using.
  unfold template_command, invalid_input. evolve. apply beside_once.
  unfold template_once, current_template, template_head, template_revision, validateTemplateHead, integrity, publish_template, archive_template,
    store_template, store_archive, audit_template, notFound, insert_row. evolve.
Qed.

Lemma template_tables open d d' : beside_templates d d' -> templates_ok d' -> templates_le d d' -> control_but open d -> control_but open d' /\ control_le d d'.
Proof using.
  intros E TK TL [Hh Hi Ht Ha Htp Hb]. unfold beside_templates, template_frame in E.
  assert (EF : db_forwards d' = db_forwards d) by congruence. assert (ER : db_forward_revisions d' = db_forward_revisions d) by congruence.
  assert (EO : db_operations d' = db_operations d) by congruence. assert (EB : db_bindings d' = db_bindings d) by congruence.
  assert (HF : forall f row, db_forwards d !! f = Some row -> exists row', db_forwards d' !! f = Some row' /\ row_le row row').
  { intros f row. rewrite EF. intros Hr. exists row. split; [done|reflexivity]. }
  pose proof (ops_step_same d d' EO) as O. split; split; try done.
  - by eapply history_same.
  - unfold intents_ok. by rewrite EF.
  - by eapply targets_step.
  - by eapply ops_step_active.
  - eapply (bindings_frame _ _ d d'); [done|congruence|apply TL|by rewrite ER| |exact Hb]. intros f row Hr. exists row. by rewrite EF.
  - unfold history_grows. by rewrite ER.
  - apply O.
  - by rewrite EB.
Qed.
End Templates.

(** ** The access commands keep the invariant *)

Lemma ledger_applyGrant now a s p subject z allowed : evolves same_ledger (applyGrant now a s p subject z allowed).
Proof. unfold applyGrant, hasLiveRelay, notFound. evolve. Qed.

Lemma ledger_control d d' : same_ledger d d' -> same_control d d'.
Proof. unfold same_ledger, ledger_frame, same_control. congruence. Qed.

Section AccessControl.
Context `{Hashing, Schema RelayProfileConfig}.

Lemma refines_control rq fs P res d d' : refines rq fs P res d d' -> (forall f, f ∈ fs -> exists row, current_forward d f row) -> control_ok d ->
  control_ok d' /\ control_le d d'.
Proof using.
  intros [(l & Hl & <- & _) _] Hcur Hok. eapply accepts_control; [exact Hl|done|]. intros e He. by apply Hcur, list_elem_of_fmap_2.
Qed.

Lemma after_ledger (d d1 d2 d3 : Db) : control_ok d -> same_ledger d d1 -> (control_ok d1 -> control_ok d2 /\ control_le d1 d2) -> same_ledger d2 d3 ->
  control_ok d3 /\ control_le d d3.
Proof using.
  intros K E1%ledger_control Hm E2%ledger_control. destruct (same_control_ok _ _ _ E1 K) as [K1 L1]. destruct (Hm K1) as [K2 L2].
  destruct (same_control_ok _ _ _ E2 K2) as [K3 L3]. split; [done|]. transitivity d1; [done|by transitivity d2].
Qed.

Lemma member_once_ok `{AccessLaws} now a s subject rq z role token d resp d' : control_ok d ->
  member_once now a s subject rq z role token d = Returns (resp, d') -> control_ok d' /\ control_le d d'.
Proof using.
  intros Hok Hr. unfold member_once in Hr. apply tx_bind_Returns in Hr as (m & d1 & Hm & Hr). apply ledger_changeMember in Hm.
  apply tx_bind_Returns in Hr as (res & d2 & Heff & Hr). apply tx_bind_Returns in Hr as (u & d3 & Hu & [_ ->]%mret_Returns).
  apply reads_authorizationUntil in Hu as <-. eapply after_ledger; [done|exact Hm| |reflexivity]. intros K1. destruct (mc_changed m) eqn:Ec.
  - apply member_refines in Heff as (fs & _ & Hfs & Href); [|done]. eapply refines_control; [exact Href| |done]. intros f (row & Hrow & _)%Hfs. by exists row.
  - unfold member_effects in Heff. rewrite Ec in Heff. apply mret_Returns in Heff as [_ ->]. split; [done|reflexivity].
Qed.

Lemma node_grant_once_ok `{AccessLaws} now a s n subject rq z allowed d resp d' : control_ok d ->
  node_grant_once now a s n subject rq z allowed d = Returns (resp, d') -> control_ok d' /\ control_le d d'.
Proof using.
  intros Hok Hr. unfold node_grant_once in Hr. apply tx_bind_Returns in Hr as (m & d1 & Hm & Hr). apply ledger_changeGrant in Hm.
  apply tx_bind_Returns in Hr as (res & d2 & Heff & Hr). apply tx_bind_Returns in Hr as (u & d3 & Hu & [_ ->]%mret_Returns).
  apply reads_authorizationUntil in Hu as <-. eapply after_ledger; [done|exact Hm| |reflexivity]. intros K1. destruct (ng_changed m) eqn:Ec.
  - apply nodeGrant_refines in Heff as (fs & _ & Hfs & Href & _); [|done]. eapply refines_control; [exact Href| |done].
    intros f [(row & Hrow & _) _]%Hfs. by exists row.
  - unfold nodeGrant_effects in Heff. rewrite Ec in Heff. apply tx_bind_Returns in Heff as (acc & d4 & [-> ->]%mret_Returns & Heff).
    apply tx_bind_Returns in Heff as ([] & d4 & Hv & Heff). apply validate_reads in Hv as <-. apply tx_bind_Returns in Heff as (w & d4 & [-> _]%cutoff_Returns & [_ ->]%mret_Returns).
    split; [done|reflexivity].
Qed.

Lemma node_change_once_ok `{NodeManagementLaws} now a s n rq c d resp d' : control_ok d ->
  node_change_once now a s n rq c d = Returns (resp, d') -> control_ok d' /\ control_le d d'.
Proof using.
  intros Hok Hr. unfold node_change_once in Hr. apply tx_bind_Returns in Hr as (m & d1 & Hm & Hr). apply ledger_applyManagement in Hm.
  apply tx_bind_Returns in Hr as (res & d2 & Heff & Hr). cbn zeta in Hr. apply tx_bind_Returns in Hr as ([] & d3 & Hau & Hr).
  unfold audit_node in Hau. apply modify_Returns in Hau. apply tx_bind_Returns in Hr as (u & d4 & Hu & [_ ->]%mret_Returns).
  apply reads_authorizationUntil in Hu as <-. eapply (after_ledger d d1 d2 d3); [done|exact Hm| |by subst d3]. intros K1.
  apply node_change_refines in Heff as (fs & _ & Hfs & Href & _). eapply refines_control; [exact Href| |done]. intros f (row & Hrow & _)%Hfs. by exists row.
Qed.

Lemma profile_grant_once_ok `{ForwardAuthorizationLaws} now a s p subject rq z allowed d resp d' : control_ok d ->
  profile_grant_once now a s p subject rq z allowed d = Returns (resp, d') -> control_ok d' /\ control_le d d'.
Proof using.
  intros Hok Hr. unfold profile_grant_once in Hr. apply tx_bind_Returns in Hr as (m & d1 & Hm & Hr). apply ledger_applyGrant in Hm.
  apply tx_bind_Returns in Hr as (ids & d2 & Heff & [_ ->]%mret_Returns). eapply (after_ledger d d1 d2 d2); [done|exact Hm| |reflexivity]. intros K1.
  destruct (tgs_changed m); [|apply mret_Returns in Heff as [_ ->]; split; [done|reflexivity]].
  apply profile_grant_refines in Heff as (l & _ & Hfs & Hl & _). eapply accepts_control; [exact Hl|done|].
  intros e He. destruct (proj1 (Hfs (en_forward e))) as (row & Hrow & _); [by apply list_elem_of_fmap_2|by exists row].
Qed.
End AccessControl.

(** ** Every sequence of commands *)

Lemma next_of_same f s : s = spec f -> next_of f s = f.
Proof. intros ->. unfold next_of. by rewrite decide_True. Qed.

Lemma next_of_new f s : spec_wf s -> spec_wf (spec f) -> s <> spec f -> next_of f s = MkForward (id f) (scopeId f) (revision f + 1) s.
Proof. intros Hs Hf Hn. unfold next_of. rewrite decide_False; [done|]. intros E. by apply Hn, spec_stringify_inj. Qed.

Section Control.
Context `{Hashing, Schema RelayProfileConfig, Schema RelayOpen, Schema RelayAssignment, Adp2Schemas, Adp3Schemas, Locale}.
Context (policy : Policy) (multihopEnabled : bool) (uuid : Db -> jsstr).

(** The commands as the application assembles them. *)
Definition control_preparation (now : Z) : ForwardCommandPreparation :=
  command_preparation policy multihopEnabled now (execution := control_execution policy multihopEnabled uuid now).

#[export] Instance control_preparation_laws now : @ForwardCommandLaws (control_preparation now).
Proof using. exact (command_preparation_laws policy multihopEnabled now (laws := control_execution_laws policy multihopEnabled uuid now)). Qed.

Definition control_command (now : Z) (actor s : jsstr) (c : ForwardCommand) : tx Response := @run_command _ _ (control_preparation now) uuid now actor s c.

Inductive control_step : Db -> Db -> Prop :=
  | st_forward now actor s c resp d d' : control_command now actor s c d = Returns (resp, d') -> control_step d d'
  | st_member now actor s subject key z role token resp d d' :
      @change_member _ (control_access policy multihopEnabled uuid now) now actor s subject key z role token d = Returns (resp, d') -> control_step d d'
  | st_node_grant now actor s n subject key z allowed resp d d' :
      @change_node_grant _ (control_access policy multihopEnabled uuid now) now actor s n subject key z allowed d = Returns (resp, d') -> control_step d d'
  | st_node now actor s n key c resp d d' :
      @change_node _ (control_nodes policy multihopEnabled uuid now) now actor s n key c d = Returns (resp, d') -> control_step d d'
  | st_profile_grant now actor s p subject key z allowed resp d d' :
      @change_profile_grant _ (control_execution policy multihopEnabled uuid now) now actor s p subject key z allowed d = Returns (resp, d') -> control_step d d'
  | st_template now actor s t key z config resp d d' : (forall c, config = Some c -> template_wf c) ->
      template_command now actor s t key z config d = Returns (resp, d') -> control_step d d'
  | st_other d d' : quiet d d' -> control_step d d'.

Lemma template_command_control now a s t key z config d resp d' : (forall c, config = Some c -> template_wf c) ->
  template_command now a s t key z config d = Returns (resp, d') -> control_ok d -> control_ok d' /\ control_le d d'.
Proof using.
  intros Hwf Hr Hok. pose proof (beside_command _ _ _ _ _ _ _ _ _ _ Hr) as E. apply template_command_ok in Hr as [TK TL]; [|apply Hok|done].
  by apply template_tables.
Qed.

Lemma control_step_ok d d' : control_step d d' -> control_ok d -> control_ok d' /\ control_le d d'.
Proof using.
  destruct 1 as [now a s c resp d d' Hr|now a s subject key z role token resp d d' Hr|now a s n subject key z allowed resp d d' Hr|now a s n key c resp d d' Hr
    |now a s p subject key z allowed resp d d' Hr|now a s t key z config resp d d' Hwf Hr|d d' Hq]; intros Hok.
  - eapply (command_ok (laws := control_preparation_laws now)); [exact Hr|done].
  - unfold change_member in Hr. apply tx_bind_Returns in Hr as ([] & d1 & [_ ->]%require_Returns & Hr).
    apply tx_bind_Returns in Hr as (rq & d1 & [_ ->]%lift_Returns & Hr). apply tx_bind_Returns in Hr as ([] & d1 & Ho & Hr). apply reads_owner in Ho as <-.
    eapply once_ok; [exact Hr|done|]. intros d1 d2 K. by apply member_once_ok, K.
  - unfold change_node_grant in Hr. apply tx_bind_Returns in Hr as ([] & d1 & [_ ->]%require_Returns & Hr).
    apply tx_bind_Returns in Hr as (rq & d1 & [_ ->]%lift_Returns & Hr). apply tx_bind_Returns in Hr as ([] & d1 & Ho & Hr). apply reads_owner in Ho as <-.
    eapply once_ok; [exact Hr|done|]. intros d1 d2 K. by apply node_grant_once_ok, K.
  - unfold change_node in Hr. apply tx_bind_Returns in Hr as ([] & d1 & [_ ->]%require_Returns & Hr). apply tx_bind_Returns in Hr as (cmd & d1 & [_ ->]%lift_Returns & Hr).
    apply tx_bind_Returns in Hr as (rq & d1 & [_ ->]%lift_Returns & Hr). apply tx_bind_Returns in Hr as ([] & d1 & Hs & Hr). apply reads_scope in Hs as <-.
    eapply once_ok; [exact Hr|done|]. intros d1 d2 K. by apply node_change_once_ok, K.
  - unfold change_profile_grant in Hr. destruct key as [key|]; [|done]. apply tx_bind_Returns in Hr as ([] & d1 & [_ ->]%require_Returns & Hr).
    apply tx_bind_Returns in Hr as (dg & d1 & [_ ->]%lift_Returns & Hr). cbn zeta in Hr. apply tx_bind_Returns in Hr as ([] & d1 & Ho & Hr). apply reads_owner in Ho as <-.
    eapply once_ok; [exact Hr|done|]. intros d1 d2 K. by apply profile_grant_once_ok, K.
  - by eapply template_command_control.
  - by apply quiet_ok.
Qed.

(** C1. The commands keep the control state consistent.  Through any sequence of commands on
    Forwards, members, grants, Nodes, Profiles and path templates, and of transactions that
    only advance Operations: the history records every specification a Forward ever had and
    its current one; every Operation belongs to a Forward of its scope and aims at a
    revision the Forward has reached, and at most one per Forward may still run; the current path
    binding of a Forward is the newest of its gapless history, has the topology of the
    Forward, and every binding is an expansion of an immutable template revision that
    the history of the Forward recorded.  Nothing that was recorded is lost or rewritten, revisions
    only advance, deletion is final. *)
Theorem control_safe (d d' : Db) : control_ok d -> rtc control_step d d' -> control_ok d' /\ control_le d d'.
Proof using.
  intros Hok Hrun. induction Hrun as [d|d d1 d2 Hs _ IH]; [split; [done|reflexivity]|].
  destruct (control_step_ok _ _ Hs Hok) as [K1 L1]. destruct (IH K1) as [K2 L2]. split; [done|by transitivity d1].
Qed.


End Control.
