(* ===== verification/RelayProgress.v ===== *)
(** How a Relay deployment progresses (relay-coordinator.ts, [advance]).

    [relay_move] is the coordinator's contract: a deployment stays where it is, is withdrawn,
    or takes one step that what the Nodes were seen to report allows.  [advance_moves] proves
    that the code keeps it, [relay_history_evidence] what was seen along a history. *)

From S2P Require Import Prelude.
From S2P Require Import JsString.
From S2P Require Import Forward.
From S2P Require Import Digest.
From S2P Require Import Types.
From S2P Require Import Validate.
From S2P Require Import Schema.
From S2P Require Import Relay.
From S2P Require Import Adp3.
From S2P Require Import Transit.
From S2P Require Import RelayPlan.
From S2P Require Import Store.
From S2P Require Import Forwarding.
From S2P Require Import Operations.
From S2P Require Import Retirements.
From S2P Require Import Reads.
From S2P Require Import RelayDeployments.
From S2P Require Import RelayLocks.
From S2P Require Import RelayCoordinator.
From S2P Require Import RelayFrame.

Local Open Scope Z_scope.

(** ** The contract *)

Definition progress (r : Deployment) : RelayStage * Z * Z := (dp_stage r, dp_prepared_count r, dp_activated_count r).

(** The columns that never change. *)
Definition same_plan (r r' : Deployment) : Prop :=
  (dp_target_revision r', dp_ingress_node_id r', dp_egress_node_id r', dp_body r', dp_path_nodes r', dp_created_at r') =
  (dp_target_revision r, dp_ingress_node_id r, dp_egress_node_id r, dp_body r, dp_path_nodes r, dp_created_at r).

Definition hop_count (r : Deployment) : Z := Z.of_nat (length (rpp_nodes (dp_body r))).

(** [seen n p]: the Node's fresh report shows all its Assignments in the phase [p] in which
    they are published. *)
Inductive relay_move (seen : PlannedNode -> Phase -> Prop) (r : Deployment) : RelayStage * Z * Z -> Prop :=
  | mv_stay : relay_move seen r (progress r)
  | mv_withdraw : relay_move seen r (g_withdrawn, dp_prepared_count r, dp_activated_count r)
  | mv_prepare : is_Some (rpp_path (dp_body r)) -> dp_stage r = g_preparing ->
      (forall i n, rpp_nodes (dp_body r) !! i = Some n -> hop_count r - dp_prepared_count r - 1 <= Z.of_nat i -> seen n prepared) ->
      relay_move seen r (if dp_prepared_count r + 1 =? hop_count r then (g_egress_active, dp_prepared_count r + 1, 1)
                         else (g_preparing, dp_prepared_count r + 1, 0))
  | mv_activate : is_Some (rpp_path (dp_body r)) -> dp_stage r = g_egress_active ->
      (forall i n, rpp_nodes (dp_body r) !! i = Some n ->
         seen n (if hop_count r - dp_activated_count r <=? Z.of_nat i then active else prepared)) ->
      relay_move seen r (if dp_activated_count r <? hop_count r then (g_egress_active, dp_prepared_count r, dp_activated_count r + 1)
                         else (g_active, dp_prepared_count r, dp_activated_count r))
  | mv_pair ingress egress stage : rpp_path (dp_body r) = None ->
      find_planned (dp_body r) (dp_ingress_node_id r) = Some ingress -> find_planned (dp_body r) (dp_egress_node_id r) = Some egress ->
      match dp_stage r, stage with
      | g_preparing, g_egress_active => seen ingress prepared /\ seen egress prepared
      | g_egress_active, g_ingress_active => seen egress active /\ seen ingress prepared
      | g_ingress_active, g_active => seen ingress active /\ seen egress active
      | _, _ => False
      end -> relay_move seen r (stage, dp_prepared_count r, dp_activated_count r).

Definition deployment_move (seen : PlannedNode -> Phase -> Prop) (r r' : Deployment) : Prop := same_plan r r' /\ relay_move seen r (progress r').
Definition deployment_stay (r r' : Deployment) : Prop := same_plan r r' /\ progress r' = progress r.

#[export] Instance deployment_stay_preorder : PreOrder deployment_stay.
Proof. unfold deployment_stay, same_plan. split; [done|]. intros r r1 r2 [] []. split; congruence. Qed.

(** Rows evolve by [mv]; a new one belongs to the Forward and starts a later generation. *)
Record rows_step (f : jsstr) (mv : Deployment -> Deployment -> Prop) (m m' : gmap (jsstr * Z) Deployment) : Prop := {
  rs_rows : forall k r, m !! k = Some r -> exists r', m' !! k = Some r' /\ mv r r';
  rs_new : forall k r', m !! k = None -> m' !! k = Some r' ->
    k.1 = f /\ progress r' = (g_preparing, 0, 0) /\ forall g r, m !! (f, g) = Some r -> g < k.2;
}.

#[export] Instance stay_preorder f : PreOrder (rows_step f deployment_stay).
Proof.
  split.
  - intros m. split; [intros k r Hk; exists r; split; [done|reflexivity]|]. intros k r' Hn Hs. congruence.
  - intros m m1 m2 [R1 N1] [R2 N2]. split.
    + intros k r (r1 & Hr1 & M1)%R1. apply R2 in Hr1 as (r2 & ? & M2). exists r2. split; [done|by etransitivity].
    + intros k r' Hn Hs. destruct (m1 !! k) as [r1|] eqn:E.
      * destruct (N1 k r1 Hn E) as (? & Hp & ?). apply R2 in E as (r2 & E2 & [_ Hp2]). rewrite Hs in E2. injection E2 as <-.
        split_and!; [done|congruence|done].
      * destruct (N2 k r' E Hs) as (? & ? & Hg). split_and!; [done..|]. intros g r (r1 & Hr1 & _)%R1. by eapply Hg.
Qed.

Lemma same_plan_trans r r1 r2 : same_plan r r1 -> same_plan r1 r2 -> same_plan r r2.
Proof. unfold same_plan. congruence. Qed.

Lemma relay_move_mono (seen seen' : PlannedNode -> Phase -> Prop) r q : (forall n p, seen n p -> seen' n p) -> relay_move seen r q -> relay_move seen' r q.
Proof.
  intros Hs [| |? ? ?|? ? ?|i e stage ? ? ? Hst]; [constructor|constructor|apply mv_prepare; eauto|apply mv_activate; eauto|].
  apply (mv_pair _ _ i e); [done..|]. destruct (dp_stage r), stage; naive_solver.
Qed.

Lemma relay_move_withdrawn seen r q : relay_move seen r q -> dp_stage r = g_withdrawn -> q.1.1 = g_withdrawn.
Proof. intros [| |? Hs ?|? Hs ?|i e stage ? ? ? Hst] Hw; try congruence; [done..|]. by rewrite Hw in Hst. Qed.

Lemma stay_is_move seen r r' : deployment_stay r r' -> deployment_move seen r r'.
Proof. intros [P E]. split; [done|]. rewrite E. constructor. Qed.

Lemma rows_stay_move (f : jsstr) seen m m' : rows_step f deployment_stay m m' -> rows_step f (deployment_move seen) m m'.
Proof. intros [R N]. split; [|done]. intros k r (r' & ? & S)%R. exists r'. split; [done|by apply stay_is_move]. Qed.

(** One row is rewritten. *)
Lemma rows_alter (f : jsstr) (mv : Deployment -> Deployment -> Prop) (k : jsstr * Z) (c : Deployment -> Deployment) (m : gmap (jsstr * Z) Deployment) :
  (forall r, mv r r) -> (forall r, m !! k = Some r -> mv r (c r)) -> rows_step f mv m (alter c k m).
Proof.
  intros Hrefl Hc. split.
  - intros k' r Hr. destruct (decide (k = k')) as [<-|Hk]; [rewrite lookup_alter_eq, Hr; cbn; by eauto|]. rewrite lookup_alter_ne by done. by eauto.
  - intros k' r' Hn. destruct (decide (k = k')) as [<-|Hk]; [by rewrite lookup_alter_eq, Hn|]. rewrite lookup_alter_ne by done. congruence.
Qed.

(** ** Observations *)

Definition seen_in (policy : Policy) (now : Z) (d : Db) (n : PlannedNode) (p : Phase) : Prop := observed_at policy now n p d = true.

Lemma observed_frame policy now n p d d' : beside d' = beside d -> observed_at policy now n p d' = observed_at policy now n p d.
Proof. unfold beside. intros E. injection E as _ _ _ Es En _ _ _ _ _. unfold observed_at, published_in. by rewrite Es, En. Qed.

Lemma all_observed_Returns policy now l d b d' : all_observed policy now l d = Returns (b, d') ->
  d' = d /\ (b = true -> forall n p, (n, p) ∈ l -> seen_in policy now d n p).
Proof.
  unfold all_observed. intros (seen & d1 & Hc & [-> ->]%mret_Returns)%tx_bind_Returns. revert seen d1 Hc.
  induction l as [|[n p] l IH]; intros seen d1 Hc; cbn in Hc; tx_inv; [by split; [|intros _ n p ?%elem_of_nil]|].
  unfold observed in Hrun. tx_inv. apply IH in Hrun0 as [-> Hl]. split; [done|]. cbn. intros [Hn Hr]%andb_true_iff n' p' [[= -> ->]|Hin]%elem_of_cons; [done|].
  by apply Hl.
Qed.

Lemma latest_deployment_Returns i d o d' : latest_deployment i d = Returns (o, d') ->
  d' = d /\ match o with
            | Some r => db_relay_deployments d !! r.1 = Some r.2 /\ dp_forward r = i /\
                        forall g row, db_relay_deployments d !! (i, g) = Some row -> g <= dp_generation r
            | None => forall g, db_relay_deployments d !! (i, g) = None
            end.
Proof.
  unfold latest_deployment. intros (found & d1 & Hs & [-> ->]%mret_Returns)%tx_bind_Returns. apply select_Returns in Hs as [-> Hf]. split; [done|].
  destruct (head (sort_by by_generation found)) as [[k r]|] eqn:E.
  - apply sort_by_head in E as [Hin Hmax]; [|unfold by_generation; intros a b; lia|unfold by_generation; intros a b c; lia].
    apply Hf in Hin as [Hk Hi%bool_decide_eq_true]. split_and!; [done|done|].
    intros g row Hg. assert (Hin : ((i, g), row) ∈ found) by (apply Hf; split; [done|]; by apply bool_decide_eq_true).
    destruct (decide ((i, g) = k)) as [<-|E]; [done|]. apply Hmax in Hin; [|congruence]. unfold by_generation in Hin. by apply Z.leb_le in Hin.
  - intros g. destruct (db_relay_deployments d !! (i, g)) as [row|] eqn:Eg; [|done].
    assert (Hin : ((i, g), row) ∈ found) by (apply Hf; split; [done|]; by apply bool_decide_eq_true).
    apply sort_by_head_None in E as ->. by apply elem_of_nil in Hin.
Qed.

(** ** The coordinator keeps the contract *)

Section Refinement.
Context `{Hashing, Schema RelayProfileConfig, Schema RelayOpen, Schema RelayAssignment, Adp2Schemas, Adp3Schemas, Locale}.
Context (policy : Policy) (multihopEnabled : bool) (uuid : Db -> jsstr).

(** What [advance] may do to the state: [mv] on the rows of the Forward. *)
Abbreviation stays f := (deployments_step (rows_step f deployment_stay)).

Lemma stays_store g f row : progress row = (g_preparing, 0, 0) ->
  forall d u d', (forall g' r, db_relay_deployments d !! (id f, g') = Some r -> g' < g) -> store_plan g f row d = Returns (u, d') -> stays (id f) d d'.
Proof using.
  intros Hp d u d' Hg [Hn ->]%insert_row_Returns. split; [split; [done|by intros k]|]. split_and!; [done..|]. split.
  - intros k r Hk. exists r. split; [|reflexivity]. cbn. rewrite lookup_insert_ne by congruence. done.
  - intros k r' Hk. cbn. destruct (decide ((id f, g) = k)) as [<-|Hne]; [|rewrite lookup_insert_ne by done; unfold db_relay_deployments in Hk; congruence].
    rewrite lookup_insert_eq. intros [= <-]. done.
Qed.

(** A run of [acceptPlan]: the plan was made under the next generation and stored. *)
Lemma acceptPlan_Returns now a f d plan d' : acceptPlan policy multihopEnabled now a f d = Returns (plan, d') ->
  exists previous g row d1, latest_deployment (id f) d = Returns (previous, d) /\
    g = Z.max (revision f) (match previous with Some r => dp_generation r | None => 0 end + 1) /\ g <= MAX_COUNTER /\
    (forall g' r, db_relay_deployments d !! (id f, g') = Some r -> g' < g) /\
    (if is_multihop f then plan_multihop policy multihopEnabled now a f previous g else plan_pair policy multihopEnabled now a f previous g) d =
      Returns ((plan, row), d1) /\ work_step d d1 /\ store_plan g f row d1 = Returns (tt, d').
Proof using.
  intros Hr. unfold acceptPlan in Hr. apply tx_bind_Returns in Hr as ([] & d1 & Hl & Hr). apply reads_lockNodes in Hl as <-.
  apply tx_bind_Returns in Hr as (previous & d1 & Hl & Hr). pose proof Hl as [-> Hprev]%latest_deployment_Returns. cbn zeta in Hr.
  apply tx_bind_Returns in Hr as ([] & d1 & [Hmax%Z.leb_le ->]%require_Returns & Hr).
  apply tx_bind_Returns in Hr as ([p row] & d1 & Hp & Hr). apply tx_bind_Returns in Hr as ([] & d2 & Hst & [-> ->]%mret_Returns).
  eexists previous, _, row, d1. split_and!; try done.
  - intros g' r Hr'. destruct previous as [q|]; [destruct Hprev as (_ & _ & Hq); apply Hq in Hr'; lia|]. by rewrite Hprev in Hr'.
  - destruct (is_multihop f); [by eapply work_plan_multihop|by eapply work_plan_pair].
Qed.

Lemma plan_row now a f previous g d plan row d' :
  (if is_multihop f then plan_multihop policy multihopEnabled now a f previous g else plan_pair policy multihopEnabled now a f previous g) d =
    Returns ((plan, row), d') -> dp_body row = plan /\ dp_target_revision row = revision f /\ progress row = (g_preparing, 0, 0).
Proof using.
  destruct (is_multihop f); intros Hr; [unfold plan_multihop in Hr|unfold plan_pair in Hr];
    repeat (apply tx_bind_Returns in Hr as (? & ? & _ & Hr)).
  - destruct (rpp_path _) as [[|]|]; [done| |done]. apply mret_Returns in Hr as [[= -> ->] _]. done.
  - apply mret_Returns in Hr as [[= -> ->] _]. done.
Qed.

Lemma work_step_deployments d d' : work_step d d' -> db_relay_deployments d' = db_relay_deployments d.
Proof using. intros [_ E]. unfold db_relay_deployments. by rewrite E. Qed.

Lemma stays_acceptPlan now a f : evolves (stays (id f)) (acceptPlan policy multihopEnabled now a f).
Proof using.
  intros d plan d' (previous & g & row & d1 & _ & _ & _ & Hg & Hp & Hw & Hs)%acceptPlan_Returns.
  pose proof Hp as (_ & _ & Hrow)%plan_row. transitivity d1.
  - destruct Hw as [? E]. split; [done|]. unfold db_boots, db_reports, db_relay_deployments. rewrite E. split_and!; done.
  - eapply stays_store; [done| |done]. by rewrite (work_step_deployments _ _ Hw).
Qed.

(** The rest of [advance] on the row [r], whose time was already written: one rewriting of
    the row that the contract allows, then work on the ledger. *)
Record one_move (now : Z) (r : deployment) (d d' : Db) : Prop := {
  om_ledger : ledger_step d d';
  om_boots : db_boots d' = db_boots d;
  om_reports : db_reports d' = db_reports d;
  om_row : exists c, db_relay_deployments d' = alter c r.1 (db_relay_deployments d) /\
    forall r1, deployment_stay r.2 r1 -> deployment_move (seen_in policy now d) r.2 (c r1);
}.

Lemma one_move_rewrite now r c d d' : (forall r1, deployment_stay r.2 r1 -> deployment_move (seen_in policy now d) r.2 (c r1)) ->
  work_step (with_relay_deployments (alter c r.1) d) d' -> one_move now r d d'.
Proof using.
  intros Hc [Hl E]. split.
  - etransitivity; [|exact Hl]. split; [done|by intros k].
  - unfold db_boots. by rewrite E.
  - unfold db_reports. by rewrite E.
  - exists c. split; [|done]. unfold db_relay_deployments. by rewrite E.
Qed.

Lemma one_move_update now r c d u d1 {A} (m : tx A) a d' : (forall r1, deployment_stay r.2 r1 -> deployment_move (seen_in policy now d) r.2 (c r1)) ->
  update_deployment r.1 c d = Returns (u, d1) -> evolves work_step m -> m d1 = Returns (a, d') -> one_move now r d d'.
Proof using. destruct u. intros Hc ->%modify_Returns Hm Hr. eapply one_move_rewrite; [done|by eapply Hm]. Qed.

Lemma one_move_none now r {A} (m : tx A) d a d' : evolves work_step m -> m d = Returns (a, d') -> one_move now r d d'.
Proof using.
  intros Hm Hr%Hm. destruct Hr as [Hl E]. split; [done|unfold db_boots; by rewrite E|unfold db_reports; by rewrite E|].
  exists (fun r1 => r1). split; [unfold db_relay_deployments; rewrite E; symmetry; by apply alter_id|]. intros r1 Hr1. by apply stay_is_move.
Qed.

Lemma move_columns (seen : PlannedNode -> Phase -> Prop) r r1 stage p a now :
  relay_move seen r (stage, p, a) -> deployment_stay r r1 -> deployment_move seen r (set_progress p stage a now r1).
Proof using. intros Hm [Hp _]. split; [exact Hp|exact Hm]. Qed.

Lemma move_stage (seen : PlannedNode -> Phase -> Prop) r r1 stage now :
  relay_move seen r (stage, dp_prepared_count r, dp_activated_count r) -> deployment_stay r r1 -> deployment_move seen r (set_stage stage now r1).
Proof using. intros Hm [Hp E]. split; [exact Hp|]. unfold progress in *. cbn. simplify_eq. congruence. Qed.

Lemma expected_prepared_spec nodes p i n : nodes !! i = Some n -> Z.of_nat (length nodes) - p - 1 <= Z.of_nat i -> n ∈ expected_prepared nodes p.
Proof using.
  intros Hn Hi. unfold expected_prepared. set (k := Z.to_nat _). assert (Hk : (k <= i)%nat) by (subst k; lia).
  apply list_elem_of_lookup. exists (i - k)%nat. rewrite lookup_drop. by replace (k + (i - k))%nat with i by lia.
Qed.

Lemma advanceMultihop_moves now r f deleting op plan d u d' : plan = dp_body r.2 -> is_Some (rpp_path plan) ->
  advanceMultihop policy now r f deleting op plan d = Returns (u, d') -> one_move now r d d'.
Proof using.
  intros -> Hpath Hr. unfold advanceMultihop in Hr. destruct (dp_stage r.2) eqn:Es; try (eapply one_move_none; [|exact Hr]; eauto with evolves typeclass_instances; fail).
  - apply tx_bind_Returns in Hr as (ok & d1 & [-> Hok]%all_observed_Returns & Hr). destruct ok; cbn [negb] in Hr; [|eapply one_move_none; [|exact Hr]; eauto with evolves typeclass_instances].
    specialize (Hok eq_refl).
    assert (Hm : relay_move (seen_in policy now d) r.2 (if dp_prepared_count r.2 + 1 =? hop_count r.2 then (g_egress_active, dp_prepared_count r.2 + 1, 1)
                         else (g_preparing, dp_prepared_count r.2 + 1, 0))).
    { apply mv_prepare; [done..|]. intros i n Hn Hi. apply Hok, list_elem_of_fmap. exists n. split; [done|]. by eapply expected_prepared_spec. }
    eapply (one_move_update now r _ d u d' (mret tt)); [|exact Hr|evolve|reflexivity]. intros r1 Hr1. apply move_columns; [|done].
    fold (hop_count r.2). by destruct (dp_prepared_count r.2 + 1 =? hop_count r.2).
  - apply tx_bind_Returns in Hr as (ok & d1 & [-> Hok]%all_observed_Returns & Hr). destruct ok; cbn [negb] in Hr; [|eapply one_move_none; [|exact Hr]; eauto with evolves typeclass_instances].
    specialize (Hok eq_refl).
    assert (Hm : relay_move (seen_in policy now d) r.2 (if dp_activated_count r.2 <? hop_count r.2 then (g_egress_active, dp_prepared_count r.2, dp_activated_count r.2 + 1)
                         else (g_active, dp_prepared_count r.2, dp_activated_count r.2))).
    { apply mv_activate; [done..|]. intros i n Hn. apply Hok. unfold expected_active. apply list_elem_of_lookup. exists i. by rewrite list_lookup_imap, Hn. }
    fold (hop_count r.2) in Hr. destruct (dp_activated_count r.2 <? hop_count r.2).
    + eapply (one_move_update now r _ d u d' (mret tt)); [|exact Hr|evolve|reflexivity]. intros r1 Hr1. pose proof Hr1 as [_ E]. unfold progress in E. injection E as E1 E2 E3.
      rewrite E1, E2, E3, Es. by apply move_columns.
    + apply tx_bind_Returns in Hr as ([] & d1 & Hup & Hr). eapply (one_move_update now r); [|exact Hup| |exact Hr]; [|eauto with evolves].
      intros r1 Hr1. by apply move_stage.
Qed.

Lemma next_stage_Returns now stage ingress egress d next d' : next_stage policy now stage ingress egress d = Returns (next, d') ->
  d' = d /\ (next = stage \/
    let seen := seen_in policy now d in
    match stage, next with
    | g_preparing, g_egress_active => seen ingress prepared /\ seen egress prepared
    | g_egress_active, g_ingress_active => seen egress active /\ seen ingress prepared
    | g_ingress_active, g_active => seen ingress active /\ seen egress active
    | _, _ => False
    end).
Proof using.
  unfold next_stage, observed, seen_in. intros Hr. destruct stage; tx_inv; try (split; [done|by left]).
  all: match type of Hrun0 with context [if ?b then _ else _] => destruct b eqn:? end; tx_inv; try (split; [done|by left]).
  all: match goal with |- _ /\ ((if ?b then _ else _) = _ \/ _) => destruct b eqn:? | |- _ => idtac end; (split; [done|]); auto.
Qed.

Lemma advancePair_moves now r f deleting op plan d u d' : plan = dp_body r.2 -> rpp_path plan = None ->
  advancePair policy now r f deleting op plan d = Returns (u, d') -> one_move now r d d'.
Proof using.
  intros -> Hpath Hr. unfold advancePair in Hr. destruct (find_planned _ (dp_ingress_node_id r.2)) as [ingress|] eqn:Ei; [|done].
  destruct (find_planned _ (dp_egress_node_id r.2)) as [egress|] eqn:Ee; [|done].
  apply tx_bind_Returns in Hr as (next & d1 & [-> Hn]%next_stage_Returns & Hr). apply tx_bind_Returns in Hr as ([] & d1 & Hup & Hr).
  assert (Htail : evolves work_step (if bool_decide (next = g_active) then relay_complete policy now next f deleting op (dp_body r.2) else mret tt)) by evolve.
  destruct (bool_decide (next = dp_stage r.2)) eqn:E.
  - apply mret_Returns in Hup as [_ ->]. by eapply one_move_none.
  - apply bool_decide_eq_false in E. destruct Hn as [Hn|Hn]; [done|]. eapply (one_move_update now r); [|exact Hup|exact Htail|exact Hr].
    intros r1 Hr1. apply move_stage; [|done]. by apply (mv_pair _ _ ingress egress).
Qed.

Lemma advance_stage_moves now r f deleting suspended op plan d u d' : plan = dp_body r.2 ->
  advance_stage policy multihopEnabled now r f deleting suspended op plan d = Returns (u, d') -> one_move now r d d'.
Proof using.
  intros Hplan Hr. unfold advance_stage in Hr. apply tx_bind_Returns in Hr as (stopped & d1 & Hs & Hr).
  assert (Hd : d1 = d).
  { symmetry. revert Hs. match goal with |- ?m d = _ -> _ => assert (He : evolves eq m) by evolve; apply He end. }
  subst d1. destruct stopped.
  - apply tx_bind_Returns in Hr as ([] & d1 & Hup & Hr). eapply (one_move_update now r); [|exact Hup| |exact Hr]; [|eauto with evolves].
    intros r1 Hr1. apply move_stage; [constructor|done].
  - destruct (rpp_path plan) eqn:Ep; [|by eapply advancePair_moves]. eapply advanceMultihop_moves; [done| |exact Hr]. by rewrite Ep.
Qed.

Lemma refreshed_stays now r f op plan d b d' : refreshed policy multihopEnabled uuid now r f op plan d = Returns (b, d') ->
  if b then stays (id f) d d' else d' = d.
Proof using.
  unfold refreshed. intros Hr. apply tx_bind_Returns in Hr as (stale & d1 & [-> ->]%query_Returns & Hr).
  apply tx_bind_Returns in Hr as (actor & d1 & He & Hr). apply reads_authorizer in He as <-. destruct actor as [actor|]; [|by tx_inv].
  apply tx_bind_Returns in Hr as (allowed & d1 & He & Hr). apply reads_relay_canExecute in He as <-. destruct allowed; cbn [negb] in Hr; [|by tx_inv].
  apply tx_bind_Returns in Hr as (current & d1 & He & Hr). apply reads_path_facts in He as <-.
  apply tx_bind_Returns in Hr as (changed & d1 & [_ ->]%lift_Returns & Hr). cbn zeta in Hr. destruct (_ || _ || _); [|by tx_inv].
  apply tx_bind_Returns in Hr as ([] & d1 & He & [-> ->]%mret_Returns). revert He. unfold refresh.
  match goal with |- ?m ?d = _ -> _ => assert (He : evolves (stays (id f)) m); [|apply He] end.
  evolve. apply stays_acceptPlan.
Qed.

Lemma stays_touch now r f d : dp_forward r = f -> db_relay_deployments d !! r.1 = Some r.2 ->
  stays f d (with_relay_deployments (alter (fun p => set_stage (dp_stage p) now p) r.1) d).
Proof using.
  intros _ _. split; [split; [done|by intros k]|]. split_and!; [done..|]. by apply rows_alter.
Qed.

(** What [advance] does to the deployments and beside them. *)
Definition advanced (now : Z) (f : jsstr) (d d' : Db) : Prop :=
  ledger_step d d' /\ db_boots d' = db_boots d /\ db_reports d' = db_reports d /\
  rows_step f (deployment_move (seen_in policy now d)) (db_relay_deployments d) (db_relay_deployments d').

Lemma stays_advanced now f d d' : stays f d d' -> advanced now f d d'.
Proof using. intros (? & ? & ? & ?). split_and!; [done..|]. by apply rows_stay_move. Qed.

(** The move after the touch. *)
Lemma touch_then_move now r f d d' : db_relay_deployments d !! r.1 = Some r.2 ->
  one_move now r (with_relay_deployments (alter (fun p => set_stage (dp_stage p) now p) r.1) d) d' -> advanced now f d d'.
Proof using.
  intros Hr [Hl Hb Hp (c & Hc & Hm)]. split_and!.
  - etransitivity; [|exact Hl]. split; [done|by intros k].
  - done.
  - done.
  - rewrite Hc. cbn. rewrite alter_alter_eq. apply rows_alter; [by intros r0; apply stay_is_move|]. intros r0 Hr0.
    change (db_relay_deployments d !! r.1 = Some r0) in Hr0. rewrite Hr in Hr0. injection Hr0 as <-. cbn. assert (Hs : deployment_stay r.2 (set_stage (dp_stage r.2) now r.2)) by done.
    apply Hm in Hs as [P M]. split; [done|]. eapply relay_move_mono; [|exact M]. intros n p. unfold seen_in. by rewrite (observed_frame policy now n p d).
Qed.

Lemma advance_moves now f d d' u : advance policy multihopEnabled uuid now f d = Returns (u, d') -> advanced now f d d'.
Proof using.
  intros Hr. unfold advance in Hr. apply tx_bind_Returns in Hr as (record & d1 & [-> Hrec]%latest_deployment_Returns & Hr).
  apply tx_bind_Returns in Hr as (op & d1 & Hop & Hr). apply reads_latest in Hop as <-.
  assert (Hsame : forall d1 (u1 : unit), (mret tt : tx unit) d = Returns (u1, d1) -> advanced now f d d1).
  { intros d1 u1 [_ ->]%mret_Returns. by apply stays_advanced. }
  destruct record as [r|]; [|by eapply Hsame]. destruct op as [op|]; [|by eapply Hsame]. destruct Hrec as (Hk & Hf & _).
  cbn zeta in Hr. destruct (op_recovery_invalidated op.2); [by eapply Hsame|].
  apply tx_bind_Returns in Hr as ([] & d1 & ->%modify_Returns & Hr). set (d1 := with_relay_deployments _ d) in *.
  pose proof (stays_touch now r f d Hf Hk) as Htouch. fold d1 in Htouch.
  apply tx_bind_Returns in Hr as ([[fw deleting] suspended] & d2 & Hrec & Hr). pose proof Hrec as <-%reads_record_of.
  apply tx_bind_Returns in Hr as (plan & d2 & Hplan & Hr). pose proof Hplan as (-> & Hbody & _)%plan_of_Returns.
  destruct (negb match op_status op.2 with s_running | s_succeeded => true | s_failed => op_cleanup_pending op.2 | _ => false end).
  { apply mret_Returns in Hr as [_ ->]. by apply stays_advanced. }
  destruct (negb (bool_decide (is_Some (path_via (spec fw))))).
  { eapply (touch_then_move now r f d); [done|]. eapply (one_move_update now r _ d1 u d' (mret tt)); [|exact Hr|evolve|reflexivity].
    intros r1 Hr1. apply move_stage; [constructor|done]. }
  apply tx_bind_Returns in Hr as (replaced & d2 & Href & Hr).
  assert (Hid : id fw = f). { unfold record_of, find_forward in Hrec. tx_inv. simplify_eq. done. }
  assert (Hrep : if replaced then stays f d1 d2 else d2 = d1).
  { destruct (negb (bool_decide (op_status op.2 = s_failed)) && _ && _ && _ && _ && _) in Href; [|by apply mret_Returns in Href as [-> ->]].
    apply refreshed_stays in Href. by rewrite Hid in Href. }
  destruct replaced; [|subst d2; eapply (touch_then_move now r f d); [done|by eapply advance_stage_moves]].
  apply mret_Returns in Hr as [_ ->]. apply stays_advanced. by transitivity d1.
Qed.

(** ** The order of activation *)

(** Another transaction keeps the deployment, or withdraws it. *)
Definition row_kept (k : jsstr * Z) (d d' : Db) : Prop :=
  forall r, db_relay_deployments d !! k = Some r -> exists r', db_relay_deployments d' !! k = Some r' /\ same_plan r r' /\
    (progress r' = progress r \/ dp_stage r' = g_withdrawn).

(** The life of the deployment [k] since it was stored, with everything the coordinator has
    seen of the Nodes in the meantime. *)
Inductive relay_history (k : jsstr * Z) : (PlannedNode -> Phase -> Prop) -> Db -> Prop :=
  | rh_start d r : db_relay_deployments d !! k = Some r -> progress r = (g_preparing, 0, 0) -> relay_history k (fun _ _ => False) d
  | rh_other E d d' : relay_history k E d -> row_kept k d d' -> relay_history k E d'
  | rh_advance E d d' now f : relay_history k E d -> advance policy multihopEnabled uuid now f d = Returns (tt, d') ->
      relay_history k (fun n p => E n p \/ observed_at policy now n p d = true) d'.

(** What must have been seen to reach the stage. *)
Definition hop_evidence (E : PlannedNode -> Phase -> Prop) (r : Deployment) : Prop :=
  let all p := forall i n, rpp_nodes (dp_body r) !! i = Some n -> E n p in
  match dp_stage r with
  | g_preparing | g_withdrawn => True
  | g_egress_active => all prepared /\ forall i n, rpp_nodes (dp_body r) !! i = Some n -> hop_count r - dp_activated_count r < Z.of_nat i -> E n active
  | g_ingress_active => False
  | g_active => all prepared /\ all active
  end.

Lemma hop_evidence_mono (E E' : PlannedNode -> Phase -> Prop) r : (forall n p, E n p -> E' n p) -> hop_evidence E r -> hop_evidence E' r.
Proof using. intros HE. unfold hop_evidence. destruct (dp_stage r); naive_solver. Qed.

Lemma hop_evidence_same E r r' : same_plan r r' -> progress r' = progress r -> hop_evidence E r -> hop_evidence E r'.
Proof using.
  unfold same_plan, progress, hop_evidence, hop_count. intros P Q. injection P as _ _ _ Pb _ _. injection Q as Qs Qp Qa. by rewrite Pb, Qs, Qa.
Qed.

Lemma hop_evidence_move E seen r r' : is_Some (rpp_path (dp_body r)) -> hop_evidence E r -> deployment_move seen r r' ->
  hop_evidence (fun n p => E n p \/ seen n p) r'.
Proof using.
  intros Hpath HE [Hp Hm]. assert (Hb : dp_body r' = dp_body r) by (unfold same_plan in Hp; congruence).
  assert (Hh : hop_count r' = hop_count r) by (unfold hop_count; by rewrite Hb).
  assert (Hlift : progress r' = progress r -> hop_evidence (fun n p => E n p \/ seen n p) r').
  { intros Hq. eapply hop_evidence_same; [exact Hp|exact Hq|]. eapply hop_evidence_mono; [|exact HE]. auto. }
  remember (progress r') as q eqn:Eq. destruct Hm as [| |_ Hs Hseen|_ Hs Hseen|i e stage Hn].
  - by apply Hlift.
  - unfold hop_evidence. unfold progress in Eq. by injection Eq as <- _ _.
  - destruct (_ =? _) eqn:E1; unfold progress in Eq; injection Eq as Es E2 E3; unfold hop_evidence; rewrite <- Es; [|done].
    apply Z.eqb_eq in E1. rewrite Hb, Hh, <- E3. split.
    + intros i n Hn. right. apply (Hseen i); [done|lia].
    + intros i n Hn%lookup_lt_Some Hi. exfalso. unfold hop_count in Hi. lia.
  - unfold hop_evidence in HE. rewrite Hs in HE. destruct HE as [HEp HEa].
    destruct (_ <? _) eqn:E1; unfold progress in Eq; injection Eq as Es E2 E3; unfold hop_evidence; rewrite <- Es, Hb.
    + rewrite Hh, <- E3. split; [intros i n Hn; left; by eapply HEp|]. intros i n Hn Hi. right. specialize (Hseen i n Hn).
      by rewrite (proj2 (Z.leb_le _ _)) in Hseen by lia.
    + apply Z.ltb_ge in E1. split; [intros i n Hn; left; by eapply HEp|]. intros i n Hn. right. specialize (Hseen i n Hn).
      by rewrite (proj2 (Z.leb_le _ _)) in Hseen by lia.
  - rewrite Hn in Hpath. by destruct Hpath.
Qed.

Lemma relay_history_evidence k E d : relay_history k E d ->
  forall r, db_relay_deployments d !! k = Some r -> is_Some (rpp_path (dp_body r)) -> hop_evidence E r.
Proof using.
  assert (Hexists : forall E d, relay_history k E d -> is_Some (db_relay_deployments d !! k)).
  { induction 1 as [d0 r0 Hr|E0 d0 d1 _ [r0 Hr] Hk|E0 d0 d1 now f _ [r0 Hr] Ha]; [by eexists| |].
    - destruct (Hk r0 Hr) as (r1 & ? & _). by eexists.
    - apply advance_moves in Ha as (_ & _ & _ & [HR _]). destruct (HR _ _ Hr) as (r1 & ? & _). by eexists. }
  induction 1 as [d r0 Hr0 Hp|E d d' Hh IH Hk|E d d' now f Hh IH Ha]; intros r Hr Hpath.
  - rewrite Hr in Hr0. injection Hr0 as ->. unfold hop_evidence. unfold progress in Hp. by injection Hp as -> _ _.
  - destruct (Hexists _ _ Hh) as [r0 Hr0]. destruct (Hk _ Hr0) as (r1 & Hr1 & Hs & Hpr). rewrite Hr in Hr1. injection Hr1 as <-.
    assert (Hb : dp_body r = dp_body r0) by (unfold same_plan in Hs; congruence). rewrite Hb in Hpath.
    destruct Hpr as [Hpr|Hw]; [by eapply hop_evidence_same; [..|apply IH]|]. unfold hop_evidence. by rewrite Hw.
  - destruct (Hexists _ _ Hh) as [r0 Hr0]. apply advance_moves in Ha as (_ & _ & _ & [HR _]). destruct (HR _ _ Hr0) as (r1 & Hr1 & Hm).
    rewrite Hr in Hr1. injection Hr1 as <-. assert (Hb : dp_body r = dp_body r0) by (destruct Hm as [Hs _]; unfold same_plan in Hs; congruence).
    rewrite Hb in Hpath. eapply hop_evidence_move; [done|by apply IH|exact Hm].
Qed.

End Refinement.
