(* ===== verification/Controller.v ===== *)
(** The Runtime controller (apps/control/src/modules/runtime/controller.ts): sessions of a
    Node, the Snapshots it is given and the reports it sends.

    The controller is the one the server builds: with its Relay coordinator and with the
    protected authority record of Authority.v.  That record is not part of the database and
    keeps what was written to it when a transaction rolls back. *)

From S2P Require Import Prelude.
From S2P Require Import JsString.
From S2P Require Import Primitives.
From S2P Require Import Json.
From S2P Require Import Forward.
From S2P Require Import Digest.
From S2P Require Import Types.
From S2P Require Import Validate.
From S2P Require Import Schema.
From S2P Require Import Relay.
From S2P Require Import Adp3.
From S2P Require Import Transit.
From S2P Require Import Probe.
From S2P Require Import TargetPolicy.
From S2P Require Import Planner.
From S2P Require Import RelayPlan.
From S2P Require Import Iso.
From S2P Require Import Authority.
From S2P Require Import Store.
From S2P Require Import Forwarding.
From S2P Require Import Operations.
From S2P Require Import Retirements.
From S2P Require Import Nodes.
From S2P Require Import RelayDeployments.
From S2P Require Import RelayCoordinator.

Local Open Scope Z_scope.

(** ** Transactions beside the authority record *)

Definition act (A : Type) : Type := Db -> AuthorityRecord -> outcome (A * Db) * AuthorityRecord.

#[export] Instance act_ret : MRet act := fun A a d r => (Returns (a, d), r).
#[export] Instance act_bind : MBind act := fun A B f m d r =>
  match m d r with (Returns (a, d'), r') => f a d' r' | (Throws e, r') => (Throws e, r') end.

Definition of_tx {A} (m : tx A) : act A := fun d r => (m d, r).

Definition on_authority (change : AuthorityRecord -> outcome AuthorityRecord) : act unit := fun d r =>
  match change r with Returns r' => (Returns (tt, d), r') | Throws e => (Throws e, r) end.

Definition World : Type := (Db * AuthorityRecord)%type.

(** [db.transaction(action)] under [db.guard = () => authority.allow()] *)
Definition guarded {A} (action : act A) (w : World) : outcome A * World :=
  match allow w.2 with
  | Throws e => (Throws e, w)
  | Returns _ => match action w.1 w.2 with
                 | (Returns (a, d'), r') => (Returns a, (d', r'))
                 | (Throws e, r') => (Throws e, (w.1, r'))
                 end
  end.

(** ** Documents *)

Definition condition_name (c : Condition) : string :=
  match c with
  | c_pending => "pending" | c_prepared => "prepared" | c_ready => "ready" | c_degraded => "degraded"
  | c_error => "error" | c_draining => "draining" | c_removed => "removed"
  end.

Definition phase_text (p : ObservedPhase) : string :=
  match p with present prepared => "prepared" | present active => "active" | present draining => "draining" | absent => "absent" end.

Definition observation_json (o : Observation) : json :=
  JObj [(js "assignmentId", JStr (obs_assignmentId o)); (js "deploymentGeneration", JInt (obs_deploymentGeneration o));
        (js "bindingFence", JInt (obs_bindingFence o)); (js "phase", JStr (js (phase_text (obs_phase o))));
        (js "condition", JStr (js (condition_name (obs_condition o)))); (js "errorCode", text_json (obs_errorCode o));
        (js "retryable", JBool (obs_retryable o))].

Definition drain_json (d : Drain) : json :=
  JObj [(js "assignmentId", JStr (drain_assignmentId d)); (js "deploymentGeneration", JInt (drain_deploymentGeneration d));
        (js "bindingFence", JInt (drain_bindingFence d)); (js "startedAt", JStr (drain_startedAt d)); (js "deadline", JStr (drain_deadline d));
        (js "remainingConnections", JInt (drain_remainingConnections d));
        (js "condition", JStr (js (match drain_condition d with d_draining => "draining" | d_removed => "removed" end)))].

Definition report_json (r : ReportRequest) : json :=
  JObj [(js "protocolVersion", JInt 3); (js "nodeId", JStr (rep_nodeId r)); (js "bootId", JStr (rep_bootId r));
        (js "sessionEpoch", JInt (rep_sessionEpoch r)); (js "reportSequence", JInt (rep_reportSequence r));
        (js "observedAt", JStr (rep_observedAt r)); (js "acceptedSnapshotGeneration", JInt (rep_acceptedSnapshotGeneration r));
        (js "observations", JArr (map observation_json (rep_observations r))); (js "drains", JArr (map drain_json (rep_drains r)))].

Definition assignments_json (l : list RuntimeAssignment) : json := JArr (map (fun a => JObj (runtime_fields a)) l).

(** ** Updates of a row *)

(** [session_epoch=?,boot_id=?,last_report_sequence=0,last_report=NULL,received_at=NULL] *)
Definition set_session (epoch : Z) (bootId : jsstr) (r : RuntimeNode) : RuntimeNode :=
  MkRuntimeNode epoch (Some bootId) (rn_snapshot_generation r) 0 None None.

Definition set_generation (generation : Z) (r : RuntimeNode) : RuntimeNode :=
  MkRuntimeNode (rn_session_epoch r) (rn_boot_id r) generation (rn_last_report_sequence r) (rn_last_report r) (rn_received_at r).

Definition set_report (report : ReportRequest) (now : Z) (r : RuntimeNode) : RuntimeNode :=
  MkRuntimeNode (rn_session_epoch r) (rn_boot_id r) (rn_snapshot_generation r) (rep_reportSequence report) (Some report) (Some now).

Definition update_node (nodeId : jsstr) (change : RuntimeNode -> RuntimeNode) : tx unit := modify (with_runtime_nodes (alter change nodeId)).

Definition with_drain (seconds : Z) (a : RuntimeAssignment) : RuntimeAssignment :=
  MkRuntimeAssignment (rua_assignmentId a) (rua_forwardId a) (rua_forwardRevision a) (rua_deploymentGeneration a) (rua_bindingFence a)
    (rua_role a) (rua_protocol a) (rua_phase a) (rua_resource a) (rua_configDigest a) (rua_driver a) seconds.

(** [status=IF(?,'running','failed'),cleanup_pending=IF(?,cleanup_pending,TRUE)] *)
Definition set_reported_error (error : json) (retryable : bool) (now : Z) (o : Operation) : Operation :=
  if retryable then set_last_error error now o else set_failed error now o.

(** An optional text that is not empty. *)
Definition given (t : option jsstr) : option jsstr := match t with Some (c :: r) => Some (c :: r) | _ => None end.

Record Claim := MkClaim { cl_id : jsstr; cl_token : jsstr; cl_until : Z }.

Section Controller.
Context `{Hashing, Schema RelayProfileConfig, Schema RelayOpen, Schema RelayAssignment, Adp2Schemas, Adp3Schemas, Locale}.
Context (policy : Policy) (multihopEnabled : bool) (uuid : Db -> jsstr).

(** The constructor's check of its policy. *)
Definition controller_policy (now : Z) (p : Policy) : outcome Policy :=
  serverTime ← toISOString now;
  hello ← parseRuntimeMessage HelloResponse_
            (stringify (JObj [(js "protocolVersion", JInt 3); (js "nodeId", JStr (js "policy-validation")); (js "bootId", JStr (js "policy-validation"));
                              (js "sessionEpoch", JInt 1); (js "serverTime", JStr serverTime); (js "policy", policy_json p)])) 4194304;
  let q := hres_policy hello in
  _ ← throw_if ((300 <? leaseSeconds q) || (5 <? maxClockSkewSeconds q))
        "Error" "Runtime policy cannot weaken the 300-second/5-second authorization baseline";
  Returns q.

(** ** Sessions *)

(** The row of the Node, locked with those of every related Node. *)
Definition locked (nodeId : jsstr) (epoch : option Z) : tx RuntimeNode :=
  related ← relatedNodeIDs nodeId;
  found ← collect_each (fun i => query (fun d => (i, db_runtime_nodes d !! i))) related;
  match found ≫= (fun f => if str_eqb f.1 nodeId then option_list f.2 else []) with
  | state :: _ =>
      _ ← require (match epoch with Some e => is_counter false e && (rn_session_epoch state =? e) | None => true end)
            "SESSION_SUPERSEDED" "Current Node session required";
      mret state
  | [] => throw "SESSION_SUPERSEDED" "Current Node session required"
  end.

Definition check_credential (now : Z) (nodeId : jsstr) (fingerprint : option jsstr) : tx unit :=
  match given fingerprint with Some fp => _ ← credential now nodeId fp; mret tt | None => mret tt end.

(** [digest([...a].sort())!==digest([...b].sort())] *)
Definition capabilities_differ (a b : list jsstr) : outcome bool :=
  da ← digest (strs_json (sort_by str_leb a));
  db ← digest (strs_json (sort_by str_leb b));
  Returns (negb (str_eqb da db)).

(** The session of [hello]: its epoch. *)
Definition hello_session (now : Z) (nodeId : jsstr) (input : HelloRequest) (fingerprint : option jsstr) : tx Z :=
  current ← locked nodeId None;
  _ ← check_credential now nodeId fingerprint;
  authorized_ ← facts now nodeId;
  _ ← require (hreq_lastStoredSnapshotGeneration input <=? rn_snapshot_generation current) "INTEGRITY_FAILURE" "Control history is older than Node state";
  let epoch := rn_session_epoch current in
  boot ← query (fun d => db_boots d !! (nodeId, hreq_bootId input));
  match boot with
  | Some e =>
      _ ← require ((e =? epoch) && bool_decide (rn_boot_id current = Some (hreq_bootId input))) "SESSION_SUPERSEDED" "Boot already retired";
      differ ← lift (capabilities_differ (nf_capabilities (ns_facts authorized_)) (hreq_capabilities input));
      _ ← require (negb differ) "INTEGRITY_FAILURE" "Current boot capabilities cannot change";
      mret epoch
  | None =>
      _ ← require (epoch <? MAX_COUNTER) "RESOURCE_LIMIT" "Session counter exhausted";
      _ ← insert_row db_boots with_boots (nodeId, hreq_bootId input) (epoch + 1);
      _ ← update_node nodeId (set_session (epoch + 1) (hreq_bootId input));
      _ ← set_capabilities now nodeId (hreq_capabilities input);
      mret (epoch + 1)
  end.

(** The checks before the transaction; [protocolVersion] is 3 by the type of the message. *)
Definition hello_checks (nodeId : jsstr) (input : HelloRequest) : outcome unit :=
  let has c := includes (hreq_capabilities input) (js c) in
  _ ← throw_if (negb (has "adp.3"%string)) "UNSUPPORTED_PROTOCOL_VERSION" "ADP/3 capability required";
  _ ← throw_if (negb (str_eqb (hreq_nodeId input) nodeId)) "AUTHORIZATION_DENIED" "Foreign Node identity";
  throw_if (negb (has "tcp"%string) && negb (has "udp"%string) || negb (has "native.direct.v1"%string))
    "UNSUPPORTED_CAPABILITY" "Direct protocol capability required".

Definition hello_in (now : Z) (nodeId : jsstr) (input : HelloRequest) (fingerprint : option jsstr) : tx HelloResponse :=
  epoch ← hello_session now nodeId input fingerprint;
  serverTime ← lift (toISOString now);
  mret (MkHelloResponse nodeId (hreq_bootId input) epoch serverTime policy).

Definition hello (now : Z) (nodeId : jsstr) (input : HelloRequest) (fingerprint : option jsstr) (w : World) : outcome HelloResponse * World :=
  match hello_checks nodeId input with
  | Throws e => (Throws e, w)
  | Returns _ => guarded (of_tx (hello_in now nodeId input fingerprint)) w
  end.

(** ** Publication *)

(** [COUNT] of the accepted Operations on Forwards that enter at the Node *)
Definition awaiting_claim (nodeId : jsstr) (d : Db) : bool :=
  existsb (fun io : op_row => bool_decide (op_status io.2 = s_accepted) &&
    match db_forwards d !! op_forward_id io.2 with
    | Some f => (fw_revision f =? op_target_revision io.2) && str_eqb (ingress_nodeId (fw_spec f)) nodeId
    | None => false
    end) (map_to_list (db_operations d)).

(** [keepMultihop]: every hop of the previous Snapshot is still there, unchanged. *)
Definition keeps_hops (previous : RuntimeSnapshot) (next : list RuntimeAssignment) : bool :=
  forallb (fun old => negb (is_hop_role (rua_role old)) ||
    existsb (fun a => carries old a && bool_decide (rua_phase a = rua_phase old)) next) (rus_assignments previous).

(** The previous Snapshot is returned while accepted work waits for its claim. *)
Definition keep_until_claimed (now credentialUntil epoch : Z) (previous : RuntimeSnapshot) (next : list RuntimeAssignment) : bool :=
  let until := Date_text (rus_validUntil previous) in
  keeps_hops previous next && (rus_sessionEpoch previous =? epoch) && n_lt (Some (now + 5000)) until && n_le until (Some credentialUntil).

(** The previous Snapshot still says the same and need not be renewed yet. *)
Definition keep_unchanged (now bound epoch : Z) (previous : RuntimeSnapshot) (next : list RuntimeAssignment) : outcome bool :=
  let until := Date_text (rus_validUntil previous) in
  if negb (rus_sessionEpoch previous =? epoch) then Returns false else
  a ← digest (assignments_json (rus_assignments previous));
  b ← digest (assignments_json next);
  Returns (str_eqb a b && n_le until (Some bound) && n_lt (Some (renewalLeadSeconds policy * 1000)) (n_sub until (Some now))).

Definition publish_input (now : Z) (nodeId : jsstr) (state : RuntimeNode) (validUntil : Z) (next : list RuntimeAssignment)
    (retired : list RuntimeTombstone) : outcome SnapshotInput :=
  issued_ ← toISOString now;
  valid ← toISOString validUntil;
  Returns (MkSnapshotInput nodeId (rn_session_epoch state) (rn_snapshot_generation state + 1) issued_ valid next retired (Some policy)).

(** What there is to publish: the previous Snapshot, or the input of a new one. *)
Definition prepare_publication (now : Z) (nodeId : jsstr) (state : RuntimeNode) (fingerprint : option jsstr) : tx (RuntimeSnapshot + SnapshotInput) :=
  node ← Nodes.state nodeId;
  credentialUntil ← match given fingerprint with Some fp => credential now nodeId fp | None => mret (ns_credentialUntil node) end;
  let withdrawn := ns_revoked node || (credentialUntil <=? now) in
  previous ← query (fun d => sn_body <$> db_snapshots d !! (nodeId, rn_snapshot_generation state));
  awaiting ← query (awaiting_claim nodeId);
  _ ← advanceForNode policy multihopEnabled uuid now nodeId;
  collected ← (if (withdrawn : bool) then mret [] else node_assignments policy multihopEnabled now (ns_facts node) false);
  let next := map (with_drain (policy_drainTimeoutSeconds policy)) collected in
  let epoch := rn_session_epoch state in
  let waits := match previous with Some p => negb withdrawn && awaiting && keep_until_claimed now credentialUntil epoch p next | None => false end in
  match previous, waits with
  | Some p, true => mret (inl p)
  | _, _ =>
      relayBound ← authorizationBound now next;
      let bound := Z.min credentialUntil relayBound in
      same ← match previous with Some p => lift (keep_unchanged now bound epoch p next) | None => mret false end;
      match previous, same with
      | Some p, true => mret (inl p)
      | _, _ =>
          _ ← require (negb (epoch =? 0)) "SESSION_SUPERSEDED" "Hello required before snapshot";
          _ ← require (rn_snapshot_generation state <? MAX_COUNTER) "RESOURCE_LIMIT" "Snapshot counter exhausted";
          _ ← retireChanged nodeId previous next (rn_snapshot_generation state + 1);
          retired ← tombstones nodeId (rn_snapshot_generation state + 1);
          let lease := now + leaseSeconds policy * 1000 in
          input ← lift (publish_input now nodeId state (if (withdrawn : bool) then lease else Z.min lease bound) next retired);
          mret (inr input)
      end
  end.

(** The worker's claim is still the current one. *)
Definition check_claim (now : Z) (claim : option Claim) : tx unit :=
  match claim with
  | None => mret tt
  | Some c =>
      current ← query (fun d => db_operations d !! cl_id c);
      require (match current with
               | Some o => bool_decide (op_status o = s_running) && bool_decide (op_claim_token o = Some (cl_token c)) &&
                           (now <? cl_until c) && (now <? op_execution_deadline o)
               | None => false
               end) "STALE_CLAIM" "Worker claim expired before publication"
  end.

(** [authority.issue(Date.parse(snapshot.validUntil), ...)]; [NaN] is not a safe integer. *)
Definition issue_snapshot (now : Z) (s : RuntimeSnapshot) (r : AuthorityRecord) : outcome AuthorityRecord :=
  match Date_text (rus_validUntil s) with
  | Some until => issue now until (leaseSeconds policy) (maxClockSkewSeconds policy) r
  | None => Throws (Exn "Error" "Invalid authority publication bound")
  end.

Definition store_snapshot (nodeId : jsstr) (epoch : Z) (s : RuntimeSnapshot) : tx unit :=
  match Date_text (rus_validUntil s) with
  | None => throw "ER_BAD_FIELD_ERROR" "Unknown column NaN"
  | Some until =>
      _ ← insert_row db_snapshots with_snapshots (nodeId, rus_snapshotGeneration s) (MkSnapshotRow epoch until s);
      _ ← update_node nodeId (set_generation (rus_snapshotGeneration s));
      recordLeases s
  end.

Definition compile_publication (now : Z) (input : SnapshotInput) (claim : option Claim) : tx RuntimeSnapshot :=
  s ← lift (compileSnapshot input);
  _ ← verifyPublishable now (si_assignments input);
  _ ← check_claim now claim;
  mret s.

Definition publish (now : Z) (nodeId : jsstr) (state : RuntimeNode) (claim : option Claim) (fingerprint : option jsstr) : act RuntimeSnapshot :=
  prepared_ ← of_tx (prepare_publication now nodeId state fingerprint);
  match prepared_ with
  | inl previous => mret previous
  | inr input =>
      s ← of_tx (compile_publication now input claim);
      _ ← on_authority (issue_snapshot now s);
      _ ← of_tx (store_snapshot nodeId (rn_session_epoch state) s);
      mret s
  end.

(** The transaction of [snapshot]. *)
Definition snapshot_in (now : Z) (nodeId : jsstr) (epoch : Z) (fingerprint : option jsstr) : act RuntimeSnapshot :=
  state ← of_tx (locked nodeId (Some epoch));
  s ← publish now nodeId state None fingerprint;
  _ ← of_tx (complete now nodeId None None);
  mret s.

Definition snapshot (now : Z) (nodeId : jsstr) (epoch : Z) (fingerprint : option jsstr) (w : World) : outcome RuntimeSnapshot * World :=
  guarded (snapshot_in now nodeId epoch fingerprint) w.

(** ** The worker *)

(** The Nodes with cleanup to do: [SELECT ... UNION SELECT ... LIMIT 20]. *)
Definition cleanup_nodes (d : Db) : list jsstr :=
  take 20 (new_Set (
    map (fun kr : instance_id * Retirement => kr.1.1.1.1) (List.filter (fun kr : instance_id * Retirement => negb (rt_safe kr.2)) (map_to_list (db_retirements d))) ++
    (map_to_list (db_operations d) ≫= fun io : op_row =>
       if op_cleanup_pending io.2 && bool_decide (op_status io.2 = s_failed)
       then match db_forwards d !! op_forward_id io.2 with Some f => [ingress_nodeId (fw_spec f)] | None => [] end else []))).

(** The transaction of one Node in [tick]. *)
Definition tick_node (now : Z) (nodeId : jsstr) : act unit :=
  state ← of_tx (locked nodeId None);
  _ ← (if rn_session_epoch state =? 0 then mret tt else _ ← publish now nodeId state None None; mret tt);
  _ ← of_tx (complete now nodeId None None);
  of_tx (advanceForNode policy multihopEnabled uuid now nodeId).

(** The transaction that follows a claim. *)
Definition tick_claim (now : Z) (claimed : op_row) : act unit :=
  '(f, _, _) ← of_tx (record_of (op_scope_id claimed.2) (op_forward_id claimed.2));
  state ← of_tx (locked (ingress_nodeId (spec f)) None);
  current ← of_tx (get_operation (op_scope_id claimed.2) claimed.1);
  if negb (bool_decide (op_status current = s_running)) || negb (bool_decide (op_claim_token current = op_claim_token claimed.2)) ||
     negb match op_claim_until current with Some until => now <? until | None => false end ||
     negb (op_target_revision current =? revision f) then mret tt else
  if rn_session_epoch state =? 0 then mret tt else
  match op_claim_token claimed.2, op_claim_until claimed.2 with
  | Some token, Some until => _ ← publish now (ingress_nodeId (spec f)) state (Some (MkClaim claimed.1 token until)) None; mret tt
  | _, _ => mret tt
  end.

(** [for (...) await this.db.transaction(...)], the transactions at times [clock 0], [clock 1], ... *)
Fixpoint each_transaction {A} (body : nat -> A -> World -> outcome unit * World) (i : nat) (l : list A) (w : World) : outcome unit * World :=
  match l with
  | [] => (Returns tt, w)
  | x :: r => match body i x w with
              | (Returns _, w') => each_transaction body (S i) r w'
              | (Throws e, w') => (Throws e, w')
              end
  end.

(** [clock i] is the time of the [i]-th transaction, [token] the claim's [randomUUID()],
    [busy] the Operations locked by others. *)
Definition tick (clock : nat -> Z) (busy : gset jsstr) (token : jsstr) (w : World) : outcome unit * World :=
  let cleanup := cleanup_nodes w.1 in
  match guarded (of_tx (pendingNodeIDs)) w with
  | (Throws e, w1) => (Throws e, w1)
  | (Returns relayNodes, w1) =>
      let nodes := new_Set (relayNodes ++ cleanup) in
      match each_transaction (fun i nodeId => guarded (tick_node (clock i) nodeId)) 0 nodes w1 with
      | (Throws e, w2) => (Throws e, w2)
      | (Returns _, w2) =>
          match guarded (of_tx (claim_operation busy (clock (length nodes)) token)) w2 with
          | (Throws e, w3) => (Throws e, w3)
          | (Returns None, w3) => (Returns tt, w3)
          | (Returns (Some claimed), w3) => guarded (tick_claim (clock (S (length nodes))) claimed) w3
          end
      end
  end.

(** ** Reports *)

(** The observation belongs to an instance of the Snapshot, in its phase or absent. *)
Definition belongs (s : option RuntimeSnapshot) (o : Observation) : bool :=
  match s with
  | Some s => existsb (fun a => observes a o && (bool_decide (obs_phase o = present (rua_phase a)) || bool_decide (obs_phase o = absent))) (rus_assignments s)
  | None => false
  end.

(** The body of the loop over the Assignments. *)
Definition report_error (now : Z) (s : RuntimeSnapshot) (report : ReportRequest) (a : RuntimeAssignment) : tx unit :=
  match find (fun o => str_eqb (obs_assignmentId o) (rua_assignmentId a)) (rep_observations report) with
  | Some obs =>
      if negb (bool_decide (obs_condition obs = c_error)) then mret tt else
      if is_hop_role (rua_role a) then executionError uuid now s a obs else
      update_operations (fun _ o => str_eqb (op_forward_id o) (rua_forwardId a) && (op_target_revision o =? rua_forwardRevision a) &&
                                    bool_decide (op_status o = s_running))
        (set_reported_error (JObj [(js "code", text_json (obs_errorCode obs)); (js "retryable", JBool (obs_retryable obs))]) (obs_retryable obs) now)
  | None => mret tt
  end.

(** The part of [report] after the duplicate check. *)
Definition receive (now : Z) (nodeId : jsstr) (epoch : Z) (state : RuntimeNode) (report : ReportRequest) (requestDigest : jsstr) : tx unit :=
  _ ← require (rn_last_report_sequence state <? rep_reportSequence report) "STALE_GENERATION" "Report sequence regressed";
  s ← (if rep_acceptedSnapshotGeneration report =? 0 then mret None else query (published_in nodeId (rep_acceptedSnapshotGeneration report) epoch));
  _ ← require ((rep_acceptedSnapshotGeneration report =? 0) || bool_decide (is_Some s)) "STALE_GENERATION" "Unpublished snapshot reported";
  _ ← for_each (fun o => require (belongs s o) "FENCING_REJECTED" "Observation does not belong to published instance/phase") (rep_observations report);
  _ ← observeDrains nodeId epoch report;
  _ ← insert_row db_reports with_reports (nodeId, epoch, rep_reportSequence report) requestDigest;
  _ ← update_node nodeId (set_report report now);
  let current := match s with Some s => rus_snapshotGeneration s =? rn_snapshot_generation state | None => false end in
  _ ← match s with
      | Some s => if current && n_lt (Some (now + maxClockSkewSeconds policy * 1000)) (Date_text (rus_validUntil s))
                  then for_each (report_error now s report) (rus_assignments s) else mret tt
      | None => mret tt
      end;
  _ ← (if (current : bool) then complete now nodeId (Some report) s else mret tt);
  advanceForNode policy multihopEnabled uuid now nodeId.

(** The transaction of [report]. *)
Definition report_in (now : Z) (nodeId : jsstr) (epoch : Z) (report : ReportRequest) (fingerprint : option jsstr) : tx ReportAck :=
  state ← locked nodeId (Some epoch);
  _ ← check_credential now nodeId fingerprint;
  _ ← facts now nodeId;
  _ ← require (bool_decide (rn_boot_id state = Some (rep_bootId report))) "SESSION_SUPERSEDED" "Boot identity mismatch";
  requestDigest ← lift (digest (report_json report));
  prior ← query (fun d => db_reports d !! (nodeId, epoch, rep_reportSequence report));
  let ack := MkReportAck nodeId (rep_bootId report) epoch (rep_reportSequence report) in
  match prior with
  | Some known => _ ← require (str_eqb known requestDigest) "INTEGRITY_FAILURE" "Report sequence body changed"; mret (ack duplicate)
  | None => _ ← receive now nodeId epoch state report requestDigest; mret (ack accepted)
  end.

Definition report (now : Z) (nodeId : jsstr) (epoch : Z) (r : ReportRequest) (fingerprint : option jsstr) (w : World) : outcome ReportAck * World :=
  if str_eqb (rep_nodeId r) nodeId && (rep_sessionEpoch r =? epoch)
  then guarded (of_tx (report_in now nodeId epoch r fingerprint)) w
  else (Throws (Exn "AUTHORIZATION_DENIED" "Report identity mismatch"), w).

(** ** Status *)

Inductive HealthCondition := h_unknown | h_ready | h_degraded.

Record AppliedObservation := MkApplied { ap_observation : Observation; ap_nodeId : jsstr; ap_forwardRevision : Z; ap_role : RuntimeRole }.

(** Times are milliseconds; the code prints them as ISO texts. *)
Record Health := MkHealth { hl_condition : HealthCondition; hl_receivedAt : option Z; hl_freshUntil : option Z }.

Definition applied_of (nodeId : jsstr) (assignments : list RuntimeAssignment) (o : Observation) : list AppliedObservation :=
  match find (fun a => observes a o) assignments with
  | Some a => [MkApplied o nodeId (rua_forwardRevision a) (rua_role a)]
  | None => []
  end.

(** [Math.min(...)] of milliseconds, [NaN] if one is [NaN] *)
Definition min3 (a : Z) (b c : jsnum_opt) : jsnum_opt :=
  match b, c with Some b, Some c => Some (Z.min a (Z.min b c)) | _, _ => None end.

(** A time that is not 0 and not [NaN]. *)
Definition truthy_time (t : jsnum_opt) : option Z := match t with Some t => if t =? 0 then None else Some t | None => None end.

Definition node_status (now : Z) (f : Forward) (nodeId : jsstr) : tx (list AppliedObservation * Health) :=
  row ← query (fun d => db_runtime_nodes d !! nodeId);
  match row with
  | None => throw "TypeError" "Cannot read properties of undefined"
  | Some state =>
      current ← query (fun d => if rn_snapshot_generation state =? 0 then None else sn_body <$> db_snapshots d !! (nodeId, rn_snapshot_generation state));
      let assignments := match current with Some s => List.filter (fun a => str_eqb (rua_forwardId a) (id f)) (rus_assignments s) | None => [] end in
      let applied := match rn_last_report state with Some r => rep_observations r ≫= applied_of nodeId assignments | None => [] end in
      reported ← match rn_last_report state with
                 | Some r => query (published_in nodeId (rep_acceptedSnapshotGeneration r) (rep_sessionEpoch r))
                 | None => mret None
                 end;
      let skew := maxClockSkewSeconds policy * 1000 in
      let freshUntil := match rn_received_at state, current, reported with
                        | Some received, Some c, Some p => min3 (received + observationFreshnessSeconds policy * 1000)
                                                             (n_sub (Date_text (rus_validUntil c)) (Some skew)) (n_sub (Date_text (rus_validUntil p)) (Some skew))
                        | _, _, _ => None
                        end in
      let fresh := match freshUntil, rn_last_report state with
                   | Some u, Some r => (now <? u) && (rep_sessionEpoch r =? rn_session_epoch state)
                   | _, _ => false
                   end in
      mret (applied, MkHealth (if negb fresh then h_unknown else
                                 if (length applied =? length (protocols (spec f)))%nat && forallb (fun a => bool_decide (obs_condition (ap_observation a) = c_ready)) applied
                                 then h_ready else h_degraded)
                       (truthy_time (rn_received_at state)) (truthy_time freshUntil))
  end.

Definition is_health (c : HealthCondition) (h : Health) : bool := match hl_condition h, c with h_unknown, h_unknown | h_ready, h_ready | h_degraded, h_degraded => true | _, _ => false end.

(** The earliest of the times, if every Node has one. *)
Definition earliest (ts : list (option Z)) : option Z :=
  match mapM (fun t => t) ts with Some (t :: r) => Some (fold_left Z.min r t) | _ => None end.

Definition status (now : Z) (f : Forward) : tx (list AppliedObservation * Health) :=
  match path_via (spec f) with
  | None => node_status now f (ingress_nodeId (spec f))
  | Some via =>
      states ← collect_each (node_status now f) (ingress_nodeId (spec f) :: via);
      let healths := map snd states in
      mret (concat (map fst states),
            MkHealth (if existsb (is_health h_unknown) healths then h_unknown else if forallb (is_health h_ready) healths then h_ready else h_degraded)
              (earliest (map hl_receivedAt healths)) (earliest (map hl_freshUntil healths)))
  end.
End Controller.
