(* ===== verification/ControllerSafety.v ===== *)
(** Safety of the Runtime controller: its counters only grow, and whatever it authorizes is
    recorded before it can be used. *)

From S2P Require Import Prelude.
From S2P Require Import JsString.
From S2P Require Import Forward.
From S2P Require Import Primitives.
From S2P Require Import Digest.
From S2P Require Import Types.
From S2P Require Import Validate.
From S2P Require Import Schema.
From S2P Require Import Relay.
From S2P Require Import Adp3.
From S2P Require Import Transit.
From S2P Require Import Probe.
From S2P Require Import TargetPolicy.
From S2P Require Import Planner.
From S2P Require Import Printed.
From S2P Require Import RelayPlan.
From S2P Require Import Iso.
From S2P Require Import Authority.
From S2P Require Import Store.
From S2P Require Import Forwarding.
From S2P Require Import Operations.
From S2P Require Import Retirements.
From S2P Require Import Nodes.
From S2P Require Import Reads.
From S2P Require Import RelayDeployments.
From S2P Require Import RelayLocks.
From S2P Require Import RelayCoordinator.
From S2P Require Import RelayFrame.
From S2P Require Import Controller.

Local Open Scope Z_scope.

(** ** Transactions that publish nothing *)

(** The counters of a Node: the session only grows, and within a session the reports. *)
Record node_le (r r' : RuntimeNode) : Prop := {
  nl_epoch : rn_session_epoch r <= rn_session_epoch r';
  nl_reports : rn_session_epoch r' = rn_session_epoch r -> rn_last_report_sequence r <= rn_last_report_sequence r';
}.

#[export] Instance node_le_preorder : PreOrder node_le.
Proof. split; [intros r; split; lia|]. intros r r1 r2 [] []. split; lia. Qed.

(** A boot belongs to one session, and the current session to one boot. *)
Definition sessions_ok (d : Db) : Prop := forall n b e, db_boots d !! (n, b) = Some e ->
  exists row, db_runtime_nodes d !! n = Some row /\ e <= rn_session_epoch row /\ (e = rn_session_epoch row -> rn_boot_id row = Some b).

Record quiet (d d' : Db) : Prop := {
  qt_sessions : sessions_ok d -> sessions_ok d';
  qt_snapshots : db_snapshots d' = db_snapshots d;
  qt_leases : db_leases d' = db_leases d;
  qt_retired : retired_stays d d';
  qt_boots : db_boots d ⊆ db_boots d';
  qt_reports : db_reports d ⊆ db_reports d';
  qt_nodes : forall n r, db_runtime_nodes d !! n = Some r -> exists r', db_runtime_nodes d' !! n = Some r' /\ node_le r r' /\
    rn_snapshot_generation r' = rn_snapshot_generation r;
}.

#[export] Instance quiet_preorder : PreOrder quiet.
Proof.
  split.
  - intros d. split; [done|done|done|by intros k|done|done|]. intros n r Hr. exists r. split_and!; [done|reflexivity|done].
  - intros d d1 d2 [O1 S1 L1 R1 B1 P1 N1] [O2 S2 L2 R2 B2 P2 N2]. split; [auto|congruence|congruence| |by etransitivity|by etransitivity|].
    + intros k Hk. by apply R2, R1.
    + intros n r (r1 & Hr1 & ? & ?)%N1. apply N2 in Hr1 as (r2 & ? & ? & ?). exists r2. split_and!; [done|by etransitivity|congruence].
Qed.

(** Another column of the rows, or another table. *)
Lemma sessions_same d d' : db_boots d' = db_boots d ->
  (forall n row, db_runtime_nodes d !! n = Some row -> exists row', db_runtime_nodes d' !! n = Some row' /\ rn_session_epoch row' = rn_session_epoch row /\ rn_boot_id row' = rn_boot_id row) ->
  sessions_ok d -> sessions_ok d'.
Proof.
  intros Eb Hn Hs n b e Hb. rewrite Eb in Hb. destruct (Hs _ _ _ Hb) as (row & (row' & Hr' & Ee & Ei)%Hn & Hle & Hc). exists row'. rewrite Ee, Ei. done.
Qed.

Lemma sessions_beside d d' : db_boots d' = db_boots d -> db_runtime_nodes d' = db_runtime_nodes d -> sessions_ok d -> sessions_ok d'.
Proof. intros Eb En. apply sessions_same; [done|]. rewrite En. eauto. Qed.

Lemma coordinator_quiet {A} (m : tx A) : evolves coordinator_step m -> evolves quiet m.
Proof.
  intros Hm d a d' ([Hb Hr] & Eb & Ep & _)%Hm. unfold beside in Hb. injection Hb as _ _ Hl Hs Hn _ _ _ _ _.
  split; [by apply sessions_beside|done|done|done|by rewrite Eb|by rewrite Ep|]. rewrite Hn. intros n r Hnr. exists r. split_and!; [done|reflexivity|done].
Qed.

Lemma work_quiet {A} (m : tx A) : evolves work_step m -> evolves quiet m.
Proof. intros Hm. apply coordinator_quiet. eauto with evolves typeclass_instances. Qed.

#[export] Hint Extern 5 (evolves quiet _) => apply evolves_reads; [apply _|] : evolves.
#[export] Hint Extern 7 (evolves quiet _) => apply work_quiet : evolves.
#[export] Hint Extern 8 (evolves quiet _) => apply coordinator_quiet : evolves.

(** ** Sessions *)

Lemma collect_queries {A B} (f : A -> Db -> B) l d ys d' : collect_each (fun x => query (f x)) l d = Returns (ys, d') -> d' = d /\ ys = map (fun x => f x d) l.
Proof.
  revert ys d'. induction l as [|x l IH]; intros ys d' Hr; cbn in Hr; tx_inv; [done|]. apply IH in Hrun0 as [-> ->]. done.
Qed.

Section Safety.
Context `{Hashing, Schema RelayProfileConfig, Schema RelayOpen, Schema RelayAssignment, Adp2Schemas, Adp3Schemas, Locale}.
Context (policy : Policy) (multihopEnabled : bool) (uuid : Db -> jsstr).

Lemma controller_locked_Returns n epoch d state d' : locked n epoch d = Returns (state, d') ->
  d' = d /\ db_runtime_nodes d !! n = Some state /\ match epoch with Some e => rn_session_epoch state = e | None => True end.
Proof using.
  unfold locked. intros (related & d1 & He & Hr)%tx_bind_Returns. apply reads_relatedNodeIDs in He as <-.
  apply tx_bind_Returns in Hr as (found & d1 & [-> ->]%collect_queries & Hr).
  destruct (_ ≫= _) as [|s l] eqn:E; [done|]. tx_inv. simplify_eq. split; [done|].
  assert (Hin : s ∈ (map (fun i => (i, db_runtime_nodes d !! i)) related ≫= (fun f => if str_eqb f.1 n then option_list f.2 else []))) by (rewrite E; left).
  apply list_elem_of_bind in Hin as (f & Hs & (i & -> & _)%list_elem_of_fmap). cbn in Hs. unfold str_eqb in Hs. case_bool_decide as Ei; [|by apply elem_of_nil in Hs].
  subst i. destruct (db_runtime_nodes d !! n) as [x|]; cbn in Hs; [|by apply elem_of_nil in Hs]. apply list_elem_of_singleton in Hs as ->. split; [done|].
  destruct epoch as [e|]; [|done]. propify. lia.
Qed.

(** The row of one Node is rewritten. *)
Lemma quiet_update n c d : (forall r, db_runtime_nodes d !! n = Some r -> node_le r (c r) /\ rn_snapshot_generation (c r) = rn_snapshot_generation r) ->
  (sessions_ok d -> sessions_ok (with_runtime_nodes (alter c n) d)) -> quiet d (with_runtime_nodes (alter c n) d).
Proof using.
  intros Hc Ho. split; [exact Ho|done|done|by intros k|done|done|]. intros n' r Hr. cbn. destruct (decide (n = n')) as [<-|Hne].
  - rewrite lookup_alter_eq, Hr. cbn. destruct (Hc _ Hr). by eexists.
  - rewrite lookup_alter_ne, Hr by done. exists r. split_and!; [done|reflexivity|done].
Qed.

Lemma alter_sessions n (c : RuntimeNode -> RuntimeNode) d : (forall r, rn_session_epoch (c r) = rn_session_epoch r /\ rn_boot_id (c r) = rn_boot_id r) ->
  forall m row, db_runtime_nodes d !! m = Some row ->
    exists row', db_runtime_nodes (with_runtime_nodes (alter c n) d) !! m = Some row' /\ rn_session_epoch row' = rn_session_epoch row /\ rn_boot_id row' = rn_boot_id row.
Proof using.
  intros Hc m row Hm. cbn. destruct (decide (n = m)) as [<-|]; [rewrite lookup_alter_eq, Hm|rewrite lookup_alter_ne by done; by exists row].
  exists (c row). split; [done|apply Hc].
Qed.

Lemma quiet_capabilities now n caps : evolves quiet (set_capabilities now n caps).
Proof using.
  assert (Hm : forall f, evolves quiet (modify (with_machines f))).
  { intros f. apply evolves_modify. intros d. split; [by apply sessions_beside|done|done|by intros k|done|done|]. intros m r Hr. exists r. split_and!; [done|reflexivity|done]. }
  unfold set_capabilities. evolve; apply Hm.
Qed.

(** What a [hello] does: a boot that is known is the current one, a new boot begins the next
    session. *)
Lemma hello_session_Returns now n input fp d e d' : hello_session now n input fp d = Returns (e, d') ->
  exists row, db_runtime_nodes d !! n = Some row /\ quiet d d' /\ db_boots d' !! (n, hreq_bootId input) = Some e /\
    (exists row', db_runtime_nodes d' !! n = Some row' /\ rn_session_epoch row' = e /\ rn_boot_id row' = Some (hreq_bootId input)) /\
    match db_boots d !! (n, hreq_bootId input) with
    | Some e0 => e = e0 /\ d' = d
    | None => e = rn_session_epoch row + 1 /\ e <= MAX_COUNTER
    end.
Proof using.
  unfold hello_session. intros (row & d1 & [-> [Hrow _]]%controller_locked_Returns & Hr)%tx_bind_Returns. exists row. split; [done|].
  apply tx_bind_Returns in Hr as ([] & d1 & Hc & Hr).
  assert (d1 = d) as ->. { symmetry. revert Hc. assert (He : evolves eq (check_credential now n fp)) by (unfold check_credential; evolve). apply He. }
  apply tx_bind_Returns in Hr as (st & d1 & Hc2 & Hr). apply reads_facts in Hc2 as <-.
  apply tx_bind_Returns in Hr as ([] & d1 & [_ ->]%require_Returns & Hr). cbn zeta in Hr.
  apply tx_bind_Returns in Hr as (boot & d1 & [-> ->]%query_Returns & Hr).
  destruct (db_boots d !! (n, hreq_bootId input)) as [e0|] eqn:Eb.
  - apply tx_bind_Returns in Hr as ([] & d1 & [G ->]%require_Returns & Hr). tx_inv. propify.
    subst e0. split_and!; [reflexivity|done| |done|done]. exists row. split_and!; done.
  - apply tx_bind_Returns in Hr as ([] & d1 & [Hmax%Z.ltb_lt ->]%require_Returns & Hr).
    apply tx_bind_Returns in Hr as ([] & d1 & [Hnone ->]%insert_row_Returns & Hr). set (d1 := with_boots _ d) in *.
    apply tx_bind_Returns in Hr as ([] & d2 & ->%modify_Returns & Hr). set (d2 := with_runtime_nodes _ d1) in *.
    apply tx_bind_Returns in Hr as ([] & d3 & Hcap & [-> ->]%mret_Returns). pose proof (quiet_capabilities _ _ _ _ _ _ Hcap) as Hq.
    assert (Hrow2 : db_runtime_nodes d2 !! n = Some (set_session (rn_session_epoch row + 1) (hreq_bootId input) row)).
    { cbn. rewrite lookup_alter_eq. change (db_runtime_nodes d1 !! n) with (db_runtime_nodes d !! n). by rewrite Hrow. }
    assert (Hnodes : db_runtime_nodes d3 = db_runtime_nodes d2 /\ db_boots d3 = db_boots d2).
    { unfold set_capabilities in Hcap. tx_inv. by apply reads_facts in Hrun as <-. }
    assert (Hq2 : quiet d d2).
    { split; [|done|done|by intros k|cbn; by apply insert_subseteq|done|].
      - intros Hs m b x Hb. cbn in Hb. destruct (decide ((n, hreq_bootId input) = (m, b))) as [E|Hne].
        + rewrite E, lookup_insert_eq in Hb. injection Hb as <-. injection E as <- <-. eexists. split; [exact Hrow2|]. split; [cbn; lia|done].
        + rewrite lookup_insert_ne in Hb by done. destruct (Hs _ _ _ Hb) as (r0 & Hr0 & Hle & Hcur). destruct (decide (n = m)) as [<-|Hnm].
          * rewrite Hrow in Hr0. injection Hr0 as <-. eexists. split; [exact Hrow2|]. split; cbn; lia.
          * exists r0. cbn. rewrite lookup_alter_ne by done. done.
      - intros m r0 Hm. cbn. destruct (decide (n = m)) as [<-|Hnm]; [|rewrite lookup_alter_ne by done; exists r0; split_and!; [done|reflexivity|done]].
        rewrite lookup_alter_eq. change (db_runtime_nodes d !! n = Some r0) in Hm. rewrite Hrow in Hm. injection Hm as <-.
        change (db_runtime_nodes d1 !! n) with (db_runtime_nodes d !! n). rewrite Hrow. eexists. split_and!; [done|split; cbn; lia|done]. }
    destruct Hnodes as [En Eb3]. split_and!.
    + by etransitivity.
    + rewrite Eb3. cbn. by rewrite lookup_insert_eq.
    + rewrite En. eexists. split; [exact Hrow2|done].
    + done.
    + lia.
Qed.

(** ** Reports *)

Lemma quiet_report_error now s r a : evolves quiet (report_error uuid now s r a).
Proof using. unfold report_error. evolve. Qed.

Lemma quiet_insert_report k dg : evolves quiet (insert_row db_reports with_reports k dg).
Proof using.
  intros d u d' [Hn ->]%insert_row_Returns. split; [by apply sessions_beside|done|done|by intros k'|done|cbn; by apply insert_subseteq|].
  intros m r Hm. exists r. split_and!; [done|reflexivity|done].
Qed.

(** A report that is received is stored under its sequence number, which is new. *)
Lemma receive_Returns now n epoch state r dg d u d' : db_runtime_nodes d !! n = Some state ->
  receive policy multihopEnabled uuid now n epoch state r dg d = Returns (u, d') ->
  quiet d d' /\ rn_last_report_sequence state < rep_reportSequence r /\
  db_reports d !! (n, epoch, rep_reportSequence r) = None /\ db_reports d' !! (n, epoch, rep_reportSequence r) = Some dg.
Proof using.
  intros Hn. unfold receive. intros ([] & d1 & [Hseq%Z.ltb_lt ->]%require_Returns & Hr)%tx_bind_Returns.
  apply tx_bind_Returns in Hr as (s & d1 & Hs & Hr).
  assert (d1 = d) as ->. { destruct (_ =? 0) in Hs; [by apply mret_Returns in Hs as [_ ->]|by apply query_Returns in Hs as [_ ->]]. }
  apply tx_bind_Returns in Hr as ([] & d1 & [_ ->]%require_Returns & Hr).
  apply tx_bind_Returns in Hr as ([] & d1 & Hobs & Hr). assert (d1 = d) as ->. { symmetry. revert Hobs. match goal with |- ?m d = _ -> _ => assert (He : evolves eq m) by evolve; apply He end. }
  apply tx_bind_Returns in Hr as ([] & d1 & Hd & Hr). pose proof (work_observeDrains _ _ _ _ _ _ Hd) as Hw.
  pose proof (work_quiet _ (work_observeDrains n epoch r) _ _ _ Hd) as Hq1.
  apply tx_bind_Returns in Hr as ([] & d2 & Hins & Hr). pose proof (quiet_insert_report _ _ _ _ _ Hins) as Hq2. apply insert_row_Returns in Hins as [Hnone ->].
  set (d2 := with_reports _ d1) in *. apply tx_bind_Returns in Hr as ([] & d3 & ->%modify_Returns & Hr). set (d3 := with_runtime_nodes _ d2) in *.
  assert (Hn1 : db_runtime_nodes d1 = db_runtime_nodes d). { destruct Hw as [[Hb _] _]. unfold beside in Hb. congruence. }
  assert (Hrep1 : db_reports d1 = db_reports d). { destruct Hw as [_ E]. unfold db_reports. by rewrite E. }
  assert (Hq3 : quiet d2 d3).
  { apply quiet_update; [|apply sessions_same; [done|apply alter_sessions; done]].
    intros r0 Hr0. change (db_runtime_nodes d1 !! n = Some r0) in Hr0. rewrite Hn1, Hn in Hr0. injection Hr0 as <-. split; [split; cbn; lia|done]. }
  assert (Hq4 : quiet d3 d').
  { revert Hr. cbn zeta. match goal with |- ?m d3 = _ -> _ => assert (He : evolves quiet m); [|apply He] end. evolve; apply quiet_report_error. }
  split_and!; [etransitivity; [exact Hq1|]; etransitivity; [exact Hq2|]; by etransitivity|done|by rewrite <- Hrep1|].
  pose proof (qt_reports _ _ Hq4) as Hsub. eapply lookup_weaken; [|exact Hsub]. cbn. by rewrite lookup_insert_eq.
Qed.

(** A run of [report]: its session and its boot are current; either its sequence number is
    known with this very body and nothing changes, or it is new. *)
Lemma report_in_Returns now n epoch r fp d ack d' : report_in policy multihopEnabled uuid now n epoch r fp d = Returns (ack, d') ->
  exists state dg, db_runtime_nodes d !! n = Some state /\ rn_session_epoch state = epoch /\ rn_boot_id state = Some (rep_bootId r) /\
    digest (report_json r) = Returns dg /\ quiet d d' /\ db_reports d' !! (n, epoch, rep_reportSequence r) = Some dg /\
    match ack_status ack with
    | duplicate => d' = d
    | accepted => db_reports d !! (n, epoch, rep_reportSequence r) = None /\ rn_last_report_sequence state < rep_reportSequence r
    end.
Proof using.
  unfold report_in. intros (state & d1 & [-> [Hrow Hep]]%controller_locked_Returns & Hr)%tx_bind_Returns.
  apply tx_bind_Returns in Hr as ([] & d1 & Hc & Hr).
  assert (d1 = d) as ->. { symmetry. revert Hc. assert (He : evolves eq (check_credential now n fp)) by (unfold check_credential; evolve). apply He. }
  apply tx_bind_Returns in Hr as (st & d1 & Hc2 & Hr). apply reads_facts in Hc2 as <-.
  apply tx_bind_Returns in Hr as ([] & d1 & [Hboot%bool_decide_eq_true ->]%require_Returns & Hr).
  apply tx_bind_Returns in Hr as (dg & d1 & [Hdg ->]%lift_Returns & Hr). apply tx_bind_Returns in Hr as (prior & d1 & [-> ->]%query_Returns & Hr).
  cbn zeta in Hr. exists state, dg. split_and!; try done.
  all: destruct (db_reports d !! (n, epoch, rep_reportSequence r)) as [known|] eqn:E.
  all: apply tx_bind_Returns in Hr as ([] & d1 & Hin & [-> ->]%mret_Returns).
  all: first [apply require_Returns in Hin as [Heq ->] | apply receive_Returns in Hin as (? & ? & ? & ?); [|done]].
  all: unfold str_eqb in *; try apply bool_decide_eq_true in Heq; cbn; subst; done.
Qed.

(** ** Publication *)

(** Leases only grow, and the only new ones are of the instances given. *)
Record leases_for (n : jsstr) (epoch until : Z) (l : list RuntimeAssignment) (m m' : gmap lease_id Lease) : Prop := {
  lf_grow : forall k x, m !! k = Some x -> exists x', m' !! k = Some x' /\ ls_forward_id x' = ls_forward_id x /\ ls_valid_until x <= ls_valid_until x';
  lf_each : forall a, a ∈ l -> exists x, m' !! (assignment_instance n a, epoch) = Some x /\ until <= ls_valid_until x;
  lf_only : forall k x, m' !! k = Some x -> is_Some (m !! k) \/ exists a, a ∈ l /\ k = (assignment_instance n a, epoch);
}.

Lemma extend_lease_spec (k : lease_id) (f : jsstr) (until : Z) (m : gmap lease_id Lease) :
  (exists x, extend_lease k f until m !! k = Some x /\ until <= ls_valid_until x /\
     forall y, m !! k = Some y -> ls_forward_id x = ls_forward_id y /\ ls_valid_until y <= ls_valid_until x) /\
  forall j, j <> k -> extend_lease k f until m !! j = m !! j.
Proof using.
  unfold extend_lease. destruct (m !! k) as [y|] eqn:E; (split; [rewrite lookup_insert_eq|intros j Hj; by rewrite lookup_insert_ne]);
    eexists; (split; [done|]); cbn; (split; [lia|]); intros y' Hy; [|done]. injection Hy as <-. split; [done|lia].
Qed.

Lemma recordLeases_spec s until d u d' : Date_text (rus_validUntil s) = Some until -> recordLeases s d = Returns (u, d') ->
  exists m, d' = with_leases (fun _ => m) d /\ leases_for (rus_nodeId s) (rus_sessionEpoch s) until (rus_assignments s) (db_leases d) m.
Proof using.
  intros Hu. unfold recordLeases. rewrite Hu. generalize (rus_assignments s) as l. intros l. revert d. induction l as [|a l IH]; intros d Hr; cbn in Hr.
  - tx_inv. exists (db_leases d). split; [by destruct d|]. split; [intros k x Hx; exists x; split_and!; [done|done|lia]|by intros a ?%elem_of_nil|by left].
  - apply tx_bind_Returns in Hr as ([] & d1 & ->%modify_Returns & Hr). apply IH in Hr as (m & -> & [Hg He Ho]). exists m. split; [done|].
    cbn in Hg, Ho. set (k0 := (assignment_instance (rus_nodeId s) a, rus_sessionEpoch s)) in *.
    destruct (extend_lease_spec k0 (rua_forwardId a) until (db_leases d)) as [(x0 & Hx0 & Hge & Hold) Hne]. split.
    + intros k x Hx. destruct (decide (k = k0)) as [->|Hk].
      * destruct (Hold _ Hx) as [Hf Hv]. destruct (Hg _ _ Hx0) as (x' & ? & ? & ?). exists x'. split_and!; [done|congruence|lia].
      * rewrite <- Hne in Hx by done. by apply Hg.
    + intros b [->|Hb]%elem_of_cons; [|by apply He]. destruct (Hg _ _ Hx0) as (x' & ? & ? & ?). exists x'. split; [done|lia].
    + intros k x [[y Hy]|(b & Hb & ->)]%Ho; [|right; exists b; split; [by right|done]]. destruct (decide (k = k0)) as [->|Hk]; [right; exists a; split; [left|done]|].
      left. rewrite <- (Hne k) by done. by exists y.
Qed.

Lemma retire_row_there (k : instance_id) (oid : jsstr) (a : RuntimeAssignment) (g : Z) (m : gmap instance_id Retirement) : is_Some (retire_row k oid a g m !! k).
Proof using. unfold retire_row. destruct (m !! k); rewrite lookup_insert_eq; by eexists. Qed.

(** Whatever is no longer wanted has a retirement. *)
Lemma retireChanged_spec n previous next g d u d' : retireChanged n previous next g d = Returns (u, d') ->
  forall old, old ∈ match previous with Some s => rus_assignments s | None => [] end ->
    (exists a, a ∈ next /\ same_instance a old = true) \/ is_Some (db_retirements d' !! assignment_instance n old).
Proof using.
  unfold retireChanged. generalize (match previous with Some s => rus_assignments s | None => [] end) as l. intros l.
  revert d. induction l as [|x l IH]; intros d Hr old; [by intros ?%elem_of_nil|]. cbn in Hr. apply tx_bind_Returns in Hr as ([] & d1 & Hone & Hr).
  intros [->|Hin]%elem_of_cons; [|by eapply IH]. unfold retire_one in Hone. destruct (existsb _ next) eqn:E.
  - left. apply existsb_exists in E as (a & Ha%list_elem_of_In & E). eauto.
  - right. apply tx_bind_Returns in Hone as (op & d2 & Hl & Hone). apply reads_latest in Hl as <-. destruct op as [[oid o]|]; [|done].
    apply tx_bind_Returns in Hone as ([] & d2 & ->%modify_Returns & Hone).
    assert (Hstay : forall w, evolves work_step (for_each (retire_one n next g) w)).
    { intros w. pose proof (work_retireChanged n (Some (MkRuntimeSnapshot false [] 0 0 [] [] [] w [])) next g) as Hw. exact Hw. }
    apply Hstay in Hr as [[_ Hr] _]. apply Hr. apply (work_operations _ _ _ _ _) in Hone as [[_ Hone] _]. apply Hone. cbn. apply retire_row_there.
Qed.

(** What a new publication consists of, and that everything it drops was retired before. *)
Record publication (now : Z) (n : jsstr) (state : RuntimeNode) (previous : option RuntimeSnapshot) (input : SnapshotInput) (d : Db) : Prop := {
  pb_node : si_nodeId input = n;
  pb_epoch : si_sessionEpoch input = rn_session_epoch state;
  pb_generation : si_snapshotGeneration input = rn_snapshot_generation state + 1;
  pb_bound : rn_snapshot_generation state < MAX_COUNTER;
  pb_session : rn_session_epoch state <> 0;
  pb_policy : si_policy input = Some policy;
  pb_valid : exists until, toISOString until = Returns (si_validUntil input) /\ until <= now + leaseSeconds policy * 1000;
  pb_dropped : forall old, old ∈ match previous with Some s => rus_assignments s | None => [] end ->
    (exists a, a ∈ si_assignments input /\ same_instance a old = true) \/ is_Some (db_retirements d !! assignment_instance n old);
}.

Definition previous_of (n : jsstr) (state : RuntimeNode) (d : Db) : option RuntimeSnapshot := sn_body <$> db_snapshots d !! (n, rn_snapshot_generation state).

Lemma quiet_advanceForNode now n : evolves quiet (advanceForNode policy multihopEnabled uuid now n).
Proof using. eauto with evolves typeclass_instances. Qed.

(** The last part of [prepare_publication]. *)
Lemma renew_Returns now n state next validUntil previous d out d' : validUntil <= now + leaseSeconds policy * 1000 ->
  (_ ← require (negb (rn_session_epoch state =? 0)) "SESSION_SUPERSEDED" "Hello required before snapshot";
   _ ← require (rn_snapshot_generation state <? MAX_COUNTER) "RESOURCE_LIMIT" "Snapshot counter exhausted";
   _ ← retireChanged n previous next (rn_snapshot_generation state + 1);
   retired ← tombstones n (rn_snapshot_generation state + 1);
   input ← lift (publish_input policy now n state validUntil next retired);
   mret (inr input)) d = Returns (out, d') ->
  quiet d d' /\ exists input, (out : RuntimeSnapshot + SnapshotInput) = inr input /\ publication now n state previous input d'.
Proof using.
  intros Hv. intros ([] & d1 & [Hep ->]%require_Returns & Hr)%tx_bind_Returns. apply tx_bind_Returns in Hr as ([] & d1 & [Hg%Z.ltb_lt ->]%require_Returns & Hr).
  apply tx_bind_Returns in Hr as ([] & d1 & Hret & Hr). apply tx_bind_Returns in Hr as (retired & d2 & Ht & Hr). apply reads_tombstones in Ht as <-.
  apply tx_bind_Returns in Hr as (input & d2 & [Hin ->]%lift_Returns & [-> ->]%mret_Returns).
  split; [by eapply work_quiet; [apply work_retireChanged|exact Hret]|]. exists input. split; [done|].
  unfold publish_input in Hin. apply bind_Returns in Hin as (iss & _ & (val & Hval & [= <-])%bind_Returns). pose proof (retireChanged_spec _ _ _ _ _ _ _ Hret) as Hdrop.
  propify. split; cbn; try done; by exists validUntil.
Qed.

Lemma prepare_Returns now n state fp d out d' : prepare_publication policy multihopEnabled uuid now n state fp d = Returns (out, d') ->
  quiet d d' /\ match out with
                | inl s => previous_of n state d = Some s /\ rus_sessionEpoch s = rn_session_epoch state /\
                           exists v, Date_text (rus_validUntil s) = Some v /\ (now + 5000 < v \/ now + renewalLeadSeconds policy * 1000 < v)
                | inr input => publication now n state (previous_of n state d) input d'
                end.
Proof using.
  unfold prepare_publication. intros (node & d1 & Hst%reads_state & Hr)%tx_bind_Returns. subst d1.
  apply tx_bind_Returns in Hr as (until & d1 & Hu & Hr). assert (d1 = d) as ->.
  { symmetry. revert Hu. match goal with |- ?m d = _ -> _ => assert (He : evolves eq m) by evolve; apply He end. }
  cbn zeta in Hr. apply tx_bind_Returns in Hr as (previous & d1 & [-> ->]%query_Returns & Hr). fold (previous_of n state d) in Hr.
  apply tx_bind_Returns in Hr as (awaiting & d1 & [_ ->]%query_Returns & Hr). apply tx_bind_Returns in Hr as ([] & d1 & Hadv & Hr).
  apply quiet_advanceForNode in Hadv. apply tx_bind_Returns in Hr as (collected & d2 & Hc & Hr). assert (d2 = d1) as ->.
  { symmetry. revert Hc. match goal with |- ?m d1 = _ -> _ => assert (He : evolves eq m) by evolve; apply He end. }
  set (next := map _ collected) in Hr. set (waits := match previous_of n state d with Some p => _ | None => false end) in Hr.
  assert (Hrest : forall (bound : Z) (w : bool) out d',
    (_ ← require (negb (rn_session_epoch state =? 0)) "SESSION_SUPERSEDED" "Hello required before snapshot";
     _ ← require (rn_snapshot_generation state <? MAX_COUNTER) "RESOURCE_LIMIT" "Snapshot counter exhausted";
     _ ← retireChanged n (previous_of n state d) next (rn_snapshot_generation state + 1);
     retired ← tombstones n (rn_snapshot_generation state + 1);
     input ← lift (publish_input policy now n state (if w then now + leaseSeconds policy * 1000 else Z.min (now + leaseSeconds policy * 1000) bound) next retired);
     mret (inr input)) d1 = Returns (out, d') ->
    quiet d d' /\ exists input, (out : RuntimeSnapshot + SnapshotInput) = inr input /\ publication now n state (previous_of n state d) input d').
  { intros bound w out' d2 [Hq (input & -> & Hp)]%renew_Returns; [|destruct w; lia]. split; [by etransitivity|]. by exists input. }
  destruct (previous_of n state d) as [p|] eqn:Ep.
  - destruct waits eqn:Ew.
    { apply mret_Returns in Hr as [-> ->]. subst waits. unfold keep_until_claimed in Ew. split; [done|]. split; [done|]. propify. split; [lia|].
      destruct (Date_text (rus_validUntil p)) as [v|]; [|done]. exists v. split; [done|]. left. cbn in *. by propify. }
    apply tx_bind_Returns in Hr as (relayBound & d2 & Hb%reads_authorizationBound & Hr). subst d2.
    cbn zeta in Hr. apply tx_bind_Returns in Hr as (same & d2 & [Hsame ->]%lift_Returns & Hr). destruct same; [|apply Hrest in Hr as (Hq & input & -> & Hp); done].
    apply mret_Returns in Hr as [-> ->]. unfold keep_unchanged in Hsame. split; [done|]. split; [done|]. destruct (Z.eqb_spec (rus_sessionEpoch p) (rn_session_epoch state)); [|done].
    split; [done|]. cbn zeta in Hsame. cbn [negb] in Hsame. apply bind_Returns in Hsame as (x & _ & (y & _ & [= Hb])%bind_Returns). destruct (Date_text (rus_validUntil p)) as [v|]; [|cbn in Hb; propify; done].
    exists v. split; [done|]. right. cbn in Hb. propify. lia.
  - apply tx_bind_Returns in Hr as (relayBound & d2 & Hb%reads_authorizationBound & Hr). subst d2.
    cbn zeta in Hr. apply tx_bind_Returns in Hr as (same & d2 & [_ ->]%mret_Returns & Hr). apply Hrest in Hr as (Hq & input & -> & Hp). done.
Qed.

(** ** The whole controller *)

(** The instance is in the Snapshot its Node was last given. *)
Definition current_instance (d : Db) (i : instance_id) : Prop :=
  exists row s a, db_runtime_nodes d !! i.1.1.1 = Some row /\ db_snapshots d !! (i.1.1.1, rn_snapshot_generation row) = Some s /\
    a ∈ rus_assignments (sn_body s) /\ assignment_instance i.1.1.1 a = i.

(** What the control plane knows of a Snapshot it has stored: which Node, session and generation
    it is for, and that all it allows is under leases and in the authority record. *)
Record snapshot_known (w : World) (k : jsstr * Z) (s : SnapshotRow) : Prop := {
  sk_node : rus_nodeId (sn_body s) = k.1;
  sk_generation : rus_snapshotGeneration (sn_body s) = k.2;
  sk_epoch : rus_sessionEpoch (sn_body s) = sn_session_epoch s;
  sk_valid : Date_text (rus_validUntil (sn_body s)) = Some (sn_valid_until s);
  sk_below : exists row, db_runtime_nodes w.1 !! k.1 = Some row /\ k.2 <= rn_snapshot_generation row /\ sn_session_epoch s <= rn_session_epoch row;
  sk_leased : forall a, a ∈ rus_assignments (sn_body s) -> exists l,
    db_leases w.1 !! (assignment_instance k.1 a, sn_session_epoch s) = Some l /\ sn_valid_until s <= ls_valid_until l;
  sk_covered : covers w.2 (sn_valid_until s) (maxClockSkewSeconds policy);
}.

(** Nothing that may run is forgotten: every instance that was ever under a lease is in the current
    Snapshot of its Node or has a retirement. *)
Record accounted (w : World) : Prop := {
  ac_leases : forall k l, db_leases w.1 !! k = Some l -> current_instance w.1 (lease_instance k) \/ is_Some (db_retirements w.1 !! lease_instance k);
  ac_snapshots : forall k s, db_snapshots w.1 !! k = Some s -> snapshot_known w k s;
}.

(** What only grows. *)
Record grows (w w' : World) : Prop := {
  gr_authority : authority_le w.2 w'.2;
  gr_sessions : sessions_ok w.1 -> sessions_ok w'.1;
  gr_snapshots : db_snapshots w.1 ⊆ db_snapshots w'.1;
  gr_retired : retired_stays w.1 w'.1;
  gr_boots : db_boots w.1 ⊆ db_boots w'.1;
  gr_reports : db_reports w.1 ⊆ db_reports w'.1;
  gr_nodes : forall n r, db_runtime_nodes w.1 !! n = Some r -> exists r', db_runtime_nodes w'.1 !! n = Some r' /\ node_le r r' /\
    rn_snapshot_generation r <= rn_snapshot_generation r';
}.

#[export] Instance grows_preorder : PreOrder grows.
Proof using.
  split.
  - intros w. split; [reflexivity|done|done|by intros k|done|done|]. intros n r Hr. exists r. split_and!; [done|reflexivity|lia].
  - intros w w1 w2 [A1 O1 S1 R1 B1 P1 N1] [A2 O2 S2 R2 B2 P2 N2]. split; [by etransitivity|auto|by etransitivity| |by etransitivity|by etransitivity|].
    + intros k Hk. by apply R2, R1.
    + intros n r (r1 & Hr1 & ? & ?)%N1. apply N2 in Hr1 as (r2 & ? & ? & ?). exists r2. split_and!; [done|by etransitivity|lia].
Qed.

(** The relation of a controller's transaction. *)
Definition account (w w' : World) : Prop := authority_le w.2 w'.2 /\ (accounted w -> accounted w' /\ grows w w').

#[export] Instance account_preorder : PreOrder account.
Proof using.
  split; [intros w; split; [reflexivity|intros Hw; split; [done|reflexivity]]|]. intros w w1 w2 [La Ha] [Lb Hb]. split; [by etransitivity|]. intros Hw.
  destruct (Ha Hw) as [Hw1 ?]. destruct (Hb Hw1) as [Hw2 ?]. split; [done|by etransitivity].
Qed.

Lemma quiet_account d d' r r' : quiet d d' -> authority_le r r' -> account (d, r) (d', r').
Proof using.
  intros [O S L R B P N] Ha. split; [done|]. intros [Hl Hs]. cbn in *. split; split; cbn in *; try done.
  - rewrite L. intros k l Hk. destruct (Hl k l Hk) as [(row & s & a & Hrow & Hsn & Hin & Ei)|Hret]; [left|right; by apply R].
    destruct (N _ _ Hrow) as (row' & Hrow' & _ & Eg). exists row', s, a. rewrite S, Eg. done.
  - rewrite S. intros k s Hk. destruct (Hs k s Hk) as [E1 E2 E3 E4 (row & Hrow & Hle & Hep) E6 E7]. split; cbn in *; try done.
    + destruct (N _ _ Hrow) as (row' & Hrow' & [? _] & Eg). exists row'. split_and!; [done|lia|lia].
    + by rewrite L.
    + by eapply covers_mono.
  - by rewrite S.
  - intros n row Hrow. destruct (N _ _ Hrow) as (row' & Hrow' & ? & Eg). exists row'. split_and!; [done|done|lia].
Qed.

Lemma same_instance_eq n a b : same_instance a b = true -> assignment_instance n a = assignment_instance n b.
Proof using. unfold same_instance, str_eqb, assignment_instance. intros. propify. congruence. Qed.

(** Storing a compiled publication. *)
Lemma store_account now n state input s d r u d' row :
  db_runtime_nodes d !! n = Some row -> rn_snapshot_generation row = rn_snapshot_generation state -> rn_session_epoch state <= rn_session_epoch row ->
  publication now n state (previous_of n state d) input d -> s = snapshot_of input (rus_snapshotDigest s) ->
  (forall until, Date_text (rus_validUntil s) = Some until -> covers r until (maxClockSkewSeconds policy)) ->
  store_snapshot n (rn_session_epoch state) s d = Returns (u, d') -> account (d, r) (d', r).
Proof using.
  intros Hrow Eg He [En Ee Eng Hmax Hne _ _ Hdrop] Es Hcov Hr. split; [reflexivity|]. intros [Hl Hs]. unfold store_snapshot in Hr. destruct (Date_text (rus_validUntil s)) as [until|] eqn:Eu; [|done].
  apply tx_bind_Returns in Hr as ([] & d1 & [Hfresh ->]%insert_row_Returns & Hr). apply tx_bind_Returns in Hr as ([] & d1 & ->%modify_Returns & Hr).
  apply (recordLeases_spec s until) in Hr as (m & -> & [Hg Hea Ho]); [|done]. cbn in Hg, Ho.
  assert (Gs : rus_snapshotGeneration s = rn_snapshot_generation state + 1) by (rewrite Es; exact Eng).
  assert (Ns : rus_nodeId s = n) by (rewrite Es; exact En). assert (Ps : rus_sessionEpoch s = rn_session_epoch state) by (rewrite Es; exact Ee).
  assert (As : forall a, a ∈ si_assignments input -> a ∈ rus_assignments s) by (intros a; rewrite Es; cbn; by rewrite (sort_by_perm by_assignmentId)).
  rewrite Ns, Ps in *. rewrite Gs in *. cbn in Hl, Hs.
  assert (Hnew : forall a, a ∈ rus_assignments s -> current_instance (with_leases (fun _ => m) (with_runtime_nodes (alter (set_generation (rn_snapshot_generation state + 1)) n)
      (with_snapshots <[(n, rn_snapshot_generation state + 1):=MkSnapshotRow (rn_session_epoch state) until s]> d))) (assignment_instance n a)).
  { intros a Ha. exists (set_generation (rn_snapshot_generation state + 1) row). eexists _, a. cbn. rewrite lookup_alter_eq, Hrow, lookup_insert_eq. done. }
  split; split; cbn.
  - intros k l [Hk|(a & Ha & ->)]%Ho; [|left; by apply Hnew]. destruct Hk as [x Hx].
    destruct (Hl _ _ Hx) as [(row0 & s0 & a & Hr0 & Hs0 & Ha & Ei)|Hret]; [|by right]. destruct (decide (k.1.1.1.1 = n)) as [Ek|Ek].
    + unfold lease_instance in *. rewrite Ek in *. rewrite Hrow in Hr0. injection Hr0 as <-. rewrite Eg in Hs0.
      destruct (Hdrop a) as [(b & Hb & Hsame)|Hret]; [unfold previous_of; by rewrite Hs0| |right; by rewrite <- Ei].
      left. rewrite <- Ei, <- (same_instance_eq n b a) by done. by apply Hnew, As.
    + left. exists row0, s0, a. unfold lease_instance in *. cbn. rewrite lookup_alter_ne, lookup_insert_ne by congruence. done.
  - intros k s0. destruct (decide (k = (n, rn_snapshot_generation state + 1))) as [->|Hk].
    + rewrite lookup_insert_eq. intros [= <-]. split; cbn; try done.
      * exists (set_generation (rn_snapshot_generation state + 1) row). rewrite lookup_alter_eq, Hrow. split_and!; [done|cbn; lia|done].
      * by apply Hcov.
    + rewrite lookup_insert_ne by done. intros [F1 F2 F3 F4 (row0 & F5 & F5b & F5c) F6 F7]%Hs. split; cbn in *; try done.
      * destruct (decide (k.1 = n)) as [Ek|Ek]; [|exists row0; by rewrite lookup_alter_ne].
        rewrite Ek in *. rewrite Hrow in F5. injection F5 as <-. exists (set_generation (rn_snapshot_generation state + 1) row).
        rewrite lookup_alter_eq, Hrow. split_and!; [done|cbn; lia|done].
      * intros a (l & Hla & ?)%F6. apply Hg in Hla as (l' & ? & _ & ?). exists l'. split; [done|lia].
  - reflexivity.
  - apply sessions_same; [done|]. exact (alter_sessions n (set_generation (rn_snapshot_generation state + 1)) d ltac:(done)).
  - by apply insert_subseteq.
  - by intros k.
  - done.
  - done.
  - intros i r0 Hi. destruct (decide (n = i)) as [<-|]; [|rewrite lookup_alter_ne by done; exists r0; split_and!; [done|reflexivity|lia]].
    rewrite lookup_alter_eq, Hi. rewrite Hrow in Hi. injection Hi as <-. eexists. split_and!; [done|split; cbn; lia|cbn; lia].
Qed.

(** An action beside the authority record: what it does when it returns, and that a failure, which
    rolls the tables back, leaves the record no smaller. *)
Definition acts {A} (m : act A) (d : Db) (r : AuthorityRecord) : Prop :=
  match m d r with (Returns (_, d'), r') => account (d, r) (d', r') | (Throws _, r') => authority_le r r' end.

Lemma acts_bind {A B} (m : act A) (f : A -> act B) d r :
  acts m d r -> (forall a d' r', m d r = (Returns (a, d'), r') -> acts (f a) d' r') -> acts (m ≫= f) d r.
Proof using.
  intros Hm Hf. unfold acts in *. unfold mbind, act_bind. destruct (m d r) as [[[a d1]|e] r1]; [|done]. specialize (Hf _ _ _ eq_refl).
  destruct (f a d1 r1) as [[[b d2]|e] r2]; [by etransitivity|]. etransitivity; [exact (proj1 Hm)|done].
Qed.

Lemma acts_tx {A} (m : tx A) d r : (forall a d', m d = Returns (a, d') -> account (d, r) (d', r)) -> acts (of_tx m) d r.
Proof using. unfold acts, of_tx. intros Hm. destruct (m d) as [[a d']|e]; [by eapply Hm|reflexivity]. Qed.

Lemma acts_quiet {A} (m : tx A) d r : evolves quiet m -> acts (of_tx m) d r.
Proof using. intros Hm. apply acts_tx. intros a d' Hr%Hm. by apply quiet_account. Qed.

Lemma acts_ret {A} (a : A) d r : acts (mret a) d r.
Proof using. unfold acts. cbn. reflexivity. Qed.

Lemma of_tx_Returns {A} (m : tx A) d r a d' r' : of_tx m d r = (Returns (a, d'), r') -> m d = Returns (a, d') /\ r' = r.
Proof using. unfold of_tx. by intros [= -> ->]. Qed.

Lemma reads_check_claim now c : evolves eq (check_claim now c).
Proof using. unfold check_claim. evolve. Qed.

Context {Htext : HashingText} {Hdocument : Adp3DocumentLaw}.

Lemma compile_publication_Returns now input claim d s d' : compile_publication now input claim d = Returns (s, d') ->
  d' = d /\ s = snapshot_of input (rus_snapshotDigest s).
Proof using Htext Hdocument.
  unfold compile_publication. intros (s' & d1 & [[Hs _]%compileSnapshot_Returns ->]%lift_Returns & Hr)%tx_bind_Returns.
  apply tx_bind_Returns in Hr as ([] & d1 & Hv%reads_verifyPublishable & Hr). subst d1. apply tx_bind_Returns in Hr as ([] & d1 & Hc%reads_check_claim & Hr). subst d1.
  by apply mret_Returns in Hr as [-> ->].
Qed.

Lemma issue_snapshot_Returns now s r r' until : issue_snapshot policy now s r = Returns r' -> Date_text (rus_validUntil s) = Some until ->
  covers r' until (maxClockSkewSeconds policy) /\ authority_le r r'.
Proof using.
  unfold issue_snapshot. intros Hi Hu. rewrite Hu in Hi. split; [by eapply issue_covers|]. eapply authority_step_le. by eapply step_issue.
Qed.

Lemma publish_acts now n state claim fp d r : db_runtime_nodes d !! n = Some state ->
  acts (publish policy multihopEnabled uuid now n state claim fp) d r.
Proof using All.
  intros Hrow. unfold publish. apply acts_bind.
  { apply acts_tx. intros out d1 [Hq _]%prepare_Returns. by apply quiet_account. }
  intros out d1 r1 [[Hq Hp]%prepare_Returns ->]%of_tx_Returns. destruct out as [p|input]; [apply acts_ret|].
  apply acts_bind; [apply acts_tx; intros s d2 [-> _]%compile_publication_Returns; reflexivity|].
  intros s d2 r2 [[-> Hs]%compile_publication_Returns ->]%of_tx_Returns. unfold acts, mbind, act_bind, on_authority.
  destruct (issue_snapshot policy now s r) as [r3|e] eqn:Hi; [|reflexivity].
  assert (Hle : authority_le r r3).
  { unfold issue_snapshot in Hi. destruct (Date_text _); [|done]. eapply authority_step_le. by eapply step_issue. }
  unfold of_tx. destruct (store_snapshot n (rn_session_epoch state) s d1) as [[u d3]|e] eqn:Hst; [|exact Hle]. cbn.
  destruct (qt_nodes _ _ Hq _ _ Hrow) as (row & Hrow1 & [Hep _] & Eg).
  transitivity (d1, r3); [by apply quiet_account|]. eapply store_account; [exact Hrow1|exact Eg|exact Hep| |exact Hs| |exact Hst].
  - unfold previous_of in *. by rewrite (qt_snapshots _ _ Hq).
  - intros v Hu. by eapply issue_snapshot_Returns.
Qed.

Lemma work_claim_operation busy now token : evolves work_step (claim_operation busy now token).
Proof using. unfold claim_operation. evolve. all: apply work_modify; [done..|by intros d k]. Qed.

(** The transactions of the controller. *)
Lemma acts_locked n epoch d r : acts (of_tx (locked n epoch)) d r.
Proof using. apply acts_tx. intros s d' [-> _]%controller_locked_Returns. reflexivity. Qed.

Lemma acts_complete now n a b d r : acts (of_tx (complete now n a b)) d r.
Proof using. apply acts_quiet. eauto with evolves typeclass_instances. Qed.

Lemma snapshot_in_acts now n epoch fp d r : acts (snapshot_in policy multihopEnabled uuid now n epoch fp) d r.
Proof using All.
  unfold snapshot_in. apply acts_bind; [apply acts_locked|]. intros state d1 r1 [[-> [Hrow _]]%controller_locked_Returns ->]%of_tx_Returns.
  apply acts_bind; [by apply publish_acts|]. intros s d1 r1 _. apply acts_bind; [apply acts_complete|]. intros. apply acts_ret.
Qed.

Lemma tick_node_acts now n d r : acts (tick_node policy multihopEnabled uuid now n) d r.
Proof using All.
  unfold tick_node. apply acts_bind; [apply acts_locked|]. intros state d1 r1 [[-> [Hrow _]]%controller_locked_Returns ->]%of_tx_Returns.
  apply acts_bind; [destruct (_ =? 0); [apply acts_ret|apply acts_bind; [by apply publish_acts|intros; apply acts_ret]]|].
  intros s d1 r1 _. apply acts_bind; [apply acts_complete|]. intros. apply acts_quiet, quiet_advanceForNode.
Qed.

Lemma tick_claim_acts now claimed d r : acts (tick_claim policy multihopEnabled uuid now claimed) d r.
Proof using All.
  unfold tick_claim. apply acts_bind; [apply acts_quiet; eauto with evolves typeclass_instances|]. intros [[f x] y] d1 r1 _.
  apply acts_bind; [apply acts_locked|]. intros state d2 r2 [[-> [Hrow _]]%controller_locked_Returns ->]%of_tx_Returns.
  apply acts_bind; [apply acts_quiet; eauto with evolves typeclass_instances|]. intros current d2 r2 [Hg%reads_get_operation ->]%of_tx_Returns. subst d2.
  destruct (_ || _); [apply acts_ret|]. destruct (_ =? 0); [apply acts_ret|]. destruct (op_claim_token claimed.2), (op_claim_until claimed.2); try apply acts_ret.
  apply acts_bind; [by apply publish_acts|]. intros. apply acts_ret.
Qed.

Lemma report_in_acts now n epoch rep fp d r : acts (of_tx (report_in policy multihopEnabled uuid now n epoch rep fp)) d r.
Proof using. apply acts_tx. intros a d' (state & dg & _ & _ & _ & _ & Hq & _)%report_in_Returns. by apply quiet_account. Qed.

Lemma hello_in_acts now n input fp d r : acts (of_tx (hello_in policy now n input fp)) d r.
Proof using.
  apply acts_tx. intros a d'. unfold hello_in. intros (e & d1 & (row & _ & Hq & _)%hello_session_Returns & Hr)%tx_bind_Returns. tx_inv. by apply quiet_account.
Qed.

Lemma guarded_account {A} (m : act A) w : (forall d r, acts m d r) -> account w (guarded m w).2.
Proof using.
  intros Hm. unfold guarded. destruct (allow w.2) as [[]|e]; [|reflexivity]. specialize (Hm w.1 w.2). unfold acts in Hm. destruct w as [d r]. cbn in *.
  destruct (m d r) as [[[a d']|e] r']; [done|]. cbn. by apply quiet_account.
Qed.

Lemma each_transaction_account {A} (body : nat -> A -> World -> outcome unit * World) i l w :
  (forall i x w, account w (body i x w).2) -> account w (each_transaction body i l w).2.
Proof using.
  intros Hb. revert i w. induction l as [|x l IH]; intros i w; cbn; [reflexivity|]. specialize (Hb i x w). destruct (body i x w) as [[[]|e] w']; [|done].
  cbn in Hb. etransitivity; [exact Hb|apply IH].
Qed.

Lemma tick_account clock busy token w : account w (tick policy multihopEnabled uuid clock busy token w).2.
Proof using All.
  unfold tick. pose proof (guarded_account (of_tx pendingNodeIDs) w) as Hp. destruct (guarded (of_tx pendingNodeIDs) w) as [[relay|e] w1]; cbn in Hp.
  2: { apply Hp. intros. apply acts_quiet. eauto with evolves typeclass_instances. }
  etransitivity; [apply Hp; intros; apply acts_quiet; eauto with evolves typeclass_instances|].
  match goal with |- context [each_transaction ?b 0 ?l w1] => pose proof (each_transaction_account b 0 l w1) as He; destruct (each_transaction b 0 l w1) as [[[]|e] w2] end;
    cbn in He; [|apply He; intros; apply guarded_account; intros; apply tick_node_acts].
  etransitivity; [apply He; intros; apply guarded_account; intros; apply tick_node_acts|].
  match goal with |- context [guarded (of_tx ?m) w2] => pose proof (guarded_account (of_tx m) w2) as Hc; destruct (guarded (of_tx m) w2) as [[[claimed|]|e] w3] end;
    cbn in Hc; (etransitivity; [apply Hc; intros; apply acts_quiet, work_quiet, work_claim_operation|]); [|reflexivity..].
  apply guarded_account. intros. apply tick_claim_acts.
Qed.

(** One step of the control plane: a request of a Node, the worker's tick, whatever their outcome,
    a transaction that publishes nothing, or a change of the authority record. *)
Inductive controller_step : World -> World -> Prop :=
  | cs_hello now n input fp w : controller_step w (hello policy now n input fp w).2
  | cs_snapshot now n epoch fp w : controller_step w (snapshot policy multihopEnabled uuid now n epoch fp w).2
  | cs_report now n epoch rep fp w : controller_step w (report policy multihopEnabled uuid now n epoch rep fp w).2
  | cs_tick clock busy token w : controller_step w (tick policy multihopEnabled uuid clock busy token w).2
  | cs_other d d' r : quiet d d' -> controller_step (d, r) (d', r)
  | cs_authority now d r r' : authority_step now r r' -> controller_step (d, r) (d, r').

Lemma controller_step_account w w' : controller_step w w' -> account w w'.
Proof using All.
  destruct 1 as [now n input fp w|now n epoch fp w|now n epoch rep fp w|clock busy token w|d d' r Hq|now d r r' Ha].
  - unfold hello. destruct (hello_checks n input); [|reflexivity]. apply guarded_account. intros. apply hello_in_acts.
  - apply guarded_account. intros. apply snapshot_in_acts.
  - unfold report. destruct (_ && _); [|reflexivity]. apply guarded_account. intros. apply report_in_acts.
  - apply tick_account.
  - by apply quiet_account.
  - apply quiet_account; [reflexivity|by eapply authority_step_le].
Qed.

Lemma controller_run_account w w' : rtc controller_step w w' -> account w w'.
Proof using All. induction 1 as [|w w1 w2 Hs%controller_step_account _ IH]; [reflexivity|by etransitivity]. Qed.
End Safety.
