(* ===== verification/Guarantees.v ===== *)
(** What the Runtime controller guarantees along every run of the control plane. *)

From S2P Require Import Prelude.
From S2P Require Import JsString.
From S2P Require Import Forward.
From S2P Require Import Primitives.
From S2P Require Import Digest.
From S2P Require Import Types.
From S2P Require Import Validate.
From S2P Require Import Schema.
From S2P Require Import Relay.
From S2P Require Import Adp3.
From S2P Require Import Transit.
From S2P Require Import Probe.
From S2P Require Import TargetPolicy.
From S2P Require Import Planner.
From S2P Require Import Printed.
From S2P Require Import RelayPlan.
From S2P Require Import Iso.
From S2P Require Import Authority.
From S2P Require Import Store.
From S2P Require Import Forwarding.
From S2P Require Import Slots.
From S2P Require Import Operations.
From S2P Require Import Retirements.
From S2P Require Import Nodes.
From S2P Require Import Reads.
From S2P Require Import RelayDeployments.
From S2P Require Import RelayLocks.
From S2P Require Import RelayCoordinator.
From S2P Require Import RelayFrame.
From S2P Require Import Controller.
From S2P Require Import ControllerSafety.

Local Open Scope Z_scope.

Section Guarantees.
Context `{Hashing, Schema RelayProfileConfig, Schema RelayOpen, Schema RelayAssignment, Adp2Schemas, Adp3Schemas, Locale}.
Context (policy : Policy) (multihopEnabled : bool) (uuid : Db -> jsstr).

Abbreviation steps := (rtc (controller_step policy multihopEnabled uuid)).

(** ** Sessions *)

Lemma guarded_Returns {A} (m : act A) w a w' : guarded m w = (Returns a, w') -> m w.1 w.2 = (Returns (a, w'.1), w'.2).
Proof using.
  unfold guarded. destruct (allow w.2); [|done]. destruct (m w.1 w.2) as [[[b d]|e] r]; [|done]. by intros [= -> <-].
Qed.

Lemma guarded_tx_Returns {A} (m : tx A) w a w' : guarded (of_tx m) w = (Returns a, w') -> m w.1 = Returns (a, w'.1) /\ w'.2 = w.2.
Proof using. intros Hg%guarded_Returns. unfold of_tx in Hg. by injection Hg as Hm Hr. Qed.

Lemma hello_Returns now n input fp w resp w' : hello policy now n input fp w = (Returns resp, w') ->
  exists e, hello_session now n input fp w.1 = Returns (e, w'.1) /\ hres_sessionEpoch resp = e /\ w'.2 = w.2.
Proof using.
  unfold hello. destruct (hello_checks n input); [|done]. intros [Hm Hr]%guarded_tx_Returns. unfold hello_in in Hm.
  apply tx_bind_Returns in Hm as (e & d1 & He & Hm). apply tx_bind_Returns in Hm as (t & d2 & [_ ->]%lift_Returns & [-> ->]%mret_Returns). by exists e.
Qed.

Lemma locked_refuses n epoch d row : db_runtime_nodes d !! n = Some row -> rn_session_epoch row <> epoch -> is_returns (locked n (Some epoch) d) = false.
Proof using.
  intros Hr Hne. destruct (locked n (Some epoch) d) as [[state d']|e] eqn:E; [|done]. apply controller_locked_Returns in E as (_ & Hs & He).
  rewrite Hr in Hs. injection Hs as <-. done.
Qed.

Lemma guarded_tx_refuses {A B} (m : tx A) (f : A -> act B) w : is_returns (m w.1) = false -> is_returns (guarded (of_tx m ≫= f) w).1 = false.
Proof using. unfold guarded, mbind, act_bind, of_tx. intros Hm. destruct (allow w.2); [|done]. by destruct (m w.1). Qed.

Context {Htext : HashingText} {Hdocument : Adp3DocumentLaw}.

(** C5. A Node has one live session.  Once a [hello] of another boot has answered, whatever happens
    next, the sessions count up, and the earlier boot is refused for good: no Snapshot is handed
    out to its session, no report of its session is taken, and it cannot say hello again. *)
Theorem superseded_session (now1 now2 : Z) (n : jsstr) (i1 i2 : HelloRequest) (fp1 fp2 : option jsstr) (a1 a2 : HelloResponse) (w w1 w2 w3 w4 : World) :
  accounted policy w -> sessions_ok w.1 ->
  hello policy now1 n i1 fp1 w = (Returns a1, w1) -> steps w1 w2 ->
  hello policy now2 n i2 fp2 w2 = (Returns a2, w3) -> hreq_bootId i2 <> hreq_bootId i1 -> steps w3 w4 ->
  hres_sessionEpoch a1 < hres_sessionEpoch a2 /\
  forall now fp,
    is_returns (snapshot policy multihopEnabled uuid now n (hres_sessionEpoch a1) fp w4).1 = false /\
    (forall rep, is_returns (report policy multihopEnabled uuid now n (hres_sessionEpoch a1) rep fp w4).1 = false) /\
    (forall i, hreq_bootId i = hreq_bootId i1 -> is_returns (hello policy now n i fp w4).1 = false).
Proof using All.
  intros Hacc Hok Hh1 Hs12 Hh2 Hne Hs34.
  assert (Hst : forall now n i fp w a w', hello policy now n i fp w = (Returns a, w') -> steps w w').
  { intros now n' i fp v a v' Hh. apply rtc_once. replace v' with (hello policy now n' i fp v).2 by (by rewrite Hh). constructor. }
  destruct (controller_run_account policy multihopEnabled uuid w w1) as [_ Ha]; [by eapply Hst|]. destruct (Ha Hacc) as [Hacc1 G1]. clear Ha.
  destruct (controller_run_account policy multihopEnabled uuid w1 w2 Hs12) as [_ Ha]. destruct (Ha Hacc1) as [Hacc2 G2]. clear Ha.
  destruct (controller_run_account policy multihopEnabled uuid w2 w3) as [_ Ha]; [by eapply Hst|]. destruct (Ha Hacc2) as [Hacc3 G3]. clear Ha.
  destruct (controller_run_account policy multihopEnabled uuid w3 w4 Hs34) as [_ Ha]. destruct (Ha Hacc3) as [Hacc4 G4]. clear Ha.
  apply hello_Returns in Hh1 as (e1 & Hh1 & -> & _). apply hello_Returns in Hh2 as (e2 & Hh2 & -> & _).
  apply hello_session_Returns in Hh1 as (_ & _ & _ & Hb1 & _). apply hello_session_Returns in Hh2 as (_ & _ & _ & Hb2 & (row3 & Hrow3 & He3 & Hboot3) & _).
  pose proof (lookup_weaken _ _ _ _ Hb1 (gr_boots _ _ G2)) as Hb12. pose proof (lookup_weaken _ _ _ _ Hb12 (gr_boots _ _ G3)) as Hb13.
  assert (Hok3 : sessions_ok w3.1) by (apply (gr_sessions _ _ G3), (gr_sessions _ _ G2), (gr_sessions _ _ G1), Hok).
  destruct (Hok3 _ _ _ Hb13) as (row & Hrow & Hle & Hcur). rewrite Hrow3 in Hrow. injection Hrow as <-.
  assert (Hlt : e1 < e2) by (destruct (Z.eq_dec e1 (rn_session_epoch row3)) as [E|E]; [apply Hcur in E; congruence|lia]). split; [exact Hlt|].
  destruct (gr_nodes _ _ G4 _ _ Hrow3) as (row4 & Hrow4 & [Hep _] & _). assert (Hne4 : rn_session_epoch row4 <> e1) by lia.
  intros now fp. pose proof (locked_refuses _ _ _ _ Hrow4 Hne4) as Hlock. split_and!.
  - by apply guarded_tx_refuses.
  - intros rep. unfold report. destruct (_ && _); [|done]. unfold guarded. destruct (allow w4.2); [|done]. unfold of_tx, report_in, mbind, tx_bind.
    destruct (locked n (Some e1) w4.1) as [[]|]; done.
  - intros i Hi. destruct (hello policy now n i fp w4) as [[a|e] w5] eqn:Eh; [|done]. exfalso. apply hello_Returns in Eh as (e & Eh & _ & _).
    apply hello_session_Returns in Eh as (row & Hr & _ & Hb & (row5 & Hrow5 & He5 & Hbo5) & Hmatch).
    rewrite Hi in Hmatch. rewrite (lookup_weaken _ _ _ _ Hb13 (gr_boots _ _ G4)) in Hmatch. destruct Hmatch as [-> Ed]. rewrite Ed in Hrow5.
    rewrite Hrow4 in Hrow5. injection Hrow5 as <-. done.
Qed.

(** ** Reports *)

Lemma controller_report_Returns now n epoch rep fp w ack w' : report policy multihopEnabled uuid now n epoch rep fp w = (Returns ack, w') ->
  report_in policy multihopEnabled uuid now n epoch rep fp w.1 = Returns (ack, w'.1) /\ w'.2 = w.2.
Proof using. unfold report. destruct (_ && _); [|done]. apply guarded_tx_Returns. Qed.

(** C9. A report counts once.  After a report was taken under a sequence number of a session, any
    later report under the same number that is answered at all is a duplicate: it has the same
    content digest and changes nothing. *)
Theorem report_counts_once (now1 now2 epoch : Z) (n : jsstr) (r1 r2 : ReportRequest) (fp1 fp2 : option jsstr) (a1 a2 : ReportAck) (w w1 w2 w3 : World) :
  accounted policy w ->
  report policy multihopEnabled uuid now1 n epoch r1 fp1 w = (Returns a1, w1) -> steps w1 w2 ->
  report policy multihopEnabled uuid now2 n epoch r2 fp2 w2 = (Returns a2, w3) -> rep_reportSequence r2 = rep_reportSequence r1 ->
  ack_status a2 = duplicate /\ w3 = w2 /\ digest (report_json r2) = digest (report_json r1).
Proof using All.
  intros Hacc Hr1 Hs Hr2 Eseq.
  assert (Hs1 : steps w w1).
  { apply rtc_once. replace w1 with (report policy multihopEnabled uuid now1 n epoch r1 fp1 w).2 by (by rewrite Hr1). constructor. }
  destruct (controller_run_account _ _ _ _ _ Hs1) as [_ Ha]. destruct (Ha Hacc) as [Hacc1 _]. clear Ha.
  destruct (controller_run_account _ _ _ _ _ Hs) as [_ Ha]. destruct (Ha Hacc1) as [_ G]. clear Ha.
  apply controller_report_Returns in Hr1 as [Hr1 _]. apply controller_report_Returns in Hr2 as [Hr2 Ew].
  apply report_in_Returns in Hr1 as (st1 & dg1 & _ & _ & _ & Hd1 & _ & Hrow1 & _).
  apply report_in_Returns in Hr2 as (st2 & dg2 & _ & _ & _ & Hd2 & _ & Hrow2 & Hm).
  pose proof (lookup_weaken _ _ _ _ Hrow1 (gr_reports _ _ G)) as Hk. rewrite Eseq in *. destruct (ack_status a2).
  - destruct Hm as [Hnone _]. congruence.
  - split; [done|]. split; [destruct w2, w3; cbn in *; congruence|]. rewrite Hd1, Hd2, <- Hm in *. congruence.
Qed.

(** ** Publication *)

(** C3. Nothing that may run is forgotten.  Whatever requests, ticks, failures and rollbacks happen:
    Snapshots are never changed or lost and each of them names its Node, session and generation,
    is under leases that last as long as it does and is in the authority record; every instance
    ever leased is in the current Snapshot of its Node or has a retirement; sessions, generations,
    retirements, boots, reports and the authority record only grow. *)
Theorem nothing_forgotten (w w' : World) : accounted policy w -> steps w w' -> accounted policy w' /\ grows w w'.
Proof using All. intros Hacc Hs. by apply (controller_run_account policy multihopEnabled uuid w w' Hs). Qed.

(** Every state the database was ever in can come back: it is restored from a backup. *)
Inductive backed_up : (Db -> Prop) -> World -> Prop :=
  | bu_start d r : accounted policy (d, r) -> backed_up (eq d) (d, r)
  | bu_step E w w' : backed_up E w -> controller_step policy multihopEnabled uuid w w' -> backed_up (fun d => E d \/ d = w'.1) w'
  | bu_restore E d d0 r : backed_up E (d, r) -> E d0 -> backed_up E (d0, r).

Lemma accounted_later d r r' : authority_le r r' -> accounted policy (d, r) -> accounted policy (d, r').
Proof using. intros Hle Ha. destruct (quiet_account policy d d r r') as [_ Hq]; [reflexivity|done|]. by apply Hq. Qed.

Lemma backed_up_accounted E w : backed_up E w -> E w.1 /\ forall d, E d -> accounted policy (d, w.2).
Proof using All.
  induction 1 as [d r Ha|E w w' _ [Hw IH] Hs|E d d0 r _ [_ IH] He]; [split; [done|by intros d' <-]| |by split].
  apply controller_step_account in Hs as [Hle Hs]; [|done..]. split; [by right|]. intros d [Hd| ->]; [by eapply accounted_later; [|apply IH]|].
  destruct w as [d0 r0], w' as [d1 r1]. cbn in *. by apply Hs, IH.
Qed.

(** C4. Recovery never overlaps execution.  Whatever the history of the control plane, its failures
    and its restored backups: the authority record can be rebound for recovery only when every
    Snapshot that was ever stored, in whatever state of the database, has been invalid for
    longer than the clock skew. *)
Theorem recovery_after_expiry (E : Db -> Prop) (w : World) (d0 : Db) (k : jsstr * Z) (s : SnapshotRow) (now : Z) (database ca recoveryId : jsstr) (r' : AuthorityRecord) :
  backed_up E w -> E d0 -> db_snapshots d0 !! k = Some s -> rebind now database ca recoveryId w.2 = Returns r' ->
  sn_valid_until s + maxClockSkewSeconds policy * 1000 <= now /\ au_maintenance w.2 = true.
Proof using All.
  intros [_ Hb]%backed_up_accounted He Hs Hr. destruct (ac_snapshots _ _ (Hb d0 He) _ _ Hs) as [_ _ _ _ _ _ Hc]. by eapply rebind_covered.
Qed.

(** ** Delivery *)

(** The Snapshot [s] is the current one of the Node, for the session, and has not run out. *)
Record delivered (now : Z) (n : jsstr) (epoch : Z) (s : RuntimeSnapshot) (d : Db) : Prop := {
  dl_session : rus_sessionEpoch s = epoch;
  dl_current : exists row sr, db_runtime_nodes d !! n = Some row /\ db_snapshots d !! (n, rn_snapshot_generation row) = Some sr /\ sn_body sr = s /\ now < sn_valid_until sr;
}.

Lemma delivered_quiet now n epoch s d d' : quiet d d' -> delivered now n epoch s d -> delivered now n epoch s d'.
Proof using.
  intros [_ Hs _ _ _ _ Hn] [He (row & sr & Hrow & Hsr & Hb & Hv)]. split; [done|]. destruct (Hn _ _ Hrow) as (row' & Hrow' & _ & Eg).
  exists row', sr. rewrite Eg, Hs. done.
Qed.

Lemma publish_delivers now n state claim fp d r s d' r' : accounted policy (d, r) -> 0 <= renewalLeadSeconds policy -> db_runtime_nodes d !! n = Some state ->
  publish policy multihopEnabled uuid now n state claim fp d r = (Returns (s, d'), r') -> delivered now n (rn_session_epoch state) s d'.
Proof using All.
  intros Hacc Hlead Hrow Hp. unfold publish, mbind, act_bind in Hp.
  destruct (of_tx (prepare_publication policy multihopEnabled uuid now n state fp) d r) as [[[out d1]|e] r1] eqn:E1; [|done].
  apply of_tx_Returns in E1 as [[Hq Hout]%prepare_Returns ->]. destruct (qt_nodes _ _ Hq _ _ Hrow) as (row & Hrow1 & _ & Eg). destruct out as [p|input].
  - injection Hp as <- <- <-. destruct Hout as (Hprev & Hep & v & Hv & Hlive). apply (delivered_quiet _ _ _ _ d); [done|]. split; [done|].
    unfold previous_of in Hprev. destruct (db_snapshots d !! _) as [sr|] eqn:Esr; [|done]. injection Hprev as <-. exists state, sr.
    split_and!; [done..|]. destruct (ac_snapshots _ _ Hacc _ _ Esr) as [_ _ _ Hval _ _ _]. rewrite Hval in Hv. injection Hv as ->. lia.
  - destruct (of_tx (compile_publication now input claim) d1 r) as [[[s1 d2]|e] r2] eqn:E2; [|done]. apply of_tx_Returns in E2 as [[-> Hs]%compile_publication_Returns ->].
    unfold on_authority in Hp. destruct (issue_snapshot policy now s1 r) as [r3|e] eqn:E3; [|done]. unfold of_tx in Hp.
    destruct (store_snapshot n (rn_session_epoch state) s1 d1) as [[u d3]|e] eqn:E4; [|done]. injection Hp as <- <- <-. destruct Hout as [_ Ee Eng _ _ _ _ _].
    split; [by rewrite Hs|]. unfold issue_snapshot in E3. unfold store_snapshot in E4. destruct (Date_text (rus_validUntil s1)) as [v|] eqn:Ev; [|done].
    apply issue_Returns in E3 as (_ & _ & Hlive & _). apply tx_bind_Returns in E4 as ([] & d4 & [_ ->]%insert_row_Returns & E4).
    apply tx_bind_Returns in E4 as ([] & d4 & ->%modify_Returns & E4). apply (recordLeases_spec s1 v) in E4 as (m & -> & _); [|done].
    exists (set_generation (rus_snapshotGeneration s1) row). eexists. cbn. rewrite lookup_alter_eq, Hrow1, lookup_insert_eq. split_and!; [done..|cbn; lia].
Qed.

(** C8. What a Node is given is live and accounted for: a Snapshot request that is answered was made
    in the current session, and its answer is the current Snapshot of the Node, made out to the
    Node and to that session, still valid, under leases for all it allows, and covered by the
    authority record. *)
Theorem snapshot_delivers (now epoch : Z) (n : jsstr) (fp : option jsstr) (s : RuntimeSnapshot) (w w' : World) :
  accounted policy w -> 0 <= renewalLeadSeconds policy -> snapshot policy multihopEnabled uuid now n epoch fp w = (Returns s, w') ->
  (exists row, db_runtime_nodes w.1 !! n = Some row /\ rn_session_epoch row = epoch) /\ rus_nodeId s = n /\ rus_sessionEpoch s = epoch /\
  exists row sr, db_runtime_nodes w'.1 !! n = Some row /\ rn_snapshot_generation row = rus_snapshotGeneration s /\
    db_snapshots w'.1 !! (n, rus_snapshotGeneration s) = Some sr /\ sn_body sr = s /\ now < sn_valid_until sr /\
    snapshot_known policy w' (n, rus_snapshotGeneration s) sr.
Proof using All.
  intros Hacc Hlead Hs.
  assert (Hacc' : accounted policy w').
  { replace w' with (snapshot policy multihopEnabled uuid now n epoch fp w).2 by (by rewrite Hs).
    eapply (controller_step_account policy multihopEnabled uuid); [constructor|done]. }
  unfold snapshot in Hs. apply guarded_Returns in Hs. unfold snapshot_in, mbind, act_bind in Hs.
  destruct (of_tx (locked n (Some epoch)) w.1 w.2) as [[[state d1]|e] r1] eqn:E1; [|done]. apply of_tx_Returns in E1 as [[-> [Hrow Hep]]%controller_locked_Returns ->].
  destruct (publish policy multihopEnabled uuid now n state None fp w.1 w.2) as [[[s1 d2]|e] r2] eqn:E2; [|done].
  unfold of_tx in Hs. destruct (complete now n None None d2) as [[u d3]|e] eqn:E3; [|done]. injection Hs as -> E4 _.
  apply publish_delivers in E2; [|by destruct w|done..]. assert (Hq : evolves quiet (complete now n None None)) by eauto with evolves typeclass_instances.
  apply Hq in E3. apply (delivered_quiet _ _ _ _ _ _ E3) in E2 as [Hse (row & sr & Hr & Hsr & Hb & Hlive)]. rewrite E4 in *.
  pose proof (ac_snapshots _ _ Hacc' _ _ Hsr) as Hk. assert (Hg : rus_snapshotGeneration s = rn_snapshot_generation row) by (rewrite <- Hb; apply Hk).
  split; [by exists state|]. split; [rewrite <- Hb; apply Hk|]. split; [congruence|]. rewrite Hg. exists row, sr. done.
Qed.
End Guarantees.

(** ** A concrete Node with one Forward *)

Definition text_unit (s : jsstr) : bool := forallb (Z.leb 0) s.

(** All strings of the value are strings of code units. *)
Fixpoint text_value (v : json) : bool :=
  match v with
  | JNull | JBool _ | JInt _ => true
  | JStr s => text_unit s
  | JArr l => forallb text_value l
  | JObj fs => forallb (fun kv => text_value kv.2) fs
  end.

Definition text_hashing : Hashing :=
  {| canonicalize := fun v => if text_value v then Some (stringify v) else None;
     sha256_hex := fun s => num_to_string (Z.abs (fold_left (fun h c => (h * 257 + c) mod 1000000007) s 7)) |}.

Lemma text_value_ok v : text_value v = true -> json_text v.
Proof.
  induction v as [| | |s|l IH|fs IH] using json_nested_ind; cbn; intros Ht; constructor.
  - by apply forallb_Forall_nonneg.
  - rewrite forallb_forall in Ht. rewrite Forall_forall in *. intros x Hx. apply IH; [done|]. apply Ht. by apply list_elem_of_In.
  - rewrite forallb_forall in Ht. rewrite Forall_forall in *. intros x Hx. apply IH; [done|]. apply Ht. by apply list_elem_of_In.
Qed.

Lemma text_hashing_law : @HashingText text_hashing.
Proof.
  split; cbn.
  - intros v c. destruct (text_value v) eqn:E; [|done]. intros _. by apply text_value_ok.
  - intros c. unfold num_to_string. destruct (Z.ltb_spec (Z.abs (fold_left (fun h c => (h * 257 + c) mod 1000000007) c 7)) 0); [lia|].
    unfold nonneg. pose proof (to_base_10_digits (Z.abs (fold_left (fun h c => (h * 257 + c) mod 1000000007) c 7)) ltac:(lia)) as Hd.
    rewrite Forall_forall. rewrite forallb_forall in Hd. intros x Hx%list_elem_of_In%Hd. unfold is_digit, ch_in in Hx. propify. lia.
Qed.

(** The document of a Snapshot of Direct Assignments determines it. *)
Definition direct_only (s : RuntimeSnapshot) : Prop :=
  rus_executionExtension s = false /\ rus_tombstones s = [] /\ Forall (fun a => exists c, rua_driver a = DirectDriver c) (rus_assignments s).

Lemma direct_only_inj x y : direct_only y -> runtime_snapshot_json x = runtime_snapshot_json y -> x = y.
Proof.
  destruct x as [ext n se ge iss va di asg tmb], y as [ext' n' se' ge' iss' va' di' asg' tmb']. intros (Hx & Ht & Hd) E. cbn in Hx, Ht, Hd. subst.
  destruct ext; [discriminate (field_at_eq 1 _ _ E)|]. pose proof (field_at_eq 7 _ _ E) as E7. pose proof (field_at_eq 8 _ _ E) as E8.
  destruct tmb; [|discriminate E8]. cbn in E7. injection E7 as E7.
  assert (asg = asg') as ->.
  { clear -E7 Hd. revert asg E7. induction Hd as [|b l [c Hc] _ IH]; intros [|a m] Em; try discriminate Em; [done|].
    f_equal; [|apply IH; exact (f_equal (@tail json) Em)]. eapply direct_fields_inj; [exact Hc|exact (f_equal (fun q => default JNull (head q)) Em)]. }
  pose proof (field_at_eq 1 _ _ E). pose proof (field_at_eq 2 _ _ E). pose proof (field_at_eq 3 _ _ E).
  pose proof (field_at_eq 5 _ _ E). pose proof (field_at_eq 6 _ _ E). pose proof (field_at_eq 9 _ _ E).
  clear E E7 E8 Hd. cbn in *. congruence.
Qed.

Definition serving (l : list RuntimeSnapshot) : Adp3Schemas := {|
  adp3_schema := fun name => match name return json -> option (RuntimeMessages name) with
                             | Snapshot_ => accept_any l
                             | HelloResponse_ => fun _ => Some example_hello
                             | _ => fun _ => None
                             end;
  execution_schema := fun _ => None |}.

Lemma serving_law l : Forall direct_only l -> @Adp3DocumentLaw (serving l).
Proof.
  intros Hl x y. cbn [structure serving adp3_schema execution_schema]. destruct (has_extension _); [done|]. unfold accept_any.
  intros [Hin E%bool_decide_eq_true]%find_some. rewrite Forall_forall in Hl. symmetry. apply direct_only_inj; [apply Hl; by apply list_elem_of_In|done].
Qed.

Definition served_time : Z := 1780000000000.

Definition served_db : Db :=
  MkDb {[js "f1" := MkForwardRow (js "s1") 4 (spec direct_forward) false false (Some (js "u1"))]} ∅
    (<[(js "n1", tcp, 80) := MkSlotRow (Some (js "f1")) 3 1]> {[(js "n1", udp, 80) := MkSlotRow (Some (js "f1")) 5 1]})
    {[js "o1" := MkOperation (js "s1") (js "f1") 4 k_create s_succeeded 1790000000000 None None false None None None 0 0 (js "u1") (js "k1") [] 1 None false]}
    ∅ ∅ ∅ {[js "n1" := MkRuntimeNode 0 None 0 0 None None]} ∅
    (MkIdentityTables ∅ {[js "s1" := js "u1"]} {[(js "s1", js "u1") := MkMemberRow true true 1]} [])
    (MkMachineTables {[js "n1" := MkNodeRow (js "s1") [] 0 None None (Some 1800000000000) None false example_facts 1]} {[(js "n1", js "u1")]} ∅ ∅ ∅ ∅ [])
    (MkProfileTables ∅ ∅ ∅ [] ∅) (MkTransitTables ∅ ∅ ∅ ∅) (MkRuntimeTables ∅ ∅ ∅) (db_paths empty_db) (db_probes empty_db).

Definition served_world : World := (served_db, fresh_authority (js "db") (pin 97)).

Definition served_assignments : list RuntimeAssignment :=
  map (with_drain 30) (returned [] (@compileDirect text_hashing direct_forward example_facts example_slots active 30)).

Definition served_input : SnapshotInput :=
  MkSnapshotInput (js "n1") 1 1 (returned [] (toISOString served_time)) (returned [] (toISOString (served_time + leaseSeconds DEFAULT_POLICY * 1000)))
    served_assignments [] (Some DEFAULT_POLICY).

Definition served_snapshot : RuntimeSnapshot :=
  snapshot_of served_input (returned [] (@digest text_hashing (runtime_body_json (snapshot_of served_input [])))).

#[local] Existing Instance text_hashing.
#[local] Instance served_profiles : Schema RelayProfileConfig := accept_only example_profile.
#[local] Instance served_opens : Schema RelayOpen := accept_only example_open.
#[local] Instance served_relays : Schema RelayAssignment := accept_only example_relay.
#[local] Instance served_messages : Adp2Schemas := planner_adp2.
#[local] Instance served_documents : Adp3Schemas := serving [served_snapshot].
#[local] Instance served_locale : Locale := example_locale.

Lemma served_text : HashingText.
Proof. exact text_hashing_law. Qed.

Lemma served_document : Adp3DocumentLaw.
Proof. apply serving_law. constructor; [|constructor]. split_and!; [vm_compute; reflexivity..|]. vm_compute. repeat constructor; by eexists. Qed.

Definition served_uuid (d : Db) : jsstr := js "r1".
Definition served_boot (b : string) : HelloRequest := MkHelloRequest (js "n1") (js b) (js "1.0") [js "adp.3"; js "native.direct.v1"; js "tcp"; js "udp"] 0.
Definition served_hello (b : string) (w : World) : outcome HelloResponse * World := hello DEFAULT_POLICY served_time (js "n1") (served_boot b) None w.
Definition served_request (epoch : Z) (w : World) : outcome RuntimeSnapshot * World :=
  snapshot DEFAULT_POLICY true served_uuid served_time (js "n1") epoch None w.
Definition served_report : ReportRequest := MkReportRequest (js "n1") (js "b1") 1 1 (js "2026-05-28T20:26:40Z") 1 [] [].
Definition served_answer (w : World) : outcome ReportAck * World :=
  report DEFAULT_POLICY true served_uuid served_time (js "n1") 1 served_report None w.

Lemma run_answers {A} (o : outcome A * World) : is_returns o.1 = true -> exists a, o = (Returns a, o.2).
Proof. destruct o as [[a|e] w]; [by exists a|done]. Qed.

Lemma served_accounted : accounted DEFAULT_POLICY served_world.
Proof. split; intros k x Hx; cbn in Hx; rewrite lookup_empty in Hx; discriminate Hx. Qed.

Lemma served_sessions : sessions_ok served_world.1.
Proof. intros n b e Hb. cbn in Hb. rewrite lookup_empty in Hb. discriminate Hb. Qed.

Lemma served_first : exists a, served_hello "b1" served_world = (Returns a, (served_hello "b1" served_world).2).
Proof. apply run_answers. vm_compute. reflexivity. Qed.

Abbreviation greeted := ((served_hello "b1" served_world).2).
Abbreviation published := ((served_request 1 greeted).2).

Lemma served_steps : rtc (controller_step DEFAULT_POLICY true served_uuid) served_world published.
Proof. eapply rtc_l; [apply cs_hello|]. eapply rtc_once, cs_snapshot. Qed.

Lemma superseded_session_witness : exists a1 a2, hres_sessionEpoch a1 < hres_sessionEpoch a2 /\
  is_returns (served_request (hres_sessionEpoch a1) (served_hello "b2" published).2).1 = false.
Proof.
  destruct served_first as [a1 E1]. assert (Hr : is_returns (served_hello "b2" published).1 = true) by (vm_compute; reflexivity).
  apply run_answers in Hr as [a2 E2]. exists a1, a2.
  destruct (@superseded_session text_hashing served_profiles served_opens served_relays served_messages served_documents served_locale DEFAULT_POLICY true served_uuid
    served_text served_document served_time served_time (js "n1") (served_boot "b1") (served_boot "b2") None None a1 a2 served_world _ published _ _
    served_accounted served_sessions E1 ltac:(eapply rtc_once, cs_snapshot) E2 ltac:(discriminate) ltac:(apply rtc_refl)) as [Hlt Hall].
  split; [exact Hlt|]. exact (proj1 (Hall served_time None)).
Defined.

Lemma report_counts_once_witness : exists a1 a2, served_answer published = (Returns a1, (served_answer published).2) /\
  (served_answer (served_answer published).2).1 = Returns a2 /\ ack_status a2 = duplicate.
Proof.
  assert (H1 : is_returns (served_answer published).1 = true) by (vm_compute; reflexivity). apply run_answers in H1 as [a1 E1].
  assert (H2 : is_returns (served_answer (served_answer published).2).1 = true) by (vm_compute; reflexivity). apply run_answers in H2 as [a2 E2].
  exists a1, a2. split; [exact E1|].
  destruct (@report_counts_once text_hashing served_profiles served_opens served_relays served_messages served_documents served_locale DEFAULT_POLICY true served_uuid
    served_text served_document served_time served_time 1 (js "n1") served_report served_report None None a1 a2 published _ _ _
    (proj1 (proj2 (@controller_run_account _ _ _ _ _ _ _ DEFAULT_POLICY true served_uuid served_text served_document _ _ served_steps) served_accounted))
    E1 ltac:(apply rtc_refl) E2 eq_refl) as (Hd & _).
  split; [exact (f_equal fst E2)|exact Hd].
Defined.

Lemma nothing_forgotten_witness : is_returns (served_request 1 greeted).1 = true /\ accounted DEFAULT_POLICY published.
Proof.
  split; [vm_compute; reflexivity|].
  exact (proj1 (@nothing_forgotten text_hashing served_profiles served_opens served_relays served_messages served_documents served_locale DEFAULT_POLICY true served_uuid
    served_text served_document served_world published served_accounted served_steps)).
Defined.

Lemma snapshot_delivers_witness : exists s, served_request 1 greeted = (Returns s, published) /\ rus_nodeId s = js "n1" /\ rus_sessionEpoch s = 1.
Proof.
  assert (Hr : is_returns (served_request 1 greeted).1 = true) by (vm_compute; reflexivity). apply run_answers in Hr as [s E]. exists s. split; [exact E|].
  destruct (@snapshot_delivers text_hashing served_profiles served_opens served_relays served_messages served_documents served_locale DEFAULT_POLICY true served_uuid
    served_text served_document served_time 1 (js "n1") None s greeted published
    (proj1 (proj2 (@controller_run_account _ _ _ _ _ _ _ DEFAULT_POLICY true served_uuid served_text served_document _ _ (rtc_once _ _ (cs_hello _ _ _ _ _ _ _ _))) served_accounted))
    ltac:(vm_compute; discriminate) E) as (_ & Hn & He & _).
  by split.
Defined.

(** The record is put into maintenance, and rebound when the lease and the skew have passed. *)
Definition served_late : Z := served_time + leaseSeconds DEFAULT_POLICY * 1000 + maxClockSkewSeconds DEFAULT_POLICY * 1000.
Definition served_maintained : AuthorityRecord := returned published.2 (maintain served_time published.2).
Definition served_rebound : AuthorityRecord := returned published.2 (rebind served_late (js "db2") (pin 98) (js "rec") served_maintained).

Lemma recovery_after_expiry_witness : exists s, db_snapshots published.1 !! (js "n1", 1) = Some s /\ rus_assignments (sn_body s) <> [] /\
  sn_valid_until s + maxClockSkewSeconds DEFAULT_POLICY * 1000 <= served_late.
Proof.
  assert (Hs : match db_snapshots published.1 !! (js "n1", 1) with Some s => negb (length (rus_assignments (sn_body s)) =? 0)%nat | None => false end = true)
    by (vm_compute; reflexivity).
  destruct (db_snapshots published.1 !! (js "n1", 1)) as [s|] eqn:E; [|discriminate Hs]. exists s. split; [reflexivity|].
  split; [intros En; rewrite En in Hs; discriminate Hs|].
  assert (Hm : maintain served_time published.2 = Returns served_maintained) by (vm_compute; reflexivity).
  refine (proj1 (@recovery_after_expiry text_hashing served_profiles served_opens served_relays served_messages served_documents served_locale DEFAULT_POLICY true served_uuid
    served_text served_document _ (published.1, served_maintained) published.1 (js "n1", 1) s served_late (js "db2") (pin 98) (js "rec") served_rebound _ _ E _)).
  - eapply (bu_step _ _ _ _ published); [|destruct published as [d r]; eapply cs_authority, step_maintain; exact Hm].
    eapply (bu_step _ _ _ _ greeted); [|apply cs_snapshot]. eapply (bu_step _ _ _ _ served_world); [|apply cs_hello]. apply bu_start. exact served_accounted.
  - left. right. reflexivity.
  - vm_compute. reflexivity.
Defined.
