(* ===== verification/TransitStaging.v ===== *)
(** The offline Transit stage (apps/control/src/modules/runtime/transit-reservations.ts and
    transit-staging.ts): the reservation of every physical slot of a path over three to
    eight Nodes, the journal row that retains the plan, its verification and its abort. *)

From S2P Require Import Prelude.
From S2P Require Import JsString.
From S2P Require Import Primitives.
From S2P Require Import Json.
From S2P Require Import Forward.
From S2P Require Import Digest.
From S2P Require Import Types.
From S2P Require Import Cidr.
From S2P Require Import Validate.
From S2P Require Import Schema.
From S2P Require Import Relay.
From S2P Require Import Adp3.
From S2P Require Import Transit.
From S2P Require Import Probe.
From S2P Require Import TargetPolicy.
From S2P Require Import Endpoint.
From S2P Require Import Topology.
From S2P Require Import Planner.
From S2P Require Import RelayPlan.
From S2P Require Import MultihopPlan.
From S2P Require Import Iso.
From S2P Require Import TransitPlan.
From S2P Require Import Store.
From S2P Require Import Forwarding.
From S2P Require Import Slots.
From S2P Require Import Identity.
From S2P Require Import Nodes.
From S2P Require Import Profiles.
From S2P Require Import Reads.

Local Open Scope Z_scope.

(** ** Reservations *)

(** [r.nodeId + '/' + r.forwardProtocol] *)
Definition logical_key (nodeId : jsstr) (p : NetworkProtocol) : jsstr := slash nodeId (protocol_name p).

(** The test of [resources.some]. *)
Definition bad_resource (f : Forward) (route : PathTopology) (r : PlanResource) : bool :=
  match find (fun n => str_eqb (pn_nodeId n) (prs_nodeId r)) (pt_nodes route) with
  | None => true
  | Some hop =>
      negb (bool_decide (pn_role hop = prs_role r)) || negb (includes (protocols (spec f)) (prs_forwardProtocol r)) ||
      negb (is_port (prs_port r)) ||
      (bool_decide (prs_role r = p_ingress) &&
         (negb (bool_decide (prs_physicalProtocol r = prs_forwardProtocol r)) ||
          negb (str_eqb (prs_address r) (address (ingress_listen (spec f)))) ||
          negb (prs_port r =? listen_port (ingress_listen (spec f))))) ||
      (negb (bool_decide (prs_role r = p_ingress)) && negb (bool_decide (prs_physicalProtocol r = tcp)))
  end.

Definition validateTransitReservationSet (f : Forward) (resources : list PlanResource) (generation : Z) : outcome unit :=
  route ← compilePathTopology f;
  throw_if (negb (enabled (spec f)) || (length (pt_nodes route) <? 3)%nat || negb (is_counter false generation) ||
            negb (length resources =? length (pt_nodes route) * length (protocols (spec f)))%nat ||
            negb (distinct (map resource_key resources)) ||
            negb (distinct (map (fun r => logical_key (prs_nodeId r) (prs_forwardProtocol r)) resources)) ||
            existsb (bad_resource f route) resources)
    "RESOURCE_CONFLICT" "Incomplete, unauthorized or duplicate multi-hop reservation set".

(** [SELECT node_id FROM runtime_nodes WHERE node_id=? FOR UPDATE] must find the row. *)
Definition lock_runtime_node (code message : string) (nodeId : jsstr) : tx unit :=
  found ← query (fun d => db_runtime_nodes d !! nodeId);
  require (bool_decide (is_Some found)) code message.

(** The body of the reserving loop. *)
Definition reserve_transit_one (f : Forward) (generation : Z) (resource : PlanResource) : tx ReservedRelayResource :=
  let k := resource_slot resource in
  r ← lock_slot k;
  _ ← require (negb (bool_decide (is_Some (sl_owner_id r)))) "PORT_RESERVED" "Physical port owned by another Forward";
  _ ← require ((0 <=? sl_fence r) && (sl_fence r <? MAX_COUNTER)) "RESOURCE_LIMIT" "Fencing counter exhausted";
  _ ← take_slot k (id f) generation;
  mret (MkReservedRelay resource (id f) generation (sl_fence r + 1)).

Definition node_capacity (nodeId : jsstr) : tx unit :=
  count ← query (owned_on nodeId);
  require (count <=? maxAssignmentsPerNode DEFAULT_POLICY) "RESOURCE_LIMIT" "Node capacity exceeded".

Definition reserveTransitResources `{Locale} (f : Forward) (resources : list PlanResource) (generation : Z)
    : tx (list ReservedRelayResource) :=
  _ ← lift (validateTransitReservationSet f resources generation);
  let uniqueNodes := sort_by str_leb (new_Set (map prs_nodeId resources)) in
  _ ← for_each (lock_runtime_node "SESSION_SUPERSEDED" "Current Node session required") uniqueNodes;
  reservations ← collect_each (reserve_transit_one f generation) (sort_by lock_order resources);
  _ ← for_each node_capacity uniqueNodes;
  mret reservations.

(** ** The retained plan *)

(** The test of [plan.assignments.some]. *)
Definition bad_binding (a : HopBinding) : bool :=
  let r := hb_resource a in
  negb (is_counter false (hb_bindingFence a)) || negb (is_counter false (hb_sessionEpoch a)) ||
  negb (str_eqb (prs_nodeId r) (hb_nodeId a)) || negb (bool_decide (prs_role r = hb_role a)) ||
  negb (bool_decide (prs_forwardProtocol r = hb_protocol a)) ||
  (if bool_decide (hb_role a = p_ingress) then negb (bool_decide (prs_physicalProtocol r = hb_protocol a))
   else negb (bool_decide (prs_physicalProtocol r = tcp))).

(** [a.nodeId+'/'+a.resource.physicalProtocol+'/'+a.resource.port] *)
Definition socket_key (a : HopBinding) : jsstr :=
  resource_key (MkPlanResource (hb_nodeId a) (prs_role (hb_resource a)) (prs_forwardProtocol (hb_resource a))
                  (prs_physicalProtocol (hb_resource a)) (prs_address (hb_resource a)) (prs_port (hb_resource a))).

Section Stage.
Context `{Hashing, Schema RelayProfileConfig, Schema TransitIntent, Locale}.

(** The stored body has the members of [TransitPreparation], so that the tests of its
    shape ([executable], [Array.isArray]) hold; the rest is checked. *)
Definition verifyTransitStage (forwardId : jsstr) (generation : Z) (row : TransitStageRow) : outcome TransitPreparation :=
  let plan := tg_body row in
  _ ← throw_if (negb (is_counter false generation) || negb (is_counter false (tg_target_revision row)) ||
                negb (is_safe_integer (tg_expires_at row)) || (tg_expires_at row <=? tg_created_at row) ||
                negb (is_safe_integer (tp_authorizationUntil plan)))
        "INTEGRITY_FAILURE" "Invalid retained Transit plan";
  _ ← throw_if (negb (str_eqb (tp_planDigest plan) (tg_plan_digest row)))
        "INTEGRITY_FAILURE" "Transit journal digest or identity differs";
  differs ← digest_differs (plan_body_json plan) (tg_plan_digest row);
  _ ← throw_if (differs || negb (str_eqb (tp_forwardId plan) forwardId) || negb (str_eqb (tp_scopeId plan) (tg_scope_id row)) ||
                negb (tp_forwardRevision plan =? tg_target_revision row) || negb (tp_deploymentGeneration plan =? generation) ||
                (tp_authorizationUntil plan <? tg_expires_at row))
        "INTEGRITY_FAILURE" "Transit journal digest or identity differs";
  let ids := new_Set (map hb_nodeId (tp_assignments plan)) in
  let n := length ids in
  _ ← throw_if ((n <? 3)%nat || (8 <? n)%nat || negb (distinct (map socket_key (tp_assignments plan))) ||
                negb (distinct (map (fun a => logical_key (hb_nodeId a) (hb_protocol a)) (tp_assignments plan))) ||
                negb (length (tp_activationOrder plan) =? n)%nat || negb (length (new_Set (tp_activationOrder plan)) =? n)%nat ||
                existsb (fun i => negb (includes ids i)) (tp_activationOrder plan) || existsb bad_binding (tp_assignments plan))
        "INTEGRITY_FAILURE" "Transit journal topology or physical Fence differs";
  Returns plan.

(** ** stage *)

(** [ORDER BY generation DESC LIMIT 1] *)
Definition newest_stage (forwardId : jsstr) : tx (option (Z * TransitStageRow)) :=
  stages ← select db_deployments (fun k _ => str_eqb k.1 forwardId);
  mret (head (sort_by (fun a b : Z * TransitStageRow => b.1 <=? a.1) (map (fun kr => (kr.1.2, kr.2)) stages))).

Definition online_session (nodeId : jsstr) : tx (jsstr * Z) :=
  row ← query (fun d => db_runtime_nodes d !! nodeId);
  match row with
  | Some r => _ ← require (is_counter false (rn_session_epoch r)) "SESSION_SUPERSEDED" "Current online session required";
              mret (nodeId, rn_session_epoch r)
  | None => throw "SESSION_SUPERSEDED" "Current online session required"
  end.

(** [b.validUntil-a.validUntil || a.fingerprint.localeCompare(b.fingerprint)] *)
Definition peer_order (a b : PeerCredential) : bool :=
  js_or (pc_validUntil b - pc_validUntil a) (localeCompare (pc_fingerprint a) (pc_fingerprint b)) <=? 0.

(** The body of the loop that authorizes the Nodes: its pin and its facts. *)
Definition authorize_hop (now later : Z) (actor scopeId : jsstr) (session : jsstr * Z) : tx (jsstr * jsstr * RelayNodeExecutionFacts) :=
  let nodeId := session.1 in
  allowed ← authorizedRelayNode later actor scopeId nodeId;
  state ← facts later nodeId;
  peers ← relayCredentialFacts later nodeId true;
  match head (sort_by peer_order peers) with
  | None => throw "AUTHORIZATION_DENIED" "Valid current peer credential required"
  | Some selected =>
      _ ← require (negb ((pc_validUntil selected <=? now + 10000) || (ns_credentialUntil state <=? now + 10000)))
            "AUTHORIZATION_DENIED" "Valid current peer credential required";
      mret (nodeId, pc_fingerprint selected, MkExecutionFacts allowed session.2 (ns_credentialUntil state) peers)
  end.

(** The loop over [allowedTcpPorts]. *)
Fixpoint pick_port (nodeId : jsstr) (seen : list Z) (allowed : list Z) : tx (option Z) :=
  match allowed with
  | [] => mret None
  | port :: r =>
      if includes seen port then pick_port nodeId seen r else
      previous ← query (fun d => db_port_slots d !! (nodeId, tcp, port));
      if bool_decide (is_Some (previous ≫= sl_owner_id)) then pick_port nodeId seen r else mret (Some port)
  end.

(** The loop over the protocols of one endpoint. *)
Fixpoint pick_ports (e : ResolvedEndpoint) (seen : list Z) (entry : option Z * option Z) (ps : list NetworkProtocol)
    : tx (option Z * option Z) :=
  match ps with
  | [] => mret entry
  | p :: r =>
      picked ← pick_port (rse_nodeId e) seen (re_allowedTcpPorts (rse_config e));
      match picked with
      | None => throw "PORT_RESERVED" "No exclusive TLS port available"
      | Some port => pick_ports e (port :: seen) (put_port entry p port) r
      end
  end.

Definition endpoint_ports (ps : list NetworkProtocol) (e : ResolvedEndpoint) : tx (jsstr * (option Z * option Z)) :=
  entry ← pick_ports e [] (None, None) ps; mret (rse_nodeId e, entry).

Definition unowned (r : PlanResource) : tx unit :=
  row ← query (fun d => db_port_slots d !! resource_slot r);
  require (negb (bool_decide (is_Some (row ≫= sl_owner_id)))) "PORT_RESERVED" "Live physical owner must first be retired".

(** The current Forward with its route and locked Profile reference. *)
Definition stage_forward (actor scopeId forwardId : jsstr) (expectedRevision : Z) : tx (Forward * PathTopology * TransportRef) :=
  f ← currentForUpdate scopeId forwardId;
  _ ← require (revision f =? expectedRevision) "REVISION_CONFLICT" "Forward revision differs";
  who ← authorizer forwardId;
  _ ← require (bool_decide (who = Some actor)) "AUTHORIZATION_DENIED" "Only original Forward authorizer may stage Transit";
  path ← lift (compilePathTopology f);
  match transport (spec f) with
  | None => throw "UNSUPPORTED_CAPABILITY" "Locked three-Node Transport required"
  | Some ref =>
      _ ← require (enabled (spec f) && negb (length (pt_nodes path) <? 3)%nat) "UNSUPPORTED_CAPABILITY" "Locked three-Node Transport required";
      mret (f, path, ref)
  end.

(** The generation after the newest stage, which must have ended. *)
Definition next_generation (f : Forward) (forwardId : jsstr) : tx Z :=
  old ← newest_stage forwardId;
  _ ← require (match old with Some (_, r) => tg_target_revision r <=? revision f | None => true end)
        "INTEGRITY_FAILURE" "Transit journal revision exceeds locked Forward revision";
  _ ← require (match old with Some (_, r) => negb (bool_decide (tg_state r = t_reserved)) | None => true end)
        "RESOURCE_CONFLICT" "Abort old proposal before another staging attempt";
  let generation := Z.max (revision f) (default 0 (fst <$> old) + 1) in
  _ ← require (is_counter false generation && (generation <? MAX_COUNTER)) "RESOURCE_LIMIT" "Transit generation exhausted";
  mret generation.

Definition stage (now later : Z) (actor scopeId forwardId : jsstr) (expectedRevision : Z) : tx TransitPreparation :=
  _ ← require (is_counter false expectedRevision) "INVALID_CONFIG" "Valid Forward revision required";
  '(f, path, ref) ← stage_forward actor scopeId forwardId expectedRevision;
  generation ← next_generation f forwardId;
  sessions ← collect_each online_session (sort_by str_leb (map pn_nodeId (pt_nodes path)));
  profile ← resolve actor scopeId (profileId ref) (configRevision ref);
  hops ← collect_each (authorize_hop now later actor scopeId) sessions;
  endpoints ← collect_each resolve_endpoint (map pn_nodeId (drop 1 (pt_nodes path)));
  ports ← collect_each (endpoint_ports (protocols (spec f))) endpoints;
  let input := MkTransitInput f profile (map snd hops) endpoints ports in
  resources ← lift (compileTransitResources input);
  _ ← for_each unowned resources;
  reservations ← reserveTransitResources f resources generation;
  issuedAt ← lift (toISOString now);
  plan ← lift (compileTransitPreparation (MkTransitCompile input reservations issuedAt (map fst hops)
                 (Z.min (rp_maxConnectionsPerNode (rpf_config profile)) 4096)));
  let expiry := Z.min (tp_authorizationUntil plan) (now + 300000) in
  _ ← require (negb (expiry <=? now + 10000)) "LEASE_EXPIRED" "Transit stage expiry too short";
  _ ← insert_row db_deployments with_deployments (forwardId, generation)
        (MkStageRow (revision f) scopeId actor t_reserved expiry (tp_planDigest plan) plan now now);
  mret plan.

(** ** abort *)

(** [SELECT MAX(valid_until) until FROM execution_leases WHERE forward_id=?] *)
Definition latest_lease (forwardId : jsstr) (d : Db) : option Z :=
  match List.filter (fun kl : lease_id * Lease => str_eqb (ls_forward_id kl.2) forwardId) (map_to_list (db_leases d)) with
  | [] => None
  | kl :: r => Some (fold_left Z.max (map (fun kl => ls_valid_until kl.2) r) (ls_valid_until kl.2))
  end.

Definition snapshot_live (now : Z) (forwardId nodeId : jsstr) (k : jsstr * Z) (s : SnapshotRow) : bool :=
  str_eqb k.1 nodeId && (now - 5000 <? sn_valid_until s) &&
  existsb (fun a => str_eqb (rua_forwardId a) forwardId) (rus_assignments (sn_body s)).

Definition no_live_snapshot (now : Z) (forwardId nodeId : jsstr) : tx unit :=
  live ← select db_snapshots (snapshot_live now forwardId nodeId);
  require (length live =? 0)%nat "FENCING_REJECTED" "Possibly live Snapshot prevents release".

Definition held_slot (forwardId : jsstr) (generation : Z) (a : HopBinding) (r : SlotRow) : bool :=
  bool_decide (sl_owner_id r = Some forwardId) && (sl_fence r =? hb_bindingFence a) && (sl_deployment_generation r =? generation).

Definition binding_slot (a : HopBinding) : slot_id := (hb_nodeId a, prs_physicalProtocol (hb_resource a), prs_port (hb_resource a)).

Definition check_held (message : string) (forwardId : jsstr) (generation : Z) (a : HopBinding) : tx unit :=
  row ← query (fun d => db_port_slots d !! binding_slot a);
  require (match row with Some r => held_slot forwardId generation a r | None => false end) "INTEGRITY_FAILURE" message.

(** [UPDATE port_slots SET owner_id=NULL WHERE ...] must match one row. *)
Definition release_binding (forwardId : jsstr) (generation : Z) (a : HopBinding) : tx unit :=
  _ ← check_held "Reservation release race" forwardId generation a;
  modify (with_port_slots (alter free (binding_slot a))).

Definition set_aborted (now : Z) (r : TransitStageRow) : TransitStageRow :=
  MkStageRow (tg_target_revision r) (tg_scope_id r) (tg_created_by r) t_aborted (tg_expires_at r) (tg_plan_digest r) (tg_body r)
    (tg_created_at r) now.

Definition abort (now : Z) (actor scopeId forwardId : jsstr) (generation : Z) : tx bool :=
  _ ← require (is_counter false generation) "INVALID_CONFIG" "Valid Transit generation required";
  record ← query (fun d => db_deployments d !! (forwardId, generation));
  match record with
  | None => throw "NOT_FOUND" "Transit stage not found"
  | Some row =>
      _ ← require (str_eqb (tg_scope_id row) scopeId) "NOT_FOUND" "Transit stage not found";
      _ ← require (str_eqb actor (tg_created_by row)) "AUTHORIZATION_DENIED" "Only original staging actor may abort";
      plan ← lift (verifyTransitStage forwardId generation row);
      match tg_state row with
      | t_aborted => mret false
      | t_reserved =>
          coordination ← query (fun d => db_coordination d !! (forwardId, generation));
          _ ← require (negb (bool_decide (is_Some coordination))) "FENCING_REJECTED"
                "Coordinated Transit reservations require explicit verified cleanup";
          let nodeIds := sort_by str_leb (new_Set (map hb_nodeId (tp_assignments plan))) in
          _ ← for_each (lock_runtime_node "INTEGRITY_FAILURE" "Staged runtime Node disappeared") nodeIds;
          lease ← query (latest_lease forwardId);
          _ ← require (match lease with Some until => negb (now <? until + 5000) | None => true end)
                "FENCING_REJECTED" "Live execution lease prevents release";
          _ ← for_each (no_live_snapshot now forwardId) nodeIds;
          _ ← for_each (check_held "Reservation ownership or Fence changed" forwardId generation) (tp_assignments plan);
          _ ← for_each (release_binding forwardId generation) (tp_assignments plan);
          _ ← modify (with_deployments (alter (set_aborted now) (forwardId, generation)));
          mret true
      end
  end.
End Stage.

(** ** The retained plan is the staged plan *)

Lemma NoDup_map_finer {A B C} (f : A -> B) (g : A -> C) (l : list A) :
  NoDup (map g l) -> (forall x y, x ∈ l -> y ∈ l -> f x = f y -> g x = g y) -> NoDup (map f l).
Proof.
  intros HN Hfg. apply NoDup_alt. intros i j v Hi Hj. rewrite list_lookup_fmap in Hi, Hj.
  apply fmap_Some in Hi as (x & Hx & ->). apply fmap_Some in Hj as (y & Hy & Ev).
  apply (NoDup_lookup _ _ _ (g x) HN); rewrite list_lookup_fmap, ?Hx, ?Hy; cbn; [done|].
  f_equal. symmetry. apply Hfg; [by eapply list_elem_of_lookup_2..|done].
Qed.

Lemma NoDup_prod {A B} (l : list A) (k : list B) : NoDup l -> NoDup k -> NoDup (list_prod l k).
Proof.
  intros Hl Hk. induction Hl as [|x l Hx _ IH]; cbn; [constructor|]. apply NoDup_app. split_and!.
  - apply NoDup_fmap_2; [by intros ? ? [= ->]|done].
  - intros [a b] Hab Hin. apply list_elem_of_fmap in Hab as (y & [= -> ->] & _).
    apply list_elem_of_In, in_prod_iff in Hin as [Hin _]. by apply list_elem_of_In in Hin.
  - done.
Qed.

Lemma existsb_none {A} (f : A -> bool) l : (forall x, x ∈ l -> f x = false) -> existsb f l = false.
Proof. induction l as [|x l IH]; intros Hf; [done|]. cbn. rewrite Hf by left. apply IH. intros y Hy. apply Hf. by right. Qed.

Lemma staged_logical_inj n p n' p' : logical_key n p = logical_key n' p' -> n = n' /\ p = p'.
Proof. unfold logical_key. intros E. apply slash_inj in E as [-> E%protocol_name_inj]; try apply protocol_lacks_slash. done. Qed.

Lemma new_Set_perm {A} `{EqDecision A} (l : list A) : NoDup l -> new_Set l ≡ₚ l.
Proof. intros HN. apply NoDup_Permutation; [apply new_Set_NoDup|done|]. intros x. apply new_Set_elem. Qed.

Lemma path_role_ingress n i : (3 <= n)%nat -> path_role n i = p_ingress <-> i = 0%nat.
Proof.
  intros Hn. unfold path_role. destruct (Nat.eqb_spec n 1); [lia|]. destruct (Nat.eqb_spec i 0); [done|].
  destruct (i =? n - 1)%nat; done.
Qed.

(** The bindings of a path: one per hop and protocol. *)
Section Bindings.
Context (input : TransitCompileInput) (f : Forward) (route : PathTopology) (expected : list PlanResource) (g : Z) (bs : list HopBinding).
Context (Htop : topology_ok f route) (Hlen : (3 <= length (pt_nodes route) <= 8)%nat) (Hwf : forward_wf f).
Context (Hkeys : NoDup (map resource_key expected)).
Let hops := list_prod (pt_nodes route) (protocols (spec f)).
Context (Hres : Forall2 (fun hp r => resource_at hp.1 hp.2 r) hops expected).
Context (Hbound : Forall2 (fun hp b => bound input f expected g hp.1 hp.2 b) hops bs).

Lemma hops_NoDup : NoDup (map (fun hp : PathNode * NetworkProtocol => (pn_nodeId hp.1, hp.2)) hops).
Proof using Htop Hwf.
  unfold hops. assert (E : map (fun hp : PathNode * NetworkProtocol => (pn_nodeId hp.1, hp.2)) (list_prod (pt_nodes route) (protocols (spec f))) =
    list_prod (map pn_nodeId (pt_nodes route)) (protocols (spec f))).
  { clear. induction (pt_nodes route) as [|x l IH]; [done|]. cbn. by rewrite map_app, IH, map_map. }
  rewrite E. apply NoDup_prod; [apply Htop|]. pose proof (sorted_protocols_NoDup _ Hwf) as HN. unfold sorted_protocols in HN.
  by rewrite sort_by_perm in HN.
Qed.

Lemma bindings_identity : map (fun b => (hb_nodeId b, hb_protocol b)) bs = map (fun hp => (pn_nodeId hp.1, hp.2)) hops.
Proof using Hbound. clear -Hbound. revert Hbound. induction 1 as [|hp b ? ? Hb _ IH]; [done|]. cbn. f_equal; [|exact IH]. destruct Hb as (Hb & _). by injection Hb as -> _ ->. Qed.

Lemma hop_in hp : hp ∈ hops -> hp.1 ∈ pt_nodes route /\ hp.2 ∈ protocols (spec f).
Proof using. destruct hp as [h p]. unfold hops. rewrite list_elem_of_In, in_prod_iff, <- !list_elem_of_In. done. Qed.

Lemma binding_at b : b ∈ bs -> exists hop p, (hop, p) ∈ hops /\ bound input f expected g hop p b /\ resource_at hop p (hb_resource b).
Proof using Htop Hres Hbound.
  intros (i & Hi)%list_elem_of_lookup_1. destruct (Forall2_lookup_r _ _ _ _ _ Hbound Hi) as ([hop p] & Hh & Hb). exists hop, p.
  pose proof (list_elem_of_lookup_2 _ _ _ Hh) as Hin. split_and!; [done|done|]. cbn in Hb. pose proof Hb as (_ & _ & _ & Hn & Hp & Hin' & _).
  apply list_elem_of_lookup_1 in Hin' as (j & Hj). destruct (Forall2_lookup_r _ _ _ _ _ Hres Hj) as ([hop' p'] & Hh' & Hr).
  cbn in Hr. pose proof (list_elem_of_lookup_2 _ _ _ Hh') as [Hin2 _]%hop_in. apply hop_in in Hin as [Hin1 _]. cbn in Hin1, Hin2.
  assert (hop' = hop) as ->; [|by destruct Hr as (? & ? & <- & ?); rewrite Hp in *].
  pose proof Hr as (Hn' & _). apply list_elem_of_lookup_1 in Hin1 as (a & Ha), Hin2 as (c & Hc).
  assert (a = c) as ->; [|congruence]. apply (NoDup_lookup _ _ _ (pn_nodeId hop) (to_distinct _ _ Htop)); rewrite list_lookup_fmap, ?Ha, ?Hc; cbn; [done|].
  congruence.
Qed.

Lemma binding_good b : b ∈ bs -> bad_binding b = false.
Proof using Htop Hlen Hres Hbound.
  intros (hop & p & Hin & Hb & Hr)%binding_at. destruct Hb as ([= En Er Ep] & Hf & Hs & _). destruct Hr as (Rn & Rr & Rp & Rph).
  apply hop_in in Hin as [(i & Hi)%list_elem_of_lookup_1 _]. cbn in Hi. destruct (to_roles _ _ Htop _ _ Hi) as [Hix Hrole].
  unfold bad_binding, str_eqb. rewrite Hf, Hs, Rn, Rr, Rp, Rph, En, Er, Ep, !bool_decide_true by done. cbn.
  rewrite Hix in *. pose proof (path_role_ingress (length (pt_nodes route)) i ltac:(lia)) as Hpi. rewrite <- Hrole in Hpi.
  case_bool_decide as Hd.
  - apply Hpi in Hd as ->. cbn. by rewrite bool_decide_true.
  - destruct (Nat.eqb_spec i 0); [by destruct Hd; apply Hpi|]. by rewrite bool_decide_true.
Qed.

Lemma bindings_sockets : NoDup (map socket_key bs).
Proof using Htop Hwf Hkeys Hres Hbound.
  apply (NoDup_map_finer _ (fun b => (hb_nodeId b, hb_protocol b))); [rewrite bindings_identity; apply hops_NoDup|].
  intros b b' (hop & p & _ & Hb & _)%binding_at (hop' & p' & _ & Hb' & _)%binding_at.
  destruct Hb as ([= En _ Ep] & _ & _ & Rn & Rp & Hin & _), Hb' as ([= En' _ Ep'] & _ & _ & Rn' & Rp' & Hin' & _).
  unfold socket_key. rewrite En, En', <- Rn, <- Rn', !resource_key_inj. cbn. intros E.
  assert (hb_resource b = hb_resource b') as Er; [|congruence].
  apply list_elem_of_lookup_1 in Hin as (i & Hi), Hin' as (j & Hj).
  assert (i = j) as ->; [|congruence]. apply (NoDup_lookup _ _ _ (resource_key (hb_resource b)) Hkeys); rewrite list_lookup_fmap, ?Hi, ?Hj; cbn; [done|].
  f_equal. symmetry. by apply resource_key_inj.
Qed.

Lemma bindings_logical : NoDup (map (fun b => logical_key (hb_nodeId b) (hb_protocol b)) bs).
Proof using Htop Hwf Hbound.
  apply (NoDup_map_finer _ (fun b => (hb_nodeId b, hb_protocol b))); [rewrite bindings_identity; apply hops_NoDup|].
  by intros b b' _ _ [-> ->]%staged_logical_inj.
Qed.

Lemma bindings_nodes : new_Set (map hb_nodeId bs) ≡ₚ map pn_nodeId (pt_nodes route).
Proof using Htop Hwf Hbound.
  apply NoDup_Permutation; [apply new_Set_NoDup|apply Htop|]. intros x. rewrite new_Set_elem.
  assert (E : map hb_nodeId bs = map fst (map (fun b => (hb_nodeId b, hb_protocol b)) bs)) by (by rewrite map_map).
  rewrite E, bindings_identity, map_map. cbn. rewrite !list_elem_of_fmap. split.
  - intros (hp & -> & [Hin _]%hop_in). eauto.
  - intros (hop & -> & Hin). assert (exists p, p ∈ protocols (spec f)) as [p Hp].
    { destruct (wf_protocols _ (wf_spec _ Hwf)) as [->|[->| ->]]; eexists; left. }
    exists (hop, p). split; [done|]. unfold hops. by rewrite list_elem_of_In, in_prod_iff, <- !list_elem_of_In.
Qed.
End Bindings.

Section StageSpec.
Context `{Hashing, Schema RelayProfileConfig, Schema TransitIntent, Locale}.

(** A row that carries a compiled plan passes its verification. *)
Lemma verify_staged input plan row : forward_wf (tri_forward (tci_input input)) -> transit_plan_ok input plan ->
  tg_body row = plan -> tg_plan_digest row = tp_planDigest plan -> tg_scope_id row = tp_scopeId plan ->
  tg_target_revision row = tp_forwardRevision plan -> is_counter false (tp_deploymentGeneration plan) = true ->
  0 <= tg_created_at row < tg_expires_at row -> tg_expires_at row <= tp_authorizationUntil plan ->
  verifyTransitStage (tp_forwardId plan) (tp_deploymentGeneration plan) row = Returns plan.
Proof using.
  intros Hf [Hid (route & expected & Htop & Hlen & Hkeys & _ & Hres & Hb & Ho) (now & _ & Hu) Hd] Eb Ed Es Er Hg Hc He.
  assert (Hrev : is_counter false (tp_forwardRevision plan) = true) by (injection Hid as _ _ ->; apply Hf).
  unfold verifyTransitStage. rewrite Eb, Ed, Es, Er, Hg, Hrev. unfold is_safe_integer, digest_differs, digests_to in *. rewrite Hd. unfold mbind, outcome_bind.
  rewrite (proj2 (Z.leb_le (Z.abs (tg_expires_at row)) MAX_COUNTER)), (proj2 (Z.leb_le (Z.abs (tp_authorizationUntil plan)) MAX_COUNTER)),
    (proj2 (Z.leb_gt (tg_expires_at row) (tg_created_at row))), (proj2 (Z.ltb_ge (tp_authorizationUntil plan) (tg_expires_at row))) by lia.
  unfold str_eqb. rewrite !bool_decide_true, !Z.eqb_refl by done. cbn -[Nat.ltb].
  pose proof (bindings_nodes input _ _ _ _ _ Htop Hf Hb) as Hids.
  pose proof (Permutation_length Hids) as Hl. rewrite length_map in Hl.
  assert (Hord : tp_activationOrder plan ≡ₚ map pn_nodeId (pt_nodes route)) by (rewrite Ho, (to_nodes _ _ Htop); apply Htop).
  assert (HordN : NoDup (tp_activationOrder plan)) by (rewrite Hord; apply Htop).
  pose proof (Permutation_length (new_Set_perm _ HordN)) as Hl1. pose proof (Permutation_length Hord) as Hl2. rewrite length_map in Hl2.
  rewrite Hl1, Hl2, Hl, Nat.eqb_refl.
  rewrite (proj2 (Nat.ltb_ge (length (pt_nodes route)) 3)), (proj2 (Nat.ltb_ge 8 (length (pt_nodes route)))) by lia.
  rewrite (proj2 (distinct_NoDup _)) by (by eapply bindings_sockets). rewrite (proj2 (distinct_NoDup _)) by (by eapply bindings_logical). cbn.
  rewrite (existsb_none (fun i => negb (includes _ i))).
  - rewrite (existsb_none bad_binding); [done|]. intros b Hin. by eapply binding_good.
  - intros x Hx. apply negb_false_iff, includes_true. by rewrite Hids, <- Hord.
Qed.

(** ** Reservations *)

Lemma reserve_transit_one_ok f g r d s d' : reserve_transit_one f g r d = Returns (s, d') ->
  acquires (resource_slot r) free_only (id f) g d d' /\ s = MkReservedRelay r (id f) g (sl_fence (slot d (resource_slot r)) + 1).
Proof using.
  unfold reserve_transit_one. intros Hr. apply tx_bind_Returns in Hr as (r' & d1 & [-> ->]%lock_slot_Returns & Hr). tx_inv.
  apply negb_true_iff, bool_decide_eq_false, eq_None_not_Some in Hrun. apply andb_prop in Hrun0 as [_ Hrun0%Z.ltb_lt].
  apply take_locked in Hrun1. by split_and!.
Qed.

(** Exactly the slots of the resources are taken, each from free and with its next fence. *)
Record slots_taken (o : jsstr) (g : Z) (d : Db) (reserved : list ReservedRelayResource) (d' : Db) : Prop := {
  sk_slots : forall s, s ∈ reserved -> let k := resource_slot (rr_resource s) in
    s = MkReservedRelay (rr_resource s) o g (rr_bindingFence s) /\ sl_owner_id (slot d k) = None /\
    rr_bindingFence s = sl_fence (slot d k) + 1 /\ slot d' k = MkSlotRow (Some o) (rr_bindingFence s) g;
  sk_others : forall k, (forall s, s ∈ reserved -> k <> resource_slot (rr_resource s)) -> slot d' k = slot d k;
  sk_frame : exists m, d' = with_port_slots (fun _ => m) d;
}.

Lemma resource_slot_key r s : resource_slot r = resource_slot s <-> resource_key r = resource_key s.
Proof using. by rewrite resource_key_inj. Qed.

Lemma reserve_transit_loop f g rs d out d' : NoDup (map resource_slot rs) ->
  collect_each (reserve_transit_one f g) rs d = Returns (out, d') -> map rr_resource out = rs /\ slots_taken (id f) g d out d'.
Proof using.
  revert d out. induction rs as [|r rs IH]; intros d out HN Hr; cbn in Hr.
  - tx_inv. split; [done|]. split; [by intros s ?%elem_of_nil|done|]. exists (db_port_slots d). by destruct d.
  - apply NoDup_cons in HN as [Hr0 HN]. tx_inv. apply reserve_transit_one_ok in Hrun as [(Hfree & _ & Hacq & (m & ->)) ->].
    apply IH in Hrun0 as (Hrs & [HS HO (m' & ->)]); [|done]. clear IH. split; [cbn; by f_equal|].
    assert (Hne : forall s, s ∈ a0 -> resource_slot r <> resource_slot (rr_resource s)).
    { intros s Hs E. apply Hr0. rewrite E, <- Hrs. by apply list_elem_of_fmap_2, list_elem_of_fmap_2. }
    split.
    + intros s [->|Hs]%elem_of_cons; cbn.
      * split_and!; try done. rewrite HO by (intros; by apply Hne). by rewrite Hacq, decide_True.
      * destruct (HS s Hs) as (E & Hf & Hb & Hs'). cbn in *. rewrite Hacq, decide_False in Hf, Hb by (symmetry; by apply Hne). done.
    + intros k Hk. rewrite HO by (intros; apply Hk; by right). rewrite Hacq, decide_False; [done|].
      apply (Hk (MkReservedRelay r (id f) g (sl_fence (slot d (resource_slot r)) + 1))). left.
    + by exists m'.
Qed.

(** A statement that only reads. *)
Lemma reads_lock_runtime_node c m n : evolves eq (lock_runtime_node c m n).
Proof using. unfold lock_runtime_node. evolve. Qed.

Lemma reads_node_capacity n : evolves eq (node_capacity n).
Proof using. unfold node_capacity. evolve. Qed.

Lemma for_each_reads {A} (body : A -> tx unit) l d u d' : (forall x, evolves eq (body x)) ->
  for_each body l d = Returns (u, d') <-> d' = d /\ forall x, x ∈ l -> body x d = Returns (tt, d).
Proof using.
  intros Hb. destruct u. induction l as [|x l IH]; cbn.
  - rewrite mret_Returns. split; [intros [_ ->]; split; [done|by intros x ?%elem_of_nil]|naive_solver].
  - rewrite tx_bind_Returns. split.
    + intros ([] & d1 & Hx & Hl). pose proof (Hb _ _ _ _ Hx) as <-. apply IH in Hl as [-> Hl]. split; [done|].
      by intros y [->|Hy]%elem_of_cons; [|apply Hl].
    + intros [-> Hl]. exists tt, d. split; [apply Hl; left|]. apply IH. split; [done|]. intros y Hy. apply Hl. by right.
Qed.

Lemma lock_runtime_node_Returns c m n d : lock_runtime_node c m n d = Returns (tt, d) <-> is_Some (db_runtime_nodes d !! n).
Proof using.
  unfold lock_runtime_node. rewrite tx_bind_Returns. setoid_rewrite query_Returns. setoid_rewrite require_Returns.
  setoid_rewrite bool_decide_eq_true. naive_solver.
Qed.

Lemma validate_distinct f rs g d u d' : lift (validateTransitReservationSet f rs g) d = Returns (u, d') ->
  NoDup (map resource_slot rs) /\ is_counter false g = true.
Proof using.
  destruct u. intros [Hv _]%lift_Returns. unfold validateTransitReservationSet in Hv. apply bind_Returns in Hv as (t & _ & Hv).
  autorewrite with guards in Hv. destruct Hv as (((((_ & Hg) & _) & Hd) & _) & _). rewrite distinct_NoDup in Hd. split; [|done].
  eapply NoDup_map_finer; [exact Hd|]. intros x y _ _. apply resource_slot_key.
Qed.

Lemma reserveTransitResources_ok f rs g d out d' : reserveTransitResources f rs g d = Returns (out, d') ->
  map rr_resource out ≡ₚ rs /\ NoDup (map resource_slot rs) /\ is_counter false g = true /\ slots_taken (id f) g d out d' /\
  forall r, r ∈ rs -> is_Some (db_runtime_nodes d !! prs_nodeId r).
Proof using.
  intros Hr. unfold reserveTransitResources in Hr. apply tx_bind_Returns in Hr as (u & d1 & Hv & Hr).
  pose proof Hv as [HN Hg]%validate_distinct. apply lift_Returns in Hv as [_ ->]. cbn zeta in Hr.
  apply tx_bind_Returns in Hr as ([] & d1 & E1 & Hr). apply for_each_reads in E1 as [-> Hon]; [|apply reads_lock_runtime_node].
  apply tx_bind_Returns in Hr as (res & d2 & Hloop & Hr).
  apply tx_bind_Returns in Hr as ([] & d3 & E2 & [-> ->]%mret_Returns). apply (evolves_for_each eq) in E2 as <-; [|apply reads_node_capacity].
  apply reserve_transit_loop in Hloop as [E Hok]; [|by rewrite sort_by_perm]. rewrite E, sort_by_perm. split_and!; try done.
  intros r Hr. eapply lock_runtime_node_Returns, Hon. rewrite sort_by_perm, new_Set_elem. by apply list_elem_of_fmap_2.
Qed.

(** ** stage *)

(** The specifications of the stored Forwards were parsed. *)
Definition forwards_wf (d : Db) : Prop := forall i r, db_forwards d !! i = Some r -> forward_wf (to_forward (i, r)).

Lemma reads_newest_stage i : evolves eq (newest_stage i).
Proof using. unfold newest_stage. evolve. Qed.

Hint Resolve reads_newest_stage : evolves.

Lemma reads_stage_forward a s i n : evolves eq (stage_forward a s i n).
Proof using. unfold stage_forward, currentForUpdate, authorizer. evolve. Qed.

Lemma reads_next_generation f i : evolves eq (next_generation f i).
Proof using. unfold next_generation. evolve. Qed.

Lemma reads_online_session n : evolves eq (online_session n).
Proof using. unfold online_session. evolve. Qed.

Lemma reads_authorize_hop now later a s n : evolves eq (authorize_hop now later a s n).
Proof using. unfold authorize_hop, authorizedRelayNode, relayCredentialFacts, state. evolve. Qed.

Lemma reads_pick_port n seen l : evolves eq (pick_port n seen l).
Proof using. induction l as [|x l IH]; cbn; [apply evolves_ret; apply _|]. evolve; done. Qed.
Hint Resolve reads_pick_port : evolves.

Lemma reads_endpoint_ports ps e : evolves eq (endpoint_ports ps e).
Proof using.
  unfold endpoint_ports. evolve. generalize (@nil Z) (@None Z, @None Z).
  induction ps as [|p ps IH]; intros seen entry; cbn; evolve; done.
Qed.

Lemma reads_unowned r : evolves eq (unowned r).
Proof using. unfold unowned. evolve. Qed.

(** What [stage] leaves behind. *)
Record staged (actor scopeId forwardId : jsstr) (d : Db) (plan : TransitPreparation) (d' : Db) : Prop := {
  st_row : exists row, db_deployments d' = <[(forwardId, tp_deploymentGeneration plan) := row]> (db_deployments d) /\
    tg_state row = t_reserved /\ tg_created_by row = actor /\ tg_scope_id row = scopeId /\
    verifyTransitStage forwardId (tp_deploymentGeneration plan) row = Returns plan;
  st_generation : is_counter false (tp_deploymentGeneration plan) = true /\
    forall g r, db_deployments d !! (forwardId, g) = Some r -> g < tp_deploymentGeneration plan;
  st_distinct : NoDup (map binding_slot (tp_assignments plan));
  st_slots : forall a, a ∈ tp_assignments plan -> sl_owner_id (slot d (binding_slot a)) = None /\
    hb_bindingFence a = sl_fence (slot d (binding_slot a)) + 1 /\
    slot d' (binding_slot a) = MkSlotRow (Some forwardId) (hb_bindingFence a) (tp_deploymentGeneration plan);
  st_others : forall k, k ∉ map binding_slot (tp_assignments plan) -> slot d' k = slot d k;
  st_frame : exists m row, d' = with_deployments (insert (forwardId, tp_deploymentGeneration plan) row) (with_port_slots (fun _ => m) d);
  st_online : forall a, a ∈ tp_assignments plan -> is_Some (db_runtime_nodes d !! hb_nodeId a);
}.

Lemma stage_forward_Returns actor scopeId forwardId n d f path ref d' : stage_forward actor scopeId forwardId n d = Returns (f, path, ref, d') ->
  d' = d /\ compilePathTopology f = Returns path /\ id f = forwardId /\ Forward.scopeId f = scopeId /\
  exists r, db_forwards d !! forwardId = Some r /\ f = to_forward (forwardId, r) /\ fw_authorization_actor r = Some actor.
Proof using.
  unfold stage_forward, currentForUpdate, find_forward, authorizer. intros Hr.
  apply tx_bind_Returns in Hr as (f0 & d0 & Hf & Hr). apply tx_bind_Returns in Hf as (r & d1 & Hf & [-> ->]%mret_Returns).
  apply tx_bind_Returns in Hf as (found & d2 & [-> ->]%query_Returns & Hf).
  destruct (db_forwards d !! forwardId) as [r0|] eqn:E; [|discriminate Hf]. tx_inv. unfold str_eqb in *.
  destruct (transport (spec (to_forward (forwardId, r0)))); [|discriminate Hr]. tx_inv. injection Hret as -> -> ->. propify.
  rewrite E in Hrun1. split_and!; try done. by exists r0.
Qed.

Lemma next_generation_Returns f forwardId d g d' : next_generation f forwardId d = Returns (g, d') ->
  d' = d /\ is_counter false g = true /\ forall g' r, db_deployments d !! (forwardId, g') = Some r -> g' < g.
Proof using.
  intros Hr. pose proof Hr as <-%reads_next_generation. split; [done|]. unfold next_generation, newest_stage in Hr.
  apply tx_bind_Returns in Hr as (old & d0 & Hold & Hr).
  apply tx_bind_Returns in Hold as (stages & d1 & [-> Hsel]%select_Returns & [-> ->]%mret_Returns).
  apply tx_bind_Returns in Hr as ([] & d1 & [_ ->]%require_Returns & Hr).
  apply tx_bind_Returns in Hr as ([] & d1 & [_ ->]%require_Returns & Hr).
  apply tx_bind_Returns in Hr as ([] & d1 & [[Hg _]%andb_prop ->]%require_Returns & [-> _]%mret_Returns). split; [done|]. intros g' r Hin.
  assert (Hst : (g', r) ∈ map (fun kr : jsstr * Z * TransitStageRow => (kr.1.2, kr.2)) stages).
  { apply list_elem_of_fmap. exists ((forwardId, g'), r). split; [done|]. apply Hsel. split; [done|]. unfold str_eqb. by rewrite bool_decide_true. }
  destruct (head (sort_by _ _)) as [[g0 r0]|] eqn:Eh.
  - apply sort_by_head in Eh as [_ Hmin].
    + destruct (decide (g' = g0)) as [->|Hne]; [cbn; lia|].
      specialize (Hmin _ Hst ltac:(congruence)). cbn in Hmin. apply Z.leb_le in Hmin. cbn. lia.
    + intros [] []; cbn. rewrite Z.leb_gt, Z.leb_le. lia.
    + intros [] [] []; cbn. rewrite !Z.leb_le. lia.
  - apply sort_by_head_None in Eh. rewrite Eh in Hst. by apply elem_of_nil in Hst.
Qed.

Lemma binding_slot_resource input f expected g hop p b : bound input f expected g hop p b -> binding_slot b = resource_slot (hb_resource b).
Proof using. intros ([= En _ _] & _ & _ & Rn & _). unfold binding_slot, resource_slot. by rewrite Rn, En. Qed.

(** The bindings of a plan use exactly its reservations. *)
Lemma plan_reservations input plan : forward_wf (tri_forward (tci_input input)) -> transit_plan_ok input plan ->
  NoDup (map binding_slot (tp_assignments plan)) /\ map hb_resource (tp_assignments plan) ≡ₚ map rr_resource (tci_reservations input) /\
  tp_assignments plan <> [] /\
  forall a, a ∈ tp_assignments plan -> binding_slot a = resource_slot (hb_resource a) /\ hb_nodeId a = prs_nodeId (hb_resource a) /\
    MkReservedRelay (hb_resource a) (tp_forwardId plan) (tp_deploymentGeneration plan) (hb_bindingFence a) ∈ tci_reservations input.
Proof using.
  intros Hf [Hid (route & expected & Htop & Hlen & Hkeys & Hnum & Hres & Hb & _) _ _].
  assert (Hall : forall a, a ∈ tp_assignments plan -> binding_slot a = resource_slot (hb_resource a) /\ hb_nodeId a = prs_nodeId (hb_resource a) /\
    MkReservedRelay (hb_resource a) (tp_forwardId plan) (tp_deploymentGeneration plan) (hb_bindingFence a) ∈ tci_reservations input).
  { intros a Ha. destruct (binding_at input _ _ _ _ _ Htop Hres Hb a Ha) as (hop & p & _ & Hbd & _).
    split_and!; [by eapply binding_slot_resource|by destruct Hbd as ([= -> _ _] & _ & _ & -> & _)|].
    destruct Hbd as (_ & _ & _ & _ & _ & _ & slot & Hin & ->). by injection Hid as _ -> _. }
  assert (HN : NoDup (map binding_slot (tp_assignments plan))).
  { eapply NoDup_map_finer; [by apply (bindings_sockets input _ _ _ _ _ Htop Hf Hkeys Hres Hb)|].
    intros a b _ _ E. unfold socket_key. apply resource_key_inj. exact E. }
  assert (Hlen2 : length (tp_assignments plan) = length (tci_reservations input)).
  { rewrite Hnum. by rewrite <- (Forall2_length _ _ _ Hb), (Forall2_length _ _ _ Hres). }
  split_and!; [done| | |done].
  - apply submseteq_length_Permutation; [|by rewrite !length_map, Hlen2]. apply NoDup_submseteq.
    + eapply NoDup_map_finer; [exact HN|]. intros a b (-> & _)%Hall (-> & _)%Hall. by intros ->.
    + intros r (a & -> & Ha)%list_elem_of_fmap. destruct (Hall a Ha) as (_ & _ & Hin). by apply (list_elem_of_fmap_2 rr_resource) in Hin.
  - intros E. pose proof (Permutation_length (bindings_nodes input _ _ _ _ _ Htop Hf Hb)) as Hl. rewrite E, length_map in Hl. cbn in Hl. lia.
Qed.

(** The run of [stage]: what it reads, what it reserves and the row it writes. *)
Lemma stage_Returns now later actor scopeId forwardId n d plan d' : forwards_wf d ->
  stage now later actor scopeId forwardId n d = Returns (plan, d') ->
  exists f input rs res g issuedAt pins limit d1,
    forward_wf f /\ id f = forwardId /\ Forward.scopeId f = scopeId /\ tri_forward input = f /\
    is_counter false g = true /\ (forall g' r, db_deployments d !! (forwardId, g') = Some r -> g' < g) /\
    reserveTransitResources f rs g d = Returns (res, d1) /\ toISOString now = Returns issuedAt /\
    compileTransitPreparation (MkTransitCompile input res issuedAt pins limit) = Returns plan /\
    now + 10000 < Z.min (tp_authorizationUntil plan) (now + 300000) /\
    d' = with_deployments (insert (forwardId, g) (MkStageRow (revision f) scopeId actor t_reserved
           (Z.min (tp_authorizationUntil plan) (now + 300000)) (tp_planDigest plan) plan now now)) d1.
Proof using.
  intros Hwf Hr. unfold stage in Hr. apply tx_bind_Returns in Hr as ([] & d0 & [_ ->]%require_Returns & Hr).
  apply tx_bind_Returns in Hr as ([[f path] ref] & d0 & Hf & Hr).
  apply stage_forward_Returns in Hf as (-> & _ & Hid & Hs & r & Hl & Ef & _).
  apply tx_bind_Returns in Hr as (g & d0 & (-> & Hg & Hnew)%next_generation_Returns & Hr).
  apply tx_bind_Returns in Hr as (sessions & d0 & E & Hr). apply (evolves_collect_each eq) in E as <-; [|apply reads_online_session].
  apply tx_bind_Returns in Hr as (profile & d0 & <-%reads_resolve & Hr).
  apply tx_bind_Returns in Hr as (hops & d0 & E & Hr). apply (evolves_collect_each eq) in E as <-; [|apply reads_authorize_hop].
  apply tx_bind_Returns in Hr as (endpoints & d0 & E & Hr). apply (evolves_collect_each eq) in E as <-; [|apply reads_resolve_endpoint].
  apply tx_bind_Returns in Hr as (ports & d0 & E & Hr). apply (evolves_collect_each eq) in E as <-; [|apply reads_endpoint_ports].
  cbn zeta in Hr. apply tx_bind_Returns in Hr as (resources & d0 & [_ ->]%lift_Returns & Hr).
  apply tx_bind_Returns in Hr as ([] & d0 & E & Hr). apply (evolves_for_each eq) in E as <-; [|apply reads_unowned].
  apply tx_bind_Returns in Hr as (res & d1 & Hres & Hr).
  apply tx_bind_Returns in Hr as (issuedAt & d0 & [Hi ->]%lift_Returns & Hr).
  apply tx_bind_Returns in Hr as (plan0 & d0 & [Hp ->]%lift_Returns & Hr).
  apply tx_bind_Returns in Hr as ([] & d0 & [Hx%negb_true_iff%Z.leb_gt ->]%require_Returns & Hr).
  apply tx_bind_Returns in Hr as ([] & d2 & [_ ->]%insert_row_Returns & [-> ->]%mret_Returns).
  exists f, (MkTransitInput f profile (map snd hops) endpoints ports), resources, res, g, issuedAt. eexists _, _, d1.
  split_and!; try done. subst f. by apply Hwf.
Qed.

Lemma stage_staged now later actor scopeId forwardId n d plan d' : forwards_wf d -> 0 <= now ->
  stage now later actor scopeId forwardId n d = Returns (plan, d') -> staged actor scopeId forwardId d plan d'.
Proof using.
  intros Hwf Hnow Hr. apply stage_Returns in Hr as (f & input & rs & res & g & issuedAt & pins & limit & d1 & Hf & Hid & Hs & Ef & Hg & Hnew & Hres & Hi & Hp & Hx & ->); [|done].
  set (ci := MkTransitCompile input res issuedAt pins limit) in *.
  assert (Hf' : forward_wf (tri_forward (tci_input ci))) by (cbn; by rewrite Ef).
  pose proof (compileTransitPreparation_plan _ _ Hf' Hp) as Hok.
  destruct (plan_reservations _ _ Hf' Hok) as (HN & Hperm & Hne & Hall). cbn [ci tci_reservations] in Hperm, Hall.
  apply reserveTransitResources_ok in Hres as (Hrs & _ & _ & [HS HO (m & ->)] & Hon).
  pose proof (tpo_identity _ _ Hok) as Eid. cbn in Eid. rewrite Ef, Hs, Hid in Eid. injection Eid as Es Efid Erev.
  assert (Hgen : tp_deploymentGeneration plan = g).
  { destruct (tp_assignments plan) as [|a l] eqn:E; [done|]. destruct (Hall a ltac:(left)) as (_ & _ & Hin).
    apply HS in Hin as (Eq & _). by injection Eq. }
  split.
  - eexists. rewrite Hgen. split; [reflexivity|]. split_and!; try done. rewrite <- Efid, <- Hgen.
    apply (verify_staged ci); try done; cbn; [by rewrite Hgen|lia|lia].
  - by rewrite Hgen.
  - done.
  - intros a Ha. destruct (Hall a Ha) as (Ek & _ & Hin). rewrite Ek. apply HS in Hin as (Eq & Hfree & Hb & Hslot).
    cbn in Eq, Hb, Hslot. rewrite Hgen, <- Hid. by split_and!.
  - intros k Hk. apply HO. intros s Hs' ->. apply Hk.
    assert (rr_resource s ∈ map hb_resource (tp_assignments plan)) as (a & Ea & Ha)%list_elem_of_fmap by (rewrite Hperm; by apply list_elem_of_fmap_2).
    rewrite Ea. destruct (Hall a Ha) as (<- & _). by apply list_elem_of_fmap_2.
  - rewrite Hgen. by eexists m, _.
  - intros a Ha. destruct (Hall a Ha) as (_ & -> & Hin). apply Hon. rewrite <- Hrs. by apply (list_elem_of_fmap_2 rr_resource) in Hin.
Qed.

(** C28. A stage retains exactly what it reserved.  When [stage] returns a plan, the physical
    slots of its bindings, all different, were free and are now owned by the Forward at
    the next fence of each and at the plan's generation, and no other slot changed; the
    generation is higher than every earlier one of the Forward; and the journal has one
    new row, reserved by the actor, whose body passes [verifyTransitStage] and is the
    returned plan. *)
Theorem stage_ok (now later : Z) (actor scopeId forwardId : jsstr) (n : Z) (d d' : Db) (plan : TransitPreparation) :
  forwards_wf d -> 0 <= now ->
  stage now later actor scopeId forwardId n d = Returns (plan, d') -> staged actor scopeId forwardId d plan d'.
Proof using.
  apply stage_staged.
Qed.

(** ** abort *)

Lemma held_row forwardId g a d : slot d (binding_slot a) = MkSlotRow (Some forwardId) (hb_bindingFence a) g ->
  db_port_slots d !! binding_slot a = Some (MkSlotRow (Some forwardId) (hb_bindingFence a) g).
Proof using. unfold slot. destruct (_ !! _) as [r|]; cbn; [by intros ->|done]. Qed.

Lemma check_held_Returns m forwardId g a d : slot d (binding_slot a) = MkSlotRow (Some forwardId) (hb_bindingFence a) g ->
  check_held m forwardId g a d = Returns (tt, d).
Proof using.
  intros Hs%held_row. unfold check_held, mbind, tx_bind, query. rewrite Hs. unfold held_slot. cbn.
  by rewrite bool_decide_true, !Z.eqb_refl by done.
Qed.

Lemma reads_check_held m forwardId g a : evolves eq (check_held m forwardId g a).
Proof using. unfold check_held. evolve. Qed.

Lemma reads_no_live_snapshot now i n : evolves eq (no_live_snapshot now i n).
Proof using. unfold no_live_snapshot. evolve. Qed.

Lemma release_loop forwardId g bs d : NoDup (map binding_slot bs) ->
  (forall a, a ∈ bs -> slot d (binding_slot a) = MkSlotRow (Some forwardId) (hb_bindingFence a) g) ->
  exists m, let d' := with_port_slots (fun _ => m) d in
    for_each (release_binding forwardId g) bs d = Returns (tt, d') /\
    (forall a, a ∈ bs -> slot d' (binding_slot a) = MkSlotRow None (hb_bindingFence a) g) /\
    (forall k, k ∉ map binding_slot bs -> slot d' k = slot d k).
Proof using.
  revert d. induction bs as [|b bs IH]; intros d HN Hheld; cbn zeta.
  - exists (db_port_slots d). split_and!; [by destruct d|by intros a ?%elem_of_nil|done].
  - apply NoDup_cons in HN as [Hb HN]. pose proof (Hheld b ltac:(left)) as Hs. pose proof (held_row _ _ _ _ Hs) as Hrow.
    set (d1 := with_port_slots (alter free (binding_slot b)) d).
    assert (Hd1 : forall k, slot d1 k = if decide (k = binding_slot b) then MkSlotRow None (hb_bindingFence b) g else slot d k).
    { intros k. unfold slot, d1. cbn. case_decide as E; [subst; by rewrite lookup_alter_eq, Hrow|by rewrite lookup_alter_ne]. }
    assert (Hother : forall a, a ∈ bs -> binding_slot a <> binding_slot b).
    { intros a Ha E. apply Hb. rewrite <- E. by apply list_elem_of_fmap_2. }
    destruct (IH d1 HN) as (m & Hrun & Hf & Ho).
    { intros a Ha. rewrite Hd1, decide_False by by apply Hother. apply Hheld. by right. }
    exists m. split_and!.
    + cbn [for_each]. apply tx_bind_Returns. exists tt, d1. split; [|exact Hrun]. unfold release_binding.
      apply tx_bind_Returns. exists tt, d. split; [by apply check_held_Returns|done].
    + intros a [->|Ha]%elem_of_cons; [|by apply Hf]. change (slot (with_port_slots (fun _ => m) d1) (binding_slot b) = MkSlotRow None (hb_bindingFence b) g).
      by rewrite Ho, Hd1, decide_True.
    + intros k Hk. cbn in Hk. rewrite not_elem_of_cons in Hk. destruct Hk as [Hk1 Hk2].
      change (slot (with_port_slots (fun _ => m) d1) k = slot d k). by rewrite Ho, Hd1, decide_False.
Qed.

(** No lease of the Forward reaches within five seconds of [now], and no live Snapshot of
    these Nodes carries it. *)
Definition quiet (now : Z) (forwardId : jsstr) (nodes : list jsstr) (d : Db) : Prop :=
  (forall k l, db_leases d !! k = Some l -> ls_forward_id l = forwardId -> ls_valid_until l + 5000 <= now) /\
  (forall k s, db_snapshots d !! k = Some s -> k.1 ∈ nodes -> now - 5000 < sn_valid_until s ->
     forall a, a ∈ rus_assignments (sn_body s) -> rua_forwardId a <> forwardId).

Lemma fold_max_in l z : fold_left Z.max l z = z \/ fold_left Z.max l z ∈ l.
Proof using.
  revert z. induction l as [|x l IH]; intros z; cbn; [by left|]. destruct (IH (Z.max z x)) as [E|E]; [|by right; right].
  rewrite E. destruct (Z.max_spec z x) as [[_ ->]|[_ ->]]; [by right; left|by left].
Qed.

Lemma quiet_lease now i nodes d u : quiet now i nodes d -> latest_lease i d = Some u -> u + 5000 <= now.
Proof using.
  intros [Hq _]. unfold latest_lease. destruct (List.filter _ _) as [|kl l] eqn:E; [done|]. intros [= <-].
  assert (Hall : forall x, x ∈ kl :: l -> ls_valid_until x.2 + 5000 <= now).
  { intros [k v] Hx. rewrite <- E, list_elem_of_In, filter_In, <- list_elem_of_In, elem_of_map_to_list in Hx.
    destruct Hx as [Hl Hi]. unfold str_eqb in Hi. propify. by eapply Hq. }
  destruct (fold_max_in (map (fun kl => ls_valid_until kl.2) l) (ls_valid_until kl.2)) as [->|Hin]; [apply Hall; left|].
  apply list_elem_of_fmap in Hin as (x & -> & Hx). apply Hall. by right.
Qed.

Lemma quiet_snapshot now i nodes d n : quiet now i nodes d -> n ∈ nodes -> no_live_snapshot now i n d = Returns (tt, d).
Proof using.
  intros [_ Hq] Hn. unfold no_live_snapshot, select. apply tx_bind_Returns. eexists _, d. split; [by apply query_Returns|].
  apply require_Returns. split; [|done]. apply Nat.eqb_eq. destruct (List.filter _ _) as [|[k s] l] eqn:E; [done|].
  assert (Hin : (k, s) ∈ (k, s) :: l) by left. rewrite <- E, list_elem_of_In, filter_In, <- list_elem_of_In, elem_of_map_to_list in Hin.
  destruct Hin as [Hl Hs]. unfold snapshot_live, str_eqb in Hs. propify. cbn in *.
  match goal with Hb : existsb _ _ = true |- _ => apply existsb_exists in Hb as (a & Ha%list_elem_of_In & He) end. propify.
  exfalso. eapply (Hq k s Hl); [congruence|done|exact Ha|done].
Qed.

Lemma verified_body forwardId g row plan : verifyTransitStage forwardId g row = Returns plan -> tg_body row = plan.
Proof using.
  unfold verifyTransitStage. rewrite !guard_seq. intros (_ & _ & Hr). apply bind_Returns in Hr as (b & _ & Hr). rewrite !guard_seq in Hr.
  by destruct Hr as (_ & _ & [= <-]).
Qed.

Lemma tx_bind_run {A B} (m : tx A) (k : A -> tx B) d a d1 r : m d = Returns (a, d1) -> k a d1 = Returns r -> (m ≫= k) d = Returns r.
Proof using. intros Hm Hk. unfold mbind, tx_bind. by rewrite Hm. Qed.

Lemma abort_runs now actor scopeId forwardId d plan d1 : staged actor scopeId forwardId d plan d1 ->
  db_coordination d !! (forwardId, tp_deploymentGeneration plan) = None ->
  quiet now forwardId (map hb_nodeId (tp_assignments plan)) d ->
  exists d2, abort now actor scopeId forwardId (tp_deploymentGeneration plan) d1 = Returns (true, d2) /\
    (forall a, a ∈ tp_assignments plan -> slot d2 (binding_slot a) = MkSlotRow None (hb_bindingFence a) (tp_deploymentGeneration plan)) /\
    (forall k, k ∉ map binding_slot (tp_assignments plan) -> slot d2 k = slot d1 k) /\
    db_deployments d2 = alter (set_aborted now) (forwardId, tp_deploymentGeneration plan) (db_deployments d1).
Proof using.
  intros [(row & Edep & Est & Eby & Esc & Hv) [Hg _] HN Hslots _ (m & row' & ->) Hon] Hco Hq.
  set (g := tp_deploymentGeneration plan) in *. set (d1 := with_deployments _ _) in *.
  destruct (release_loop forwardId g (tp_assignments plan) d1 HN) as (m2 & Hrel & Hf & Ho); [by intros a Ha; apply Hslots|].
  exists (with_deployments (alter (set_aborted now) (forwardId, g)) (with_port_slots (fun _ => m2) d1)).
  split_and!; [|done|done|done].
  assert (Hnodes : forall x, x ∈ sort_by str_leb (new_Set (map hb_nodeId (tp_assignments plan))) <-> x ∈ map hb_nodeId (tp_assignments plan)).
  { intros x. by rewrite sort_by_perm, new_Set_elem. }
  unfold abort, str_eqb. eapply tx_bind_run; [apply require_Returns; split; [done|reflexivity]|]. eapply tx_bind_run; [apply query_Returns; split; reflexivity|].
  rewrite Edep, lookup_insert_eq, Esc, Eby, Est, !bool_decide_true by done.
  do 2 (eapply tx_bind_run; [apply require_Returns; split; [done|reflexivity]|]). eapply tx_bind_run; [apply lift_Returns; split; [exact Hv|reflexivity]|].
  eapply tx_bind_run; [apply query_Returns; split; reflexivity|]. eapply tx_bind_run.
  { apply require_Returns. split; [|reflexivity]. by replace (db_coordination d1 !! _) with (@None CoordinationRow). }
  eapply tx_bind_run.
  { apply for_each_reads; [apply reads_lock_runtime_node|]. split; [reflexivity|]. intros x (a & -> & Ha)%Hnodes%list_elem_of_fmap.
    apply lock_runtime_node_Returns. by apply Hon. }
  eapply tx_bind_run; [apply query_Returns; split; reflexivity|]. eapply tx_bind_run.
  { apply require_Returns. split; [|reflexivity]. change (latest_lease forwardId d1) with (latest_lease forwardId d).
    destruct (latest_lease forwardId d) as [u|] eqn:E; [|done]. eapply quiet_lease in E; [|done]. apply negb_true_iff, Z.ltb_ge. lia. }
  eapply tx_bind_run.
  { apply for_each_reads; [apply reads_no_live_snapshot|]. split; [reflexivity|]. intros x Hx%Hnodes.
    by apply (quiet_snapshot now forwardId (map hb_nodeId (tp_assignments plan))). }
  eapply tx_bind_run.
  { apply for_each_reads; [apply reads_check_held|]. split; [reflexivity|]. intros a Ha. apply check_held_Returns. by apply Hslots. }
  eapply tx_bind_run; [exact Hrel|]. done. Unshelve. all: exact tt.
Qed.

(** An uncoordinated stage can be withdrawn.  After [stage] returned a plan, its author's
    [abort] returns [true] whenever no coordination of that generation exists, no lease of
    the Forward reaches within five seconds of now and no live Snapshot of the staged
    Nodes carries the Forward.  Afterwards every slot the stage took is free again at the
    fence the stage drew, every other slot is as before the stage, and the journal row is
    kept as aborted. *)
Theorem stage_abort (now later now' : Z) (actor scopeId forwardId : jsstr) (n : Z) (d d1 : Db) (plan : TransitPreparation) :
  forwards_wf d -> 0 <= now ->
  stage now later actor scopeId forwardId n d = Returns (plan, d1) ->
  db_coordination d !! (forwardId, tp_deploymentGeneration plan) = None ->
  quiet now' forwardId (map hb_nodeId (tp_assignments plan)) d ->
  exists d2 row, abort now' actor scopeId forwardId (tp_deploymentGeneration plan) d1 = Returns (true, d2) /\
    (forall a, a ∈ tp_assignments plan -> slot d2 (binding_slot a) =
       MkSlotRow None (sl_fence (slot d (binding_slot a)) + 1) (tp_deploymentGeneration plan)) /\
    (forall k, k ∉ map binding_slot (tp_assignments plan) -> slot d2 k = slot d k) /\
    db_deployments d2 !! (forwardId, tp_deploymentGeneration plan) = Some row /\ tg_state row = t_aborted /\ tg_body row = plan.
Proof using.
  intros Hwf Hnow Hr Hco Hq. pose proof (stage_staged _ _ _ _ _ _ _ _ _ Hwf Hnow Hr) as Hst.
  destruct (abort_runs _ _ _ _ _ _ _ Hst Hco Hq) as (d2 & Hrun & Hfree & Hother & Hrow).
  destruct (st_row _ _ _ _ _ _ Hst) as (row & Edep & _ & _ & _ & Hv). exists d2, (set_aborted now' row). split_and!; [done| | | |done|].
  - intros a Ha. rewrite (Hfree a Ha). by destruct (st_slots _ _ _ _ _ _ Hst a Ha) as (_ & <- & _).
  - intros k Hk. rewrite (Hother k Hk). by apply Hst.
  - by rewrite Hrow, lookup_alter_eq, Edep, lookup_insert_eq.
  - apply (verified_body _ _ _ _ Hv).
Qed.
End StageSpec.

(** ** A concrete stage over three Nodes *)

Definition staging_facts (n : jsstr) : AuthorizedNodeFacts :=
  MkNodeFacts n (js "s1") [js "adp.3"; js "adp.multihop.1"; js "native.transit.v1"; js "transit.wire.1"; js "native.relay.v1"; js "relay.wire.1"; js "tcp"]
    [js "0.0.0.0"] [8080] 1 [js "192.0.2.0/24"] false.

Definition staging_node (n : jsstr) : NodeRow :=
  MkNodeRow (js "s1") [] 0 None None (Some 1800000000000) None false (staging_facts n) 1.

Definition staging_db : Db :=
  let each {V} (f : jsstr -> V) : gmap jsstr V := <[js "n1" := f (js "n1")]> (<[js "n2" := f (js "n2")]> {[js "n3" := f (js "n3")]}) in
  MkDb {[js "f1" := MkForwardRow (js "s1") 4 (spec multihop_forward) false false (Some (js "u1"))]} ∅ ∅ ∅ ∅ ∅ ∅
    (<[js "n1" := MkRuntimeNode 5 None 0 0 None None]> (<[js "n2" := MkRuntimeNode 6 None 0 0 None None]> {[js "n3" := MkRuntimeNode 7 None 0 0 None None]})) ∅
    (MkIdentityTables ∅ {[js "s1" := js "u1"]} {[(js "s1", js "u1") := MkMemberRow true true 1]} [])
    (MkMachineTables (each staging_node) {[(js "n1", js "u1"); (js "n2", js "u1"); (js "n3", js "u1")]} ∅
       (<[replicate 64 97 := MkCredentialRow (js "n1") 0 1790000000000 None false []]>
          (<[replicate 64 98 := MkCredentialRow (js "n2") 0 1790000000000 None false []]>
             {[replicate 64 99 := MkCredentialRow (js "n3") 0 1790000000000 None false []]})) ∅ ∅ [])
    (MkProfileTables {[js "p1" := MkProfileRow (js "s1") 1 1]}
       {[(js "p1", 1) := MkProfileRevision example_profile (sum_of (relay_profile_json example_profile)) (js "u1") 0]}
       {[(js "p1", js "u1")]} []
       (each (fun n => MkEndpointRow 2 (MkRelayEndpoint (js "0.0.0.0") (js "192.0.2.7") [8443]) (js "u1") 0)))
    (MkTransitTables ∅ ∅ ∅ ∅) (MkRuntimeTables ∅ ∅ ∅) (db_paths empty_db) (db_probes empty_db).

Definition staging_binding (n : jsstr) (role : PathRole) (epoch port : Z) (up down : option jsstr) : HopBinding :=
  MkHopBinding (js "a:" ++ drop 7 (sum_of (identity_json n (js "f1") tcp (path_role_name role)))) n role tcp epoch 1
    (MkPlanResource n role tcp tcp (js "0.0.0.0") port) up down.

Definition staging_bindings : list HopBinding :=
  [staging_binding (js "n1") p_ingress 5 8080 None (Some (js "n2")); staging_binding (js "n2") p_transit 6 8443 (Some (js "n1")) (Some (js "n3"));
   staging_binding (js "n3") p_egress 7 8443 (Some (js "n2")) None].

Definition staging_compile : TransitCompileInput :=
  MkTransitCompile (MkTransitInput multihop_forward (MkResolvedProfile (js "p1") 1 example_profile (sum_of (relay_profile_json example_profile)))
    [] [] []) [] [] [] 0.

Definition staging_path : jsstr :=
  match compilePathTopology multihop_forward with
  | Returns route => sum_of (path_json staging_compile multihop_forward route 4 staging_bindings)
  | Throws _ => []
  end.

(** The Intent of the middle Node. *)
Definition staging_intent : TransitIntent :=
  let pins := [(js "n1", pin 97); (js "n2", pin 98); (js "n3", pin 99)] in
  let at_ i := nth i staging_bindings (staging_binding [] p_egress 0 0 None None) in
  {| ti_scopeId := js "s1"; ti_forwardId := js "f1"; ti_forwardRevision := 4; ti_deploymentGeneration := 4;
     ti_profileId := js "p1"; ti_profileRevision := 1; ti_profileDigest := sum_of (relay_profile_json example_profile);
     ti_pathDigest := staging_path; ti_nodeId := js "n2"; ti_assignmentId := hb_assignmentId (at_ 1%nat);
     ti_sessionEpoch := 6; ti_bindingFence := 1; ti_protocol := tcp; ti_hopIndex := 1; ti_hopCount := 3;
     ti_listener := Listen (js "0.0.0.0") 8443; ti_upstream := neighbor_of pins (at_ 0%nat); ti_downstream := neighbor_of pins (at_ 2%nat);
     ti_downstream_endpoint := Target (js "192.0.2.7") 8443; ti_issuedAt := iso_text 1780000000000;
     ti_authorizationUntil := iso_text 1790000000000; ti_egressPolicyRevision := 1; ti_allowedDestinationCidrs := [js "192.0.2.0/24"];
     ti_allowMetadataTargets := false; ti_maxConnections := Z.min (rp_maxConnectionsPerNode example_profile) 4096 |}.

Definition staging_run : outcome (TransitPreparation * Db) :=
  @stage checksum_hashing (accept_only example_profile) (accept_only staging_intent) example_locale
    1780000000000 1780000000000 (js "u1") (js "s1") (js "f1") 4 staging_db.

Lemma staging_run_Returns : exists plan d', staging_run = Returns (plan, d').
Proof.
  assert (E : is_returns staging_run = true) by (vm_compute; reflexivity). apply is_returns_true in E as [[plan d'] E]. eauto.
Qed.

Lemma staging_forwards_wf : forwards_wf staging_db.
Proof. intros i r Hr. unfold staging_db, db_forwards in Hr. apply lookup_singleton_Some in Hr as [<- <-]. exact multihop_forward_wf. Qed.

Lemma stage_ok_witness : exists plan d', staging_run = Returns (plan, d') /\
  @staged checksum_hashing (js "u1") (js "s1") (js "f1") staging_db plan d'.
Proof.
  destruct staging_run_Returns as (plan & d' & E). exists plan, d'. split; [exact E|].
  exact (@stage_ok checksum_hashing (accept_only example_profile) (accept_only staging_intent) example_locale
    1780000000000 1780000000000 (js "u1") (js "s1") (js "f1") 4 staging_db d' plan staging_forwards_wf ltac:(lia) E).
Defined.

Lemma stage_abort_witness : exists plan d1 d2, staging_run = Returns (plan, d1) /\
  @abort checksum_hashing 1780000060000 (js "u1") (js "s1") (js "f1") (tp_deploymentGeneration plan) d1 = Returns (true, d2).
Proof.
  destruct staging_run_Returns as (plan & d1 & E).
  destruct (@stage_abort checksum_hashing (accept_only example_profile) (accept_only staging_intent) example_locale
    1780000000000 1780000000000 1780000060000 (js "u1") (js "s1") (js "f1") 4 staging_db d1 plan staging_forwards_wf ltac:(lia) E)
    as (d2 & row & Hrun & _).
  - apply lookup_empty.
  - split; intros k x Hx; unfold staging_db, db_leases, db_snapshots in Hx; rewrite lookup_empty in Hx; discriminate Hx.
  - exists plan, d1, d2. split; [exact E|exact Hrun].
Defined.
