(* ===== verification/RelayGuarantees.v ===== *)
(** What the Relay coordinator guarantees, with a concrete deployment over three Nodes.

    [advance_refines]: the code keeps the contract [relay_move]; [activation_order]: traffic is let
    in downstream first; [relay_complete_drained]: work is done, and sockets are given back,
    only when nothing that was replaced can still run. *)

From S2P Require Import Prelude.
From S2P Require Import JsString.
From S2P Require Import Forward.
From S2P Require Import Digest.
From S2P Require Import Types.
From S2P Require Import Validate.
From S2P Require Import Schema.
From S2P Require Import Relay.
From S2P Require Import Adp3.
From S2P Require Import Transit.
From S2P Require Import RelayPlan.
From S2P Require Import Store.
From S2P Require Import Forwarding.
From S2P Require Import Operations.
From S2P Require Import Retirements.
From S2P Require Import Reads.
From S2P Require Import RelayDeployments.
From S2P Require Import RelayLocks.
From S2P Require Import RelayCoordinator.
From S2P Require Import RelayFrame.
From S2P Require Import RelayProgress.
From S2P Require Import Slots.
From S2P Require Import Json.
From S2P Require Import Primitives.
From S2P Require Import Time.
From S2P Require Import Planner.
From S2P Require Import MultihopPlan.
From S2P Require Import Profiles.
From S2P Require Import Nodes.
From S2P Require Import Iso.
From S2P Require Import TransitStaging.

Local Open Scope Z_scope.

Section Guarantees.
Context `{Hashing, Schema RelayProfileConfig, Schema RelayOpen, Schema RelayAssignment, Adp2Schemas, Adp3Schemas, Locale}.
Context (policy : Policy) (multihopEnabled : bool) (uuid : Db -> jsstr).

(** C18. The coordinator keeps its contract: an [advance] of a Forward leaves every deployment's
    plan alone and moves it by one [relay_move] on what its Nodes are seen to report, never
    out of the withdrawn stage; a deployment it adds belongs to the Forward, begins with
    nothing prepared and has a later generation than all others; and beside the Operations,
    retirements, slots and deployments it changes no table. *)
Theorem advance_refines (now : Z) (f : jsstr) (d d' : Db) :
  advance policy multihopEnabled uuid now f d = Returns (tt, d') ->
  (forall k r, db_relay_deployments d !! k = Some r -> exists r', db_relay_deployments d' !! k = Some r' /\
     same_plan r r' /\ relay_move (fun n p => observed_at policy now n p d = true) r (progress r') /\
     (dp_stage r = g_withdrawn -> dp_stage r' = g_withdrawn)) /\
  (forall k r', db_relay_deployments d !! k = None -> db_relay_deployments d' !! k = Some r' ->
     k.1 = f /\ progress r' = (g_preparing, 0, 0) /\ forall g r, db_relay_deployments d !! (f, g) = Some r -> g < k.2) /\
  beside d' = beside d /\ retired_stays d d'.
Proof using.
  intros ([Hb Hret] & _ & _ & [HR HN])%advance_moves. split_and!; [|done..]. intros k r (r' & Hr' & Hp & Hm)%HR. exists r'. split_and!; [done..|].
  intros Hw. by apply (relay_move_withdrawn _ _ _ Hm).
Qed.

(** C21. Traffic is let in downstream first: in whatever order [advance], reports, publications
    and other transactions interleave, when a deployment over several hops publishes a Node
    as active then every Node of the path has been seen prepared, and every Node further
    downstream has been seen active. *)
Theorem activation_order (k : jsstr * Z) (E : PlannedNode -> Phase -> Prop) (d : Db) (r : Deployment) (i : nat) (n : PlannedNode) :
  relay_history policy multihopEnabled uuid k E d -> db_relay_deployments d !! k = Some r -> is_Some (rpp_path (dp_body r)) -> dp_stage r <> g_withdrawn ->
  rpp_nodes (dp_body r) !! i = Some n -> hop_active r (Z.of_nat i) (hop_count r) = true ->
  (forall j m, rpp_nodes (dp_body r) !! j = Some m -> E m prepared) /\
  (forall j m, rpp_nodes (dp_body r) !! j = Some m -> (i < j)%nat -> E m active).
Proof using.
  intros Hh Hr Hpath Hw Hn Ha. pose proof (relay_history_evidence _ _ _ _ _ _ Hh _ Hr Hpath) as He.
  unfold hop_evidence, hop_active in *. destruct (dp_stage r); try done.
  - apply Z.leb_le in Ha. destruct He as [Hp Hact]. split; [done|]. intros j m Hm Hj. eapply Hact; [done|lia].
  - destruct He as [Hp Hact]. split; [done|]. intros j m Hm _. by eapply Hact.
Qed.

(** ** Completion *)

(** Where the instances of the plan run. *)
Definition planned_instances (plan : RelayPreparedPlan) : list jsstr :=
  concat (map (fun node : jsstr * list RuntimeAssignment => map (fun a => instance_text (assignment_instance node.1 a)) node.2)
    (map (fun n => (pnd_nodeId n, pnd_assignments n)) (rpp_nodes plan))).

(** No Snapshot that is still valid carries the Forward on one of its Nodes. *)
Definition unpublished (now : Z) (f : Forward) (d : Db) : Prop :=
  exists ids, nodeIDs f d = Returns (ids, d) /\ forall n, n ∈ ids -> still_published policy now (id f) n d = Returns (false, d).

(** When the work of a deployment is over. *)
Record relay_done (now : Z) (stage : RelayStage) (f : Forward) (deleting : bool) (o : Operation) (plan : RelayPreparedPlan) (d : Db) : Prop := {
  rd_drained : releasable now (if stopping stage f deleting o then [] else planned_instances plan) d (id f);
  rd_stopped : stopping stage f deleting o = true -> unpublished now f d;
  rd_active : stopping stage f deleting o = false -> stage = g_active /\ forall n, n ∈ rpp_nodes plan -> observed_at policy now n active d = true;
}.

Lemma any_of_false {A} (f : A -> tx bool) l d d' : (forall x, evolves eq (f x)) -> any_of f l d = Returns (false, d') ->
  d' = d /\ forall x, x ∈ l -> f x d = Returns (false, d).
Proof using.
  intros Hf. revert d'. induction l as [|x l IH]; intros d' Hr; cbn in Hr.
  - apply mret_Returns in Hr as [_ ->]. split; [done|by intros x ?%elem_of_nil].
  - apply tx_bind_Returns in Hr as (b & d1 & Hb & Hr). pose proof (Hf _ _ _ _ Hb) as <-. destruct b; [by apply mret_Returns in Hr as [? _]|].
    apply IH in Hr as [-> Hl]. split; [done|]. intros y [->|Hy]%elem_of_cons; [done|by apply Hl].
Qed.

(** The slots of the Forward that are given back. *)
Definition gives_back (f : Forward) (deleting : bool) (stopped : bool) (plan : RelayPreparedPlan) (d d' : Db) : Prop :=
  releases (id f) d d' /\ forall k, slot d' k <> slot d k -> (stopped = true /\ deleting = true) \/ (stopped = false /\ slot_text k ∉ planned_slots plan).

Lemma release_undesired_gives f deleting plan d u d' : release_undesired (id f) (planned_slots plan) d = Returns (u, d') -> gives_back f deleting false plan d d'.
Proof using.
  intros ->%modify_Returns. split; [split; [by eexists|]|]; intros k; unfold owner, slot; cbn; rewrite update_where_lookup.
  - destruct (_ !! k) as [r|]; [|by left]. cbn. destruct (_ && _) eqn:E; [right|by left]. by propify.
  - destruct (_ !! k) as [r|]; [|done]. cbn. destruct (_ && _) eqn:E; [|done]. intros _. right. split; [done|]. propify. by apply includes_false.
Qed.

Lemma settled_Returns now stage f deleting o plan d b d' : settled policy now stage f deleting o plan d = Returns (b, d') ->
  if b then relay_done now stage f deleting o plan d /\ gives_back f deleting (stopping stage f deleting o) plan d d' else d' = d.
Proof using.
  assert (Hrefl : forall st, gives_back f deleting st plan d d) by (intros st; split; [reflexivity|done]).
  unfold settled. intros (pending & d1 & [-> ->]%query_Returns & Hr)%tx_bind_Returns.
  destruct (length (pending_of (id f) d) =? 0)%nat eqn:Ep; cbn [negb] in Hr; [|by apply mret_Returns in Hr as [-> ->]].
  apply Nat.eqb_eq in Ep. pose proof (pending_none _ _ Ep) as Hpend. destruct (stopping stage f deleting o) eqn:Est.
  - apply tx_bind_Returns in Hr as (ids & d1 & Hids & Hr). pose proof (reads_nodeIDs _ _ _ _ Hids) as <-.
    apply tx_bind_Returns in Hr as (held & d1 & Hheld & Hr). destruct held.
    { assert (Hread : evolves eq (any_of (still_published policy now (id f)) ids)) by (apply reads_any_of; intros; apply reads_still_published).
      apply Hread in Hheld as <-. by apply mret_Returns in Hr as [-> ->]. }
    apply any_of_false in Hheld as [-> Hpub]; [|intros; apply reads_still_published].
    apply tx_bind_Returns in Hr as (unsafe & d1 & [-> ->]%query_Returns & Hr).
    destruct (length (unsafe_leases (id f) d) =? 0)%nat eqn:Eu; cbn [negb] in Hr; [|by apply mret_Returns in Hr as [-> ->]].
    apply Nat.eqb_eq in Eu. pose proof (unsafe_none _ _ Eu) as Hun. apply tx_bind_Returns in Hr as ([] & d1 & Hrel & [-> ->]%mret_Returns). split.
    + split; rewrite ?Est; [split; [done|]|intros _; by exists ids|done]. intros k l Hk Hl. left. by eapply Hun.
    + destruct deleting; [|apply mret_Returns in Hrel as [_ ->]; apply Hrefl]. split; [by eapply releaseForwardSlots_releases|]. by left.
  - apply tx_bind_Returns in Hr as (ready & d1 & Hready & Hr).
    assert (d1 = d /\ (ready = true -> stage = g_active /\ forall n, n ∈ rpp_nodes plan -> observed_at policy now n active d = true)) as [-> Hact].
    { case_bool_decide; [|by apply mret_Returns in Hready as [-> ->]]. apply all_observed_Returns in Hready as [-> Hall]. split; [done|]. intros E. split; [done|].
      intros n Hn. apply (Hall E n active). apply list_elem_of_fmap. by exists n. }
    destruct ready; cbn [negb] in Hr; [|by apply mret_Returns in Hr as [-> ->]]. apply tx_bind_Returns in Hr as (safe & d1 & Hsafe & Hr).
    destruct safe; cbn [negb] in Hr; [|apply reads_previousLeasesSafe in Hsafe as <-; by apply mret_Returns in Hr as [-> ->]].
    apply previousLeasesSafe_true in Hsafe as [-> Hsafe]. apply tx_bind_Returns in Hr as ([] & d1 & Hrel & [-> ->]%mret_Returns). split.
    + split; rewrite ?Est; [split; [done|exact Hsafe]|done|intros _; by apply Hact].
    + by eapply release_undesired_gives.
Qed.

(** One [UPDATE] of Operations. *)
Lemma update_operations_Returns w c d u d' : update_operations w c d = Returns (u, d') ->
  db_port_slots d' = db_port_slots d /\ forall i o, db_operations d !! i = Some o -> db_operations d' !! i = Some (if w i o then c o else o).
Proof using. intros ->%modify_Returns. split; [done|]. intros i o Ho. cbn. by rewrite update_where_lookup, Ho. Qed.

(** C22. Relay work is over only when nothing of it can still run.  If completing a deployment gives a
    socket back, or ends the Operation, then every replaced instance of the Forward is known to
    be gone and every lease on one has run out or belongs to the plan; either the deployment
    was stopped and no valid Snapshot carries it any more, or every Node of the plan reports its
    Assignments active.  Sockets of the running plan are kept, only the claimed Operation ends,
    and it ends before its deadline. *)
Theorem relay_complete_drained (now : Z) (stage : RelayStage) (f : Forward) (deleting : bool) (op : op_row) (plan : RelayPreparedPlan) (d d' : Db) :
  relay_complete policy now stage f deleting op plan d = Returns (tt, d') ->
  (d' = d \/ relay_done now stage f deleting op.2 plan d) /\
  (forall k, slot d' k = slot d k \/
     owner d k = Some (id f) /\ slot d' k = free (slot d k) /\
     (stopping stage f deleting op.2 = true /\ deleting = true \/ stopping stage f deleting op.2 = false /\ slot_text k ∉ planned_slots plan)) /\
  (forall i o, db_operations d !! i = Some o -> exists o', db_operations d' !! i = Some o' /\
     (op_status o' = op_status o \/ i = op.1 /\ op_status o = s_running /\ now < op_execution_deadline o /\ op_status o' = s_succeeded)).
Proof using.
  unfold relay_complete. intros (b & d1 & Hs%settled_Returns & Hr)%tx_bind_Returns. destruct b; cbn [negb] in Hr.
  2: { apply mret_Returns in Hr as [_ ->]. subst d1. split_and!; [by left|by left|]. intros i o Ho. exists o. auto. }
  destruct Hs as [Hdone [[[m ->] Hrel] Hgive]]. set (d1 := with_port_slots (fun _ => m) d) in *. set (stopped := stopping stage f deleting op.2) in *.
  assert (Hstep : forall w c (e : Db) u e', update_operations w c e = Returns (u, e') -> forall k, slot e' k = slot e k).
  { intros w c e u e' [Hsl _]%update_operations_Returns k. unfold slot. by rewrite Hsl. }
  apply tx_bind_Returns in Hr as ([] & d2 & Hupd & Hr).
  assert (Hmid : (forall k, slot d2 k = slot d1 k) /\ forall i o, db_operations d !! i = Some o -> exists o', db_operations d2 !! i = Some o' /\
     (op_status o' = op_status o \/ i = op.1 /\ op_status o = s_running /\ now < op_execution_deadline o /\ op_status o' = s_succeeded)).
  { destruct (_ && _) in Hupd; [|apply mret_Returns in Hupd as [_ ->]; split; [done|]; intros i o Ho; exists o; auto].
    split; [by eapply Hstep|]. intros i o Ho. apply update_operations_Returns in Hupd as [_ Hupd]. specialize (Hupd i o Ho). eexists. split; [exact Hupd|].
    destruct (_ && _) eqn:E; [|by left]. right. unfold str_eqb in E. propify. cbn. split_and!; [done..|]. by match goal with Hs : op_status o = s_running |- _ => rewrite Hs end. }
  destruct Hmid as [Hsl2 Hop2].
  assert (Hend : (forall k, slot d' k = slot d2 k) /\ forall i o, db_operations d2 !! i = Some o -> exists o', db_operations d' !! i = Some o' /\ op_status o' = op_status o).
  { destruct (_ || _) in Hr; [|apply mret_Returns in Hr as [_ ->]; split; [done|]; intros i o Ho; by exists o].
    split; [by eapply Hstep|]. intros i o Ho. apply update_operations_Returns in Hr as [_ Hr]. specialize (Hr i o Ho). eexists. split; [exact Hr|]. cbn beta. destruct (str_eqb _ _ && _); reflexivity. }
  destruct Hend as [Hsl3 Hop3]. split_and!; [by right| |].
  - intros k. rewrite Hsl3, Hsl2. destruct (Hrel k) as [E|[Ho E]]; [by left|]. right. split_and!; [done..|]. apply Hgive. intros Es. unfold owner in Ho. rewrite <- Es, E in Ho. discriminate Ho.
  - intros i o (o2 & Ho2 & Hst)%Hop2. apply Hop3 in Ho2 as (o3 & Ho3 & E3). exists o3. split; [done|]. rewrite E3. exact Hst.
Qed.
End Guarantees.

(** ** A deployment over three Nodes *)

#[local] Existing Instance checksum_hashing.
#[local] Instance deployed_profiles : Schema RelayProfileConfig := accept_only example_profile.
#[local] Instance deployed_opens : Schema RelayOpen := accept_only example_open.
#[local] Instance deployed_relays : Schema RelayAssignment := accept_only example_relay.
#[local] Instance deployed_messages : Adp2Schemas := planner_adp2.
#[local] Instance deployed_documents : Adp3Schemas := planner_adp3.
#[local] Instance deployed_locale : Locale := example_locale.

Definition deployed_time : Z := 1780000000000.
Definition deployed_uuid (d : Db) : jsstr := js "r1".

Definition deployed_operation : Operation :=
  MkOperation (js "s1") (js "f1") 4 k_create s_running 1790000000000 None None false None None None 0 0 (js "u1") (js "k1") [] 1 None false.

(** The Nodes of [staging_db], able to run multi-hop paths, with work to do. *)
Definition deployed_db : Db :=
  with_operations <[js "o1" := deployed_operation]>
    (with_nodes (fmap (fun n => set_node_facts (with_capabilities (multihop_capabilities (spec multihop_forward) ++ [js "native.direct.v1"]) (nd_facts n)) n)) staging_db).

Definition planned_run : outcome (RelayPreparedPlan * Db) := acceptPlan DEFAULT_POLICY true deployed_time (js "u1") multihop_forward deployed_db.

(** The state and the result of a run that returns. *)
Definition state_after {A} (o : outcome (A * Db)) (d : Db) : Db := match o with Returns (_, d') => d' | Throws _ => d end.
Definition result_of {A} (o : outcome (A * Db)) (a : A) : A := match o with Returns (a', _) => a' | Throws _ => a end.

Definition planned_plan : RelayPreparedPlan := Eval vm_compute in result_of planned_run (MkPreparedPlan None None [] 0 0 0 0 [] []).
Definition planned_db : Db := Eval vm_compute in state_after planned_run deployed_db.
Definition planned_nodes : list PlannedNode := rpp_nodes planned_plan.

(** Every Node was given its Assignments as prepared, and reports them prepared. *)
Definition prepared_snapshot (n : PlannedNode) : SnapshotRow :=
  MkSnapshotRow (pnd_sessionEpoch n) (deployed_time + 300000)
    (MkRuntimeSnapshot true (pnd_nodeId n) (pnd_sessionEpoch n) 1 [] (returned [] (toISOString (deployed_time + 300000))) []
      (map (with_phase prepared) (pnd_assignments n)) []).

Definition prepared_report (n : PlannedNode) : ReportRequest :=
  MkReportRequest (pnd_nodeId n) (js "b1") (pnd_sessionEpoch n) 1 [] 1
    (map (fun a => MkObservation (rua_assignmentId a) (rua_deploymentGeneration a) (rua_bindingFence a) (present prepared) c_prepared None false) (pnd_assignments n)) [].

Definition prepared_db : Db := Eval vm_compute in
  fold_left (fun d n => with_snapshots <[(pnd_nodeId n, 1) := prepared_snapshot n]>
    (with_runtime_nodes <[pnd_nodeId n := MkRuntimeNode (pnd_sessionEpoch n) (Some (js "b1")) 1 1 (Some (prepared_report n)) (Some deployed_time)]> d)) planned_nodes planned_db.

Definition advanced_run (d : Db) : outcome (unit * Db) := advance DEFAULT_POLICY true deployed_uuid deployed_time (js "f1") d.

(** Three reports of three prepared Nodes later the last hop is active. *)
Definition progress_is (k : jsstr * Z) (s : RelayStage) (p a : Z) (d : Db) : bool := bool_decide (progress <$> db_relay_deployments d !! k = Some (s, p, a)).

Definition last_hop_active (d : Db) : bool :=
  match db_relay_deployments d !! (js "f1", 4) with
  | Some r => bool_decide (is_Some (rpp_path (dp_body r))) && bool_decide (dp_stage r <> g_withdrawn) &&
              bool_decide (is_Some (pnd_nodeId <$> rpp_nodes (dp_body r) !! 2%nat)) && hop_active r 2 (hop_count r)
  | None => false
  end.

Definition three_runs (d : Db) : bool :=
  match advanced_run d with
  | Returns (_, d1) => progress_is (js "f1", 4) g_preparing 1 0 d1 &&
      match advanced_run d1 with
      | Returns (_, d2) => match advanced_run d2 with Returns (_, d3) => last_hop_active d3 | Throws _ => false end
      | Throws _ => false
      end
  | Throws _ => false
  end.

Lemma deployed_runs : exists d1 d2 d3, advanced_run prepared_db = Returns (tt, d1) /\ advanced_run d1 = Returns (tt, d2) /\ advanced_run d2 = Returns (tt, d3) /\
  progress_is (js "f1", 4) g_preparing 1 0 d1 = true /\ last_hop_active d3 = true.
Proof.
  assert (Hr : three_runs prepared_db = true) by (vm_compute; reflexivity). unfold three_runs in Hr.
  destruct (advanced_run prepared_db) as [[[] d1]|e]; [|discriminate Hr]. apply andb_true_iff in Hr as [Hp Hr].
  destruct (advanced_run d1) as [[[] d2]|e] eqn:E2; [|discriminate Hr]. destruct (advanced_run d2) as [[[] d3]|e] eqn:E3; [|discriminate Hr].
  exists d1, d2, d3. split_and!; [reflexivity|exact E2|exact E3|exact Hp|exact Hr].
Qed.

Lemma advance_refines_witness : exists d1, progress <$> db_relay_deployments d1 !! (js "f1", 4) = Some (g_preparing, 1, 0) /\ beside d1 = beside prepared_db.
Proof.
  destruct deployed_runs as (d1 & d2 & d3 & E1 & _ & _ & Hp & _). exists d1. split; [exact (proj1 (bool_decide_eq_true _) Hp)|].
  exact (proj1 (proj2 (proj2 (@advance_refines checksum_hashing deployed_profiles deployed_opens deployed_relays deployed_messages deployed_documents deployed_locale
    DEFAULT_POLICY true deployed_uuid deployed_time (js "f1") prepared_db d1 E1)))).
Defined.

Abbreviation deployed_history := (relay_history DEFAULT_POLICY true deployed_uuid (js "f1", 4)).

Lemma history_step E d d' : deployed_history E d -> advanced_run d = Returns (tt, d') ->
  deployed_history (fun n p => E n p \/ observed_at DEFAULT_POLICY deployed_time n p d = true) d'.
Proof. intros HE Hr. exact (rh_advance _ _ _ _ E d d' deployed_time (js "f1") HE Hr). Qed.

Lemma prepared_history : exists E d, deployed_history E d /\ last_hop_active d = true.
Proof.
  destruct deployed_runs as (d1 & d2 & d3 & E1 & E2 & E3 & _ & Hl).
  assert (Hr : progress <$> db_relay_deployments planned_db !! (js "f1", 4) = Some (g_preparing, 0, 0)) by (vm_compute; reflexivity).
  apply fmap_Some in Hr as (r & Hr & Hp). eexists _, d3. split; [|exact Hl].
  eapply history_step; [|exact E3]. eapply history_step; [|exact E2]. eapply history_step; [|exact E1].
  eapply rh_other; [eapply rh_start; [exact Hr|by symmetry]|]. intros r0 Hr0. exists r0.
  assert (E : db_relay_deployments prepared_db = db_relay_deployments planned_db) by (vm_compute; reflexivity). rewrite E. split; [exact Hr0|]. split; [done|by left].
Qed.

Lemma activation_order_witness : exists E d r n, deployed_history E d /\ db_relay_deployments d !! (js "f1", 4) = Some r /\
  rpp_nodes (dp_body r) !! 2%nat = Some n /\ hop_active r 2 (hop_count r) = true /\ E n prepared.
Proof.
  destruct prepared_history as (E & d & HE & Hr). unfold last_hop_active in Hr.
  destruct (db_relay_deployments d !! (js "f1", 4)) as [r|] eqn:Er; [|discriminate Hr]. apply andb_true_iff in Hr as [[[H1 H2]%andb_true_iff H3]%andb_true_iff H4].
  apply bool_decide_eq_true in H1, H2, H3. destruct (rpp_nodes (dp_body r) !! 2%nat) as [n|] eqn:En; [|by destruct H3].
  exists E, d, r, n. split; [exact HE|]. split; [exact Er|]. split; [exact En|]. split; [exact H4|].
  destruct (@activation_order checksum_hashing deployed_profiles deployed_opens deployed_relays deployed_messages deployed_documents deployed_locale
    DEFAULT_POLICY true deployed_uuid (js "f1", 4) E d r 2 n HE Er H1 H2 En H4) as [Hp _]. exact (Hp 2%nat n En).
Defined.

(** The Forward is deleted before anything ran. *)
Definition withdrawn_run : outcome (unit * Db) :=
  relay_complete DEFAULT_POLICY deployed_time g_withdrawn multihop_forward true (js "o1", deployed_operation) planned_plan planned_db.

Lemma relay_complete_drained_witness : exists d', withdrawn_run = Returns (tt, d') /\
  owner planned_db (js "n1", tcp, 8080) = Some (js "f1") /\ owner d' (js "n1", tcp, 8080) = None /\
  (d' = planned_db \/ relay_done DEFAULT_POLICY deployed_time g_withdrawn multihop_forward true deployed_operation planned_plan planned_db).
Proof.
  assert (Hr : match withdrawn_run with Returns (_, d) => bool_decide (owner d (js "n1", tcp, 8080) = None) | Throws _ => false end = true) by (vm_compute; reflexivity).
  destruct withdrawn_run as [[[] d']|e] eqn:E; [|discriminate Hr]. exists d'. split; [reflexivity|]. split; [vm_compute; reflexivity|].
  split; [exact (proj1 (bool_decide_eq_true _) Hr)|].
  exact (proj1 (@relay_complete_drained checksum_hashing DEFAULT_POLICY deployed_time g_withdrawn multihop_forward true (js "o1", deployed_operation) planned_plan planned_db d' E)).
Defined.
