(* ===== verification/CommandGuarantees.v ===== *)
(** The commands on a concrete scope: its owner, a manager, one Node and one path template. *)

From S2P Require Import Prelude.
From S2P Require Import JsString.
From S2P Require Import JsValue.
From S2P Require Import Primitives.
From S2P Require Import Json.
From S2P Require Import Forward.
From S2P Require Import Digest.
From S2P Require Import Types.
From S2P Require Import Validate.
From S2P Require Import Schema.
From S2P Require Import Relay.
From S2P Require Import Adp3.
From S2P Require Import Transit.
From S2P Require Import TargetPolicy.
From S2P Require Import Endpoint.
From S2P Require Import Planner.
From S2P Require Import RelayPlan.
From S2P Require Import PathContract.
From S2P Require Import Store.
From S2P Require Import Idempotency.
From S2P Require Import Forwarding.
From S2P Require Import Slots.
From S2P Require Import Operations.
From S2P Require Import Identity.
From S2P Require Import Nodes.
From S2P Require Import Profiles.
From S2P Require Import Reads.
From S2P Require Import PathTemplates.
From S2P Require Import PathBindings.
From S2P Require Import Execution.
From S2P Require Import Reconcile.
From S2P Require Import CommandState.
From S2P Require Import ForwardCommands.
From S2P Require Import AccessCommands.
From S2P Require Import CommandSafety.
From S2P Require Import Revocation.
From S2P Require Import ControlSafety.
From S2P Require Import RelayGuarantees.
From S2P Require Import Guarantees.
From S2P Require Import Time.
From S2P Require Import Iso.
From S2P Require Import RelayCoordinator.
From S2P Require Import RelayDeployments.

Local Open Scope Z_scope.

(** Digests of the length SHA-256 has. *)
Definition padded_hashing : Hashing :=
  {| canonicalize := fun v => Some (stringify v);
     sha256_hex := fun s => let t := num_to_string (fold_left (fun h c => (h * 257 + c) mod 1000000007) s 7) in
                            replicate (64 - length t) 48 ++ t |}.

#[local] Existing Instance padded_hashing.
#[local] Instance office_profiles : Schema RelayProfileConfig := accept_only example_profile.
#[local] Instance office_opens : Schema RelayOpen := accept_only example_open.
#[local] Instance office_relays : Schema RelayAssignment := accept_only example_relay.
#[local] Instance office_messages : Adp2Schemas := planner_adp2.
#[local] Instance office_locale : Locale := example_locale.

Definition office_time : Z := 1780000000000.
Definition office_uuid (d : Db) : jsstr := js "r" ++ num_to_string (Z.of_nat (size (db_operations d))).

Definition office_facts (n : jsstr) : AuthorizedNodeFacts :=
  MkNodeFacts n (js "s1") [js "adp.3"; js "native.direct.v1"; js "native.relay.v1"; js "relay.wire.1"; js "tcp"; js "udp"] [js "0.0.0.0"] [80; 443] 2
    [js "192.0.2.0/24"] false.

Definition office_node (n : jsstr) : NodeRow := MkNodeRow (js "s1") [] 0 None None (Some 1800000000000) None false (office_facts n) 1.

Definition office_db : Db :=
  MkDb ∅ ∅ ∅ ∅ ∅ ∅ ∅ {[js "n1" := MkRuntimeNode 5 None 0 0 None None; js "n2" := MkRuntimeNode 6 None 0 0 None None]} ∅
    (MkIdentityTables {[js "u1" := js "t1"; js "u2" := js "t2"]} {[js "s1" := js "u1"]}
       {[(js "s1", js "u1") := MkMemberRow true true 1; (js "s1", js "u2") := MkMemberRow true true 1]} [])
    (MkMachineTables {[js "n1" := office_node (js "n1"); js "n2" := office_node (js "n2")]}
       {[(js "n1", js "u1"); (js "n1", js "u2"); (js "n2", js "u1"); (js "n2", js "u2")]} ∅ ∅ ∅ ∅ [])
    (MkProfileTables {[js "p1" := MkProfileRow (js "s1") 1 1]}
       {[(js "p1", 1) := MkProfileRevision example_profile (returned [] (digest (relay_profile_json example_profile))) (js "u1") 0]}
       {[(js "p1", js "u1"); (js "p1", js "u2")]} [] {[js "n2" := MkEndpointRow 2 (MkRelayEndpoint (js "0.0.0.0") (js "192.0.2.7") [8443]) (js "u1") 0]})
    (MkTransitTables ∅ ∅ ∅ ∅) (MkRuntimeTables ∅ ∅ ∅) (db_paths empty_db) (db_probes empty_db).

(** A state without Forwards and templates is consistent. *)
Lemma empty_control d : db_forwards d = ∅ -> db_forward_revisions d = ∅ -> db_operations d = ∅ -> db_paths d = db_paths empty_db -> control_ok d.
Proof.
  intros EF ER EO EP. split; [split|intros i row|intros i o|intros i j o p|split|split];
    unfold db_bindings, db_current_bindings, db_templates, db_template_revisions; rewrite ?EF, ?ER, ?EO, ?EP; intros *;
    try (intros Hr; cbn in Hr; rewrite lookup_empty in Hr; discriminate Hr).
  unfold count_templates, db_templates. rewrite EP. vm_compute. discriminate.
Qed.

Lemma office_ok : control_ok office_db.
Proof. apply empty_control; reflexivity. Qed.

(** The documents the Node accepts: the Snapshots of one Forward at its first revisions, and the empty one. *)
Definition office_spec (port : Z) : ForwardSpec := MkSpec true [tcp; udp] (js "n1") (Listen (js "0.0.0.0") 80) (Target (js "example.com") port) None None.

Definition office_snapshot (assignments : list RuntimeAssignment) : RuntimeSnapshot :=
  let input := MkSnapshotInput (js "n1") 5 MAX_COUNTER (returned [] (toISOString office_time))
    (returned [] (toISOString (office_time + leaseSeconds DEFAULT_POLICY * 1000))) assignments [] (Some DEFAULT_POLICY) in
  snapshot_of input (returned [] (digest (runtime_body_json (snapshot_of input [])))).

Definition office_plan (revision port : Z) : list RuntimeAssignment :=
  returned [] (compileDirect (MkForward (js "r0") (js "s1") revision (office_spec port)) (office_facts (js "n1"))
    (map (fun p => MkReservedSlot (js "n1") (js "r0") p 80 revision revision) [tcp; udp]) active (policy_drainTimeoutSeconds DEFAULT_POLICY)).

#[local] Instance office_documents : Adp3Schemas := serving [office_snapshot []; office_snapshot (office_plan 1 8080); office_snapshot (office_plan 2 9090)].

Definition office_command (actor : string) (c : ForwardCommand) (d : Db) : outcome (Response * Db) :=
  control_command DEFAULT_POLICY true office_uuid office_time (js actor) (js "s1") c d.

(** The manager creates a Forward. *)
Definition office_input : jsv := to_jsv (spec_json (office_spec 8080)).
Definition office_create : ForwardCommand := c_create (Some (js "create-key-000001")) office_input.
Definition created_run : outcome (Response * Db) := office_command "u2" office_create office_db.
Definition created_db : Db := state_after created_run office_db.
Definition no_response : Response := MkResponse 0 JNull.

(** Then it changes the target. *)
Definition office_update : ForwardCommand := c_update (js "r0") (Some (js "update-key-000001")) 1 (to_jsv (spec_json (office_spec 9090))).
Definition updated_run : outcome (Response * Db) := office_command "u2" office_update created_db.

(** The owner removes the manager, or revokes the Node. *)
Definition removed_run : outcome (Response * Db) :=
  @change_member _ (control_access DEFAULT_POLICY true office_uuid office_time) office_time (js "u1") (js "s1") (js "u2") (Some (js "member-key-000001")) 1 removed None created_db.
Definition revoked_run : outcome (Response * Db) :=
  @change_node _ (control_nodes DEFAULT_POLICY true office_uuid office_time) office_time (js "u1") (js "s1") (js "n1") (Some (js "revoke-key-000001")) cmd_revoke created_db.

(** A template is published and archived. *)
Definition office_template : PathTemplateConfig :=
  MkTemplate [tcp; udp] [js "n1"; js "n2"] [MkTemplateEndpoint (js "n2") 2] (Transport (js "p1") 1).
Definition template_run : outcome (Response * Db) :=
  publish_path_template office_time (js "u1") (js "s1") (js "t1") (Some (js "template-key-000001")) 0 (to_jsv (template_json office_template)) office_db.
Definition archive_run : outcome (Response * Db) :=
  archive_path_template office_time (js "u1") (js "s1") (js "t1") (Some (js "archive-key-000001")) 1 (state_after template_run office_db).

Lemma run_returns {A} (o : outcome (A * Db)) (d : Db) : is_returns o = true -> exists a, o = Returns (a, state_after o d).
Proof. destruct o as [[a d']|e]; [by exists a|done]. Qed.

Lemma created_Returns : exists resp, created_run = Returns (resp, created_db).
Proof. apply run_returns. vm_compute. reflexivity. Qed.

Lemma created_ok : control_ok created_db.
Proof.
  destruct created_Returns as [resp E].
  exact (proj1 (control_step_ok DEFAULT_POLICY true office_uuid office_db created_db (st_forward _ _ _ _ _ _ _ _ _ _ E) office_ok)).
Qed.

Lemma control_safe_witness : is_returns created_run = true /\ control_ok created_db /\ control_le office_db created_db.
Proof.
  split; [vm_compute; reflexivity|]. destruct created_Returns as [resp E].
  exact (@control_safe padded_hashing office_profiles office_opens office_relays office_messages office_documents office_locale DEFAULT_POLICY true office_uuid
    office_db created_db office_ok (rtc_once _ _ (st_forward _ _ _ _ _ _ _ _ _ _ E))).
Defined.


(** The identities of the requests. *)
Definition no_request : RequestIdentity := MkRequest [] [] [] [].
Definition identity_of (actor key method path : jsstr) (input : json) : RequestIdentity :=
  returned no_request (requestIdentity actor (js "s1") (Some key) method path input).

Lemma returned_eq {A} (d : A) (o : outcome A) : is_returns o = true -> o = Returns (returned d o).
Proof. by destruct o. Qed.

Definition update_request : RequestIdentity :=
  identity_of (js "u2") (js "update-key-000001") (js "PUT") (forward_path (js "s1") (js "r0"))
    (JObj [(js "expectedRevision", JInt 1); (js "spec", spec_json (office_spec 9090))]).


Definition removal_request : RequestIdentity :=
  identity_of (js "u1") (js "member-key-000001") (js "PUT") (member_path (js "s1") (js "u2"))
    (JObj [(js "expectedRevision", JInt 1); (js "role", JStr (role_text removed)); (js "tokenHash", JNull)]).


Definition revocation_request : RequestIdentity :=
  identity_of (js "u1") (js "revoke-key-000001") (js "POST") (in_scope (js "s1") (js "/nodes/" ++ slash (js "n1") (js "revoke"))) (command_json cmd_revoke).


Lemma templates_immutable_witness : is_returns archive_run = true /\ templates_ok (state_after archive_run (state_after template_run office_db)).
Proof.
  split; [vm_compute; reflexivity|].
  assert (H1 : is_returns template_run = true) by (vm_compute; reflexivity). apply (run_returns _ office_db) in H1 as [r1 E1].
  assert (H2 : is_returns archive_run = true) by (vm_compute; reflexivity). apply (run_returns _ (state_after template_run office_db)) in H2 as [r2 E2].
  exact (proj1 (@templates_immutable padded_hashing office_profiles office_db _ (ck_templates _ _ office_ok)
    (rtc_l _ _ _ _ (ts_publish _ _ _ _ _ _ _ _ _ _ E1) (rtc_once _ _ (ts_archive _ _ _ _ _ _ _ _ _ E2))))).
Defined.
