(* ===== verification/TransitCoordination.v ===== *)
(** The offline Transit coordination journal (apps/control/src/modules/runtime/transit-coordination.ts):
    a durable state machine that walks the Nodes of a staged plan, first to prepare and then
    to activate every hop, or to withdraw them; every step is confirmed by a fenced report. *)

From S2P Require Import Prelude.
From S2P Require Import JsString.
From S2P Require Import Primitives.
From S2P Require Import Json.
From S2P Require Import Forward.
From S2P Require Import Digest.
From S2P Require Import Types.
From S2P Require Import Validate.
From S2P Require Import Schema.
From S2P Require Import Relay.
From S2P Require Import Transit.
From S2P Require Import Topology.
From S2P Require Import Planner.
From S2P Require Import RelayPlan.
From S2P Require Import MultihopPlan.
From S2P Require Import TransitPlan.
From S2P Require Import Store.
From S2P Require Import Slots.
From S2P Require Import Operations.
From S2P Require Import TransitStaging.

Local Open Scope Z_scope.

(** ** Commands and proofs *)

(** [TransitCommandAction] is [PreviewAction]. *)
Record CommandAssignment := MkCommandAssignment {
  ca_assignmentId : jsstr; ca_protocol : NetworkProtocol; ca_sessionEpoch : Z; ca_bindingFence : Z;
  ca_physicalProtocol : NetworkProtocol; ca_port : Z;
}.

Record OfflineTransitCommand := MkOfflineCommand {
  oc_action : PreviewAction; oc_forwardId : jsstr; oc_generation : Z; oc_planDigest : jsstr; oc_nodeId : jsstr;
  oc_revision : Z; oc_assignments : list CommandAssignment; oc_commandDigest : jsstr;
}.

Inductive ObservedCondition := o_prepared | o_ready | o_removed.

#[export] Instance ObservedCondition_eq_dec : EqDecision ObservedCondition.
Proof. solve_decision. Defined.

Record TransitObservation := MkTransitObservation {
  to_assignmentId : jsstr; to_sessionEpoch : Z; to_bindingFence : Z; to_deploymentGeneration : Z; to_condition : ObservedCondition;
}.

Record TransitObservationProof := MkTransitProof {
  tf_commandDigest : jsstr; tf_nodeId : jsstr; tf_action : PreviewAction; tf_reportSequence : Z; tf_receivedAt : Z;
  tf_assignments : list TransitObservation;
}.

Record CoordinationBody := MkCoordinationBody {
  cb_forwardId : jsstr; cb_generation : Z; cb_planDigest : jsstr; cb_phase : TransitCoordinationPhase; cb_position : Z;
  cb_revision : Z; cb_receiptHighwater : list (jsstr * Z);
}.

Definition phase_name (p : TransitCoordinationPhase) : jsstr :=
  match p with
  | preparing => js "preparing" | activating => js "activating" | compensating => js "compensating"
  | sealed => js "sealed" | quarantined => js "quarantined"
  end.

Definition coordination_json (b : CoordinationBody) : json :=
  JObj [(js "forwardId", JStr (cb_forwardId b)); (js "generation", JInt (cb_generation b)); (js "planDigest", JStr (cb_planDigest b));
        (js "phase", JStr (phase_name (cb_phase b))); (js "position", JInt (cb_position b)); (js "revision", JInt (cb_revision b));
        (js "receiptHighwater", JObj (map (fun e => (e.1, JInt e.2)) (cb_receiptHighwater b)))].

Definition command_assignment_json (a : CommandAssignment) : json :=
  JObj [(js "assignmentId", JStr (ca_assignmentId a)); (js "protocol", JStr (protocol_name (ca_protocol a)));
        (js "sessionEpoch", JInt (ca_sessionEpoch a)); (js "bindingFence", JInt (ca_bindingFence a));
        (js "physicalProtocol", JStr (protocol_name (ca_physicalProtocol a))); (js "port", JInt (ca_port a))].

(** Everything but [commandDigest]. *)
Definition command_json (c : OfflineTransitCommand) : json :=
  JObj [(js "kind", JStr (js "offline-transit-command-v1")); (js "action", JStr (preview_action_name (oc_action c)));
        (js "forwardId", JStr (oc_forwardId c)); (js "generation", JInt (oc_generation c)); (js "planDigest", JStr (oc_planDigest c));
        (js "nodeId", JStr (oc_nodeId c)); (js "revision", JInt (oc_revision c));
        (js "assignments", JArr (map command_assignment_json (oc_assignments c)))].

(** [highwater[nodeId]] *)
Definition high_of (highwater : list (jsstr * Z)) (nodeId : jsstr) : option Z :=
  snd <$> find (fun e => str_eqb e.1 nodeId) highwater.

(** [{...highwater, [nodeId]: sequence}] *)
Fixpoint set_high (highwater : list (jsstr * Z)) (nodeId : jsstr) (sequence : Z) : list (jsstr * Z) :=
  match highwater with
  | [] => [(nodeId, sequence)]
  | e :: r => if str_eqb e.1 nodeId then (nodeId, sequence) :: r else e :: set_high r nodeId sequence
  end.

Definition is_terminal (p : TransitCoordinationPhase) : bool :=
  match p with sealed | quarantined => true | _ => false end.

Definition action_of (p : TransitCoordinationPhase) : PreviewAction :=
  match p with preparing => pa_prepare | activating => pa_activate | _ => pa_withdraw end.

Definition condition_of (a : PreviewAction) : ObservedCondition :=
  match a with pa_prepare => o_prepared | pa_activate => o_ready | pa_withdraw => o_removed end.

Definition command_assignment (a : HopBinding) : CommandAssignment :=
  MkCommandAssignment (hb_assignmentId a) (hb_protocol a) (hb_sessionEpoch a) (hb_bindingFence a)
    (prs_physicalProtocol (hb_resource a)) (prs_port (hb_resource a)).

Section Journal.
Context `{Hashing, Locale}.

(** The stored high-water mark is an object of numbers, so that the tests of its type hold. *)
Definition bodyOf (forwardId : jsstr) (generation : Z) (row : CoordinationRow) (plan : TransitPreparation) : outcome CoordinationBody :=
  let body := MkCoordinationBody forwardId generation (cd_plan_digest row) (cd_phase row) (cd_position row) (cd_revision row)
                (cd_receipt_highwater row) in
  let size := Z.of_nat (length (tp_activationOrder plan)) in
  _ ← throw_if (negb (is_counter false (cd_revision row)) || negb (is_safe_integer (cd_position row)) || (cd_position row <? 0) ||
                negb (str_eqb (cd_plan_digest row) (tp_planDigest plan)) || negb (str_eqb forwardId (tp_forwardId plan)) ||
                negb (generation =? tp_deploymentGeneration plan) ||
                existsb (fun e => negb (includes (tp_activationOrder plan) e.1) || negb (is_counter false e.2)) (cd_receipt_highwater row) ||
                (if is_terminal (cd_phase row) then negb (cd_position row =? size) else size <=? cd_position row))
        "INTEGRITY_FAILURE" "Transit coordination journal integrity differs";
  differs ← digest_differs (coordination_json body) (cd_journal_digest row);
  _ ← throw_if differs "INTEGRITY_FAILURE" "Transit coordination journal integrity differs";
  Returns body.

Definition assignment_order (a b : CommandAssignment) : bool := localeCompare (ca_assignmentId a) (ca_assignmentId b) <=? 0.

Definition offlineTransitStep (plan : TransitPreparation) (body : CoordinationBody) : outcome (option OfflineTransitCommand) :=
  if is_terminal (cb_phase body) then Returns None else
  let order := if bool_decide (cb_phase body = compensating) then reverse (tp_activationOrder plan) else tp_activationOrder plan in
  match order !! Z.to_nat (cb_position body) with
  | None => Throws (Exn "INTEGRITY_FAILURE" "Missing Transit coordination step")
  | Some nodeId =>
      let assignments := sort_by assignment_order (map command_assignment
                           (List.filter (fun a => str_eqb (hb_nodeId a) nodeId) (tp_assignments plan))) in
      _ ← throw_if (length assignments =? 0)%nat "INTEGRITY_FAILURE" "Transit Node lacks resource bindings";
      let command := MkOfflineCommand (action_of (cb_phase body)) (tp_forwardId plan) (tp_deploymentGeneration plan) (tp_planDigest plan)
                       nodeId (cb_revision body) assignments in
      d ← digest (command_json (command []));
      Returns (Some (command d))
  end.

(** The body of the loop over the observations; [reported] are the assignments so far. *)
Definition check_observation (command : OfflineTransitCommand) (reported : list jsstr) (o : TransitObservation) : outcome (list jsstr) :=
  match find (fun a => str_eqb (ca_assignmentId a) (to_assignmentId o)) (oc_assignments command) with
  | None => Throws (Exn "FENCING_REJECTED" "Transit observation identity/Fence/condition differs")
  | Some expected =>
      _ ← throw_if (includes reported (to_assignmentId o) || negb (to_sessionEpoch o =? ca_sessionEpoch expected) ||
                    negb (to_bindingFence o =? ca_bindingFence expected) || negb (to_deploymentGeneration o =? oc_generation command) ||
                    negb (bool_decide (to_condition o = condition_of (oc_action command))))
            "FENCING_REJECTED" "Transit observation identity/Fence/condition differs";
      Returns (to_assignmentId o :: reported)
  end.

Definition checkProof (command : OfflineTransitCommand) (proof : TransitObservationProof) (highwater : list (jsstr * Z)) (now : Z) : outcome unit :=
  _ ← throw_if (negb (str_eqb (tf_nodeId proof) (oc_nodeId command)) || negb (bool_decide (tf_action proof = oc_action command)) ||
                negb (str_eqb (tf_commandDigest proof) (oc_commandDigest command)) || negb (is_counter false (tf_reportSequence proof)) ||
                (tf_reportSequence proof <=? default 0 (high_of highwater (tf_nodeId proof))) ||
                negb (is_safe_integer (tf_receivedAt proof)) || (now + 5000 <? tf_receivedAt proof) ||
                (30000 <? now - tf_receivedAt proof) || negb (length (tf_assignments proof) =? length (oc_assignments command))%nat)
        "FENCING_REJECTED" "Transit observation not bound to pending command";
  _ ← fold_each (check_observation command) (tf_assignments proof) [];
  Returns tt.

(** ** The journal *)

Definition staged_plan (actor scopeId forwardId : jsstr) (generation : Z) : tx (TransitStageRow * TransitPreparation) :=
  _ ← require (is_counter false generation) "INVALID_CONFIG" "Transit generation required";
  found ← query (fun d => db_deployments d !! (forwardId, generation));
  match found with
  | None => throw "NOT_FOUND" "Transit staging proposal not found"
  | Some row =>
      _ ← require (str_eqb (tg_scope_id row) scopeId) "NOT_FOUND" "Transit staging proposal not found";
      _ ← require (str_eqb (tg_created_by row) actor) "AUTHORIZATION_DENIED" "Only original Transit actor may coordinate";
      plan ← lift (verifyTransitStage forwardId generation row);
      _ ← require (bool_decide (tg_state row = t_reserved)) "FENCING_REJECTED" "Aborted Transit stage cannot be coordinated";
      mret (row, plan)
  end.

Definition same_session (plan : TransitPreparation) (nodeId : jsstr) : tx unit :=
  runtime ← query (fun d => db_runtime_nodes d !! nodeId);
  require (match runtime with
           | Some r => negb (existsb (fun a => str_eqb (hb_nodeId a) nodeId && negb (hb_sessionEpoch a =? rn_session_epoch r)) (tp_assignments plan))
           | None => false
           end) "SESSION_SUPERSEDED" "Transit Node session changed since staging".

(** The lock order of the bindings. *)
Definition binding_order (a b : HopBinding) : bool :=
  js_or (localeCompare (hb_nodeId a) (hb_nodeId b))
    (js_or (localeCompare (protocol_name (prs_physicalProtocol (hb_resource a))) (protocol_name (prs_physicalProtocol (hb_resource b))))
           (prs_port (hb_resource a) - prs_port (hb_resource b))) <=? 0.

(** [!slot || slot.owner_id!==... || ...] rejects. *)
Definition still_held (message : string) (forwardId : jsstr) (generation : Z) (a : HopBinding) : tx unit :=
  row ← query (fun d => db_port_slots d !! binding_slot a);
  require (match row with Some r => held_slot forwardId generation a r | None => false end) "FENCING_REJECTED" message.

Definition ownership (plan : TransitPreparation) : tx unit :=
  _ ← for_each (same_session plan) (sort_by str_leb (new_Set (map hb_nodeId (tp_assignments plan))));
  for_each (still_held "Transit physical port owner/Fence no longer matches staging" (tp_forwardId plan) (tp_deploymentGeneration plan))
    (sort_by binding_order (tp_assignments plan)).

Definition locked (forwardId : jsstr) (generation : Z) (plan : TransitPreparation) : tx (CoordinationRow * CoordinationBody) :=
  found ← query (fun d => db_coordination d !! (forwardId, generation));
  match found with
  | None => throw "NOT_FOUND" "Transit coordination not started"
  | Some row => body ← lift (bodyOf forwardId generation row plan); mret (row, body)
  end.

Definition with_progress (body : CoordinationBody) (phase : TransitCoordinationPhase) (position : Z) (highwater : list (jsstr * Z)) : CoordinationBody :=
  MkCoordinationBody (cb_forwardId body) (cb_generation body) (cb_planDigest body) phase position (cb_revision body + 1) highwater.

Definition row_of (next : CoordinationBody) (journalDigest : jsstr) (now : Z) (r : CoordinationRow) : CoordinationRow :=
  MkCoordinationRow (cd_plan_digest r) (cb_phase next) (cb_position next) (cb_revision next) (cb_receiptHighwater next) journalDigest
    (cd_created_at r) now.

(** [UPDATE ... WHERE forward_id=? AND generation=? AND revision=? AND journal_digest=?] must match one row. *)
Definition persist (now : Z) (forwardId : jsstr) (generation : Z) (row : CoordinationRow) (body : CoordinationBody)
    (phase : TransitCoordinationPhase) (position : Z) (highwater : list (jsstr * Z)) : tx CoordinationBody :=
  _ ← require (negb (MAX_COUNTER <=? cb_revision body)) "RESOURCE_LIMIT" "Transit journal revision exhausted";
  let next := with_progress body phase position highwater in
  d ← lift (digest (coordination_json next));
  matched ← query (fun db => match db_coordination db !! (forwardId, generation) with
                             | Some r => (cd_revision r =? cb_revision body) && str_eqb (cd_journal_digest r) (cd_journal_digest row)
                             | None => false end);
  _ ← require matched "FENCING_REJECTED" "Concurrent Transit coordination writer";
  _ ← modify (with_coordination (alter (row_of next d now) (forwardId, generation)));
  mret next.

Definition fresh_stage (now : Z) (row : TransitStageRow) (plan : TransitPreparation) : tx unit :=
  require (negb ((tg_expires_at row <=? now + 5000) || (tp_authorizationUntil plan <=? now + 5000)))
    "LEASE_EXPIRED" "Transit stage must have a current authorization window".

Definition begin_coordination (now : Z) (actor scopeId forwardId : jsstr) (generation : Z) : tx (option OfflineTransitCommand) :=
  '(row, plan) ← staged_plan actor scopeId forwardId generation;
  _ ← fresh_stage now row plan;
  _ ← ownership plan;
  previous ← query (fun d => db_coordination d !! (forwardId, generation));
  _ ← require (negb (bool_decide (is_Some previous))) "RESOURCE_CONFLICT" "Transit coordination already started";
  let body := MkCoordinationBody forwardId generation (tp_planDigest plan) preparing 0 1 [] in
  d ← lift (digest (coordination_json body));
  _ ← insert_row db_coordination with_coordination (forwardId, generation)
        (MkCoordinationRow (tp_planDigest plan) preparing 0 1 [] d now now);
  lift (offlineTransitStep plan body).

(** [if (body.phase==='preparing'||body.phase==='activating')] *)
Definition current_authority (now : Z) (row : TransitStageRow) (plan : TransitPreparation) (phase : TransitCoordinationPhase) : tx unit :=
  match phase with
  | preparing | activating => fresh_stage now row plan ≫= fun _ => ownership plan
  | _ => mret tt
  end.

Definition peek (now : Z) (actor scopeId forwardId : jsstr) (generation : Z) : tx (option OfflineTransitCommand) :=
  '(row, plan) ← staged_plan actor scopeId forwardId generation;
  '(_, body) ← locked forwardId generation plan;
  _ ← current_authority now row plan (cb_phase body);
  lift (offlineTransitStep plan body).

Definition next_phase (done : bool) (p : TransitCoordinationPhase) : TransitCoordinationPhase :=
  if done then match p with preparing => activating | activating => sealed | _ => quarantined end else p.

Definition confirm (verify : TransitObservationProof -> bool) (now : Z) (actor scopeId forwardId : jsstr) (generation : Z)
    (proof : TransitObservationProof) : tx (option OfflineTransitCommand) :=
  '(row, plan) ← staged_plan actor scopeId forwardId generation;
  '(current, body) ← locked forwardId generation plan;
  _ ← current_authority now row plan (cb_phase body);
  command ← lift (offlineTransitStep plan body);
  match command with
  | None => throw "FENCING_REJECTED" "Terminal Transit journal cannot accept observations"
  | Some command =>
      _ ← lift (checkProof command proof (cb_receiptHighwater body) now);
      _ ← require (verify proof) "AUTHORIZATION_DENIED" "Transit report proof not authenticated";
      let highwater := set_high (cb_receiptHighwater body) (tf_nodeId proof) (tf_reportSequence proof) in
      let size := Z.of_nat (length (tp_activationOrder plan)) in
      let done := cb_position body + 1 =? size in
      let phase := next_phase done (cb_phase body) in
      let position := if done then if is_terminal phase then size else 0 else cb_position body + 1 in
      next ← persist now forwardId generation current body phase position highwater;
      lift (offlineTransitStep plan next)
  end.

Definition fail_coordination (now : Z) (actor scopeId forwardId : jsstr) (generation : Z) : tx (option OfflineTransitCommand) :=
  '(_, plan) ← staged_plan actor scopeId forwardId generation;
  '(row, body) ← locked forwardId generation plan;
  match cb_phase body with
  | quarantined => mret None
  | compensating => lift (offlineTransitStep plan body)
  | _ => next ← persist now forwardId generation row body compensating 0 (cb_receiptHighwater body);
         lift (offlineTransitStep plan next)
  end.

Definition interrupted (p : TransitCoordinationPhase) : bool :=
  match p with preparing | activating | sealed => true | _ => false end.

(** The body of the recovery loop. *)
Definition recover_one (now : Z) (kr : (jsstr * Z) * CoordinationRow) : tx unit :=
  found ← query (fun d => db_deployments d !! kr.1);
  match found with
  | None => throw "INTEGRITY_FAILURE" "Transit coordination stage disappeared"
  | Some stage =>
      plan ← lift (verifyTransitStage kr.1.1 kr.1.2 stage);
      current ← lift (bodyOf kr.1.1 kr.1.2 kr.2 plan);
      _ ← persist now kr.1.1 kr.1.2 kr.2 current compensating 0 (cb_receiptHighwater current);
      mret tt
  end.

Definition quarantineCoordination (now : Z) : tx nat :=
  pending ← select db_coordination (fun _ r => interrupted (cd_phase r));
  let pending := sort_by (fun a b : (jsstr * Z) * CoordinationRow =>
    if str_eqb a.1.1 b.1.1 then a.1.2 <=? b.1.2 else str_leb a.1.1 b.1.1) pending in
  _ ← for_each (recover_one now) pending;
  mret (length pending).
End Journal.

(** ** The abstract machine

    A coordination of [size] Nodes is a phase and a position.  A confirmed report moves it
    to the next Node, or from the last Node to the next phase; a failure or a recovery
    sends it to withdrawal. *)

Abbreviation progress := (TransitCoordinationPhase * Z)%type.

Inductive coord_move (size : Z) : progress -> progress -> Prop :=
  | cm_next p i : is_terminal p = false -> i + 1 < size -> coord_move size (p, i) (p, i + 1)
  | cm_activate i : i + 1 = size -> coord_move size (preparing, i) (activating, 0)
  | cm_seal i : i + 1 = size -> coord_move size (activating, i) (sealed, size)
  | cm_quarantine i : i + 1 = size -> coord_move size (compensating, i) (quarantined, size)
  | cm_fail p i : interrupted p = true -> coord_move size (p, i) (compensating, 0).

Definition withdrawing (p : TransitCoordinationPhase) : bool :=
  match p with compensating | quarantined => true | _ => false end.

(** Withdrawal is for good. *)
Lemma move_withdrawing size n a b : nsteps (coord_move size) n a b -> withdrawing a.1 = true -> withdrawing b.1 = true.
Proof.
  induction 1 as [|n a c b Hm _ IH]; [done|]. intros Ha. apply IH. destruct Hm as [p i| | | |p i Hp]; cbn in *; try done.
Qed.

(** How far a coordination that is not withdrawn has come. *)
Definition rank (size : Z) (a : progress) : Z :=
  match a.1 with preparing => a.2 | activating => size + a.2 | sealed => 2 * size | _ => 0 end.

(** Sealing takes a confirmation per Node and phase. *)
Lemma move_sealed size n a i : nsteps (coord_move size) n a (sealed, i) -> 2 * size <= rank size a + Z.of_nat n.
Proof.
  intros Hn. remember (sealed, i) as b eqn:Eb. induction Hn as [a|n a c b Hm Hrest IH]; subst; [cbn; lia|].
  specialize (IH eq_refl). destruct (withdrawing c.1) eqn:Ew; [by apply (move_withdrawing _ _ _ _ Hrest) in Ew|].
  destruct Hm as [p j Hp Hj|j Hj|j Hj|j Hj|p j Hp]; cbn in *; try done; [|lia..].
  unfold rank in *. cbn in *. destruct p; cbn in *; try done; lia.
Qed.

(** ** The journal follows the machine *)

Definition size_of (row : TransitStageRow) : Z := Z.of_nat (length (tp_activationOrder (tg_body row))).

Definition at_ (r : CoordinationRow) : progress := (cd_phase r, cd_position r).

(** From [r] to [r'] in as many moves as revisions, without lowering a high-water mark. *)
Definition advances (size : Z) (r r' : CoordinationRow) : Prop :=
  exists n, nsteps (coord_move size) n (at_ r) (at_ r') /\ cd_revision r' = cd_revision r + Z.of_nat n /\
    cd_plan_digest r' = cd_plan_digest r /\
    forall k, default 0 (high_of (cd_receipt_highwater r) k) <= default 0 (high_of (cd_receipt_highwater r') k).

#[export] Instance advances_preorder size : PreOrder (advances size).
Proof.
  split.
  - intros r. exists 0%nat. split_and!; [constructor|lia|done|done].
  - intros r r' r'' (n & Hn & E & Hd & Hh) (m & Hm & E' & Hd' & Hh'). exists (n + m)%nat. split_and!; [by eapply nsteps_trans|lia|congruence|].
    intros k. etransitivity; [apply Hh|apply Hh'].
Qed.

(** Stages keep their plan, and every coordination of a stage advances. *)
Definition coord_le (d d' : Db) : Prop :=
  forall k row, db_deployments d !! k = Some row ->
    (exists row', db_deployments d' !! k = Some row' /\ tg_body row' = tg_body row) /\
    forall r, db_coordination d !! k = Some r -> exists r', db_coordination d' !! k = Some r' /\ advances (size_of row) r r'.

#[export] Instance coord_le_preorder : PreOrder coord_le.
Proof.
  split.
  - intros d k row Hk. split; [by eauto|]. intros r Hr. exists r. split; [done|reflexivity].
  - intros d d' d'' H1 H2 k row Hk. destruct (H1 k row Hk) as [(row' & Hk' & Eb) Hr1]. destruct (H2 k row' Hk') as [(row'' & Hk'' & Eb') Hr2].
    split; [exists row''; split; [done|congruence]|]. intros r Hr. destruct (Hr1 r Hr) as (r' & Hr' & Ha).
    destruct (Hr2 r' Hr') as (r'' & Hr'' & Ha'). exists r''. split; [done|]. etransitivity; [exact Ha|].
    unfold size_of in *. by rewrite Eb in Ha'.
Qed.

Lemma str_eqb_refl (a : jsstr) : str_eqb a a = true.
Proof. by apply bool_decide_eq_true. Qed.

Lemma str_eqb_ne (a b : jsstr) : b <> a -> str_eqb a b = false.
Proof. intros. by apply bool_decide_eq_false. Qed.

Lemma high_set h n s k : high_of (set_high h n s) k = if decide (k = n) then Some s else high_of h k.
Proof.
  unfold high_of. induction h as [|[m v] h IH]; cbn [set_high find fst].
  - destruct (decide (k = n)) as [->|Hk]; [by rewrite str_eqb_refl|]. by rewrite str_eqb_ne by done.
  - destruct (str_eqb m n) eqn:Em; cbn [find fst].
    + apply bool_decide_eq_true in Em as ->. destruct (decide (k = n)) as [->|Hk]; [by rewrite str_eqb_refl|]. by rewrite !str_eqb_ne by done.
    + destruct (str_eqb m k) eqn:Ek; [|exact IH]. apply bool_decide_eq_true in Ek as ->. apply bool_decide_eq_false in Em. by rewrite decide_False.
Qed.

Section JournalSpec.
Context `{Hashing, Locale}.

Lemma reads_still_held m i g a : evolves eq (still_held m i g a).
Proof using. unfold still_held. evolve. Qed.

Lemma reads_same_session plan n : evolves eq (same_session plan n).
Proof using. unfold same_session. evolve. Qed.
Hint Resolve reads_still_held reads_same_session : evolves.

Lemma reads_ownership plan : evolves eq (ownership plan).
Proof using. unfold ownership. evolve. Qed.
Hint Resolve reads_ownership : evolves.

Lemma reads_current_authority now row plan p : evolves eq (current_authority now row plan p).
Proof using. unfold current_authority, fresh_stage. evolve. Qed.

Lemma staged_plan_Returns actor scopeId i g d row plan d' : staged_plan actor scopeId i g d = Returns (row, plan, d') ->
  d' = d /\ db_deployments d !! (i, g) = Some row /\ tg_body row = plan /\ verifyTransitStage i g row = Returns plan.
Proof using.
  unfold staged_plan. intros Hr. apply tx_bind_Returns in Hr as ([] & d0 & [_ ->]%require_Returns & Hr).
  apply tx_bind_Returns in Hr as (found & d0 & [-> ->]%query_Returns & Hr).
  destruct (db_deployments d !! (i, g)) as [row0|]; [|discriminate Hr]. tx_inv. injection Hret as -> ->.
  split_and!; try done. by eapply verified_body.
Qed.

Lemma bodyOf_Returns i g r plan body : bodyOf i g r plan = Returns body ->
  body = MkCoordinationBody i g (cd_plan_digest r) (cd_phase r) (cd_position r) (cd_revision r) (cd_receipt_highwater r) /\
  1 <= cd_revision r <= MAX_COUNTER /\ 0 <= cd_position r /\
  (if is_terminal (cd_phase r) then cd_position r = Z.of_nat (length (tp_activationOrder plan))
   else cd_position r < Z.of_nat (length (tp_activationOrder plan))) /\
  digests_to (coordination_json body) (cd_journal_digest r).
Proof using.
  unfold bodyOf. rewrite guard_seq. intros [Hg Hr]. apply bind_Returns in Hr as (b & Hd & Hr). rewrite guard_seq in Hr.
  destruct Hr as [-> [= <-]]. autorewrite with guards in Hg. destruct Hg as (((((((Hc%is_counter_bounds & _) & Hp) & _) & _) & _) & _) & Hpos).
  split_and!; try done; try lia.
  - destruct (is_terminal _); autorewrite with guards in Hpos; lia.
  - unfold digest_differs in Hd. apply bind_Returns in Hd as (x & Hx & [= Ex]). apply negb_false_iff, bool_decide_eq_true in Ex. by subst.
Qed.

Lemma locked_Returns i g plan d r body d' : locked i g plan d = Returns (r, body, d') ->
  d' = d /\ db_coordination d !! (i, g) = Some r /\ bodyOf i g r plan = Returns body.
Proof using.
  unfold locked. intros Hr. apply tx_bind_Returns in Hr as (found & d0 & [-> ->]%query_Returns & Hr).
  destruct (db_coordination d !! (i, g)) as [r0|]; [|discriminate Hr]. tx_inv. by injection Hret as -> ->.
Qed.

Lemma persist_Returns now i g r body p n h d next d' : persist now i g r body p n h d = Returns (next, d') ->
  next = with_progress body p n h /\ cb_revision body < MAX_COUNTER /\
  exists j, digests_to (coordination_json next) j /\ d' = with_coordination (alter (row_of next j now) (i, g)) d.
Proof using.
  unfold persist. intros Hr. tx_inv. apply negb_true_iff, Z.leb_gt in Hrun. split_and!; [done|done|]. eexists. split; [exact Hrun0|done].
Qed.

(** A persisted move of a verified row. *)
Lemma persist_le now i g r body row plan p n h d next d' : db_deployments d !! (i, g) = Some row -> tg_body row = plan ->
  db_coordination d !! (i, g) = Some r -> bodyOf i g r plan = Returns body ->
  coord_move (size_of row) (at_ r) (p, n) ->
  (forall k, default 0 (high_of (cd_receipt_highwater r) k) <= default 0 (high_of h k)) ->
  persist now i g r body p n h d = Returns (next, d') ->
  coord_le d d' /\ db_deployments d' = db_deployments d /\ (forall k, k <> (i, g) -> db_coordination d' !! k = db_coordination d !! k).
Proof using.
  intros Hrow Hplan Hr Hbody Hm Hh (-> & _ & j & _ & ->)%persist_Returns. apply bodyOf_Returns in Hbody as (-> & _).
  split_and!; [|done|by intros k Hk; apply lookup_alter_ne].
  intros k row' Hk. split; [by exists row'|]. intros r' Hr'. change (db_coordination (with_coordination ?f d)) with (f (db_coordination d)).
  destruct (decide (k = (i, g))) as [->|Hne]; [|exists r'; rewrite lookup_alter_ne by done; split; [done|reflexivity]].
  rewrite lookup_alter_eq, Hr. rewrite Hr in Hr'. injection Hr' as <-. rewrite Hrow in Hk. injection Hk as <-.
  eexists. split; [reflexivity|]. exists 1%nat. cbn. split_and!; [by apply nsteps_once|lia|done|done].
Qed.

Lemma confirm_le verify now actor scopeId i g proof : evolves coord_le (confirm verify now actor scopeId i g proof).
Proof using.
  intros d c d' Hr. unfold confirm in Hr.
  apply tx_bind_Returns in Hr as ([row plan] & d0 & (-> & Hrow & Hplan & _)%staged_plan_Returns & Hr).
  apply tx_bind_Returns in Hr as ([r body] & d0 & (-> & Hl & Hb)%locked_Returns & Hr).
  apply tx_bind_Returns in Hr as ([] & d0 & <-%reads_current_authority & Hr).
  apply tx_bind_Returns in Hr as (cmd & d0 & [Hc ->]%lift_Returns & Hr). destruct cmd as [cmd|]; [|discriminate Hr].
  apply tx_bind_Returns in Hr as ([] & d0 & [Hp ->]%lift_Returns & Hr).
  apply tx_bind_Returns in Hr as ([] & d0 & [_ ->]%require_Returns & Hr). cbn zeta in Hr.
  apply tx_bind_Returns in Hr as (next & d1 & Hpers & [_ ->]%lift_Returns).
  pose proof (bodyOf_Returns _ _ _ _ _ Hb) as (Eb & _ & Hnn & Hpos & _).
  assert (Hterm : is_terminal (cd_phase r) = false).
  { destruct (is_terminal (cd_phase r)) eqn:E; [|done]. unfold offlineTransitStep in Hc. subst body. cbn in Hc. by rewrite E in Hc. }
  rewrite Hterm in Hpos. eapply persist_le; [exact Hrow|exact Hplan|exact Hl|exact Hb| | |exact Hpers].
  - unfold at_, size_of. rewrite Hplan, Eb. cbn [cb_phase cb_position]. destruct (Z.eqb_spec (cd_position r + 1) (Z.of_nat (length (tp_activationOrder plan)))) as [E|E].
    + destruct (cd_phase r); cbn in *; try done; by constructor.
    + constructor; [done|lia].
  - intros k. rewrite high_set. unfold checkProof in Hp. rewrite guard_seq in Hp. destruct Hp as [Hg _]. autorewrite with guards in Hg.
    destruct (decide (k = tf_nodeId proof)) as [->|]; [|by subst body]. subst body. destruct_and! Hg.
    match goal with Hlt : default 0 _ < _ |- _ => by apply Z.lt_le_incl end.
Qed.

Lemma fail_le now actor scopeId i g : evolves coord_le (fail_coordination now actor scopeId i g).
Proof using.
  intros d c d' Hr. unfold fail_coordination in Hr.
  apply tx_bind_Returns in Hr as ([row plan] & d0 & (-> & Hrow & Hplan & _)%staged_plan_Returns & Hr).
  apply tx_bind_Returns in Hr as ([r body] & d0 & (-> & Hl & Hb)%locked_Returns & Hr).
  pose proof (bodyOf_Returns _ _ _ _ _ Hb) as (Eb & _).
  assert (Hgo : interrupted (cd_phase r) = true -> forall next d1,
    persist now i g r body compensating 0 (cb_receiptHighwater body) d = Returns (next, d1) -> coord_le d d1).
  { intros Hi next d1 Hp. eapply persist_le; [exact Hrow|exact Hplan|exact Hl|exact Hb| | |exact Hp]; [by constructor|by subst body]. }
  subst body. cbn [cb_phase] in Hr. destruct (cd_phase r); tx_inv; try (by eapply Hgo); reflexivity.
Qed.

Lemma begin_le now actor scopeId i g : evolves coord_le (begin_coordination now actor scopeId i g).
Proof using.
  intros d c d' Hr. unfold begin_coordination in Hr.
  apply tx_bind_Returns in Hr as ([row plan] & d0 & (-> & _)%staged_plan_Returns & Hr).
  apply tx_bind_Returns in Hr as ([] & d0 & [_ ->]%require_Returns & Hr).
  apply tx_bind_Returns in Hr as ([] & d0 & <-%reads_ownership & Hr).
  apply tx_bind_Returns in Hr as (prev & d0 & [-> ->]%query_Returns & Hr).
  apply tx_bind_Returns in Hr as ([] & d0 & [_ ->]%require_Returns & Hr). cbn zeta in Hr.
  apply tx_bind_Returns in Hr as (j & d0 & [_ ->]%lift_Returns & Hr).
  apply tx_bind_Returns in Hr as ([] & d0 & [Hn ->]%insert_row_Returns & [_ ->]%lift_Returns).
  intros k row' Hk. split; [by exists row'|]. intros r Hr. exists r. split; [|reflexivity].
  change (insert (i, g) (MkCoordinationRow (tp_planDigest plan) preparing 0 1 [] j now now) (db_coordination d) !! k = Some r).
  rewrite lookup_insert_ne; [done|]. intros <-. congruence.
Qed.

Lemma begin_Returns now actor scopeId i g d c d' : begin_coordination now actor scopeId i g d = Returns (c, d') ->
  exists r, db_coordination d' !! (i, g) = Some r /\ at_ r = (preparing, 0) /\ cd_revision r = 1 /\ db_deployments d' = db_deployments d.
Proof using.
  intros Hr. unfold begin_coordination in Hr.
  apply tx_bind_Returns in Hr as ([row plan] & d0 & (-> & _)%staged_plan_Returns & Hr).
  apply tx_bind_Returns in Hr as ([] & d0 & [_ ->]%require_Returns & Hr).
  apply tx_bind_Returns in Hr as ([] & d0 & <-%reads_ownership & Hr). tx_inv.
  apply insert_row_Returns in Hrun2 as [_ ->]. eexists. split; [apply lookup_insert_eq|done].
Qed.

Lemma recover_loop now l d u d' : NoDup (map fst l) ->
  (forall k r, (k, r) ∈ l -> db_coordination d !! k = Some r /\ interrupted (cd_phase r) = true) ->
  for_each (recover_one now) l d = Returns (u, d') -> coord_le d d'.
Proof using.
  revert d. induction l as [|[[i g] r] l IH]; intros d HN Hl Hr; cbn [for_each] in Hr; [tx_inv; reflexivity|].
  apply NoDup_cons in HN as [Hk HN]. destruct (Hl (i, g) r ltac:(left)) as [Hc Hi].
  apply tx_bind_Returns in Hr as ([] & d1 & H1 & Hr). unfold recover_one in H1. cbn [fst snd] in H1.
  apply tx_bind_Returns in H1 as (found & d0 & [-> ->]%query_Returns & H1).
  destruct (db_deployments d !! (i, g)) as [row|] eqn:Erow; [|discriminate H1].
  apply tx_bind_Returns in H1 as (plan & d0 & [Hv%verified_body ->]%lift_Returns & H1).
  apply tx_bind_Returns in H1 as (body & d0 & [Hb ->]%lift_Returns & H1).
  apply tx_bind_Returns in H1 as (next & d0 & Hp & [_ ->]%mret_Returns).
  eapply persist_le in Hp as (Hle & _ & Hother); [|exact Erow|exact Hv|exact Hc|exact Hb|by constructor|by apply bodyOf_Returns in Hb as (-> & _)].
  etransitivity; [exact Hle|]. eapply IH; [exact HN| |exact Hr].
  intros k r' Hin. rewrite Hother; [by apply Hl; right|]. intros ->. apply Hk. by apply (list_elem_of_fmap_2 fst) in Hin.
Qed.

Lemma quarantine_le now : evolves coord_le (quarantineCoordination now).
Proof using.
  intros d c d' Hr. unfold quarantineCoordination in Hr. apply tx_bind_Returns in Hr as (l & d0 & Hsel & Hr).
  pose proof Hsel as [-> Hin]%select_Returns. unfold select in Hsel. apply query_Returns in Hsel as [El _]. cbn zeta in Hr.
  apply tx_bind_Returns in Hr as (u & d1 & Hloop & [_ ->]%mret_Returns). eapply recover_loop; [| |exact Hloop].
  - rewrite sort_by_perm, El. eapply sublist_NoDup; [apply (NoDup_fst_map_to_list (db_coordination d))|].
    clear. induction (map_to_list (db_coordination d)) as [|x l IH]; cbn; [constructor|].
    destruct (interrupted _); cbn; by constructor.
  - intros k r. rewrite sort_by_perm. intros [Hk Hi]%Hin. done.
Qed.

(** ** Everything that happens to coordinations *)

Inductive coordination_step : Db -> Db -> Prop :=
  | cs_begin now a s i g d c d' : begin_coordination now a s i g d = Returns (c, d') -> coordination_step d d'
  | cs_confirm verify now a s i g p d c d' : confirm verify now a s i g p d = Returns (c, d') -> coordination_step d d'
  | cs_fail now a s i g d c d' : fail_coordination now a s i g d = Returns (c, d') -> coordination_step d d'
  | cs_recover now d n d' : quarantineCoordination now d = Returns (n, d') -> coordination_step d d'
  | cs_abort now a s i g d b d' : abort now a s i g d = Returns (b, d') -> coordination_step d d'
  | cs_stage d d' k row : db_deployments d !! k = None -> db_deployments d' = <[k := row]> (db_deployments d) ->
      db_coordination d' = db_coordination d -> coordination_step d d'
  | cs_other d d' : db_deployments d' = db_deployments d -> db_coordination d' = db_coordination d -> coordination_step d d'.

Lemma coord_le_deployments f : (forall d, db_coordination (f d) = db_coordination d) ->
  (forall d k row, db_deployments d !! k = Some row -> exists row', db_deployments (f d) !! k = Some row' /\ tg_body row' = tg_body row) ->
  evolves coord_le (modify f).
Proof using.
  intros Hc Hd. apply evolves_modify. intros d k row Hk. split; [by apply Hd|]. intros r Hr. exists r. rewrite Hc. by split; [|reflexivity].
Qed.

Lemma coord_le_same f : (forall d, db_coordination (f d) = db_coordination d) -> (forall d, db_deployments (f d) = db_deployments d) ->
  evolves coord_le (modify f).
Proof using. intros Hc Hd. apply coord_le_deployments; [done|]. intros d k row Hk. rewrite Hd. eauto. Qed.

Lemma abort_le now a s i g : evolves coord_le (abort now a s i g).
Proof using.
  unfold abort, lock_runtime_node, no_live_snapshot, check_held, release_binding, check_held. evolve.
  - by apply coord_le_same.
  - apply coord_le_deployments; [done|]. intros d k row Hk. change (db_deployments (with_deployments ?f d)) with (f (db_deployments d)).
    destruct (decide (k = (i, g))) as [->|]; [rewrite lookup_alter_eq, Hk|rewrite lookup_alter_ne, Hk by done]; cbn; eauto.
Qed.

Lemma coordination_step_le d d' : coordination_step d d' -> coord_le d d'.
Proof using.
  destruct 1 as [? ? ? ? ? ? ? ? Hr|? ? ? ? ? ? ? ? ? ? Hr|? ? ? ? ? ? ? ? Hr|? ? ? ? Hr|? ? ? ? ? ? ? ? Hr|d d' k row Hn Hd Hc|d d' Hd Hc].
  - by apply begin_le in Hr.
  - by apply confirm_le in Hr.
  - by apply fail_le in Hr.
  - by apply quarantine_le in Hr.
  - by apply abort_le in Hr.
  - intros k' row' Hk. split; [|by intros r Hr; exists r; rewrite Hc; split; [|reflexivity]].
    exists row'. rewrite Hd, lookup_insert_ne; [done|]. intros ->. congruence.
  - intros k row Hk. split; [by exists row; rewrite Hd|]. intros r Hr. exists r. rewrite Hc. by split; [|reflexivity].
Qed.

Lemma run_coord_le d d' : rtc coordination_step d d' -> coord_le d d'.
Proof using. induction 1 as [d|d d1 d2 Hs _ IH]; [reflexivity|]. etransitivity; [by eapply coordination_step_le|done]. Qed.

End JournalSpec.

(** ** The journal can always be driven to its end *)

Definition honest_observation (c : OfflineTransitCommand) (a : CommandAssignment) : TransitObservation :=
  MkTransitObservation (ca_assignmentId a) (ca_sessionEpoch a) (ca_bindingFence a) (oc_generation c) (condition_of (oc_action c)).

(** The report of a Node that did exactly what the command says. *)
Definition honest_report (now sequence : Z) (c : OfflineTransitCommand) : TransitObservationProof :=
  MkTransitProof (oc_commandDigest c) (oc_nodeId c) (oc_action c) sequence now
    (map (honest_observation c) (oc_assignments c)).

Lemma find_unique {A} (f : A -> jsstr) (l : list A) x : NoDup (map f l) -> x ∈ l ->
  find (fun a => str_eqb (f a) (f x)) l = Some x.
Proof.
  induction l as [|y l IH]; intros HN Hx; [by apply elem_of_nil in Hx|]. apply NoDup_cons in HN as [Hy HN]. cbn [find].
  apply elem_of_cons in Hx as [->|Hx]; [by rewrite str_eqb_refl|]. rewrite str_eqb_ne; [by apply IH|].
  intros E. apply Hy. rewrite <- E. by apply list_elem_of_fmap_2.
Qed.

Section Drive.
Context `{Hashing, Locale}.

Lemma honest_observed c a reported : NoDup (map ca_assignmentId (oc_assignments c)) -> a ∈ oc_assignments c -> ca_assignmentId a ∉ reported ->
  check_observation c reported (honest_observation c a) = Returns (ca_assignmentId a :: reported).
Proof using.
  intros HN Ha Hr. unfold check_observation. cbn [honest_observation to_assignmentId]. rewrite (find_unique ca_assignmentId) by done.
  cbn [honest_observation to_assignmentId to_sessionEpoch to_bindingFence to_deploymentGeneration to_condition].
  by rewrite (proj2 (includes_false _ _)), !Z.eqb_refl, bool_decide_true by done.
Qed.

Lemma honest_accepted c now seq high : NoDup (map ca_assignmentId (oc_assignments c)) -> is_safe_integer now = true ->
  is_counter false seq = true -> default 0 (high_of high (oc_nodeId c)) < seq -> checkProof c (honest_report now seq c) high now = Returns tt.
Proof using.
  intros HN Hnow Hseq Hhigh. unfold checkProof. apply guard_seq. split.
  - cbn [honest_report tf_nodeId tf_action tf_commandDigest tf_reportSequence tf_receivedAt tf_assignments].
    rewrite !str_eqb_refl, bool_decide_true, Hseq, Hnow, length_map, Nat.eqb_refl by done. cbn [negb orb].
    rewrite (proj2 (Z.leb_gt seq _)), (proj2 (Z.ltb_ge (now + 5000) now)), (proj2 (Z.ltb_ge 30000 (now - now))) by lia. done.
  - assert (Hloop : forall l reported, (forall a, a ∈ l -> a ∈ oc_assignments c /\ ca_assignmentId a ∉ reported) -> NoDup (map ca_assignmentId l) ->
      exists out, fold_each (check_observation c) (map (honest_observation c) l) reported = Returns out).
    { induction l as [|a l IH]; intros reported Hall HNl; cbn [map fold_each]; [by eexists|]. apply NoDup_cons in HNl as [Ha HNl].
      destruct (Hall a ltac:(left)) as [Hin Hout]. 
      rewrite honest_observed by done. cbn [mbind outcome_bind]. apply IH; [|done].
      intros b Hb. split; [by apply Hall; right|]. intros [E|E]%elem_of_cons; [|by apply Hall in E; [|right]].
      apply Ha. rewrite <- E. by apply list_elem_of_fmap_2. }
    destruct (Hloop (oc_assignments c) []) as [out Hout]; [|done|].
    + intros a Ha. split; [done|apply not_elem_of_nil].
    + cbn [honest_report tf_assignments]. rewrite Hout. done.
Qed.

(** What verification of the stage says of the walk. *)
Lemma verified_walk i g row plan : verifyTransitStage i g row = Returns plan ->
  tp_forwardId plan = i /\ tp_deploymentGeneration plan = g /\ (3 <= length (tp_activationOrder plan) <= 8)%nat /\
  forall n, n ∈ tp_activationOrder plan -> exists a, a ∈ tp_assignments plan /\ hb_nodeId a = n.
Proof using.
  unfold verifyTransitStage. rewrite !guard_seq. intros (_ & _ & Hr). apply bind_Returns in Hr as (b & _ & Hr). rewrite !guard_seq in Hr.
  destruct Hr as (Hg & Ht & [= <-]). autorewrite with guards in Hg, Ht. unfold str_eqb in *. destruct_and! Hg; destruct_and! Ht. propify.
  split_and!; try done; [lia..|]. intros n Hn.
  match goal with Hx : existsb _ (tp_activationOrder _) = false |- _ => rename Hx into Hex end.
  assert (Hin : n ∈ new_Set (map hb_nodeId (tp_assignments (tg_body row)))).
  { destruct (includes (new_Set (map hb_nodeId (tp_assignments (tg_body row)))) n) eqn:E; [by apply includes_true|].
    exfalso. rewrite <- not_true_iff_false in Hex. apply Hex.
    apply existsb_exists. exists n. split; [by apply list_elem_of_In|]. by rewrite E. }
  apply new_Set_elem, list_elem_of_fmap in Hin as (a & -> & Ha). eauto.
Qed.

(** Every document has a canonical text (RFC 8785). *)
Context (Hcanon : forall v, is_Some (canonicalize v)).

Lemma digest_Returns v : (exists x, digest v = Returns x) <-> assertJson v = Returns tt.
Proof using Hcanon.
  unfold digest. split.
  - intros [x (u & -> & _)%bind_Returns]. by destruct u.
  - intros ->. destruct (Hcanon v) as [t ->]. by eexists.
Qed.

(** The texts of a plan that the journal digests. *)
Record plan_text (plan : TransitPreparation) : Prop := {
  pl_forward : utf16_ok (tp_forwardId plan) = true;
  pl_digest : utf16_ok (tp_planDigest plan) = true;
  pl_order : Forall (fun n => utf16_ok n = true) (tp_activationOrder plan);
  pl_assignments : Forall (fun a => utf16_ok (hb_assignmentId a) = true) (tp_assignments plan);
}.

Lemma text_field (b : bool) : throw_if (negb b) "INVALID_CONFIG" "Invalid Unicode" = Returns tt <-> b = true.
Proof using. destruct b; cbn; split; done. Qed.

Lemma command_text c : utf16_ok (oc_forwardId c) = true -> utf16_ok (oc_planDigest c) = true -> utf16_ok (oc_nodeId c) = true ->
  Forall (fun a => utf16_ok (ca_assignmentId a) = true) (oc_assignments c) -> exists x, digest (command_json c) = Returns x.
Proof using Hcanon.
  intros Hf Hp Hn Ha. apply digest_Returns. unfold command_json. cbn [assertJson each]. unfold assert_text.
  rewrite Hf, Hp, Hn. destruct (oc_action c); cbn; (rewrite (proj2 (each_Returns _ _)); [done|]); apply Forall_fmap; (eapply Forall_impl; [exact Ha|]);
    intros a Hok; cbn; unfold assert_text; rewrite Hok; by destruct (ca_protocol a), (ca_physicalProtocol a).
Qed.

Lemma body_text b : utf16_ok (cb_forwardId b) = true -> utf16_ok (cb_planDigest b) = true ->
  Forall (fun e => utf16_ok e.1 = true) (cb_receiptHighwater b) -> exists x, digest (coordination_json b) = Returns x.
Proof using Hcanon.
  intros Hf Hp Ha. apply digest_Returns. unfold coordination_json. cbn [assertJson each]. unfold assert_text.
  rewrite Hf, Hp. destruct (cb_phase b); cbn; (rewrite (proj2 (each_Returns _ _)); [done|]); apply Forall_fmap; (eapply Forall_impl; [exact Ha|]);
    intros [k v] Hok; cbn in *; unfold assert_text; by rewrite Hok.
Qed.

Lemma step_command plan body : plan_text plan -> is_terminal (cb_phase body) = false -> 0 <= cb_position body < Z.of_nat (length (tp_activationOrder plan)) ->
  (forall n, n ∈ tp_activationOrder plan -> exists a, a ∈ tp_assignments plan /\ hb_nodeId a = n) ->
  NoDup (map hb_assignmentId (tp_assignments plan)) ->
  exists c, offlineTransitStep plan body = Returns (Some c) /\ oc_nodeId c ∈ tp_activationOrder plan /\
    NoDup (map ca_assignmentId (oc_assignments c)).
Proof using Hcanon.
  intros Htxt Ht Hpos Hall HN. unfold offlineTransitStep. rewrite Ht. set (order := if bool_decide _ then _ else _).
  assert (Ho : order ≡ₚ tp_activationOrder plan) by (unfold order; case_bool_decide; [apply reverse_Permutation|done]).
  assert (Hl : (Z.to_nat (cb_position body) < length order)%nat) by (rewrite Ho; lia).
  apply lookup_lt_is_Some in Hl as [n Hn]. rewrite Hn. pose proof (list_elem_of_lookup_2 _ _ _ Hn) as Hin. rewrite Ho in Hin.
  set (mine := List.filter _ _). destruct (Hall n Hin) as (a & Ha & Ea).
  assert (Hmine : a ∈ mine).
  { unfold mine. rewrite list_elem_of_In, filter_In, <- list_elem_of_In. split; [done|]. by apply bool_decide_eq_true. }
  rewrite (Permutation_length (sort_by_perm _ _)), length_map. destruct mine as [|b mine'] eqn:Em; [by apply elem_of_nil in Hmine|]. cbn [length Nat.eqb].
  destruct (command_text (MkOfflineCommand (action_of (cb_phase body)) (tp_forwardId plan) (tp_deploymentGeneration plan)
    (tp_planDigest plan) n (cb_revision body) (sort_by assignment_order (map command_assignment (b :: mine'))) [])) as [x Hx]; cbn [oc_forwardId oc_planDigest oc_nodeId oc_assignments].
  { apply Htxt. } { apply Htxt. } { pose proof (pl_order _ Htxt) as Hord. rewrite Forall_forall in Hord. by apply Hord. }
  { rewrite sort_by_perm, <- Em. apply Forall_fmap, Forall_forall. intros y Hy. unfold mine in Hy. rewrite list_elem_of_In, filter_In, <- list_elem_of_In in Hy.
    pose proof (pl_assignments _ Htxt) as Has. rewrite Forall_forall in Has. exact (Has y (proj1 Hy)). }
  eexists. unfold throw_if. cbn [mbind outcome_bind]. rewrite Hx. cbn [mbind outcome_bind]. split; [reflexivity|]. split; [done|].
  cbn [oc_assignments]. rewrite sort_by_perm, <- Em. unfold mine.
  rewrite map_map. cbn. eapply sublist_NoDup; [exact HN|]. clear.
  induction (tp_assignments plan) as [|y l IH]; cbn; [constructor|]. destruct (str_eqb _ _); cbn; by constructor.
Qed.

(** What does not read the journal runs alike before and after a change of it. *)
Definition unaffected {A} (m : tx A) : Prop :=
  forall f d a, m d = Returns (a, d) -> m (with_coordination f d) = Returns (a, with_coordination f d).

Lemma unaffected_for_each {A} (body : A -> tx unit) l : (forall x, evolves eq (body x)) -> (forall x, unaffected (body x)) -> unaffected (for_each body l).
Proof using.
  intros He Hu f d [] [_ Hl]%for_each_reads; [|done]. apply for_each_reads; [done|]. split; [done|]. intros x Hx. by apply Hu, Hl.
Qed.

Lemma unaffected_bind {A B} (m : tx A) (k : A -> tx B) : evolves eq m -> unaffected m -> (forall a, unaffected (k a)) -> unaffected (m ≫= k).
Proof using.
  intros He Hm Hk f d b (a & d1 & H1 & H2)%tx_bind_Returns. pose proof (He _ _ _ H1) as <-. eapply tx_bind_run; [by apply Hm|by apply Hk].
Qed.

Lemma unaffected_require b c m : unaffected (require b c m).
Proof using. intros f d u [-> _]%require_Returns. by apply require_Returns. Qed.

Lemma unaffected_lift {A} (o : outcome A) : unaffected (lift o).
Proof using. intros f d a [-> _]%lift_Returns. by apply lift_Returns. Qed.

Lemma unaffected_ret {A} (a : A) : unaffected (mret a).
Proof using. intros f d b [-> _]%mret_Returns. by apply mret_Returns. Qed.

Lemma unaffected_query {A} (q : Db -> A) : (forall f d, q (with_coordination f d) = q d) -> unaffected (query q).
Proof using. intros Hq f d a [-> _]%query_Returns. apply query_Returns. by rewrite Hq. Qed.

Lemma unaffected_staged actor scopeId i g : unaffected (staged_plan actor scopeId i g).
Proof using.
  unfold staged_plan. apply unaffected_bind; [apply evolves_require; apply _|apply unaffected_require|intros _].
  apply unaffected_bind; [apply evolves_query; apply _|by apply unaffected_query|intros [row|]; [|intros f d a; discriminate]].
  do 2 (apply unaffected_bind; [apply evolves_require; apply _|apply unaffected_require|intros _]).
  apply unaffected_bind; [apply evolves_lift; apply _|apply unaffected_lift|intros plan].
  apply unaffected_bind; [apply evolves_require; apply _|apply unaffected_require|intros _]. apply unaffected_ret.
Qed.

Lemma unaffected_ownership plan : unaffected (ownership plan).
Proof using.
  apply unaffected_bind; [apply evolves_for_each; try apply _; apply reads_same_session| |intros _].
  - apply unaffected_for_each; [apply reads_same_session|]. intros n. apply unaffected_bind; [apply evolves_query; apply _|by apply unaffected_query|].
    intros r. apply unaffected_require.
  - apply unaffected_for_each; [apply reads_still_held|]. intros n. apply unaffected_bind; [apply evolves_query; apply _|by apply unaffected_query|].
    intros r. apply unaffected_require.
Qed.

(** The context of a coordination that has authority. *)
Context (now : Z) (actor scopeId i : jsstr) (g : Z) (row : TransitStageRow) (plan : TransitPreparation) (verify : TransitObservationProof -> bool).
Context (Hsafe : is_safe_integer now = true) (Hverify : forall p, verify p = true) (Hids : NoDup (map hb_assignmentId (tp_assignments plan))).
Context (Htext : plan_text plan).

Definition ready (d : Db) : Prop :=
  staged_plan actor scopeId i g d = Returns (row, plan, d) /\ fresh_stage now row plan d = Returns (tt, d) /\ ownership plan d = Returns (tt, d).

Lemma ready_next f d : ready d -> ready (with_coordination f d).
Proof using. intros (H1 & H2 & H3). split_and!; [by apply unaffected_staged|by apply unaffected_require|by apply unaffected_ownership]. Qed.

(** The row is verified and every sequence number so far is below its revision. *)
Definition consistent (d : Db) (r : CoordinationRow) : Prop :=
  db_coordination d !! (i, g) = Some r /\
  (exists body, bodyOf i g r plan = Returns body) /\ Forall (fun e => 1 <= e.2 < cd_revision r) (cd_receipt_highwater r).

Lemma bodyOf_next r body c j : bodyOf i g r plan = Returns body -> oc_nodeId c ∈ tp_activationOrder plan -> cd_revision r < MAX_COUNTER ->
  tp_forwardId plan = i -> tp_deploymentGeneration plan = g ->
  Forall (fun e => 1 <= e.2 < cd_revision r) (cd_receipt_highwater r) -> (length (tp_activationOrder plan) <= 8)%nat ->
  let size := Z.of_nat (length (tp_activationOrder plan)) in
  forall p n, (if is_terminal p then n = size else 0 <= n < size) ->
  let next := with_progress body p n (set_high (cb_receiptHighwater body) (oc_nodeId c) (cd_revision r)) in
  digests_to (coordination_json next) j -> bodyOf i g (row_of next j now r) plan = Returns next.
Proof using.
  intros Hb Hc Hrev Hi Hg Hhigh Hlen size p n Hpn next Hj. unfold bodyOf in Hb |- *.
  rewrite guard_seq in Hb. destruct Hb as [Hgd Hb]. apply bind_Returns in Hb as (b & _ & Hb). rewrite guard_seq in Hb. destruct Hb as [_ [= <-]].
  autorewrite with guards in Hgd. destruct Hgd as (((((((Hcr%is_counter_bounds & _) & _) & Hpd) & _) & _) & Hex) & _).
  apply guard_seq. split.
  - cbn [row_of next with_progress cd_revision cd_position cd_plan_digest cd_phase cd_receipt_highwater cb_revision cb_position cb_phase cb_receiptHighwater].
    rewrite Hpd, Hi, Hg, !str_eqb_refl, Z.eqb_refl. rewrite (proj2 (is_counter_bounds (cd_revision r + 1))) by lia.
    assert (Hn : 0 <= n <= 8) by (unfold size in Hpn; destruct (is_terminal p); lia).
    unfold is_safe_integer. rewrite (proj2 (Z.leb_le (Z.abs n) MAX_COUNTER)) by (unfold MAX_COUNTER; lia).
    rewrite (proj2 (Z.ltb_ge n 0)) by lia. cbn [negb orb].
    assert (Hpos : (if is_terminal p then negb (n =? Z.of_nat (length (tp_activationOrder plan))) else Z.of_nat (length (tp_activationOrder plan)) <=? n) = false).
    { fold size. destruct (is_terminal p); [subst n; by rewrite Z.eqb_refl|apply Z.leb_gt; lia]. }
    rewrite Hpos, orb_false_r. apply existsb_none. intros [k v] Hkv.
    assert (Hcase : (k, v) = (oc_nodeId c, cd_revision r) \/ (k, v) ∈ cd_receipt_highwater r).
    { clear -Hkv. induction (cd_receipt_highwater r) as [|[m w] l IH]; cbn [set_high] in Hkv.
      - apply list_elem_of_singleton in Hkv. by left.
      - cbn [fst] in Hkv. destruct (str_eqb m _); apply elem_of_cons in Hkv as [E|Hkv]; [by left|by right; right|right; rewrite E; left|].
        destruct (IH Hkv); [by left|by right; right]. }
    cbn [fst snd]. destruct Hcase as [[= -> ->]|Hold].
    + rewrite (proj2 (includes_true _ _)), (proj2 (is_counter_bounds _)) by (done || lia). done.
    + rewrite <- not_true_iff_false in Hex. destruct (negb (includes (tp_activationOrder plan) k) || negb (is_counter false v)) eqn:E; [|done].
      exfalso. apply Hex, existsb_exists. exists (k, v). split; [by apply list_elem_of_In|done].
  - unfold digest_differs. unfold digests_to in Hj. change (MkCoordinationBody i g _ _ _ _ _) with next. rewrite Hj.
    cbn [row_of cd_journal_digest mbind outcome_bind]. by rewrite str_eqb_refl.
Qed.

(** Where a confirmation takes the journal. *)
Definition confirmed (size : Z) (a : progress) : progress :=
  let done := a.2 + 1 =? size in
  let p := next_phase done a.1 in
  (p, if done then if is_terminal p then size else 0 else a.2 + 1).

Lemma high_below h k b : 0 < b -> Forall (fun e => 1 <= e.2 < b) h -> default 0 (high_of h k) < b.
Proof using.
  intros Hb Hh. unfold high_of. destruct (find _ h) as [[m v]|] eqn:E; [|exact Hb]. apply find_some in E as [Hin%list_elem_of_In _].
  rewrite Forall_forall in Hh. specialize (Hh _ Hin). cbn in *. lia.
Qed.

Lemma set_high_below h k v b : 1 <= v < b -> Forall (fun e => 1 <= e.2 < b) h -> Forall (fun e => 1 <= e.2 < b) (set_high h k v).
Proof using.
  intros Hv. induction 1 as [|e h He Hh IH]; cbn [set_high]; [by apply Forall_singleton|]. destruct (str_eqb _ _); by constructor.
Qed.

Lemma staged_verified d : staged_plan actor scopeId i g d = Returns (row, plan, d) -> verifyTransitStage i g row = Returns plan.
Proof using. by intros (_ & _ & _ & Hv)%staged_plan_Returns. Qed.

Lemma bodyOf_digest r body : bodyOf i g r plan = Returns body -> cd_plan_digest r = tp_planDigest plan.
Proof using.
  unfold bodyOf. rewrite guard_seq. intros [Hg _]. autorewrite with guards in Hg. unfold str_eqb in Hg. destruct_and! Hg. by propify.
Qed.

Lemma bodyOf_keys r body : bodyOf i g r plan = Returns body -> Forall (fun e => utf16_ok e.1 = true) (cd_receipt_highwater r).
Proof using Htext.
  unfold bodyOf. rewrite guard_seq. intros [Hg _]. autorewrite with guards in Hg. destruct_and! Hg.
  match goal with Hx : existsb _ _ = false |- _ => rewrite <- not_true_iff_false in Hx; rename Hx into Hex end.
  apply Forall_forall. intros e He. pose proof (pl_order _ Htext) as Hord. rewrite Forall_forall in Hord. apply Hord.
  destruct (includes (tp_activationOrder plan) e.1) eqn:E; [by apply includes_true|]. exfalso. apply Hex, existsb_exists.
  exists e. split; [by apply list_elem_of_In|]. by rewrite E.
Qed.

Lemma set_high_text h k v : utf16_ok k = true -> Forall (fun e => utf16_ok e.1 = true) h -> Forall (fun e => utf16_ok e.1 = true) (set_high h k v).
Proof using.
  intros Hk. induction 1 as [|e h He Hh IH]; cbn [set_high]; [by apply Forall_singleton|]. destruct (str_eqb _ _); by constructor.
Qed.

(** An honest report of the pending Node is accepted and moves the journal on. *)
Lemma confirm_honest d r : ready d -> consistent d r -> is_terminal (cd_phase r) = false -> cd_revision r < MAX_COUNTER ->
  exists c d' r' p, confirm verify now actor scopeId i g p d = Returns (c, d') /\ ready d' /\ consistent d' r' /\
    at_ r' = confirmed (Z.of_nat (length (tp_activationOrder plan))) (at_ r) /\ cd_revision r' = cd_revision r + 1.
Proof using Hcanon Hsafe Hverify Hids Htext.
  intros Hready (Hl & (body & Hb) & Hhigh) Hterm Hmax. pose proof Hready as (Hst & Hfr & How).
  pose proof (staged_verified _ Hst) as (Ei & Eg & Hlen & Hnodes)%verified_walk.
  pose proof (bodyOf_Returns _ _ _ _ _ Hb) as (Eb & Hrev & Hnn & Hpos & _). rewrite Hterm in Hpos.
  destruct (step_command plan body Htext) as (c & Hc & Hin & HN); [by subst body|subst body; cbn; lia|done|done|].
  set (size := Z.of_nat (length (tp_activationOrder plan))) in *.
  set (proof := honest_report now (cd_revision r) c).
  set (high := set_high (cb_receiptHighwater body) (oc_nodeId c) (cd_revision r)).
  set (next := with_progress body (confirmed size (at_ r)).1 (confirmed size (at_ r)).2 high).
  assert (Hwf : if is_terminal (confirmed size (at_ r)).1 then (confirmed size (at_ r)).2 = size else 0 <= (confirmed size (at_ r)).2 < size).
  { unfold confirmed, at_. cbn [fst snd]. destruct (Z.eqb_spec (cd_position r + 1) size); destruct (cd_phase r); cbn in *; try done; lia. }
  destruct (body_text next) as [j Hj].
  { subst body. cbn. rewrite <- Ei. apply Htext. }
  { subst body. cbn. by rewrite (bodyOf_digest _ _ Hb), (pl_digest _ Htext). }
  { subst body. cbn. apply set_high_text; [|by eapply bodyOf_keys].
    pose proof (pl_order _ Htext) as Hord. rewrite Forall_forall in Hord. by apply Hord. }
  set (d' := with_coordination (alter (row_of next j now) (i, g)) d).
  assert (Hbody' : bodyOf i g (row_of next j now r) plan = Returns next).
  { apply (bodyOf_next r body c j); try done; lia. }
  assert (Hlast : exists c', offlineTransitStep plan next = Returns c').
  { destruct (is_terminal (cb_phase next)) eqn:Et; [exists None; unfold offlineTransitStep; by rewrite Et|].
    change (cb_phase next) with (confirmed size (at_ r)).1 in Et. rewrite Et in Hwf.
    destruct (step_command plan next Htext) as (c' & Hc' & _); [exact Et|exact Hwf|done|done|eauto]. }
  destruct Hlast as [c' Hc']. exists c', d', (row_of next j now r), proof. split_and!.
  - unfold confirm. eapply tx_bind_run; [exact Hst|]. cbn beta iota.
    eapply (tx_bind_run _ _ d (r, body) d).
    { unfold locked. eapply tx_bind_run; [apply query_Returns; split; reflexivity|]. rewrite Hl.
      eapply tx_bind_run; [apply lift_Returns; split; [exact Hb|reflexivity]|]. by apply mret_Returns. }
    cbn beta iota. eapply (tx_bind_run _ _ d tt d).
    { unfold current_authority. destruct (cb_phase body); try (by apply mret_Returns); (eapply tx_bind_run; [exact Hfr|exact How]). }
    eapply tx_bind_run; [apply lift_Returns; split; [exact Hc|reflexivity]|]. cbn beta iota.
    eapply (tx_bind_run _ _ d tt d).
    { apply lift_Returns. split; [|done]. apply honest_accepted; try done; [apply is_counter_bounds; lia|].
      subst body. apply high_below; [lia|done]. }
    eapply (tx_bind_run _ _ d tt d); [by apply require_Returns|]. cbn zeta.
    eapply (tx_bind_run _ _ d next d'); [|by apply lift_Returns].
    unfold persist. eapply (tx_bind_run _ _ d tt d).
    { apply require_Returns. split; [|done]. apply negb_true_iff, Z.leb_gt. by subst body. }
    cbn zeta. fold size. subst body. eapply tx_bind_run; [apply lift_Returns; split; [exact Hj|reflexivity]|].
    eapply tx_bind_run; [apply query_Returns; split; reflexivity|]. eapply (tx_bind_run _ _ d tt d).
    { apply require_Returns. split; [|done]. rewrite Hl. cbn [cb_revision]. by rewrite Z.eqb_refl, str_eqb_refl. }
    done.
  - by apply ready_next.
  - split_and!; [|by exists next|].
    + change (alter (row_of next j now) (i, g) (db_coordination d) !! (i, g) = Some (row_of next j now r)). by rewrite lookup_alter_eq, Hl.
    + subst body. cbn. apply set_high_below; [lia|]. eapply Forall_impl; [exact Hhigh|]. cbn. lia.
  - unfold at_ at 1. cbn [row_of cd_phase cd_position next with_progress cb_phase cb_position]. by rewrite <- surjective_pairing.
  - by subst body.
Qed.

(** The remaining confirmations drive the journal to the seal. *)
Lemma drive n d r : ready d -> consistent d r -> withdrawing (cd_phase r) = false ->
  Z.of_nat n = 2 * Z.of_nat (length (tp_activationOrder plan)) - rank (Z.of_nat (length (tp_activationOrder plan))) (at_ r) ->
  cd_revision r + Z.of_nat n <= MAX_COUNTER ->
  exists proofs cs d' r', length proofs = n /\ collect_each (confirm verify now actor scopeId i g) proofs d = Returns (cs, d') /\
    db_coordination d' !! (i, g) = Some r' /\ cd_phase r' = sealed.
Proof using Hcanon Hsafe Hverify Hids Htext.
  revert d r. induction n as [|n IH]; intros d r Hready Hcons Hw Hn Hmax.
  - exists [], [], d, r. destruct Hcons as (Hl & (body & (_ & _ & Hnn & Hpos & _)%bodyOf_Returns) & _). split_and!; [done|done|done|].
    unfold rank, at_ in Hn. cbn in Hn. destruct (cd_phase r); cbn in *; try done; lia.
  - pose proof Hcons as (Hl & (body & (_ & _ & Hnn & Hpos & _)%bodyOf_Returns) & _).
    assert (Ht : is_terminal (cd_phase r) = false) by (unfold rank, at_ in Hn; cbn in Hn; destruct (cd_phase r); cbn in *; try done; lia).
    rewrite Ht in Hpos. destruct (confirm_honest d r Hready Hcons Ht ltac:(lia)) as (c & d1 & r1 & p & Hrun & Hready1 & Hcons1 & Hat & Hrev).
    set (size := Z.of_nat (length (tp_activationOrder plan))) in *.
    assert (Hnext : withdrawing (cd_phase r1) = false /\ rank size (at_ r1) = rank size (at_ r) + 1).
    { rewrite Hat. unfold at_ in Hat. injection Hat as Hp _. rewrite Hp. unfold confirmed, rank, at_. cbn [fst snd].
      destruct (Z.eqb_spec (cd_position r + 1) size); destruct (cd_phase r); cbn in *; try done; lia. }
    destruct Hnext as [Hw1 Hrank]. destruct (IH d1 r1 Hready1 Hcons1 Hw1 ltac:(lia) ltac:(lia)) as (ps & cs & d2 & r2 & Hlen & Hcol & Hl2 & Hs).
    exists (p :: ps), (c :: cs), d2, r2. split_and!; [cbn; by rewrite Hlen| |done|done]. cbn [collect_each].
    eapply tx_bind_run; [exact Hrun|]. eapply tx_bind_run; [exact Hcol|]. done.
Qed.
End Drive.

Section Seals.
Context `{Hashing, Locale}.

Lemma digest_text v x : digest v = Returns x -> assertJson v = Returns tt.
Proof using. unfold digest. intros ([] & -> & _)%bind_Returns. done. Qed.

Lemma begun_text i g plan j : digest (coordination_json (MkCoordinationBody i g (tp_planDigest plan) preparing 0 1 [])) = Returns j ->
  utf16_ok (tp_planDigest plan) = true.
Proof using.
  intros Hd%digest_text. unfold coordination_json in Hd. cbn [assertJson each cb_forwardId cb_planDigest] in Hd. unfold assert_text in Hd.
  destruct (utf16_ok (tp_planDigest plan)); [done|]. destruct (utf16_ok i); discriminate Hd.
Qed.

Lemma verified_text i g row plan : verifyTransitStage i g row = Returns plan -> utf16_ok (tp_planDigest plan) = true -> plan_text plan.
Proof using.
  intros Hv Hpd. pose proof (verified_body _ _ _ _ Hv) as <-. unfold verifyTransitStage in Hv. rewrite !guard_seq in Hv. destruct Hv as (_ & _ & Hv).
  apply bind_Returns in Hv as (b & Hd & _). unfold digest_differs in Hd. apply bind_Returns in Hd as (x & Hx%digest_text & _).
  set (plan := tg_body row) in *. unfold plan_body_json in Hx. cbn [assertJson each] in Hx. unfold assert_text in Hx.
  rewrite !seq_unit in Hx. rewrite !text_field in Hx. destruct_and! Hx.
  match goal with Ho : assertJson (strs_json _) = _, Ha : each assertJson (map binding_json _) = _ |- _ => rename Ho into Hord; rename Ha into Hass end.
  unfold strs_json in Hord. cbn [assertJson] in Hord. apply each_Returns, Forall_fmap in Hord. apply each_Returns, Forall_fmap in Hass. split; try done.
  - eapply Forall_impl; [exact Hord|]. intros n Hn. by apply text_field in Hn.
  - eapply Forall_impl; [exact Hass|]. intros a Ha. unfold compose, binding_json in Ha. cbn [assertJson app each] in Ha. unfold assert_text in Ha.
    destruct (utf16_ok (hb_assignmentId a)); [done|discriminate Ha].
Qed.

Lemma begin_ready now actor scopeId i g d c d1 row : begin_coordination now actor scopeId i g d = Returns (c, d1) ->
  db_deployments d !! (i, g) = Some row ->
  ready now actor scopeId i g row (tg_body row) d1 /\ plan_text (tg_body row) /\
  exists r, consistent i g (tg_body row) d1 r /\ at_ r = (preparing, 0) /\ cd_revision r = 1.
Proof using.
  intros Hr Hrow. unfold begin_coordination in Hr. apply tx_bind_Returns in Hr as ([row' plan] & d0 & Hst & Hr).
  pose proof Hst as (-> & Hrow' & <- & Hv)%staged_plan_Returns. rewrite Hrow in Hrow'. injection Hrow' as <-.
  apply tx_bind_Returns in Hr as ([] & d0 & Hf & Hr). pose proof Hf as [_ ->]%require_Returns.
  apply tx_bind_Returns in Hr as ([] & d0 & Ho & Hr). pose proof Ho as <-%reads_ownership.
  apply tx_bind_Returns in Hr as (prev & d0 & [-> ->]%query_Returns & Hr).
  apply tx_bind_Returns in Hr as ([] & d0 & [_ ->]%require_Returns & Hr). cbn zeta in Hr.
  apply tx_bind_Returns in Hr as (j & d0 & [Hj ->]%lift_Returns & Hr).
  apply tx_bind_Returns in Hr as ([] & d0 & [_ ->]%insert_row_Returns & [_ ->]%lift_Returns).
  split; [by apply ready_next|]. split; [by apply (verified_text i g row); [|apply (begun_text _ _ _ _ Hj)]|]. eexists. split_and!; [split_and!| |].
  - apply lookup_insert_eq.
  - apply verified_walk in Hv as (Ei & Eg & Hlen & _). eexists. unfold bodyOf. apply guard_seq. split; cycle 1.
    + unfold digest_differs. cbn [cd_plan_digest cd_phase cd_position cd_revision cd_receipt_highwater cd_journal_digest].
      rewrite Hj. cbn [mbind outcome_bind]. rewrite str_eqb_refl. reflexivity.
    + cbn [cd_plan_digest cd_phase cd_position cd_revision cd_receipt_highwater existsb is_terminal].
      rewrite Ei, Eg, !str_eqb_refl, Z.eqb_refl, (proj2 (Z.leb_gt (Z.of_nat (length (tp_activationOrder (tg_body row)))) 0)) by lia. done.
  - constructor.
  - done.
  - done.
Qed.

End Seals.

(** ** A concrete coordination *)

Lemma checksum_total (v : json) : is_Some (@canonicalize checksum_hashing v).
Proof. eexists. reflexivity. Qed.

Definition coordinated_run : outcome (TransitPreparation * option OfflineTransitCommand * Db) :=
  (plan ← @stage checksum_hashing (accept_only example_profile) (accept_only staging_intent) example_locale
            1780000000000 1780000000000 (js "u1") (js "s1") (js "f1") 4;
   c ← @begin_coordination checksum_hashing example_locale 1780000001000 (js "u1") (js "s1") (js "f1") (tp_deploymentGeneration plan);
   mret (plan, c)) staging_db.

Definition distinct_ids (o : outcome (TransitPreparation * option OfflineTransitCommand * Db)) : bool :=
  match o with Returns (plan, _, _) => distinct (map hb_assignmentId (tp_assignments plan)) | Throws _ => false end.

(** The staged plan, its row and the state in which the coordination has begun. *)
Lemma coordinated_run_Returns : exists plan c d d1 row,
  @begin_coordination checksum_hashing example_locale 1780000001000 (js "u1") (js "s1") (js "f1") (tp_deploymentGeneration plan) d = Returns (c, d1) /\
  db_deployments d !! (js "f1", tp_deploymentGeneration plan) = Some row /\ NoDup (map hb_assignmentId (tp_assignments (tg_body row))).
Proof.
  assert (Hd : distinct_ids coordinated_run = true) by (vm_compute; reflexivity).
  destruct coordinated_run as [[[plan c] d1]|] eqn:E; [|discriminate Hd]. unfold distinct_ids in Hd. apply distinct_NoDup in Hd.
  unfold coordinated_run in E. apply tx_bind_Returns in E as (plan' & d & Hs & E).
  apply tx_bind_Returns in E as (c' & d2 & Hb & E). apply mret_Returns in E as [[= -> ->] ->].
  pose proof (@stage_staged checksum_hashing (accept_only example_profile) (accept_only staging_intent) example_locale
    1780000000000 1780000000000 _ _ _ _ _ _ _ staging_forwards_wf ltac:(lia) Hs) as Hst.
  destruct (st_row _ _ _ _ _ _ Hst) as (row & Edep & _ & _ & _ & Hv). exists plan', c', d, d2, row. split; [exact Hb|]. split.
  - rewrite Edep. apply lookup_insert_eq.
  - by rewrite (verified_body _ _ _ _ Hv).
Qed.


