(* ===== verification/TransitDelivery.v ===== *)
(** Delivery of offline Transit previews (apps/control/src/modules/runtime/transit-delivery.ts
    and transit-negotiation.ts): a Node with current authority polls the commands queued for
    its session and acknowledges them; an acknowledgement never advances the coordination. *)

From S2P Require Import Prelude.
From S2P Require Import JsString.
From S2P Require Import Primitives.
From S2P Require Import Json.
From S2P Require Import Forward.
From S2P Require Import Time.
From S2P Require Import Digest.
From S2P Require Import Types.
From S2P Require Import Validate.
From S2P Require Import Schema.
From S2P Require Import Relay.
From S2P Require Import Transit.
From S2P Require Import TargetPolicy.
From S2P Require Import Planner.
From S2P Require Import RelayPlan.
From S2P Require Import Iso.
From S2P Require Import TransitPlan.
From S2P Require Import Store.
From S2P Require Import Slots.
From S2P Require Import Operations.
From S2P Require Import Nodes.
From S2P Require Import TransitStaging.
From S2P Require Import TransitCoordination.

Local Open Scope Z_scope.

(** ** The machine behind a request *)

Definition TRANSIT_NEGOTIATION_CAPABILITIES : list jsstr := [js "adp.multihop.1"; js "transit.wire.1"; js "native.transit.v1"].

(** [/^[0-9a-f]{64}$/] *)
Definition is_hex64 (s : jsstr) : bool := (length s =? 64)%nat && forallb is_lower_hex s.

(** The row of the join: the runtime Node, the Node, and its credential of this fingerprint
    if there is one. *)
Record MachineRow := MkMachineRow { mr_runtime : RuntimeNode; mr_node : NodeRow; mr_credential : option CredentialRow }.

Definition machine_row (node fingerprint : jsstr) (d : Db) : option MachineRow :=
  match db_runtime_nodes d !! node, db_nodes d !! node with
  | Some r, Some n =>
      Some (MkMachineRow r n (match db_credentials d !! fingerprint with
                              | Some c => if str_eqb (cr_node_id c) node then Some c else None
                              | None => None
                              end))
  | _, _ => None
  end.

(** [!t || t <= now] rejects. *)
Definition current_time (now : Z) (t : option Z) : bool :=
  match t with Some x => negb (x =? 0) && (now <? x) | None => false end.

Definition current_credential (now : Z) (m : MachineRow) : bool :=
  negb (nd_revoked (mr_node m)) && current_time now (nd_credential_until (mr_node m)) &&
  match mr_credential m with
  | Some c => negb (cr_revoked c) && current_time now (Some (cr_valid_until c)) && not_retired now c
  | None => false
  end.

Definition advertises (m : MachineRow) : bool :=
  forallb (includes (nf_capabilities (nd_facts (mr_node m)))) TRANSIT_NEGOTIATION_CAPABILITIES.

Definition requireMachine (now : Z) (node fingerprint : jsstr) (epoch : Z) (boot : jsstr) : tx unit :=
  _ ← require (is_hex64 fingerprint && is_counter false epoch) "AUTHORIZATION_DENIED" "Valid mTLS identity and Session required";
  found ← query (machine_row node fingerprint);
  match found with
  | None => throw "SESSION_SUPERSEDED" "Transit preview requires current ADP/3 Hello boot"
  | Some m =>
      _ ← require ((rn_session_epoch (mr_runtime m) =? epoch) && bool_decide (rn_boot_id (mr_runtime m) = Some boot))
            "SESSION_SUPERSEDED" "Transit preview requires current ADP/3 Hello boot";
      _ ← require (current_credential now m) "AUTHORIZATION_DENIED" "Current machine credential required";
      require (advertises m) "UNSUPPORTED_CAPABILITY" "Transit contract was not advertised by current Boot"
  end.

(** [TransitNegotiator.hello] reads the same rows. *)
Definition hello (now : Z) (nodeId fingerprint : jsstr) (epoch : Z) (request : TransitNegotiationRequest) : tx TransitNegotiationResponse :=
  _ ← require (str_eqb (tnq_nodeId request) nodeId && (tnq_sessionEpoch request =? epoch) && is_counter false epoch)
        "SESSION_SUPERSEDED" "Transit handshake Node/session differs";
  _ ← require (is_hex64 fingerprint) "AUTHORIZATION_DENIED" "Machine certificate fingerprint required";
  found ← query (machine_row nodeId fingerprint);
  match found with
  | None => throw "SESSION_SUPERSEDED" "Current ADP/3 Hello boot required"
  | Some m =>
      _ ← require ((rn_session_epoch (mr_runtime m) =? epoch) && bool_decide (rn_boot_id (mr_runtime m) = Some (tnq_bootId request)))
            "SESSION_SUPERSEDED" "Current ADP/3 Hello boot required";
      _ ← require (current_credential now m) "AUTHORIZATION_DENIED" "Current mTLS machine credential required";
      _ ← require (advertises m) "UNSUPPORTED_CAPABILITY" "Transit contract not advertised in current ADP/3 Hello";
      _ ← require (tnq_lastStoredTransitGeneration request =? 0) "FENCING_REJECTED" "Persisted Transit Agent history requires explicit reconciliation";
      serverTime ← lift (toISOString now);
      mret (MkTransitNegotiationResponse nodeId (tnq_bootId request) epoch serverTime (js "contract-only") false)
  end.

(** ** Documents *)

Definition preview_json (c : TransitPreviewCommand) : json :=
  match preview_body_json c with
  | JObj fs => JObj (fs ++ [(js "envelopeDigest", JStr (tpc_envelopeDigest c))])
  | v => v
  end.

Definition report_json (r : TransitDeliveryReport) : json :=
  JObj [(js "protocolVersion", JInt 3); (js "extensionVersion", JInt 1); (js "kind", JStr (js "transit-delivery-report-v1"));
        (js "nodeId", JStr (tdr_nodeId r)); (js "bootId", JStr (tdr_bootId r)); (js "sessionEpoch", JInt (tdr_sessionEpoch r));
        (js "commandDigest", JStr (tdr_commandDigest r)); (js "envelopeDigest", JStr (tdr_envelopeDigest r));
        (js "reportSequence", JInt (tdr_reportSequence r)); (js "observedAt", JStr (tdr_observedAt r)); (js "condition", JStr (js "received"))].

Definition ack_json (a : TransitDeliveryAck) : json :=
  JObj [(js "protocolVersion", JInt 3); (js "extensionVersion", JInt 1); (js "kind", JStr (js "transit-delivery-ack-v1"));
        (js "executionEnabled", JBool false); (js "nodeId", JStr (tda_nodeId a)); (js "bootId", JStr (tda_bootId a));
        (js "sessionEpoch", JInt (tda_sessionEpoch a)); (js "commandDigest", JStr (tda_commandDigest a));
        (js "envelopeDigest", JStr (tda_envelopeDigest a)); (js "reportSequence", JInt (tda_reportSequence a));
        (js "status", JStr (match tda_status a with accepted => js "accepted" | duplicate => js "duplicate" end))].

Section Delivery.
Context `{Hashing, Locale}.
Context (command_schema : Schema TransitPreviewCommand) (ack_schema : Schema TransitDeliveryAck).

Definition parse_command (raw : jsstr) : outcome TransitPreviewCommand := @parseTransitDelivery _ Command_ command_schema raw.
Definition parse_ack (raw : jsstr) : outcome TransitDeliveryAck := @parseTransitDelivery _ Ack_ ack_schema raw.

(** [decode(row)]; [envelope] is the key of the row. *)
Definition decode_row (envelope : jsstr) (row : OutboxRow) : outcome TransitPreviewCommand :=
  command ← parse_command (stringify (preview_json (ob_body row)));
  _ ← throw_if (negb (str_eqb (tpc_envelopeDigest command) envelope) || negb (str_eqb (tpc_nodeId command) (ob_node_id row)) ||
                negb (tpc_sessionEpoch command =? ob_session_epoch row) || negb (str_eqb (tpc_forwardId command) (ob_forward_id row)) ||
                negb (tpc_deploymentGeneration command =? ob_generation row) ||
                negb (tpc_coordinationRevision command =? ob_coordination_revision row) ||
                negb (str_eqb (tpc_commandDigest command) (ob_command_digest row)))
        "INTEGRITY_FAILURE" "Transit preview storage identity differs";
  Returns command.

Definition acknowledge (report : TransitDeliveryReport) (status : AckStatus) : outcome TransitDeliveryAck :=
  parse_ack (stringify (ack_json (MkTransitDeliveryAck (tdr_nodeId report) (tdr_bootId report) (tdr_sessionEpoch report)
    (tdr_commandDigest report) (tdr_envelopeDigest report) (tdr_reportSequence report) status))).

(** ** enqueuePreview *)

Definition stored_body (forward : jsstr) (generation : Z) (plan : TransitPreparation) (r : CoordinationRow) : CoordinationBody :=
  MkCoordinationBody forward generation (tp_planDigest plan) (cd_phase r) (cd_position r) (cd_revision r) (cd_receipt_highwater r).

(** The staged plan and the coordination step are still those of [expected]. *)
Definition current_step (actor scope forward : jsstr) (generation : Z) (expected : OfflineTransitCommand) : tx (TransitStageRow * TransitPreparation) :=
  found ← query (fun d => db_deployments d !! (forward, generation));
  match found with
  | None => throw "AUTHORIZATION_DENIED" "Transit staging actor or state differs"
  | Some stage =>
      _ ← require (str_eqb (tg_scope_id stage) scope && str_eqb (tg_created_by stage) actor && bool_decide (tg_state stage = t_reserved))
            "AUTHORIZATION_DENIED" "Transit staging actor or state differs";
      plan ← lift (verifyTransitStage forward generation stage);
      position ← query (fun d => db_coordination d !! (forward, generation));
      match position with
      | None => throw "FENCING_REJECTED" "Transit coordination step already changed"
      | Some r =>
          _ ← require ((cd_revision r =? oc_revision expected) && str_eqb (cd_plan_digest r) (tp_planDigest plan))
                "FENCING_REJECTED" "Transit coordination step already changed";
          differs ← lift (digest_differs (coordination_json (stored_body forward generation plan r)) (cd_journal_digest r));
          _ ← require (negb differs) "INTEGRITY_FAILURE" "Transit current offline coordinator differs";
          step ← lift (offlineTransitStep plan (stored_body forward generation plan r));
          _ ← require (match step with Some c => str_eqb (oc_commandDigest c) (oc_commandDigest expected) | None => false end)
                "INTEGRITY_FAILURE" "Transit current offline coordinator differs";
          mret (stage, plan)
      end
  end.

(** The session and boot of the Node whose bindings are still held. *)
Definition held_session (forward : jsstr) (generation : Z) (expected : OfflineTransitCommand) (plan : TransitPreparation) : tx (Z * jsstr) :=
  let bindings := List.filter (fun a => str_eqb (hb_nodeId a) (oc_nodeId expected)) (tp_assignments plan) in
  _ ← require (negb (length bindings =? 0)%nat) "INTEGRITY_FAILURE" "Transit preview has no Node resources";
  runtime ← query (fun d => db_runtime_nodes d !! oc_nodeId expected);
  match (r ← runtime; boot ← rn_boot_id r; Some (rn_session_epoch r, boot)) with
  | None => throw "SESSION_SUPERSEDED" "Transit preview Node session changed"
  | Some (epoch, boot) =>
      _ ← require (negb (existsb (fun a => negb (hb_sessionEpoch a =? epoch)) bindings) && negb (length boot =? 0)%nat)
            "SESSION_SUPERSEDED" "Transit preview Node session changed";
      _ ← for_each (still_held "Transit preview physical reservation superseded" forward generation) bindings;
      mret (epoch, boot)
  end.

Definition queued_for (forward : jsstr) (generation : Z) (expected : OfflineTransitCommand) (_ : jsstr) (r : OutboxRow) : bool :=
  str_eqb (ob_forward_id r) forward && (ob_generation r =? generation) && (ob_coordination_revision r =? oc_revision expected) &&
  str_eqb (ob_node_id r) (oc_nodeId expected).

(** The transaction of [enqueuePreview], for a step [expected] read before it. *)
Definition enqueue (now : Z) (actor scope forward : jsstr) (generation : Z) (expected : OfflineTransitCommand) : tx TransitPreviewCommand :=
  '(stage, plan) ← current_step actor scope forward generation expected;
  let end_ := Z.min (Z.min (tg_expires_at stage) (tp_authorizationUntil plan)) (now + 30000) in
  _ ← require (negb (end_ <=? now + 5000)) "LEASE_EXPIRED" "Transit offline preview validity exhausted";
  '(epoch, boot) ← held_session forward generation expected plan;
  existing ← select db_outbox (queued_for forward generation expected);
  match head existing with
  | Some (envelope, row) =>
      command ← lift (decode_row envelope row);
      _ ← require (str_eqb (tpc_bootId command) boot && (tpc_sessionEpoch command =? epoch))
            "SESSION_SUPERSEDED" "Previously queued Transit preview has retired Boot";
      mret command
  | None =>
      issuedAt ← lift (toISOString now);
      validUntil ← lift (toISOString end_);
      let envelope := MkTransitPreviewCommand (oc_nodeId expected) boot epoch forward generation (oc_revision expected) (oc_action expected)
                        (oc_commandDigest expected) issuedAt validUntil in
      d ← lift (digest (preview_body_json (envelope [])));
      command ← lift (parse_command (stringify (preview_json (envelope d))));
      _ ← insert_row db_outbox with_outbox (tpc_envelopeDigest command)
            (MkOutboxRow forward generation (oc_revision expected) (oc_nodeId expected) epoch (oc_commandDigest expected) command false now None);
      mret command
  end.

Definition enqueuePreview (now : Z) (actor scope forward : jsstr) (generation : Z) : tx TransitPreviewCommand :=
  expected ← peek now actor scope forward generation;
  match expected with
  | None => throw "FENCING_REJECTED" "No pending offline Transit preview step"
  | Some expected => enqueue now actor scope forward generation expected
  end.

(** ** poll *)

Definition before_or_at (text : jsstr) (now : Z) : bool := match Date_text text with Some t => t <=? now | None => false end.
Definition after (text : jsstr) (now : Z) : bool := match Date_text text with Some t => now <? t | None => false end.

(** The coordination step of the row is still pending. *)
Definition step_pending (row : OutboxRow) (d : Db) : bool :=
  match db_coordination d !! (ob_forward_id row, ob_generation row) with
  | Some r => (cd_revision r =? ob_coordination_revision row) && negb (is_terminal (cd_phase r))
  | None => false
  end.

(** [ORDER BY created_at,envelope_digest] *)
Definition queue_order (a b : jsstr * OutboxRow) : bool :=
  if ob_created_at a.2 =? ob_created_at b.2 then str_leb a.1 b.1 else ob_created_at a.2 <? ob_created_at b.2.

Fixpoint first_deliverable (now : Z) (boot : jsstr) (l : list (jsstr * OutboxRow)) : tx (option TransitPreviewCommand) :=
  match l with
  | [] => mret None
  | (envelope, row) :: r =>
      command ← lift (decode_row envelope row);
      if negb (str_eqb (tpc_bootId command) boot) || before_or_at (tpc_validUntil command) now || after (tpc_issuedAt command) (now + 5000)
      then first_deliverable now boot r
      else pending ← query (step_pending row);
           if negb pending then first_deliverable now boot r else mret (Some command)
  end.

Definition poll (now : Z) (node fingerprint : jsstr) (epoch : Z) (boot : jsstr) : tx (option TransitPreviewCommand) :=
  _ ← requireMachine now node fingerprint epoch boot;
  list ← select db_outbox (fun _ r => str_eqb (ob_node_id r) node && (ob_session_epoch r =? epoch) && negb (ob_acknowledged r));
  first_deliverable now boot (take 16 (sort_by queue_order list)).

(** ** report *)

(** [SELECT MAX(report_sequence) ... WHERE node_id=? AND session_epoch=?], 0 when there is none *)
Definition last_sequence (node : jsstr) (epoch : Z) (d : Db) : Z :=
  fold_left Z.max (map (fun kr => kr.1.2) (List.filter (fun kr : (jsstr * Z * Z) * ReceiptRow => str_eqb kr.1.1.1 node && (kr.1.1.2 =? epoch))
    (map_to_list (db_receipts d)))) 0.

Definition set_acknowledged (now : Z) (r : OutboxRow) : OutboxRow :=
  MkOutboxRow (ob_forward_id r) (ob_generation r) (ob_coordination_revision r) (ob_node_id r) (ob_session_epoch r) (ob_command_digest r)
    (ob_body r) true (ob_created_at r) (Some now).

(** The receipt is fresh and refers to a pending preview of this session. *)
Definition check_receipt (now : Z) (node : jsstr) (epoch : Z) (report : TransitDeliveryReport) : tx unit :=
  high ← query (last_sequence node epoch);
  _ ← require (negb (tdr_reportSequence report <=? high)) "FENCING_REJECTED" "Transit receipt sequence regressed";
  found ← query (fun d => db_outbox d !! tdr_envelopeDigest report);
  match found with
  | None => throw "FENCING_REJECTED" "Transit receipt does not reference pending preview"
  | Some row =>
      _ ← require (str_eqb (ob_node_id row) node && (ob_session_epoch row =? epoch) && negb (ob_acknowledged row) &&
                   str_eqb (ob_command_digest row) (tdr_commandDigest report))
            "FENCING_REJECTED" "Transit receipt does not reference pending preview";
      command ← lift (decode_row (tdr_envelopeDigest report) row);
      _ ← require (str_eqb (tpc_bootId command) (tdr_bootId report) &&
                   match Date_text (tdr_observedAt report) with Some t => Z.abs (now - t) <=? 30000 | None => false end &&
                   negb (before_or_at (tpc_validUntil command) now))
            "LEASE_EXPIRED" "Transit receipt boot or freshness differs";
      pending ← query (step_pending row);
      require pending "FENCING_REJECTED" "Transit coordinator advanced before delivery"
  end.

Definition report (now : Z) (node fingerprint : jsstr) (epoch : Z) (report : TransitDeliveryReport) : tx TransitDeliveryAck :=
  _ ← require (str_eqb (tdr_nodeId report) node && (tdr_sessionEpoch report =? epoch))
        "SESSION_SUPERSEDED" "Transit delivery receipt Node/session mismatch";
  _ ← requireMachine now node fingerprint epoch (tdr_bootId report);
  requestDigest ← lift (digest (report_json report));
  previous ← query (fun d => db_receipts d !! (node, epoch, tdr_reportSequence report));
  match previous with
  | Some p =>
      _ ← require (str_eqb (rc_request_digest p) requestDigest) "INTEGRITY_FAILURE" "Transit delivery receipt sequence reused with different body";
      lift (acknowledge report duplicate)
  | None =>
      _ ← check_receipt now node epoch report;
      _ ← insert_row db_receipts with_receipts (node, epoch, tdr_reportSequence report)
            (MkReceiptRow (tdr_envelopeDigest report) requestDigest now);
      _ ← modify (with_outbox (alter (set_acknowledged now) (tdr_envelopeDigest report)));
      lift (acknowledge report accepted)
  end.
End Delivery.

(** ** At most one receipt per preview *)

(** Every receipt is of an acknowledged preview of its Node and session, and no preview has
    two. *)
Record delivery_ok (d : Db) : Prop := {
  dl_receipt : forall node epoch seq rc, db_receipts d !! (node, epoch, seq) = Some rc ->
    exists row, db_outbox d !! rc_envelope_digest rc = Some row /\ ob_node_id row = node /\ ob_session_epoch row = epoch /\ ob_acknowledged row = true;
  dl_once : forall k k' rc rc', db_receipts d !! k = Some rc -> db_receipts d !! k' = Some rc' ->
    rc_envelope_digest rc = rc_envelope_digest rc' -> k = k';
}.

Lemma fold_max_ge l z : z <= fold_left Z.max l z /\ forall x, x ∈ l -> x <= fold_left Z.max l z.
Proof.
  revert z. induction l as [|x l IH]; intros z; cbn; [split; [lia|by intros x ?%elem_of_nil]|].
  destruct (IH (Z.max z x)) as [A B]. split; [lia|]. intros y [->|Hy]%elem_of_cons; [lia|by apply B].
Qed.

Lemma last_sequence_ge node epoch d seq rc : db_receipts d !! (node, epoch, seq) = Some rc -> seq <= last_sequence node epoch d.
Proof.
  intros Hr. unfold last_sequence. apply fold_max_ge. apply list_elem_of_fmap. exists ((node, epoch, seq), rc). split; [done|].
  rewrite list_elem_of_In, filter_In, <- list_elem_of_In, elem_of_map_to_list. split; [done|]. cbn. by rewrite str_eqb_refl, Z.eqb_refl.
Qed.

Section DeliverySpec.
Context `{Hashing, Locale}.
Context (command_schema : Schema TransitPreviewCommand) (ack_schema : Schema TransitDeliveryAck).

Lemma reads_requireMachine now n fp e b : evolves eq (requireMachine now n fp e b).
Proof using. unfold requireMachine. evolve. Qed.

Lemma reads_check_receipt now n e r : evolves eq (check_receipt command_schema now n e r).
Proof using. unfold check_receipt. evolve. Qed.

Lemma check_receipt_Returns now node epoch rep d u d' : check_receipt command_schema now node epoch rep d = Returns (u, d') ->
  last_sequence node epoch d < tdr_reportSequence rep /\
  exists row, db_outbox d !! tdr_envelopeDigest rep = Some row /\ ob_node_id row = node /\ ob_session_epoch row = epoch /\ ob_acknowledged row = false.
Proof using.
  unfold check_receipt. intros Hr. apply tx_bind_Returns in Hr as (h & d0 & [-> ->]%query_Returns & Hr).
  apply tx_bind_Returns in Hr as ([] & d0 & [Hs%negb_true_iff%Z.leb_gt ->]%require_Returns & Hr). split; [done|].
  apply tx_bind_Returns in Hr as (found & d0 & [-> ->]%query_Returns & Hr).
  destruct (db_outbox d !! tdr_envelopeDigest rep) as [row|]; [|discriminate Hr]. exists row.
  apply tx_bind_Returns in Hr as ([] & d0 & [Hb ->]%require_Returns & _). unfold str_eqb in Hb. propify. by split_and!.
Qed.

(** A report is a replay that changes nothing, or the first receipt of a pending preview. *)
Definition replayed (node : jsstr) (epoch : Z) (rep : TransitDeliveryReport) (d d' : Db) : Prop :=
  exists rc, db_receipts d !! (node, epoch, tdr_reportSequence rep) = Some rc /\ digests_to (report_json rep) (rc_request_digest rc) /\ d' = d.

Definition received (now : Z) (node : jsstr) (epoch : Z) (rep : TransitDeliveryReport) (d d' : Db) : Prop :=
  exists x row, digests_to (report_json rep) x /\ last_sequence node epoch d < tdr_reportSequence rep /\
    db_receipts d !! (node, epoch, tdr_reportSequence rep) = None /\
    db_outbox d !! tdr_envelopeDigest rep = Some row /\ ob_node_id row = node /\ ob_session_epoch row = epoch /\ ob_acknowledged row = false /\
    d' = with_outbox (alter (set_acknowledged now) (tdr_envelopeDigest rep))
           (with_receipts (insert (node, epoch, tdr_reportSequence rep) (MkReceiptRow (tdr_envelopeDigest rep) x now)) d).

Lemma report_Returns now node fp epoch rep d a d' : report command_schema ack_schema now node fp epoch rep d = Returns (a, d') ->
  replayed node epoch rep d d' \/ received now node epoch rep d d'.
Proof using.
  unfold report. intros Hr. apply tx_bind_Returns in Hr as ([] & d0 & [_ ->]%require_Returns & Hr).
  apply tx_bind_Returns in Hr as ([] & d0 & <-%reads_requireMachine & Hr).
  apply tx_bind_Returns in Hr as (x & d0 & [Hx ->]%lift_Returns & Hr).
  apply tx_bind_Returns in Hr as (prev & d0 & [-> ->]%query_Returns & Hr).
  destruct (db_receipts d !! (node, epoch, tdr_reportSequence rep)) as [rc|] eqn:E.
  - left. exists rc. tx_inv. apply bool_decide_eq_true in Hrun. subst x. done.
  - right. apply tx_bind_Returns in Hr as ([] & d0 & Hc & Hr). pose proof Hc as (Hs & row & Ho & Hn & He & Ha)%check_receipt_Returns.
    apply reads_check_receipt in Hc as <-. tx_inv. apply insert_row_Returns in Hrun as [_ ->]. exists x, row. by split_and!.
Qed.

Lemma received_ok now node epoch rep d d' : delivery_ok d -> received now node epoch rep d d' ->
  delivery_ok d' /\ db_receipts d ⊆ db_receipts d' /\ (forall k rc, db_receipts d !! k = Some rc -> rc_envelope_digest rc <> tdr_envelopeDigest rep).
Proof using.
  intros [Hrec Honce] (x & row & _ & _ & Hnew & Hrow & Hn & He & Hack & ->).
  assert (Hfresh : forall k rc, db_receipts d !! k = Some rc -> rc_envelope_digest rc <> tdr_envelopeDigest rep).
  { intros [[n e] s] rc Hk E. destruct (Hrec _ _ _ _ Hk) as (row' & Hrow' & _ & _ & Hack'). rewrite E in Hrow'. congruence. }
  split_and!; [split|by apply insert_subseteq|done].
  - intros n e s rc Hk. cbn in Hk. unfold db_receipts in Hk. cbn in Hk. fold (db_receipts d) in Hk.
    unfold db_outbox. cbn. fold (db_outbox d). apply lookup_insert_Some in Hk as [[[= <- <- <-] <-]|[_ Hk]]; cbn.
    + rewrite lookup_alter_eq, Hrow. cbn. eexists. split; [reflexivity|done].
    + destruct (Hrec _ _ _ _ Hk) as (row' & Hrow' & Hrest). exists row'. rewrite lookup_alter_ne by (apply not_eq_sym; by eapply Hfresh). done.
  - intros k k' rc rc'. unfold db_receipts. cbn. fold (db_receipts d). rewrite !lookup_insert_Some.
    intros [[<- <-]|[_ Hk]] [[<- <-]|[_ Hk']] E; cbn in *; [done| | |by eapply Honce].
    + by destruct (Hfresh _ _ Hk').
    + by destruct (Hfresh _ _ Hk).
Qed.

Lemma reads_current_step a s i g expected : evolves eq (current_step a s i g expected).
Proof using. unfold current_step. evolve. Qed.

Lemma reads_held_session i g expected plan : evolves eq (held_session i g expected plan).
Proof using. unfold held_session, still_held. evolve. Qed.

(** A new preview leaves receipts and earlier previews alone. *)
Lemma enqueue_grows now a s i g expected d c d' : enqueue command_schema now a s i g expected d = Returns (c, d') ->
  db_receipts d' = db_receipts d /\ db_outbox d ⊆ db_outbox d' /\ db_coordination d' = db_coordination d.
Proof using.
  unfold enqueue. intros Hr. apply tx_bind_Returns in Hr as ([stage plan] & d0 & E & Hr). apply reads_current_step in E as <-.
  cbn zeta in Hr. apply tx_bind_Returns in Hr as ([] & d0 & [_ ->]%require_Returns & Hr).
  apply tx_bind_Returns in Hr as ([epoch boot] & d0 & E & Hr). apply reads_held_session in E as <-.
  apply tx_bind_Returns in Hr as (l & d0 & [-> _]%select_Returns & Hr). destruct (head l) as [[envelope row]|]; tx_inv; [done|].
  apply insert_row_Returns in Hrun3 as [Hn ->]. split_and!; [done| |done]. by apply insert_subseteq.
Qed.

Inductive delivery_step : Db -> Db -> Prop :=
  | ds_enqueue now a s i g expected d c d' : enqueue command_schema now a s i g expected d = Returns (c, d') -> delivery_step d d'
  | ds_report now node fp epoch rep d a d' : report command_schema ack_schema now node fp epoch rep d = Returns (a, d') -> delivery_step d d'
  | ds_other d d' : db_outbox d' = db_outbox d -> db_receipts d' = db_receipts d -> delivery_step d d'.

Lemma delivery_step_ok d d' : delivery_ok d -> delivery_step d d' -> delivery_ok d' /\ db_receipts d ⊆ db_receipts d'.
Proof using.
  intros Hok Hs. revert Hok. destruct Hs as [? ? ? ? ? ? ? ? ? Hr|? ? ? ? ? ? ? ? Hr|? ? Ho Hre]; intros Hok.
  - apply enqueue_grows in Hr as (Hre & Ho & _). rewrite Hre. split; [|done]. destruct Hok as [Hrec Honce]. split; rewrite Hre; [|exact Honce].
    intros n e seq rc Hk. destruct (Hrec _ _ _ _ Hk) as (row & Hrow & Hrest). exists row. split; [by eapply lookup_weaken|done].
  - apply report_Returns in Hr as [(rc & _ & _ & ->)|Hrcv]; [by split|]. by apply received_ok in Hrcv as (? & ? & _).
  - destruct Hok as [Hrec Honce]. by split; [split; rewrite ?Hre, ?Ho; [exact Hrec|exact Honce]|rewrite Hre].
Qed.

(** A preview is acknowledged at most once.  From a consistent state, through any sequence
    of queued previews, reports and other transactions: receipts are never lost or
    changed, every receipt is of an acknowledged preview of its own Node and session, and
    no preview has two receipts.  A later report is either a replay, the same document
    under the same sequence number, which changes nothing, or it carries a sequence number
    above all earlier ones of the session and is the first receipt of its preview.  In
    neither case does it touch the coordination journal. *)
Theorem report_at_most_once (d d1 : Db) : delivery_ok d -> rtc delivery_step d d1 ->
  delivery_ok d1 /\ db_receipts d ⊆ db_receipts d1 /\
  forall now node fp epoch rep a d2, report command_schema ack_schema now node fp epoch rep d1 = Returns (a, d2) ->
    db_coordination d2 = db_coordination d1 /\
    (replayed node epoch rep d1 d2 \/
     (received now node epoch rep d1 d2 /\
      (forall seq rc, db_receipts d1 !! (node, epoch, seq) = Some rc -> seq < tdr_reportSequence rep) /\
      (forall k rc, db_receipts d1 !! k = Some rc -> rc_envelope_digest rc <> tdr_envelopeDigest rep))).
Proof using.
  intros Hok Hrun. assert (Hall : delivery_ok d1 /\ db_receipts d ⊆ db_receipts d1).
  { induction Hrun as [d|d d' d1 Hs _ IH]; [done|]. apply delivery_step_ok in Hs as [Hok' Hle]; [|done].
    destruct (IH Hok') as [? ?]. split; [done|]. by etransitivity. }
  destruct Hall as [Hok1 Hle]. split_and!; [done|done|]. intros now node fp epoch rep a d2 [Hrep|Hrcv]%report_Returns.
  - pose proof Hrep as (rc & _ & _ & ->). by split; [|left].
  - pose proof Hrcv as (x & row & _ & Hs & _ & _ & _ & _ & _ & ->). split; [done|]. right. split_and!; [done| |].
    + intros seq rc Hk%last_sequence_ge. lia.
    + by apply received_ok in Hrcv as (_ & _ & Hf).
Qed.
End DeliverySpec.

(** ** A concrete receipt *)

#[export] Instance TransitPreviewCommand_doc : Documented TransitPreviewCommand := preview_json.
#[export] Instance TransitDeliveryAck_doc : Documented TransitDeliveryAck := ack_json.

Definition queued_command : TransitPreviewCommand :=
  let c := MkTransitPreviewCommand (js "n2") (js "b1") 6 (js "f1") 4 1 pa_prepare (js "sha256:11")
             (iso_text 1780000000000) (iso_text 1780000030000) in
  c (sum_of (preview_body_json (c []))).

Definition received_report : TransitDeliveryReport :=
  MkTransitDeliveryReport (js "n2") (js "b1") 6 (js "sha256:11") (tpc_envelopeDigest queued_command) 1 (iso_text 1780000001000).

Definition received_ack : TransitDeliveryAck :=
  MkTransitDeliveryAck (js "n2") (js "b1") 6 (js "sha256:11") (tpc_envelopeDigest queued_command) 1 accepted.

(** One queued preview for a Node with a current session and credential. *)
Definition queued_db : Db :=
  with_outbox (fun _ => {[tpc_envelopeDigest queued_command := MkOutboxRow (js "f1") 4 1 (js "n2") 6 (js "sha256:11") queued_command false 1780000000000 None]})
    (with_coordination (fun _ => {[(js "f1", 4) := MkCoordinationRow [] preparing 0 1 [] [] 1780000000000 1780000000000]})
       (with_credentials (fun _ => {[replicate 64 97 := MkCredentialRow (js "n2") 0 1790000000000 None false []]})
          (with_runtime_nodes (fun _ => {[js "n2" := MkRuntimeNode 6 (Some (js "b1")) 0 0 None None]}) staging_db))).

Definition received_run : outcome (TransitDeliveryAck * Db) :=
  @report checksum_hashing (accept_only queued_command) (accept_only received_ack) 1780000001000 (js "n2") (replicate 64 97) 6 received_report queued_db.

Lemma received_run_Returns : exists a d', received_run = Returns (a, d').
Proof.
  assert (E : is_returns received_run = true) by (vm_compute; reflexivity). apply is_returns_true in E as [[a d'] E]. eauto.
Qed.

Lemma queued_db_ok : delivery_ok queued_db.
Proof.
  assert (E : db_receipts queued_db = ∅) by reflexivity. split; rewrite E; intros; by rewrite lookup_empty in *.
Qed.

Lemma report_at_most_once_witness : exists a d', received_run = Returns (a, d') /\ delivery_ok d'.
Proof.
  destruct received_run_Returns as (a & d' & E). exists a, d'. split; [exact E|].
  exact (proj1 (@report_at_most_once checksum_hashing example_locale (accept_only queued_command) (accept_only received_ack) queued_db d'
    queued_db_ok (rtc_once _ _ (ds_report _ _ _ _ _ _ _ _ _ _ E)))).
Defined.
