(* ===== verification/ProbeInstances.v ===== *)
(** Probe instances (apps/control/src/application/probe-instances.ts,
    probe-machine-authorization.ts, infrastructure/mysql-probe-instances.ts and
    mysql-probe-machine.ts): which process of a Node may run Probes.

    The operations sample the clock more than once, since they wait for locks:
    [clock i] is the sample [i] of an operation, in the order of the source.  Nothing is
    assumed of the samples. *)

From S2P Require Import Prelude.
From S2P Require Import JsString.
From S2P Require Import Primitives.
From S2P Require Import Json.
From S2P Require Import Types.
From S2P Require Import TargetPolicy.
From S2P Require Import Probe.
From S2P Require Import RelayPlan.
From S2P Require Import Store.
From S2P Require Import TransitDelivery.

Local Open Scope Z_scope.

(** ** Evidence about a machine *)

Record ProbeMachineEvidence := MkEvidence {
  pe_nodeId : jsstr; pe_bootId : option jsstr; pe_sessionEpoch : Z; pe_revoked : bool; pe_credentialRevoked : bool;
  pe_nodeCredentialUntil : Z; pe_credentialUntil : Z; pe_retireAfter : option Z; pe_capabilities : list jsstr;
}.

(** The [LEFT JOIN] gives no credential: [NULL !== 0] counts as revoked. *)
Definition evidence_of (nodeId : jsstr) (m : MachineRow) : ProbeMachineEvidence :=
  let c := mr_credential m in
  MkEvidence nodeId (rn_boot_id (mr_runtime m)) (rn_session_epoch (mr_runtime m)) (nd_revoked (mr_node m))
    (match c with Some c => cr_revoked c | None => true end) (default 0 (nd_credential_until (mr_node m)))
    (match c with Some c => cr_valid_until c | None => 0 end) (match c with Some c => cr_retire_after c | None => None end)
    (nf_capabilities (nd_facts (mr_node m))).

Definition read_machine (nodeId fingerprint : jsstr) : tx (option ProbeMachineEvidence) :=
  query (fun d => evidence_of nodeId <$> machine_row nodeId fingerprint d).

Definition direct_capabilities : list jsstr := [js "adp.3"; js "native.direct.v1"; js "tcp"].

(** [Number.isSafeInteger(until) && until > now] *)
Definition lasts (now until_ : Z) : bool := is_safe_integer until_ && (now <? until_).

Definition credential_lasts (now : Z) (e : ProbeMachineEvidence) : bool :=
  negb (pe_revoked e) && negb (pe_credentialRevoked e) && lasts now (pe_nodeCredentialUntil e) && lasts now (pe_credentialUntil e) &&
  match pe_retireAfter e with Some u => lasts now u | None => true end.

Definition requireProbeMachine (current : option ProbeMachineEvidence) (nodeId bootId : jsstr) (epoch now : Z) (directCapability : bool) : tx ProbeMachineEvidence :=
  match current with
  | None => throw "SESSION_SUPERSEDED" "Current ADP/3 boot/session required"
  | Some e =>
      _ ← require (str_eqb (pe_nodeId e) nodeId && (pe_sessionEpoch e =? epoch) && bool_decide (pe_bootId e = Some bootId))
            "SESSION_SUPERSEDED" "Current ADP/3 boot/session required";
      _ ← require (credential_lasts now e) "AUTHORIZATION_DENIED" "Current machine credential required";
      _ ← require (negb directCapability || forallb (includes (pe_capabilities e)) direct_capabilities)
            "UNSUPPORTED_CAPABILITY" "Current Direct TCP capability required";
      mret e
  end.

(** [Math.min(bound, nodeCredentialUntil, credentialUntil, retireAfter ?? Infinity)] *)
Definition evidence_until (bound : Z) (e : ProbeMachineEvidence) : Z :=
  let m := Z.min (Z.min bound (pe_nodeCredentialUntil e)) (pe_credentialUntil e) in
  match pe_retireAfter e with Some u => Z.min m u | None => m end.

(** ** The slot of a Node *)

Definition valid_slot (nodeId : jsstr) (s : ProbeSlot) : bool :=
  is_id nodeId && is_id (pi_bootId s) && is_counter false (pi_sessionEpoch s) && is_counter false (pi_generation s) &&
  is_hex64 (pi_fingerprint s) && is_hex64 (pi_instanceId s) &&
  is_safe_integer (pi_registeredAt s) && (0 <=? pi_registeredAt s) && is_safe_integer (pi_expiresAt s) && (pi_registeredAt s <? pi_expiresAt s) &&
  (pi_expiresAt s - pi_registeredAt s <=? 30000) &&
  match pi_state s with
  | ps_registered => bool_decide (pi_revokedAt s = None)
  | _ => match pi_revokedAt s with Some t => is_safe_integer t && (0 <=? t) | None => false end
  end.

(** [record(row, nodeId)]: no row and an empty row hold no instance. *)
Definition slot_record (nodeId : jsstr) (row : option (option ProbeSlot)) : tx (option ProbeSlot) :=
  match row with
  | Some (Some s) =>
      _ ← require (valid_slot nodeId s) "PROBE_INSTANCE_CORRUPT" "Invalid persisted Probe instance; operator review required";
      mret (Some s)
  | _ => mret None
  end.

Definition read_instance (nodeId : jsstr) : tx (option ProbeSlot) :=
  row ← query (fun d => db_probe_instances d !! nodeId); slot_record nodeId row.

Definition seed_instance (nodeId : jsstr) (m : gmap jsstr (option ProbeSlot)) : gmap jsstr (option ProbeSlot) :=
  match m !! nodeId with Some _ => m | None => <[nodeId := None]> m end.

Definition lock_instance (nodeId : jsstr) : tx (option ProbeSlot) :=
  _ ← modify (with_probe_instances (seed_instance nodeId)); read_instance nodeId.

(** [current?.generation ?? 0], and the column of an empty row *)
Definition generation_of (s : option ProbeSlot) : Z := match s with Some s => pi_generation s | None => 0 end.

(** The [WHERE] of the [UPDATE] *)
Definition replaceable (row : option (option ProbeSlot)) (expectedGeneration : Z) (closing : bool) (next : ProbeSlot) : bool :=
  match row with
  | None => false
  | Some s =>
      (generation_of s =? expectedGeneration) &&
      (negb closing ||
       match s with
       | None => false
       | Some s => bool_decide (pi_state s = ps_registered) && str_eqb (pi_bootId s) (pi_bootId next) && (pi_sessionEpoch s =? pi_sessionEpoch next) &&
                   str_eqb (pi_fingerprint s) (pi_fingerprint next) && str_eqb (pi_instanceId s) (pi_instanceId next) &&
                   (pi_registeredAt s =? pi_registeredAt next) && (pi_expiresAt s =? pi_expiresAt next)
       end)
  end.

Definition replace_instance (nodeId : jsstr) (expectedGeneration : Z) (next : ProbeSlot) : tx unit :=
  _ ← slot_record nodeId (Some (Some next));
  let closing := (pi_generation next =? expectedGeneration) && bool_decide (pi_state next = ps_revoked) in
  _ ← require (is_safe_integer expectedGeneration && (0 <=? expectedGeneration) &&
               (closing || (pi_generation next =? expectedGeneration + 1) && bool_decide (pi_state next = ps_registered)))
        "PROBE_INSTANCE_CONFLICT" "Invalid Probe ownership transition";
  matched ← query (fun d => replaceable (db_probe_instances d !! nodeId) expectedGeneration closing next);
  _ ← require matched "PROBE_INSTANCE_CONFLICT" "Probe instance changed";
  modify (with_probe_instances <[nodeId := Some next]>).

(** [UPDATE probe_instances SET state='quarantined',revoked_at=? WHERE generation>0] *)
Definition quarantine_slot (now : Z) (s : ProbeSlot) : ProbeSlot :=
  MkProbeSlot (pi_generation s) (pi_bootId s) (pi_sessionEpoch s) (pi_fingerprint s) (pi_instanceId s) ps_quarantined
    (pi_registeredAt s) (pi_expiresAt s) (Some now).

Definition quarantine_instances (now : Z) : tx unit :=
  modify (with_probe_instances (fmap (fun s => match s with
                                               | Some s => Some (if 0 <? pi_generation s then quarantine_slot now s else s)
                                               | None => None end))).

(** ** Operations *)

(** The command, an object with exactly these members. *)
Record ProbeInstanceCommand := MkInstanceCommand { ic_bootId : jsstr; ic_instanceId : jsstr; ic_expectedGeneration : Z }.

Definition check_identity (nodeId fingerprint : jsstr) (epoch : Z) (bootId : jsstr) : tx unit :=
  require (is_id nodeId && is_counter false epoch && is_hex64 fingerprint && is_id bootId) "INVALID_CONFIG" "Valid current Probe machine identity required".

Definition check_instance_command (nodeId fingerprint : jsstr) (epoch : Z) (c : ProbeInstanceCommand) : tx unit :=
  _ ← require (is_hex64 (ic_instanceId c) && (0 <=? ic_expectedGeneration c) && (ic_expectedGeneration c <=? MAX_COUNTER))
        "INVALID_CONFIG" "Valid Probe instance identity and generation required";
  check_identity nodeId fingerprint epoch (ic_bootId c).

Definition instance_conflict {A} : tx A := throw "PROBE_INSTANCE_CONFLICT" "Probe instance changed; inspect current generation".

(** The same instance again: it must still be the registered one, and is not renewed. *)
Definition replay_instance (now : Z) (fingerprint : jsstr) (epoch : Z) (c : ProbeInstanceCommand) (s : ProbeSlot) : tx ProbeSlot :=
  if str_eqb (pi_bootId s) (ic_bootId c) && (pi_sessionEpoch s =? epoch) && str_eqb (pi_fingerprint s) fingerprint &&
     bool_decide (pi_state s = ps_registered) && (ic_expectedGeneration c =? pi_generation s - 1)
  then _ ← require (negb ((now <? pi_registeredAt s) || (pi_expiresAt s <=? now))) "PROBE_INSTANCE_EXPIRED" "Fresh instance required; replay cannot renew";
       mret s
  else instance_conflict.

(** A new instance under the next generation. *)
Definition accept_instance (now : Z) (nodeId fingerprint : jsstr) (epoch : Z) (c : ProbeInstanceCommand) (evidence : ProbeMachineEvidence) (generation : Z) : tx ProbeSlot :=
  if negb (ic_expectedGeneration c =? generation) then instance_conflict else
  _ ← require (negb (generation =? MAX_COUNTER)) "COUNTER_EXHAUSTED" "Probe instance generation exhausted";
  let next := MkProbeSlot (generation + 1) (ic_bootId c) epoch fingerprint (ic_instanceId c) ps_registered now (evidence_until (now + 30000) evidence) None in
  _ ← replace_instance nodeId generation next;
  mret next.

Definition register_instance (clock : nat -> Z) (nodeId fingerprint : jsstr) (epoch : Z) (c : ProbeInstanceCommand) : tx ProbeSlot :=
  _ ← check_instance_command nodeId fingerprint epoch c;
  machine ← read_machine nodeId fingerprint;
  _ ← requireProbeMachine machine nodeId (ic_bootId c) epoch (clock 0%nat) true;
  current ← lock_instance nodeId;
  let now := clock 1%nat in
  evidence ← requireProbeMachine machine nodeId (ic_bootId c) epoch now true;
  match current with
  | Some s => if str_eqb (pi_instanceId s) (ic_instanceId c) then replay_instance now fingerprint epoch c s
              else accept_instance now nodeId fingerprint epoch c evidence (generation_of current)
  | None => accept_instance now nodeId fingerprint epoch c evidence (generation_of current)
  end.

Definition revoke_slot (now : Z) (s : ProbeSlot) : ProbeSlot :=
  MkProbeSlot (pi_generation s) (pi_bootId s) (pi_sessionEpoch s) (pi_fingerprint s) (pi_instanceId s) ps_revoked
    (pi_registeredAt s) (pi_expiresAt s) (Some now).

Definition revoke_instance (clock : nat -> Z) (nodeId fingerprint : jsstr) (epoch : Z) (c : ProbeInstanceCommand) : tx ProbeSlot :=
  _ ← check_instance_command nodeId fingerprint epoch c;
  machine ← read_machine nodeId fingerprint;
  _ ← requireProbeMachine machine nodeId (ic_bootId c) epoch (clock 0%nat) false;
  current ← lock_instance nodeId;
  let now := clock 1%nat in
  _ ← requireProbeMachine machine nodeId (ic_bootId c) epoch now false;
  match current with
  | None => instance_conflict
  | Some s =>
      if negb (pi_generation s =? ic_expectedGeneration c) || negb (str_eqb (pi_instanceId s) (ic_instanceId c)) then instance_conflict else
      if negb (bool_decide (pi_state s = ps_registered)) then mret s else
      let next := revoke_slot now s in
      _ ← replace_instance nodeId (pi_generation s) next; mret next
  end.

Definition state_name (s : SlotState) : InstanceState := match s with ps_registered => is_registered | ps_revoked => is_revoked | ps_quarantined => is_quarantined end.

(** The current instance is not of this machine, or is not live. *)
Definition stale (now : Z) (bootId fingerprint : jsstr) (epoch : Z) (e : ProbeMachineEvidence) (s : ProbeSlot) : bool :=
  negb (str_eqb (pi_bootId s) bootId) || negb (pi_sessionEpoch s =? epoch) || negb (str_eqb (pi_fingerprint s) fingerprint) ||
  (now <? pi_registeredAt s) || (pi_expiresAt s <=? now) || negb (forallb (includes (pe_capabilities e)) direct_capabilities).

Definition inspect_instance (now : Z) (nodeId fingerprint : jsstr) (epoch : Z) (bootId : jsstr) : tx (Z * InstanceState * option ProbeSlot) :=
  _ ← check_identity nodeId fingerprint epoch bootId;
  machine ← read_machine nodeId fingerprint;
  current ← read_instance nodeId;
  evidence ← requireProbeMachine machine nodeId bootId epoch now false;
  mret (generation_of current,
        match current with
        | None => is_absent
        | Some s => if bool_decide (pi_state s = ps_registered) then if stale now bootId fingerprint epoch evidence s then is_stale else is_registered
                    else state_name (pi_state s)
        end, current).
