(* ===== verification/ProbePlans.v ===== *)
(** Probe plans (apps/control/src/application/forward-probe-plans.ts,
    infrastructure/mysql-probe-read.ts and mysql-probe-permit-intents.ts): what a Probe of a
    Forward would rest on, read in one transaction.  A plan only reads. *)

From S2P Require Import Prelude.
From S2P Require Import JsString.
From S2P Require Import JsValue.
From S2P Require Import Primitives.
From S2P Require Import Json.
From S2P Require Import Forward.
From S2P Require Import Digest.
From S2P Require Import Types.
From S2P Require Import Validate.
From S2P Require Import Schema.
From S2P Require Import Relay.
From S2P Require Import Adp3.
From S2P Require Import TargetPolicy.
From S2P Require Import Probe.
From S2P Require Import RelayPlan.
From S2P Require Import Iso.
From S2P Require Import Store.
From S2P Require Import Forwarding.
From S2P Require Import Identity.
From S2P Require Import Nodes.

Local Open Scope Z_scope.

(** ** Requests *)

(** [timeoutMs === undefined ? 1000 : timeoutMs], an integer from 100 to 2000 *)
Definition probe_timeout (v : jsv) : option Z :=
  match v with
  | Undefined => Some 1000
  | Num (NInt n) => if (100 <=? n) && (n <=? 2000) then Some n else None
  | _ => None
  end.

(** [Object.keys(input).every(key => keys.includes(key))] of an object *)
Definition only_keys (keys : list jsstr) (input : jsv) : option (list (jsstr * jsv)) :=
  fs ← as_object input;
  if forallb (includes keys) (Object_keys fs) then Some fs else None.

Definition plan_keys : list jsstr := [js "version"; js "kind"; js "expectedRevision"; js "timeoutMs"].

(** [version !== 1 || kind !== 'tcp-connect' || !isCounter(expectedRevision) || ...] *)
Definition probe_command (fs : list (jsstr * jsv)) : option (Z * Z) :=
  t ← probe_timeout (get fs (js "timeoutMs"));
  if jsv_eqb (get fs (js "version")) (Num (NInt 1)) && jsv_eqb (get fs (js "kind")) (Str (js "tcp-connect")) && isCounter (get fs (js "expectedRevision")) false
  then Some (the_int (get fs (js "expectedRevision")), t) else None.

Definition plan_request (actor scopeId id_ : jsstr) (input : jsv) : outcome (Z * Z) :=
  _ ← throw_if (negb (is_id actor && is_id scopeId && is_id id_)) "INVALID_CONFIG" "Valid probe identity required";
  match only_keys plan_keys input with
  | None => Throws (invalid "Closed probe-plan request required")
  | Some fs =>
      match probe_command fs with
      | None => Throws (invalid "Supported probe kind/version, expectedRevision and bounded timeoutMs required")
      | Some c => Returns c
      end
  end.

(** [{ version: 1, kind: 'tcp-connect', expectedRevision, timeoutMs }] *)
Definition plan_input (revision timeoutMs : Z) : jsv :=
  Obj [(js "version", Num (NInt 1)); (js "kind", Str (js "tcp-connect")); (js "expectedRevision", Num (NInt revision)); (js "timeoutMs", Num (NInt timeoutMs))].

(** ** Plans *)

Record PublishedProbeSnapshot := MkPublished { ps_bootId : option jsstr; ps_sessionEpoch : Z; ps_credentialUntil : Z; ps_snapshot : RuntimeSnapshot }.

(** The constant members are left out.  [fp_expiresAt] is printed with [toISOString] and
    read back with [Date.parse], its inverse. *)
Record ForwardProbePlan := MkPlan { fp_scopeId : jsstr; fp_binding : ProbeClaimBinding; fp_timeoutMs : Z; fp_plannedAt : jsstr; fp_expiresAt : Z }.

Definition no_metadata (n : AuthorizedNodeFacts) : AuthorizedNodeFacts :=
  MkNodeFacts (nf_nodeId n) (nf_scopeId n) (nf_capabilities n) (nf_allowedListenerAddresses n) (nf_allowedPorts n) (nf_egressPolicyRevision n)
    (nf_allowedDestinationCidrs n) false.

(** The published Assignment runs the intent on its listener. *)
Definition runs_intent (f : Forward) (a : RuntimeAssignment) : bool :=
  (rua_forwardRevision a =? revision f) && bool_decide (rua_role a = direct) && bool_decide (rua_phase a = active) &&
  bool_decide (res_protocol (rua_resource a) = tcp) && str_eqb (res_address (rua_resource a)) (address (ingress_listen (spec f))) &&
  (res_port (rua_resource a) =? listen_port (ingress_listen (spec f))).

Definition same_target (f : Forward) (n : AuthorizedNodeFacts) (c : DirectConfig) : bool :=
  (dc_egressPolicyRevision c =? nf_egressPolicyRevision n) && str_eqb (host (dc_target c)) (host (target (spec f))) &&
  (target_port (dc_target c) =? target_port (target (spec f))).

(** [Math.min(now + 2000, credentialUntil, valid - clockSkewMs)] and the test of the window *)
Definition plan_expiry (now skew : Z) (p : PublishedProbeSnapshot) : option Z :=
  match Date_text (rus_issuedAt (ps_snapshot p)), Date_text (rus_validUntil (ps_snapshot p)) with
  | Some issued, Some valid =>
      let expires := Z.min (Z.min (now + 2000) (ps_credentialUntil p)) (valid - skew) in
      if is_safe_integer expires && (now <? expires) && is_safe_integer issued && (issued <? valid) && (issued <=? now + skew) then Some expires else None
  | _, _ => None
  end.

Definition unavailable {A} (m : string) : tx A := throw "PROBE_UNAVAILABLE" m.

Section Plans.
Context `{Hashing, Schema RelayProfileConfig, Schema RelayOpen, Schema RelayAssignment, Adp2Schemas, Adp3Schemas}.
(** [OCTET_LENGTH] of a JSON column, and the clock policy. *)
Context (octets : json -> Z) (clockSkewMs : Z).

Definition published_row (scopeId nodeId : jsstr) (d : Db) : option (NodeRow * RuntimeNode * SnapshotRow) :=
  n ← db_nodes d !! nodeId;
  r ← db_runtime_nodes d !! nodeId;
  s ← db_snapshots d !! (nodeId, rn_snapshot_generation r);
  if str_eqb (nd_scope_id n) scopeId && negb (nd_revoked n) && (sn_session_epoch s =? rn_session_epoch r) &&
     (octets (runtime_snapshot_json (sn_body s)) <=? 1048576)
  then Some (n, r, s) else None.

Definition read_published (scopeId nodeId : jsstr) : tx (option PublishedProbeSnapshot) :=
  row ← query (published_row scopeId nodeId);
  match row with
  | None => mret None
  | Some (n, r, s) =>
      snapshot ← lift (parseRuntimeMessage Snapshot_ (stringify (runtime_snapshot_json (sn_body s))) 1048576);
      if str_eqb (rus_nodeId snapshot) nodeId && (rus_sessionEpoch snapshot =? rn_session_epoch r) &&
         (rus_snapshotGeneration snapshot =? rn_snapshot_generation r) && bool_decide (Date_text (rus_validUntil snapshot) = Some (sn_valid_until s))
      then mret (Some (MkPublished (rn_boot_id r) (rn_session_epoch r) (default 0 (nd_credential_until n)) snapshot))
      else mret None
  end.

(** The Forward, enabled, Direct, with TCP and an IP literal as its target. *)
Definition probed_forward (scopeId id_ : jsstr) (revision_ : Z) : tx Forward :=
  '(record, deleting, suspended) ← record_of scopeId id_;
  match parseForward (to_jsv (forward_json record)) with
  | Err _ => unavailable "Forward intent is unavailable"
  | Ok f =>
      _ ← require (str_eqb (id f) id_ && str_eqb (Forward.scopeId f) scopeId) "PROBE_UNAVAILABLE" "Forward intent is unavailable";
      _ ← require (revision f =? revision_) "REVISION_CONFLICT" "Forward revision conflict";
      _ ← require (negb deleting && negb suspended && enabled (spec f)) "PROBE_UNAVAILABLE" "An enabled, non-suspended Forward is required";
      _ ← require (negb (bool_decide (is_Some (path_via (spec f)))) && negb (bool_decide (is_Some (transport (spec f)))) && includes (protocols (spec f)) tcp &&
                   bool_decide (is_Some (ipBytes (host (target (spec f))))))
            "UNSUPPORTED_CAPABILITY" "Probe v1 supports Direct TCP with an IP-literal target only";
      mret f
  end.

(** The Node on which the actor may run it, and outside the metadata networks. *)
Definition probed_node (now : Z) (actor scopeId : jsstr) (f : Forward) : tx AuthorizedNodeFacts :=
  n ← authorized now actor f;
  _ ← require (str_eqb (nf_nodeId n) (ingress_nodeId (spec f)) && str_eqb (nf_scopeId n) scopeId && targetAllowed (host (target (spec f))) (no_metadata n))
        "AUTHORIZATION_DENIED" "Probe target is outside the permitted non-metadata network";
  mret n.

(** The one published TCP Assignment of the Forward. *)
Definition probed_assignment (f : Forward) (n : AuthorizedNodeFacts) (s : RuntimeSnapshot) : tx (RuntimeAssignment * DirectConfig) :=
  match List.filter (fun a => str_eqb (rua_forwardId a) (id f) && bool_decide (rua_protocol a = tcp)) (rus_assignments s) with
  | [a] =>
      match rua_driver a with
      | DirectDriver c =>
          _ ← require (runs_intent f a) "PROBE_UNAVAILABLE" "Published active Direct binding must match the intent";
          _ ← require (same_target f n c) "PROBE_UNAVAILABLE" "Published target and network policy must match";
          mret (a, c)
      | _ => unavailable "Published active Direct binding must match the intent"
      end
  | _ => unavailable "Published active Direct binding must match the intent"
  end.

(** [clock 0] is the time at which the Node is authorized, [clock 1] the time of the plan. *)
Definition authorize_plan (clock : nat -> Z) (actor scopeId id_ : jsstr) (input : jsv) : tx ForwardProbePlan :=
  '(revision_, timeoutMs) ← lift (plan_request actor scopeId id_ input);
  _ ← scope actor scopeId true;
  f ← probed_forward scopeId id_ revision_;
  n ← probed_node (clock 0%nat) actor scopeId f;
  current ← read_published scopeId (nf_nodeId n);
  let now := clock 1%nat in
  match current with
  | None => unavailable "Current Node session and Snapshot required"
  | Some p =>
      let s := ps_snapshot p in
      let boot := default [] (ps_bootId p) in
      _ ← require (is_id boot && is_counter false (ps_sessionEpoch p) && str_eqb (rus_nodeId s) (nf_nodeId n) && (rus_sessionEpoch s =? ps_sessionEpoch p))
            "PROBE_UNAVAILABLE" "Current Node session and Snapshot required";
      '(a, c) ← probed_assignment f n s;
      match plan_expiry now clockSkewMs p with
      | None => unavailable "Snapshot or credential time window unavailable"
      | Some expires =>
          planned ← lift (toISOString now);
          _ ← lift (toISOString expires);
          mret (MkPlan scopeId (MkProbeClaimBinding (nf_nodeId n) boot (ps_sessionEpoch p) (rus_snapshotGeneration s) (rua_assignmentId a) id_ revision_
                                  (rua_deploymentGeneration a) (rua_bindingFence a) (rua_configDigest a) (dc_egressPolicyRevision c))
                  timeoutMs planned expires)
      end
  end.

(** [ForwardProbePlans.plan] *)
Definition plan_probe (clock : nat -> Z) (actor scopeId id_ : jsstr) (input : jsv) : tx ForwardProbePlan :=
  '(revision_, timeoutMs) ← lift (plan_request actor scopeId id_ input);
  authorize_plan clock actor scopeId id_ (plan_input revision_ timeoutMs).
End Plans.
