(* ===== verification/ProbePermits.v ===== *)
(** Probe permits (apps/control/src/application/probe-permits.ts, forward-probes.ts,
    modules/probe-permit-state.ts and infrastructure/mysql-probe-permits.ts): one-use
    permissions for one TCP connect, their withdrawal and the reported result.

    [clock i] is the sample [i] of the clock in an operation, as in [ProbeInstances]. *)

From S2P Require Import Prelude.
From S2P Require Import JsString.
From S2P Require Import JsValue.
From S2P Require Import Primitives.
From S2P Require Import Json.
From S2P Require Import Forward.
From S2P Require Import Digest.
From S2P Require Import Types.
From S2P Require Import Validate.
From S2P Require Import Schema.
From S2P Require Import Relay.
From S2P Require Import Adp3.
From S2P Require Import Probe.
From S2P Require Import RelayPlan.
From S2P Require Import Endpoint.
From S2P Require Import PathContract.
From S2P Require Import Iso.
From S2P Require Import Store.
From S2P Require Import Idempotency.
From S2P Require Import Identity.
From S2P Require Import ForwardCommands.
From S2P Require Import TransitDelivery.
From S2P Require Import ProbeInstances.
From S2P Require Import ProbePlans.

Local Open Scope Z_scope.

#[export] Instance ProbeClaimBinding_eq_dec : EqDecision ProbeClaimBinding.
Proof. solve_decision. Defined.

(** ** Records *)

Definition valid_binding (b : ProbeClaimBinding) : bool :=
  is_id (pb_nodeId b) && is_id (pb_bootId b) && is_id (pb_assignmentId b) && is_id (pb_forwardId b) &&
  is_counter false (pb_sessionEpoch b) && is_counter false (pb_snapshotGeneration b) && is_counter false (pb_forwardRevision b) &&
  is_counter false (pb_deploymentGeneration b) && is_counter false (pb_bindingFence b) && is_counter false (pb_egressPolicyRevision b) &&
  is_fingerprint (pb_configDigest b).

Definition same_binding (a b : ProbeClaimBinding) : bool := valid_binding a && valid_binding b && bool_decide (a = b).

(** [validProbePermit] of a record under its identifier *)
Definition valid_permit (id_ : jsstr) (p : ProbePermit) : bool :=
  is_id id_ && is_id (pp_actorId p) && is_id (pp_scopeId p) && valid_binding (pp_binding p) && is_hex64 (pp_instanceId p) && is_hex64 (pp_fingerprint p) &&
  is_counter false (pp_instanceGeneration p) && (100 <=? pp_timeoutMs p) && (pp_timeoutMs p <=? 2000) &&
  is_safe_integer (pp_issuedAt p) && (0 <=? pp_issuedAt p) && is_safe_integer (pp_expiresAt p) && (pp_issuedAt p <? pp_expiresAt p) &&
  (pp_expiresAt p - pp_issuedAt p <=? 2000) &&
  match pp_state p with
  | pm_issued => bool_decide (pp_closedAt p = None)
  | _ => match pp_closedAt p with Some t => is_safe_integer t && (0 <=? t) | None => false end
  end.

Abbreviation permit_record := (jsstr * ProbePermit)%type.

Definition set_closed (s : PermitState) (at_ : Z) (p : ProbePermit) : ProbePermit :=
  MkProbePermit (pp_actorId p) (pp_scopeId p) (pp_binding p) (pp_instanceId p) (pp_instanceGeneration p) (pp_fingerprint p) (pp_timeoutMs p)
    (pp_issuedAt p) (pp_expiresAt p) s (Some at_).

(** ** The store *)

Definition by_key {V} (a b : jsstr * V) : bool := str_leb a.1 b.1.

(** [SELECT ... ORDER BY id LIMIT 257] *)
Definition bounded_rows {V} (get : Db -> gmap jsstr V) : tx (list (jsstr * V)) := query (fun d => take 257 (sort_by by_key (map_to_list (get d)))).

(** [UPDATE probe_permit_budget SET observed_at=? WHERE id=1 AND observed_at<=?] *)
Definition set_clock (now : Z) : tx unit :=
  ok ← query (fun d => db_probe_clock d <=? now);
  _ ← require ok "CLOCK_UNCERTAIN" "Probe budget clock changed";
  modify (with_probe_clock (fun _ => now)).

(** The permit is deleted by [DELETE FROM probe_permits WHERE expires_at<=?]. *)
Definition pruned (before : Z) (d : Db) (id_ : jsstr) : bool :=
  match db_permits d !! id_ with Some p => pp_expiresAt p <=? before | None => false end.

Definition unpruned {V} (before : Z) (d : Db) (m : gmap jsstr V) : gmap jsstr V := filter (fun kv => pruned before d kv.1 = false) m.

(** The withdrawal and the result of a deleted permit are deleted with it. *)
Definition prune (before : Z) : tx unit :=
  if 0 <=? before
  then modify (fun d => with_permits (unpruned before d) (with_withdrawals (unpruned before d) (with_probe_results (unpruned before d) d)))
  else mret tt.

Definition insert_permit (id_ : jsstr) (p : ProbePermit) : tx unit :=
  _ ← require (valid_permit id_ p && bool_decide (pp_state p = pm_issued)) "PROBE_PERMIT_CORRUPT" "Invalid new Probe permit";
  insert_row db_permits with_permits id_ p.

Definition permit_unavailable {A} : tx A := throw "PROBE_PERMIT_UNAVAILABLE" "Current unused Probe permit and binding required".
Definition require_available (b : bool) : tx unit := require b "PROBE_PERMIT_UNAVAILABLE" "Current unused Probe permit and binding required".

Definition close_permit (id_ : jsstr) (s : PermitState) (at_ : Z) : tx unit :=
  _ ← require (is_safe_integer at_ && (0 <=? at_)) "PROBE_PERMIT_CORRUPT" "Invalid Probe permit closure";
  matched ← query (fun d => match db_permits d !! id_ with Some p => bool_decide (pp_state p = pm_issued) | None => false end);
  _ ← require matched "PROBE_PERMIT_UNAVAILABLE" "Probe permit already closed";
  modify (with_permits (alter (set_closed s at_) id_)).

(** The row that [INSERT ... SELECT] copies: consumed, and closed from its issue to now. *)
Definition withdrawable (at_ : Z) (p : ProbePermit) : bool :=
  bool_decide (pp_state p = pm_consumed) && match pp_closedAt p with Some t => (pp_issuedAt p <=? t) && (t <=? at_) | None => false end.

Definition withdraw_permit (id_ : jsstr) (at_ : Z) : tx unit :=
  _ ← require (is_safe_integer at_ && (0 <=? at_)) "PROBE_PERMIT_CORRUPT" "Invalid Probe withdrawal";
  matched ← query (fun d => match db_permits d !! id_ with Some p => withdrawable at_ p | None => false end);
  _ ← require matched "PROBE_PERMIT_UNAVAILABLE" "Consumed Probe permit required";
  insert_row db_withdrawals with_withdrawals id_ at_.

(** [GREATEST(?, closed_at)] of every consumed permit that has no withdrawal *)
Definition quarantined_withdrawals (now : Z) (d : Db) : gmap jsstr Z :=
  db_withdrawals d ∪ omap (fun p => match pp_state p, pp_closedAt p with pm_consumed, Some t => Some (Z.max now t) | _, _ => None end) (db_permits d).

Definition quarantine_permits (clock : nat -> Z) : tx unit :=
  _ ← modify (with_permits (fmap (fun p => if bool_decide (pp_state p = pm_issued) then set_closed pm_quarantined (clock 0%nat) p else p)));
  modify (fun d => with_withdrawals (fun _ => quarantined_withdrawals (clock 1%nat) d) d).

(** ** Budget *)

Record ProbeBudget := MkBudget { bg_records : list permit_record; bg_withdrawals : list (jsstr * Z); bg_now : Z }.

Definition clock_limit : Z := 8640000000000000 - 3000.

Definition permit_now (observedAt now : Z) : tx Z :=
  _ ← require (is_safe_integer observedAt && (0 <=? observedAt) && is_safe_integer now && (observedAt <=? now) && (now <=? clock_limit))
        "CLOCK_UNCERTAIN" "Probe permit clock requires operator review";
  mret now.

Definition find_permit (records : list permit_record) (id_ : jsstr) : option ProbePermit :=
  snd <$> find (fun r : permit_record => str_eqb r.1 id_) records.

Definition valid_withdrawal (records : list permit_record) (w : jsstr * Z) : bool :=
  is_id w.1 && is_safe_integer w.2 &&
  match find_permit records w.1 with
  | Some p => bool_decide (pp_state p = pm_consumed) && match pp_closedAt p with Some t => Z.max t (pp_issuedAt p) <=? w.2 | None => false end
  | None => false
  end.

Section Permits.
Context `{Hashing, Schema RelayProfileConfig, Schema RelayOpen, Schema RelayAssignment, Adp2Schemas, Adp3Schemas, Schema ProbeResultRequest}.
Context (octets : json -> Z) (clockSkewMs : Z) (uuid : Db -> jsstr).

Definition lock_permits : tx (Z * list permit_record * list (jsstr * Z)) :=
  observed ← query db_probe_clock;
  records ← bounded_rows db_permits;
  _ ← require (forallb (fun r => (octets (probe_binding_json (pp_binding r.2)) <=? 2048) && valid_permit r.1 r.2) records)
        "PROBE_PERMIT_CORRUPT" "Invalid persisted Probe permit";
  withdrawals ← bounded_rows db_withdrawals;
  mret (observed, records, withdrawals).

Definition budget (sample : Z) : tx ProbeBudget :=
  '(observed, records, withdrawals) ← lock_permits;
  _ ← require ((Z.of_nat (length records) <=? 256) && forallb (fun r => valid_permit r.1 r.2) records && bool_decide (NoDup (map fst records)) &&
               (Z.of_nat (length withdrawals) <=? 256) && bool_decide (NoDup (map fst withdrawals)) && forallb (valid_withdrawal records) withdrawals)
        "PROBE_PERMIT_CORRUPT" "Invalid persisted Probe permits";
  now ← permit_now observed sample;
  _ ← require (forallb (fun r : permit_record => pp_issuedAt r.2 <=? now) records && forallb (fun w : jsstr * Z => w.2 <=? now) withdrawals)
        "CLOCK_UNCERTAIN" "Probe permit history is in the future";
  mret (MkBudget records withdrawals now).

Definition withdrawn_in (b : ProbeBudget) (id_ : jsstr) : option Z := snd <$> find (fun w : jsstr * Z => str_eqb w.1 id_) (bg_withdrawals b).

(** ** Current authority *)

(** The registered instance of the Node and the evidence about its machine. *)
Definition registered (nodeId bootId : jsstr) (epoch : Z) (instanceId : jsstr) (generation : Z) (fingerprint : option jsstr)
    : tx (ProbeSlot * option ProbeMachineEvidence) :=
  slot ← read_instance nodeId;
  match slot with
  | None => permit_unavailable
  | Some s =>
      _ ← require_available (is_hex64 (pi_fingerprint s) && bool_decide (pi_state s = ps_registered) && str_eqb (pi_instanceId s) instanceId &&
            (pi_generation s =? generation) && str_eqb (pi_bootId s) bootId && (pi_sessionEpoch s =? epoch) &&
            is_safe_integer (pi_registeredAt s) && is_safe_integer (pi_expiresAt s) && (0 <=? pi_registeredAt s) && (pi_registeredAt s <? pi_expiresAt s) &&
            (pi_expiresAt s - pi_registeredAt s <=? 30000) && match fingerprint with Some f => str_eqb (pi_fingerprint s) f | None => true end);
      machine ← read_machine nodeId (pi_fingerprint s);
      mret (s, machine)
  end.

(** [this.current] *)
Definition current_instance (b : ProbeClaimBinding) (instanceId : jsstr) (generation : Z) (fingerprint : option jsstr) : tx (ProbeSlot * option ProbeMachineEvidence) :=
  _ ← require_available (valid_binding b);
  registered (pb_nodeId b) (pb_bootId b) (pb_sessionEpoch b) instanceId generation fingerprint.

Definition slot_live (now : Z) (s : ProbeSlot) : bool := (pi_registeredAt s <=? now) && (now <? pi_expiresAt s).

(** [closedAt !== null && (closedAt < issuedAt || closedAt > now)] rejects. *)
Definition closed_in_time (now : Z) (p : ProbePermit) : bool :=
  match pp_closedAt p with Some t => (pp_issuedAt p <=? t) && (t <=? now) | None => true end.

(** Everything the permit rests on is still there: the time at which that was seen. *)
Definition authorize_permit (clock : nat -> Z) (floor_ : Z) (p : ProbePermit) : tx Z :=
  let b := pp_binding p in
  plan ← authorize_plan octets clockSkewMs clock (pp_actorId p) (pp_scopeId p) (pb_forwardId b) (plan_input (pb_forwardRevision b) (pp_timeoutMs p));
  _ ← require_available (str_eqb (fp_scopeId plan) (pp_scopeId p) && (fp_timeoutMs plan =? pp_timeoutMs p) && same_binding (fp_binding plan) b);
  '(slot, machine) ← current_instance b (pp_instanceId p) (pp_instanceGeneration p) (Some (pp_fingerprint p));
  now ← permit_now floor_ (clock 2%nat);
  evidence ← requireProbeMachine machine (pb_nodeId b) (pb_bootId b) (pb_sessionEpoch b) now true;
  let upper := evidence_until (Z.min (fp_expiresAt plan) (pi_expiresAt slot)) evidence in
  _ ← require_available ((pp_issuedAt p <=? now) && closed_in_time now p && (now <? pp_expiresAt p) && slot_live now slot &&
        is_safe_integer upper && (pp_expiresAt p <=? upper));
  mret now.

Definition finish (now : Z) : tx unit := _ ← prune (now - 1000); set_clock now.

(** ** Issuance *)

Record IssueCommand := MkIssue { is_expectedRevision : Z; is_instanceId : jsstr; is_instanceGeneration : Z; is_timeoutMs : Z }.

Definition issue_input (actor scopeId forwardId : jsstr) (input : jsv) (selectCurrent : bool) : outcome IssueCommand :=
  match only_keys (plan_keys ++ if selectCurrent then [] else [js "instanceId"; js "instanceGeneration"]) input with
  | None => Throws (invalid "Closed Probe permit request required")
  | Some fs =>
      match probe_command fs with
      | Some (revision_, timeoutMs) =>
          _ ← throw_if (negb (is_id actor && is_id scopeId && is_id forwardId) ||
                        negb selectCurrent && (negb (isCounter (get fs (js "instanceGeneration")) false) || negb (str_and is_hex64 (get fs (js "instanceId")))))
                "INVALID_CONFIG" "Valid Probe permit revision, instance and bounded timeout required";
          Returns (MkIssue revision_ (the_string (get fs (js "instanceId"))) (the_int (get fs (js "instanceGeneration"))) timeoutMs)
      | None => Throws (invalid "Valid Probe permit revision, instance and bounded timeout required")
      end
  end.

(** The instance the permit is for: the current one of the Node, or the one that was named. *)
Definition select_instance (c : IssueCommand) (selectCurrent : bool) (nodeId : jsstr) : tx (jsstr * Z) :=
  if selectCurrent then
    slot ← read_instance nodeId;
    match slot with Some s => mret (pi_instanceId s, pi_generation s) | None => permit_unavailable end
  else mret (is_instanceId c, is_instanceGeneration c).

(** Live permits, and permits of the last second, count against the budget. *)
Definition within_budget (now : Z) (records : list permit_record) (actor nodeId : jsstr) : bool :=
  let retained := List.filter (fun r : permit_record => now <? pp_expiresAt r.2 + 1000) records in
  let live := List.filter (fun r : permit_record => now <? pp_expiresAt r.2) retained in
  (length retained <? 256)%nat && (length live <? 4)%nat &&
  negb (existsb (fun r : permit_record => str_eqb (pp_actorId r.2) actor || str_eqb (pb_nodeId (pp_binding r.2)) nodeId) retained).

Definition issue_in (clock : nat -> Z) (actor scopeId forwardId : jsstr) (c : IssueCommand) (selectCurrent : bool) : tx permit_record :=
  _ ← scope actor scopeId true;
  b ← budget (clock 0%nat);
  plan ← authorize_plan octets clockSkewMs (fun i => clock (1 + i)%nat) actor scopeId forwardId (plan_input (is_expectedRevision c) (is_timeoutMs c));
  let binding := fp_binding plan in
  _ ← require_available (str_eqb (fp_scopeId plan) scopeId && str_eqb (pb_forwardId binding) forwardId && (pb_forwardRevision binding =? is_expectedRevision c) &&
        (fp_timeoutMs plan =? is_timeoutMs c));
  '(instanceId, generation) ← select_instance c selectCurrent (pb_nodeId binding);
  _ ← require_available (is_hex64 instanceId && is_counter false generation);
  '(slot, machine) ← current_instance binding instanceId generation None;
  now ← permit_now (bg_now b) (clock 3%nat);
  evidence ← requireProbeMachine machine (pb_nodeId binding) (pb_bootId binding) (pb_sessionEpoch binding) now true;
  _ ← require_available (slot_live now slot);
  _ ← require (within_budget now (bg_records b) actor (pb_nodeId binding)) "PROBE_PERMIT_LIMIT" "Probe issuance budget or cooldown is exhausted";
  let expiresAt := evidence_until (Z.min (Z.min (now + 2000) (fp_expiresAt plan)) (pi_expiresAt slot)) evidence in
  _ ← require_available (is_safe_integer expiresAt && (now <? expiresAt));
  id_ ← query uuid;
  let p := MkProbePermit actor scopeId binding instanceId generation (pi_fingerprint slot) (is_timeoutMs c) now expiresAt pm_issued None in
  _ ← require_available (valid_permit id_ p);
  _ ← finish now;
  _ ← insert_permit id_ p;
  mret (id_, p).

Definition issue_permit (clock : nat -> Z) (actor scopeId forwardId : jsstr) (input : jsv) : tx permit_record :=
  c ← lift (issue_input actor scopeId forwardId input false);
  issue_in clock actor scopeId forwardId c false.

Definition issueCurrentIn (clock : nat -> Z) (actor scopeId forwardId : jsstr) (input : jsv) : tx permit_record :=
  c ← lift (issue_input actor scopeId forwardId input true);
  issue_in clock actor scopeId forwardId c true.

(** [ForwardProbes.create]: the request, once, while issuance is enabled. *)
Definition create_probe (enabled_ : bool) (clock : nat -> Z) (actor scopeId forwardId : jsstr) (key : option jsstr) (input : jsv) : tx Response :=
  match (if is_id forwardId then only_keys plan_keys input else None) with
  | None => invalid_input "Closed Forward Probe request required"
  | Some fs =>
      match probe_command fs with
      | None => invalid_input "Supported Probe request and bounded timeout required"
      | Some (revision_, timeoutMs) =>
          request ← lift (requestIdentity actor scopeId key (js "POST") (slash (forward_path scopeId forwardId) (js "probes"))
                            (JObj [(js "version", JInt 1); (js "kind", JStr (js "tcp-connect")); (js "expectedRevision", JInt revision_); (js "timeoutMs", JInt timeoutMs)]));
          _ ← scope actor scopeId true;
          once request
            (_ ← require enabled_ "PROBE_DISABLED" "Probe execution issuance is disabled";
             '(id_, p) ← issueCurrentIn clock actor scopeId forwardId (plan_input revision_ timeoutMs);
             issued ← lift (toISOString (pp_issuedAt p));
             expires ← lift (toISOString (pp_expiresAt p));
             mret (MkResponse 202 (JObj [(js "probeId", JStr id_); (js "forwardId", JStr forwardId); (js "issuedAt", JStr issued); (js "expiresAt", JStr expires);
                                         (js "dispatch", JStr (js "agent-poll")); (js "executionEnabled", JBool false)])))
      end
  end.

(** ** The machine *)

(** The closed object of a machine command; only some commands name a permit. *)
Record MachineCommand := MkMachineCommand { mcm_permitId : jsstr; mcm_bootId : jsstr; mcm_instanceId : jsstr; mcm_instanceGeneration : Z }.

Definition machine_command (nodeId fingerprint : jsstr) (epoch : Z) (c : MachineCommand) (withPermit : bool) : tx unit :=
  require (is_id nodeId && is_id (mcm_bootId c) && (negb withPermit || is_id (mcm_permitId c)) && is_hex64 fingerprint && is_hex64 (mcm_instanceId c) &&
           is_counter false epoch && is_counter false (mcm_instanceGeneration c)) "INVALID_CONFIG" "Valid current Probe machine required".

(** The permit is for this Node, boot, session, credential and instance. *)
Definition permit_of (nodeId fingerprint : jsstr) (epoch : Z) (c : MachineCommand) (p : ProbePermit) : bool :=
  str_eqb (pb_nodeId (pp_binding p)) nodeId && str_eqb (pb_bootId (pp_binding p)) (mcm_bootId c) && (pb_sessionEpoch (pp_binding p) =? epoch) &&
  str_eqb (pp_fingerprint p) fingerprint && str_eqb (pp_instanceId p) (mcm_instanceId c) && (pp_instanceGeneration p =? mcm_instanceGeneration c).

Definition consume_permit (clock : nat -> Z) (nodeId fingerprint : jsstr) (epoch : Z) (c : MachineCommand) : tx permit_record :=
  _ ← machine_command nodeId fingerprint epoch c true;
  b ← budget (clock 0%nat);
  match find_permit (bg_records b) (mcm_permitId c) with
  | None => permit_unavailable
  | Some p =>
      _ ← require_available (bool_decide (pp_state p = pm_issued) && permit_of nodeId fingerprint epoch c p);
      now ← authorize_permit (fun i => clock (1 + i)%nat) (bg_now b) p;
      _ ← close_permit (mcm_permitId c) pm_consumed now;
      _ ← finish now;
      mret (mcm_permitId c, set_closed pm_consumed now p)
  end.

(** The observation time and the permit that waits for the instance. *)
Definition offer_permit (clock : nat -> Z) (nodeId fingerprint : jsstr) (epoch : Z) (c : MachineCommand) : tx (Z * option permit_record) :=
  _ ← machine_command nodeId fingerprint epoch c false;
  b ← budget (clock 0%nat);
  '(slot, machine) ← registered nodeId (mcm_bootId c) epoch (mcm_instanceId c) (mcm_instanceGeneration c) (Some fingerprint);
  now ← permit_now (bg_now b) (clock 1%nat);
  _ ← requireProbeMachine machine nodeId (mcm_bootId c) epoch now true;
  _ ← require_available (slot_live now slot);
  match List.filter (fun r : permit_record => bool_decide (pp_state r.2 = pm_issued) && (now <? pp_expiresAt r.2) && permit_of nodeId fingerprint epoch c r.2) (bg_records b) with
  | [] => mret (now, None)
  | [r] => now' ← authorize_permit (fun i => clock (2 + i)%nat) now r.2; mret (now', Some r)
  | _ => throw "PROBE_PERMIT_CORRUPT" "Ambiguous Probe delivery"
  end.

Definition check_permit (clock : nat -> Z) (nodeId fingerprint : jsstr) (epoch : Z) (c : MachineCommand) : tx (permit_record * Z) :=
  _ ← machine_command nodeId fingerprint epoch c true;
  b ← budget (clock 0%nat);
  match find_permit (bg_records b) (mcm_permitId c) with
  | None => permit_unavailable
  | Some p =>
      _ ← require_available (bool_decide (pp_state p = pm_consumed) && bool_decide (withdrawn_in b (mcm_permitId c) = None) && permit_of nodeId fingerprint epoch c p);
      now ← authorize_permit (fun i => clock (1 + i)%nat) (bg_now b) p;
      mret ((mcm_permitId c, p), now)
  end.

(** ** Results *)

Definition set_requestId (r : jsstr) (q : ProbeResultRequest) : ProbeResultRequest :=
  MkProbeResultRequest (prq_machine q) (prq_permitId q) r (prq_binding q) (prq_timeoutMs q) (prq_issuedAt q) (prq_expiresAt q) (prq_consumedAt q)
    (prq_measuredAt q) (prq_validUntil q) (prq_elapsedMs q) (prq_status q) (prq_code q).

(** The stored body, parsed again under a request id, has the stored digest, belongs to
    the permit and was accepted in its window; a body over 4096 octets reads as [NULL]. *)
Definition intact_result (id_ requestId : jsstr) (now : Z) (more : ProbeResultRequest -> bool) (r : ProbeResultRow) : bool :=
  (octets (JObj (probe_result_body_fields (pr_body r))) <=? 4096) &&
  match (q ← parseProbeResultRequest (stringify (document (set_requestId requestId (pr_body r)))); dg ← probeResultDigest q; Returns (q, dg)) with
  | Returns (q, dg) =>
      str_eqb dg (pr_digest r) && str_eqb (prq_permitId q) id_ && more q && is_safe_integer (pr_accepted_at r) &&
      negb (n_lt (Some (pr_accepted_at r)) (Date_ms (prq_measuredAt q))) && negb (n_le (Date_ms (prq_validUntil q)) (Some (pr_accepted_at r))) &&
      (pr_accepted_at r <=? now)
  | Throws _ => false
  end.

(** [permit] is the one the result is about, in the words of the request. *)
Definition reports_permit (fingerprint : jsstr) (q : ProbeResultRequest) (p : ProbePermit) : tx bool :=
  let m := prq_machine q in
  if negb (str_eqb (pp_fingerprint p) fingerprint && str_eqb (pp_instanceId p) (pm_instanceId m) && (pp_instanceGeneration p =? pm_instanceGeneration m) &&
           same_binding (pp_binding p) (prq_binding q) && (pp_timeoutMs p =? prq_timeoutMs q)) then mret false else
  issued ← lift (toISOString (pp_issuedAt p));
  if negb (str_eqb issued (prq_issuedAt q)) then mret false else
  expires ← lift (toISOString (pp_expiresAt p));
  if negb (str_eqb expires (prq_expiresAt q)) then mret false else
  match pp_closedAt p with
  | None => mret false
  | Some t => closed ← lift (toISOString t); mret (str_eqb closed (prq_consumedAt q))
  end.

(** [INSERT INTO probe_results]: the table admits bodies up to 4096 octets. *)
Definition record_result (q : ProbeResultRequest) (resultDigest : jsstr) (acceptedAt : Z) : tx unit :=
  _ ← require (octets (JObj (probe_result_body_fields q)) <=? 4096) "ER_CHECK_CONSTRAINT_VIOLATED" "Check constraint 'probe_result_size' is violated.";
  insert_row db_probe_results with_probe_results (prq_permitId q) (MkProbeResultRow q resultDigest acceptedAt).

Record ProbeReceipt := MkProbeReceipt { rx_resultDigest : jsstr; rx_acceptedAt : Z; rx_checkedAt : Z; rx_duplicate : bool }.

(** [Date.parse(measuredAt) > now || Date.parse(validUntil) <= now] rejects. *)
Definition measured_in_time (now : Z) (q : ProbeResultRequest) : bool :=
  negb (n_lt (Some now) (Date_ms (prq_measuredAt q))) && negb (n_le (Date_ms (prq_validUntil q)) (Some now)).

Definition accept_result (now later : Z) (q : ProbeResultRequest) (resultDigest : jsstr) (p : ProbePermit) (previous : option ProbeResultRow) : tx ProbeReceipt :=
  match previous with
  | Some r =>
      _ ← require (intact_result (prq_permitId q) (prq_requestId q) now (fun _ => true) r) "PROBE_RESULT_CORRUPT" "Invalid persisted Probe result";
      _ ← require (str_eqb (pr_digest r) resultDigest) "PROBE_RESULT_CONFLICT" "This Probe permit already has a different result";
      mret (MkProbeReceipt resultDigest (pr_accepted_at r) now true)
  | None =>
      _ ← record_result q resultDigest now;
      _ ← set_clock now;
      checkedAt ← permit_now now later;
      _ ← require_available (negb (n_le (Date_ms (prq_validUntil q)) (Some checkedAt)) && (checkedAt <? pp_expiresAt p));
      mret (MkProbeReceipt resultDigest now checkedAt false)
  end.

Definition receive_result (clock : nat -> Z) (nodeId fingerprint : jsstr) (epoch : Z) (input : ProbeResultRequest) : tx ProbeReceipt :=
  q ← lift (parseProbeResultRequest (stringify (document input)));
  let m := prq_machine q in
  _ ← require (str_eqb (pm_nodeId m) nodeId && (pm_sessionEpoch m =? epoch)) "SESSION_SUPERSEDED" "Probe result Node/session differs";
  _ ← machine_command nodeId fingerprint epoch (MkMachineCommand (prq_permitId q) (pm_bootId m) (pm_instanceId m) (pm_instanceGeneration m)) true;
  resultDigest ← lift (probeResultDigest q);
  b ← budget (clock 0%nat);
  match find_permit (bg_records b) (prq_permitId q) with
  | None => permit_unavailable
  | Some p =>
      _ ← require_available (bool_decide (pp_state p = pm_consumed) && bool_decide (withdrawn_in b (prq_permitId q) = None));
      matches ← reports_permit fingerprint q p;
      _ ← require_available matches;
      authorizedAt ← authorize_permit (fun i => clock (1 + i)%nat) (bg_now b) p;
      previous ← query (fun d => db_probe_results d !! prq_permitId q);
      now ← permit_now authorizedAt (clock 4%nat);
      _ ← require_available (measured_in_time now q && (now <? pp_expiresAt p));
      accept_result now (clock 5%nat) q resultDigest p previous
  end.

(** ** Management *)

Definition permit_in (b : ProbeBudget) (scopeId id_ : jsstr) : option ProbePermit :=
  snd <$> find (fun r : permit_record => str_eqb r.1 id_ && str_eqb (pp_scopeId r.2) scopeId) (bg_records b).

(** The permit, closed if it was open, and since when it is withdrawn. *)
Definition revoke_permit (clock : nat -> Z) (actor scopeId id_ : jsstr) : tx (permit_record * option Z) :=
  _ ← require (is_id actor && is_id scopeId && is_id id_) "INVALID_CONFIG" "Valid Probe revocation identity required";
  _ ← scope actor scopeId true;
  b ← budget (clock 0%nat);
  match permit_in b scopeId id_ with
  | None => notFound
  | Some p =>
      now ← permit_now (bg_now b) (clock 1%nat);
      match pp_state p with
      | pm_consumed =>
          match withdrawn_in b id_ with
          | Some t => mret ((id_, p), Some t)
          | None =>
              _ ← require_available (match pp_closedAt p with Some t => (pp_issuedAt p <=? t) && (t <=? now) | None => false end);
              _ ← withdraw_permit id_ now;
              _ ← finish now;
              mret ((id_, p), Some now)
          end
      | pm_issued =>
          _ ← close_permit id_ pm_revoked now;
          _ ← finish now;
          mret ((id_, set_closed pm_revoked now p), None)
      | _ => mret ((id_, p), None)
      end
  end.

(** The result of an inspected permit agrees with it in every member. *)
Definition result_of_permit (p : ProbePermit) (q : ProbeResultRequest) : bool :=
  bool_decide (pp_state p = pm_consumed) && same_binding (prq_binding q) (pp_binding p) && str_eqb (pm_instanceId (prq_machine q)) (pp_instanceId p) &&
  (pm_instanceGeneration (prq_machine q) =? pp_instanceGeneration p) && (prq_timeoutMs q =? pp_timeoutMs p) &&
  bool_decide (Date_ms (prq_issuedAt q) = Some (pp_issuedAt p)) && bool_decide (Date_ms (prq_expiresAt q) = Some (pp_expiresAt p)) &&
  bool_decide (is_Some (pp_closedAt p) /\ Date_ms (prq_consumedAt q) = pp_closedAt p).

(** A receipt: the permit, whether it has expired, its withdrawal, its result and whether that has expired. *)
Definition inspect_permit (clock : nat -> Z) (actor scopeId id_ : jsstr) : tx (permit_record * bool * option Z * option (ProbeResultRow * bool)) :=
  _ ← require (is_id actor && is_id scopeId && is_id id_) "INVALID_CONFIG" "Valid Probe receipt identity required";
  _ ← scope actor scopeId true;
  b ← budget (clock 0%nat);
  match permit_in b scopeId id_ with
  | None => notFound
  | Some p =>
      result ← query (fun d => db_probe_results d !! id_);
      now ← permit_now (bg_now b) (clock 1%nat);
      _ ← require (match result with Some r => intact_result id_ (replicate 64 48) now (result_of_permit p) r | None => true end)
            "PROBE_RESULT_CORRUPT" "Invalid persisted Probe result";
      mret ((id_, p), pp_expiresAt p <=? now, withdrawn_in b id_,
            (fun r => (r, n_le (Date_ms (prq_validUntil (pr_body r))) (Some now))) <$> result)
  end.
End Permits.
