(* ===== verification/ProbeMoves.v ===== *)
(** The Probe tables over time: what is consistent, what may change, and that the
    statements of the permit store keep it.

    [sound_step] is the relation all of them satisfy.  It is a preorder, so that a command
    satisfies it when its statements do. *)

From S2P Require Import Prelude.
From S2P Require Import JsString.
From S2P Require Import Primitives.
From S2P Require Import Json.
From S2P Require Import Types.
From S2P Require Import Relay.
From S2P Require Import Probe.
From S2P Require Import RelayPlan.
From S2P Require Import Store.
From S2P Require Import ProbeInstances.
From S2P Require Import ProbePermits.

Local Open Scope Z_scope.

(** ** Permits *)

(** Everything of a permit but its state. *)
Definition permit_core (p : ProbePermit) :=
  (pp_actorId p, pp_scopeId p, pp_binding p, pp_instanceId p, pp_instanceGeneration p, pp_fingerprint p, pp_timeoutMs p, pp_issuedAt p, pp_expiresAt p).

(** A permit is closed at most once, and nothing else of it changes. *)
Definition permit_le (p q : ProbePermit) : Prop := permit_core q = permit_core p /\ (pp_state p <> pm_issued -> q = p).

#[export] Instance permit_le_preorder : PreOrder permit_le.
Proof.
  split; [by intros p|]. intros p q r [E1 H1] [E2 H2]. split; [congruence|]. intros Hp. specialize (H1 Hp) as ->. by apply H2.
Qed.

Definition lives (t : Z) (p : ProbePermit) : bool := (pp_issuedAt p <=? t) && (t <? pp_expiresAt p).
Definition live_ids (t : Z) (d : Db) : gset jsstr := dom (filter (fun kv : jsstr * ProbePermit => lives t kv.2 = true) (db_permits d)).

(** Two permits share their actor or their Node; one starts a second after the other ended. *)
Definition contends (p q : ProbePermit) : Prop := pp_actorId p = pp_actorId q \/ pb_nodeId (pp_binding p) = pb_nodeId (pp_binding q).
Definition apart (p q : ProbePermit) : Prop := pp_expiresAt p + 1000 <= pp_issuedAt q \/ pp_expiresAt q + 1000 <= pp_issuedAt p.

Record permits_ok (d : Db) : Prop := {
  po_window : forall i p, db_permits d !! i = Some p -> pp_issuedAt p <= db_probe_clock d /\ pp_issuedAt p < pp_expiresAt p <= pp_issuedAt p + 2000;
  po_apart : forall i j p q, db_permits d !! i = Some p -> db_permits d !! j = Some q -> contends p q -> i = j \/ apart p q;
  po_live : forall t, (size (live_ids t d) <= 4)%nat;
  po_withdrawals : forall i t, db_withdrawals d !! i = Some t -> exists p, db_permits d !! i = Some p /\ pp_state p = pm_consumed;
  po_results : forall i r, db_probe_results d !! i = Some r -> exists p, db_permits d !! i = Some p /\ pp_state p = pm_consumed;
}.

(** The permit has been over for a second. *)
Definition over (d : Db) (p : ProbePermit) : Prop := pp_expiresAt p + 1000 <= db_probe_clock d.

Record permits_le (d d' : Db) : Prop := {
  pl_clock : db_probe_clock d <= db_probe_clock d';
  pl_permits : forall i p, db_permits d !! i = Some p -> over d' p \/ exists q, db_permits d' !! i = Some q /\ permit_le p q;
  pl_new : forall i q, db_permits d' !! i = Some q -> (exists p, db_permits d !! i = Some p /\ permit_le p q) \/ db_probe_clock d <= pp_issuedAt q;
  pl_withdrawals : forall i p t, db_permits d !! i = Some p -> db_withdrawals d !! i = Some t -> over d' p \/ db_withdrawals d' !! i = Some t;
  pl_results : forall i p r, db_permits d !! i = Some p -> db_probe_results d !! i = Some r -> over d' p \/ db_probe_results d' !! i = Some r;
}.

(** Permits of the two states that contend, or have one identifier, are the same permit or
    apart. *)
Definition permits_apart (d d' : Db) : Prop := forall i j p q, db_permits d !! i = Some p -> db_permits d' !! j = Some q -> contends p q \/ i = j ->
  (i = j /\ permit_le p q) \/ apart p q.

Lemma core_expires p q : permit_core q = permit_core p -> pp_expiresAt q = pp_expiresAt p /\ pp_issuedAt q = pp_issuedAt p.
Proof. unfold permit_core. intros E. injection E as E1 E2 E3 E4 E5 E6 E7 E8 E9. done. Qed.

Lemma core_contends p p' q : permit_core p' = permit_core p -> contends p q -> contends p' q.
Proof. unfold permit_core, contends. intros E. injection E as -> E2 -> E4 E5 E6 E7 E8 E9. done. Qed.

Lemma core_apart p p' q : permit_core p' = permit_core p -> apart p' q -> apart p q.
Proof. intros [E1 E2]%core_expires. unfold apart. by rewrite E1, E2. Qed.

Lemma over_le d d' p p' : permit_core p' = permit_core p -> db_probe_clock d <= db_probe_clock d' -> over d p' -> over d' p.
Proof. intros [E _]%core_expires. unfold over. rewrite E. lia. Qed.

Lemma contends_sym p q : contends p q -> contends q p.
Proof. unfold contends. intros [E|E]; [by left|by right]. Qed.

Lemma apart_sym p q : apart p q -> apart q p.
Proof. unfold apart. tauto. Qed.

#[export] Instance permits_le_preorder : PreOrder permits_le.
Proof.
  split.
  - intros d. split; [lia|..]; eauto; intros i p Hp; [right|left]; by exists p.
  - intros d d1 d2 [C1 P1 N1 W1 R1] [C2 P2 N2 W2 R2]. split; [lia|..].
    + intros i p Hp. destruct (P1 i p Hp) as [Ho|(q & Hq & L1)]; [left; by eapply over_le|].
      destruct (P2 i q Hq) as [Ho|(r & Hr & L2)]; [left; eapply over_le; [apply L1|reflexivity|done]|right; exists r; split; [done|by etransitivity]].
    + intros i q Hq. destruct (N2 i q Hq) as [(p & Hp & L2)|Hn]; [|right; lia]. destruct (N1 i p Hp) as [(r & Hr & L1)|Hn].
      * left. exists r. split; [done|by etransitivity].
      * right. destruct (core_expires _ _ (proj1 L2)) as [_ ->]. done.
    + intros i p t Hp Ht. destruct (W1 i p t Hp Ht) as [Ho|Ht1]; [left; by eapply over_le|]. destruct (P1 i p Hp) as [Ho|(q & Hq & L1)]; [left; by eapply over_le|].
      destruct (W2 i q t Hq Ht1) as [Ho|]; [left; eapply over_le; [apply L1|reflexivity|done]|by right].
    + intros i p t Hp Ht. destruct (R1 i p t Hp Ht) as [Ho|Ht1]; [left; by eapply over_le|]. destruct (P1 i p Hp) as [Ho|(q & Hq & L1)]; [left; by eapply over_le|].
      destruct (R2 i q t Hq Ht1) as [Ho|]; [left; eapply over_le; [apply L1|reflexivity|done]|by right].
Qed.

Lemma permits_apart_refl d : permits_ok d -> permits_apart d d.
Proof.
  intros Hok i j p q Hp Hq [Hc| ->]; [|left; split; [done|]; by simplify_eq].
  destruct (po_apart d Hok i j p q Hp Hq Hc) as [->|]; [left; split; [done|]; by simplify_eq|by right].
Qed.

Lemma permits_apart_trans d d1 d2 : permits_le d d1 -> permits_le d1 d2 -> permits_apart d d1 -> permits_apart d1 d2 -> permits_apart d d2.
Proof.
  intros L1 L2 A1 A2 i j p q Hp Hq Hc. destruct (pl_new _ _ L2 j q Hq) as [(q1 & Hq1 & Lq)|Hn].
  - destruct (A1 i j p q1 Hp Hq1) as [[-> Lp]|Ha].
    + destruct Hc as [Hc|Hc]; [left|by right]. apply contends_sym, (core_contends q); [by destruct Lq|by apply contends_sym].
    + left. split; [done|by etransitivity].
    + right. apply apart_sym, (core_apart q q1); [by destruct Lq|by apply apart_sym].
  - destruct (pl_permits _ _ L1 i p Hp) as [Ho|(p1 & Hp1 & Lp)]; [right; left; unfold over in Ho; lia|].
    destruct (A2 i j p1 q Hp1 Hq) as [[-> Lq]|Ha].
    + destruct Hc as [Hc|Hc]; [left|by right]. by eapply core_contends; [apply Lp|].
    + left. split; [done|by etransitivity].
    + right. by eapply core_apart; [apply Lp|].
Qed.

(** ** Sound steps *)

Definition sound_step (d d' : Db) : Prop := permits_ok d -> permits_ok d' /\ permits_le d d' /\ permits_apart d d'.

#[export] Instance sound_step_preorder : PreOrder sound_step.
Proof.
  split; [intros d Hok; split; [done|split; [reflexivity|by apply permits_apart_refl]]|].
  intros d d1 d2 S1 S2 Hok. destruct (S1 Hok) as (K1 & L1 & A1). destruct (S2 K1) as (K2 & L2 & A2).
  split; [done|]. split; [by etransitivity|by eapply permits_apart_trans].
Qed.

Definition permit_tables (d : Db) := (db_probe_clock d, db_permits d, db_withdrawals d, db_probe_results d).

Lemma sound_same d d' : permit_tables d' = permit_tables d -> sound_step d d'.
Proof.
  unfold permit_tables. intros E [A B C D F]. assert (EC : db_probe_clock d' = db_probe_clock d) by congruence. assert (EP : db_permits d' = db_permits d) by congruence.
  assert (EW : db_withdrawals d' = db_withdrawals d) by congruence. assert (ER : db_probe_results d' = db_probe_results d) by congruence.
  assert (Hok : permits_ok d') by (split; unfold live_ids; rewrite ?EP, ?EW, ?ER, ?EC; done). split; [done|].
  assert (L : permits_le d d').
  { split; unfold over; rewrite ?EP, ?EW, ?ER, ?EC; [lia|..]; eauto; intros i p Hp; [right|left]; by exists p. }
  split; [done|]. intros i j p q Hp Hq Hc. rewrite EP in Hq. eapply permits_apart_refl; [by split|done..].
Qed.

Lemma live_ids_spec t d i : i ∈ live_ids t d <-> exists p, db_permits d !! i = Some p /\ lives t p = true.
Proof.
  unfold live_ids. rewrite elem_of_dom. unfold is_Some. setoid_rewrite map_lookup_filter_Some. done.
Qed.

Lemma core_lives t p q : permit_core q = permit_core p -> lives t q = lives t p.
Proof. intros [E1 E2]%core_expires. unfold lives. by rewrite E1, E2. Qed.

(** No permit is added: the others continue or are over. *)
Lemma closing_sound d d' : permits_ok d -> db_probe_clock d <= db_probe_clock d' ->
  (forall i q, db_permits d' !! i = Some q -> exists p, db_permits d !! i = Some p /\ permit_le p q) ->
  (forall i p, db_permits d !! i = Some p -> over d' p \/ exists q, db_permits d' !! i = Some q) ->
  (forall i t, db_withdrawals d' !! i = Some t -> exists p, db_permits d' !! i = Some p /\ pp_state p = pm_consumed) ->
  (forall i p t, db_permits d !! i = Some p -> db_withdrawals d !! i = Some t -> over d' p \/ db_withdrawals d' !! i = Some t) ->
  (forall i r, db_probe_results d' !! i = Some r -> exists p, db_permits d' !! i = Some p /\ pp_state p = pm_consumed) ->
  (forall i p r, db_permits d !! i = Some p -> db_probe_results d !! i = Some r -> over d' p \/ db_probe_results d' !! i = Some r) ->
  permits_ok d' /\ permits_le d d' /\ permits_apart d d'.
Proof.
  intros Hok Hc HQ HP HW HW' HR HR'. split_and!.
  - split; try done.
    + intros i q (p & Hp & [[E1 E2]%core_expires _])%HQ. destruct (po_window d Hok i p Hp). rewrite E1, E2. lia.
    + intros i j p q (p0 & Hp & [Ep _])%HQ (q0 & Hq & [Eq _])%HQ Hcon. destruct (po_apart d Hok i j p0 q0 Hp Hq) as [->|Ha]; [|by left|right].
      * eapply core_contends; [symmetry; exact Ep|]. apply contends_sym. eapply core_contends; [symmetry; exact Eq|]. by apply contends_sym.
      * eapply core_apart; [symmetry; exact Ep|]. apply apart_sym. eapply core_apart; [symmetry; exact Eq|]. by apply apart_sym.
    + intros t. etransitivity; [|exact (po_live d Hok t)]. apply subseteq_size. intros i (q & Hq & Hl)%live_ids_spec.
      apply HQ in Hq as (p & Hp & [E _]). apply live_ids_spec. exists p. split; [done|]. by rewrite <- (core_lives t p q E).
  - split; try done.
    + intros i p Hp. destruct (HP i p Hp) as [|(q & Hq)]; [by left|right]. exists q. split; [done|]. destruct (HQ i q Hq) as (p' & Hp' & L). by simplify_eq.
    + intros i q Hq. left. by apply HQ.
  - intros i j p q Hp (q0 & Hq & Lq)%HQ [Hcon| ->]; [|left; by simplify_eq]. destruct (po_apart d Hok i j p q0 Hp Hq) as [->|Ha].
    + apply contends_sym. eapply core_contends; [symmetry; apply Lq|]. by apply contends_sym.
    + left. by simplify_eq.
    + right. apply apart_sym. eapply core_apart; [symmetry; apply Lq|]. by apply apart_sym.
Qed.

(** ** The statements *)

Lemma set_clock_Returns now d u d' : set_clock now d = Returns (u, d') -> db_probe_clock d <= now /\ d' = with_probe_clock (fun _ => now) d.
Proof. unfold set_clock. intros Hr. tx_inv. by apply Z.leb_le in Hrun0. Qed.

Lemma sound_clock now d : db_probe_clock d <= now -> sound_step d (with_probe_clock (fun _ => now) d).
Proof.
  intros Hc Hok. apply closing_sound; try done; [by intros i q Hq; exists q|intros i p Hp; right; by exists p|apply Hok|by right|apply Hok|by right].
Qed.

Lemma sound_set_clock now : evolves sound_step (set_clock now).
Proof. intros d u d' [Hc ->]%set_clock_Returns. by apply sound_clock. Qed.

(** The state after [finish now]. *)
Definition dropped (now : Z) (p : ProbePermit) : bool := (1000 <=? now) && (pp_expiresAt p + 1000 <=? now).

Lemma finish_Returns now d u d' : finish now d = Returns (u, d') -> db_probe_clock d <= now /\ db_probe_clock d' = now /\
  (forall i p, db_permits d' !! i = Some p <-> db_permits d !! i = Some p /\ dropped now p = false) /\
  (forall i t, db_withdrawals d' !! i = Some t <-> db_withdrawals d !! i = Some t /\ forall p, db_permits d !! i = Some p -> dropped now p = false) /\
  (forall i r, db_probe_results d' !! i = Some r <-> db_probe_results d !! i = Some r /\ forall p, db_permits d !! i = Some p -> dropped now p = false).
Proof.
  unfold finish. intros Hr. apply tx_bind_Returns in Hr as ([] & d1 & Hp & [Hc ->]%set_clock_Returns).
  assert (Hd : forall p, dropped now p = (0 <=? now - 1000) && (pp_expiresAt p <=? now - 1000)).
  { intros p. unfold dropped. lia. }
  assert (Hu : forall V (m : gmap jsstr V) i v, (0 <=? now - 1000) = true ->
    unpruned (now - 1000) d m !! i = Some v <-> m !! i = Some v /\ forall p, db_permits d !! i = Some p -> dropped now p = false).
  { intros V m i v E0. unfold unpruned, pruned. rewrite map_lookup_filter_Some. cbn. apply and_iff_compat_l.
    destruct (db_permits d !! i) as [p|]; [|naive_solver]. specialize (Hd p). rewrite E0 in Hd. cbn in Hd. rewrite <- Hd. naive_solver. }
  unfold prune in Hp. destruct (0 <=? now - 1000) eqn:E0.
  - apply modify_Returns in Hp as ->. split; [exact Hc|]. split; [reflexivity|]. split_and!.
    + intros i p. etransitivity; [exact (Hu _ _ i p eq_refl)|]. naive_solver.
    + intros i t. exact (Hu _ _ i t eq_refl).
    + intros i r. exact (Hu _ _ i r eq_refl).
  - apply mret_Returns in Hp as [_ ->]. assert (Hn : forall p, dropped now p = false) by (intros p; rewrite Hd; done).
    split; [exact Hc|]. split; [reflexivity|]. split_and!; intros i x; cbn; naive_solver.
Qed.

Lemma dropped_over now d p : db_probe_clock d = now -> dropped now p = true -> over d p.
Proof. unfold dropped, over. intros -> [_ Hd%Z.leb_le]%andb_prop. done. Qed.

Lemma sound_finish now : evolves sound_step (finish now).
Proof.
  intros d u d' (Hc & Ec & HP & HW & HR)%finish_Returns Hok.
  assert (Hkept : forall i p, db_permits d !! i = Some p -> over d' p \/ dropped now p = false).
  { intros i p Hp. destruct (dropped now p) eqn:Ed; [left; by eapply dropped_over|by right]. }
  apply closing_sound; try done.
  - by rewrite Ec.
  - intros i q [Hq _]%HP. by exists q.
  - intros i p Hp. destruct (Hkept i p Hp) as [|Hd]; [by left|right]. exists p. by apply HP.
  - intros i t [Ht Hd]%HW. destruct (po_withdrawals d Hok i t Ht) as (p & Hp & Hs). exists p. split; [|done]. apply HP. auto.
  - intros i p t Hp Ht. destruct (Hkept i p Hp) as [|Hd]; [by left|right]. apply HW. split; [done|]. intros p' Hp'. by simplify_eq.
  - intros i t [Ht Hd]%HR. destruct (po_results d Hok i t Ht) as (p & Hp & Hs). exists p. split; [|done]. apply HP. auto.
  - intros i p t Hp Ht. destruct (Hkept i p Hp) as [|Hd]; [by left|right]. apply HR. split; [done|]. intros p' Hp'. by simplify_eq.
Qed.

Lemma set_closed_le s t p : pp_state p = pm_issued -> permit_le p (set_closed s t p).
Proof. intros E. split; [done|]. by rewrite E. Qed.

Lemma close_permit_Returns i s t d u d' : close_permit i s t d = Returns (u, d') ->
  exists p, db_permits d !! i = Some p /\ pp_state p = pm_issued /\ d' = with_permits (alter (set_closed s t) i) d.
Proof.
  unfold close_permit. intros Hr. tx_inv. destruct (db_permits d !! i) as [p|]; [|done]. exists p. by apply bool_decide_eq_true in Hrun1.
Qed.

(** Rewriting issued permits into closed ones. *)
Lemma sound_closed d d' (f : jsstr -> ProbePermit -> ProbePermit) : permits_ok d -> db_probe_clock d' = db_probe_clock d ->
  (forall i p, db_permits d !! i = Some p -> permit_le p (f i p)) -> (forall i, db_permits d' !! i = f i <$> db_permits d !! i) ->
  (forall i t, db_withdrawals d' !! i = Some t -> db_withdrawals d !! i = Some t \/ exists p, db_permits d' !! i = Some p /\ pp_state p = pm_consumed) ->
  (forall i t, db_withdrawals d !! i = Some t -> db_withdrawals d' !! i = Some t) -> db_probe_results d' = db_probe_results d ->
  permits_ok d' /\ permits_le d d' /\ permits_apart d d'.
Proof.
  intros Hok Ec Hf HP HW HW' ER.
  assert (Hcons : forall i p, db_permits d !! i = Some p -> pp_state p = pm_consumed -> exists q, db_permits d' !! i = Some q /\ pp_state q = pm_consumed).
  { intros i p Hp Hs. exists p. split; [|done]. rewrite HP, Hp. cbn. f_equal. apply (Hf i p Hp). by rewrite Hs. }
  apply closing_sound; try done.
  - lia.
  - intros i q. rewrite HP. intros (p & Hp & ->)%fmap_Some. exists p. by auto.
  - intros i p Hp. right. rewrite HP, Hp. by eexists.
  - intros i t [Ht|]%HW; [|done]. destruct (po_withdrawals d Hok i t Ht) as (p & Hp & Hs). by eapply Hcons.
  - intros i p t _ Ht. right. by apply HW'.
  - intros i r. rewrite ER. intros Hr. destruct (po_results d Hok i r Hr) as (p & Hp & Hs). by eapply Hcons.
  - intros i p r _. rewrite ER. by right.
Qed.

Lemma sound_close i s t : evolves sound_step (close_permit i s t).
Proof.
  intros d u d' (p & Hp & Hs & ->)%close_permit_Returns Hok.
  apply (sound_closed _ _ (fun j q => if decide (j = i) then set_closed s t q else q)); try done; [| |by left].
  - intros j q Hq. case_decide as E; [|done]. subst j. simplify_eq. by apply set_closed_le.
  - intros j. unfold db_permits. cbn. case_decide as E; [subst j; by rewrite lookup_alter_eq|]. rewrite lookup_alter_ne by done. by destruct (_ !! j).
Qed.

Lemma withdraw_permit_Returns i t d u d' : withdraw_permit i t d = Returns (u, d') ->
  exists p, db_permits d !! i = Some p /\ pp_state p = pm_consumed /\ db_withdrawals d !! i = None /\ d' = with_withdrawals (insert i t) d.
Proof.
  unfold withdraw_permit, insert_row. intros Hr. tx_inv. destruct (db_permits d !! i) as [p|]; [|done]. exists p.
  unfold withdrawable in Hrun1. apply andb_prop in Hrun1 as [Hs%bool_decide_eq_true _]. apply negb_true_iff, bool_decide_eq_false, eq_None_not_Some in Hrun3. done.
Qed.

Lemma sound_withdraw i t : evolves sound_step (withdraw_permit i t).
Proof.
  intros d u d' (p & Hp & Hs & Hn & ->)%withdraw_permit_Returns Hok. apply (sound_closed _ _ (fun _ q => q)); try done.
  - intros j. cbn. by destruct (_ !! j).
  - intros j t'. unfold db_withdrawals. cbn. intros [[-> _]|[_ Ht]]%lookup_insert_Some; [right; by exists p|by left].
  - intros j t' Ht. assert (i <> j) by congruence. unfold db_withdrawals. cbn. by rewrite lookup_insert_ne.
Qed.

Lemma sound_quarantine clock : evolves sound_step (quarantine_permits clock).
Proof.
  intros d u d' Hr Hok. unfold quarantine_permits in Hr. tx_inv.
  set (f := fun (_ : jsstr) p => if bool_decide (pp_state p = pm_issued) then set_closed pm_quarantined (clock 0%nat) p else p).
  apply (sound_closed _ _ f); try done.
  - intros i p _. unfold f. case_bool_decide as E; [by apply set_closed_le|done].
  - intros i. unfold db_permits. cbn. by rewrite lookup_fmap.
  - intros i t. unfold db_withdrawals, quarantined_withdrawals. cbn. intros Ht. apply lookup_union_Some_raw in Ht as [Ht|[_ Ht]]; [by left|right].
    unfold db_permits in Ht. cbn in Ht. rewrite lookup_omap in Ht. apply bind_Some in Ht as (p & Hp & Ht). exists p. split; [done|]. by destruct (pp_state p).
  - intros i t Ht. unfold db_withdrawals, quarantined_withdrawals in *. cbn. by apply lookup_union_Some_l.
Qed.

(** A permit that is added now, within the budget. *)
Lemma issue_sound i p d : permits_ok d -> db_permits d !! i = None -> pp_issuedAt p = db_probe_clock d ->
  pp_issuedAt p < pp_expiresAt p <= pp_issuedAt p + 2000 ->
  (forall j q, db_permits d !! j = Some q -> contends p q -> pp_expiresAt q + 1000 <= db_probe_clock d) ->
  (size (live_ids (db_probe_clock d) d) <= 3)%nat ->
  permits_ok (with_permits (insert i p) d) /\ permits_le d (with_permits (insert i p) d) /\ permits_apart d (with_permits (insert i p) d).
Proof.
  intros Hok Hn Hi Hw Hc Hl. set (d' := with_permits (insert i p) d). assert (EP : db_permits d' = <[i := p]> (db_permits d)) by done.
  assert (EC : db_probe_clock d' = db_probe_clock d) by done.
  assert (Hkeep : forall j q, db_permits d !! j = Some q -> db_permits d' !! j = Some q).
  { intros j q Hq. rewrite EP, lookup_insert_ne; [done|]. congruence. }
  split_and!.
  - split.
    + intros j q. rewrite EP. intros [[_ <-]|[_ Hq]]%lookup_insert_Some; [lia|by apply (po_window d Hok j q)].
    + intros j k q r. rewrite EP. intros [[<- <-]|[Hj Hq]]%lookup_insert_Some [[<- <-]|[Hk Hr]]%lookup_insert_Some Hcon; [by left|..].
      * right. right. rewrite Hi. by eapply Hc.
      * right. left. rewrite Hi. apply (Hc j q Hq). by apply contends_sym.
      * by eapply Hok.
    + intros t. destruct (Z.lt_ge_cases t (db_probe_clock d)) as [Ht|Ht].
      * etransitivity; [|apply (po_live d Hok t)]. apply subseteq_size. intros j (q & Hq & Hj)%live_ids_spec. rewrite EP in Hq.
        apply lookup_insert_Some in Hq as [[_ <-]|[_ Hq]]; [unfold lives in Hj; lia|]. apply live_ids_spec. by exists q.
      * transitivity (size ({[i]} ∪ live_ids (db_probe_clock d) d)); [apply subseteq_size|].
        -- intros j (q & Hq & Hj)%live_ids_spec. rewrite EP in Hq. apply lookup_insert_Some in Hq as [[<- _]|[_ Hq]]; [set_solver|].
           apply elem_of_union_r, live_ids_spec. exists q. split; [done|]. destruct (po_window d Hok j q Hq). unfold lives in *. lia.
        -- rewrite size_union_alt, size_singleton. pose proof (subseteq_size (live_ids (db_probe_clock d) d ∖ {[i]}) (live_ids (db_probe_clock d) d) ltac:(set_solver)). lia.
    + intros j t Ht. destruct (po_withdrawals d Hok j t Ht) as (q & Hq & Hs). exists q. by auto.
    + intros j r Hr. destruct (po_results d Hok j r Hr) as (q & Hq & Hs). exists q. by auto.
  - split; [reflexivity|..]; [| |intros j q t _ Ht; by right|intros j q r _ Hr; by right].
    + intros j q Hq. right. exists q. split; [by apply Hkeep|reflexivity].
    + intros j q. rewrite EP. intros [[_ <-]|[_ Hq]]%lookup_insert_Some; [right; lia|left; by exists q].
  - intros j k q r Hq. rewrite EP. intros [[<- <-]|[_ Hr]]%lookup_insert_Some Hcon.
    + destruct Hcon as [Hcon| ->]; [|congruence]. right. left. rewrite Hi. apply (Hc j q Hq). by apply contends_sym.
    + destruct Hcon as [Hcon| ->]; [|left; by simplify_eq]. destruct (po_apart d Hok j k q r Hq Hr Hcon) as [->|]; [left; by simplify_eq|by right].
Qed.

(** A result of a consumed permit that has none. *)
Lemma result_sound i p r d : db_permits d !! i = Some p -> pp_state p = pm_consumed -> db_probe_results d !! i = None ->
  sound_step d (with_probe_results (insert i r) d).
Proof.
  intros Hp Hs Hn Hok. apply closing_sound; try done; [by intros j q Hq; exists q|intros j q Hq; right; by exists q|apply Hok|by right| |].
  - intros j x. unfold db_probe_results. cbn. intros [[<- _]|[_ Hx]]%lookup_insert_Some; [by exists p|by eapply (po_results d Hok)].
  - intros j q x _ Hx. right. assert (i <> j) by congruence. unfold db_probe_results. cbn. by rewrite lookup_insert_ne.
Qed.

#[export] Hint Resolve sound_set_clock sound_finish sound_close sound_withdraw sound_quarantine : evolves.
#[export] Hint Extern 3 (evolves sound_step (modify _)) => apply evolves_modify; intros d; by apply sound_same : evolves.

(** Comparisons of strings as equations. *)
Ltac strings := repeat match goal with E : str_eqb _ _ = true |- _ => apply str_eqb_true in E end.

(** ** Instances *)

(** The instance a generation stands for. *)
Definition slot_identity (s : ProbeSlot) := (pi_generation s, pi_bootId s, pi_sessionEpoch s, pi_fingerprint s, pi_instanceId s, pi_registeredAt s, pi_expiresAt s).

Definition slot_le (s s' : ProbeSlot) : Prop :=
  pi_generation s < pi_generation s' \/
  slot_identity s' = slot_identity s /\ (pi_state s <> ps_registered -> pi_state s' <> ps_registered).

(** Generations only advance; the instance of a generation never changes, and is never registered again. *)
Definition instances_le (d d' : Db) : Prop := forall n s, db_probe_instances d !! n = Some (Some s) ->
  exists s', db_probe_instances d' !! n = Some (Some s') /\ slot_le s s'.

#[export] Instance slot_le_preorder : PreOrder slot_le.
Proof.
  split; [by right|]. intros s t u [H1|[E1 H1]] [H2|[E2 H2]]; unfold slot_identity in *.
  - left. lia.
  - left. apply (f_equal (fun x => x.1.1.1.1.1.1)) in E2. cbn in E2. lia.
  - left. apply (f_equal (fun x => x.1.1.1.1.1.1)) in E1. cbn in E1. lia.
  - right. split; [by transitivity (slot_identity t)|auto].
Qed.

#[export] Instance instances_le_preorder : PreOrder instances_le.
Proof.
  split; [intros d n s Hs; by exists s|]. intros d d1 d2 H1 H2 n s (s1 & Hs1 & L1)%H1. destruct (H2 n s1 Hs1) as (s2 & Hs2 & L2).
  exists s2. split; [done|by etransitivity].
Qed.

Lemma instances_same d d' : db_probe_instances d' = db_probe_instances d -> instances_le d d'.
Proof. intros E n s Hs. exists s. by rewrite E. Qed.

Lemma replace_instance_le n g next : evolves instances_le (replace_instance n g next).
Proof.
  intros d u d' Hr. unfold replace_instance in Hr. apply tx_bind_Returns in Hr as (x & d1 & Hv & Hr).
  assert (d1 = d) as -> by (unfold slot_record in Hv; tx_inv; done). cbn zeta in Hr. tx_inv. intros m s Hs. unfold db_probe_instances. cbn.
  destruct (decide (m = n)) as [->|Hm]; [|exists s; by rewrite lookup_insert_ne]. exists next. rewrite lookup_insert_eq. split; [done|].
  unfold replaceable in Hrun1. rewrite Hs in Hrun1. cbn in Hrun1. apply andb_prop in Hrun1 as [Hg%Z.eqb_eq Hm]. apply andb_prop in Hrun as [_ Ht].
  destruct ((pi_generation next =? g) && bool_decide (pi_state next = ps_revoked)) eqn:Ec; cbn in Ht, Hm.
  - right. apply andb_prop in Ec as [Eg%Z.eqb_eq Er%bool_decide_eq_true]. propify. strings.
    split; [unfold slot_identity; congruence|]. intros _. by rewrite Er.
  - left. propify. lia.
Qed.

Lemma quarantine_instances_le now : evolves instances_le (quarantine_instances now).
Proof.
  intros d u d' Hr n s Hs. unfold quarantine_instances in Hr. tx_inv. unfold db_probe_instances in *. cbn. rewrite lookup_fmap, Hs. cbn. eexists. split; [done|].
  right. destruct (0 <? pi_generation s); [|done]. by split.
Qed.

Lemma lock_instance_le n : evolves instances_le (lock_instance n).
Proof.
  intros d u d' Hr. unfold lock_instance, read_instance, slot_record in Hr. apply tx_bind_Returns in Hr as ([] & d1 & ->%modify_Returns & Hr).
  apply tx_bind_Returns in Hr as (row & d1 & [-> ->]%query_Returns & Hr). assert (d' = with_probe_instances (seed_instance n) d) as ->.
  { destruct (db_probe_instances _ !! n) as [[s|]|]; tx_inv; done. }
  intros m s Hs. exists s. split; [|done]. unfold db_probe_instances, seed_instance in *. cbn. destruct (bt_instances (db_probes d) !! n) eqn:E; [done|].
  rewrite lookup_insert_ne; [done|]. congruence.
Qed.
