(* ===== verification/ProbeSafety.v ===== *)
(** What the Probe commands guarantee: the budget, one use, current authority, one result. *)

From S2P Require Import Prelude.
From S2P Require Import JsString.
From S2P Require Import JsValue.
From S2P Require Import Primitives.
From S2P Require Import Json.
From S2P Require Import Forward.
From S2P Require Import Digest.
From S2P Require Import Types.
From S2P Require Import Validate.
From S2P Require Import Schema.
From S2P Require Import Relay.
From S2P Require Import Adp3.
From S2P Require Import TargetPolicy.
From S2P Require Import Probe.
From S2P Require Import RelayPlan.
From S2P Require Import Iso.
From S2P Require Import Store.
From S2P Require Import Idempotency.
From S2P Require Import Forwarding.
From S2P Require Import Identity.
From S2P Require Import Nodes.
From S2P Require Import Reads.
From S2P Require Import ForwardCommands.
From S2P Require Import TransitDelivery.
From S2P Require Import ProbeInstances.
From S2P Require Import ProbePlans.
From S2P Require Import ProbePermits.
From S2P Require Import ProbeMoves.

Local Open Scope Z_scope.

(** ** What only reads *)

Lemma reads_machine n fp : evolves eq (read_machine n fp).
Proof. unfold read_machine. evolve. Qed.

Lemma reads_requireProbeMachine c n b e now direct : evolves eq (requireProbeMachine c n b e now direct).
Proof. unfold requireProbeMachine. evolve. Qed.

Lemma reads_instance n : evolves eq (read_instance n).
Proof. unfold read_instance, slot_record. evolve. Qed.

Lemma reads_permit_now o now : evolves eq (permit_now o now).
Proof. unfold permit_now. evolve. Qed.

Lemma reads_require_available b : evolves eq (require_available b).
Proof. unfold require_available. evolve. Qed.

Lemma reads_registered n b e i g fp : evolves eq (registered n b e i g fp).
Proof. unfold registered, permit_unavailable, require_available, read_instance, slot_record, read_machine. evolve. Qed.

Lemma reads_current_instance b i g fp : evolves eq (current_instance b i g fp).
Proof. unfold current_instance, require_available. evolve. apply reads_registered. Qed.
#[export] Hint Resolve reads_machine reads_requireProbeMachine reads_instance reads_permit_now reads_require_available reads_registered reads_current_instance : evolves.

Section Reading.
Context `{Hashing, Schema RelayProfileConfig, Schema RelayOpen, Schema RelayAssignment, Adp2Schemas, Adp3Schemas, Schema ProbeResultRequest}.
Context (octets : json -> Z) (skew : Z).

Lemma reads_authorize_plan clock a s i input : evolves eq (authorize_plan octets skew clock a s i input).
Proof using.
  unfold authorize_plan, probed_forward, probed_node, probed_assignment, read_published, unavailable. evolve.
Qed.

Lemma reads_budget t : evolves eq (budget octets t).
Proof using. unfold budget, lock_permits, bounded_rows. evolve. Qed.
Hint Resolve reads_authorize_plan reads_budget : evolves.

Lemma reads_authorize_permit clock fl p : evolves eq (authorize_permit octets skew clock fl p).
Proof using. unfold authorize_permit. evolve. Qed.

Lemma reads_reports_permit fp q p : evolves eq (reports_permit fp q p).
Proof using. unfold reports_permit. evolve. Qed.
End Reading.
#[export] Hint Resolve reads_authorize_plan reads_budget reads_authorize_permit reads_reports_permit : evolves.

(** ** The budget is the tables *)

Lemma bounded_all {V} (m : gmap jsstr V) : (length (take 257 (sort_by by_key (map_to_list m))) <= 256)%nat ->
  take 257 (sort_by by_key (map_to_list m)) ≡ₚ map_to_list m.
Proof.
  rewrite length_take. intros Hl. rewrite take_ge by lia. apply sort_by_perm.
Qed.

Lemma find_key {V} (l : list (jsstr * V)) i : NoDup (map fst l) -> forall v, snd <$> find (fun r => str_eqb r.1 i) l = Some v <-> (i, v) ∈ l.
Proof.
  induction l as [|[j x] l IH]; intros Hn v; cbn; [split; [done|intros []%elem_of_nil]|]. apply NoDup_cons in Hn as [Hj Hn]. rewrite elem_of_cons.
  destruct (str_eqb j i) eqn:E.
  - apply str_eqb_true in E as ->. cbn. split; [intros [= ->]; by left|]. intros [[= ->]|Hv]; [done|]. destruct Hj. by apply (list_elem_of_fmap_2 fst) in Hv.
  - rewrite IH by done. split; [by right|]. intros [[= Ei _]|]; [|done]. apply str_eqb_false in E. congruence.
Qed.

(** What [budget] returned, in terms of the tables it read. *)
Record budgeted (d : Db) (t : Z) (b : ProbeBudget) : Prop := {
  bd_now : bg_now b = t /\ db_probe_clock d <= t <= clock_limit;
  bd_records : bg_records b ≡ₚ map_to_list (db_permits d);
  bd_find : forall i, find_permit (bg_records b) i = db_permits d !! i;
  bd_withdrawn : forall i, withdrawn_in b i = db_withdrawals d !! i;
  bd_valid : forall i p, db_permits d !! i = Some p -> valid_permit i p = true /\ pp_issuedAt p <= t;
}.

Lemma find_rows {V} (m : gmap jsstr V) l i : l ≡ₚ map_to_list m -> NoDup (map fst l) -> snd <$> find (fun r => str_eqb r.1 i) l = m !! i.
Proof.
  intros Hp Hn. apply option_eq. intros v. rewrite find_key by done. by rewrite Hp, elem_of_map_to_list.
Qed.

Lemma permit_now_Returns o t d now d' : permit_now o t d = Returns (now, d') -> d' = d /\ now = t /\ o <= t <= clock_limit /\ 0 <= o.
Proof. unfold permit_now. intros Hr. tx_inv. propify. split_and!; done || lia. Qed.

Lemma size_of_list (l : list jsstr) : (size (list_to_set l : gset jsstr) <= length l)%nat.
Proof.
  induction l as [|x l IH]; [done|]. rewrite list_to_set_cons, size_union_alt, size_singleton. cbn.
  pose proof (subseteq_size ((list_to_set l : gset jsstr) ∖ {[x]}) (list_to_set l) ltac:(set_solver)). lia.
Qed.

Section Budget.
Context (octets : json -> Z).

Lemma lock_permits_Returns d o l w d' : lock_permits octets d = Returns (o, l, w, d') -> d' = d /\ o = db_probe_clock d /\
  l = take 257 (sort_by by_key (map_to_list (db_permits d))) /\ w = take 257 (sort_by by_key (map_to_list (db_withdrawals d))).
Proof using. unfold lock_permits, bounded_rows. intros Hr. tx_inv. by simplify_eq. Qed.

Lemma budget_Returns t d b d' : budget octets t d = Returns (b, d') -> d' = d /\ budgeted d t b.
Proof using.
  intros Hr. split; [symmetry; by eapply reads_budget|]. unfold budget in Hr.
  apply tx_bind_Returns in Hr as ([[o l] w] & d1 & (-> & -> & -> & ->)%lock_permits_Returns & Hr).
  apply tx_bind_Returns in Hr as ([] & d1 & [Hv ->]%require_Returns & Hr). apply tx_bind_Returns in Hr as (now & d1 & (-> & -> & Hc & _)%permit_now_Returns & Hr).
  apply tx_bind_Returns in Hr as ([] & d1 & [Ht ->]%require_Returns & [-> _]%mret_Returns).
  set (l := take 257 (sort_by by_key (map_to_list (db_permits d)))) in *. set (w := take 257 (sort_by by_key (map_to_list (db_withdrawals d)))) in *.
  apply andb_prop in Hv as [Hv _]. apply andb_prop in Hv as [Hv Hnw%bool_decide_eq_true]. apply andb_prop in Hv as [Hv Hlw%Z.leb_le].
  apply andb_prop in Hv as [Hv Hnl%bool_decide_eq_true]. apply andb_prop in Hv as [Hll%Z.leb_le Hval]. apply andb_prop in Ht as [Hti _].
  assert (Hpl : l ≡ₚ map_to_list (db_permits d)) by (apply bounded_all; unfold l in Hll; lia).
  assert (Hpw : w ≡ₚ map_to_list (db_withdrawals d)) by (apply bounded_all; unfold w in Hlw; lia).
  split; cbn; [done|done|intros i; by apply find_rows|intros i; by apply find_rows|].
  intros i p Hp. apply elem_of_map_to_list in Hp. rewrite <- Hpl in Hp. apply list_elem_of_In in Hp.
  rewrite forallb_forall in Hval, Hti. specialize (Hval _ Hp). specialize (Hti _ Hp). by apply Z.leb_le in Hti.
Qed.

(** A permit that passes the budget leaves at most three live ones beside it, and none that contends. *)
Lemma within_budget_spec t now d b a n : budgeted d t b -> t <= now -> permits_ok d -> within_budget now (bg_records b) a n = true ->
  (size (live_ids now d) <= 3)%nat /\
  forall j q, db_permits d !! j = Some q -> pp_actorId q = a \/ pb_nodeId (pp_binding q) = n -> pp_expiresAt q + 1000 <= now.
Proof using.
  intros Hb Ht Hok Hw. unfold within_budget in Hw. apply andb_prop in Hw as [Hw Hex%negb_true_iff]. apply andb_prop in Hw as [_ Hlive%Nat.ltb_lt]. split.
  - set (live := List.filter _ _) in Hlive. transitivity (size (list_to_set (map fst live) : gset jsstr)).
    + apply subseteq_size. intros i (p & Hp & Hl)%live_ids_spec. apply elem_of_list_to_set, list_elem_of_fmap. exists (i, p). split; [done|].
      unfold live. apply list_elem_of_In, filter_In. unfold lives in Hl. rewrite filter_In. cbn. split_and!; [|lia..].
      apply list_elem_of_In. rewrite (bd_records _ _ _ Hb). by apply elem_of_map_to_list.
    + etransitivity; [apply size_of_list|]. rewrite length_map. lia.
  - intros j q Hq Hc. destruct (Z.le_gt_cases (pp_expiresAt q + 1000) now) as [|Hgt]; [done|]. exfalso.
    apply not_true_iff_false in Hex. apply Hex. apply existsb_exists. exists (j, q). split.
    + apply filter_In. cbn. split; [|lia]. apply list_elem_of_In. rewrite (bd_records _ _ _ Hb). by apply elem_of_map_to_list.
    + cbn. apply orb_true_iff. destruct Hc as [<-|<-]; [left|right]; by apply str_eqb_true.
Qed.
End Budget.

(** ** The commands are sound *)

#[export] Hint Extern 5 (evolves sound_step _) => apply evolves_reads; [apply _|] : evolves.

Lemma valid_window i p : valid_permit i p = true -> pp_issuedAt p < pp_expiresAt p <= pp_issuedAt p + 2000.
Proof. unfold valid_permit. intros Hv. propify. lia. Qed.

Section Commands.
Context `{Hashing, Schema RelayProfileConfig, Schema RelayOpen, Schema RelayAssignment, Adp2Schemas, Adp3Schemas, Schema ProbeResultRequest}.
Context (octets : json -> Z) (skew : Z) (uuid : Db -> jsstr).

(** An issued permit is in the table, and was issued within the budget. *)
Lemma issue_in_Returns clock a s f c sel d i p d' : issue_in octets skew uuid clock a s f c sel d = Returns ((i, p), d') ->
  exists b d1, budgeted d (clock 0%nat) b /\ clock 0%nat <= clock 3%nat /\ finish (clock 3%nat) d = Returns (tt, d1) /\ db_permits d1 !! i = None /\
    d' = with_permits (insert i p) d1 /\ valid_permit i p = true /\ pp_actorId p = a /\ pp_scopeId p = s /\ pb_forwardId (pp_binding p) = f /\
    pp_issuedAt p = clock 3%nat /\ pp_state p = pm_issued /\
    within_budget (clock 3%nat) (bg_records b) a (pb_nodeId (pp_binding p)) = true /\
    exists plan slot machine ev, authorize_plan octets skew (fun k => clock (1 + k)%nat) a s f (plan_input (is_expectedRevision c) (is_timeoutMs c)) d = Returns (plan, d) /\
      current_instance (pp_binding p) (pp_instanceId p) (pp_instanceGeneration p) None d = Returns ((slot, machine), d) /\
      requireProbeMachine machine (pb_nodeId (pp_binding p)) (pb_bootId (pp_binding p)) (pb_sessionEpoch (pp_binding p)) (clock 3%nat) true d = Returns (ev, d) /\
      slot_live (clock 3%nat) slot = true /\ pp_binding p = fp_binding plan /\ pp_fingerprint p = pi_fingerprint slot /\ pp_timeoutMs p = is_timeoutMs c /\
      pp_expiresAt p = evidence_until (Z.min (Z.min (clock 3%nat + 2000) (fp_expiresAt plan)) (pi_expiresAt slot)) ev /\
      i = uuid d /\ (sel = false -> pp_instanceId p = is_instanceId c /\ pp_instanceGeneration p = is_instanceGeneration c).
Proof using.
  intros Hr. unfold issue_in in Hr. apply tx_bind_Returns in Hr as ([] & d0 & Hs & Hr). apply reads_scope in Hs as <-.
  apply tx_bind_Returns in Hr as (b & d0 & [-> Hb]%budget_Returns & Hr). apply tx_bind_Returns in Hr as (plan & d0 & Hp & Hr).
  pose proof (reads_authorize_plan _ _ _ _ _ _ _ _ _ _ Hp) as <-. cbn zeta in Hr. unfold require_available in Hr. apply tx_bind_Returns in Hr as ([] & d0 & [Hpl ->]%require_Returns & Hr).
  apply tx_bind_Returns in Hr as ([ii g] & d0 & Hsel & Hr). assert (d0 = d /\ (sel = false -> ii = is_instanceId c /\ g = is_instanceGeneration c)) as [-> Hnamed].
  { unfold select_instance, permit_unavailable in Hsel. destruct sel; [|by apply mret_Returns in Hsel as [[= -> ->] ->]].
    apply tx_bind_Returns in Hsel as (sl & d1 & Hi & Hsel). apply reads_instance in Hi as <-. destruct sl; [by apply mret_Returns in Hsel as [_ ->]|done]. }
  apply tx_bind_Returns in Hr as ([] & d0 & [_ ->]%require_Returns & Hr). apply tx_bind_Returns in Hr as ([slot machine] & d0 & Hc & Hr).
  pose proof (reads_current_instance _ _ _ _ _ _ _ Hc) as <-. apply tx_bind_Returns in Hr as (now & d0 & (-> & -> & Hnow & _)%permit_now_Returns & Hr).
  apply tx_bind_Returns in Hr as (ev & d0 & Hm & Hr). pose proof (reads_requireProbeMachine _ _ _ _ _ _ _ _ _ Hm) as <-.
  apply tx_bind_Returns in Hr as ([] & d0 & [Hlive ->]%require_Returns & Hr). apply tx_bind_Returns in Hr as ([] & d0 & [Hw ->]%require_Returns & Hr).
  apply tx_bind_Returns in Hr as ([] & d0 & [_ ->]%require_Returns & Hr). apply tx_bind_Returns in Hr as (id_ & d0 & [-> ->]%query_Returns & Hr).
  apply tx_bind_Returns in Hr as ([] & d0 & [Hv ->]%require_Returns & Hr). apply tx_bind_Returns in Hr as ([] & d1 & Hf & Hr).
  apply tx_bind_Returns in Hr as ([] & d2 & Hi & [[= -> ->] ->]%mret_Returns). unfold insert_permit, insert_row in Hi.
  apply tx_bind_Returns in Hi as ([] & d3 & [_ ->]%require_Returns & Hi). apply tx_bind_Returns in Hi as (pr & d3 & [-> ->]%query_Returns & Hi).
  apply tx_bind_Returns in Hi as ([] & d3 & [Hn ->]%require_Returns & ->%modify_Returns). apply negb_true_iff, bool_decide_eq_false, eq_None_not_Some in Hn.
  destruct (bd_now _ _ _ Hb) as [E0 _]. rewrite E0 in Hnow. exists b, d1.
  assert (Hf0 : pb_forwardId (fp_binding plan) = f) by (propify; strings; done).
  split_and!; try done; [apply Hnow|]. exists plan, slot, machine, ev. done.
Qed.

Lemma sound_issue_in clock a s f c sel : evolves sound_step (issue_in octets skew uuid clock a s f c sel).
Proof using.
  intros d [i p] d' (b & d1 & Hb & Ht & Hf & Hn & -> & Hv & Ea & _ & _ & Ei & _ & Hw & _)%issue_in_Returns.
  intros Hok. destruct (sound_finish _ _ _ _ Hf Hok) as (K1 & L1 & A1). apply finish_Returns in Hf as (_ & Ec & HP & _ & _).
  destruct (within_budget_spec _ _ _ _ _ _ Hb Ht Hok Hw) as [Hl Hc].
  destruct (issue_sound i p d1) as (K2 & L2 & A2); rewrite ?Ec; try done.
  - by apply (valid_window i).
  - intros j q [Hq _]%HP Hcon. apply (Hc j q Hq). destruct Hcon as [E|E]; [left|right]; congruence.
  - etransitivity; [|exact Hl]. apply subseteq_size. intros j (q & [Hq _]%HP & Hj)%live_ids_spec. apply live_ids_spec. by exists q.
  - split_and!; [done|by etransitivity|by eapply permits_apart_trans].
Qed.
Hint Resolve sound_issue_in : evolves.

Lemma sound_once r action : evolves sound_step action -> evolves sound_step (once r action).
Proof using.
  intros Ha. unfold once. evolve; try done; [intros d res d' (-> & _)%claim_spec; by apply sound_same|unfold respond; apply evolves_modify; intros d; by apply sound_same].
Qed.

Lemma sound_issue_permit clock a s f input : evolves sound_step (issue_permit octets skew uuid clock a s f input).
Proof using. unfold issue_permit. evolve. Qed.

Lemma sound_create_probe e clock a s f key input : evolves sound_step (create_probe octets skew uuid e clock a s f key input).
Proof using. unfold create_probe, invalid_input, issueCurrentIn. evolve. apply sound_once. evolve. Qed.

Lemma authorize_permit_time clock fl p d now d' : authorize_permit octets skew clock fl p d = Returns (now, d') ->
  now = clock 2%nat /\ fl <= now /\ pp_issuedAt p <= now < pp_expiresAt p.
Proof using.
  intros Ha. unfold authorize_permit, require_available in Ha. cbn zeta in Ha. apply tx_bind_Returns in Ha as (pl & d3 & _ & Ha). apply tx_bind_Returns in Ha as ([] & d4 & _ & Ha).
  apply tx_bind_Returns in Ha as ([sl m] & d5 & _ & Ha). apply tx_bind_Returns in Ha as (t & d6 & (_ & -> & Hf & _)%permit_now_Returns & Ha).
  apply tx_bind_Returns in Ha as (ev & d7 & _ & Ha). apply tx_bind_Returns in Ha as ([] & d8 & [Hg _]%require_Returns & [-> _]%mret_Returns). propify. lia.
Qed.

Lemma consume_Returns clock n fp e c d i q d' : consume_permit octets skew clock n fp e c d = Returns ((i, q), d') ->
  exists p b d1, i = mcm_permitId c /\ db_permits d !! i = Some p /\ pp_state p = pm_issued /\ permit_of n fp e c p = true /\ q = set_closed pm_consumed (clock 3%nat) p /\
    budgeted d (clock 0%nat) b /\ authorize_permit octets skew (fun k => clock (1 + k)%nat) (clock 0%nat) p d = Returns (clock 3%nat, d) /\
    pp_issuedAt p <= clock 3%nat < pp_expiresAt p /\ close_permit i pm_consumed (clock 3%nat) d = Returns (tt, d1) /\ finish (clock 3%nat) d1 = Returns (tt, d').
Proof using.
  intros Hr. unfold consume_permit in Hr. apply tx_bind_Returns in Hr as ([] & d0 & [_ ->]%require_Returns & Hr).
  apply tx_bind_Returns in Hr as (b & d0 & [-> Hb]%budget_Returns & Hr). rewrite (bd_find _ _ _ Hb) in Hr. destruct (db_permits d !! _) as [p|] eqn:Ep; [|done].
  unfold require_available in Hr. apply tx_bind_Returns in Hr as ([] & d0 & [Hg ->]%require_Returns & Hr). apply andb_prop in Hg as [Hs%bool_decide_eq_true Hof].
  apply tx_bind_Returns in Hr as (now & d0 & Ha & Hr). pose proof (reads_authorize_permit _ _ _ _ _ _ _ _ Ha) as <-.
  apply tx_bind_Returns in Hr as ([] & d1 & Hcl & Hr). apply tx_bind_Returns in Hr as ([] & d2 & Hf & [[= -> ->] ->]%mret_Returns).
  destruct (authorize_permit_time _ _ _ _ _ _ Ha) as (-> & _ & Ht).
  destruct (bd_now _ _ _ Hb) as [E0 _]. rewrite E0 in Ha. exists p, b, d1. split_and!; done || apply Ht.
Qed.

Lemma sound_consume clock n fp e c : evolves sound_step (consume_permit octets skew clock n fp e c).
Proof using. unfold consume_permit, machine_command, permit_unavailable. evolve. Qed.

Lemma sound_revoke clock a s i : evolves sound_step (revoke_permit octets clock a s i).
Proof using. unfold revoke_permit, notFound, require_available. evolve. Qed.

Lemma record_result_Returns q dg t d u d' : record_result octets q dg t d = Returns (u, d') ->
  db_probe_results d !! prq_permitId q = None /\ d' = with_probe_results (insert (prq_permitId q) (MkProbeResultRow q dg t)) d.
Proof using.
  unfold record_result, insert_row. intros Hr. tx_inv. split; [|done]. propify. by apply eq_None_not_Some.
Qed.
End Commands.
