(* ===== verification/ProbeAuthority.v ===== *)
(** What a Probe permit rests on when it is used. *)

From S2P Require Import Prelude.
From S2P Require Import JsString.
From S2P Require Import JsValue.
From S2P Require Import Primitives.
From S2P Require Import Json.
From S2P Require Import Forward.
From S2P Require Import Digest.
From S2P Require Import Types.
From S2P Require Import Validate.
From S2P Require Import Schema.
From S2P Require Import Relay.
From S2P Require Import Adp3.
From S2P Require Import TargetPolicy.
From S2P Require Import Probe.
From S2P Require Import RelayPlan.
From S2P Require Import Iso.
From S2P Require Import Store.
From S2P Require Import Forwarding.
From S2P Require Import Retirements.
From S2P Require Import Identity.
From S2P Require Import Nodes.
From S2P Require Import Reads.
From S2P Require Import TransitStaging.
From S2P Require Import TransitDelivery.
From S2P Require Import ProbeInstances.
From S2P Require Import ProbePlans.
From S2P Require Import ProbePermits.
From S2P Require Import ProbeMoves.
From S2P Require Import ProbeSafety.

Local Open Scope Z_scope.

Lemma record_of_row s i d f deleting suspended d' : record_of s i d = Returns ((f, deleting, suspended), d') ->
  d' = d /\ exists row, db_forwards d !! i = Some row /\ fw_scope_id row = s /\ f = to_forward (i, row) /\ deleting = fw_deleting row /\ suspended = fw_recovery_suspended row.
Proof.
  unfold record_of, find_forward. intros Hr. apply tx_bind_Returns in Hr as (r & d1 & Hf & [E ->]%mret_Returns).
  apply tx_bind_Returns in Hf as (row & d2 & [-> ->]%query_Returns & Hf). destruct (db_forwards d !! i) as [row|]; [|done]. tx_inv. propify. strings.
  injection E as -> -> ->. split; [done|]. by exists row.
Qed.

Lemma none_of {A} (o : option A) : bool_decide (is_Some o) = false -> o = None.
Proof. intros E%bool_decide_eq_false. by apply eq_None_not_Some. Qed.

Lemma probed_forward_Returns s i n d f d' : forwards_wf d -> probed_forward s i n d = Returns (f, d') ->
  d' = d /\ exists row, db_forwards d !! i = Some row /\ f = to_forward (i, row) /\ fw_scope_id row = s /\ fw_revision row = n /\ fw_deleting row = false /\
    fw_recovery_suspended row = false /\ enabled (fw_spec row) = true /\ path_via (fw_spec row) = None /\ tcp ∈ protocols (fw_spec row) /\
    is_Some (ipBytes (host (target (fw_spec row)))).
Proof.
  intros Hwf Hr. unfold probed_forward in Hr. apply tx_bind_Returns in Hr as ([[f0 del] sus] & d1 & Hrec & Hr).
  apply record_of_row in Hrec as (-> & row & Hrow & Hs & -> & -> & ->). rewrite parse_forward_canonical in Hr by by apply Hwf.
  apply tx_bind_Returns in Hr as ([] & d1 & [_ ->]%require_Returns & Hr). apply tx_bind_Returns in Hr as ([] & d1 & [Hn%Z.eqb_eq ->]%require_Returns & Hr).
  apply tx_bind_Returns in Hr as ([] & d1 & [He ->]%require_Returns & Hr). apply tx_bind_Returns in Hr as ([] & d1 & [Hp ->]%require_Returns & [-> ->]%mret_Returns).
  split; [done|]. exists row. apply andb_prop in Hp as [Hp Hip%bool_decide_eq_true]. apply andb_prop in Hp as [Hp Htcp%includes_true].
  apply andb_prop in Hp as [Hpath%negb_true_iff%none_of _]. apply andb_prop in He as [He Hen]. apply andb_prop in He as [Hdel%negb_true_iff Hsus%negb_true_iff].
  split_and!; done.
Qed.

Lemma authorized_Returns now a f d n d' : authorized now a f d = Returns (n, d') -> d' = d /\
  exists row, db_nodes d !! ingress_nodeId (spec f) = Some row /\ n = nd_facts row /\ nd_revoked row = false /\ now < default 0 (nd_credential_until row) /\
    (ingress_nodeId (spec f), a) ∈ db_node_grants d /\ intentAllowed n f = true.
Proof.
  intros Hr. split; [symmetry; by eapply reads_authorized|]. unfold authorized in Hr. apply tx_bind_Returns in Hr as ([] & d1 & [-> _]%scope_Returns & Hr).
  apply tx_bind_Returns in Hr as (g & d1 & [-> ->]%query_Returns & Hr). apply tx_bind_Returns in Hr as ([] & d1 & [Hg ->]%require_Returns & Hr).
  apply tx_bind_Returns in Hr as (st & d1 & Hf & Hr). unfold facts, state in Hf. apply tx_bind_Returns in Hf as (st0 & d2 & Hst & Hf).
  apply tx_bind_Returns in Hst as (node & d3 & [-> ->]%query_Returns & Hst). unfold granted in Hg. destruct (db_nodes d !! _) as [row|] eqn:En; [|done].
  apply mret_Returns in Hst as [-> ->]. apply tx_bind_Returns in Hf as ([] & d3 & [Hc ->]%require_Returns & [-> ->]%mret_Returns). cbn in Hc.
  apply tx_bind_Returns in Hr as ([] & d3 & [Hi ->]%require_Returns & [-> _]%mret_Returns). cbn in *. apply andb_prop in Hg as [_ Hg%bool_decide_eq_true].
  propify. exists row. split_and!; done.
Qed.

Lemma probed_node_Returns now a s f d n d' : probed_node now a s f d = Returns (n, d') -> d' = d /\
  exists row, db_nodes d !! ingress_nodeId (spec f) = Some row /\ n = nd_facts row /\ nd_revoked row = false /\ now < default 0 (nd_credential_until row) /\
    (ingress_nodeId (spec f), a) ∈ db_node_grants d /\ nf_nodeId n = ingress_nodeId (spec f) /\ targetAllowed (host (target (spec f))) (no_metadata n) = true.
Proof.
  intros Hr. unfold probed_node in Hr. apply tx_bind_Returns in Hr as (n0 & d1 & (-> & row & Hrow & -> & Hv & Hc & Hg & _)%authorized_Returns & Hr).
  apply tx_bind_Returns in Hr as ([] & d1 & [Ht ->]%require_Returns & [-> ->]%mret_Returns). propify. strings. split; [done|]. exists row. split_and!; done.
Qed.

Lemma probed_assignment_Returns f n s d a c d' : probed_assignment f n s d = Returns ((a, c), d') -> d' = d /\
  a ∈ rus_assignments s /\ rua_forwardId a = id f /\ rua_protocol a = tcp /\ rua_driver a = DirectDriver c /\ rua_forwardRevision a = revision f /\
  rua_phase a = active /\ dc_target c = target (spec f) /\ dc_egressPolicyRevision c = nf_egressPolicyRevision n.
Proof.
  unfold probed_assignment, unavailable. intros Hr. destruct (List.filter _ _) as [|a0 [|]] eqn:Ef; try done.
  assert (Ha : In a0 (List.filter (fun a => str_eqb (rua_forwardId a) (id f) && bool_decide (rua_protocol a = tcp)) (rus_assignments s))) by (rewrite Ef; by left).
  apply filter_In in Ha as [Hin Ha]. destruct (rua_driver a0) as [c0| |] eqn:Ed; [|done..].
  apply tx_bind_Returns in Hr as ([] & d1 & [Hi ->]%require_Returns & Hr). apply tx_bind_Returns in Hr as ([] & d1 & [Ht ->]%require_Returns & [[= -> ->] ->]%mret_Returns).
  unfold runs_intent, same_target in *. propify. strings. split_and!; try done; [by apply list_elem_of_In|]. destruct (dc_target c0), (target (spec f)). cbn in *. congruence.
Qed.

Section Published.
Context `{Hashing, Schema RelayProfileConfig, Schema RelayOpen, Schema RelayAssignment, Adp2Schemas, Adp3Schemas, Schema ProbeResultRequest}.
Context (octets : json -> Z) (skew : Z).

Lemma read_published_Returns s n d p d' : read_published octets s n d = Returns (Some p, d') -> d' = d /\
  exists node r row, db_nodes d !! n = Some node /\ db_runtime_nodes d !! n = Some r /\ db_snapshots d !! (n, rn_snapshot_generation r) = Some row /\
    parseRuntimeMessage Snapshot_ (stringify (runtime_snapshot_json (sn_body row))) 1048576 = Returns (ps_snapshot p) /\
    ps_bootId p = rn_boot_id r /\ ps_sessionEpoch p = rn_session_epoch r /\ ps_credentialUntil p = default 0 (nd_credential_until node) /\
    rus_snapshotGeneration (ps_snapshot p) = rn_snapshot_generation r.
Proof using.
  intros Hr. unfold read_published in Hr. apply tx_bind_Returns in Hr as (row & d1 & [-> ->]%query_Returns & Hr). unfold published_row in Hr.
  destruct (db_nodes d !! n) as [node|] eqn:En; [|done]. destruct (db_runtime_nodes d !! n) as [r|] eqn:Er; [|done].
  cbn [mbind option_bind] in Hr. destruct (db_snapshots d !! _) as [row|] eqn:Es; [|done]. cbn [mbind option_bind] in Hr.
  destruct (_ && _ && _ && _) in Hr; [|done]. apply tx_bind_Returns in Hr as (sn & d1 & [Hp ->]%lift_Returns & Hr).
  destruct (str_eqb (rus_nodeId sn) n && _ && _ && _) eqn:E; [|done]. apply mret_Returns in Hr as [[= ->] ->]. split; [done|]. exists node, r, row. cbn.
  apply andb_prop in E as [E _]. apply andb_prop in E as [_ Eg%Z.eqb_eq]. split_and!; done.
Qed.

Lemma plan_expiry_Some now p e : plan_expiry now skew p = Some e ->
  exists valid, Date_text (rus_validUntil (ps_snapshot p)) = Some valid /\ now < e /\ e <= now + 2000 /\ e <= ps_credentialUntil p /\ e <= valid - skew.
Proof using.
  unfold plan_expiry. destruct (Date_text (rus_issuedAt _)); [|done]. destruct (Date_text (rus_validUntil _)) as [v|]; [|done]. cbn zeta.
  destruct (_ && _) eqn:E; [|done]. intros [= <-]. exists v. propify. split_and!; [done|lia..].
Qed.
End Published.

(** What a Probe under binding [b] rests on: the intent, the Node, its session, and the
    Assignment of the Snapshot the Node was last given. *)
Record rests_on `{Hashing, Schema RelayProfileConfig, Schema RelayOpen, Schema RelayAssignment, Adp2Schemas, Adp3Schemas}
    (skew now : Z) (actor scopeId : jsstr) (b : ProbeClaimBinding) (until_ : Z) (d : Db) (f : ForwardRow) (n : NodeRow) (r : RuntimeNode) (a : RuntimeAssignment) : Prop := {
  ro_member : exists m, member scopeId actor d = Some m /\ mb_can_manage m = true;
  ro_forward : db_forwards d !! pb_forwardId b = Some f /\ fw_scope_id f = scopeId /\ fw_revision f = pb_forwardRevision b;
  ro_enabled : enabled (fw_spec f) = true /\ fw_deleting f = false /\ fw_recovery_suspended f = false;
  ro_direct : path_via (fw_spec f) = None /\ tcp ∈ protocols (fw_spec f) /\ is_Some (ipBytes (host (target (fw_spec f))));
  ro_node : db_nodes d !! ingress_nodeId (fw_spec f) = Some n /\ pb_nodeId b = ingress_nodeId (fw_spec f) /\ nd_revoked n = false /\
            now < default 0 (nd_credential_until n) /\ (pb_nodeId b, actor) ∈ db_node_grants d;
  ro_target : targetAllowed (host (target (fw_spec f))) (no_metadata (nd_facts n)) = true /\ pb_egressPolicyRevision b = nf_egressPolicyRevision (nd_facts n);
  ro_session : db_runtime_nodes d !! pb_nodeId b = Some r /\ rn_boot_id r = Some (pb_bootId b) /\ rn_session_epoch r = pb_sessionEpoch b /\
               rn_snapshot_generation r = pb_snapshotGeneration b;
  ro_snapshot : exists row s valid, db_snapshots d !! (pb_nodeId b, pb_snapshotGeneration b) = Some row /\
    parseRuntimeMessage Snapshot_ (stringify (runtime_snapshot_json (sn_body row))) 1048576 = Returns s /\ a ∈ rus_assignments s /\
    Date_text (rus_validUntil s) = Some valid /\ until_ <= valid - skew;
  ro_assignment : rua_assignmentId a = pb_assignmentId b /\ rua_forwardId a = pb_forwardId b /\ rua_forwardRevision a = pb_forwardRevision b /\
    rua_deploymentGeneration a = pb_deploymentGeneration b /\ rua_bindingFence a = pb_bindingFence b /\ rua_configDigest a = pb_configDigest b /\
    rua_protocol a = tcp /\ rua_phase a = active;
  ro_driver : exists c, rua_driver a = DirectDriver c /\ dc_target c = target (fw_spec f);
}.

Section Authority.
Context `{Hashing, Schema RelayProfileConfig, Schema RelayOpen, Schema RelayAssignment, Adp2Schemas, Adp3Schemas, Schema ProbeResultRequest}.
Context (octets : json -> Z) (skew : Z).

Lemma plan_request_Returns a s i input c : plan_request a s i input = Returns c -> is_id a && is_id s && is_id i = true /\
  exists fs, only_keys plan_keys input = Some fs /\ probe_command fs = Some c.
Proof using.
  unfold plan_request. destruct (is_id a && is_id s && is_id i); [|done]. cbn. destruct (only_keys plan_keys input) as [fs|]; [|done].
  destruct (probe_command fs) as [c'|] eqn:Ec; [|done]. intros [= ->]. split; [done|]. by exists fs.
Qed.

(** A plan for [plan_input] is for that revision and timeout. *)
Lemma plan_input_command r t fs c : only_keys plan_keys (plan_input r t) = Some fs -> probe_command fs = Some c -> c = (r, t).
Proof using.
  unfold only_keys. cbn [plan_input as_object mbind option_bind]. destruct (forallb _ _); [|done]. intros [= <-]. unfold probe_command.
  change (get _ (js "timeoutMs")) with (Num (NInt t)). change (get _ (js "expectedRevision")) with (Num (NInt r)). cbn [probe_timeout mbind option_bind the_int].
  destruct ((100 <=? t) && (t <=? 2000)); [|done]. cbn [mbind option_bind]. destruct (_ && isCounter _ _); [|done]. by intros [= <-].
Qed.

Lemma authorize_plan_Returns clock a s i r t d plan d' : forwards_wf d -> authorize_plan octets skew clock a s i (plan_input r t) d = Returns (plan, d') ->
  d' = d /\ fp_scopeId plan = s /\ pb_forwardId (fp_binding plan) = i /\ pb_forwardRevision (fp_binding plan) = r /\ fp_timeoutMs plan = t /\ clock 1%nat < fp_expiresAt plan /\
  exists f n rn asg, rests_on skew (clock 0%nat) a s (fp_binding plan) (fp_expiresAt plan) d f n rn asg /\ fp_expiresAt plan <= default 0 (nd_credential_until n).
Proof using.
  intros Hwf Hr. unfold authorize_plan in Hr. apply tx_bind_Returns in Hr as ([rev tm] & d0 & [Hq ->]%lift_Returns & Hr).
  apply plan_request_Returns in Hq as (_ & fs & Hk & Hc). pose proof (plan_input_command _ _ _ _ Hk Hc) as [= -> ->]. clear Hk Hc.
  apply tx_bind_Returns in Hr as ([] & d0 & [-> (m & Hm & Hmm)]%scope_Returns & Hr).
  apply tx_bind_Returns in Hr as (f0 & d0 & (-> & f & Hf & -> & Hfs & Hfr & Hdel & Hsus & Hen & Hpath & Htcp & Hip)%probed_forward_Returns & Hr); [|done].
  apply tx_bind_Returns in Hr as (n0 & d0 & (-> & n & Hn & -> & Hrev & Hcred & Hg & Hnid & Htgt)%probed_node_Returns & Hr).
  apply tx_bind_Returns in Hr as (cur & d0 & Hpub & Hr). destruct cur as [p|]; [|done].
  apply read_published_Returns in Hpub as (-> & node & rn & row & Hnode & Hrn & Hrow & Hparse & Hboot & Hepoch & Hcu & Hgen). cbn zeta in Hr.
  apply tx_bind_Returns in Hr as ([] & d0 & [Hsess ->]%require_Returns & Hr).
  apply tx_bind_Returns in Hr as ([asg c] & d0 & (-> & Hin & Hafid & Hap & Had & Har & Haph & Hct & Hcp)%probed_assignment_Returns & Hr).
  destruct (plan_expiry _ _ p) as [e|] eqn:Ee; [|done]. apply plan_expiry_Some in Ee as (valid & Hvalid & He1 & He2 & He3 & He4).
  apply tx_bind_Returns in Hr as (planned & d0 & [_ ->]%lift_Returns & Hr). apply tx_bind_Returns in Hr as (x & d0 & [_ ->]%lift_Returns & [-> ->]%mret_Returns). cbn.
  cbn in Hn, Hg, Hafid, Har, Hct, Htgt, Hnid. rewrite Hnid in Hnode, Hrn, Hrow. cbn in Hnode. assert (node = n) as -> by congruence.
  split; [done|]. do 5 (split; [done|]). exists f, n, rn, asg.
  assert (Hb : rn_boot_id rn = Some (default [] (rn_boot_id rn))).
  { rewrite <- Hboot. propify. destruct (ps_bootId p); [done|]. cbn in *. done. }
  split; [|by rewrite <- Hcu]. split; cbn [fp_binding fp_expiresAt pb_nodeId pb_bootId pb_sessionEpoch pb_snapshotGeneration pb_assignmentId pb_forwardId
    pb_forwardRevision pb_deploymentGeneration pb_bindingFence pb_configDigest pb_egressPolicyRevision]; rewrite ?Hnid; try done.
  - exists m. split; [done|]. by apply Hmm.
  - rewrite Hboot, Hepoch, Hgen. done.
  - exists row, (ps_snapshot p), valid. rewrite Hgen. split_and!; done.
  - split_and!; done || congruence.
  - exists c. done.
Qed.

Lemma rests_on_until t a s b u u' d f n r asg : u' <= u -> rests_on skew t a s b u d f n r asg -> rests_on skew t a s b u' d f n r asg.
Proof using.
  intros Hu [A1 A2 A3 A4 A5 A6 A7 (row & sn & v & E1 & E2 & E3 & E4 & E5) A9 A10]. split; try done. exists row, sn, v. split_and!; [done..|lia].
Qed.

(** The registered instance that a permit names, live until the permit expires. *)
Definition instance_backs (now : Z) (p : ProbePermit) (d : Db) (s : ProbeSlot) : Prop :=
  db_probe_instances d !! pb_nodeId (pp_binding p) = Some (Some s) /\ pi_state s = ps_registered /\ pi_instanceId s = pp_instanceId p /\
  pi_generation s = pp_instanceGeneration p /\ pi_fingerprint s = pp_fingerprint p /\ pi_bootId s = pb_bootId (pp_binding p) /\
  pi_sessionEpoch s = pb_sessionEpoch (pp_binding p) /\ pi_registeredAt s <= now /\ pp_expiresAt p <= pi_expiresAt s.

(** The credential of the machine, not revoked and valid until the permit expires. *)
Definition credential_backs (p : ProbePermit) (d : Db) (c : CredentialRow) : Prop :=
  db_credentials d !! pp_fingerprint p = Some c /\ cr_node_id c = pb_nodeId (pp_binding p) /\ cr_revoked c = false /\ pp_expiresAt p <= cr_valid_until c /\
  forall u, cr_retire_after c = Some u -> pp_expiresAt p <= u.

(** Everything a permit rests on, from [now] until it expires. *)
Record permit_backed (t now : Z) (p : ProbePermit) (d : Db) : Prop := {
  bk_plan : exists f n r a, rests_on skew t (pp_actorId p) (pp_scopeId p) (pp_binding p) (pp_expiresAt p) d f n r a /\ pp_expiresAt p <= default 0 (nd_credential_until n) /\
    forallb (includes (nf_capabilities (nd_facts n))) direct_capabilities = true;
  bk_instance : exists s, instance_backs now p d s;
  bk_credential : exists c, credential_backs p d c;
  bk_time : pp_issuedAt p <= now < pp_expiresAt p;
}.

Lemma read_instance_Returns n d s d' : read_instance n d = Returns (Some s, d') -> d' = d /\ db_probe_instances d !! n = Some (Some s).
Proof using.
  unfold read_instance, slot_record. intros Hr. apply tx_bind_Returns in Hr as (row & d1 & [-> ->]%query_Returns & Hr).
  destruct (db_probe_instances d !! n) as [[s0|]|]; [|by apply mret_Returns in Hr as [? _]..].
  apply tx_bind_Returns in Hr as ([] & d1 & [_ ->]%require_Returns & [[= ->] ->]%mret_Returns). done.
Qed.

Lemma registered_Returns n b e i g fp d s m d' : registered n b e i g fp d = Returns ((s, m), d') -> d' = d /\ db_probe_instances d !! n = Some (Some s) /\
  pi_state s = ps_registered /\ pi_instanceId s = i /\ pi_generation s = g /\ pi_bootId s = b /\ pi_sessionEpoch s = e /\
  (forall x, fp = Some x -> pi_fingerprint s = x) /\ m = evidence_of n <$> machine_row n (pi_fingerprint s) d.
Proof using.
  unfold registered. intros Hr. apply tx_bind_Returns in Hr as ([s0|] & d1 & Hi & Hr); [|done]. apply read_instance_Returns in Hi as [-> Hi].
  unfold require_available, read_machine in Hr. apply tx_bind_Returns in Hr as ([] & d1 & [Hg ->]%require_Returns & Hr).
  apply tx_bind_Returns in Hr as (m0 & d1 & [-> ->]%query_Returns & [[= -> ->] ->]%mret_Returns).
  apply andb_prop in Hg as [Hg Hfp]. propify. strings. split_and!; try done. intros x ->. by apply str_eqb_true.
Qed.

Lemma requireProbeMachine_Returns n fp b e now d m ev d' : requireProbeMachine (evidence_of n <$> m) n b e now true d = Returns (ev, d') -> m = machine_row n fp d ->
  d' = d /\ exists c node, db_credentials d !! fp = Some c /\ cr_node_id c = n /\ cr_revoked c = false /\ db_nodes d !! n = Some node /\
    pe_credentialUntil ev = cr_valid_until c /\ pe_retireAfter ev = cr_retire_after c /\ pe_nodeCredentialUntil ev = default 0 (nd_credential_until node) /\
    forallb (includes (nf_capabilities (nd_facts node))) direct_capabilities = true.
Proof using.
  intros Hr ->. unfold machine_row in Hr. destruct (db_runtime_nodes d !! n) as [r|]; [|done]. destruct (db_nodes d !! n) as [node|] eqn:En; [|done]. cbn [fmap option_fmap option_map] in Hr.
  unfold requireProbeMachine in Hr. apply tx_bind_Returns in Hr as ([] & d1 & [_ ->]%require_Returns & Hr). apply tx_bind_Returns in Hr as ([] & d1 & [Hc ->]%require_Returns & Hr).
  apply tx_bind_Returns in Hr as ([] & d1 & [Hcap ->]%require_Returns & [-> ->]%mret_Returns). split; [done|].
  change (forallb (includes (nf_capabilities (nd_facts node))) direct_capabilities = true) in Hcap. unfold credential_lasts, evidence_of in *.
  assert (Hno : forall x y z w : bool, x && false && y && z && w = false) by by intros [] [] [] [].
  destruct (db_credentials d !! fp) as [c|]; [|by cbn in Hc; rewrite Hno in Hc]. destruct (str_eqb (cr_node_id c) n) eqn:E; [|by cbn in Hc; rewrite Hno in Hc].
  apply str_eqb_true in E. cbn in Hc. exists c, node. propify. split_and!; exact Hcap || done.
Qed.

Lemma evidence_until_le b e x : x <= evidence_until b e ->
  x <= b /\ x <= pe_nodeCredentialUntil e /\ x <= pe_credentialUntil e /\ forall u, pe_retireAfter e = Some u -> x <= u.
Proof using. unfold evidence_until. destruct (pe_retireAfter e); intros; split_and!; try lia; intros u [= <-]; lia. Qed.

Lemma authorize_permit_Returns clock fl p d now d' : forwards_wf d -> authorize_permit octets skew clock fl p d = Returns (now, d') ->
  d' = d /\ now = clock 2%nat /\ fl <= now /\ permit_backed (clock 0%nat) now p d.
Proof using.
  intros Hwf Hr. unfold authorize_permit in Hr. cbn zeta in Hr.
  apply tx_bind_Returns in Hr as (plan & d0 & (-> & Es & Ef & Er & Et & Hp & f & n & r & a & Hrest & Hcred)%authorize_plan_Returns & Hr); [|done].
  unfold require_available in Hr. apply tx_bind_Returns in Hr as ([] & d0 & [Hb ->]%require_Returns & Hr). unfold same_binding in Hb.
  assert (Eb : fp_binding plan = pp_binding p) by (propify; done). rewrite Eb in Hrest. clear Hb.
  apply tx_bind_Returns in Hr as ([slot m] & d0 & Hc & Hr). unfold current_instance in Hc.
  apply tx_bind_Returns in Hc as ([] & d1 & [_ ->]%require_Returns & (-> & Hs & Hst & Hi & Hg & Hbo & He & Hfp & ->)%registered_Returns).
  specialize (Hfp _ eq_refl). rewrite Hfp in Hr.
  apply tx_bind_Returns in Hr as (nw & d0 & (-> & -> & [Hfl _] & _)%permit_now_Returns & Hr). apply tx_bind_Returns in Hr as (ev & d0 & Hm & Hr).
  destruct (requireProbeMachine_Returns _ _ _ _ _ _ _ _ _ Hm eq_refl) as (-> & c & node & Hcr & Hcn & Hrev & Hnode & Ecu & Era & Enu & Hcap).
  apply tx_bind_Returns in Hr as ([] & d0 & [Ht ->]%require_Returns & [-> ->]%mret_Returns). unfold slot_live in Ht.
  apply andb_prop in Ht as [Ht Hup%Z.leb_le]. apply evidence_until_le in Hup as (U1 & U2 & U3 & U4). propify.
  destruct (ro_node _ _ _ _ _ _ _ _ _ _ _ Hrest) as (Hn & En & _). rewrite En in Hnode. assert (node = n) as -> by congruence.
  split; [done|]. split; [done|]. split; [done|]. split; [|exists slot|exists c|lia].
  - exists f, n, r, a. split; [eapply rests_on_until; [|exact Hrest]; lia|]. split; [congruence|done].
  - split_and!; done || lia.
  - split_and!; try done; [congruence|]. intros u Hu. apply U4. congruence.
Qed.


End Authority.
