(* ===== verification/ProbeControl.v ===== *)
(** The Probe commands together: the states they reach, one use of a permit, one result. *)

From S2P Require Import Prelude.
From S2P Require Import JsString.
From S2P Require Import JsValue.
From S2P Require Import Primitives.
From S2P Require Import Json.
From S2P Require Import Forward.
From S2P Require Import Digest.
From S2P Require Import Types.
From S2P Require Import Validate.
From S2P Require Import Schema.
From S2P Require Import Relay.
From S2P Require Import Adp3.
From S2P Require Import TargetPolicy.
From S2P Require Import Probe.
From S2P Require Import RelayPlan.
From S2P Require Import Iso.
From S2P Require Import Store.
From S2P Require Import Forwarding.
From S2P Require Import Retirements.
From S2P Require Import Identity.
From S2P Require Import Nodes.
From S2P Require Import Reads.
From S2P Require Import TransitStaging.
From S2P Require Import TransitDelivery.
From S2P Require Import ProbeInstances.
From S2P Require Import ProbePlans.
From S2P Require Import ProbePermits.
From S2P Require Import ProbeMoves.
From S2P Require Import ProbeSafety.
From S2P Require Import ProbeAuthority.
From S2P Require Import Idempotency.
From S2P Require Import ForwardCommands.

Local Open Scope Z_scope.

(** ** Results *)

Section Results.
Context `{Hashing, Schema RelayProfileConfig, Schema RelayOpen, Schema RelayAssignment, Adp2Schemas, Adp3Schemas, Schema ProbeResultRequest}.
Context (octets : json -> Z) (skew : Z).

(** The request is about permit [p], in every member. *)
Definition reports (fp : jsstr) (q : ProbeResultRequest) (p : ProbePermit) : Prop :=
  pp_fingerprint p = fp /\ pp_instanceId p = pm_instanceId (prq_machine q) /\ pp_instanceGeneration p = pm_instanceGeneration (prq_machine q) /\
  pp_binding p = prq_binding q /\ pp_timeoutMs p = prq_timeoutMs q /\ toISOString (pp_issuedAt p) = Returns (prq_issuedAt q) /\
  toISOString (pp_expiresAt p) = Returns (prq_expiresAt q) /\ exists t, pp_closedAt p = Some t /\ toISOString t = Returns (prq_consumedAt q).

Lemma reports_permit_Returns fp q p d d' : reports_permit fp q p d = Returns (true, d') -> d' = d /\ reports fp q p.
Proof using.
  intros Hr. pose proof (reads_reports_permit _ _ _ _ _ _ Hr) as <-. split; [done|]. unfold reports_permit in Hr.
  destruct (negb _) eqn:E1 in Hr; [by apply mret_Returns in Hr as [? _]|]. apply negb_false_iff in E1.
  apply tx_bind_Returns in Hr as (x & d1 & [Hx ->]%lift_Returns & Hr). destruct (negb _) eqn:E2 in Hr; [by apply mret_Returns in Hr as [? _]|]. apply negb_false_iff in E2.
  apply tx_bind_Returns in Hr as (y & d1 & [Hy ->]%lift_Returns & Hr). destruct (negb _) eqn:E3 in Hr; [by apply mret_Returns in Hr as [? _]|]. apply negb_false_iff in E3.
  destruct (pp_closedAt p) as [t|] eqn:Et; [|by apply mret_Returns in Hr as [? _]]. apply tx_bind_Returns in Hr as (z & d1 & [Hz ->]%lift_Returns & [E4 _]%mret_Returns).
  symmetry in E4. unfold same_binding in E1. propify. strings. subst. split_and!; try done. by exists t.
Qed.

(** What receiving a result means: the first one is stored, a later one is compared. *)
Lemma receive_result_Returns clock n fp e input d rx d' : receive_result octets skew clock n fp e input d = Returns (rx, d') ->
  exists q dg p, parseProbeResultRequest (stringify (document input)) = Returns q /\ probeResultDigest q = Returns dg /\ rx_resultDigest rx = dg /\
    pm_nodeId (prq_machine q) = n /\ pm_sessionEpoch (prq_machine q) = e /\
    db_permits d !! prq_permitId q = Some p /\ pp_state p = pm_consumed /\ db_withdrawals d !! prq_permitId q = None /\ reports fp q p /\
    (exists t, authorize_permit octets skew (fun k => clock (1 + k)%nat) (clock 0%nat) p d = Returns (t, d) /\ t <= clock 4%nat) /\
    db_probe_clock d <= clock 4%nat < pp_expiresAt p /\ measured_in_time (clock 4%nat) q = true /\
    match db_probe_results d !! prq_permitId q with
    | Some r => d' = d /\ pr_digest r = dg /\ rx_acceptedAt rx = pr_accepted_at r /\ rx_duplicate rx = true
    | None => db_probe_clock d <= clock 4%nat /\ d' = with_probe_clock (fun _ => clock 4%nat) (with_probe_results (insert (prq_permitId q) (MkProbeResultRow q dg (clock 4%nat))) d) /\
              rx_acceptedAt rx = clock 4%nat /\ rx_duplicate rx = false
    end.
Proof using.
  intros Hr. unfold receive_result in Hr. apply tx_bind_Returns in Hr as (q & d1 & [Hq ->]%lift_Returns & Hr). cbn zeta in Hr.
  apply tx_bind_Returns in Hr as ([] & d1 & [Hn ->]%require_Returns & Hr). apply tx_bind_Returns in Hr as ([] & d1 & [_ ->]%require_Returns & Hr).
  apply tx_bind_Returns in Hr as (dg & d1 & [Hdg ->]%lift_Returns & Hr). apply tx_bind_Returns in Hr as (b & d1 & [-> Hb]%budget_Returns & Hr).
  rewrite (bd_find _ _ _ Hb) in Hr. destruct (db_permits d !! prq_permitId q) as [p|] eqn:Ep; [|done]. unfold require_available in Hr.
  apply tx_bind_Returns in Hr as ([] & d1 & [Hs ->]%require_Returns & Hr). rewrite (bd_withdrawn _ _ _ Hb) in Hs.
  apply tx_bind_Returns in Hr as (mt & d1 & Hm & Hr). apply tx_bind_Returns in Hr as ([] & d2 & [-> ->]%require_Returns & Hr).
  apply reports_permit_Returns in Hm as [-> Hrep]. apply tx_bind_Returns in Hr as (at_ & d1 & Ha & Hr).
  pose proof (reads_authorize_permit _ _ _ _ _ _ _ _ Ha) as <-. destruct (authorize_permit_time _ _ _ _ _ _ _ _ Ha) as (_ & Hfl & _). apply tx_bind_Returns in Hr as (prev & d1 & [-> ->]%query_Returns & Hr).
  apply tx_bind_Returns in Hr as (now & d1 & (-> & -> & Hnow & _)%permit_now_Returns & Hr). apply tx_bind_Returns in Hr as ([] & d1 & [Hms ->]%require_Returns & Hr).
  destruct (bd_now _ _ _ Hb) as [E0 Hc]. rewrite E0 in Ha. apply andb_prop in Hms as [Hms Hexp%Z.ltb_lt]. propify. strings.
  assert (Hau : exists t, authorize_permit octets skew (fun k => clock (1 + k)%nat) (clock 0%nat) p d = Returns (t, d) /\ t <= clock 4%nat) by (exists at_; split; [exact Ha|apply Hnow]).
  clear Ha.
  exists q, dg, p. unfold accept_result in Hr. destruct (db_probe_results d !! prq_permitId q) as [r|] eqn:Er.
  - apply tx_bind_Returns in Hr as ([] & d1 & [_ ->]%require_Returns & Hr). apply tx_bind_Returns in Hr as ([] & d1 & [Hd%str_eqb_true ->]%require_Returns & [-> ->]%mret_Returns).
    split_and!; done || lia.
  - apply tx_bind_Returns in Hr as ([] & d1 & [_ ->]%record_result_Returns & Hr). apply tx_bind_Returns in Hr as ([] & d2 & [Hc4 ->]%set_clock_Returns & Hr).
    apply tx_bind_Returns in Hr as (later & d3 & (-> & -> & _)%permit_now_Returns & Hr). unfold require_available in Hr.
    apply tx_bind_Returns in Hr as ([] & d3 & [_ ->]%require_Returns & [-> ->]%mret_Returns). split_and!; done || lia.
Qed.

(** C15. A result is accepted from the machine of a consumed permit that was not withdrawn, in
    the words of that permit, while everything the permit rests on is current; the first
    one is stored with its digest and the time, and nothing else changes. *)
Theorem result_exact clock n fp e input d rx d' : forwards_wf d -> receive_result octets skew clock n fp e input d = Returns (rx, d') ->
  exists q p, parseProbeResultRequest (stringify (document input)) = Returns q /\ probeResultDigest q = Returns (rx_resultDigest rx) /\
    pm_nodeId (prq_machine q) = n /\ pm_sessionEpoch (prq_machine q) = e /\ db_permits d !! prq_permitId q = Some p /\ pp_state p = pm_consumed /\
    db_withdrawals d !! prq_permitId q = None /\ reports fp q p /\ permit_backed skew (clock 1%nat) (clock 3%nat) p d /\
    clock 3%nat <= clock 4%nat < pp_expiresAt p /\ measured_in_time (clock 4%nat) q = true /\
    match db_probe_results d !! prq_permitId q with
    | Some r => d' = d /\ pr_digest r = rx_resultDigest rx /\ rx_acceptedAt rx = pr_accepted_at r /\ rx_duplicate rx = true
    | None => rx_acceptedAt rx = clock 4%nat /\ rx_duplicate rx = false /\ db_probe_clock d <= clock 4%nat /\
              d' = with_probe_clock (fun _ => clock 4%nat) (with_probe_results (insert (prq_permitId q) (MkProbeResultRow q (rx_resultDigest rx) (clock 4%nat))) d)
    end.
Proof using.
  intros Hwf (q & dg & p & Hq & Hdg & <- & Hn & He & Hp & Hs & Hw & Hrep & (t & Ha & Ht) & Hlt & Hm & Hr)%receive_result_Returns.
  apply authorize_permit_Returns in Ha as (_ & -> & _ & Hback); [|done]. exists q, p. cbn in Ht, Hback. split_and!; try done; [lia|].
  destruct (db_probe_results d !! prq_permitId q); [done|]. naive_solver.
Qed.

Lemma sound_receive clock n fp e input : evolves sound_step (receive_result octets skew clock n fp e input).
Proof using.
  intros d rx d' (q & dg & p & _ & _ & _ & _ & _ & Hp & Hs & _ & _ & _ & _ & _ & Hr)%receive_result_Returns.
  destruct (db_probe_results d !! prq_permitId q) as [r|] eqn:Er; [destruct Hr as [-> _]; reflexivity|]. destruct Hr as (Hc & -> & _).
  etransitivity; [by apply (result_sound (prq_permitId q) p)|]. apply (sound_clock (clock 4%nat)). exact Hc.
Qed.
End Results.

(** ** Instances and permits leave each other alone *)

(** The instances advance. *)
#[local] Hint Resolve lock_instance_le replace_instance_le : evolves.
#[local] Hint Extern 5 (evolves instances_le _) => apply evolves_reads; [apply _|] : evolves.

Lemma register_instance_le clock n fp e c : evolves instances_le (register_instance clock n fp e c).
Proof. unfold register_instance, replay_instance, accept_instance, instance_conflict, check_instance_command, check_identity. evolve. Qed.

Lemma revoke_instance_le clock n fp e c : evolves instances_le (revoke_instance clock n fp e c).
Proof. unfold revoke_instance, instance_conflict, check_instance_command, check_identity. evolve. Qed.

Lemma sound_register_instance clock n fp e c : evolves sound_step (register_instance clock n fp e c).
Proof.
  unfold register_instance, replay_instance, accept_instance, instance_conflict, check_instance_command, check_identity, lock_instance, replace_instance, slot_record. evolve.
Qed.

Lemma sound_revoke_instance clock n fp e c : evolves sound_step (revoke_instance clock n fp e c).
Proof. unfold revoke_instance, instance_conflict, check_instance_command, check_identity, lock_instance, replace_instance, slot_record. evolve. Qed.

Lemma sound_quarantine_instances now : evolves sound_step (quarantine_instances now).
Proof. unfold quarantine_instances. evolve. Qed.

(** The commands on permits keep the instances. *)
Definition slots_kept (d d' : Db) : Prop := db_probe_instances d' = db_probe_instances d.

#[export] Instance slots_kept_preorder : PreOrder slots_kept.
Proof. split; [done|]. intros d d1 d2. unfold slots_kept. congruence. Qed.

#[local] Hint Extern 3 (evolves slots_kept (modify _)) => apply evolves_modify; intros d; reflexivity : evolves.
#[local] Hint Extern 5 (evolves slots_kept _) => apply evolves_reads; [apply _|] : evolves.

Lemma kept_finish now : evolves slots_kept (finish now).
Proof. unfold finish, prune, set_clock. evolve. Qed.

Lemma kept_close i s t : evolves slots_kept (close_permit i s t).
Proof. unfold close_permit. evolve. Qed.

Lemma kept_withdraw i t : evolves slots_kept (withdraw_permit i t).
Proof. unfold withdraw_permit, insert_row. evolve. Qed.

Lemma kept_quarantine clock : evolves slots_kept (quarantine_permits clock).
Proof. unfold quarantine_permits. evolve. Qed.
#[local] Hint Resolve kept_finish kept_close kept_withdraw : evolves.

Section Kept.
Context `{Hashing, Schema RelayProfileConfig, Schema RelayOpen, Schema RelayAssignment, Adp2Schemas, Adp3Schemas, Schema ProbeResultRequest}.
Context (octets : json -> Z) (skew : Z) (uuid : Db -> jsstr).

Lemma kept_issue_in clock a s f c sel : evolves slots_kept (issue_in octets skew uuid clock a s f c sel).
Proof using.
  intros d [i p] d' (b & d1 & _ & _ & Hf & _ & -> & _)%issue_in_Returns. apply kept_finish in Hf. exact Hf.
Qed.
Hint Resolve kept_issue_in : evolves.

Lemma kept_issue clock a s f input : evolves slots_kept (issue_permit octets skew uuid clock a s f input).
Proof using. unfold issue_permit. evolve. Qed.

Lemma kept_create e clock a s f key input : evolves slots_kept (create_probe octets skew uuid e clock a s f key input).
Proof using.
  unfold create_probe, invalid_input, issueCurrentIn, once. evolve; try done; [intros d res d' (-> & _)%claim_spec; done|unfold respond; apply evolves_modify; done].
Qed.

Lemma kept_consume clock n fp e c : evolves slots_kept (consume_permit octets skew clock n fp e c).
Proof using. unfold consume_permit, machine_command, permit_unavailable. evolve. Qed.

Lemma kept_revoke clock a s i : evolves slots_kept (revoke_permit octets clock a s i).
Proof using. unfold revoke_permit, notFound, require_available. evolve. Qed.

Lemma kept_receive clock n fp e input : evolves slots_kept (receive_result octets skew clock n fp e input).
Proof using.
  intros d rx d' (q & dg & p & _ & _ & _ & _ & _ & _ & _ & _ & _ & _ & _ & _ & Hr)%receive_result_Returns.
  destruct (db_probe_results d !! prq_permitId q); [by destruct Hr as [-> _]|]. by destruct Hr as (_ & -> & _).
Qed.
End Kept.

(** ** Runs *)

Section Runs.
Context `{Hashing, Schema RelayProfileConfig, Schema RelayOpen, Schema RelayAssignment, Adp2Schemas, Adp3Schemas, Schema ProbeResultRequest}.
Context (octets : json -> Z) (skew : Z) (uuid : Db -> jsstr).

(** The transactions that write the Probe tables, and any other of the control plane. *)
Inductive probe_step (d d' : Db) : Prop :=
  | pst_issue clock a s f input r : issue_permit octets skew uuid clock a s f input d = Returns (r, d') -> probe_step d d'
  | pst_create e clock a s f key input r : create_probe octets skew uuid e clock a s f key input d = Returns (r, d') -> probe_step d d'
  | pst_consume clock n fp e c r : consume_permit octets skew clock n fp e c d = Returns (r, d') -> probe_step d d'
  | pst_receive clock n fp e input r : receive_result octets skew clock n fp e input d = Returns (r, d') -> probe_step d d'
  | pst_revoke clock a s i r : revoke_permit octets clock a s i d = Returns (r, d') -> probe_step d d'
  | pst_quarantine clock r : quarantine_permits clock d = Returns (r, d') -> probe_step d d'
  | pst_register clock n fp e c r : register_instance clock n fp e c d = Returns (r, d') -> probe_step d d'
  | pst_unregister clock n fp e c r : revoke_instance clock n fp e c d = Returns (r, d') -> probe_step d d'
  | pst_quarantine_instances now r : quarantine_instances now d = Returns (r, d') -> probe_step d d'
  | pst_other : db_probes d' = db_probes d -> probe_step d d'.

Lemma kept_le d d' : slots_kept d d' -> instances_le d d'.
Proof using. apply instances_same. Qed.

Lemma probe_step_sound d d' : probe_step d d' -> sound_step d d' /\ instances_le d d'.
Proof using.
  intros [clock a s f input r E|e clock a s f key input r E|clock n fp e c r E|clock n fp e input r E|clock a s i r E|clock r E|clock n fp e c r E|clock n fp e c r E|now r E|E].
  - split; [by eapply sound_issue_permit|by eapply kept_le, kept_issue].
  - split; [by eapply sound_create_probe|by eapply kept_le, kept_create].
  - split; [by eapply sound_consume|by eapply kept_le, kept_consume].
  - split; [by eapply sound_receive|by eapply kept_le, kept_receive].
  - split; [by eapply sound_revoke|by eapply kept_le, kept_revoke].
  - split; [by eapply sound_quarantine|by eapply kept_le, kept_quarantine].
  - split; [by eapply sound_register_instance|by eapply register_instance_le].
  - split; [by eapply sound_revoke_instance|by eapply revoke_instance_le].
  - split; [by eapply sound_quarantine_instances|by eapply quarantine_instances_le].
  - split; [|apply instances_same; unfold db_probe_instances; by rewrite E].
    apply sound_same. unfold permit_tables, db_probe_clock, db_permits, db_withdrawals, db_probe_results. by rewrite E.
Qed.

Lemma run_sound d d' : rtc probe_step d d' -> sound_step d d' /\ instances_le d d'.
Proof using.
  induction 1 as [d|d d1 d2 [S1 L1]%probe_step_sound _ [S2 L2]]; [by split|]. split; by etransitivity.
Qed.

(** C11. The Probe tables stay consistent: at no time are more than four permits live, and
    permits of one actor or of one Node start at least a second after the one before ended.
    The clock never runs back; a permit is closed once and otherwise kept, with its
    withdrawal and its result, until it has been over for a second; generations of
    instances only advance, and a closed instance is never registered again. *)
Theorem probe_safe d0 d : permits_ok d0 -> rtc probe_step d0 d -> permits_ok d /\ permits_le d0 d /\ permits_apart d0 d /\ instances_le d0 d.
Proof using. intros Hok [S L]%run_sound. destruct (S Hok) as (K & P & A). done. Qed.

(** A closed permit under an identifier is never issued again: what is issued there later
    starts after it was over. *)
Lemma closed_stays d d' i p q : permits_ok d -> rtc probe_step d d' -> db_permits d !! i = Some p -> db_permits d' !! i = Some q -> pp_state p <> pm_issued ->
  q = p \/ pp_expiresAt p + 1000 <= pp_issuedAt q.
Proof using.
  intros Hok [S _]%run_sound Hp Hq Hs. destruct (S Hok) as (K & L & A). destruct (pl_new _ _ L i q Hq) as [(p' & Hp' & [_ Hle])|Hn].
  - left. assert (p' = p) as -> by congruence. by apply Hle.
  - destruct (A i i p q Hp Hq (or_intror eq_refl)) as [[_ [_ Hle]]|[Ha|Ha]]; [left; by apply Hle|by right|]. exfalso.
    destruct (po_window d Hok i p Hp), (po_window d' K i q Hq). lia.
Qed.

(** C12. A permit is consumed once: whoever consumes one under the same identifier later, in
    whatever run, consumes a permit that was issued a second after the first had expired. *)
Theorem permit_once clock n fp e c i p d d1 clock' n' fp' e' c' p' d2 d3 : permits_ok d ->
  consume_permit octets skew clock n fp e c d = Returns ((i, p), d1) -> rtc probe_step d1 d2 ->
  consume_permit octets skew clock' n' fp' e' c' d2 = Returns ((i, p'), d3) -> pp_expiresAt p + 1000 <= pp_issuedAt p'.
Proof using.
  intros Hok E1 Hrun E2. destruct (proj1 (probe_step_sound d d1 (pst_consume _ _ _ _ _ _ _ _ E1)) Hok) as (K1 & _).
  apply consume_Returns in E1 as (p0 & b & dc & _ & Hp & Hs & _ & -> & _ & _ & Ht & (pc & Hpc & _ & ->)%close_permit_Returns & Hf).
  assert (Hp1 : db_permits d1 !! i = Some (set_closed pm_consumed (clock 3%nat) p0)).
  { apply finish_Returns in Hf as (_ & _ & HP & _). apply HP. unfold db_permits. cbn. rewrite lookup_alter_eq. unfold db_permits in Hp. rewrite Hp.
    split; [done|]. unfold dropped. cbn. lia. }
  apply consume_Returns in E2 as (p2 & b2 & dc2 & _ & Hp2 & Hs2 & _ & -> & _).
  destruct (closed_stays d1 d2 i _ p2 K1 Hrun Hp1 Hp2) as [->|Ha]; [discriminate|by cbn in Hs2|exact Ha].
Qed.

(** C16. The first result of a permit stands: the same result again is answered with the receipt
    of the first and changes nothing, and a different one is refused, for as long as the
    permit of the first is the one that the second is about. *)
Theorem result_once clock n fp e input rx d d1 clock' n' fp' e' input' rx' d2 d3 q q' : permits_ok d ->
  parseProbeResultRequest (stringify (document input)) = Returns q -> parseProbeResultRequest (stringify (document input')) = Returns q' ->
  receive_result octets skew clock n fp e input d = Returns (rx, d1) -> rtc probe_step d1 d2 ->
  receive_result octets skew clock' n' fp' e' input' d2 = Returns (rx', d3) -> prq_permitId q' = prq_permitId q ->
  (rx_resultDigest rx' = rx_resultDigest rx /\ rx_acceptedAt rx' = rx_acceptedAt rx /\ rx_duplicate rx' = true /\ d3 = d2) \/
  exists p p', db_permits d !! prq_permitId q = Some p /\ db_permits d2 !! prq_permitId q = Some p' /\ pp_expiresAt p + 1000 <= pp_issuedAt p'.
Proof using.
  intros Hok Hq Hq' E1 Hrun E2 Eid. destruct (proj1 (probe_step_sound d d1 (pst_receive _ _ _ _ _ _ _ _ E1)) Hok) as (K1 & _).
  apply receive_result_Returns in E1 as (q0 & dg & p & Hq0 & _ & Edg & _ & _ & Hp & Hs & _ & _ & _ & _ & _ & Hr). assert (q0 = q) as -> by congruence.
  apply receive_result_Returns in E2 as (q0 & dg' & p' & Hq0' & _ & Edg' & _ & _ & Hp' & _ & _ & _ & _ & Ht & _ & Hr'). assert (q0 = q') as -> by congruence.
  rewrite Eid in Hp', Hr'.
  assert (Hst : db_permits d1 !! prq_permitId q = Some p /\ exists r, db_probe_results d1 !! prq_permitId q = Some r /\ pr_digest r = dg /\ pr_accepted_at r = rx_acceptedAt rx).
  { destruct (db_probe_results d !! prq_permitId q) as [r|] eqn:Er.
    - destruct Hr as (-> & Hd & Ha & _). split; [done|]. by exists r.
    - destruct Hr as (_ & -> & Ha & _). split; [done|]. eexists. unfold db_probe_results. cbn. rewrite lookup_insert_eq. done. }
  destruct Hst as (Hp1 & r & Hr1 & Hd & Ha). destruct (closed_stays d1 d2 _ p p' K1 Hrun Hp1 Hp') as [->|Hap]; [by rewrite Hs| |right; by exists p, p'].
  left. destruct (run_sound _ _ Hrun) as [S _]. destruct (S K1) as (_ & L & _). destruct (pl_results _ _ L _ p r Hp1 Hr1) as [Ho|Hr2]; [unfold over in Ho; lia|].
  rewrite Hr2 in Hr'. destruct Hr' as (-> & Hd' & Ha' & Hdup). split_and!; congruence.
Qed.
End Runs.
