(* ===== verification/ProbeDelivery.v ===== *)
(** The Probe endpoints of a machine (apps/control/src/application/probe-claims.ts,
    probe-results.ts, probe-delivery.ts, probe-negotiation.ts and
    probe-instance-registry.ts): a request is parsed, a transaction commits, and the answer
    is built after that, so that a failure of the answer does not undo the transaction. *)

From S2P Require Import Prelude.
From S2P Require Import JsString.
From S2P Require Import JsValue.
From S2P Require Import Primitives.
From S2P Require Import Json.
From S2P Require Import Forward.
From S2P Require Import Digest.
From S2P Require Import Types.
From S2P Require Import Validate.
From S2P Require Import Schema.
From S2P Require Import Relay.
From S2P Require Import Adp3.
From S2P Require Import TargetPolicy.
From S2P Require Import Probe.
From S2P Require Import RelayPlan.
From S2P Require Import Iso.
From S2P Require Import Store.
From S2P Require Import Forwarding.
From S2P Require Import Retirements.
From S2P Require Import Identity.
From S2P Require Import Nodes.
From S2P Require Import Reads.
From S2P Require Import TransitStaging.
From S2P Require Import TransitDelivery.
From S2P Require Import ProbeInstances.
From S2P Require Import ProbePlans.
From S2P Require Import ProbePermits.
From S2P Require Import ProbeMoves.
From S2P Require Import ProbeSafety.
From S2P Require Import ProbeAuthority.
From S2P Require Import Idempotency.
From S2P Require Import ForwardCommands.
From S2P Require Import ProbeControl.

Local Open Scope Z_scope.

(** [await db.transaction(m)], then the answer from its result *)
Definition committed {A B} (m : tx A) (reply : A -> outcome B) (d : Db) : outcome B * Db :=
  match m d with
  | Returns (a, d') => (reply a, d')
  | Throws e => (Throws e, d)
  end.

(** What is thrown before the transaction changes nothing. *)
Definition prepared {A B} (o : outcome A) (k : A -> Db -> outcome B * Db) (d : Db) : outcome B * Db :=
  match o with Returns a => k a d | Throws e => (Throws e, d) end.

Definition differs (nodeId : jsstr) (epoch : Z) (n : jsstr) (e : Z) (m : string) : outcome unit :=
  throw_if (negb (str_eqb n nodeId && (e =? epoch))) "SESSION_SUPERSEDED" m.

Definition stale_reply (b : bool) (m : string) : outcome unit := throw_if b "PROBE_PERMIT_UNAVAILABLE" m.

Definition machine_of (m : Machine) (permitId : jsstr) : MachineCommand := MkMachineCommand permitId (pm_bootId m) (pm_instanceId m) (pm_instanceGeneration m).

Section Delivery.
Context `{Hashing, Schema RelayProfileConfig, Schema RelayOpen, Schema RelayAssignment, Adp2Schemas, Adp3Schemas, Schema ProbeResultRequest}.
Context `{Schema ProbeClaimRequest, Schema ProbeClaimResponse, Schema ProbePollRequest, Schema ProbePollResponse, Schema ProbeStatusRequest, Schema ProbeStatusResponse}.
Context `{Schema ProbeResultResponse, Schema ProbeNegotiationRequest, Schema ProbeInstanceRequest, Schema ProbeInstanceResponse}.
Context (octets : json -> Z) (skew : Z).

(** ** Claims *)

(** The acknowledgement, before it is parsed. *)
Definition claim_ack (q : ProbeClaimRequest) (p : ProbePermit) (closedAt now : Z) : outcome ProbeClaimResponse :=
  issued ← toISOString (pp_issuedAt p);
  expires ← toISOString (pp_expiresAt p);
  consumed ← toISOString closedAt;
  server ← toISOString now;
  Returns (MkProbeClaimResponse (pcq_machine q) (pcq_permitId q) (pp_binding p) (pp_timeoutMs p) issued expires consumed server).

Definition claim_reply (now : Z) (nodeId : jsstr) (epoch : Z) (q : ProbeClaimRequest) (r : permit_record) : outcome ProbeClaimResponse :=
  let '(id_, p) := r in
  let m := pcq_machine q in
  match pp_closedAt p with
  | None => Throws (Exn "PROBE_PERMIT_UNAVAILABLE" "Probe claim receipt no longer fresh")
  | Some closedAt =>
      _ ← stale_reply (negb (str_eqb id_ (pcq_permitId q)) || negb (str_eqb (pp_instanceId p) (pm_instanceId m)) ||
            negb (pp_instanceGeneration p =? pm_instanceGeneration m) || negb (str_eqb (pb_nodeId (pp_binding p)) nodeId) ||
            negb (str_eqb (pb_bootId (pp_binding p)) (pm_bootId m)) || negb (pb_sessionEpoch (pp_binding p) =? epoch) ||
            negb (bool_decide (pp_state p = pm_consumed)) || (now <? closedAt) || (pp_expiresAt p <=? now)) "Probe claim receipt no longer fresh";
      ack ← claim_ack q p closedAt now;
      parseProbeClaimResponse (stringify (document ack))
  end.

(** [clock] is sampled by the transaction, [now] after it. *)
Definition handle_claim (clock : nat -> Z) (now : Z) (nodeId fingerprint : jsstr) (epoch : Z) (input : ProbeClaimRequest) : Db -> outcome ProbeClaimResponse * Db :=
  prepared (q ← parseProbeClaimRequest (stringify (document input));
            _ ← differs nodeId epoch (pm_nodeId (pcq_machine q)) (pm_sessionEpoch (pcq_machine q)) "Probe claim Node/session differs";
            Returns q)
    (fun q => committed (consume_permit octets skew clock nodeId fingerprint epoch (machine_of (pcq_machine q) (pcq_permitId q))) (claim_reply now nodeId epoch q)).

(** ** Results *)

Definition result_reply (now : Z) (q : ProbeResultRequest) (r : ProbeReceipt) : outcome ProbeResultResponse :=
  _ ← stale_reply (negb (is_safe_integer now) || negb (is_safe_integer (rx_acceptedAt r)) || negb (is_safe_integer (rx_checkedAt r)) ||
        (rx_acceptedAt r <? 0) || (rx_checkedAt r <? rx_acceptedAt r) || (now <? rx_checkedAt r) || (250 <? now - rx_checkedAt r) ||
        n_le (Date_ms (prq_validUntil q)) (Some now)) "Probe result acknowledgement no longer fresh";
  dg ← probeResultDigest q;
  _ ← stale_reply (negb (str_eqb (rx_resultDigest r) dg)) "Probe result acknowledgement no longer fresh";
  accepted ← toISOString (rx_acceptedAt r);
  server ← toISOString now;
  response ← parseProbeResultResponse (stringify (document
    (MkProbeResultResponse (prq_machine q) (prq_permitId q) (prq_requestId q) (rx_resultDigest r) accepted server (rx_duplicate r))));
  _ ← checkProbeResult q response;
  Returns response.

Definition handle_result (clock : nat -> Z) (now : Z) (nodeId fingerprint : jsstr) (epoch : Z) (input : ProbeResultRequest) : Db -> outcome ProbeResultResponse * Db :=
  prepared (q ← parseProbeResultRequest (stringify (document input));
            _ ← differs nodeId epoch (pm_nodeId (prq_machine q)) (pm_sessionEpoch (prq_machine q)) "Probe result Node/session differs";
            Returns q)
    (fun q => committed (receive_result octets skew clock nodeId fingerprint epoch q) (result_reply now q)).

(** ** Polls and status *)

(** [fresh]: the observation is at most 250 ms old. *)
Definition fresh (observed now : Z) : outcome unit :=
  stale_reply (negb (is_safe_integer observed) || negb (is_safe_integer now) || (observed <? 0) || (now <? observed) || (250 <? now - observed) ||
               (8640000000000000 <? now)) "Probe observation no longer fresh".

Definition offer_of (r : permit_record) : outcome ProbeOffer :=
  issued ← toISOString (pp_issuedAt r.2);
  expires ← toISOString (pp_expiresAt r.2);
  Returns (MkProbeOffer r.1 (pp_binding r.2) (pp_timeoutMs r.2) issued expires).

Definition poll_reply (now : Z) (q : ProbePollRequest) (r : Z * option permit_record) : outcome ProbePollResponse :=
  let '(observedAt, offer) := r in
  _ ← fresh observedAt now;
  _ ← stale_reply (match offer with
                   | Some (_, p) => negb (str_eqb (pp_instanceId p) (pm_instanceId (ppq_machine q))) ||
                                    negb (pp_instanceGeneration p =? pm_instanceGeneration (ppq_machine q)) || (pp_expiresAt p <=? now)
                   | None => false
                   end) "Probe offer differs or expired";
  observed ← toISOString observedAt;
  server ← toISOString now;
  o ← match offer with Some r => o ← offer_of r; Returns (Some o) | None => Returns None end;
  parsePollResponse (stringify (document (MkProbePollResponse (ppq_machine q) (ppq_requestId q) observed server o))).

Definition poll (clock : nat -> Z) (now : Z) (nodeId fingerprint : jsstr) (epoch : Z) (input : ProbePollRequest) : Db -> outcome ProbePollResponse * Db :=
  prepared (q ← parsePollRequest (stringify (document input));
            _ ← differs nodeId epoch (pm_nodeId (ppq_machine q)) (pm_sessionEpoch (ppq_machine q)) "Probe delivery Node/session differs";
            Returns q)
    (fun q => committed (offer_permit octets skew clock nodeId fingerprint epoch (machine_of (ppq_machine q) [])) (poll_reply now q)).

Definition status_reply (now : Z) (q : ProbeStatusRequest) (r : permit_record * Z) : outcome ProbeStatusResponse :=
  let '(id_, p, checkedAt) := r in
  _ ← fresh checkedAt now;
  match pp_closedAt p with
  | None => Throws (Exn "PROBE_PERMIT_UNAVAILABLE" "Probe status differs or expired")
  | Some closedAt =>
      _ ← stale_reply (negb (str_eqb id_ (psq_permitId q)) || negb (str_eqb (pp_instanceId p) (pm_instanceId (psq_machine q))) ||
            negb (pp_instanceGeneration p =? pm_instanceGeneration (psq_machine q)) || negb (bool_decide (pp_state p = pm_consumed)) || (pp_expiresAt p <=? now))
            "Probe status differs or expired";
      o ← offer_of (psq_permitId q, p);
      consumed ← toISOString closedAt;
      checked ← toISOString checkedAt;
      server ← toISOString now;
      parseStatusResponse (stringify (document (MkProbeStatusResponse (psq_machine q) (psq_requestId q) o consumed checked server)))
  end.

Definition status (clock : nat -> Z) (now : Z) (nodeId fingerprint : jsstr) (epoch : Z) (input : ProbeStatusRequest) : Db -> outcome ProbeStatusResponse * Db :=
  prepared (q ← parseStatusRequest (stringify (document input));
            _ ← differs nodeId epoch (pm_nodeId (psq_machine q)) (pm_sessionEpoch (psq_machine q)) "Probe delivery Node/session differs";
            Returns q)
    (fun q => committed (check_permit octets skew clock nodeId fingerprint epoch (machine_of (psq_machine q) (psq_permitId q))) (status_reply now q)).

(** ** The handshake and the registry *)

Definition hello (now : Z) (nodeId fingerprint : jsstr) (epoch : Z) (input : ProbeNegotiationRequest) : tx ProbeNegotiationResponse :=
  q ← lift (parseNegotiationRequest (stringify (document input)));
  _ ← require (is_id nodeId && is_counter false epoch && str_eqb (pnq_nodeId q) nodeId && (pnq_sessionEpoch q =? epoch))
        "SESSION_SUPERSEDED" "Probe Node/session differs";
  _ ← require (is_hex64 fingerprint) "INVALID_CONFIG" "Machine certificate fingerprint required";
  current ← read_machine nodeId fingerprint;
  _ ← requireProbeMachine current nodeId (pnq_bootId q) epoch now true;
  server ← lift (toISOString now);
  mret (MkProbeNegotiationResponse q server).

Definition instance_reply (now : Z) (q : ProbeInstanceRequest) (r : Z * InstanceState * option ProbeSlot) : outcome ProbeInstanceResponse :=
  let '(generation, state_, current) := r in
  registered_ ← match current with Some s => x ← toISOString (pi_registeredAt s); Returns (Some x) | None => Returns None end;
  expires ← match current with Some s => x ← toISOString (pi_expiresAt s); Returns (Some x) | None => Returns None end;
  server ← toISOString now;
  parseProbeInstanceResponse (stringify (document (MkProbeInstanceResponse q generation state_ (pi_instanceId <$> current) registered_ expires server))).

(** The result of [register] and [revoke] is the instance itself. *)
Definition as_result (s : ProbeSlot) : Z * InstanceState * option ProbeSlot := (pi_generation s, state_name (pi_state s), Some s).

Definition instance_action (clock : nat -> Z) (nodeId fingerprint : jsstr) (epoch : Z) (q : ProbeInstanceRequest) : tx (Z * InstanceState * option ProbeSlot) :=
  let c := MkInstanceCommand (piq_bootId q) (piq_instanceId q) (piq_expectedGeneration q) in
  match piq_action q with
  | inspect => inspect_instance (clock 0%nat) nodeId fingerprint epoch (piq_bootId q)
  | register => s ← register_instance clock nodeId fingerprint epoch c; mret (as_result s)
  | revoke => s ← revoke_instance clock nodeId fingerprint epoch c; mret (as_result s)
  end.

Definition handle_instance (clock : nat -> Z) (now : Z) (nodeId fingerprint : jsstr) (epoch : Z) (input : ProbeInstanceRequest) : Db -> outcome ProbeInstanceResponse * Db :=
  prepared (q ← parseProbeInstanceRequest (stringify (document input));
            _ ← differs nodeId epoch (piq_nodeId q) (piq_sessionEpoch q) "Probe instance Node/session differs";
            Returns q)
    (fun q => committed (instance_action clock nodeId fingerprint epoch q) (instance_reply now q)).

(** ** What the endpoints do to the state *)

Lemma committed_reads {A B} (m : tx A) (k : A -> outcome B) d : evolves eq m -> (committed m k d).2 = d.
Proof using. intros Hm. unfold committed. destruct (m d) as [[a d']|e] eqn:E; [by rewrite <- (Hm _ _ _ E)|done]. Qed.

(** Polls, status requests and handshakes change nothing. *)
Lemma reads_offer_permit clock n fp e c : evolves eq (offer_permit octets skew clock n fp e c).
Proof using. unfold offer_permit, machine_command, require_available. evolve. Qed.

Lemma reads_check_permit clock n fp e c : evolves eq (check_permit octets skew clock n fp e c).
Proof using. unfold check_permit, machine_command, require_available, permit_unavailable. evolve. Qed.

Lemma poll_reads clock now n fp e input d : (poll clock now n fp e input d).2 = d.
Proof using. unfold poll, prepared. destruct (_ ≫= _); [|done]. apply committed_reads, reads_offer_permit. Qed.

Lemma status_reads clock now n fp e input d : (status clock now n fp e input d).2 = d.
Proof using. unfold status, prepared. destruct (_ ≫= _); [|done]. apply committed_reads, reads_check_permit. Qed.

Lemma reads_hello now n fp e input : evolves eq (hello now n fp e input).
Proof using. unfold hello. evolve. Qed.

(** A claim spends its permit before it is answered: either it fails and changes nothing, or
    the permit is consumed, even if the answer fails; and an answer is in the words of that
    permit, given before it expires. *)
Theorem claim_commits clock now n fp e input d : let '(o, d') := handle_claim clock now n fp e input d in
  (d' = d /\ is_returns o = false) \/
  exists q p, parseProbeClaimRequest (stringify (document input)) = Returns q /\ pm_nodeId (pcq_machine q) = n /\ pm_sessionEpoch (pcq_machine q) = e /\
    db_permits d !! pcq_permitId q = Some p /\ pp_state p = pm_issued /\ pp_fingerprint p = fp /\ pb_nodeId (pp_binding p) = n /\
    db_permits d' !! pcq_permitId q = Some (set_closed pm_consumed (clock 3%nat) p) /\
    forall a, o = Returns a -> clock 3%nat <= now < pp_expiresAt p /\
      exists ack, claim_ack q p (clock 3%nat) now = Returns ack /\ parseProbeClaimResponse (stringify (document ack)) = Returns a.
Proof using.
  destruct (handle_claim clock now n fp e input d) as [o d'] eqn:E. unfold handle_claim, prepared in E.
  destruct (_ ≫= _) as [q|x] eqn:Eq in E; [|left; by simplify_eq]. apply bind_Returns in Eq as (q0 & Hq & Eq).
  apply bind_Returns in Eq as ([] & Hd & [= ->]). unfold differs, throw_if in Hd. destruct (negb _) eqn:Hn in Hd; [done|]. apply negb_false_iff in Hn. clear Hd.
  unfold committed in E. destruct (consume_permit _ _ _ _ _ _ _ d) as [[[i c] d1]|x] eqn:Ec; [|left; by simplify_eq]. right. exists q.
  assert (d1 = d') as -> by congruence. apply consume_Returns in Ec as (p & b & dc & -> & Hp & Hs & Hof & -> & _ & _ & Ht & (pc & Hpc & _ & ->)%close_permit_Returns & Hf).
  exists p. unfold permit_of in Hof. propify. strings. split_and!; try done.
  - apply finish_Returns in Hf as (_ & _ & HP & _). apply HP. unfold db_permits. cbn. rewrite lookup_alter_eq. unfold db_permits in Hp. cbn in Hp. rewrite Hp.
    split; [done|]. unfold dropped. cbn. lia.
  - intros a ->. injection E as E. unfold claim_reply in E. cbn [pp_closedAt set_closed] in E. apply bind_Returns in E as ([] & Hst & E).
    unfold stale_reply, throw_if in Hst. destruct (_ || _) eqn:Hlate in Hst; [done|]. apply bind_Returns in E as (ack & Hack & E). split; [|by exists ack].
    apply orb_false_iff in Hlate as [Hlate Hl2%Z.leb_gt]. apply orb_false_iff in Hlate as [_ Hl1%Z.ltb_ge]. cbn in *. lia.
Qed.
End Delivery.
