(* ===== verification/ProbeGuarantees.v ===== *)
(** The Probe commands on a concrete scope: a published Direct Forward, a registered
    instance, two permits one after the other, and a result. *)

From S2P Require Import Prelude.
From S2P Require Import JsString.
From S2P Require Import JsValue.
From S2P Require Import Primitives.
From S2P Require Import Json.
From S2P Require Import Forward.
From S2P Require Import Digest.
From S2P Require Import Types.
From S2P Require Import Validate.
From S2P Require Import Schema.
From S2P Require Import Relay.
From S2P Require Import Adp3.
From S2P Require Import Transit.
From S2P Require Import TargetPolicy.
From S2P Require Import Endpoint.
From S2P Require Import Planner.
From S2P Require Import RelayPlan.
From S2P Require Import PathContract.
From S2P Require Import Store.
From S2P Require Import Idempotency.
From S2P Require Import Forwarding.
From S2P Require Import Slots.
From S2P Require Import Operations.
From S2P Require Import Identity.
From S2P Require Import Nodes.
From S2P Require Import Profiles.
From S2P Require Import Reads.
From S2P Require Import PathTemplates.
From S2P Require Import PathBindings.
From S2P Require Import Execution.
From S2P Require Import Reconcile.
From S2P Require Import CommandState.
From S2P Require Import ForwardCommands.
From S2P Require Import AccessCommands.
From S2P Require Import CommandSafety.
From S2P Require Import Revocation.
From S2P Require Import ControlSafety.
From S2P Require Import RelayGuarantees.
From S2P Require Import Guarantees.
From S2P Require Import Time.
From S2P Require Import Iso.
From S2P Require Import RelayCoordinator.
From S2P Require Import RelayDeployments.
From S2P Require Import CommandGuarantees.
From S2P Require Import TransitStaging.
From S2P Require Import TransitDelivery.
From S2P Require Import Probe.
From S2P Require Import ProbeInstances.
From S2P Require Import ProbePlans.
From S2P Require Import ProbePermits.
From S2P Require Import ProbeMoves.
From S2P Require Import ProbeSafety.
From S2P Require Import ProbeAuthority.
From S2P Require Import ProbeControl.

Local Open Scope Z_scope.

#[local] Existing Instance padded_hashing.
#[local] Existing Instance office_profiles.
#[local] Existing Instance office_opens.
#[local] Existing Instance office_relays.
#[local] Existing Instance office_messages.

Definition probe_spec : ForwardSpec := MkSpec true [tcp] (js "n1") (Listen (js "0.0.0.0") 80) (Target (js "192.0.2.10") 8080) None None.

Definition probe_assignments : list RuntimeAssignment :=
  returned [] (compileDirect (MkForward (js "r0") (js "s1") 1 probe_spec) (office_facts (js "n1"))
    [MkReservedSlot (js "n1") (js "r0") tcp 80 1 1] active (policy_drainTimeoutSeconds DEFAULT_POLICY)).

Definition probe_until : Z := office_time + leaseSeconds DEFAULT_POLICY * 1000.

Definition probe_snapshot : RuntimeSnapshot :=
  let input := MkSnapshotInput (js "n1") 5 1 (returned [] (toISOString office_time)) (returned [] (toISOString probe_until)) probe_assignments [] (Some DEFAULT_POLICY) in
  snapshot_of input (returned [] (digest (runtime_body_json (snapshot_of input [])))).

#[local] Instance probe_documents : Adp3Schemas := serving [probe_snapshot].

Definition probe_fingerprint : jsstr := replicate 64 97.
Definition probe_instance : jsstr := replicate 64 98.

Definition probe_db : Db :=
  with_forwards (insert (js "r0") (MkForwardRow (js "s1") 1 probe_spec false false (Some (js "u2"))))
  (with_snapshots (insert (js "n1", 1) (MkSnapshotRow 5 probe_until probe_snapshot))
  (with_runtime_nodes (insert (js "n1") (MkRuntimeNode 5 (Some (js "boot1")) 1 0 None None))
  (with_credentials (insert probe_fingerprint (MkCredentialRow (js "n1") 0 1800000000000 None false []))
  (with_probe_instances (insert (js "n1") (Some (MkProbeSlot 1 (js "boot1") 5 probe_fingerprint probe_instance ps_registered office_time (office_time + 30000) None)))
  (with_probe_clock (fun _ => office_time) office_db))))).

Definition probe_octets (v : json) : Z := Z.of_nat (length (stringify v)).
Definition probe_uuid (d : Db) : jsstr := js "probe1".
Definition probe_clock (t : Z) (i : nat) : Z := office_time + t + Z.of_nat i.

Definition issue_at (t : Z) : tx permit_record :=
  issue_in probe_octets 1000 probe_uuid (probe_clock t) (js "u2") (js "s1") (js "r0") (MkIssue 1 probe_instance 1 1000) false.
Definition probe_machine : MachineCommand := MkMachineCommand (js "probe1") (js "boot1") probe_instance 1.

Lemma probe_forwards_wf : forwards_wf probe_db.
Proof.
  intros i r Hr. assert (Hw : forward_wf (to_forward (js "r0", MkForwardRow (js "s1") 1 probe_spec false false (Some (js "u2"))))).
  { eapply (fun v f H => proj1 (parseForward_wf v f H)) with (v := to_jsv (forward_json (MkForward (js "r0") (js "s1") 1 probe_spec))). vm_compute. reflexivity. }
  unfold probe_db, with_forwards, db_forwards in Hr. apply lookup_insert_Some in Hr as [[<- <-]|[_ Hr]]; [exact Hw|].
  cbn in Hr. rewrite lookup_empty in Hr. discriminate Hr.
Qed.

(** No permit, no withdrawal and no result. *)
Lemma no_permits_ok d : db_permits d = ∅ -> db_withdrawals d = ∅ -> db_probe_results d = ∅ -> permits_ok d.
Proof.
  intros EP EW ER. split; unfold live_ids; rewrite ?EP, ?EW, ?ER; intros *; try (intros E; rewrite lookup_empty in E; discriminate E).
  rewrite map_filter_empty, dom_empty_L, size_empty. lia.
Qed.

Lemma probe_db_ok : permits_ok probe_db.
Proof. apply no_permits_ok; reflexivity. Qed.

Definition no_permit : permit_record := ([], MkProbePermit [] [] example_probe_binding [] 0 [] 0 0 0 pm_issued None).

(** The first permit, consumed. *)
Definition issued_run : outcome (permit_record * Db) := issue_at 100 probe_db.
Definition issued_db : Db := state_after issued_run probe_db.
Definition first_permit : ProbePermit := (result_of issued_run no_permit).2.
Definition consume_at (t : Z) : tx permit_record := consume_permit probe_octets 1000 (probe_clock t) (js "n1") probe_fingerprint 5 probe_machine.
Definition consumed_run : outcome (permit_record * Db) := consume_at 200 issued_db.
Definition consumed_db : Db := state_after consumed_run issued_db.

(** Its result. *)
Definition iso (t : Z) : jsstr := returned [] (toISOString (office_time + t)).
Definition probe_result : ProbeResultRequest :=
  MkProbeResultRequest (MkMachine (js "n1") (js "boot1") 5 probe_instance 1) (js "probe1") (replicate 64 99) (pp_binding first_permit) 1000
    (iso 103) (iso 2102) (iso 203) (iso 250) (iso 2000) 47 connected tcp_connected.

#[local] Instance probe_results : Schema ProbeResultRequest := accept_only probe_result.

Definition receive_at (t : Z) : tx ProbeReceipt := receive_result probe_octets 1000 (probe_clock t) (js "n1") probe_fingerprint 5 probe_result.
Definition received_run : outcome (ProbeReceipt * Db) := receive_at 300 consumed_db.
Definition received_db : Db := state_after received_run consumed_db.
Definition repeated_run : outcome (ProbeReceipt * Db) := receive_at 400 received_db.

(** A second permit under the same identifier. *)
Definition reissued_run : outcome (permit_record * Db) := issue_at 5000 consumed_db.
Definition reissued_db : Db := state_after reissued_run consumed_db.
Definition reconsumed_run : outcome (permit_record * Db) := consume_at 5100 reissued_db.

Lemma issued_Returns : exists r, issued_run = Returns (r, issued_db).
Proof. apply run_returns. vm_compute. reflexivity. Qed.

Lemma consumed_Returns : exists r, consumed_run = Returns (r, consumed_db).
Proof. apply run_returns. vm_compute. reflexivity. Qed.

Lemma received_Returns : exists r, received_run = Returns (r, received_db).
Proof. apply run_returns. vm_compute. reflexivity. Qed.

Abbreviation probe_steps := (@probe_step padded_hashing office_profiles office_opens office_relays office_messages probe_documents probe_results probe_octets 1000 probe_uuid).

(** What is issued through [issue_permit]. *)
Definition probe_input : jsv :=
  Obj [(js "version", Num (NInt 1)); (js "kind", Str (js "tcp-connect")); (js "expectedRevision", Num (NInt 1)); (js "timeoutMs", Num (NInt 1000));
       (js "instanceId", Str probe_instance); (js "instanceGeneration", Num (NInt 1))].

Lemma issue_at_step t r d d' : issue_at t d = Returns (r, d') -> probe_steps d d'.
Proof.
  intros E. apply (pst_issue _ _ _ _ _ (probe_clock t) (js "u2") (js "s1") (js "r0") probe_input r). unfold issue_permit.
  assert (Ei : issue_input (js "u2") (js "s1") (js "r0") probe_input false = Returns (MkIssue 1 probe_instance 1 1000)) by (vm_compute; reflexivity).
  rewrite Ei. exact E.
Qed.

Lemma issued_step : probe_steps probe_db issued_db.
Proof. destruct issued_Returns as [r E]. exact (issue_at_step _ _ _ _ E). Qed.

Lemma issued_ok : permits_ok issued_db.
Proof. exact (proj1 (proj1 (probe_step_sound _ _ _ _ _ issued_step) probe_db_ok)). Qed.

Lemma forwards_wf_same d d' : db_forwards d' = db_forwards d -> forwards_wf d -> forwards_wf d'.
Proof. intros E Hwf i r. rewrite E. apply Hwf. Qed.

Lemma probe_safe_witness : is_returns issued_run = true /\ permits_ok issued_db /\ instances_le probe_db issued_db.
Proof.
  split; [vm_compute; reflexivity|].
  destruct (@probe_safe padded_hashing office_profiles office_opens office_relays office_messages probe_documents probe_results probe_octets 1000 probe_uuid
    probe_db issued_db probe_db_ok (rtc_once _ _ issued_step)) as (K & _ & _ & L). exact (conj K L).
Defined.



Lemma permit_once_witness : exists p p', (exists i, consumed_run = Returns ((i, p), consumed_db)) /\
  (exists i, reconsumed_run = Returns ((i, p'), state_after reconsumed_run reissued_db)) /\ pp_expiresAt p + 1000 <= pp_issuedAt p'.
Proof.
  assert (H1 : is_returns consumed_run = true) by (vm_compute; reflexivity). assert (H2 : is_returns reconsumed_run = true) by (vm_compute; reflexivity).
  assert (H3 : is_returns reissued_run = true) by (vm_compute; reflexivity). apply (run_returns _ consumed_db) in H3 as [r E3].
  apply (run_returns _ issued_db) in H1 as [[i p] E1]. apply (run_returns _ reissued_db) in H2 as [[j p'] E2].
  assert (Ei : (result_of consumed_run no_permit).1 = (result_of reconsumed_run no_permit).1) by (vm_compute; reflexivity).
  assert (Eij : i = j) by (rewrite E1, E2 in Ei; exact Ei). exists p, p'. split; [exists i; exact E1|]. split; [exists j; exact E2|]. rewrite <- Eij in E2.
  exact (@permit_once padded_hashing office_profiles office_opens office_relays office_messages probe_documents probe_results probe_octets 1000 probe_uuid
    (probe_clock 200) (js "n1") probe_fingerprint 5 probe_machine i p issued_db consumed_db (probe_clock 5100) (js "n1") probe_fingerprint 5 probe_machine p'
    reissued_db _ issued_ok E1 (rtc_once _ _ (issue_at_step 5000 r _ _ E3)) E2).
Defined.

Lemma consumed_ok : permits_ok consumed_db.
Proof. destruct consumed_Returns as [r E]. exact (proj1 (proj1 (probe_step_sound _ _ _ _ _ (pst_consume probe_octets 1000 probe_uuid _ _ _ _ _ _ _ _ E)) issued_ok)). Qed.

Lemma result_exact_witness : exists rx q p, received_run = Returns (rx, received_db) /\ db_permits consumed_db !! prq_permitId q = Some p /\ reports probe_fingerprint q p.
Proof.
  destruct received_Returns as [rx E].
  assert (Hwf : forwards_wf consumed_db).
  { refine (forwards_wf_same probe_db _ _ probe_forwards_wf). vm_compute. reflexivity. }
  destruct (@result_exact padded_hashing office_profiles office_opens office_relays office_messages probe_documents probe_results probe_octets 1000
    (probe_clock 300) (js "n1") probe_fingerprint 5 probe_result consumed_db rx received_db Hwf E) as (q & p & _ & _ & _ & _ & Hp & _ & _ & Hrep & _).
  exists rx, q, p. exact (conj E (conj Hp Hrep)).
Defined.

Lemma result_once_witness : exists rx rx', received_run = Returns (rx, received_db) /\ repeated_run = Returns (rx', state_after repeated_run received_db) /\
  rx_duplicate rx' = true.
Proof.
  destruct received_Returns as [rx E]. assert (H2 : is_returns repeated_run = true) by (vm_compute; reflexivity). apply (run_returns _ received_db) in H2 as [rx' E2].
  assert (Hq : parseProbeResultRequest (stringify (document probe_result)) = Returns probe_result) by (vm_compute; reflexivity).
  assert (Hp : pp_issuedAt <$> (db_permits received_db !! prq_permitId probe_result) = Some (office_time + 103)) by (vm_compute; reflexivity).
  assert (Hp0 : pp_expiresAt <$> (db_permits consumed_db !! prq_permitId probe_result) = Some (office_time + 2102)) by (vm_compute; reflexivity).
  exists rx, rx'. split; [exact E|]. split; [exact E2|].
  destruct (@result_once padded_hashing office_profiles office_opens office_relays office_messages probe_documents probe_results probe_octets 1000 probe_uuid
    (probe_clock 300) (js "n1") probe_fingerprint 5 probe_result rx consumed_db received_db (probe_clock 400) (js "n1") probe_fingerprint 5 probe_result rx'
    received_db _ probe_result probe_result consumed_ok Hq Hq E (rtc_refl _ _) E2 eq_refl) as [(_ & _ & Hd & _)|(p & p' & H1 & H3 & Hlt)]; [exact Hd|].
  rewrite H1 in Hp0. rewrite H3 in Hp. cbn [fmap option_fmap option_map] in Hp, Hp0. injection Hp as Hp. injection Hp0 as Hp0. rewrite Hp, Hp0 in Hlt. exfalso. clear -Hlt. lia.
Defined.
