(* ===== verification/Observations.v ===== *)
(** Observations of a Node (apps/control/src/modules/node-report-observation.ts,
    observation-ports.ts, application/node-observations.ts and
    infrastructure/mysql-node-observation.ts): what a persisted report says now, and the
    host that bounds how many observations run.

    The database connection, its cancellation and the timer that stops a read are not
    modelled: an observation ends with the outcome of its read, or is stopped with a
    reason. *)

From S2P Require Import Prelude.
From S2P Require Import JsString.
From S2P Require Import JsValue.
From S2P Require Import Primitives.
From S2P Require Import Json.
From S2P Require Import Time.
From S2P Require Import Types.
From S2P Require Import TargetPolicy.
From S2P Require Import Probe.
From S2P Require Import RelayPlan.
From S2P Require Import Iso.
From S2P Require Import Store.
From S2P Require Import Identity.
From S2P Require Import Relay.
From S2P Require Import Reads.
From S2P Require Import TransitDelivery.
From S2P Require Import ProbePlans.

Local Open Scope Z_scope.

(** ** Evidence *)

Record AgentReportProvenance := MkProvenance {
  ap_nodeId : jsstr; ap_bootId : jsstr; ap_sessionEpoch : Z; ap_reportSequence : Z; ap_snapshotGeneration : Z;
  ap_observedAt : Z; ap_receivedAt : Z; ap_assignmentCount : Z;
}.

Record NodeReportEvidence := MkReportEvidence {
  ne_nodeId : jsstr; ne_scopeId : jsstr; ne_revoked : bool; ne_credentialUntil : option Z; ne_sessionEpoch : Z; ne_bootId : option jsstr;
  ne_snapshotGeneration : Z; ne_snapshotValidUntil : option Z; ne_invalidReport : bool; ne_report : option AgentReportProvenance;
}.

Record NodeObservationPolicy := MkObservationPolicy { op_freshnessMs : Z; op_clockSkewMs : Z }.

Inductive ObservationReason :=
  | recent_report | missing_report | invalid_report | node_revoked | credential_expired | session_mismatch | snapshot_mismatch | clock_skew
  | report_expired | snapshot_expired.

Inductive ObservationStatus := os_observed | os_stale | os_unknown.

(** The constant members are left out. *)
Record NodeReportObservation := MkNodeObservation {
  no_scopeId : jsstr; no_nodeId : jsstr; no_capturedAt : jsstr; no_status : ObservationStatus; no_reason : ObservationReason;
  no_receivedAt : option jsstr; no_expiresAt : option jsstr; no_provenance : option AgentReportProvenance;
}.

Definition is_timestamp (z : Z) : bool := (0 <=? z) && (z <=? 8640000000000000).
Definition opt_all {A} (f : A -> bool) (o : option A) : bool := match o with Some x => f x | None => true end.

Definition evidence_invalid {A} : outcome A := Throws (Exn "OBSERVATION_INVALID_RESULT" "Observation source returned invalid evidence").

Definition evidence_ok (e : NodeReportEvidence) (scopeId nodeId : jsstr) : bool :=
  str_eqb (ne_nodeId e) nodeId && str_eqb (ne_scopeId e) scopeId && is_counter true (ne_sessionEpoch e) && is_counter true (ne_snapshotGeneration e) &&
  opt_all is_id (ne_bootId e) && opt_all is_timestamp (ne_credentialUntil e) && opt_all is_timestamp (ne_snapshotValidUntil e).

Definition provenance_ok (r : AgentReportProvenance) : bool :=
  is_id (ap_nodeId r) && is_id (ap_bootId r) && is_counter false (ap_sessionEpoch r) && is_counter false (ap_reportSequence r) &&
  is_counter true (ap_snapshotGeneration r) && is_timestamp (ap_observedAt r) && is_timestamp (ap_receivedAt r) &&
  (0 <=? ap_assignmentCount r) && (ap_assignmentCount r <=? 10000).

(** When the evidence stops counting: [None] without a report, a Snapshot or a credential. *)
Definition observation_expires (e : NodeReportEvidence) (p : NodeObservationPolicy) : option Z :=
  r ← ne_report e; s ← ne_snapshotValidUntil e; c ← ne_credentialUntil e;
  Some (Z.max 0 (Z.min (Z.min (Z.min (ap_receivedAt r) (ap_observedAt r) + op_freshnessMs p) (s - op_clockSkewMs p)) c)).

(** The chain of [if]s, in its order. *)
Definition observation_reason (e : NodeReportEvidence) (nodeId : jsstr) (now : Z) (p : NodeObservationPolicy) : ObservationReason :=
  if ne_revoked e then node_revoked else
  if negb (match ne_credentialUntil e with Some c => now <? c | None => false end) then credential_expired else
  if ne_invalidReport e then invalid_report else
  match ne_report e with
  | None => missing_report
  | Some r =>
      if negb (str_eqb (ap_nodeId r) nodeId) || negb (bool_decide (ne_bootId e = Some (ap_bootId r))) || negb (ap_sessionEpoch r =? ne_sessionEpoch e)
      then session_mismatch else
      if negb (ap_snapshotGeneration r =? ne_snapshotGeneration e) || (ap_snapshotGeneration r =? 0) then snapshot_mismatch else
      if (now <? ap_receivedAt r) || (now + op_clockSkewMs p <? ap_observedAt r) then clock_skew else
      if negb (match ne_snapshotValidUntil e with Some s => now <? s - op_clockSkewMs p | None => false end) then snapshot_expired else
      if negb (match observation_expires e p with Some x => now <? x | None => false end) then report_expired else recent_report
  end.

Definition status_of (r : ObservationReason) : ObservationStatus :=
  match r with recent_report => os_observed | report_expired | snapshot_expired => os_stale | _ => os_unknown end.

Definition opt_iso (o : option Z) : outcome (option jsstr) := match o with Some t => x ← toISOString t; Returns (Some x) | None => Returns None end.

Definition observeNodeReport (e : NodeReportEvidence) (scopeId nodeId : jsstr) (now : Z) (p : NodeObservationPolicy) : outcome NodeReportObservation :=
  if negb (evidence_ok e scopeId nodeId) then evidence_invalid else
  if negb (opt_all provenance_ok (ne_report e)) then evidence_invalid else
  let reason := observation_reason e nodeId now p in
  captured ← toISOString now;
  received ← opt_iso (ap_receivedAt <$> ne_report e);
  expires ← opt_iso (observation_expires e p);
  Returns (MkNodeObservation scopeId nodeId captured (status_of reason) reason received expires (ne_report e)).

(** ** Reading the evidence *)

(** [counter] of a member that is an integer in the stored report *)
Definition report_counter (n : Z) (allowZero : bool) : option Z := if is_counter allowZero n then Some n else None.

(** [Date.parse] of a time with at most nine fractional digits *)
Definition report_time (text : jsstr) : option Z :=
  '(_, f) ← scan_instant text;
  if (length f <=? 9)%nat then Date_text text else None.

Definition report_from (r : RuntimeNode) (report : ReportRequest) : option AgentReportProvenance :=
  epoch ← report_counter (rep_sessionEpoch report) false;
  sequence ← report_counter (rep_reportSequence report) false;
  snapshot ← report_counter (rep_acceptedSnapshotGeneration report) true;
  observedAt ← report_time (rep_observedAt report);
  receivedAt ← rn_received_at r;
  let count := Z.of_nat (length (rep_observations report)) in
  if is_id (rep_nodeId report) && is_id (rep_bootId report) && (sequence =? rn_last_report_sequence r) && (0 <=? observedAt) && is_safe_integer observedAt &&
     (count <=? 10000)
  then Some (MkProvenance (rep_nodeId report) (rep_bootId report) epoch sequence snapshot observedAt receivedAt count) else None.

(** The row of the three joined tables. *)
Definition report_evidence (scopeId nodeId : jsstr) (d : Db) : option NodeReportEvidence :=
  n ← db_nodes d !! nodeId;
  if negb (str_eqb (nd_scope_id n) scopeId) then None else
  let r := db_runtime_nodes d !! nodeId in
  let report := r ← r; body ← rn_last_report r; report_from r body in
  let until_ := r ← r; s ← db_snapshots d !! (nodeId, rn_snapshot_generation r);
               if sn_session_epoch s =? rn_session_epoch r then Some (sn_valid_until s) else None in
  Some (MkReportEvidence nodeId (nd_scope_id n) (nd_revoked n) (nd_credential_until n) (match r with Some r => rn_session_epoch r | None => 0 end)
          (r ← r; rn_boot_id r) (match r with Some r => rn_snapshot_generation r | None => 0 end) until_
          (bool_decide (is_Some (r ← r; rn_last_report r)) && bool_decide (report = None)) report).

Definition read_evidence (actorId scopeId nodeId : jsstr) : tx NodeReportEvidence :=
  _ ← scope actorId scopeId false;
  e ← query (report_evidence scopeId nodeId);
  match e with Some e => mret e | None => notFound end.

Lemma reads_evidence a s n : evolves eq (read_evidence a s n).
Proof. unfold read_evidence, notFound. evolve. Qed.

(** ** What an observation says *)

(** The report is of the current session and Snapshot of a Node with a current credential, and not too old. *)
Record current_report (e : NodeReportEvidence) (nodeId : jsstr) (now : Z) (p : NodeObservationPolicy) (r : AgentReportProvenance) : Prop := {
  cr_report : ne_report e = Some r /\ ne_invalidReport e = false;
  cr_node : ap_nodeId r = nodeId /\ ne_revoked e = false;
  cr_session : ne_bootId e = Some (ap_bootId r) /\ ne_sessionEpoch e = ap_sessionEpoch r;
  cr_snapshot : ne_snapshotGeneration e = ap_snapshotGeneration r /\ ap_snapshotGeneration r <> 0;
  cr_received : ap_receivedAt r <= now < ap_receivedAt r + op_freshnessMs p;
  cr_observed : ap_observedAt r - op_clockSkewMs p <= now < ap_observedAt r + op_freshnessMs p;
  cr_valid : exists s, ne_snapshotValidUntil e = Some s /\ now < s - op_clockSkewMs p;
  cr_credential : exists c, ne_credentialUntil e = Some c /\ now < c;
}.

Lemma reason_recent e n now p : 0 <= now -> observation_reason e n now p = recent_report <-> exists r, current_report e n now p r.
Proof.
  intros Hnow. unfold observation_reason. split.
  - destruct (ne_revoked e) eqn:Er; [done|]. destruct (ne_credentialUntil e) as [c|] eqn:Ec; [|done]. destruct (now <? c) eqn:Hc; [|done]. cbn.
    destruct (ne_invalidReport e) eqn:Ei; [done|]. destruct (ne_report e) as [r|] eqn:Ep; [|done]. destruct (_ || _ || _) eqn:E1; [done|].
    destruct (_ || (_ =? 0)) eqn:E2; [done|]. destruct ((_ <? _) || _) eqn:E3; [done|]. destruct (ne_snapshotValidUntil e) as [s|] eqn:Es; [|done].
    destruct (now <? s - _) eqn:E4; [|done]. cbn. unfold observation_expires. rewrite Ep, Es, Ec. cbn. destruct (now <? Z.max _ _) eqn:E5; [|done]. intros _.
    exists r. propify. repeat match goal with E : str_eqb _ _ = true |- _ => apply str_eqb_true in E end.
    split; try done; try lia; eauto; split; try done; lia.
  - intros (r & [[Hr Hi] [Hn Hrev] [Hb He] [Hg Hg0] Hrec Hobs (s & Hs & Hs1) (c & Hc & Hc1)]).
    unfold observation_expires. rewrite Hrev, Hc, Hi, Hr, Hs. cbn [mbind option_bind].
    rewrite (proj2 (str_eqb_true _ _) Hn), (bool_decide_eq_true_2 _ Hb). repeat (case_match; propify; try lia; try done).
Qed.

Lemma expires_exact e n now p r : current_report e n now p r -> 0 <= now ->
  exists x, observation_expires e p = Some x /\ now < x /\ forall t, now <= t -> (exists q, current_report e n t p q) <-> t < x.
Proof.
  intros [[Hr Hi] [Hn Hrev] Hses Hsnap Hrec Hobs (s & Hs & Hs1) (c & Hc & Hc1)] Hnow. unfold observation_expires. rewrite Hr, Hs, Hc. cbn [mbind option_bind].
  eexists. split; [done|]. split; [lia|]. intros t Ht. split.
  - intros (q & [[Hq _] _ _ _ Hqr Hqo (s' & Hs' & ?) (c' & Hc' & ?)]). simplify_eq. lia.
  - intros Hx. exists r. split; try done; [lia..|exists s; split; [done|lia]|exists c; split; [done|lia]].
Qed.

(** C32. What is observed is exactly a current report: of the Node, its session and its
    Snapshot, received and made in time, under a credential and a Snapshot that still hold;
    and the expiry that is given is the first instant at which that stops being so. *)
Theorem observe_exact e s n now p o : 0 <= now -> observeNodeReport e s n now p = Returns o ->
  ne_nodeId e = n /\ ne_scopeId e = s /\ no_nodeId o = n /\ no_scopeId o = s /\ no_provenance o = ne_report e /\
  (no_status o = os_observed <-> exists r, current_report e n now p r) /\
  (no_status o = os_observed -> exists x text, observation_expires e p = Some x /\ toISOString x = Returns text /\ no_expiresAt o = Some text /\ now < x /\
     forall t, now <= t -> (exists r, current_report e n t p r) <-> t < x).
Proof.
  intros Hnow Hr. unfold observeNodeReport in Hr. destruct (evidence_ok e s n) eqn:Ee; [|done]. destruct (opt_all provenance_ok _); [|done]. cbn [negb] in Hr. cbn zeta in Hr.
  apply bind_Returns in Hr as (cap & _ & Hr). apply bind_Returns in Hr as (rec & _ & Hr). apply bind_Returns in Hr as (ex & Hex & [= <-]). cbn.
  unfold evidence_ok in Ee. propify. repeat match goal with E : str_eqb _ _ = true |- _ => apply str_eqb_true in E end.
  assert (Hst : status_of (observation_reason e n now p) = os_observed <-> exists r, current_report e n now p r).
  { rewrite <- reason_recent by done. by destruct (observation_reason e n now p). }
  split_and!; try done. intros (r & Hcur)%Hst. destruct (expires_exact e n now p r Hcur Hnow) as (x & Hx & Hlt & Hall). rewrite Hx in Hex.
  apply bind_Returns in Hex as (text & Htext & [= <-]). by exists x, text.
Qed.

(** ** The host *)

(** [NODE_OBSERVATION_LIMITS] *)
Definition maxActive : Z := 8.
Definition maxActors : Z := 256.
Definition cooldownMs : Z := 1000.
Definition maxResultBytes : Z := 4096.
Definition defaultTimeoutMs : Z := 2000.
Definition minTimeoutMs : Z := 100.
Definition maxTimeoutMs : Z := 2000.

(** The constructor: the policy is checked and the freshness is cut to five minutes. *)
Definition observation_policy (p : NodeObservationPolicy) : outcome NodeObservationPolicy :=
  _ ← throw_if (negb (is_safe_integer (op_freshnessMs p)) || (op_freshnessMs p <? 1) || negb (is_safe_integer (op_clockSkewMs p)) || (op_clockSkewMs p <? 0))
        "INVALID_CONFIG" "Invalid observation timing policy";
  Returns (MkObservationPolicy (Z.min (op_freshnessMs p) 300000) (op_clockSkewMs p)).

(** The checks of a request, which yield its timeout. *)
Definition observation_timeout (v : jsv) : option Z :=
  match v with
  | Undefined => Some defaultTimeoutMs
  | Num (NInt n) => if (minTimeoutMs <=? n) && (n <=? maxTimeoutMs) then Some n else None
  | _ => None
  end.

Definition observation_request (actorId scopeId nodeId : jsstr) (input : jsv) (aborted : bool) : outcome Z :=
  _ ← throw_if (negb (is_id actorId && is_id scopeId && is_id nodeId)) "INVALID_CONFIG" "Valid observation identity required";
  match only_keys [js "source"; js "version"; js "timeoutMs"] input with
  | None => Throws (Exn "INVALID_CONFIG" "Closed observation request required")
  | Some fs =>
      match observation_timeout (get fs (js "timeoutMs")) with
      | Some t =>
          _ ← throw_if (negb (jsv_eqb (get fs (js "source")) (Str (js "persisted-agent-report")) && jsv_eqb (get fs (js "version")) (Num (NInt 1))))
                "INVALID_CONFIG" "Supported observation source/version and bounded timeoutMs required";
          _ ← throw_if aborted "OBSERVATION_CANCELLED" "Observation cancelled";
          Returns t
      | None => Throws (Exn "INVALID_CONFIG" "Supported observation source/version and bounded timeoutMs required")
      end
  end.

(** [performance.now()] is a monotonic clock in nanoseconds here. *)
Definition cooldown : Z := cooldownMs * 1000000.

(** [{ active, until }]: [None] for [Infinity] *)
Record ActorState := MkActorState { ac_active : bool; ac_until : option Z }.

Record Host := MkHost { ho_actors : gmap jsstr ActorState; ho_nodes : gset jsstr; ho_active : Z }.
Definition new_host : Host := MkHost ∅ ∅ 0.

(** [scopeId + '\0' + nodeId] *)
Definition node_key (scopeId nodeId : jsstr) : jsstr := scopeId ++ 0 :: nodeId.

(** [!state.active && state.until <= start] is deleted. *)
Definition rested (start : Z) (s : ActorState) : bool := negb (ac_active s) && match ac_until s with Some u => u <=? start | None => false end.
Definition expire_actors (start : Z) (h : Host) : Host := MkHost (filter (fun kv => rested start kv.2 = false) (ho_actors h)) (ho_nodes h) (ho_active h).

Definition host_busy (actorId key : jsstr) (h : Host) : bool :=
  (maxActive <=? ho_active h) || bool_decide (key ∈ ho_nodes h) || bool_decide (is_Some (ho_actors h !! actorId)) ||
  (maxActors <=? Z.of_nat (size (ho_actors h))).

(** Admission at [start]: the state changes even when it throws. *)
Definition admit_observation (start : Z) (actorId scopeId nodeId : jsstr) (h : Host) : outcome unit * Host :=
  let h := expire_actors start h in
  let key := node_key scopeId nodeId in
  if host_busy actorId key h then (Throws (Exn "OBSERVATION_BUSY" "Observation budget exhausted; retry later"), h)
  else (Returns tt, MkHost (<[actorId := MkActorState true None]> (ho_actors h)) ({[key]} ∪ ho_nodes h) (ho_active h + 1)).

(** [release]: when the read has ended, not when its caller was answered. *)
Definition release_observation (now : Z) (actorId key : jsstr) (h : Host) : Host :=
  MkHost (<[actorId := MkActorState false (Some (now + cooldown))]> (ho_actors h)) (ho_nodes h ∖ {[key]}) (ho_active h - 1).

(** The answer: why it was stopped, or the result of the read with its errors narrowed. *)
Definition observe_answer {A} (stopped : option exn) (work : outcome A) : outcome A :=
  match stopped, work with
  | Some e, _ => Throws e
  | None, Returns a => Returns a
  | None, Throws e =>
      if String.eqb (code e) "NOT_FOUND" then Throws (Exn "NOT_FOUND" "Resource not found") else
      if String.eqb (code e) "AUTHORIZATION_DENIED" then Throws (Exn "AUTHORIZATION_DENIED" "Observation permission denied") else
      if String.eqb (code e) "OBSERVATION_INVALID_RESULT" then Throws (Exn "OBSERVATION_INVALID_RESULT" "Invalid observation evidence") else
      Throws (Exn "OBSERVATION_FAILED" "Observation source unavailable")
  end.

(** ** Runs of the host *)

(** The host, the observations whose read has not ended, and the last sample of the clock. *)
Record HostRun := MkHostRun { hr_host : Host; hr_work : list (jsstr * jsstr); hr_clock : Z }.

Inductive host_step : HostRun -> HostRun -> Prop :=
  | hs_admit h w c start actorId scopeId nodeId h' : c <= start -> admit_observation start actorId scopeId nodeId h = (Returns tt, h') ->
      host_step (MkHostRun h w c) (MkHostRun h' ((actorId, node_key scopeId nodeId) :: w) start)
  | hs_busy h w c start actorId scopeId nodeId e h' : c <= start -> admit_observation start actorId scopeId nodeId h = (Throws e, h') ->
      host_step (MkHostRun h w c) (MkHostRun h' w start)
  | hs_release h w1 w2 c now actorId key : c <= now ->
      host_step (MkHostRun h (w1 ++ (actorId, key) :: w2) c) (MkHostRun (release_observation now actorId key h) (w1 ++ w2) now).

(** The counters of the host are those of the observations that run. *)
Record host_ok (s : HostRun) : Prop := {
  hk_active : ho_active (hr_host s) = Z.of_nat (length (hr_work s));
  hk_actors : NoDup (map fst (hr_work s));
  hk_keys : NoDup (map snd (hr_work s));
  hk_nodes : ho_nodes (hr_host s) = list_to_set (map snd (hr_work s));
  hk_marked : forall a, a ∈ map fst (hr_work s) <-> ho_actors (hr_host s) !! a = Some (MkActorState true None);
  hk_marks : forall a m, ho_actors (hr_host s) !! a = Some m -> ac_active m = true -> m = MkActorState true None;
  hk_running : Z.of_nat (length (hr_work s)) <= maxActive;
  hk_known : Z.of_nat (size (ho_actors (hr_host s))) <= maxActors;
}.

Lemma expire_lookup start h a m : ho_actors (expire_actors start h) !! a = Some m <-> ho_actors h !! a = Some m /\ rested start m = false.
Proof. cbn. rewrite map_lookup_filter_Some. done. Qed.

Lemma expire_ok start h w c c' : host_ok (MkHostRun h w c) -> host_ok (MkHostRun (expire_actors start h) w c').
Proof.
  intros [K1 K2 K3 K4 K5 K6 K7 K8]. split; cbn in *; try done.
  - intros a. rewrite K5, map_lookup_filter_Some. naive_solver.
  - intros a m [Hm _]%map_lookup_filter_Some. by apply (K6 a).
  - etransitivity; [|exact K8]. apply inj_le. apply map_size_filter.
Qed.

Lemma admitted_ok h w c c' a k : host_ok (MkHostRun h w c) -> host_busy a k h = false ->
  host_ok (MkHostRun (MkHost (<[a := MkActorState true None]> (ho_actors h)) ({[k]} ∪ ho_nodes h) (ho_active h + 1)) ((a, k) :: w) c').
Proof.
  intros [K1 K2 K3 K4 K5 K6 K7 K8] Eb. unfold host_busy in Eb. propify. cbn in *. assert (Hfresh : ho_actors h !! a = None) by by apply eq_None_not_Some.
  split; cbn.
  - lia.
  - apply NoDup_cons. split; [|done]. rewrite K5, Hfresh. done.
  - apply NoDup_cons. split; [|done]. rewrite <- (elem_of_list_to_set (C := gset jsstr)), <- K4. done.
  - by rewrite K4.
  - intros b. rewrite elem_of_cons, K5. destruct (decide (b = a)) as [->|Hb]; [rewrite lookup_insert_eq; naive_solver|]. rewrite lookup_insert_ne by done. naive_solver.
  - intros b m [[_ <-]|[_ Hm]]%lookup_insert_Some; [done|]. by apply (K6 b).
  - unfold maxActive in *. lia.
  - rewrite map_size_insert_None by done. unfold maxActors in *. lia.
Qed.

Lemma released_ok h w1 w2 c c' now a k : host_ok (MkHostRun h (w1 ++ (a, k) :: w2) c) -> host_ok (MkHostRun (release_observation now a k h) (w1 ++ w2) c').
Proof.
  intros [K1 K2 K3 K4 K5 K6 K7 K8]. cbn in *. rewrite length_app in *. cbn in *. rewrite map_app in *. cbn in *.
  assert (Hp : map fst w1 ++ a :: map fst w2 ≡ₚ a :: map fst w1 ++ map fst w2) by by rewrite Permutation_middle.
  assert (Hq : map snd w1 ++ k :: map snd w2 ≡ₚ k :: map snd w1 ++ map snd w2) by by rewrite Permutation_middle.
  pose proof K2 as Ha. rewrite Hp in Ha. apply NoDup_cons in Ha as [Ha Hn1]. pose proof K3 as Hk. rewrite Hq in Hk. apply NoDup_cons in Hk as [Hk Hn2].
  assert (Hin : ho_actors h !! a = Some (MkActorState true None)) by (apply K5; set_solver).
  split; cbn; rewrite ?map_app, ?length_app.
  - lia.
  - done.
  - done.
  - rewrite K4. rewrite <- (elem_of_list_to_set (C := gset jsstr)) in Hk. set_solver.
  - intros b. destruct (decide (b = a)) as [->|Hb]; [rewrite lookup_insert_eq; naive_solver|]. rewrite lookup_insert_ne by done. rewrite <- K5. set_solver.
  - intros b m [[_ <-]|[_ Hm]]%lookup_insert_Some; [done|]. by apply (K6 b).
  - lia.
  - rewrite map_size_insert_Some; [done|by exists (MkActorState true None)].
Qed.

Lemma host_step_ok s s' : host_step s s' -> host_ok s -> host_ok s'.
Proof.
  destruct 1 as [h w c start a sc n h' Hc E|h w c start a sc n e h' Hc E|h w1 w2 c now a k Hc]; intros Hok; [..|by eapply released_ok];
    apply (expire_ok start _ _ _ start) in Hok; unfold admit_observation in E; cbn zeta in E; destruct (host_busy _ _ _) eqn:Eb; try done; injection E as <-.
  - exact (admitted_ok (expire_actors start h) w start start a (node_key sc n) Hok Eb).
  - subst. exact Hok.
Qed.

Lemma new_host_ok c : host_ok (MkHostRun new_host [] c).
Proof. split; cbn; try done; try (by constructor). intros a. rewrite lookup_empty. set_solver. Qed.

(** C31. However requests and ends of reads interleave, the host counts exactly the observations
    whose read has not ended: at most eight, no two of one actor, no two of one Node, and
    never more than 256 actors are remembered. *)
Theorem host_bounded s s' : host_ok s -> rtc host_step s s' ->
  host_ok s' /\ Z.of_nat (length (hr_work s')) <= 8 /\ NoDup (map fst (hr_work s')) /\ NoDup (map snd (hr_work s')) /\ ho_active (hr_host s') = Z.of_nat (length (hr_work s')) /\
  Z.of_nat (size (ho_actors (hr_host s'))) <= 256.
Proof.
  intros Hok Hrun. assert (K : host_ok s').
  { induction Hrun as [|x y z Hxy _ IH]; [done|]. apply IH. by eapply host_step_ok. }
  destruct K. split_and!; done.
Qed.

(** What a host remembers of an actor after a release at [t]. *)
Definition resting (a : jsstr) (t : Z) (s : HostRun) : Prop :=
  t + cooldown <= hr_clock s \/ ho_actors (hr_host s) !! a = Some (MkActorState false (Some (t + cooldown))).

Lemma resting_expire a t start h : ho_actors h !! a = Some (MkActorState false (Some (t + cooldown))) ->
  t + cooldown <= start \/ ho_actors (expire_actors start h) !! a = Some (MkActorState false (Some (t + cooldown))).
Proof.
  intros Hm. destruct (Z.le_gt_cases (t + cooldown) start) as [|Hlt]; [by left|right]. apply expire_lookup. split; [done|]. unfold rested. cbn. lia.
Qed.

Lemma resting_step a t s s' : host_ok s -> host_step s s' -> resting a t s -> resting a t s'.
Proof.
  intros Hok Hst [Hc|Hm].
  { left. destruct Hst; cbn in *; lia. }
  destruct Hst as [h w c start b sc n h' Hc E|h w c start b sc n e h' Hc E|h w1 w2 c now b k Hc]; cbn in Hm.
  - destruct (resting_expire a t start h Hm) as [|Hm']; [by left|right]. unfold admit_observation in E. cbn zeta in E. destruct (host_busy _ _ _) eqn:Eb; [done|].
    injection E as <-. cbn [hr_host ho_actors]. rewrite lookup_insert_ne; [exact Hm'|]. intros ->. unfold host_busy in Eb. rewrite Hm' in Eb.
    rewrite (bool_decide_eq_true_2 (is_Some _)) in Eb by eauto. by rewrite orb_true_r in Eb.
  - destruct (resting_expire a t start h Hm) as [|Hm']; [by left|right]. unfold admit_observation in E. cbn zeta in E. destruct (host_busy _ _ _); [|done]. by injection E as _ <-.
  - right. cbn. rewrite lookup_insert_ne; [done|]. intros ->.
    assert (Hin : ho_actors h !! a = Some (MkActorState true None)) by (apply (hk_marked _ Hok); cbn; rewrite map_app; cbn; set_solver). congruence.
Qed.

(** After the read of an actor has ended, the actor is not admitted again for a second,
    whatever happens in between. *)
Theorem host_cooldown h w1 w2 c now actorId key s start scopeId nodeId h' : host_ok (MkHostRun h (w1 ++ (actorId, key) :: w2) c) -> c <= now ->
  rtc host_step (MkHostRun (release_observation now actorId key h) (w1 ++ w2) now) s -> hr_clock s <= start ->
  admit_observation start actorId scopeId nodeId (hr_host s) = (Returns tt, h') -> now + cooldown <= start.
Proof.
  intros Hok Hc Hrun Hs Ha. assert (H0 : resting actorId now (MkHostRun (release_observation now actorId key h) (w1 ++ w2) now)) by (right; cbn; apply lookup_insert_eq).
  pose proof (released_ok _ _ _ _ now now _ _ Hok) as K. assert (Hr : resting actorId now s).
  { induction Hrun as [|x y z Hxy _ IH]; [done|]. apply IH; [done..|by eapply resting_step|by eapply host_step_ok]. }
  destruct Hr as [Hr|Hr]; [lia|]. destruct (resting_expire _ _ start _ Hr) as [|Hm]; [done|]. unfold admit_observation in Ha. cbn zeta in Ha.
  unfold host_busy in Ha. rewrite (bool_decide_eq_true_2 (is_Some _)) in Ha by (rewrite Hm; eauto). by rewrite orb_true_r in Ha.
Qed.

(** A host whose reads have ended admits any actor that has rested. *)
Theorem host_recovers h c start actorId scopeId nodeId : host_ok (MkHostRun h [] c) -> (forall a m, ho_actors h !! a = Some m -> rested start m = true) ->
  exists h', admit_observation start actorId scopeId nodeId h = (Returns tt, h').
Proof.
  intros [K1 _ _ K4 _ _ _ _] Hr. cbn in *. unfold admit_observation. cbn zeta.
  assert (E : ho_actors (expire_actors start h) = ∅).
  { apply map_empty. intros a. apply eq_None_not_Some. intros [m [Hm Hf]%expire_lookup]. by rewrite (Hr a m Hm) in Hf. }
  unfold host_busy. rewrite E. cbn [expire_actors ho_active ho_nodes]. rewrite K1, K4, lookup_empty, map_size_empty. cbn. eexists. reflexivity.
Qed.
