(* ===== verification/ObservationText.v ===== *)
(** The answer of an observation (apps/control/src/application/node-observations.ts, the
    work of [observe]): its evidence is read, judged, and refused when its JSON text is
    longer than the budget, which no judgement is. *)

From S2P Require Import Prelude.
From S2P Require Import JsString.
From S2P Require Import JsValue.
From S2P Require Import Primitives.
From S2P Require Import Json.
From S2P Require Import Time.
From S2P Require Import Types.
From S2P Require Import RelayPlan.
From S2P Require Import Iso.
From S2P Require Import Store.
From S2P Require Import Observations.

Local Open Scope Z_scope.

(** [new TextEncoder().encode(text).length]: a lone surrogate becomes a replacement
    character. *)
Definition unit_octets (c : Z) : Z := if c <? 128 then 1 else if c <? 2048 then 2 else 3.
Fixpoint utf8_octets (s : jsstr) : Z :=
  match s with
  | [] => 0
  | x :: r =>
      match r with
      | y :: r' => if is_high x && is_low y then 4 + utf8_octets r' else unit_octets x + utf8_octets r
      | [] => unit_octets x
      end
  end.

Definition reason_text (r : ObservationReason) : jsstr :=
  match r with
  | recent_report => js "recent-report" | missing_report => js "missing-report" | invalid_report => js "invalid-report" | node_revoked => js "node-revoked"
  | credential_expired => js "credential-expired" | session_mismatch => js "session-mismatch" | snapshot_mismatch => js "snapshot-mismatch"
  | clock_skew => js "clock-skew" | report_expired => js "report-expired" | snapshot_expired => js "snapshot-expired"
  end.

Definition observation_status_text (s : ObservationStatus) : jsstr :=
  match s with os_observed => js "observed" | os_stale => js "stale" | os_unknown => js "unknown" end.

Definition provenance_json (r : AgentReportProvenance) : json :=
  JObj [(js "nodeId", JStr (ap_nodeId r)); (js "bootId", JStr (ap_bootId r)); (js "sessionEpoch", JInt (ap_sessionEpoch r));
        (js "reportSequence", JInt (ap_reportSequence r)); (js "snapshotGeneration", JInt (ap_snapshotGeneration r)); (js "observedAt", JInt (ap_observedAt r));
        (js "receivedAt", JInt (ap_receivedAt r)); (js "assignmentCount", JInt (ap_assignmentCount r))].

Definition opt_json {A} (f : A -> json) (o : option A) : json := match o with Some x => f x | None => JNull end.

Definition observation_json (o : NodeReportObservation) : json :=
  JObj [(js "version", JInt 1); (js "source", JStr (js "persisted-agent-report")); (js "independentProbe", JBool false); (js "health", JStr (js "unknown"));
        (js "scopeId", JStr (no_scopeId o)); (js "nodeId", JStr (no_nodeId o)); (js "capturedAt", JStr (no_capturedAt o));
        (js "status", JStr (observation_status_text (no_status o))); (js "reason", JStr (reason_text (no_reason o)));
        (js "receivedAt", opt_json JStr (no_receivedAt o)); (js "expiresAt", opt_json JStr (no_expiresAt o));
        (js "provenance", opt_json provenance_json (no_provenance o))].

Definition observation_budget (o : NodeReportObservation) : outcome NodeReportObservation :=
  _ ← throw_if (maxResultBytes <? utf8_octets (stringify (observation_json o))) "OBSERVATION_INVALID_RESULT" "Observation result exceeds budget";
  Returns o.

(** The work of an admitted observation. *)
Definition observe_work (actorId scopeId nodeId : jsstr) (now : Z) (p : NodeObservationPolicy) : tx NodeReportObservation :=
  e ← read_evidence actorId scopeId nodeId;
  o ← lift (observeNodeReport e scopeId nodeId now p);
  lift (observation_budget o).

(** ** Texts of plain characters *)

(** An ASCII character that [JSON.stringify] leaves as it is. *)
Definition plain (c : Z) : bool := (32 <=? c) && (c <? 128) && negb (c =? 34) && negb (c =? 92).

Lemma escape_unit_plain c : plain c = true -> escape_unit c = [c].
Proof.
  unfold plain, escape_unit. intros Hc. propify. replace (is_high c) with false by (symmetry; unfold is_high, ch_in; lia).
  replace (is_low c) with false by (symmetry; unfold is_low, ch_in; lia). repeat case_match; propify; lia || done.
Qed.

Lemma escape_plain s : forallb plain s = true -> escape s = s.
Proof.
  apply (escape_ind (fun s e => forallb plain s = true -> e = s)); [done| |].
  - intros x r IH [Hx Hr]%andb_prop. by rewrite escape_unit_plain, IH.
  - intros x y r Hx _ _ [Hp _]%andb_prop. unfold plain in Hp. unfold is_high, ch_in in Hx. lia.
Qed.

Definition ascii_text (s : jsstr) : bool := forallb (fun c => (0 <=? c) && (c <? 128)) s.

Lemma octets_ascii s : ascii_text s = true -> utf8_octets s = Z.of_nat (length s).
Proof.
  unfold ascii_text. induction s as [|x r IH]; [done|]. intros [Hx Hr]%andb_prop. specialize (IH Hr). cbn [utf8_octets length].
  assert (Hu : unit_octets x = 1) by (unfold unit_octets; case_match; propify; lia).
  assert (Hh : is_high x = false) by (unfold is_high, ch_in; propify; lia).
  destruct r as [|y r]; [by rewrite Hu|]. rewrite Hh. cbn [andb]. lia.
Qed.

Lemma plain_ascii s : forallb plain s = true -> ascii_text s = true.
Proof. unfold ascii_text. rewrite !forallb_forall. intros Hs c Hc. specialize (Hs c Hc). unfold plain in Hs. propify. lia. Qed.

(** The text of a value is ASCII and has at most [k] characters. *)
Definition text_within (v : json) (k : nat) : Prop := ascii_text (stringify v) = true /\ (length (stringify v) <= k)%nat.

Definition within (s : jsstr) (k : nat) : Prop := forallb plain s = true /\ (length s <= k)%nat.

Lemma ascii_app a b : ascii_text (a ++ b) = ascii_text a && ascii_text b.
Proof. apply forallb_app. Qed.

Lemma quote_within s k : within s k -> ascii_text (quote s) = true /\ (length (quote s) <= k + 2)%nat.
Proof.
  intros [Hp Hl]. unfold quote. rewrite escape_plain by done. split; [|cbn; rewrite length_app; cbn; lia].
  change (ch_quote :: s ++ [ch_quote]) with ([ch_quote] ++ s ++ [ch_quote]). by rewrite !ascii_app, (plain_ascii s Hp).
Qed.

Lemma text_null : text_within JNull 4.
Proof. split; [reflexivity|vm_compute; lia]. Qed.

Lemma text_bool b : text_within (JBool b) 5.
Proof. destruct b; (split; [reflexivity|vm_compute; lia]). Qed.

Lemma text_str s k : within s k -> text_within (JStr s) (k + 2).
Proof. apply quote_within. Qed.

Lemma digits_ascii s : forallb is_digit s = true -> forallb plain s = true.
Proof. rewrite !forallb_forall. intros Hs c Hc. specialize (Hs c Hc). unfold is_digit, ch_in in Hs. unfold plain. propify. lia. Qed.

Lemma text_int z : 0 <= z <= MAX_COUNTER -> text_within (JInt z) 16.
Proof.
  intros Hz. unfold text_within. cbn [stringify]. unfold num_to_string. replace (z <? 0) with false by lia. split.
  - apply plain_ascii, digits_ascii, to_base_10_digits. lia.
  - apply (to_base_length 10 ltac:(lia) z 15). unfold MAX_COUNTER in Hz. cbn. lia.
Qed.

Lemma text_obj fs ks : Forall2 (fun kv k => forallb plain kv.1 = true /\ text_within kv.2 k) fs ks ->
  text_within (JObj fs) (2 + sum_list_with (fun kv => length kv.1 + 4)%nat fs + sum_list ks)%nat.
Proof.
  intros Hf. unfold text_within. rewrite stringify_obj. change (ch_lbrace :: ?a) with ([ch_lbrace] ++ a). rewrite !ascii_app, !length_app. cbn [length].
  assert (Hj : ascii_text (join [ch_comma] (map field_text fs)) = true /\
    (length (join [ch_comma] (map field_text fs)) <= sum_list_with (fun kv => length kv.1 + 4)%nat fs + sum_list ks)%nat).
  { induction Hf as [|[n v] k fs ks [Hn [Ha Hl]] _ [IHa IHl]]; [cbn; split; [done|lia]|]. cbn [fst snd] in *.
    destruct (quote_within n (length n)) as [Hqa Hql]; [by split|].
    assert (Hfa : ascii_text (field_text (n, v)) = true /\ (length (field_text (n, v)) <= length n + 3 + k)%nat).
    { unfold field_text. cbn [fst snd]. change (ch_colon :: stringify v) with ([ch_colon] ++ stringify v). rewrite !ascii_app, Hqa, Ha, !length_app.
      cbn [length]. split; [reflexivity|lia]. }
    destruct Hfa as [Hfa Hfl]. cbn [map]. destruct fs as [|f fs]; [cbn in *; split; [done|lia]|]. cbn [join map] in *.
    rewrite !ascii_app, Hfa, IHa, !length_app. cbn in *. split; [reflexivity|lia]. }
  destruct Hj as [Hja Hjl]. rewrite Hja. split; [reflexivity|lia].
Qed.

(** ** The parts of an observation *)

Lemma id_within s : is_id s = true -> within s 128.
Proof.
  unfold is_id. intros [[Hl%Nat.leb_le _]%andb_prop Hs]%andb_prop. split; [|done]. destruct s as [|c r]; [done|]. apply andb_prop in Hs as [Hc Hr]. cbn [forallb].
  assert (Hrest : forall x, id_rest x = true -> plain x = true).
  { intros x. unfold id_rest, plain, is_alnum, is_digit, is_lower, is_upper, ch_in, ch_dot, ch_colon, ch_dash. intros E. propify. lia. }
  rewrite (Hrest c) by (unfold id_first in Hc; unfold id_rest; by rewrite Hc).
  cbn [andb]. rewrite forallb_forall in *. auto.
Qed.

Lemma counter_text b z : is_counter b z = true -> text_within (JInt z) 16.
Proof. intros Hc. apply text_int. unfold is_counter in Hc. destruct b; propify; lia. Qed.

Lemma stamp_text z : is_timestamp z = true -> text_within (JInt z) 16.
Proof. intros Hc. apply text_int. unfold is_timestamp, MAX_COUNTER in *. propify. lia. Qed.

Lemma padded_within n v : 0 <= v < 10 ^ Z.of_nat n -> (0 < n)%nat -> within (padStart n (to_base 10 v)) n.
Proof.
  intros Hv Hn. assert (Hl : (length (to_base 10 v) <= n)%nat) by (destruct n as [|k]; [lia|]; by apply to_base_length).
  unfold padStart. split; [|rewrite length_app, length_replicate; lia]. apply digits_ascii. rewrite forallb_app, forallb_replicate_zero. apply to_base_10_digits. lia.
Qed.

Lemma within_app a b j k : within a j -> within b k -> within (a ++ b) (j + k).
Proof. intros [Ha Hj] [Hb Hk]. split; [by rewrite forallb_app, Ha, Hb|rewrite length_app; lia]. Qed.

Lemma within_cons c s k : plain c = true -> within s k -> within (c :: s) (S k).
Proof. intros Hc [Hs Hk]. split; cbn; [by rewrite Hc|lia]. Qed.

Lemma within_le s j k : within s j -> (j <= k)%nat -> within s k.
Proof. intros [Hs Hj] Hk. split; [done|lia]. Qed.

Lemma year_within y : -999999 <= y <= 999999 -> within (year_text y) 7.
Proof.
  intros Hy. unfold year_text. destruct ((0 <=? y) && (y <=? 9999)) eqn:E.
  - propify. eapply within_le; [apply padded_within; cbn; lia|lia].
  - apply (within_app _ _ 1 6); [by destruct (y <? 0)|]. apply padded_within; cbn; lia.
Qed.

Lemma two_within n : 0 <= n < 100 -> within (two n) 2.
Proof. intros Hn. apply padded_within; cbn; lia. Qed.

(** Every instant has a text of at most 27 plain characters. *)
Lemma iso_within ms t : toISOString ms = Returns t -> within t 27.
Proof.
  unfold toISOString. intros (u & Hms & [= <-])%bind_Returns. unfold throw_if in Hms. destruct (_ <? _) eqn:E; [done|]. propify. unfold iso_text.
  pose proof (civil_correct (ms / 86400000)) as Hc. unfold civil_spec in Hc. destruct (civil (ms / 86400000)) as [[y m] d]. destruct Hc as (_ & Hm & Hd & Hy).
  assert (Hyear : -999999 <= y <= 999999) by (unfold day_from_year in Hy; div_lia). set (t0 := ms mod 86400000).
  assert (Ht : 0 <= t0 / 3600000 < 100 /\ 0 <= t0 / 60000 mod 60 < 100 /\ 0 <= t0 / 1000 mod 60 < 100 /\ 0 <= t0 mod 1000 < 1000) by (unfold t0; div_lia).
  destruct Ht as (Hh & Hmin & Hsec & Hms1).
  apply (within_app _ _ 7 20); [by apply year_within|]. apply within_cons; [done|]. apply (within_app _ _ 2 17); [apply two_within; lia|].
  apply within_cons; [done|]. apply (within_app _ _ 2 14); [apply two_within; lia|]. apply within_cons; [done|].
  apply (within_app _ _ 2 11); [by apply two_within|]. apply within_cons; [done|]. apply (within_app _ _ 2 8); [by apply two_within|].
  apply within_cons; [done|]. apply (within_app _ _ 2 5); [by apply two_within|]. apply within_cons; [done|]. apply (within_app _ _ 3 1); [|done].
  apply padded_within; cbn; tauto || lia.
Qed.

Lemma text_le v j k : text_within v j -> (j <= k)%nat -> text_within v k.
Proof. intros [Ha Hj] Hk. split; [done|lia]. Qed.

Lemma provenance_within r : provenance_ok r = true -> text_within (provenance_json r) 512.
Proof.
  unfold provenance_ok. intros Hr. do 8 apply andb_prop in Hr as [Hr ?]. eapply text_le.
  - apply (text_obj _ [130; 130; 16; 16; 16; 16; 16; 16]%nat).
    repeat (constructor; [split; [reflexivity|]; cbn [snd]; first [by apply (text_str _ 128), id_within|by eapply counter_text|by apply stamp_text|idtac]|]); [|done].
    apply text_int. unfold MAX_COUNTER. propify. lia.
  - vm_compute. lia.
Qed.

Lemma iso_text_json o t : opt_iso o = Returns t -> text_within (opt_json JStr t) 29.
Proof.
  unfold opt_iso. destruct o as [z|]; [|by intros [= <-]; eapply text_le; [apply text_null|lia]].
  intros (x & Hx & [= <-])%bind_Returns. by apply (text_str _ 27), (iso_within z).
Qed.

(** C38. No observation of valid identifiers exceeds the budget: the work of an admitted request
    answers with whatever its evidence shows. *)
Theorem observation_fits e scopeId nodeId now p o : is_id scopeId = true -> is_id nodeId = true -> observeNodeReport e scopeId nodeId now p = Returns o ->
  observation_budget o = Returns o /\ utf8_octets (stringify (observation_json o)) <= maxResultBytes.
Proof.
  intros Hs Hn Ho. unfold observeNodeReport in Ho. destruct (evidence_ok e scopeId nodeId); [|done]. destruct (opt_all provenance_ok _) eqn:Hp; [|done]. cbn [negb] in Ho.
  cbn zeta in Ho. apply bind_Returns in Ho as (cap & Hcap & Ho). apply bind_Returns in Ho as (rec & Hrec & Ho). apply bind_Returns in Ho as (ex & Hex & [= <-]).
  set (reason := observation_reason e nodeId now p). assert (Hw : text_within (observation_json (MkNodeObservation scopeId nodeId cap (status_of reason) reason rec ex (ne_report e))) 4096).
  { eapply text_le.
    - apply (text_obj _ [16; 26; 5; 9; 130; 130; 29; 10; 20; 29; 29; 512]%nat).
      repeat (constructor; [split; [reflexivity|]; cbn [snd no_scopeId no_nodeId no_capturedAt no_status no_reason no_receivedAt no_expiresAt no_provenance]|]); [..|done].
      + by apply text_int.
      + split; [reflexivity|vm_compute; lia].
      + apply text_bool.
      + split; [reflexivity|vm_compute; lia].
      + by apply (text_str _ 128), id_within.
      + by apply (text_str _ 128), id_within.
      + by apply (text_str _ 27), (iso_within now).
      + by apply (text_str _ 8); destruct reason; (split; [reflexivity|vm_compute; lia]).
      + by apply (text_str _ 18); destruct reason; (split; [reflexivity|vm_compute; lia]).
      + by eapply iso_text_json.
      + by eapply iso_text_json.
      + destruct (ne_report e) as [r|]; [by apply provenance_within|eapply text_le; [apply text_null|lia]].
    - vm_compute. lia. }
  destruct Hw as [Ha Hl]. assert (Hb : utf8_octets (stringify (observation_json (MkNodeObservation scopeId nodeId cap (status_of reason) reason rec ex (ne_report e)))) <= maxResultBytes).
  { rewrite octets_ascii by done. unfold maxResultBytes. lia. }
  split; [|done]. unfold observation_budget, throw_if. by replace (maxResultBytes <? _) with false by lia.
Qed.
