(* ===== verification/Console.v ===== *)
(** The console's read models (apps/control/src/application/console-query.ts,
    console-queries.ts and infrastructure/mysql-console-read.ts): filtered pages of Nodes,
    Forwards, Operations and candidates, the overview and the diagnostics of a Node.  All of
    it only reads; [now] is the clock.

    Constant members of the answers are left out.  Identifiers compare as bytes
    ([ascii_bin]). *)

From S2P Require Import Prelude.
From S2P Require Import JsString.
From S2P Require Import Primitives.
From S2P Require Import Json.
From S2P Require Import Forward.
From S2P Require Import Types.
From S2P Require Import TargetPolicy.
From S2P Require Import Relay.
From S2P Require Import RelayPlan.
From S2P Require Import Iso.
From S2P Require Import Store.
From S2P Require Import Forwarding.
From S2P Require Import Identity.
From S2P Require Import Reads.
From S2P Require Import Observations.

Local Open Scope Z_scope.

(** ** Queries *)

Inductive ConsoleListKind := cl_nodes | cl_forwards | cl_operations | cl_candidates.
Abbreviation ConsoleFilters := (list (jsstr * jsstr)).

Record ConsolePaging := MkPaging { cp_page : Z; cp_limit : Z; cp_offset : Z }.

Definition consoleFilterNames (k : ConsoleListKind) : list jsstr :=
  match k with
  | cl_nodes => [js "idPrefix"; js "credential"]
  | cl_forwards => [js "idPrefix"; js "enabled"; js "recoverySuspended"; js "protocol"]
  | cl_operations => [js "forwardId"; js "kind"; js "status"]
  | cl_candidates => [js "idPrefix"; js "nodeId"; js "mode"; js "protocol"]
  end.

Definition filter_enums : list (jsstr * list jsstr) :=
  [(js "credential", [js "valid"; js "expired"; js "unenrolled"; js "revoked"]); (js "enabled", [js "true"; js "false"]);
   (js "recoverySuspended", [js "true"; js "false"]); (js "protocol", [js "tcp"; js "udp"; js "both"]); (js "mode", [js "direct"; js "relay"; js "multihop"]);
   (js "status", [js "accepted"; js "running"; js "succeeded"; js "failed"; js "superseded"]);
   (js "kind", [js "create"; js "update"; js "enable"; js "disable"; js "delete"; js "retry"; js "policy"; js "revoke"])].

Definition filter_of (fs : ConsoleFilters) (k : jsstr) : option jsstr := snd <$> find (fun f => str_eqb f.1 k) fs.

Definition filter_valid (kind : ConsoleListKind) (f : jsstr * jsstr) : bool :=
  includes (consoleFilterNames kind) f.1 &&
  match snd <$> find (fun e => str_eqb e.1 f.1) filter_enums with Some values => includes values f.2 | None => is_id f.2 end.

Definition validateConsoleFilters (kind : ConsoleListKind) (fs : ConsoleFilters) : outcome unit :=
  throw_if (negb (forallb (filter_valid kind) fs)) "INVALID_CONFIG" "Invalid console filter".

(** [/^[1-9][0-9]*$/.test(value) && Number(value) <= maximum] *)
Definition page_number (value : option jsstr) (fallback maximum : Z) : outcome Z :=
  match value with
  | None => Returns fallback
  | Some t =>
      _ ← throw_if (negb (match t with [] => false | c :: r => is_digit c && negb (c =? 48) && forallb is_digit r end) || (maximum <? of_base 10 t))
            "INVALID_CONFIG" "Invalid pagination parameter";
      Returns (of_base 10 t)
  end.

Definition consolePage (pageText limitText : option jsstr) : outcome ConsolePaging :=
  page ← page_number pageText 1 10000;
  limit ← page_number limitText 25 100;
  Returns (MkPaging page limit ((page - 1) * limit)).

(** [consolePageSql]: the bounds again, then [LIMIT ... OFFSET ...] *)
Definition page_bounds (p : ConsolePaging) : bool :=
  (1 <=? cp_page p) && (cp_page p <=? 10000) && (1 <=? cp_limit p) && (cp_limit p <=? 100) && (cp_offset p =? (cp_page p - 1) * cp_limit p).

Definition page_slice {R} (p : ConsolePaging) (rows : list R) : outcome (list R) :=
  _ ← throw_if (negb (page_bounds p)) "INVALID_CONFIG" "Invalid bounded pagination";
  Returns (take (Z.to_nat (cp_limit p)) (drop (Z.to_nat (cp_offset p)) rows)).

(** ** Pages *)

Record ConsolePage (T : Type) := MkConsolePage { cg_page : Z; cg_limit : Z; cg_total : Z; cg_items : list T }.
Arguments MkConsolePage {T}.
Arguments cg_page {T}.
Arguments cg_limit {T}.
Arguments cg_total {T}.
Arguments cg_items {T}.

(** [SELECT COUNT] and [SELECT ... ORDER BY ... LIMIT ... OFFSET ...] under one predicate *)
Definition console_page {R T} (rows : Db -> list R) (item : Db -> R -> outcome T) (p : ConsolePaging) : tx (ConsolePage T) :=
  all ← query rows;
  slice ← lift (page_slice p all);
  items ← query (fun d => map_each (item d) slice);
  items ← lift items;
  mret (MkConsolePage (cp_page p) (cp_limit p) (Z.of_nat (length all)) items).

(** [id LIKE CONCAT(?, '%')], with [_] escaped *)
Definition id_prefixed (fs : ConsoleFilters) (id_ : jsstr) : bool :=
  match filter_of fs (js "idPrefix") with Some p => str_eqb (take (length p) id_) p | None => true end.

Definition filter_is (fs : ConsoleFilters) (k v : string) : bool := bool_decide (filter_of fs (js k) = Some (js v)).
Definition has_filter (fs : ConsoleFilters) (k : string) : bool := bool_decide (is_Some (filter_of fs (js k))).

Definition by_id {V} (a b : jsstr * V) : bool := str_leb a.1 b.1.
Definition ordered {V} (le : jsstr * V -> jsstr * V -> bool) (where_ : jsstr -> V -> bool) (m : gmap jsstr V) : list (jsstr * V) :=
  sort_by le (List.filter (fun kv => where_ kv.1 kv.2) (map_to_list m)).

(** *** Nodes *)

Record ConsoleNode := MkConsoleNode {
  cn_id : jsstr; cn_revoked : bool; cn_credentialUntil : option jsstr; cn_policy : AuthorizedNodeFacts; cn_sessionEpoch : Z; cn_snapshotGeneration : Z;
  cn_lastReportAt : option jsstr;
}.

Definition credential_filter (now : Z) (fs : ConsoleFilters) (n : NodeRow) : bool :=
  if filter_is fs "credential" "revoked" then nd_revoked n else
  if negb (has_filter fs "credential") then true else
  negb (nd_revoked n) &&
  (if filter_is fs "credential" "unenrolled" then bool_decide (nd_credential_until n = None) else
   match nd_credential_until n with
   | Some t => if filter_is fs "credential" "valid" then now <? t else t <=? now
   | None => false
   end).

Definition node_where (now : Z) (scopeId : jsstr) (fs : ConsoleFilters) (id_ : jsstr) (n : NodeRow) : bool :=
  str_eqb (nd_scope_id n) scopeId && id_prefixed fs id_ && credential_filter now fs n.

Definition node_item (d : Db) (r : jsstr * NodeRow) : outcome ConsoleNode :=
  let rt := db_runtime_nodes d !! r.1 in
  until_ ← opt_iso (nd_credential_until r.2);
  received ← opt_iso (t ← rt; rn_received_at t);
  Returns (MkConsoleNode r.1 (nd_revoked r.2) until_ (nd_facts r.2) (match rt with Some t => rn_session_epoch t | None => 0 end)
             (match rt with Some t => rn_snapshot_generation t | None => 0 end) received).

Definition node_rows (now : Z) (scopeId : jsstr) (fs : ConsoleFilters) (d : Db) : list (jsstr * NodeRow) := ordered by_id (node_where now scopeId fs) (db_nodes d).

Definition read_nodes (now : Z) (scopeId : jsstr) (p : ConsolePaging) (fs : ConsoleFilters) : tx (ConsolePage ConsoleNode) :=
  _ ← lift (validateConsoleFilters cl_nodes fs);
  console_page (node_rows now scopeId fs) node_item p.

(** *** Forwards *)

Record ConsoleForward := MkConsoleForward {
  cw_id : jsstr; cw_revision : Z; cw_spec : ForwardSpec; cw_recoverySuspended : bool; cw_lastOperation : option (jsstr * OperationKind * OperationStatus);
}.

(** [JSON_CONTAINS(spec->'$.protocols', ?)] *)
Definition protocol_filter (fs : ConsoleFilters) (has_tcp has_udp : bool) : bool :=
  (negb (filter_is fs "protocol" "both") || has_tcp && has_udp) && (negb (filter_is fs "protocol" "tcp") || has_tcp) && (negb (filter_is fs "protocol" "udp") || has_udp).

Definition flag_filter (fs : ConsoleFilters) (k : string) (b : bool) : bool := negb (has_filter fs k) || Bool.eqb b (filter_is fs k "true").

Definition forward_where (scopeId : jsstr) (fs : ConsoleFilters) (id_ : jsstr) (f : ForwardRow) : bool :=
  str_eqb (fw_scope_id f) scopeId && id_prefixed fs id_ && negb (fw_deleting f) && flag_filter fs "enabled" (enabled (fw_spec f)) &&
  flag_filter fs "recoverySuspended" (fw_recovery_suspended f) && protocol_filter fs (includes (protocols (fw_spec f)) tcp) (includes (protocols (fw_spec f)) udp).

(** [ORDER BY target_revision DESC, created_at DESC, id DESC] *)
Definition newest_operation (a b : jsstr * Operation) : bool :=
  if op_target_revision a.2 =? op_target_revision b.2
  then if op_created_at a.2 =? op_created_at b.2 then str_leb b.1 a.1 else op_created_at b.2 <? op_created_at a.2
  else op_target_revision b.2 <? op_target_revision a.2.

Definition last_operation (id_ : jsstr) (d : Db) : option (jsstr * OperationKind * OperationStatus) :=
  (fun o : jsstr * Operation => (o.1, op_kind o.2, op_status o.2)) <$> head (ordered newest_operation (fun _ o => str_eqb (op_forward_id o) id_) (db_operations d)).

Definition forward_item (d : Db) (r : jsstr * ForwardRow) : outcome ConsoleForward :=
  Returns (MkConsoleForward r.1 (fw_revision r.2) (fw_spec r.2) (fw_recovery_suspended r.2) (last_operation r.1 d)).

Definition forward_rows (scopeId : jsstr) (fs : ConsoleFilters) (d : Db) : list (jsstr * ForwardRow) := ordered by_id (forward_where scopeId fs) (db_forwards d).

Definition read_forwards (scopeId : jsstr) (p : ConsolePaging) (fs : ConsoleFilters) : tx (ConsolePage ConsoleForward) :=
  _ ← lift (validateConsoleFilters cl_forwards fs);
  console_page (forward_rows scopeId fs) forward_item p.

(** *** Operations *)

Record ConsoleOperation := MkConsoleOperation {
  co_id : jsstr; co_forwardId : jsstr; co_kind : OperationKind; co_status : OperationStatus; co_targetRevision : Z; co_createdAt : jsstr; co_updatedAt : jsstr;
  co_lastError : option json; co_recoveryInvalidated : bool; co_cleanupPending : bool;
}.

Definition kind_text (k : OperationKind) : jsstr :=
  match k with
  | k_create => js "create" | k_update => js "update" | k_enable => js "enable" | k_disable => js "disable" | k_delete => js "delete" | k_retry => js "retry"
  | k_policy => js "policy" | k_revoke => js "revoke"
  end.

Definition status_text (s : OperationStatus) : jsstr :=
  match s with
  | s_accepted => js "accepted" | s_running => js "running" | s_succeeded => js "succeeded" | s_failed => js "failed" | s_superseded => js "superseded"
  end.

Definition column_filter (fs : ConsoleFilters) (k : string) (v : jsstr) : bool :=
  match filter_of fs (js k) with Some x => str_eqb v x | None => true end.

Definition operation_where (scopeId : jsstr) (fs : ConsoleFilters) (id_ : jsstr) (o : Operation) : bool :=
  str_eqb (op_scope_id o) scopeId && column_filter fs "forwardId" (op_forward_id o) && column_filter fs "kind" (kind_text (op_kind o)) &&
  column_filter fs "status" (status_text (op_status o)).

(** [ORDER BY created_at DESC, id DESC] *)
Definition by_creation (a b : jsstr * Operation) : bool :=
  if op_created_at a.2 =? op_created_at b.2 then str_leb b.1 a.1 else op_created_at b.2 <? op_created_at a.2.

Definition operation_item (d : Db) (r : jsstr * Operation) : outcome ConsoleOperation :=
  let o := r.2 in
  created ← toISOString (op_created_at o);
  updated ← toISOString (op_updated_at o);
  Returns (MkConsoleOperation r.1 (op_forward_id o) (op_kind o) (op_status o) (op_target_revision o) created updated (op_last_error o)
             (op_recovery_invalidated o) (op_cleanup_pending o)).

Definition operation_rows (scopeId : jsstr) (fs : ConsoleFilters) (d : Db) : list (jsstr * Operation) := ordered by_creation (operation_where scopeId fs) (db_operations d).

Definition read_operations (scopeId : jsstr) (p : ConsolePaging) (fs : ConsoleFilters) : tx (ConsolePage ConsoleOperation) :=
  _ ← lift (validateConsoleFilters cl_operations fs);
  console_page (operation_rows scopeId fs) operation_item p.

(** *** Candidates *)

Definition candidate_mode (fs : ConsoleFilters) : jsstr := default (js "direct") (filter_of fs (js "mode")).

Definition candidate_capabilities (fs : ConsoleFilters) : list jsstr :=
  let mode := candidate_mode fs in
  [js "adp.3"; js "native.direct.v1"] ++
  (if str_eqb mode (js "direct") then [] else [js "native.relay.v1"; js "relay.wire.1"]) ++
  (if str_eqb mode (js "multihop") then [js "adp.execution.1"; js "native.multihop.v1"; js "multihop.wire.1"] else []) ++
  match filter_of fs (js "protocol") with None => [] | Some p => if str_eqb p (js "both") then [js "tcp"; js "udp"] else [p] end.

Definition candidate_where (now : Z) (actorId scopeId : jsstr) (fs : ConsoleFilters) (grants : gset (jsstr * jsstr)) (id_ : jsstr) (n : NodeRow) : bool :=
  let f := nd_facts n in
  str_eqb (nd_scope_id n) scopeId && id_prefixed fs id_ && negb (nd_revoked n) && match nd_credential_until n with Some t => now <? t | None => false end &&
  bool_decide ((id_, actorId) ∈ grants) && column_filter fs "nodeId" id_ && forallb (includes (nf_capabilities f)) (candidate_capabilities fs) &&
  (includes (nf_capabilities f) (js "tcp") || includes (nf_capabilities f) (js "udp")) &&
  negb (bool_decide (nf_allowedListenerAddresses f = [])) && negb (bool_decide (nf_allowedPorts f = [])).

Definition candidate_rows (now : Z) (actorId scopeId : jsstr) (fs : ConsoleFilters) (d : Db) : list (jsstr * NodeRow) :=
  ordered by_id (candidate_where now actorId scopeId fs (db_node_grants d)) (db_nodes d).

Definition read_candidates (now : Z) (actorId scopeId : jsstr) (p : ConsolePaging) (fs : ConsoleFilters) : tx (ConsolePage ConsoleNode) :=
  _ ← lift (validateConsoleFilters cl_candidates fs);
  console_page (candidate_rows now actorId scopeId fs) node_item p.

(** *** Overview and diagnostics *)

Record ConsoleOverview := MkOverview { ov_nodes : Z; ov_forwards : Z; ov_activeOperations : Z; ov_failedOperations : Z; ov_observedAt : jsstr }.

Definition count_where {V} (where_ : V -> bool) (m : gmap jsstr V) : Z := Z.of_nat (size (filter (fun kv => where_ kv.2 = true) m)).

Definition read_overview (now : Z) (scopeId : jsstr) : tx ConsoleOverview :=
  nodes ← query (fun d => count_where (fun n => str_eqb (nd_scope_id n) scopeId) (db_nodes d));
  forwards ← query (fun d => count_where (fun f => str_eqb (fw_scope_id f) scopeId && negb (fw_deleting f)) (db_forwards d));
  active_ ← query (fun d => count_where (fun o => str_eqb (op_scope_id o) scopeId && includes [s_accepted; s_running] (op_status o)) (db_operations d));
  failed_ ← query (fun d => count_where (fun o => str_eqb (op_scope_id o) scopeId && bool_decide (op_status o = s_failed)) (db_operations d));
  observed ← lift (toISOString now);
  mret (MkOverview nodes forwards active_ failed_ observed).

Record ConsoleError := MkConsoleError { ce_assignmentId : jsstr; ce_condition : Condition; ce_errorCode : jsstr; ce_retryable : bool }.

Record ConsoleDiagnostics := MkDiagnostics {
  dg_nodeId : jsstr; dg_observedAt : jsstr; dg_revoked : bool; dg_credentialUntil : option jsstr; dg_sessionEpoch : Z; dg_snapshotGeneration : Z;
  dg_lastReportSequence : Z; dg_lastReportAt : option jsstr; dg_reportAgeSeconds : option Z; dg_snapshotLeaseUntil : option jsstr;
  dg_snapshotLeaseRemainingSeconds : option Z; dg_totalReportedObservations : Z; dg_errors : list ConsoleError;
}.

(** [/^[A-Z][A-Z0-9_]{0,63}$/] *)
Definition is_error_code (s : jsstr) : bool :=
  (length s <=? 64)%nat && match s with [] => false | c :: r => is_upper c && forallb (fun x => is_upper x || is_digit x || (x =? 95)) r end.

(** The observations of the last report that name an error, the first fifty. *)
Definition console_errors (observations : list Observation) : list ConsoleError :=
  take 50 (flat_map (fun o => match obs_errorCode o with
                              | Some c => if is_error_code c then [MkConsoleError (obs_assignmentId o) (obs_condition o) c (obs_retryable o)] else []
                              | None => []
                              end) observations).

Definition read_diagnostics (now : Z) (scopeId nodeId : jsstr) : tx ConsoleDiagnostics :=
  _ ← require (is_id nodeId) "INVALID_CONFIG" "Invalid Node identifier";
  n ← query (fun d => db_nodes d !! nodeId);
  match n with
  | Some n =>
      _ ← require (str_eqb (nd_scope_id n) scopeId) "NOT_FOUND" "Node not found";
      r ← query (fun d => db_runtime_nodes d !! nodeId);
      s ← query (fun d => r ← r; db_snapshots d !! (nodeId, rn_snapshot_generation r));
      let observations := match (r ← r; rn_last_report r) with Some report => rep_observations report | None => [] end in
      let received := r ← r; rn_received_at r in
      until_ ← lift (opt_iso (sn_valid_until <$> s));
      credentialUntil ← lift (opt_iso (nd_credential_until n));
      observed ← lift (toISOString now);
      lastReport ← lift (opt_iso received);
      mret (MkDiagnostics nodeId observed (nd_revoked n) credentialUntil (match r with Some r => rn_session_epoch r | None => 0 end)
              (match r with Some r => rn_snapshot_generation r | None => 0 end) (match r with Some r => rn_last_report_sequence r | None => 0 end) lastReport
              ((fun t => Z.max 0 ((now - t) / 1000)) <$> received) until_ ((fun s => (sn_valid_until s - now) / 1000) <$> s)
              (Z.of_nat (length observations)) (console_errors observations))
  | None => throw "NOT_FOUND" "Node not found"
  end.

(** ** The application *)

Definition page_query (kind : ConsoleListKind) (pageText limitText : option jsstr) (fs : ConsoleFilters) : outcome ConsolePaging :=
  p ← consolePage pageText limitText;
  _ ← validateConsoleFilters kind fs;
  Returns p.

(** [ConsoleQueries]: the query is checked, then read under the scope's authorization. *)
Definition authorized_page {A} (kind : ConsoleListKind) (actorId scopeId : jsstr) (manage : bool) (pageText limitText : option jsstr) (fs : ConsoleFilters)
    (read : ConsolePaging -> tx A) : tx A :=
  p ← lift (page_query kind pageText limitText fs);
  _ ← scope actorId scopeId manage;
  read p.

Definition console_nodes now actorId scopeId pageText limitText fs : tx (ConsolePage ConsoleNode) :=
  authorized_page cl_nodes actorId scopeId false pageText limitText fs (fun p => read_nodes now scopeId p fs).
Definition console_forwards actorId scopeId pageText limitText fs : tx (ConsolePage ConsoleForward) :=
  authorized_page cl_forwards actorId scopeId false pageText limitText fs (fun p => read_forwards scopeId p fs).
Definition console_operations actorId scopeId pageText limitText fs : tx (ConsolePage ConsoleOperation) :=
  authorized_page cl_operations actorId scopeId false pageText limitText fs (fun p => read_operations scopeId p fs).
Definition console_candidates now actorId scopeId pageText limitText fs : tx (ConsolePage ConsoleNode) :=
  authorized_page cl_candidates actorId scopeId true pageText limitText fs (fun p => read_candidates now actorId scopeId p fs).
Definition console_overview now actorId scopeId : tx ConsoleOverview := _ ← scope actorId scopeId false; read_overview now scopeId.
Definition console_diagnostics now actorId scopeId nodeId : tx ConsoleDiagnostics :=
  _ ← require (is_id nodeId) "INVALID_CONFIG" "Invalid Node identifier";
  _ ← scope actorId scopeId false; read_diagnostics now scopeId nodeId.

(** ** What the pages are *)

Lemma page_number_ok v f m n : 1 <= f <= m -> page_number v f m = Returns n -> 1 <= n <= m.
Proof.
  intros Hf. unfold page_number, throw_if. destruct v as [t|]; [|by intros [= <-]]. destruct (negb _ || _) eqn:E; [done|]. intros [= <-].
  apply orb_false_iff in E as [Ed%negb_false_iff Em]. destruct t as [|c r]; [done|]. propify. pose proof (of_base_10_pos c r). naive_solver lia.
Qed.

(** A page that the query admits is one that the statement admits. *)
Lemma consolePage_ok pt lt p : consolePage pt lt = Returns p -> page_bounds p = true.
Proof.
  unfold consolePage. intros (pg & Hp & (lm & Hl & [= <-])%bind_Returns)%bind_Returns. apply page_number_ok in Hp; [|lia]. apply page_number_ok in Hl; [|lia].
  unfold page_bounds. cbn. lia.
Qed.

Lemma console_page_Returns {R T} (rows : Db -> list R) (item : Db -> R -> outcome T) p d pg d' : console_page rows item p d = Returns (pg, d') ->
  d' = d /\ page_bounds p = true /\ cg_page pg = cp_page p /\ cg_limit pg = cp_limit p /\ cg_total pg = Z.of_nat (length (rows d)) /\
  Forall2 (fun r t => item d r = Returns t) (take (Z.to_nat (cp_limit p)) (drop (Z.to_nat (cp_offset p)) (rows d))) (cg_items pg).
Proof.
  unfold console_page. intros Hr. apply tx_bind_Returns in Hr as (all & d1 & [-> ->]%query_Returns & Hr). apply tx_bind_Returns in Hr as (sl & d1 & [Hs ->]%lift_Returns & Hr).
  apply tx_bind_Returns in Hr as (o & d1 & [-> ->]%query_Returns & Hr). apply tx_bind_Returns in Hr as (items & d1 & [Hi ->]%lift_Returns & [-> ->]%mret_Returns).
  unfold page_slice, throw_if in Hs. destruct (page_bounds p); [|done]. injection Hs as <-. apply map_each_Returns in Hi. done.
Qed.

Lemma map_each_total {A B} (g : A -> outcome B) (P : A -> B -> Prop) l : (forall x, x ∈ l -> exists y, g x = Returns y /\ P x y) ->
  exists ys, map_each g l = Returns ys /\ Forall2 P l ys.
Proof.
  induction l as [|x l IH]; intros Hg; [by exists []|]. destruct (Hg x) as (y & Hy & HP); [set_solver|]. destruct IH as (ys & Hys & HF); [set_solver|].
  exists (y :: ys). cbn. by rewrite Hy, Hys; split; [|constructor].
Qed.

Lemma console_page_total {R T} (rows : Db -> list R) (item : Db -> R -> outcome T) (P : R -> T -> Prop) p d :
  page_bounds p = true -> (forall r, r ∈ rows d -> exists t, item d r = Returns t /\ P r t) ->
  exists pg, console_page rows item p d = Returns (pg, d) /\ cg_total pg = Z.of_nat (length (rows d)) /\
    Forall2 P (take (Z.to_nat (cp_limit p)) (drop (Z.to_nat (cp_offset p)) (rows d))) (cg_items pg).
Proof.
  intros Hp Hi. destruct (map_each_total (item d) P (take (Z.to_nat (cp_limit p)) (drop (Z.to_nat (cp_offset p)) (rows d)))) as (ys & Hys & HF).
  { intros r Hr. apply Hi. by eapply subseteq_drop, subseteq_take. }
  exists (MkConsolePage (cp_page p) (cp_limit p) (Z.of_nat (length (rows d))) ys). split; [|done].
  unfold console_page, page_slice, throw_if. rewrite Hp.
  unfold mbind, tx_bind, query, lift. cbn -[take drop]. by rewrite Hys.
Qed.

(** The rows are the matching rows of the table, each once, in the given order. *)
Record rows_of {V} (le : jsstr * V -> jsstr * V -> bool) (where_ : jsstr -> V -> bool) (m : gmap jsstr V) (rows : list (jsstr * V)) : Prop := {
  ro_rows : forall i v, (i, v) ∈ rows <-> m !! i = Some v /\ where_ i v = true;
  ro_once : NoDup (map fst rows);
  ro_sorted : Sorted (fun a b => le a b = true) rows;
}.

Lemma ordered_rows {V} le (where_ : jsstr -> V -> bool) m : (forall a b, le a b = false -> le b a = true) -> rows_of le where_ m (ordered le where_ m).
Proof.
  intros Htot. unfold ordered. split.
  - intros i v. rewrite sort_by_perm, list_elem_of_In, filter_In, <- list_elem_of_In, elem_of_map_to_list. done.
  - rewrite sort_by_perm. pose proof (NoDup_fst_map_to_list m) as Hn. induction (map_to_list m) as [|[i v] l IH]; cbn in *; [constructor|].
    apply NoDup_cons in Hn as [Hi Hn]. destruct (where_ i v); cbn; [|by apply IH]. apply NoDup_cons. split; [|by apply IH].
    intros Hin. apply Hi. apply list_elem_of_fmap in Hin as ([j w] & -> & Hw). apply list_elem_of_fmap. exists (j, w). split; [done|].
    apply list_elem_of_In, filter_In in Hw as [Hw _]. by apply list_elem_of_In.
  - by apply sort_by_sorted.
Qed.

Lemma str_leb_or a b : str_leb a b = false -> str_leb b a = true.
Proof. unfold str_leb. intros E%negb_false_iff. by rewrite (str_ltb_asym _ _ E). Qed.

Lemma by_id_total {V} (a b : jsstr * V) : by_id a b = false -> by_id b a = true.
Proof. apply str_leb_or. Qed.

Lemma by_creation_total a b : by_creation a b = false -> by_creation b a = true.
Proof.
  unfold by_creation. rewrite (Z.eqb_sym (op_created_at b.2)). destruct (op_created_at a.2 =? op_created_at b.2) eqn:E; [apply str_leb_or|]. propify. lia.
Qed.

(** The first [k] pages of one size, put together, are the first [k * limit] rows. *)
Lemma pages_prefix {A} (n k : nat) (l : list A) : concat (map (fun i => take n (drop (i * n) l)) (seq 0 k)) = take (k * n) l.
Proof.
  induction k as [|k IH]; [done|]. rewrite seq_S, map_app, concat_app, IH. cbn. rewrite app_nil_r.
  replace (n + k * n)%nat with (k * n + n)%nat by lia. by rewrite take_take_drop.
Qed.

(** Reading one page after the other until they cover the total: every row is listed once,
    in order, and every page tells the same total. *)
Definition lists_all {V T} (read : ConsolePaging -> tx (ConsolePage T)) (key : T -> jsstr) (rows : list (jsstr * V)) (d : Db) : Prop :=
  forall n (pages : list (ConsolePage T)), 1 <= n <= 100 ->
    (forall i pg, pages !! i = Some pg -> exists d', read (MkPaging (Z.of_nat i + 1) n (Z.of_nat i * n)) d = Returns (pg, d')) ->
    Z.of_nat (length rows) <= n * Z.of_nat (length pages) ->
    concat (map (fun pg => map key (cg_items pg)) pages) = map fst rows /\ forall pg, pg ∈ pages -> cg_total pg = Z.of_nat (length rows).

Lemma lists_all_read {V T} (rows : Db -> list (jsstr * V)) (item : Db -> jsstr * V -> outcome T) key read d :
  (forall p pg d', read p d = Returns (pg, d') -> console_page rows item p d = Returns (pg, d')) ->
  (forall r t, item d r = Returns t -> key t = r.1) ->
  lists_all read key (rows d) d.
Proof.
  intros Hsame Hkey n pages Hn Hread Hlen.
  assert (Hpg : forall i pg, pages !! i = Some pg -> map key (cg_items pg) = take (Z.to_nat n) (drop (i * Z.to_nat n) (map fst (rows d))) /\ cg_total pg = Z.of_nat (length (rows d))).
  { intros i pg (d' & (_ & _ & _ & _ & Ht & Hf)%Hsame%console_page_Returns)%Hread. split; [|done].
    cbn [cp_limit cp_offset] in Hf. replace (Z.to_nat (Z.of_nat i * n)) with (i * Z.to_nat n)%nat in Hf by lia. rewrite skipn_map, firstn_map.
    clear -Hf Hkey. induction Hf as [|r t l l' Hrt _ IH]; [done|]. cbn. by rewrite IH, (Hkey r t Hrt). }
  split; [|intros pg (i & Hi)%list_elem_of_lookup; by apply (Hpg i)].
  transitivity (concat (map (fun i => take (Z.to_nat n) (drop (i * Z.to_nat n) (map fst (rows d)))) (seq 0 (length pages)))).
  - f_equal. apply list_eq. intros i. rewrite !list_lookup_fmap.
    destruct (pages !! i) as [pg|] eqn:Ei.
    + rewrite lookup_seq_lt by by eapply lookup_lt_Some. cbn. f_equal. by apply (Hpg i).
    + rewrite lookup_seq_ge by by apply lookup_ge_None. done.
  - rewrite pages_prefix. apply take_ge. rewrite length_map. nia.
Qed.

Lemma lists_all_page {V T} (rows : Db -> list (jsstr * V)) (item : Db -> jsstr * V -> outcome T) key kind fs d :
  (forall r t, item d r = Returns t -> key t = r.1) ->
  lists_all (fun p => _ ← lift (validateConsoleFilters kind fs); console_page rows item p) key (rows d) d.
Proof.
  apply lists_all_read. intros p pg d' Hr. by apply tx_bind_Returns in Hr as ([] & d1 & [_ ->]%lift_Returns & Hr).
Qed.

Lemma node_item_id d r t : node_item d r = Returns t -> cn_id t = r.1.
Proof. unfold node_item. cbn zeta. by intros (u & _ & (rc & _ & [= <-])%bind_Returns)%bind_Returns. Qed.

Lemma operation_item_id d r t : operation_item d r = Returns t -> co_id t = r.1.
Proof. unfold operation_item. cbn zeta. by intros (u & _ & (rc & _ & [= <-])%bind_Returns)%bind_Returns. Qed.

(** The instants of the tables are instants of [Date]. *)
Record stamps_ok (d : Db) : Prop := {
  so_credentials : forall i n, db_nodes d !! i = Some n -> opt_all is_timestamp (nd_credential_until n) = true;
  so_reports : forall i r, db_runtime_nodes d !! i = Some r -> opt_all is_timestamp (rn_received_at r) = true;
  so_operations : forall i o, db_operations d !! i = Some o -> is_timestamp (op_created_at o) && is_timestamp (op_updated_at o) = true;
}.

Lemma toISOString_total z : is_timestamp z = true -> toISOString z = Returns (iso_text z).
Proof. unfold is_timestamp, toISOString, throw_if. intros Hz. destruct (_ <? _) eqn:E; [|done]. propify. lia. Qed.

Lemma opt_iso_total o : opt_all is_timestamp o = true -> opt_iso o = Returns (iso_text <$> o).
Proof. destruct o as [z|]; [|done]. cbn. intros Hz. by rewrite toISOString_total. Qed.

Lemma node_item_total d i n : stamps_ok d -> db_nodes d !! i = Some n -> exists t, node_item d (i, n) = Returns t.
Proof.
  intros [S1 S2 _] Hn. unfold node_item. cbn zeta. cbn [fst snd]. rewrite (opt_iso_total _ (S1 i n Hn)). cbn [mbind outcome_bind].
  rewrite opt_iso_total; [eexists; reflexivity|]. destruct (db_runtime_nodes d !! i) as [r|] eqn:E; [by eapply S2|done].
Qed.

Lemma operation_item_total d i o : stamps_ok d -> db_operations d !! i = Some o -> exists t, operation_item d (i, o) = Returns t.
Proof.
  intros [_ _ S3] Ho. apply S3, andb_prop in Ho as [Hc Hu]. unfold operation_item. cbn zeta. cbn [fst snd]. rewrite !toISOString_total by done. eexists. reflexivity.
Qed.

(** What a list promises: its rows, that its pages put together are its rows, and that a
    page with valid filters is answered. *)
Definition pages_exact {V T} (kind : ConsoleListKind) (fs : ConsoleFilters) (read : ConsolePaging -> tx (ConsolePage T)) (key : T -> jsstr)
    (le : jsstr * V -> jsstr * V -> bool) (where_ : jsstr -> V -> bool) (m : gmap jsstr V) (rows : list (jsstr * V)) (d : Db) : Prop :=
  rows_of le where_ m rows /\ lists_all read key rows d /\
  forall p, validateConsoleFilters kind fs = Returns tt -> page_bounds p = true -> exists pg, read p d = Returns (pg, d).

Lemma pages_exact_ordered {V T} (kind : ConsoleListKind) (fs : ConsoleFilters) (rows : Db -> list (jsstr * V)) (item : Db -> jsstr * V -> outcome T) (key : T -> jsstr)
    (le : jsstr * V -> jsstr * V -> bool) (where_ : jsstr -> V -> bool) (m : gmap jsstr V) d :
  rows d = ordered le where_ m -> (forall a b, le a b = false -> le b a = true) -> (forall r t, item d r = Returns t -> key t = r.1) ->
  (forall i v, m !! i = Some v -> exists t, item d (i, v) = Returns t) ->
  pages_exact kind fs (fun p => _ ← lift (validateConsoleFilters kind fs); console_page rows item p) key le where_ m (rows d) d.
Proof.
  intros Hr Hle Hkey Hitem. assert (Hrows : rows_of le where_ m (rows d)) by (rewrite Hr; by apply ordered_rows). split_and!; [done|by apply lists_all_page|].
  intros p Hf Hp. destruct (console_page_total rows item (fun _ _ => True) p d Hp) as (pg & Hpg & _).
  { intros [i v] [Hm _]%(ro_rows _ _ _ _ Hrows). destruct (Hitem i v Hm) as [t Ht]. by exists t. }
  exists pg. unfold mbind, tx_bind, lift. by rewrite Hf.
Qed.


(** The console only reads. *)
Lemma reads_console_page {R T} (rows : Db -> list R) (item : Db -> R -> outcome T) p : evolves eq (console_page rows item p).
Proof. unfold console_page. evolve. Qed.

Lemma reads_console_diagnostics now a s n : evolves eq (console_diagnostics now a s n).
Proof. unfold console_diagnostics, read_diagnostics. evolve. Qed.

Lemma reads_console_overview now a s : evolves eq (console_overview now a s).
Proof. unfold console_overview, read_overview. evolve. Qed.

(** A candidate is a Node on which the actor has a grant and whose credential is current. *)
Lemma candidates_usable now a s fs d i n : (i, n) ∈ candidate_rows now a s fs d ->
  nd_scope_id n = s /\ nd_revoked n = false /\ (exists t, nd_credential_until n = Some t /\ now < t) /\ (i, a) ∈ db_node_grants d /\
  forall c, c ∈ candidate_capabilities fs -> c ∈ nf_capabilities (nd_facts n).
Proof.
  intros Hin. apply (ro_rows _ _ _ _ (ordered_rows by_id (candidate_where now a s fs (db_node_grants d)) (db_nodes d) by_id_total)) in Hin as [_ Hw].
  unfold candidate_where in Hw. cbn zeta in Hw. do 9 apply andb_prop in Hw as [Hw ?]. apply str_eqb_true in Hw. propify.
  destruct (nd_credential_until n) as [t|]; [|done]. propify. split_and!; try done; [exists t; by split|].
  intros c Hc. match goal with E : forallb _ _ = true |- _ => rewrite forallb_forall in E; apply includes_true, E; by apply list_elem_of_In end.
Qed.
