(* ===== verification/TunnelQueries.v ===== *)
(** Where Nodes and Profiles are used (apps/control/src/application/tunnel-queries.ts,
    transport-queries.ts, infrastructure/mysql-tunnel-read.ts and
    mysql-transport-read.ts): the Relay credentials a Node has, the Forwards that pass
    through it, and those that refer to a Profile.  All of it only reads; [now] is the
    clock, and constant members of the answers are left out. *)

From S2P Require Import Prelude.
From S2P Require Import JsString.
From S2P Require Import JsValue.
From S2P Require Import Primitives.
From S2P Require Import Json.
From S2P Require Import Forward.
From S2P Require Import Digest.
From S2P Require Import Types.
From S2P Require Import Schema.
From S2P Require Import TargetPolicy.
From S2P Require Import Relay.
From S2P Require Import RelayPlan.
From S2P Require Import Endpoint.
From S2P Require Import Iso.
From S2P Require Import Store.
From S2P Require Import Forwarding.
From S2P Require Import Identity.
From S2P Require Import Nodes.
From S2P Require Import Profiles.
From S2P Require Import Reads.
From S2P Require Import TransitStaging.
From S2P Require Import TransitDelivery.
From S2P Require Import Probe.
From S2P Require Import ProbePlans.
From S2P Require Import ProbePermits.
From S2P Require Import ProbeMoves.
From S2P Require Import Observations.
From S2P Require Import Console.

Local Open Scope Z_scope.

Definition integrity {A} (m : string) : tx A := throw "INTEGRITY_FAILURE" m.
Definition sound_row (b : bool) (m : string) : tx unit := require b "INTEGRITY_FAILURE" m.

(** ** The Node *)

Record TunnelNodeRecord := MkTunnelNode {
  tn_nodeId : jsstr; tn_revoked : bool; tn_credentialUntil : option Z; tn_capabilities : list jsstr; tn_sessionEpoch : Z; tn_snapshotGeneration : Z;
  tn_lastReportAt : option Z;
}.

Definition tunnel_row (scopeId nodeId : jsstr) (d : Db) : option TunnelNodeRecord :=
  n ← db_nodes d !! nodeId;
  if negb (str_eqb (nd_scope_id n) scopeId) then None else
  let r := db_runtime_nodes d !! nodeId in
  Some (MkTunnelNode nodeId (nd_revoked n) (nd_credential_until n) (nf_capabilities (nd_facts n)) (match r with Some r => rn_session_epoch r | None => 0 end)
          (match r with Some r => rn_snapshot_generation r | None => 0 end) (r ← r; rn_received_at r)).

Definition capability_ok (c : jsstr) : bool := negb (bool_decide (c = [])) && (length c <=? 128)%nat.

Definition tunnel_node (scopeId nodeId : jsstr) : tx TunnelNodeRecord :=
  r ← query (tunnel_row scopeId nodeId);
  match r with
  | None => notFound
  | Some r =>
      _ ← sound_row (opt_all is_timestamp (tn_credentialUntil r) && is_counter true (tn_sessionEpoch r) && is_counter true (tn_snapshotGeneration r) &&
                     opt_all is_timestamp (tn_lastReportAt r) && (length (tn_capabilities r) <=? 256)%nat && forallb capability_ok (tn_capabilities r) &&
                     bool_decide (NoDup (tn_capabilities r))) "Invalid persisted tunnel Node metadata";
      mret r
  end.

(** ** Relay credentials *)

(** [revoked=FALSE AND valid_until>? AND (retire_after IS NULL OR retire_after>?)] *)
Definition peer_open (now : Z) (c : CredentialRow) : bool :=
  negb (cr_revoked c) && (now <? cr_valid_until c) && match cr_retire_after c with Some u => now <? u | None => true end.

(** [ORDER BY (open) DESC, issued_at DESC, fingerprint DESC] *)
Definition by_window (now : Z) (a b : jsstr * CredentialRow) : bool :=
  if Bool.eqb (peer_open now a.2) (peer_open now b.2)
  then if cr_issued_at a.2 =? cr_issued_at b.2 then str_leb b.1 a.1 else cr_issued_at b.2 <? cr_issued_at a.2
  else peer_open now a.2.

Definition peer_rows (now : Z) (nodeId : jsstr) (d : Db) : list (jsstr * CredentialRow) :=
  ordered (by_window now) (fun _ c => str_eqb (cr_node_id c) nodeId) (db_relay_credentials d).

Record TunnelPeer := MkTunnelPeer {
  tp_fingerprint : jsstr; tp_issuedAt : jsstr; tp_validUntil : jsstr; tp_retireAfter : option jsstr; tp_revoked : bool; tp_effectiveUntil : option jsstr;
  tp_recordedWindowOpen : bool;
}.

(** [Math.min(validUntil, retireAfter ?? validUntil, credentialUntil)] *)
Definition effective_until (n : TunnelNodeRecord) (c : CredentialRow) : option Z :=
  (fun u => Z.min (Z.min (cr_valid_until c) (default (cr_valid_until c) (cr_retire_after c))) u) <$> tn_credentialUntil n.

Definition machine_open (now : Z) (n : TunnelNodeRecord) : bool :=
  negb (tn_revoked n) && match tn_credentialUntil n with Some u => now <? u | None => false end.

Definition peer_item (now : Z) (n : TunnelNodeRecord) (p : jsstr * CredentialRow) : outcome TunnelPeer :=
  let c := p.2 in
  _ ← throw_if (negb (is_hex64 p.1 && is_timestamp (cr_issued_at c) && is_timestamp (cr_valid_until c) && (cr_issued_at c <=? cr_valid_until c) &&
                      opt_all is_timestamp (cr_retire_after c))) "INTEGRITY_FAILURE" "Invalid persisted Relay credential window";
  issued ← toISOString (cr_issued_at c);
  valid ← toISOString (cr_valid_until c);
  retire ← opt_iso (cr_retire_after c);
  effective ← opt_iso (effective_until n c);
  Returns (MkTunnelPeer (js "sha256:" ++ p.1) issued valid retire (cr_revoked c) effective
             (machine_open now n && negb (cr_revoked c) && match effective_until n c with Some u => now <? u | None => false end)).

Record TunnelStatus := MkTunnelStatus {
  ts_node : TunnelNodeRecord; ts_observedAt : jsstr; ts_machineWindowOpen : bool; ts_credentialUntil : option jsstr; ts_lastReportAt : option jsstr;
  ts_endpoint : option (Z * RelayEndpoint); ts_total : Z; ts_windowCount : Z; ts_truncated : bool; ts_peers : list TunnelPeer;
}.

Definition tunnel_identity (actorId scopeId nodeId : jsstr) : tx unit :=
  require (is_id actorId && is_id scopeId && is_id nodeId) "INVALID_CONFIG" "Valid Scope and Node identity required".

Definition tunnel_endpoint (nodeId : jsstr) : tx (option (Z * RelayEndpoint)) :=
  e ← query (fun d => db_relay_endpoints d !! nodeId);
  match e with
  | None => mret None
  | Some e =>
      _ ← sound_row (is_counter false (ep_revision e)) "Invalid persisted Relay Endpoint revision";
      match parseRelayEndpoint (to_jsv (endpoint_json (ep_config e))) with
      | Returns c => mret (Some (ep_revision e, c))
      | Throws _ => integrity "Invalid persisted Relay Endpoint configuration"
      end
  end.

Definition tunnel_status (now : Z) (actorId scopeId nodeId : jsstr) : tx TunnelStatus :=
  _ ← tunnel_identity actorId scopeId nodeId;
  _ ← scope actorId scopeId false;
  n ← tunnel_node scopeId nodeId;
  _ ← sound_row (is_timestamp now) "Invalid metadata observation clock";
  endpoint ← tunnel_endpoint nodeId;
  all ← query (peer_rows now nodeId);
  let windowCount := Z.of_nat (length (List.filter (fun p : jsstr * CredentialRow => peer_open now p.2) all)) in
  _ ← sound_row (windowCount <=? 2) "Invalid bounded Relay credential metadata";
  items ← lift (map_each (peer_item now n) (take 4 all));
  observed ← lift (toISOString now);
  credential ← lift (opt_iso (tn_credentialUntil n));
  last ← lift (opt_iso (tn_lastReportAt n));
  mret (MkTunnelStatus n observed (machine_open now n) credential last endpoint (Z.of_nat (length all)) (if machine_open now n then windowCount else 0)
          (length items <? length all)%nat items).

(** ** Forwards through a Node *)

Inductive TunnelRole := tr_ingress | tr_transit | tr_egress.

#[export] Instance TunnelRole_eq_dec : EqDecision TunnelRole.
Proof. solve_decision. Defined.

(** [endpointRequired] is [index > 0], that is a role other than [ingress]. *)
Record TunnelReference := MkTunnelReference {
  tf_forwardId : jsstr; tf_revision : Z; tf_enabled : bool; tf_recoverySuspended : bool; tf_protocols : list NetworkProtocol; tf_transport : TransportRef;
  tf_role : TunnelRole; tf_endpointRequired : bool; tf_previousNodeId : option jsstr; tf_nextNodeId : option jsstr; tf_path : list jsstr;
}.

Definition forward_path_of (s : ForwardSpec) : list jsstr := ingress_nodeId s :: default [] (path_via s).

(** [path.indexOf(node)] *)
Fixpoint index_in (n : jsstr) (l : list jsstr) : option nat :=
  match l with [] => None | x :: r => if str_eqb x n then Some 0%nat else S <$> index_in n r end.

Definition passes_through (nodeId : jsstr) (s : ForwardSpec) : bool := bool_decide (is_Some (path_via s)) && includes (forward_path_of s) nodeId.

Definition tunnel_where (scopeId nodeId : jsstr) (_ : jsstr) (f : ForwardRow) : bool :=
  str_eqb (fw_scope_id f) scopeId && negb (fw_deleting f) && passes_through nodeId (fw_spec f).

Definition tunnel_rows (scopeId nodeId : jsstr) (d : Db) : list (jsstr * ForwardRow) := ordered by_id (tunnel_where scopeId nodeId) (db_forwards d).

Definition role_at (index len : nat) : TunnelRole := if (index =? 0)%nat then tr_ingress else if (index =? len - 1)%nat then tr_egress else tr_transit.

Definition tunnel_item (nodeId : jsstr) (r : jsstr * ForwardRow) : outcome TunnelReference :=
  let bad := Throws (Exn "INTEGRITY_FAILURE" "Invalid persisted tunnel reference") in
  match parseForwardSpec (to_jsv (spec_json (fw_spec r.2))) with
  | Err _ => bad
  | Ok s =>
      match path_via s, transport s with
      | Some _, Some t =>
          if negb (is_id r.1 && is_counter false (fw_revision r.2)) then bad else
          let path := forward_path_of s in
          match index_in nodeId path with
          | None => Throws (Exn "INTEGRITY_FAILURE" "Tunnel reference does not include the requested Node")
          | Some i =>
              Returns (MkTunnelReference r.1 (fw_revision r.2) (enabled s) (fw_recovery_suspended r.2) (protocols s) t (role_at i (length path)) (0 <? i)%nat
                         (match i with O => None | S j => path !! j end) (path !! S i) path)
          end
      | _, _ => bad
      end
  end.

Definition tunnel_references (actorId scopeId nodeId : jsstr) (pageText limitText : option jsstr) : tx (ConsolePage TunnelReference) :=
  _ ← tunnel_identity actorId scopeId nodeId;
  p ← lift (consolePage pageText limitText);
  _ ← scope actorId scopeId false;
  _ ← tunnel_node scopeId nodeId;
  console_page (tunnel_rows scopeId nodeId) (fun _ => tunnel_item nodeId) p.

(** ** References to a Profile *)

Record ProfileReferenceQuery := MkReferenceQuery { rq_page : option jsstr; rq_limit : option jsstr; rq_revision : option Z; rq_targetRevision : option Z }.

Record ProfileReference := MkProfileReference {
  pf_forwardId : jsstr; pf_revision : Z; pf_configRevision : Z; pf_recoverySuspended : bool; pf_spec : ForwardSpec; pf_proposedSpec : option ForwardSpec;
  pf_changed : option bool;
}.

Record ProfileReferences := MkProfileReferences { pfr_currentRevision : Z; pfr_target : option (Z * jsstr); pfr_page : ConsolePage ProfileReference }.

Definition profile_where (scopeId profile : jsstr) (revision_ : option Z) (_ : jsstr) (f : ForwardRow) : bool :=
  str_eqb (fw_scope_id f) scopeId && negb (fw_deleting f) &&
  match transport (fw_spec f) with
  | Some t => str_eqb (profileId t) profile && match revision_ with Some n => configRevision t =? n | None => true end
  | None => false
  end.

Definition profile_rows (scopeId profile : jsstr) (revision_ : option Z) (d : Db) : list (jsstr * ForwardRow) :=
  ordered by_id (profile_where scopeId profile revision_) (db_forwards d).

(** [{ ...spec, transport: { profileId, configRevision } }] *)
Definition with_transport (s : ForwardSpec) (t : TransportRef) : ForwardSpec :=
  MkSpec (enabled s) (protocols s) (ingress_nodeId s) (ingress_listen s) (target s) (path_via s) (Some t).

(** [spec?.transport?.configRevision ?? 0] *)
Definition config_revision (s : ForwardSpec) : Z := match transport s with Some t => configRevision t | None => 0 end.

Definition profile_item (profile : jsstr) (revision_ : option Z) (target : option Z) (r : jsstr * ForwardRow) : outcome ProfileReference :=
  let bad := Throws (Exn "INTEGRITY_FAILURE" "Invalid persisted Profile reference") in
  let n := config_revision (fw_spec r.2) in
  match parseForwardSpec (to_jsv (spec_json (fw_spec r.2))) with
  | Err _ => bad
  | Ok s =>
      match transport s with
      | Some t =>
          if is_id r.1 && is_counter false (fw_revision r.2) && is_counter false n && bool_decide (is_Some (path_via s)) && str_eqb (profileId t) profile &&
             (configRevision t =? n) && opt_all (Z.eqb n) revision_
          then Returns (MkProfileReference r.1 (fw_revision r.2) n (fw_recovery_suspended r.2) s ((fun v => with_transport s (Transport profile v)) <$> target)
                          ((fun v => negb (n =? v)) <$> target))
          else bad
      | None => bad
      end
  end.

Section References.
Context `{Hashing, Schema RelayProfileConfig}.

Definition profile_target (actorId scopeId profile : jsstr) (targetRevision : option Z) : tx (option (Z * jsstr)) :=
  match targetRevision with
  | None => mret None
  | Some n =>
      t ← resolve actorId scopeId profile n;
      _ ← sound_row (str_eqb (rpf_profileId t) profile && (rpf_revision t =? n)) "Profile resolution differs from requested immutable revision";
      mret (Some (n, rpf_configDigest t))
  end.

Definition profile_references (actorId scopeId profile : jsstr) (q : ProfileReferenceQuery) : tx ProfileReferences :=
  _ ← require (is_id actorId && is_id scopeId && is_id profile && opt_all (is_counter false) (rq_revision q) && opt_all (is_counter false) (rq_targetRevision q))
        "INVALID_CONFIG" "Bounded Profile reference query required";
  p ← lift (consolePage (rq_page q) (rq_limit q));
  _ ← scope actorId scopeId (bool_decide (is_Some (rq_targetRevision q)));
  metadata ← query (fun d => match db_transport_profiles d !! profile with
                             | Some m => if str_eqb (pf_scope_id m) scopeId then Some (pf_current_revision m) else None
                             | None => None
                             end);
  match metadata with
  | None => notFound
  | Some current =>
      _ ← sound_row (is_counter false current) "Invalid current Profile revision";
      target ← profile_target actorId scopeId profile (rq_targetRevision q);
      page ← console_page (profile_rows scopeId profile (rq_revision q)) (fun _ => profile_item profile (rq_revision q) (fst <$> target)) p;
      mret (MkProfileReferences current target page)
  end.
End References.

(** All of it only reads. *)
Lemma reads_tunnel_node s n : evolves eq (tunnel_node s n).
Proof. unfold tunnel_node, notFound, sound_row. evolve. Qed.

Lemma reads_tunnel_status now a s n : evolves eq (tunnel_status now a s n).
Proof.
  unfold tunnel_status, tunnel_identity, sound_row, tunnel_endpoint, integrity. evolve. all: try apply reads_tunnel_node. all: unfold sound_row; evolve.
Qed.

Lemma reads_tunnel_references a s n p l : evolves eq (tunnel_references a s n p l).
Proof. unfold tunnel_references, tunnel_identity. evolve. all: try apply reads_tunnel_node. all: apply reads_console_page. Qed.

(** ** What the references are *)

Lemma index_in_Some n l i : index_in n l = Some i <-> l !! i = Some n /\ n ∉ take i l.
Proof.
  revert i. induction l as [|x r IH]; intros i; cbn; [by split; [|intros [? _]]|]. destruct (str_eqb x n) eqn:E.
  - apply str_eqb_true in E as ->. split; [intros [= <-]; split; [done|apply not_elem_of_nil]|]. intros [Hl Hn]. destruct i; [done|]. cbn in Hn. set_solver.
  - apply str_eqb_false in E. destruct i as [|i]; cbn.
    + split; [by intros (j & _ & ?)%fmap_Some|intros [[= ->] _]; done].
    + rewrite not_elem_of_cons, fmap_Some. setoid_rewrite IH. split; [intros (j & [Hj Hn] & [= <-]); auto|intros [Hj [_ Hn]]; exists i; auto].
Qed.

Lemma passes_path n s : spec_wf s -> passes_through n s = true -> exists via t i, path_via s = Some via /\ transport s = Some t /\ index_in n (forward_path_of s) = Some i.
Proof.
  intros Hwf Hp. unfold passes_through in Hp. apply andb_prop in Hp as [Hv%bool_decide_eq_true Hin%includes_true].
  pose proof (proj1 (wf_locked _ Hwf) Hv) as [t Ht]. destruct Hv as [via Hv]. exists via, t.
  assert (Hex : exists i, index_in n (forward_path_of s) = Some i); [|naive_solver].
  induction (forward_path_of s) as [|x r IH]; [by apply not_elem_of_nil in Hin|]. cbn. destruct (str_eqb x n) eqn:E; [by exists 0%nat|].
  apply str_eqb_false in E. apply elem_of_cons in Hin as [->|Hin]; [done|]. destruct (IH Hin) as [i ->]. by exists (S i).
Qed.

(** What a listed reference says of the Forward: the Node's place on its path. *)
Definition reference_of (nodeId : jsstr) (r : jsstr * ForwardRow) (t : TunnelReference) : Prop :=
  tf_forwardId t = r.1 /\ tf_revision t = fw_revision r.2 /\ tf_enabled t = enabled (fw_spec r.2) /\ tf_path t = forward_path_of (fw_spec r.2) /\
  Some (tf_transport t) = transport (fw_spec r.2) /\
  exists before after, tf_path t = before ++ nodeId :: after /\ tf_previousNodeId t = last before /\ tf_nextNodeId t = head after /\
    (tf_role t = tr_ingress <-> before = []) /\ (tf_role t = tr_egress <-> before <> [] /\ after = []) /\ (tf_endpointRequired t = true <-> before <> []).

Lemma split_at {A} (l : list A) k x : l !! k = Some x -> l = take k l ++ x :: drop (S k) l /\ match k with O => None | S j => l !! j end = last (take k l) /\
  l !! S k = head (drop (S k) l) /\ length l = (k + S (length (drop (S k) l)))%nat /\ (k = 0%nat <-> take k l = []).
Proof.
  intros Hk. pose proof (lookup_lt_Some _ _ _ Hk) as Hlt. split_and!.
  - by rewrite take_drop_middle.
  - destruct k as [|j]; [done|]. destruct (lookup_lt_is_Some_2 l j ltac:(lia)) as [y Hy]. by rewrite Hy, (take_S_r l j y Hy), last_snoc.
  - rewrite head_lookup, lookup_drop. f_equal. lia.
  - rewrite length_drop. lia.
  - split; [by intros ->|]. intros E%(f_equal length). rewrite length_take in E. cbn in E. lia.
Qed.

Lemma tunnel_item_exact nodeId r : forward_wf (to_forward r) -> passes_through nodeId (fw_spec r.2) = true ->
  exists t, tunnel_item nodeId r = Returns t /\ reference_of nodeId r t.
Proof.
  intros [Hid _ Hrev Hs] Hp. destruct r as [i f]. cbn in Hid, Hrev, Hs. destruct (passes_path nodeId _ Hs Hp) as (via & t & k & Hvia & Ht & Hk).
  unfold tunnel_item. cbn [fst snd]. rewrite parse_spec_canonical by done. rewrite Hvia, Ht, Hid, Hrev, Hk. eexists. split; [reflexivity|].
  apply index_in_Some in Hk as [Hk _]. destruct (split_at _ _ _ Hk) as (Hl & Hprev & Hnext & Hlen & H0).
  split_and!; try done. exists (take k (forward_path_of (fw_spec f))), (drop (S k) (forward_path_of (fw_spec f))). cbn -[last head drop take].
  split_and!; try done.
  - unfold role_at. destruct (k =? 0)%nat eqn:E; [rewrite Nat.eqb_eq in E; tauto|]. rewrite Nat.eqb_neq in E. destruct (k =? _)%nat; naive_solver.
  - unfold role_at. destruct (k =? 0)%nat eqn:E; [rewrite Nat.eqb_eq in E; naive_solver|]. rewrite Nat.eqb_neq in E.
    destruct (drop (S k) _) as [|y l]; cbn in Hlen; destruct (k =? _)%nat eqn:E2; propify; try (rewrite Nat.eqb_eq in E2); try (rewrite Nat.eqb_neq in E2); naive_solver lia.
  - destruct k; naive_solver.
Qed.

(** A row that is listed has a Forward of the Scope that is not being deleted. *)
Lemma tunnel_where_true s n i f : tunnel_where s n i f = true -> fw_scope_id f = s /\ fw_deleting f = false /\ passes_through n (fw_spec f) = true.
Proof. unfold tunnel_where. intros [[E%str_eqb_true D%negb_true_iff]%andb_prop P]%andb_prop. done. Qed.

(** A listed row of a database whose Forwards are well formed has an answer that tells the
    Node's place on the Forward's path. *)
Lemma tunnel_rows_items s n d r : forwards_wf d -> r ∈ tunnel_rows s n d -> exists t, tunnel_item n r = Returns t /\ reference_of n r t.
Proof.
  intros Hwf Hr. destruct r as [i f].
  apply (ro_rows _ _ _ _ (ordered_rows by_id (tunnel_where s n) (db_forwards d) by_id_total)) in Hr as [Hm (_ & _ & Hp)%tunnel_where_true].
  apply tunnel_item_exact; [by apply (Hwf i f)|done].
Qed.

Lemma tunnel_item_id n r t : tunnel_item n r = Returns t -> tf_forwardId t = r.1.
Proof. unfold tunnel_item. intros Hr. repeat case_match; try done. all: by injection Hr as <-. Qed.


(** *** References to a Profile *)

(** The proposal changes only the revision of the Profile. *)
Definition profile_reference_of (profile : jsstr) (target : option Z) (r : jsstr * ForwardRow) (t : ProfileReference) : Prop :=
  pf_forwardId t = r.1 /\ pf_revision t = fw_revision r.2 /\ pf_spec t = fw_spec r.2 /\ transport (fw_spec r.2) = Some (Transport profile (pf_configRevision t)) /\
  (is_Some (pf_proposedSpec t) <-> is_Some target) /\
  forall v q, target = Some v -> pf_proposedSpec t = Some q ->
    transport q = Some (Transport profile v) /\ with_transport q (Transport profile (pf_configRevision t)) = fw_spec r.2 /\
    (pf_changed t = Some false <-> q = fw_spec r.2) /\ (is_counter false v = true -> spec_wf q).

Lemma with_transport_wf s t t' : spec_wf s -> transport s = Some t -> transport_wf t' -> spec_wf (with_transport s t').
Proof.
  intros [W1 W2 W3 W4 W5 W6 W7 W8 W9] Ht Hw. split; cbn; try done; [by intros ? [= <-]|]. split; [eauto|]. intros _. apply W9. by rewrite Ht.
Qed.

Lemma profile_item_exact s profile rev target r : forward_wf (to_forward r) -> profile_where s profile rev r.1 r.2 = true ->
  exists t, profile_item profile rev target r = Returns t /\ profile_reference_of profile target r t.
Proof.
  intros [Hid _ Hrev Hs] Hw. destruct r as [i f]. cbn in Hid, Hrev, Hs, Hw. unfold profile_where in Hw. apply andb_prop in Hw as [_ Hw].
  destruct (transport (fw_spec f)) as [tr|] eqn:Ht; [|done]. apply andb_prop in Hw as [<-%str_eqb_true Hr]. destruct (wf_transport _ Hs _ Ht) as [Hpid Hcr].
  assert (Hp : is_Some (path_via (fw_spec f))) by (apply (wf_locked _ Hs); by rewrite Ht).
  assert (Hn : opt_all (Z.eqb (configRevision tr)) rev = true) by (by destruct rev).
  unfold profile_item. cbn [fst snd]. unfold config_revision. rewrite parse_spec_canonical, Ht, Hid, Hrev, Hcr by done.
  rewrite (bool_decide_eq_true_2 _ Hp), (proj2 (str_eqb_true _ _) eq_refl), Z.eqb_refl, Hn. cbn [andb]. eexists. split; [reflexivity|].
  split_and!; try done; [by destruct tr|by apply fmap_is_Some|]. cbn. intros v q -> [= <-]. split_and!; try done.
  - destruct tr, (fw_spec f). cbn in *. by subst.
  - destruct tr as [pid n0], (fw_spec f) as [e0 pr0 i0 l0 tg0 v0 t0]. cbn in *. subst. unfold with_transport. cbn. split.
    + intros [= E]. propify. by replace v with n0 by lia.
    + intros [= ->]. by rewrite Z.eqb_refl.
  - intros Hv. by eapply with_transport_wf.
Qed.
