(* ===== verification/ReadGuarantees.v ===== *)
(** The observations and the read models on concrete states: a report that is current, a
    host with one read, the pages of the scope of the Transit stages and the Forwards
    through its middle Node. *)

From S2P Require Import Prelude.
From S2P Require Import JsString.
From S2P Require Import Json.
From S2P Require Import Forward.
From S2P Require Import Types.
From S2P Require Import RelayPlan.
From S2P Require Import Iso.
From S2P Require Import Store.
From S2P Require Import Forwarding.
From S2P Require Import Identity.
From S2P Require Import Operations.
From S2P Require Import TransitStaging.
From S2P Require Import Observations.
From S2P Require Import ObservationText.
From S2P Require Import Console.
From S2P Require Import TunnelQueries.

Local Open Scope Z_scope.

(** ** A current report *)

Definition read_time : Z := 1780000000000.

Definition read_evidence_row : NodeReportEvidence :=
  MkReportEvidence (js "n1") (js "s1") false (Some (read_time + 1000000)) 5 (Some (js "boot1")) 3 (Some (read_time + 200000)) false
    (Some (MkProvenance (js "n1") (js "boot1") 5 9 3 (read_time - 2000) (read_time - 1000) 4)).

Definition read_policy : NodeObservationPolicy := MkObservationPolicy 60000 1000.

Definition read_observation : outcome NodeReportObservation := observeNodeReport read_evidence_row (js "s1") (js "n1") read_time read_policy.

Lemma read_observation_Returns : exists o, read_observation = Returns o /\ no_status o = os_observed.
Proof.
  assert (E : match read_observation with Returns (MkNodeObservation _ _ _ os_observed _ _ _ _) => true | _ => false end = true) by (vm_compute; reflexivity).
  destruct read_observation as [[? ? ? [] ? ? ? ?]|]; try discriminate E. eexists. split; reflexivity.
Qed.

Lemma observe_exact_witness : exists o x text, read_observation = Returns o /\ toISOString x = Returns text /\ no_expiresAt o = Some text /\ read_time < x.
Proof.
  destruct read_observation_Returns as (o & E & Hs).
  destruct (@observe_exact read_evidence_row (js "s1") (js "n1") read_time read_policy o ltac:(unfold read_time; lia) E) as (_ & _ & _ & _ & _ & _ & Hx).
  destruct (Hx Hs) as (x & text & _ & Htext & Hexp & Hlt & _). exists o, x, text. split; [exact E|]. split; [exact Htext|]. split; [exact Hexp|exact Hlt].
Defined.

Lemma observation_fits_witness : exists o, read_observation = Returns o /\ utf8_octets (stringify (observation_json o)) <= maxResultBytes.
Proof.
  destruct read_observation_Returns as (o & E & _). exists o. split; [exact E|].
  exact (proj2 (@observation_fits read_evidence_row (js "s1") (js "n1") read_time read_policy o ltac:(reflexivity) ltac:(reflexivity) E)).
Defined.

(** ** A host with one read *)

Definition one_read : Host := (admit_observation 0 (js "u1") (js "s1") (js "n1") new_host).2.
Definition one_run : HostRun := MkHostRun one_read [(js "u1", node_key (js "s1") (js "n1"))] 0.

Lemma one_step : host_step (MkHostRun new_host [] 0) one_run.
Proof. refine (hs_admit new_host [] 0 0 (js "u1") (js "s1") (js "n1") one_read ltac:(lia) _). vm_compute. reflexivity. Qed.

Lemma host_bounded_witness : host_ok one_run /\ ho_active (hr_host one_run) = 1.
Proof.
  destruct (@host_bounded (MkHostRun new_host [] 0) one_run (new_host_ok 0) (rtc_once _ _ one_step)) as (K & _ & _ & _ & E & _). split; [exact K|exact E].
Defined.

(** The actor is admitted again once the second is over. *)
Definition rested_host : Host := release_observation 5 (js "u1") (node_key (js "s1") (js "n1")) one_read.

Lemma host_cooldown_witness : exists h', admit_observation (5 + cooldown) (js "u1") (js "s1") (js "n1") rested_host = (Returns tt, h') /\ 5 + cooldown <= 5 + cooldown.
Proof.
  assert (E : is_returns (admit_observation (5 + cooldown) (js "u1") (js "s1") (js "n1") rested_host).1 = true) by (vm_compute; reflexivity).
  destruct (admit_observation (5 + cooldown) (js "u1") (js "s1") (js "n1") rested_host) as [[[]|] h'] eqn:Ea; [|discriminate E]. exists h'. split; [reflexivity|].
  exact (@host_cooldown one_read [] [] 0 5 (js "u1") (node_key (js "s1") (js "n1")) (MkHostRun rested_host [] 5) (5 + cooldown) (js "s1") (js "n1") h'
    (host_step_ok _ _ one_step (new_host_ok 0)) ltac:(lia) (rtc_refl _ _) ltac:(unfold cooldown, cooldownMs; cbn; lia) Ea).
Defined.

(** ** Pages *)

Lemma staging_stamps : stamps_ok staging_db.
Proof.
  split.
  - refine (bool_decide_eq_true_1 (map_Forall (fun _ n => opt_all is_timestamp (nd_credential_until n) = true) (db_nodes staging_db)) _). vm_compute. reflexivity.
  - refine (bool_decide_eq_true_1 (map_Forall (fun _ r => opt_all is_timestamp (rn_received_at r) = true) (db_runtime_nodes staging_db)) _). vm_compute. reflexivity.
  - refine (bool_decide_eq_true_1 (map_Forall (fun _ o => is_timestamp (op_created_at o) && is_timestamp (op_updated_at o) = true) (db_operations staging_db)) _).
    vm_compute. reflexivity.
Qed.

Definition staging_filters : ConsoleFilters := [(js "idPrefix", js "n"); (js "credential", js "valid")].


Lemma read_returns {A} (m : tx A) d : evolves eq m -> is_returns (m d) = true -> exists a, m d = Returns (a, d).
Proof. intros Hm Hr. apply is_returns_true in Hr as [[a d'] Ha]. exists a. by rewrite (Hm d a d' Ha) at 2. Qed.

(** The Forward of the scope passes through its middle Node. *)
Lemma staging_scope : exists b, scope (js "u1") (js "s1") false staging_db = Returns (b, staging_db).
Proof. apply read_returns; [unfold scope; evolve|]. vm_compute. reflexivity. Qed.

Lemma staging_tunnel_node : exists r, tunnel_node (js "s1") (js "n2") staging_db = Returns (r, staging_db).
Proof. apply read_returns; [apply reads_tunnel_node|]. vm_compute. reflexivity. Qed.

Lemma staging_references : bool_decide (map (fun r : jsstr * ForwardRow => (r.1, forward_path_of (fw_spec r.2))) (tunnel_rows (js "s1") (js "n2") staging_db) =
  [(js "f1", [js "n1"; js "n2"; js "n3"])]) = true.
Proof. vm_compute. reflexivity. Qed.

